(* ===== verification/_CoqProject ===== *)
-Q . S2P
Prelude.v
GoStd.v
GoStdFacts.v
GoJSON.v
GoJSONFacts.v
GoText.v
Sha256.v
WorkerClasses.v
SubjobTypes.v
SubjobStore.v
SubjobTask.v
SubjobCodec.v
SubjobSystem.v
SubjobInvariants.v
SubjobFacts.v
Dispatcher.v
DispatcherFacts.v
Planner.v
PlannerFacts.v
ManifestDelta.v
FileTree.v
ScipDetect.v
ScipDetectFacts.v
Executor.v
ExecutorFacts.v
Scheduler.v
SchedulerFacts.v
RepoPaths.v
RepoIndexStatus.v
GraphSchema.v
GraphStore.v
GraphStoreFacts.v
GraphScope.v
GraphWrite.v
ScipProjection.v
RepoIndexDB.v
RepoJobs.v
RepoTask.v
CoreDB.v
Disk.v
ScipRows.v
ScipRowsFacts.v
ArtifactScope.v
ArtifactValidator.v
ArtifactValidatorFacts.v
IndexCore.v
ScipProjectionFacts.v
CoreActivate.v
CodeGraphWriter.v
ArtifactStores.v
ScipStore.v
CoreFacts.v
CodeGraphWriterFacts.v
GraphRowsFacts.v
CoreRun.v
CoreActivateFacts.v
ScipStoreFacts.v
PipelineFacts.v
PlanWriter.v
PlanWriterFacts.v
CodeHosts.v
OtherHosts.v
ConnectionSync.v
ConnectionSyncFacts.v
RepoCleanup.v
RepoHandler.v
RepoJobFacts.v
RepoCleanupFacts.v
RepoPlanFacts.v
SubjobWitness.v
GraphWitness.v
RepoWitness.v
CoreWitness.v
WriterWitness.v
ArtifactWitness.v
SyncWitness.v
Encryption.v
SecretRefs.v
OrgAPI.v
OrgAPIFacts.v
