(* ===== verification/Prelude.v ===== *)
(** * Codeintel: a verification library

    Codeintel indexes source repositories for several organisations.  A connection
    to a code host is synchronised into rows of repositories.  A user's request opens
    a "RepoIndexingJob"; a planner splits the job into subjobs (Zoekt, tree-sitter
    AST, one SCIP run per project, graph merge, activation) that are rows of the
    table "CodeIntelIndexSubjob"; dispatchers put subjobs whose dependencies are done
    on per-class queues; executors claim a subjob under a lease, run it, publish and
    ingest its artifact and close it; sweeps take back expired leases and repair jobs
    whose subjobs failed.  The worker of the repository-index queue stands between
    request and planner: it resolves the revisions to index, takes a snapshot and a
    manifest of each, detects its SCIP projects and hands the work to subjobs, or
    cleans up a repository or a branch.  The results of the AST and SCIP runs become
    rows and then vertices and edges of a graph database, written as statement text
    that is validated before it is sent; the core worker merges them, activates the
    revision and completes the job.  Readers see a status derived from the job and
    the recorded revisions.  Connections, and the secrets and language models they
    refer to, are configured over HTTP by the owners of an organisation.  This library
    models that control plane, the Go packages under src/internal and src/pkg that own
    its state, and proves what they promise each other.

    ** Files

    The order below is close to the order of compilation.

    - Prelude: notations, hint databases, tactics; Go errors and (value, error)
      results; stable sorting and first-occurrence deduplication.
    - GoStd, GoStdFacts: the parts of Go's strings, path, path/filepath and strconv
      the code uses, SQL LIKE and ILIKE, and their laws.  GoJSON, GoJSONFacts:
      encoding/json and UTF-8 on the bytes, both directions.  GoText: number and
      duration texts, %q and further string functions.  Sha256: the hash function,
      checked against published digests.
    - WorkerClasses: src/pkg/asynqueues/queues.go and
      src/internal/backend/workerclasses/workerclasses.go.
    - SubjobTypes, SubjobStore: src/internal/backend/indexsubjobs/store.go, the
      tables it uses and each of its statements, one definition per method and
      one per WHERE clause, SET clause or CASE.
    - SubjobTask, SubjobCodec: src/internal/backend/indexsubjobtask/payload.go
      and the statement by which the artifact stores validate a lease.
    - SubjobSystem: the statements as the steps of one system, and the effect of
      each step on one row.  SubjobInvariants, SubjobFacts: the theorems about the
      table, its leases, the dispatch query and the sweeps.
    - Dispatcher, DispatcherFacts: dispatcher.go of the same package, written
      against the classes [DispatchStore] and [TaskEnqueuer]; [db_store] is the
      instance over the tables.
    - Planner, PlannerFacts: src/internal/backend/indexplanner/planner.go.
      PlanWriter, PlanWriterFacts: src/internal/backend/indexplanwriter/server.go.
    - ManifestDelta: the file manifests and delta plans of
      src/internal/backend/repoindexmanager (manifest_files.go, delta_plan.go and
      [filterSCIPProjectsForDelta] of handler.go), with their theorems.
    - FileTree: the file system as a finite map from path to kind of file.
      ScipDetect, ScipDetectFacts: src/internal/backend/scipprojectdetect/detect.go.
    - Executor, ExecutorFacts: src/internal/backend/indexexecutor/handler.go.
    - Scheduler, SchedulerFacts: src/internal/backend/scheduler/scheduler.go and
      the payloads of src/pkg/repoindex and src/pkg/connectionsync.
    - RepoPaths: src/pkg/repopaths/paths.go.
    - RepoIndexStatus: src/pkg/repoindexstatus, with its theorems.
    - GraphSchema: src/pkg/graphschema, the rendering of statements and the
      bootstrap of the graph space.  GraphStore: src/internal/backend/graphstore,
      lexing, parsing and validation of rendered statements and the stores behind
      the class [Store].  GraphStoreFacts: lemmas on both; GraphScope, GraphWrite:
      the theorems.
    - CoreDB: the tables of graph snapshots, SCIP rows and revisions, and programs.
      ScipProjection, ScipProjectionFacts: the graph of a revision's SCIP rows.
      IndexCore, CoreActivate: src/internal/backend/indexcore/handler.go; CoreFacts,
      CoreRun, CoreActivateFacts: the theorems.
    - CodeGraphWriter, CodeGraphWriterFacts, GraphRowsFacts:
      src/internal/backend/codegraphwriter/handler.go.
    - Disk: files with contents, directories and links.  ArtifactScope: the checks of
      the stores on the file of an artifact.  ArtifactValidator,
      ArtifactValidatorFacts: src/internal/backend/indexexecutor/artifact_validator.go.
    - ScipRows, ScipRowsFacts, ScipStore, ScipStoreFacts:
      src/internal/backend/scipartifact (rows.go, store.go).  ArtifactStores: the
      packages astartifact, zoektartifact and indexartifacts.  PipelineFacts: the
      layers of an index one after the other.
    - CodeHosts, OtherHosts, ConnectionSync, ConnectionSyncFacts:
      src/internal/backend/connectionmanager, the types of connection and the worker
      of the connection-sync queue.
    - RepoIndexDB, RepoJobs, RepoCleanup, RepoTask, RepoHandler:
      src/internal/backend/repoindexmanager (store.go, cleanup.go, handler.go) and
      the decoding of its tasks (src/pkg/repoindex/payload.go).  RepoJobFacts,
      RepoPlanFacts, RepoCleanupFacts: the theorems.
    - Encryption: src/internal/auth/encrypt.go and hash.go, with the cipher itself.
      SecretRefs: src/internal/secretrefs/secretrefs.go.  OrgAPI, OrgAPIFacts:
      authentication (the rest of src/internal/auth), the handlers of secrets,
      connections and language models in src/internal/api with their statements in
      src/internal/db, and the reading of a secret in src/internal/mcp/ask_codebase.go.
      The witnesses are in [OrgAPIFacts.Sample].
    - SubjobWitness, GraphWitness, RepoWitness, CoreWitness, WriterWitness,
      ArtifactWitness, SyncWitness: concrete tables, plans, runs and inputs on which
      the theorems are applied.

    ** Correspondence

    The database is the record [DB]: tables are finite maps from the primary key
    to the row, with the columns the statements read or write.  A statement is a
    function from tables to tables and a result; [exec] adds a driver failure,
    after which nothing changed.  A method is its argument checks, its statements
    and its error wrapping, in the order of the code.  [NOW()] and the clock of
    the process are arguments.  A row of the subjob table is split into
    [SubjobScope], which no statement changes, and [SubjobRun].  Queue names,
    layers and worker classes stay strings, as in the code; statuses are an
    inductive type with the ten values the table's CHECK admits.  Machine
    integers are [Z]; [wrap32] is written where an int32 computation can wrap
    (the attempt numbers of messages, the spans of definitions).  Go strings are
    byte strings.

    The repository-index manager threads one state, [IndexWorld]: the tables, the
    file system, the statements sent to the graph and a count of calls, in the monad
    [IM]; each call to the database or the file system may fail, by an argument.  Its
    subjobs go through the store of SubjobStore on the same tables: the planner is
    written against the class [SubjobWriter], whose laws [WriterLaws] both the bare
    tables and this state discharge.  The graph store talks to a database that answers
    by an arbitrary function of the calls made so far.

    The core worker, the graph writer and the artifact stores work on [CoreWorld],
    the tables above and those of the graph, the SCIP rows and the revisions.  Their
    code is a [prog], a tree of calls that goes on with each answer; a transaction is
    a [TX], a state function that is applied whole or not at all.  A call meets a
    [CallEnv]: a fault, the clock, fresh ids and what the other sessions did before.
    The connection-sync worker has the same with [SyncWorld] and [SyncEnv], and the
    HTTP handlers with [OrgWorld] and [ApiEnv]; a handler takes the headers, the path
    segment and the outcome of decoding the body ([Decoded]) and ends in a [Reply].  The
    artifact validator works on a [Disk], other processes acting between its steps.

    Concurrency appears in four places.  Statements of different processes
    interleave: [SubjobSystem.op] is any statement by anyone, and the theorems are
    about every list of them.  Inside the executor and the core worker, the heartbeat
    goroutine, the work goroutine and foreign statements interleave by a script the
    theorems quantify over.  In the scheduler, [stmt_step] separates the start of a
    statement, when its snapshot is taken, from the moment its lock is granted.
    Programs meet the changes of other sessions before each of their calls.

    ** What the theorems show

    - The table: its invariant (lease columns filled in exactly while a row is in
      flight, attempt counter within its limit, completion time once it ended,
      FAILED only with the attempts used up), a refinement to a small abstract
      state machine per subjob, and that ended rows never change.
    - Leases: a message is claimed at most once, claims are counted and bounded,
      a worker that lost its lease changes nothing, now or later, and a live
      lease is exclusive.
    - Dispatch and sweeps: the dispatch query returns exactly the ready subjobs
      in order; activation is serialised; the outcome of a reported failure;
      expired leases are released; reconciliation repairs exactly the jobs that
      need it; dispatchers exclude each other and give the lock back; planning
      again changes nothing.
    - Messages: what is dispatched is decodable, names its queue and can be
      claimed; the codec round-trips; whatever decodes is well formed.
    - Planner and plan writer: a plan is the requested layers in dependency order, the
      store accepts it, persisting it leaves exactly those rows, identifiers separate
      scopes up to collisions of SHA-256 in its first 128 bits, and project roots
      stay inside the repository; the plan writer queues plans of running jobs, for
      their prepared manifests, and all of them.
    - Incremental indexing: for every way of indexing a file from its path and
      content, applying a delta plan to the previous index gives the full index of
      the new commit; which SCIP projects run again; files are filed under their
      deepest project root.
    - SCIP projects: every TypeScript input lies in a detected project, every
      marker file has its project, the projects are in order without repetition,
      split by worker class and cut at the limit; and the planner accepts them.
    - Repository-index worker: a task moves only its own job and only while it is
      active, and ends it as its result says; a failed task is not run again; the
      revisions of an INDEX job are those the policy selects, in order, at most
      64; when the worker leaves a job to subjobs, the manifests and subjobs of the
      plan are in the tables.
    - Cleanup: rows and files of other repositories stay; a branch's cleanup
      removes exactly the rows of the branch and leaves the graph snapshots and
      source snapshots that other revisions use.
    - Graph: whatever the validation accepts carries the scope of its message, so
      that messages of different scopes never touch the same vertex; a rendered
      snapshot passes the validation and is read back unchanged; what a write and a
      retirement send; the bootstrap ends.
    - Graph writer and core worker: a write stays within the snapshot of its commit
      and leaves the rows of its statements; the evidence of SCIP becomes a graph the
      writer accepts; a merge takes READY from no snapshot; an activation is all or
      nothing and leaves one READY manifest per branch; when a job completes; the
      worker reports what it did under a held lease, and never panics on a message it
      accepts.
    - Artifacts: a file that a store accepts lies in the directories of its message
      and of no other; what the validator publishes the stores accept; the rows of a
      SCIP artifact are those of a stateless reference definition; their ingestion is
      all or nothing, and reaches the merge.
    - Executor: it reports success only after artifact, validation and ingestion
      in that order under a held lease; its effect is a sequence of store steps.
    - Scheduler: requests that do not overlap keep one active job per repository
      and branch; the meaning of each answer; and a run in which overlapping
      requests break that.
    - Connections: a sync changes rows of its own organisation only, ends its job as
      its result says, and links every repository of its records.
    - Secrets and access: a request changes rows of the caller's organisation only, and
      only as an owner; requests that do not overlap leave no reference to a missing
      secret; redaction hides the credentials of a configuration; what is encrypted is
      decrypted, and a stored secret resolves for its organisation alone.
    - Status and paths: the badge, the branch list, the current graph index, the
      SCIP projection; directories of different repositories and organisations
      are disjoint.

    Theorems that record behaviour that departs from the intent of the code:
    [SchedulerFacts.schedule_race], [SubjobFacts.rescue_fails_ast],
    [SubjobFacts.rescue_takes_other_host], [ManifestDelta.short_root_missed],
    [ManifestDelta.jvm_never_repaired], [RepoJobFacts.failed_task_not_retried],
    [ScipDetectFacts.edited_project_not_rerun], [RepoWitness.branch_shards_survive],
    [PipelineFacts.shared_commit_not_activated], [PipelineFacts.skipped_last_hides_scip],
    [ScipRowsFacts.long_definition_wins], [CoreActivateFacts.lost_completion],
    [GraphRowsFacts.late_write_demotes], [ConnectionSyncFacts.failed_sync_not_resumed],
    [ConnectionSyncFacts.sync_forgets_indexed_revisions],
    [OrgAPIFacts.renamed_connection_copied], [SecretRefs.deep_config_untouched],
    [OrgAPIFacts.Sample.overlapping_requests_dangle] and the part of
    [RepoCleanupFacts.ref_cleanup_rows] on graph indexes.

    ** Bounds and fuel

    [trim_front] and [lower_fuel] run on the length of the string, each step
    removing at least one byte.  [LIKE] runs on the lengths of both arguments.  The
    JSON reader runs on the length of its input, each call consuming a byte, and keeps
    the nesting limit of encoding/json.  [wait_loop] runs on the number of poll
    intervals in its timeout, which [bootstrap_ends] shows to be enough; [fields_fuel]
    and [chunks] on the length of their input; [insert_chunks] on the number of files,
    a chunk taking at least one; [nearest_dir] on the length of the path, which
    [nearest_dir_fuel] shows to be enough.  A path follows at most 40 links in the
    kernel and 255 in filepath.EvalSymlinks.  All loops over rows are list functions.
    A handler run consumes its script; the theorems hold for every script, and every
    script can be completed to one that returns.

    ** Assumptions and limits

    Text columns are compared by bytes (C collation) and ILIKE folds ASCII
    letters.  ORDER BY ties are broken by the order of the scan.  Rows another
    session has locked (SKIP LOCKED) are an argument of the sweeps, and so is the
    choice PostgreSQL makes when two subqueries of the reconciliation statement
    update the same row.  Deletions of jobs and repositories, which cascade, are
    not steps of the system; a violated foreign key and a text the database refuses
    are failures of the driver.  Rows of symbols, occurrences and relationships are
    kept without their ids.  Error texts are modelled, except the escapes of the
    %q verb and the messages of encoding/json.

    Parameters, because their code is not part of the repository or is reached over
    the network: the glob matcher ([Globs] in the connection worker, a compile function
    in the repository-index worker and a matcher in the status package, as the code uses
    it), net/url ([NetURL]), the answers of the code hosts ([HostAPIs]), of the runner,
    the artifact validator and ingestor of the executor, the task queue's verdicts,
    random bytes and host names, the graph database and its clock, git (clone,
    references, trees, worktrees), the text form of nested jsonb values, the decoder of
    SCIP's protocol buffer.  Parameters, because Go leaves them open or their code is
    large: the order of sort.Slice on equal elements ([SliceSort]), the order of a Go map
    in the plan writer, the conversion between float64 and text ([FloatText]).

    In the HTTP handlers the scheduler of syncs, the conversion of an organisation id
    from float64 and the bytes of the random source are parameters.  The JSON text of a
    response, the log and the metadata of audit events are left out, and language models
    are kept in the order of their ids, without them.

    A file system call has no partial effect; the disk does not change while a store
    reads an artifact.

    Not modelled: the gRPC client of the executor; the HTTP clients of the code hosts
    with their paging and retries; the clone itself; the HTTP layer other
    than the handlers named above, and the MCP tools; search and graph reading; the
    retrieval policy and the sinks of audit events; the LLM gateway and its proxy; migrations other than their tables; the Rust indexer;
    the admin interface; the binaries, which wire the components together. *)
From stdpp Require Export base decidable option list sorting gmap strings.
From Stdlib Require Export ZArith Lia.
From Stdlib Require Import Ascii.

#[global] Open Scope Z_scope.

#[global] Arguments String.append : simpl nomatch.

(** ** Notation scope, hint databases, tactics *)

Declare Scope go_scope.
Delimit Scope go_scope with go.
#[global] Open Scope go_scope.

Create HintDb go.

Create Rewrite HintDb gobool.

(** A Go pair [(T, error)]: a value or an error. *)
Inductive result (E A : Type) : Type :=
| Ok (a : A)
| Err (e : E).
Arguments Ok {E A} a.
Arguments Err {E A} e.

Definition is_ok {E A} (r : result E A) : bool :=
  match r with Ok _ => true | Err _ => false end.

(** [if err != nil { return ..., err }] *)
Definition rbind {E A B} (r : result E A) (k : A -> result E B) : result E B :=
  match r with Ok a => k a | Err e => Err e end.

Notation "'let?' x ':=' e 'in' k" := (rbind e (fun x => k))
  (at level 10, x pattern, e at level 200, k at level 200) : go_scope.

(** Go errors.  [ESentinel] is a package-level [errors.New] value, compared by
    identity; [EText] is an error made on the spot; [EWrap pre e post] is
    [fmt.Errorf] with one [%w] verb, which keeps [e] in its chain. *)
Inductive gerror : Type :=
| ESentinel (msg : string)
| EText (msg : string)
| EWrap (pre : string) (inner : gerror) (post : string).

Fixpoint err_text (e : gerror) : string :=
  match e with
  | ESentinel m | EText m => m
  | EWrap pre i post => pre +:+ err_text i +:+ post
  end.

(** [errors.Is(e, target)] for a sentinel target. *)
Fixpoint err_is (target : string) (e : gerror) : bool :=
  match e with
  | ESentinel m => bool_decide (m = target)
  | EText _ => false
  | EWrap _ i _ => err_is target i
  end.

#[global] Instance gerror_eq_dec : EqDecision gerror.
Proof. solve_decision. Defined.

(** ** Booleans of the source's conditions *)

Definition str_eqb (s t : string) : bool := bool_decide (s = t).

Infix "=s" := str_eqb (at level 70) : go_scope.

Lemma str_eqb_spec s t : (s =s t) = true <-> s = t.
Proof. unfold str_eqb. apply bool_decide_eq_true. Qed.

Lemma str_eqb_false s t : (s =s t) = false <-> s <> t.
Proof. unfold str_eqb. apply bool_decide_eq_false. Qed.

Lemma str_eqb_refl s : (s =s s) = true.
Proof. by apply str_eqb_spec. Qed.

#[export] Hint Rewrite str_eqb_spec str_eqb_false str_eqb_refl
  andb_true_iff orb_true_iff negb_true_iff andb_false_iff orb_false_iff
  negb_false_iff Z.eqb_eq Z.eqb_neq Z.leb_le Z.leb_gt Z.ltb_lt Z.ltb_ge
  bool_decide_eq_true bool_decide_eq_false : gobool.

(** Turns every boolean condition of the context into a proposition. *)
Ltac breflect := autorewrite with gobool in *; destruct_and?.

(** Case analysis on the next [if] or [match] scrutinee of the goal. *)
Ltac bcase :=
  match goal with
  | |- context [if ?b then _ else _] => destruct b eqn:?
  | |- context [match ?x with _ => _ end] => destruct x eqn:?
  end.

(** [SQL COALESCE(x, d)] and Go's [if p != nil { *p }]. *)
Definition coalesce {A} (d : A) (o : option A) : A := default d o.

(** ** [sort.SliceStable] *)

Section StableSort.
Context {A : Type} (less : A -> A -> bool).

(** Insert an element that precedes, in the input, every element of the list. *)
Fixpoint insert_stable (x : A) (l : list A) : list A :=
  match l with
  | [] => [x]
  | y :: l' => if less y x then y :: insert_stable x l' else x :: l
  end.

(** The one ordering of the input a stable sort by [less] can return. *)
Definition sort_stable (l : list A) : list A := foldr insert_stable [] l.

Lemma insert_stable_perm x l : insert_stable x l ≡ₚ x :: l.
Proof.
  induction l as [|y l IH]; simpl; [done|].
  destruct (less y x); [|done].
  rewrite IH. by apply Permutation_swap.
Qed.

Lemma sort_stable_perm l : sort_stable l ≡ₚ l.
Proof.
  induction l as [|x l IH]; simpl; [done|]. by rewrite insert_stable_perm, IH.
Qed.

Lemma elem_of_sort_stable x l : x ∈ sort_stable l <-> x ∈ l.
Proof. by rewrite sort_stable_perm. Qed.

Lemma length_sort_stable l : length (sort_stable l) = length l.
Proof. by rewrite sort_stable_perm. Qed.

(** [sort] contract: [less] is a strict weak order, given by the
    transitivity of its complement. *)
Context (Hnt : forall x y z, less y x = false -> less z y = false -> less z x = false)
        (Hasym : forall x y, less x y = true -> less y x = false).

Lemma insert_stable_sorted x l :
  StronglySorted (fun a b => less b a = false) l ->
  StronglySorted (fun a b => less b a = false) (insert_stable x l).
Proof.
  induction 1 as [|y l Hs IH Hy]; simpl.
  { repeat constructor. }
  destruct (less y x) eqn:E.
  - constructor; [done|]. rewrite insert_stable_perm. constructor; [|done].
    by apply Hasym.
  - constructor; [by constructor|]. constructor; [done|].
    rewrite Forall_forall in Hy |- *. intros z Hz. eauto.
Qed.

Lemma sort_stable_sorted l :
  StronglySorted (fun a b => less b a = false) (sort_stable l).
Proof.
  induction l; simpl; [constructor|]. by apply insert_stable_sorted.
Qed.

(** Stability: the elements equivalent to a given one keep their order. *)
Lemma insert_stable_filter (P : A -> bool) x l :
  (forall y, P x = true -> P y = true -> less y x = false) ->
  List.filter P (insert_stable x l) = List.filter P (x :: l).
Proof.
  intros HP. induction l as [|y l IH]; simpl; [done|].
  destruct (less y x) eqn:E; [|done].
  simpl in *. rewrite IH. destruct (P x) eqn:Px, (P y) eqn:Py; try done.
  rewrite HP in E; done.
Qed.

Lemma sort_stable_filter (P : A -> bool) l :
  (forall x y, P x = true -> P y = true -> less y x = false) ->
  List.filter P (sort_stable l) = List.filter P l.
Proof.
  intros HP. induction l as [|x l IH]; simpl; [done|].
  rewrite insert_stable_filter by (intros; by apply HP). simpl. by rewrite IH.
Qed.
End StableSort.

Lemma elem_of_List_filter {A} (f : A -> bool) x l :
  x ∈ List.filter f l <-> x ∈ l /\ f x = true.
Proof. by rewrite list_elem_of_In, filter_In, <- list_elem_of_In. Qed.

(** ** Deduplication that keeps the first occurrence *)

Section DedupFirst.
Context {A : Type} `{EqDecision A}.

(** [for _, x := range xs { if seen[x] { continue }; seen[x] = true; out = append(out, x) }] *)
Fixpoint dedup_first (seen : list A) (l : list A) : list A :=
  match l with
  | [] => []
  | x :: l' =>
      if bool_decide (x ∈ seen) then dedup_first seen l'
      else x :: dedup_first (x :: seen) l'
  end.

Lemma elem_of_dedup_first x seen l :
  x ∈ dedup_first seen l <-> x ∈ l /\ x ∉ seen.
Proof.
  revert seen. induction l as [|y l IH]; intros seen; simpl.
  { set_solver. }
  case_bool_decide as Hy.
  - rewrite IH. set_solver.
  - rewrite elem_of_cons, IH. set_unfold. destruct (decide (x = y)); naive_solver.
Qed.

Lemma NoDup_dedup_first seen l : NoDup (dedup_first seen l).
Proof.
  revert seen. induction l as [|y l IH]; intros seen; simpl; [constructor|].
  case_bool_decide; [done|]. constructor; [|done].
  rewrite elem_of_dedup_first. set_solver.
Qed.

Lemma dedup_first_sublist seen l : dedup_first seen l `sublist_of` l.
Proof.
  revert seen. induction l as [|y l IH]; intros seen; simpl; [constructor|].
  case_bool_decide; by constructor.
Qed.

Lemma dedup_first_id seen l :
  NoDup l -> (forall x, x ∈ l -> x ∉ seen) -> dedup_first seen l = l.
Proof.
  revert seen. induction l as [|y l IH]; intros seen Hnd Hs; simpl; [done|].
  apply NoDup_cons in Hnd as [Hy Hnd].
  rewrite bool_decide_eq_false_2 by (apply Hs; left).
  f_equal. apply IH; [done|]. set_solver.
Qed.
End DedupFirst.
