(* ===== verification/GoStd.v ===== *)
(** Go's standard library, as far as the modelled code uses it: [strings],
    [path], [path/filepath], [strconv] and the two SQL pattern operators of the
    queries.  A Go string is a byte sequence: [Stdlib]'s [string], one [ascii]
    per byte. *)
From Stdlib Require Import Ascii DecimalString DecimalZ.
From S2P Require Import Prelude.
(** ** Bytes *)

Definition byte_of (n : nat) : ascii := ascii_of_nat n.

Definition bytes (l : list nat) : string :=
  String.string_of_list_ascii (map byte_of l).

(** ** Order: Go's [<] on strings compares bytes *)

Definition str_ltb (s t : string) : bool := String.ltb s t.

(** ** Prefixes and suffixes *)

Definition HasPrefix (s prefix : string) : bool := String.prefix prefix s.
#[global] Arguments HasPrefix : simpl never.

Fixpoint str_drop (n : nat) (s : string) : string :=
  match n, s with
  | S n', String _ s' => str_drop n' s'
  | _, _ => s
  end.

Definition TrimPrefix (s prefix : string) : string :=
  if HasPrefix s prefix then str_drop (String.length prefix) s else s.

Definition str_rev (s : string) : string :=
  String.string_of_list_ascii (rev (String.list_ascii_of_string s)).

Definition HasSuffix (s suffix : string) : bool :=
  HasPrefix (str_rev s) (str_rev suffix).

Fixpoint Contains (s sub : string) : bool :=
  HasPrefix s sub ||
  match s with
  | EmptyString => false
  | String _ s' => Contains s' sub
  end.

(** [strings.ContainsAny] for a set of ASCII bytes. *)
Definition ContainsAny (s : string) (chars : list ascii) : bool :=
  existsb (fun c => bool_decide (c ∈ chars)) (String.list_ascii_of_string s).

Definition Join (l : list string) (sep : string) : string := String.concat sep l.

(** ** [strings.TrimSpace]

    The UTF-8 encodings of [unicode.IsSpace]: TAB, LF, VT, FF, CR, SPACE,
    U+0085, U+00A0, U+1680, U+2000..U+200A, U+2028, U+2029, U+202F, U+205F and
    U+3000.  The decoders at either end of a string read exactly these byte
    sequences. *)
Definition space_runes : list string :=
  map bytes
    ([[9]; [10]; [11]; [12]; [13]; [32]; [194; 133]; [194; 160]; [225; 154; 128]]
     ++ map (fun n => [226; 128; 128 + n]) (seq 0 11)
     ++ [[226; 128; 168]; [226; 128; 169]; [226; 128; 175]; [226; 129; 159];
         [227; 128; 128]])%nat.

(** Removes one of [runes] from the front of [s]. *)
Definition strip_any (runes : list string) (s : string) : option string :=
  match List.find (fun w => HasPrefix s w) runes with
  | Some w => Some (str_drop (String.length w) s)
  | None => None
  end.

Fixpoint trim_front (fuel : nat) (runes : list string) (s : string) : string :=
  match fuel with
  | O => s
  | S fuel' =>
      match strip_any runes s with
      | Some s' => trim_front fuel' runes s'
      | None => s
      end
  end.

Definition TrimLeftRunes (runes : list string) (s : string) : string :=
  trim_front (String.length s) runes s.

Definition TrimRightRunes (runes : list string) (s : string) : string :=
  str_rev (TrimLeftRunes (map str_rev runes) (str_rev s)).

Definition TrimRunes (runes : list string) (s : string) : string :=
  TrimRightRunes runes (TrimLeftRunes runes s).

Definition TrimSpace (s : string) : string := TrimRunes space_runes s.

(** [strings.Trim(s, "/")] *)
Definition TrimSlash (s : string) : string := TrimRunes ["/"] s.

(** ** [strings.Split] on one byte, [path.Clean], [filepath.Join] *)

Fixpoint SplitByte (sep : ascii) (s : string) : list string :=
  match s with
  | EmptyString => [""]
  | String c s' =>
      if bool_decide (c = sep) then "" :: SplitByte sep s'
      else match SplitByte sep s' with
           | [] => [String c ""]
           | w :: ws => String c w :: ws
           end
  end.

(** One path element against the output stack (last element first): "" and "."
    vanish, ".." pops an element that is not "..", and is kept only when the
    path is not rooted. *)
Definition clean_step (rooted : bool) (out : list string) (e : string) : list string :=
  if (e =s "") || (e =s ".") then out
  else if e =s ".." then
    match out with
    | t :: out' => if t =s ".." then e :: out else out'
    | [] => if rooted then [] else [e]
    end
  else e :: out.

(** [path.Clean] *)
Definition Clean (p : string) : string :=
  if p =s "" then "."
  else
    let rooted := HasPrefix p "/" in
    let body := Join (rev (foldl (clean_step rooted) [] (SplitByte "/" p))) "/" in
    if rooted then "/" +:+ body
    else if body =s "" then "." else body.

(** [filepath.Join]: empty leading elements are ignored, all empty gives "". *)
Fixpoint FilepathJoin (elems : list string) : string :=
  match elems with
  | [] => ""
  | e :: es => if e =s "" then FilepathJoin es else Clean (Join elems "/")
  end.

(** ** [strconv.Itoa] *)

Definition Itoa (z : Z) : string := NilEmpty.string_of_int (Z.to_int z).

(** ** Hexadecimal digits and [^[0-9a-fA-F]{40}$] *)

Definition is_hex (c : ascii) : bool :=
  let n := N_of_ascii c in
  ((48 <=? n) && (n <=? 57) || (65 <=? n) && (n <=? 70) || (97 <=? n) && (n <=? 102))%N.

Definition commitHashPattern (s : string) : bool :=
  (String.length s =? 40)%nat && forallb is_hex (String.list_ascii_of_string s).

(** ** SQL [LIKE] and [ILIKE] *)

(** The rest of a string after its first UTF-8 character. *)
Fixpoint drop_continuation (s : string) : string :=
  match s with
  | String c s' =>
      if ((128 <=? N_of_ascii c) && (N_of_ascii c <? 192))%N
      then drop_continuation s' else s
  | EmptyString => ""
  end.

(** [s LIKE pat], with backslash as the escape character; a pattern that ends
    in its escape character is an SQL error, here no match. *)
Fixpoint LIKE (fuel : nat) (s pat : string) : bool :=
  match fuel with
  | O => false
  | S fuel' =>
      match pat with
      | EmptyString => s =s ""
      | String "%" pat' =>
          LIKE fuel' s pat' ||
          match s with
          | String _ s' => LIKE fuel' (drop_continuation s') pat
          | EmptyString => false
          end
      | String "_" pat' =>
          match s with
          | String _ s' => LIKE fuel' (drop_continuation s') pat'
          | EmptyString => false
          end
      | String c pat' =>
          let lit := if bool_decide (c = "\"%char) then pat' else pat in
          match lit, s with
          | String d rest, String c' s' => bool_decide (d = c') && LIKE fuel' s' rest
          | _, _ => false
          end
      end
  end.

(** Enough fuel for every branch: each call consumes a byte of one argument. *)
Definition sql_like (s pat : string) : bool :=
  LIKE (S (String.length s + String.length pat)) s pat.

Definition ascii_lower (c : ascii) : ascii :=
  let n := N_of_ascii c in
  if ((65 <=? n) && (n <=? 90))%N then ascii_of_N (n + 32) else c.

Definition str_lower (s : string) : string :=
  String.string_of_list_ascii (map ascii_lower (String.list_ascii_of_string s)).

(** [s ILIKE '%' || sub || '%'] for an ASCII [sub] without wildcards. *)
Definition ilike_contains (s sub : string) : bool :=
  Contains (str_lower s) (str_lower sub).
