(* ===== verification/GoStdFacts.v ===== *)
(** Lemmas on the Go standard-library functions of [GoStd]: the byte order, prefixes,
    trimming, path cleaning, paths as lists of elements and decimal printing. *)
From Stdlib Require Import Ascii DecimalString DecimalZ.
From Stdlib Require Import Ascii.
From S2P Require Import Prelude GoStd.
(** ** Strings as lists *)

Lemma str_app_nil_r s : s +:+ "" = s.
Proof. induction s as [|c s IH]; simpl; [done|]. by rewrite IH. Qed.

Lemma str_app_assoc s t u : (s +:+ t) +:+ u = s +:+ (t +:+ u).
Proof. induction s as [|c s IH]; simpl; [done|]. by rewrite IH. Qed.

Lemma str_length_app s t :
  String.length (s +:+ t) = (String.length s + String.length t)%nat.
Proof. induction s as [|c s IH]; simpl; [done|]. by rewrite IH. Qed.

Lemma str_app_inv_head s t u : s +:+ t = s +:+ u -> t = u.
Proof. induction s as [|c s IH]; simpl; [done|]. intros [=]; auto. Qed.

Lemma list_of_str_app s t :
  String.list_ascii_of_string (s +:+ t) =
  String.list_ascii_of_string s ++ String.list_ascii_of_string t.
Proof. induction s as [|c s IH]; simpl; [done|]. by rewrite IH. Qed.

Lemma str_of_list_app l1 l2 :
  String.string_of_list_ascii (l1 ++ l2) =
  String.string_of_list_ascii l1 +:+ String.string_of_list_ascii l2.
Proof. induction l1 as [|c s IH]; simpl; [done|]. by rewrite IH. Qed.

Lemma str_rev_app s t : str_rev (s +:+ t) = str_rev t +:+ str_rev s.
Proof. unfold str_rev. by rewrite list_of_str_app, rev_app_distr, str_of_list_app. Qed.

Lemma str_rev_involutive s : str_rev (str_rev s) = s.
Proof.
  unfold str_rev.
  by rewrite String.list_ascii_of_string_of_list_ascii, rev_involutive,
    String.string_of_list_ascii_of_string.
Qed.

Lemma str_of_list_length l : String.length (String.string_of_list_ascii l) = length l.
Proof. induction l; simpl; congruence. Qed.

Lemma str_rev_length s : String.length (str_rev s) = String.length s.
Proof.
  unfold str_rev. rewrite str_of_list_length, length_rev, <- str_of_list_length.
  by rewrite String.string_of_list_ascii_of_string.
Qed.

(** ** Prefixes *)

Lemma HasPrefix_spec s p : HasPrefix s p = true <-> exists r, s = p +:+ r.
Proof.
  unfold HasPrefix. revert s. induction p as [|c p IH]; intros s; simpl.
  { split; [eauto|]. by destruct s. }
  destruct s as [|d s].
  { split; [done|]. by intros [r [=]]. }
  simpl. destruct (ascii_dec c d) as [->|Hne].
  - rewrite IH. split; intros [r Hr]; exists r; simpl in *; congruence.
  - split; [done|]. intros [r [=]]. congruence.
Qed.

Lemma HasPrefix_app p r : HasPrefix (p +:+ r) p = true.
Proof. apply HasPrefix_spec. eauto. Qed.

Lemma str_drop_app p r : str_drop (String.length p) (p +:+ r) = r.
Proof. induction p as [|c p IH]; simpl; [by destruct r|]. done. Qed.

Lemma TrimPrefix_app p r : TrimPrefix (p +:+ r) p = r.
Proof. unfold TrimPrefix. by rewrite HasPrefix_app, str_drop_app. Qed.

Lemma TrimPrefix_none s p : HasPrefix s p = false -> TrimPrefix s p = s.
Proof. unfold TrimPrefix. by intros ->. Qed.

Lemma HasSuffix_spec s p : HasSuffix s p = true <-> exists r, s = r +:+ p.
Proof.
  unfold HasSuffix. rewrite HasPrefix_spec. split; intros [r Hr].
  - exists (str_rev r). apply (f_equal str_rev) in Hr.
    by rewrite str_rev_app, !str_rev_involutive in Hr.
  - exists (str_rev r). by rewrite Hr, str_rev_app.
Qed.

Lemma Contains_spec s sub :
  Contains s sub = true <-> exists l r, s = l +:+ sub +:+ r.
Proof.
  induction s as [|c s IH]; simpl; rewrite orb_true_iff, HasPrefix_spec.
  - split.
    + intros [[r Hr]|?]; [|done]. by exists "", r.
    + intros (l & r & Hr). left. destruct l; simpl in *; [eauto|done].
  - rewrite IH. split.
    + intros [[r Hr]|(l & r & ->)]; [by exists "", r|by exists (String c l), r].
    + intros (l & r & Hr). destruct l as [|d l]; simpl in *; [eauto|].
      injection Hr as -> ->. right. eauto.
Qed.

#[export] Hint Rewrite str_app_nil_r str_rev_app str_rev_involutive
  TrimPrefix_app HasPrefix_app str_drop_app : gobool.

(** ** Byte order *)

Lemma str_ltb_irrefl s : str_ltb s s = false.
Proof.
  unfold str_ltb, String.ltb. induction s as [|c s IH]; simpl; [done|].
  unfold Ascii.compare. by rewrite N.compare_refl.
Qed.

Lemma str_ltb_cons c s d t :
  str_ltb (String c s) (String d t) =
  ((N_of_ascii c <? N_of_ascii d)%N ||
   (N_of_ascii c =? N_of_ascii d)%N && str_ltb s t).
Proof.
  unfold str_ltb, String.ltb. simpl. unfold Ascii.compare, N.ltb.
  destruct (N.compare_spec (N_of_ascii c) (N_of_ascii d)) as [E|L|G]; simpl.
  - rewrite E, N.eqb_refl. done.
  - done.
  - rewrite (proj2 (N.eqb_neq _ _)) by lia. done.
Qed.

Lemma str_ltb_trans s t u :
  str_ltb s t = true -> str_ltb t u = true -> str_ltb s u = true.
Proof.
  revert t u. induction s as [|c s IH]; intros [|d t] [|e u]; try done.
  rewrite !str_ltb_cons, !orb_true_iff, !andb_true_iff, !N.ltb_lt, !N.eqb_eq.
  intros [H1|[H1 H1']] [H2|[H2 H2']]; try (left; lia).
  right. split; [lia|eauto].
Qed.

Lemma str_ltb_total s t : str_ltb s t = false -> str_ltb t s = false -> s = t.
Proof.
  revert t. induction s as [|c s IH]; intros [|d t]; try done.
  rewrite !str_ltb_cons, !orb_false_iff, !andb_false_iff, !N.ltb_ge, !N.eqb_neq.
  intros [? H1] [? H2].
  assert (E : N_of_ascii c = N_of_ascii d) by lia.
  assert (c = d) as ->
    by (rewrite <- (ascii_N_embedding c), <- (ascii_N_embedding d); congruence).
  f_equal. apply IH; tauto.
Qed.

Lemma str_ltb_asym s t : str_ltb s t = true -> str_ltb t s = false.
Proof.
  intros H. destruct (str_ltb t s) eqn:E; [|done].
  pose proof (str_ltb_trans s t s H E). by rewrite str_ltb_irrefl in *.
Qed.

Lemma str_ltb_negtrans s t u :
  str_ltb t s = false -> str_ltb u t = false -> str_ltb u s = false.
Proof.
  intros H1 H2. destruct (str_ltb u s) eqn:E; [|done].
  destruct (str_ltb s t) eqn:E'.
  - by rewrite (str_ltb_trans u s t) in H2.
  - assert (s = t) as -> by by apply str_ltb_total. congruence.
Qed.

#[export] Hint Resolve str_ltb_irrefl str_ltb_trans str_ltb_asym str_ltb_negtrans : go.

(** ** [sort.Strings] *)

Definition SortStrings (l : list string) : list string := sort_stable str_ltb l.

Definition str_le (s t : string) : Prop := str_ltb t s = false.

#[global] Instance str_le_antisym : AntiSymm (=) str_le.
Proof. intros s t. unfold str_le. intros. by apply str_ltb_total. Qed.

#[global] Instance str_le_trans : Transitive str_le.
Proof. intros s t u. unfold str_le. intros. by eapply str_ltb_negtrans. Qed.

Lemma SortStrings_sorted l : StronglySorted str_le (SortStrings l).
Proof.
  apply sort_stable_sorted; eauto with go.
Qed.

(** [sort.Strings] is the only sorted arrangement, so the result does not
    depend on the order the elements were collected in. *)
Lemma SortStrings_perm l1 l2 : l1 ≡ₚ l2 -> SortStrings l1 = SortStrings l2.
Proof.
  intros H. apply (StronglySorted_unique str_le); try apply SortStrings_sorted.
  unfold SortStrings. by rewrite !sort_stable_perm.
Qed.

Lemma NoDup_SortStrings l : NoDup l -> NoDup (SortStrings l).
Proof. unfold SortStrings. by rewrite sort_stable_perm. Qed.

Lemma elem_of_SortStrings x l : x ∈ SortStrings l <-> x ∈ l.
Proof. apply elem_of_sort_stable. Qed.

(** ** Trimming *)

Section Trim.
Context (runes : list string) (Hne : Forall (fun w => w <> "") runes).

Lemma strip_any_None s :
  strip_any runes s = None <-> Forall (fun w => HasPrefix s w = false) runes.
Proof.
  unfold strip_any. clear Hne. induction runes as [|w ws IH]; simpl.
  { split; [constructor|done]. }
  rewrite Forall_cons. destruct (HasPrefix s w); [|naive_solver].
  split; [done|naive_solver].
Qed.

Lemma strip_any_Some s s' :
  strip_any runes s = Some s' ->
  exists w, s = w +:+ s' /\ (String.length s' < String.length s)%nat.
Proof.
  unfold strip_any. destruct (find _ _) as [w|] eqn:E; [|done]. intros [= <-].
  apply List.find_some in E as [Hin Hp]. apply HasPrefix_spec in Hp as [r ->].
  rewrite str_drop_app, str_length_app. exists w. split; [done|].
  rewrite Forall_forall in Hne. specialize (Hne w (proj2 (list_elem_of_In _ _) Hin)).
  destruct w; [done|simpl; lia].
Qed.

Lemma trim_front_fixpoint fuel s :
  (String.length s <= fuel)%nat -> strip_any runes (trim_front fuel runes s) = None.
Proof.
  revert s. induction fuel as [|n IH]; intros s Hs; simpl;
    destruct (strip_any runes s) as [s'|] eqn:E; try done;
    apply strip_any_Some in E as (w & -> & Hlt); [lia|].
  apply IH. lia.
Qed.

Lemma trim_front_suffix fuel s : exists p, s = p +:+ trim_front fuel runes s.
Proof.
  revert s. induction fuel as [|n IH]; intros s; simpl; [by exists ""|].
  destruct (strip_any runes s) as [s'|] eqn:E; [|by exists ""].
  apply strip_any_Some in E as (w & -> & _). destruct (IH s') as [p Hp].
  exists (w +:+ p). by rewrite str_app_assoc, <- Hp.
Qed.

Lemma TrimLeftRunes_fix s : strip_any runes s = None -> TrimLeftRunes runes s = s.
Proof. unfold TrimLeftRunes. destruct s; simpl; [done|]. by intros ->. Qed.

Lemma TrimLeftRunes_done s : strip_any runes (TrimLeftRunes runes s) = None.
Proof. by apply trim_front_fixpoint. Qed.
End Trim.

Lemma map_rev_nonempty runes :
  Forall (fun w => w <> "") runes -> Forall (fun w => w <> "") (map str_rev runes).
Proof.
  intros H. apply Forall_fmap. eapply Forall_impl; [exact H|]. simpl.
  intros w Hw E. apply Hw. apply (f_equal str_rev) in E.
  by rewrite str_rev_involutive in E.
Qed.

(** A front-trimmed string stays front-trimmed when its end is cut. *)
Lemma strip_any_prefix runes s r :
  strip_any runes (s +:+ r) = None -> strip_any runes s = None.
Proof.
  rewrite !strip_any_None. intros H. eapply Forall_impl; [exact H|]. simpl.
  intros w Hw. destruct (HasPrefix s w) eqn:E; [|done].
  apply HasPrefix_spec in E as [t ->].
  by rewrite str_app_assoc, HasPrefix_app in Hw.
Qed.

Section TrimBoth.
Context (runes : list string) (Hne : Forall (fun w => w <> "") runes).

Lemma TrimRightRunes_prefix s : exists r, s = TrimRightRunes runes s +:+ r.
Proof.
  unfold TrimRightRunes.
  destruct (trim_front_suffix (map str_rev runes) (map_rev_nonempty _ Hne)
              (String.length (str_rev s)) (str_rev s)) as [p Hp].
  exists (str_rev p). rewrite <- (str_rev_involutive s) at 1.
  unfold TrimLeftRunes. rewrite Hp at 1. by rewrite str_rev_app.
Qed.

Lemma TrimRunes_front s : strip_any runes (TrimRunes runes s) = None.
Proof.
  unfold TrimRunes. destruct (TrimRightRunes_prefix (TrimLeftRunes runes s)) as [r Hr].
  apply (strip_any_prefix _ _ r). rewrite <- Hr. by apply TrimLeftRunes_done.
Qed.

Lemma TrimRunes_back s :
  strip_any (map str_rev runes) (str_rev (TrimRunes runes s)) = None.
Proof.
  unfold TrimRunes, TrimRightRunes. rewrite str_rev_involutive.
  apply TrimLeftRunes_done, map_rev_nonempty, Hne.
Qed.

Lemma TrimRunes_fix s :
  strip_any runes s = None -> strip_any (map str_rev runes) (str_rev s) = None ->
  TrimRunes runes s = s.
Proof.
  intros H1 H2. unfold TrimRunes, TrimRightRunes.
  rewrite (TrimLeftRunes_fix runes), TrimLeftRunes_fix by done.
  apply str_rev_involutive.
Qed.

Lemma TrimRunes_idemp s : TrimRunes runes (TrimRunes runes s) = TrimRunes runes s.
Proof. apply TrimRunes_fix; [apply TrimRunes_front|apply TrimRunes_back]. Qed.
End TrimBoth.

Lemma space_runes_nonempty : Forall (fun w => w <> "") space_runes.
Proof. apply (bool_decide_unpack _). vm_compute. exact I. Qed.

Lemma TrimSpace_idemp s : TrimSpace (TrimSpace s) = TrimSpace s.
Proof. apply TrimRunes_idemp, space_runes_nonempty. Qed.

(** ** [strconv.Itoa] *)

Definition itoa_bytes : list ascii :=
  ["-"; "0"; "1"; "2"; "3"; "4"; "5"; "6"; "7"; "8"; "9"]%char.

Lemma Itoa_bytes z : Forall (fun c => c ∈ itoa_bytes) (String.list_ascii_of_string (Itoa z)).
Proof.
  unfold Itoa. assert (Hd : forall d, Forall (fun c => c ∈ itoa_bytes)
    (String.list_ascii_of_string (DecimalString.NilEmpty.string_of_uint d))).
  { induction d; simpl; constructor; try done; unfold itoa_bytes; set_solver. }
  destruct (Z.to_int z) as [d|d]; simpl; [done|]. constructor; [|done]. left.
Qed.

Lemma Itoa_avoids c z : bool_decide (c ∈ itoa_bytes) = false ->
  c ∉ String.list_ascii_of_string (Itoa z).
Proof.
  intros Hc%bool_decide_eq_false Hin. pose proof (Itoa_bytes z) as H.
  rewrite Forall_forall in H. by apply Hc, H.
Qed.

Lemma Itoa_inj x y : Itoa x = Itoa y -> x = y.
Proof.
  unfold Itoa. intros H.
  assert (Some (Z.to_int x) = Some (Z.to_int y)) as E.
  { rewrite <- !DecimalString.NilEmpty.isi. by rewrite H. }
  injection E as E. by rewrite <- (DecimalZ.of_to x), <- (DecimalZ.of_to y), E.
Qed.

(** Two splits of a list at its last, or at its first, [c]. *)
Lemma last_split {A} (c : A) l1 r1 l2 r2 :
  l1 ++ c :: r1 = l2 ++ c :: r2 -> c ∉ r1 -> c ∉ r2 -> l1 = l2 /\ r1 = r2.
Proof.
  revert l2. induction l1 as [|x l1 IH]; intros [|y l2] E H1 H2; simpl in *.
  - by injection E.
  - injection E as -> ->. set_solver.
  - injection E as -> <-. set_solver.
  - injection E as -> E. by destruct (IH _ E H1 H2) as [-> ->].
Qed.

Lemma first_split {A} (c : A) l1 r1 l2 r2 :
  l1 ++ c :: r1 = l2 ++ c :: r2 -> c ∉ l1 -> c ∉ l2 -> l1 = l2 /\ r1 = r2.
Proof.
  revert l2. induction l1 as [|x l1 IH]; intros [|y l2] E H1 H2; simpl in *.
  - by injection E.
  - injection E as -> ->. set_solver.
  - injection E as -> <-. set_solver.
  - injection E as -> E. destruct (IH _ E) as [-> ->]; set_solver.
Qed.

(** The same for strings: the text before the first byte [c]. *)
Lemma str_first_split c s1 t1 s2 t2 :
  s1 +:+ String c t1 = s2 +:+ String c t2 ->
  c ∉ String.list_ascii_of_string s1 -> c ∉ String.list_ascii_of_string s2 ->
  s1 = s2 /\ t1 = t2.
Proof.
  intros E H1 H2. apply (f_equal String.list_ascii_of_string) in E.
  rewrite !list_of_str_app in E. simpl in E.
  apply first_split in E as [E1 E2]; try done.
  split; apply (f_equal String.string_of_list_ascii) in E1, E2;
    rewrite !String.string_of_list_ascii_of_string in *; done.
Qed.


(** Lemmas on [path.Clean] and [filepath.Join]: a cleaned path is a list of
    elements, joining appends elements, and cleaning is idempotent. *)
(** ** Splitting and joining at "/" *)

Definition slash_free (w : string) : Prop := "/"%char ∉ String.list_ascii_of_string w.

Lemma SplitByte_nonempty sep s : SplitByte sep s <> [].
Proof.
  induction s as [|c s IH]; simpl; [done|]. case_bool_decide; [done|].
  by destruct (SplitByte sep s).
Qed.

Lemma SplitByte_slash_free s : Forall slash_free (SplitByte "/" s).
Proof.
  unfold slash_free. induction s as [|c s IH]; simpl.
  { constructor; [set_solver|constructor]. }
  case_bool_decide as Hc.
  { constructor; [set_solver|done]. }
  destruct (SplitByte "/" s) as [|w ws]; simpl.
  { constructor; [set_solver|constructor]. }
  apply Forall_cons in IH as [? ?]. constructor; [set_solver|done].
Qed.

Lemma SplitByte_app w s :
  slash_free w ->
  SplitByte "/" (w +:+ s) =
  match SplitByte "/" s with [] => [w] | v :: vs => (w +:+ v) :: vs end.
Proof.
  unfold slash_free. induction w as [|c w IH]; simpl; intros Hw.
  { pose proof (SplitByte_nonempty "/" s). by destruct (SplitByte "/" s). }
  rewrite bool_decide_eq_false_2 by set_solver.
  rewrite IH by set_solver. by destruct (SplitByte "/" s).
Qed.

Lemma SplitByte_word w : slash_free w -> SplitByte "/" w = [w].
Proof.
  intros H. rewrite <- (str_app_nil_r w) at 1. rewrite SplitByte_app by done.
  simpl. by rewrite str_app_nil_r.
Qed.

Lemma SplitByte_sep s t : SplitByte "/" (s +:+ "/" +:+ t) = SplitByte "/" s ++ SplitByte "/" t.
Proof.
  induction s as [|c s IH]; simpl in *; [done|].
  case_bool_decide; simpl.
  - f_equal. exact IH.
  - rewrite IH. pose proof (SplitByte_nonempty "/" s). by destruct (SplitByte "/" s).
Qed.

Lemma Join_cons2 x y l sep : Join (x :: y :: l) sep = x +:+ sep +:+ Join (y :: l) sep.
Proof. done. Qed.

Lemma Join_app l1 l2 sep :
  l1 <> [] -> l2 <> [] -> Join (l1 ++ l2) sep = Join l1 sep +:+ sep +:+ Join l2 sep.
Proof.
  intros H1 H2. induction l1 as [|x [|y l1] IH]; [done|..].
  - simpl. by destruct l2.
  - change ((x :: y :: l1) ++ l2) with (x :: y :: (l1 ++ l2)).
    rewrite !Join_cons2. change (y :: l1 ++ l2) with ((y :: l1) ++ l2).
    rewrite IH by done. by rewrite !str_app_assoc.
Qed.

Lemma SplitByte_Join l :
  l <> [] -> Forall slash_free l -> SplitByte "/" (Join l "/") = l.
Proof.
  intros Hl Hf. induction l as [|x [|y l] IH]; [done|..].
  - apply Forall_cons in Hf as [? _]. by apply SplitByte_word.
  - apply Forall_cons in Hf as [? ?]. rewrite Join_cons2, SplitByte_sep.
    rewrite IH by done. by rewrite SplitByte_word.
Qed.

(** ** The element list of a cleaned path *)

Definition rooted (p : string) : bool := HasPrefix p "/".

Definition clean_elems (r : bool) (l : list string) : list string :=
  rev (foldl (clean_step r) [] l).

Definition path_elems (p : string) : list string :=
  clean_elems (rooted p) (SplitByte "/" p).

(** An element [path.Clean] keeps wherever it stands. *)
Definition plain (w : string) : Prop :=
  w <> "" /\ w <> "." /\ w <> ".." /\ slash_free w.

Lemma clean_step_plain r out w : plain w -> clean_step r out w = w :: out.
Proof.
  intros (H1 & H2 & H3 & _). unfold clean_step.
  by rewrite (proj2 (str_eqb_false w "") H1), (proj2 (str_eqb_false w ".") H2),
    (proj2 (str_eqb_false w "..") H3).
Qed.

(** Elements of the output stack: plain ones on top of a run of ".." that a
    rooted path does not have. *)
Definition stack_ok (r : bool) (out : list string) : Prop :=
  exists l k, out = l ++ replicate k ".." /\ Forall plain l /\ (r = true -> k = 0%nat).

Lemma clean_step_ok r out e :
  slash_free e -> stack_ok r out -> stack_ok r (clean_step r out e).
Proof.
  intros He (l & k & -> & Hl & Hk). unfold clean_step.
  destruct (e =s "") eqn:E1; simpl; [by exists l, k|].
  destruct (e =s ".") eqn:E2; simpl; [by exists l, k|].
  destruct (e =s "..") eqn:E3; breflect.
  - subst e. destruct l as [|w l]; simpl.
    + destruct k as [|k]; simpl.
      * destruct r; [by exists [], 0%nat|].
        exists [], 1%nat. by repeat split.
      * exists [], (S (S k)). repeat split; [done|]. intros Hr. by specialize (Hk Hr).
    + apply Forall_cons in Hl as [(? & ? & Hw & ?) Hl].
      rewrite (proj2 (str_eqb_false w "..") Hw). by exists l, k.
  - exists (e :: l), k. repeat split; [|done]. constructor; [by repeat split|done].
Qed.

Lemma clean_fold_ok r out l :
  Forall slash_free l -> stack_ok r out -> stack_ok r (foldl (clean_step r) out l).
Proof.
  intros Hl. revert out. induction Hl as [|e l He Hl IH]; intros out Hout; simpl; [done|].
  by apply IH, clean_step_ok.
Qed.

Lemma replicate_rev {A} n (x : A) : rev (replicate n x) = replicate n x.
Proof.
  induction n as [|n IH]; simpl; [done|]. rewrite IH.
  by rewrite <- replicate_cons_app.
Qed.

(** The elements of a cleaned path: a run of ".." (none when rooted), then
    plain elements. *)
Lemma path_elems_shape p :
  exists k l, path_elems p = replicate k ".." ++ l /\ Forall plain l /\
              (rooted p = true -> k = 0%nat).
Proof.
  unfold path_elems, clean_elems.
  destruct (clean_fold_ok (rooted p) [] (SplitByte "/" p)) as (l & k & -> & Hl & Hk).
  { apply SplitByte_slash_free. }
  { by exists [], 0%nat. }
  exists k, (rev l). rewrite rev_app_distr, replicate_rev. repeat split; try done.
  by apply Forall_rev.
Qed.

Lemma fold_dotdots k j :
  foldl (clean_step false) (replicate j "..") (replicate k "..") = replicate (k + j) "..".
Proof.
  revert j. induction k as [|k IH]; intros j; simpl; [done|].
  replace (clean_step false (replicate j "..") "..") with (replicate (S j) "..")
    by (by destruct j).
  rewrite IH. by rewrite Nat.add_succ_r.
Qed.

Lemma fold_plain r l out : Forall plain l -> foldl (clean_step r) out l = rev l ++ out.
Proof.
  intros H. revert out. induction H as [|w l Hw Hl IH]; intros out; simpl; [done|].
  rewrite clean_step_plain, IH by done. by rewrite <- app_assoc.
Qed.

Lemma clean_elems_fix r k l :
  Forall plain l -> (r = true -> k = 0%nat) ->
  clean_elems r (replicate k ".." ++ l) = replicate k ".." ++ l.
Proof.
  intros Hl Hk. unfold clean_elems. rewrite foldl_app.
  assert (foldl (clean_step r) [] (replicate k "..") = replicate k "..") as ->.
  { destruct r; [by rewrite Hk|]. change [] with (replicate 0 "..") at 1.
    rewrite fold_dotdots. by rewrite Nat.add_0_r. }
  rewrite fold_plain by done. by rewrite rev_app_distr, replicate_rev, rev_involutive.
Qed.

Lemma shape_slash_free k l : Forall plain l -> Forall slash_free (replicate k ".." ++ l).
Proof.
  intros Hl. apply Forall_app. split.
  - apply Forall_replicate. unfold slash_free. simpl. set_solver.
  - eapply Forall_impl; [exact Hl|]. by intros ? (? & ? & ? & ?).
Qed.

(** ** [path.Clean] through its elements *)

(** Prints a path from its elements. *)
Definition render_path (r : bool) (l : list string) : string :=
  if r then "/" +:+ Join l "/"
  else match l with [] => "." | _ => Join l "/" end.

Lemma Join_empty l : Forall (fun w => w <> "") l -> Join l "/" = "" -> l = [].
Proof. destruct l as [|w [|v l]]; [done|..]; intros [Hw _]%Forall_cons; by destruct w. Qed.

Lemma shape_nonempty k l :
  Forall plain l -> Forall (fun w => w <> "") (replicate k ".." ++ l).
Proof.
  intros Hl. apply Forall_app. split; [by apply Forall_replicate|].
  eapply Forall_impl; [exact Hl|]. by intros ? (? & ? & ? & ?).
Qed.

Lemma Clean_render p : p <> "" -> Clean p = render_path (rooted p) (path_elems p).
Proof.
  intros Hp. unfold Clean. rewrite (proj2 (str_eqb_false p "") Hp).
  fold (rooted p) (clean_elems (rooted p) (SplitByte "/" p)) (path_elems p).
  unfold render_path. destruct (rooted p); [done|].
  destruct (path_elems_shape p) as (k & l & -> & Hl & _).
  destruct (_ =s "") eqn:E; breflect.
  - apply Join_empty in E; [by rewrite E|by apply shape_nonempty].
  - by destruct (replicate k ".." ++ l).
Qed.

Lemma HasPrefix_cons c s d : HasPrefix (String c s) (String d "") = bool_decide (c = d).
Proof.
  unfold HasPrefix. simpl.
  destruct (ascii_dec d c) as [->|]; case_bool_decide; try done; by destruct s.
Qed.

Lemma slash_free_head w s :
  w <> "" -> slash_free w -> HasPrefix (w +:+ s) "/" = false.
Proof.
  unfold slash_free. destruct w as [|c w]; [done|]. intros _ H. simpl in *.
  rewrite HasPrefix_cons. apply bool_decide_eq_false. set_solver.
Qed.

Lemma Join_not_rooted l :
  Forall (fun w => w <> "") l -> Forall slash_free l -> HasPrefix (Join l "/") "/" = false.
Proof.
  destruct l as [|w l]; [done|]. intros [? _]%Forall_cons [? _]%Forall_cons.
  destruct l as [|v l].
  - rewrite <- (str_app_nil_r (Join [w] "/")). by apply slash_free_head.
  - rewrite Join_cons2. by apply slash_free_head.
Qed.

(** Printing and reading back an element list in cleaned form. *)
Lemma render_path_elems r k l :
  Forall plain l -> (r = true -> k = 0%nat) ->
  rooted (render_path r (replicate k ".." ++ l)) = r /\
  path_elems (render_path r (replicate k ".." ++ l)) = replicate k ".." ++ l.
Proof.
  intros Hl Hk. set (es := replicate k ".." ++ l).
  assert (Hsf : Forall slash_free es) by by apply shape_slash_free.
  assert (Hne : Forall (fun w => w <> "") es) by by apply shape_nonempty.
  destruct r; unfold render_path.
  - assert (Hr : rooted ("/" +:+ Join es "/") = true) by apply HasPrefix_app.
    split; [done|]. unfold path_elems. rewrite Hr.
    change (SplitByte "/" ("/" +:+ Join es "/")) with ("" :: SplitByte "/" (Join es "/")).
    destruct (decide (es = [])) as [->|Hes]; [done|].
    rewrite SplitByte_Join by done. by apply clean_elems_fix.
  - destruct (decide (es = [])) as [->|Hes]; [done|].
    replace (match es with [] => "." | _ => Join es "/" end) with (Join es "/")
      by (by destruct es).
    assert (Hr : rooted (Join es "/") = false) by by apply Join_not_rooted.
    split; [done|]. unfold path_elems. rewrite Hr, SplitByte_Join by done.
    by apply clean_elems_fix.
Qed.

Lemma Clean_elems p :
  p <> "" -> rooted (Clean p) = rooted p /\ path_elems (Clean p) = path_elems p.
Proof.
  intros Hp. rewrite Clean_render by done.
  destruct (path_elems_shape p) as (k & l & -> & Hl & Hk). by apply render_path_elems.
Qed.

Lemma render_path_nonempty r l : Forall (fun w => w <> "") l -> render_path r l <> "".
Proof.
  intros Hl. destruct r; [done|]. destruct l as [|w l]; [done|].
  intros E. by apply Join_empty in E.
Qed.

Lemma Clean_nonempty p : Clean p <> "".
Proof.
  destruct (decide (p = "")) as [->|Hp]; [done|]. rewrite Clean_render by done.
  destruct (path_elems_shape p) as (k & l & -> & Hl & Hk).
  by apply render_path_nonempty, shape_nonempty.
Qed.

Lemma Clean_idemp p : Clean (Clean p) = Clean p.
Proof.
  destruct (decide (p = "")) as [->|Hp]; [done|].
  rewrite (Clean_render (Clean p)) by apply Clean_nonempty.
  destruct (Clean_elems p Hp) as [-> ->]. by rewrite Clean_render.
Qed.

(** ** [filepath.Join]: joining a plain element appends it *)

Lemma rooted_app p s : p <> "" -> rooted (p +:+ s) = rooted p.
Proof.
  destruct p as [|c p]; [done|]. intros _. unfold rooted. simpl.
  by rewrite !HasPrefix_cons.
Qed.

Lemma path_elems_join p w :
  p <> "" -> plain w -> path_elems (p +:+ "/" +:+ w) = path_elems p ++ [w].
Proof.
  intros Hp Hw. unfold path_elems. rewrite rooted_app, SplitByte_sep by done.
  rewrite (SplitByte_word w) by apply Hw.
  unfold clean_elems. rewrite foldl_app. simpl. by rewrite clean_step_plain.
Qed.

Lemma FilepathJoin2 p w :
  p <> "" -> plain w ->
  FilepathJoin [p; w] = render_path (rooted p) (path_elems p ++ [w]).
Proof.
  intros Hp Hw. unfold FilepathJoin. rewrite (proj2 (str_eqb_false p "") Hp).
  change (Join [p; w] "/") with (p +:+ "/" +:+ w).
  rewrite Clean_render by (by destruct p).
  rewrite rooted_app by done. by rewrite path_elems_join.
Qed.

(** The directory [FilepathJoin [p; w]] has the elements of [p] and then [w]. *)
Lemma FilepathJoin2_elems p w :
  p <> "" -> plain w ->
  rooted (FilepathJoin [p; w]) = rooted p /\
  path_elems (FilepathJoin [p; w]) = path_elems p ++ [w] /\
  FilepathJoin [p; w] <> "".
Proof.
  intros Hp Hw. rewrite FilepathJoin2 by done.
  destruct (path_elems_shape p) as (k & l & -> & Hl & Hk).
  assert (Hl' : Forall plain (l ++ [w])) by (apply Forall_app; auto).
  rewrite <- app_assoc. destruct (render_path_elems (rooted p) k (l ++ [w])) as [-> ->];
    [done..|].
  repeat split. apply render_path_nonempty. by apply shape_nonempty.
Qed.

(** The same for any number of plain elements. *)
Lemma path_elems_joins p ws :
  p <> "" -> Forall plain ws ->
  rooted (Join (p :: ws) "/") = rooted p /\
  path_elems (Join (p :: ws) "/") = path_elems p ++ ws /\ Join (p :: ws) "/" <> "".
Proof.
  intros Hp Hws. revert p Hp. induction Hws as [|w ws Hw Hws IH]; intros p Hp.
  { by rewrite app_nil_r. }
  assert (E : Join (p :: w :: ws) "/" = Join ((p +:+ "/" +:+ w) :: ws) "/").
  { destruct ws; [done|]. rewrite !Join_cons2, !str_app_assoc. done. }
  rewrite E. destruct (IH (p +:+ "/" +:+ w)) as (-> & -> & Hne); [by destruct p|].
  rewrite rooted_app, path_elems_join, <- app_assoc by done. done.
Qed.

Lemma FilepathJoin_elems p ws :
  p <> "" -> Forall plain ws ->
  rooted (FilepathJoin (p :: ws)) = rooted p /\
  path_elems (FilepathJoin (p :: ws)) = path_elems p ++ ws /\
  FilepathJoin (p :: ws) <> "".
Proof.
  intros Hp Hws. destruct (path_elems_joins p ws Hp Hws) as (Hr & He & Hne).
  unfold FilepathJoin. rewrite (proj2 (str_eqb_false p "") Hp).
  destruct (Clean_elems _ Hne) as [-> ->]. rewrite Hr, He. split_and!; try done.
  apply Clean_nonempty.
Qed.

Lemma Itoa_plain z : plain (Itoa z).
Proof.
  assert (Hdot : "."%char ∉ String.list_ascii_of_string (Itoa z)) by by apply Itoa_avoids.
  split_and!.
  - intros E. assert (E0 : Z.to_int z = Decimal.Pos Decimal.Nil).
    { unfold Itoa in E. destruct (Z.to_int z) as [d|d]; [|done]. by destruct d. }
    pose proof (DecimalZ.of_to z) as Hz. rewrite E0 in Hz. simpl in Hz. by subst z.
  - intros E. rewrite E in Hdot. simpl in Hdot. set_solver.
  - intros E. rewrite E in Hdot. simpl in Hdot. set_solver.
  - by apply Itoa_avoids.
Qed.
