(* ===== verification/GoJSON.v ===== *)
(** Go's [encoding/json], as far as the modelled code uses it: [json.Marshal] of
    structs of strings and integers, and [json.Unmarshal].  Strings are byte
    sequences; both directions read them as UTF-8. *)
From Stdlib Require Import Ascii DecimalString DecimalZ.
From S2P Require Import Prelude GoStd.
(** ** UTF-8 *)

Definition code (c : ascii) : Z := Z.of_N (N_of_ascii c).

Definition byte_in (lo hi : Z) (c : ascii) : bool := (lo <=? code c) && (code c <=? hi).

(** [utf8.DecodeRune]: the bytes of the first rune and the rest; [None] when the
    first byte does not start a valid encoding. *)
Definition take_rune (s : string) : option (string * string) :=
  match s with
  | String a s1 =>
      if code a <? 128 then Some (String a "", s1)
      else match s1 with
      | String b s2 =>
          if byte_in 194 223 a && byte_in 128 191 b then Some (String a (String b ""), s2)
          else match s2 with
          | String c s3 =>
              let three := ((code a =? 224) && byte_in 160 191 b
                            || (byte_in 225 236 a || byte_in 238 239 a) && byte_in 128 191 b
                            || (code a =? 237) && byte_in 128 159 b) in
              if three && byte_in 128 191 c
              then Some (String a (String b (String c "")), s3)
              else match s3 with
              | String d s4 =>
                  let four := ((code a =? 240) && byte_in 144 191 b
                               || byte_in 241 243 a && byte_in 128 191 b
                               || (code a =? 244) && byte_in 128 143 b) in
                  if four && byte_in 128 191 c && byte_in 128 191 d
                  then Some (String a (String b (String c (String d ""))), s4)
                  else None
              | EmptyString => None
              end
          | EmptyString => None
          end
      | EmptyString => None
      end
  | EmptyString => None
  end.

#[global] Arguments take_rune : simpl never.

Definition chr (z : Z) : ascii := ascii_of_N (Z.to_N z).

(** [utf8.AppendRune] *)
Definition encode_rune (r : Z) : string :=
  if r <? 128 then String (chr r) ""
  else if r <? 2048 then
    String (chr (192 + Z.shiftr r 6)) (String (chr (128 + Z.land r 63)) "")
  else if r <? 65536 then
    String (chr (224 + Z.shiftr r 12))
      (String (chr (128 + Z.land (Z.shiftr r 6) 63)) (String (chr (128 + Z.land r 63)) ""))
  else
    String (chr (240 + Z.shiftr r 18))
      (String (chr (128 + Z.land (Z.shiftr r 12) 63))
        (String (chr (128 + Z.land (Z.shiftr r 6) 63)) (String (chr (128 + Z.land r 63)) ""))).

(** U+FFFD *)
Definition rune_error : string := bytes [239; 191; 189]%nat.

Fixpoint valid_utf8_fuel (fuel : nat) (s : string) : bool :=
  match s, fuel with
  | EmptyString, _ => true
  | _, O => false
  | _, S n => match take_rune s with
              | Some (_, rest) => valid_utf8_fuel n rest
              | None => false
              end
  end.

Definition valid_utf8 (s : string) : bool := valid_utf8_fuel (String.length s) s.

(** ** Values *)

Inductive json : Type :=
| JNull
| JBool (b : bool)
| JNum (literal : string)
| JStr (s : string)
| JArr (l : list json)
| JObj (members : list (string * json)).

(** ** Encoding *)

Definition quote : ascii := chr 34.
Definition backslash : ascii := chr 92.

(** [%q], without the escapes inside the quotes. *)
Definition quoted (s : string) : string := String quote (s +:+ String quote "").

Definition hex_digit (z : Z) : ascii := if z <? 10 then chr (48 + z) else chr (87 + z).

(** The escape of one ASCII byte; [html] is the encoder's EscapeHTML setting, on
    in [json.Marshal]. *)
Definition escape_byte (html : bool) (c : ascii) : string :=
  let z := code c in
  if (z =? 34) || (z =? 92) then String backslash (String c "")
  else if z =? 8 then String backslash "b"
  else if z =? 12 then String backslash "f"
  else if z =? 10 then String backslash "n"
  else if z =? 13 then String backslash "r"
  else if z =? 9 then String backslash "t"
  else if (z <? 32) || html && ((z =? 60) || (z =? 62) || (z =? 38)) then
    String backslash ("u00" +:+ String (hex_digit (Z.shiftr z 4))
                                  (String (hex_digit (Z.land z 15)) ""))
  else String c "".

(** U+2028 and U+2029 are escaped, other valid runes are copied. *)
Definition escape_rune (w : string) : string :=
  if w =s bytes [226; 128; 168]%nat then String backslash "u2028"
  else if w =s bytes [226; 128; 169]%nat then String backslash "u2029"
  else w.

Fixpoint escape (html : bool) (fuel : nat) (s : string) : string :=
  match fuel, s with
  | S n, String c s' =>
      if code c <? 128 then escape_byte html c +:+ escape html n s'
      else match take_rune s with
           | Some (w, rest) => escape_rune w +:+ escape html n rest
           | None => String backslash "ufffd" +:+ escape html n s'
           end
  | _, _ => ""
  end.

Definition json_quote (html : bool) (s : string) : string :=
  String quote (escape html (String.length s) s +:+ String quote "").

Definition json_string (s : string) : string := json_quote true s.

(** The compact text of a struct: fields in order. *)
Fixpoint json_members (l : list (string * string)) : string :=
  match l with
  | [] => ""
  | [(k, v)] => json_string k +:+ ":" +:+ v
  | (k, v) :: rest => json_string k +:+ ":" +:+ v +:+ "," +:+ json_members rest
  end.

Definition json_object (l : list (string * string)) : string :=
  "{" +:+ json_members l +:+ "}".

(** ** Decoding *)

Definition is_json_space (c : ascii) : bool :=
  (code c =? 32) || (code c =? 9) || (code c =? 10) || (code c =? 13).

Fixpoint skip_space (s : string) : string :=
  match s with
  | String c s' => if is_json_space c then skip_space s' else s
  | EmptyString => ""
  end.

Definition hex_value (c : ascii) : option Z :=
  let z := code c in
  if (48 <=? z) && (z <=? 57) then Some (z - 48)
  else if (97 <=? z) && (z <=? 102) then Some (z - 87)
  else if (65 <=? z) && (z <=? 70) then Some (z - 55)
  else None.

Definition take_hex4 (s : string) : option (Z * string) :=
  match s with
  | String a (String b (String c (String d rest))) =>
      match hex_value a, hex_value b, hex_value c, hex_value d with
      | Some w, Some x, Some y, Some z => Some (((w * 16 + x) * 16 + y) * 16 + z, rest)
      | _, _, _, _ => None
      end
  | _ => None
  end.

(** The rune of an escape with value [r], and what follows it: a surrogate pair
    is joined, a lone surrogate is U+FFFD. *)
Definition join_surrogates (r : Z) (rest : string) : string * string :=
  if (55296 <=? r) && (r <? 57344) then
    match rest with
    | String a (String b rest') =>
        if (code a =? 92) && (code b =? 117) then
          match take_hex4 rest' with
          | Some (r2, rest2) =>
              if (r <? 56320) && (56320 <=? r2) && (r2 <? 57344)
              then (encode_rune ((r - 55296) * 1024 + (r2 - 56320) + 65536), rest2)
              else (rune_error, rest)
          | None => (rune_error, rest)
          end
        else (rune_error, rest)
    | _ => (rune_error, rest)
    end
  else (encode_rune r, rest).

(** The simple escapes. *)
Definition unescape_byte (c : ascii) : option ascii :=
  let z := code c in
  if (z =? 34) || (z =? 92) || (z =? 47) then Some c
  else if z =? 98 then Some (chr 8)
  else if z =? 102 then Some (chr 12)
  else if z =? 110 then Some (chr 10)
  else if z =? 114 then Some (chr 13)
  else if z =? 116 then Some (chr 9)
  else None.

(** The rest of a string literal after its opening quote. *)
Fixpoint unquote (fuel : nat) (s : string) : option (string * string) :=
  match fuel, s with
  | S n, String c s' =>
      if code c =? 34 then Some ("", s')
      else if code c =? 92 then
        match s' with
        | String e s'' =>
            if code e =? 117 then
              match take_hex4 s'' with
              | Some (r, rest) =>
                  let '(w, rest') := join_surrogates r rest in
                  match unquote n rest' with
                  | Some (t, out) => Some (w +:+ t, out)
                  | None => None
                  end
              | None => None
              end
            else match unescape_byte e, unquote n s'' with
                 | Some b, Some (t, out) => Some (String b t, out)
                 | _, _ => None
                 end
        | EmptyString => None
        end
      else if code c <? 32 then None
      else match take_rune s with
           | Some (w, rest) =>
               match unquote n rest with
               | Some (t, out) => Some (w +:+ t, out)
               | None => None
               end
           | None =>
               match unquote n s' with
               | Some (t, out) => Some (rune_error +:+ t, out)
               | None => None
               end
           end
  | _, _ => None
  end.

Definition is_digit (c : ascii) : bool := byte_in 48 57 c.

Fixpoint take_digits (s : string) : string * string :=
  match s with
  | String c s' =>
      if is_digit c then let '(d, r) := take_digits s' in (String c d, r) else ("", s)
  | EmptyString => ("", "")
  end.

(** The integer part: "0" or digits that do not start with one. *)
Definition take_int (s : string) : option (string * string) :=
  match s with
  | String c s' =>
      if code c =? 48 then Some (String c "", s')
      else if is_digit c then Some (take_digits s)
      else None
  | EmptyString => None
  end.

Definition take_frac (s : string) : option (string * string) :=
  match s with
  | String c s' =>
      if code c =? 46 then
        match take_digits s' with
        | (EmptyString, _) => None
        | (d, r) => Some (String c d, r)
        end
      else Some ("", s)
  | EmptyString => Some ("", s)
  end.

Definition take_exp (s : string) : option (string * string) :=
  match s with
  | String c s' =>
      if (code c =? 101) || (code c =? 69) then
        let '(sign, s'') :=
          match s' with
          | String g t => if (code g =? 43) || (code g =? 45) then (String g "", t) else ("", s')
          | EmptyString => ("", s')
          end in
        match take_digits s'' with
        | (EmptyString, _) => None
        | (d, r) => Some (String c (sign +:+ d), r)
        end
      else Some ("", s)
  | EmptyString => Some ("", s)
  end.

Definition take_number (s : string) : option (string * string) :=
  let '(sign, s1) :=
    match s with
    | String c t => if code c =? 45 then (String c "", t) else ("", s)
    | EmptyString => ("", s)
    end in
  match take_int s1 with
  | Some (i, s2) =>
      match take_frac s2 with
      | Some (f, s3) =>
          match take_exp s3 with
          | Some (e, s4) => Some (sign +:+ i +:+ f +:+ e, s4)
          | None => None
          end
      | None => None
      end
  | None => None
  end.

(** Nesting beyond this depth is a syntax error. *)
Definition maxNestingDepth : Z := 10000.

(** One value, with [depth] containers open around it. *)
Fixpoint parse_value (fuel : nat) (depth : Z) (s0 : string) : option (json * string) :=
  match fuel with
  | O => None
  | S n =>
      let s := skip_space s0 in
      match s with
      | String c s' =>
          if code c =? 34 then
            match unquote (String.length s') s' with
            | Some (t, rest) => Some (JStr t, rest)
            | None => None
            end
          else if code c =? 123 then
            if maxNestingDepth <=? depth then None
            else match skip_space s' with
                 | String d s'' =>
                     if code d =? 125 then Some (JObj [], s'')
                     else match parse_members n (depth + 1) s' with
                          | Some (l, rest) => Some (JObj l, rest)
                          | None => None
                          end
                 | EmptyString => None
                 end
          else if code c =? 91 then
            if maxNestingDepth <=? depth then None
            else match skip_space s' with
                 | String d s'' =>
                     if code d =? 93 then Some (JArr [], s'')
                     else match parse_elems n (depth + 1) s' with
                          | Some (l, rest) => Some (JArr l, rest)
                          | None => None
                          end
                 | EmptyString => None
                 end
          else if HasPrefix s "null" then Some (JNull, str_drop 4 s)
          else if HasPrefix s "true" then Some (JBool true, str_drop 4 s)
          else if HasPrefix s "false" then Some (JBool false, str_drop 5 s)
          else match take_number s with
               | Some (lit, rest) => Some (JNum lit, rest)
               | None => None
               end
      | EmptyString => None
      end
  end
with parse_members (fuel : nat) (depth : Z) (s0 : string)
  : option (list (string * json) * string) :=
  match fuel with
  | O => None
  | S n =>
      match skip_space s0 with
      | String c s' =>
          if code c =? 34 then
            match unquote (String.length s') s' with
            | Some (k, rest) =>
                match skip_space rest with
                | String d rest' =>
                    if code d =? 58 then
                      match parse_value n depth rest' with
                      | Some (v, rest2) =>
                          match skip_space rest2 with
                          | String e rest3 =>
                              if code e =? 44 then
                                match parse_members n depth rest3 with
                                | Some (l, out) => Some ((k, v) :: l, out)
                                | None => None
                                end
                              else if code e =? 125 then Some ([(k, v)], rest3)
                              else None
                          | EmptyString => None
                          end
                      | None => None
                      end
                    else None
                | EmptyString => None
                end
            | None => None
            end
          else None
      | EmptyString => None
      end
  end
with parse_elems (fuel : nat) (depth : Z) (s0 : string) : option (list json * string) :=
  match fuel with
  | O => None
  | S n =>
      match parse_value n depth s0 with
      | Some (v, rest) =>
          match skip_space rest with
          | String e rest' =>
              if code e =? 44 then
                match parse_elems n depth rest' with
                | Some (l, out) => Some (v :: l, out)
                | None => None
                end
              else if code e =? 93 then Some ([v], rest')
              else None
          | EmptyString => None
          end
      | None => None
      end
  end.

(** The document of a byte slice; nothing but space may follow it.  Two calls in
    a row consume at least one byte, which bounds the fuel. *)
Definition json_parse (s : string) : option json :=
  match parse_value (2 * String.length s + 2) 0 s with
  | Some (v, rest) => match skip_space rest with EmptyString => Some v | _ => None end
  | None => None
  end.

(** ** Struct fields *)

(** The case folding of object keys against ASCII field names: ASCII letters,
    U+017F and U+212A fold to upper-case letters. *)
Fixpoint fold_key (fuel : nat) (s : string) : string :=
  match fuel, s with
  | S n, String c s' =>
      if byte_in 97 122 c then String (chr (code c - 32)) (fold_key n s')
      else if HasPrefix s (bytes [197; 191]%nat) then String "S" (fold_key n (str_drop 2 s))
      else if HasPrefix s (bytes [226; 132; 170]%nat) then String "K" (fold_key n (str_drop 3 s))
      else String c (fold_key n s')
  | _, _ => ""
  end.

Definition key_matches (field key : string) : bool :=
  fold_key (String.length field) field =s fold_key (String.length key) key.

(** A number for an [int32] field. *)
Definition json_int32 (lit : string) : option Z :=
  match NilZero.int_of_string lit with
  | Some d =>
      let z := Z.of_int d in
      if (- 2 ^ 31 <=? z) && (z <? 2 ^ 31) then Some z else None
  | None => None
  end.
