(* ===== verification/GoJSONFacts.v ===== *)
(** Valid UTF-8 as a predicate, and the round trip of the JSON codec: what [json.Marshal]
    writes for strings, integers and flat structs is what [json.Unmarshal] reads back. *)
From Stdlib Require Import Ascii DecimalString DecimalZ DecimalFacts.
From Stdlib Require Import Ascii.
From S2P Require Import Prelude GoStd GoStdFacts GoJSON.
(** ** Runes *)

Lemma take_rune_split s w r :
  take_rune s = Some (w, r) -> s = w +:+ r /\ w <> "".
Proof.
  unfold take_rune. destruct s as [|a s1]; [done|].
  destruct (code a <? 128); [by intros [= <- <-]|].
  destruct s1 as [|b s2]; [done|]. destruct (_ && byte_in 128 191 b); [by intros [= <- <-]|].
  destruct s2 as [|c s3]; [done|]. cbn zeta. destruct (_ && byte_in 128 191 c); [by intros [= <- <-]|].
  destruct s3 as [|d s4]; [done|]. destruct (_ && _); [by intros [= <- <-]|done].
Qed.

(** Decoding reads no further than the rune. *)
Lemma take_rune_app s w r t : take_rune s = Some (w, r) -> take_rune (w +:+ t) = Some (w, t).
Proof.
  unfold take_rune. destruct s as [|a s1]; [done|].
  destruct (code a <? 128) eqn:Ea; [intros [= <- <-]; simpl; by rewrite Ea|].
  destruct s1 as [|b s2]; [done|]. destruct (_ && byte_in 128 191 b) eqn:Eb.
  { intros [= <- <-]. simpl. by rewrite Ea, Eb. }
  destruct s2 as [|c s3]; [done|]. cbn zeta.
  destruct (_ && byte_in 128 191 c) eqn:Ec.
  { intros [= <- <-]. simpl. by rewrite Ea, Eb, Ec. }
  destruct s3 as [|d s4]; [done|].
  destruct (_ && byte_in 128 191 d) eqn:Ed; [|done].
  intros [= <- <-]. simpl. by rewrite Ea, Eb, Ec, Ed.
Qed.

(** A multi-byte rune starts with a byte that is no quote, backslash or control. *)
Lemma take_rune_high c s w r :
  take_rune (String c s) = Some (w, r) -> (code c <? 128) = false ->
  exists w', w = String c w'.
Proof.
  intros H Hc. destruct (take_rune_split _ _ _ H) as [E Hne].
  destruct w as [|d w']; [done|]. simpl in E. injection E as -> _. eauto.
Qed.

(** ** Strings *)

(** One escaped ASCII byte is read back as that byte. *)
Lemma unquote_escape_byte html n c t :
  (code c <? 128) = true ->
  unquote (S n) (escape_byte html c +:+ t) =
  match unquote n t with Some (u, out) => Some (String c u, out) | None => None end.
Proof.
  intros Hc. destruct html, c as [[] [] [] [] [] [] [] []]; try discriminate Hc;
    cbn -[unquote]; reflexivity.
Qed.

Lemma unquote_escape_rune n s w r t :
  take_rune s = Some (w, r) -> match s with String c _ => code c <? 128 | _ => true end = false ->
  unquote (S n) (escape_rune w +:+ t) =
  match unquote n t with Some (u, out) => Some (w +:+ u, out) | None => None end.
Proof.
  intros Hs Hc. destruct s as [|c s]; [done|]. unfold escape_rune.
  destruct (w =s bytes [226; 128; 168]%nat) eqn:E1.
  { apply str_eqb_spec in E1. subst w. reflexivity. }
  destruct (w =s bytes [226; 128; 169]%nat) eqn:E2.
  { apply str_eqb_spec in E2. subst w. reflexivity. }
  pose proof (take_rune_app _ _ _ t Hs) as Ht.
  destruct (take_rune_high _ _ _ _ Hs Hc) as [w' ->]. simpl in Ht |- *.
  replace (code c =? 34) with false by lia. replace (code c =? 92) with false by lia.
  replace (code c <? 32) with false by lia.
  by rewrite Ht.
Qed.

Lemma valid_utf8_fuel_rune n c s :
  valid_utf8_fuel (S n) (String c s) = true ->
  exists w r, take_rune (String c s) = Some (w, r) /\ valid_utf8_fuel n r = true /\
    (String.length r <= String.length s)%nat.
Proof.
  cbn [valid_utf8_fuel]. destruct (take_rune (String c s)) as [[w r]|] eqn:E; [|done].
  intros Hv. exists w, r. repeat split; auto. destruct (take_rune_split _ _ _ E) as [Es Hw].
  destruct w as [|d w]; [done|]. simpl in Es. injection Es as _ ->. rewrite str_length_app. lia.
Qed.

(** The rest of a valid string after an ASCII byte. *)
Lemma take_rune_ascii c s : (code c <? 128) = true -> take_rune (String c s) = Some (String c "", s).
Proof. intros H. unfold take_rune. by rewrite H. Qed.

Lemma unquote_escape html m n k s t :
  (String.length s <= m)%nat -> (String.length s <= k)%nat ->
  valid_utf8_fuel k s = true -> (m < n)%nat ->
  unquote n (escape html m s +:+ String quote t) = Some (s, t).
Proof.
  revert n k s. induction m as [|m IH]; intros n k s Hm Hk Hv Hn.
  { destruct s; [|simpl in Hm; lia]. destruct n; [lia|]. reflexivity. }
  destruct n as [|n]; [lia|]. destruct s as [|c s]; [reflexivity|].
  destruct k as [|k]; [simpl in Hk; lia|]. simpl in Hm, Hk.
  destruct (valid_utf8_fuel_rune _ _ _ Hv) as (w & r & Ht & Hr & Hl).
  cbn [escape]. destruct (code c <? 128) eqn:Ec.
  - rewrite take_rune_ascii in Ht by done. injection Ht as <- <-.
    rewrite str_app_assoc, unquote_escape_byte by done.
    by rewrite (IH n k) by (done || lia).
  - rewrite Ht, str_app_assoc, (unquote_escape_rune _ _ _ _ _ Ht) by done.
    rewrite (IH n k) by (done || lia).
    destruct (take_rune_split _ _ _ Ht) as [-> _]. done.
Qed.

Lemma escape_byte_length html c : (1 <= String.length (escape_byte html c))%nat.
Proof. destruct html, c as [[] [] [] [] [] [] [] []]; vm_compute; lia. Qed.

Lemma escape_rune_length w : (String.length w <= String.length (escape_rune w))%nat.
Proof.
  unfold escape_rune. destruct (w =s bytes [226; 128; 168]%nat) eqn:E1.
  { apply str_eqb_spec in E1. subst w. vm_compute. lia. }
  destruct (w =s bytes [226; 128; 169]%nat) eqn:E2; [|lia].
  apply str_eqb_spec in E2. subst w. vm_compute. lia.
Qed.

Lemma escape_length html m s :
  (String.length s <= m)%nat -> (String.length s <= String.length (escape html m s))%nat.
Proof.
  revert s. induction m as [|m IH]; intros s Hm; [destruct s; simpl in *; lia|].
  destruct s as [|c s]; [simpl; lia|]. cbn [escape]. simpl in Hm.
  destruct (code c <? 128).
  { rewrite str_length_app. pose proof (escape_byte_length html c). specialize (IH s). simpl. lia. }
  destruct (take_rune (String c s)) as [[w r]|] eqn:E.
  - destruct (take_rune_split _ _ _ E) as [Es Hw]. rewrite Es, !str_length_app.
    pose proof (escape_rune_length w).
    assert (String.length (String c s) = String.length (w +:+ r)) as El by (by rewrite Es).
    destruct w as [|d w]; [done|]. rewrite str_length_app in El. simpl in El.
    specialize (IH r). lia.
  - rewrite str_length_app. specialize (IH s). simpl. lia.
Qed.

(** A string literal, with anything after it. *)
Lemma unquote_json_quote html s t :
  valid_utf8 s = true ->
  let lit := escape html (String.length s) s +:+ String quote t in
  unquote (String.length lit) lit = Some (s, t).
Proof.
  intros Hv lit. apply (unquote_escape html _ _ (String.length s)); auto. unfold lit.
  rewrite str_length_app. pose proof (escape_length html (String.length s) s). simpl. lia.
Qed.

(** ** Integers *)

(** The text of an integer: an optional sign before "0" or digits that do not
    start with one. *)
Lemma take_digits_uint d t :
  match t with String c _ => is_digit c = false | EmptyString => True end ->
  take_digits (NilEmpty.string_of_uint d +:+ t) = (NilEmpty.string_of_uint d, t).
Proof.
  intros Ht. induction d; try (simpl; by rewrite IHd).
  simpl. destruct t as [|c t]; [done|]. simpl. by rewrite Ht.
Qed.

Lemma unorm_D0 d : Decimal.unorm (Decimal.D0 d) = Decimal.D0 d -> d = Decimal.Nil.
Proof.
  unfold Decimal.unorm. change (Decimal.nzhead (Decimal.D0 d)) with (Decimal.nzhead d).
  destruct (Decimal.nzhead d) as [|d'|d'|d'|d'|d'|d'|d'|d'|d'|d'] eqn:E; try discriminate.
  - by intros [= <-].
  - by apply nzhead_nonzero in E.
Qed.

(** [t] does not continue a number. *)
Definition ends_number (t : string) : Prop :=
  match t with
  | String c _ => is_digit c = false /\ (code c =? 46) = false /\
                  ((code c =? 101) || (code c =? 69)) = false
  | EmptyString => True
  end.

Lemma take_int_uint d t :
  ends_number t -> d <> Decimal.Nil -> Decimal.unorm d = d ->
  take_int (NilEmpty.string_of_uint d +:+ t) = Some (NilEmpty.string_of_uint d, t).
Proof.
  intros Ht Hne Hn.
  assert (Hd : take_digits (NilEmpty.string_of_uint d +:+ t) = (NilEmpty.string_of_uint d, t)).
  { apply take_digits_uint. destruct t; [done|]. by destruct Ht. }
  destruct d; try done; try (cbn in Hd |- *; by rewrite Hd).
  by rewrite (unorm_D0 _ Hn).
Qed.

Lemma take_rest_ends t : ends_number t -> take_frac t = Some ("", t) /\ take_exp t = Some ("", t).
Proof.
  unfold take_frac, take_exp. destruct t as [|c t]; [done|]. by intros (_ & -> & ->).
Qed.

Lemma to_int_norm z : Decimal.norm (Z.to_int z) = Z.to_int z.
Proof. by rewrite <- DecimalZ.to_of, DecimalZ.of_to. Qed.

Lemma take_number_Itoa z t : ends_number t -> take_number (Itoa z +:+ t) = Some (Itoa z, t).
Proof.
  intros Ht. destruct (take_rest_ends t Ht) as [Hf He].
  pose proof (to_int_norm z) as Hn. unfold Itoa. destruct (Z.to_int z) as [d|d]; simpl in Hn.
  - injection Hn as Hn.
    assert (d <> Decimal.Nil) as Hne by (intros ->; discriminate Hn).
    assert (match NilEmpty.string_of_uint d +:+ t with
            | String c u => if code c =? 45 then (String c "", u)
                            else ("", NilEmpty.string_of_uint d +:+ t)
            | EmptyString => ("", NilEmpty.string_of_uint d +:+ t)
            end = ("", NilEmpty.string_of_uint d +:+ t)) as Hs by (by destruct d).
    unfold take_number. cbn [NilEmpty.string_of_int]. rewrite Hs, take_int_uint by done.
    by rewrite Hf, He, !str_app_nil_r.
  - assert (Decimal.unorm d = d /\ d <> Decimal.Nil) as [Hu Hne].
    { unfold Decimal.unorm. destruct (Decimal.nzhead d) eqn:E; try discriminate Hn;
        injection Hn as <-; split; try done. }
    unfold take_number. cbn [NilEmpty.string_of_int]. simpl.
    rewrite take_int_uint by done. by rewrite Hf, He, !str_app_nil_r.
Qed.

Lemma to_int_nonnil z : Z.to_int z <> Decimal.Pos Decimal.Nil /\ Z.to_int z <> Decimal.Neg Decimal.Nil.
Proof. pose proof (to_int_norm z) as H. split; intros E; rewrite E in H; discriminate H. Qed.

Lemma json_int32_Itoa z : - 2 ^ 31 <= z < 2 ^ 31 -> json_int32 (Itoa z) = Some z.
Proof.
  intros Hz. destruct (to_int_nonnil z) as [Hp Hn]. unfold json_int32, Itoa.
  replace (NilEmpty.string_of_int (Z.to_int z)) with (NilZero.string_of_int (Z.to_int z))
    by (by destruct (Z.to_int z) as [[]|[]]).
  rewrite NilZero.isi, DecimalZ.of_to by done.
  destruct (_ && _) eqn:E; [done|]. lia.
Qed.

(** ** Flat structs *)

(** The value of a struct field. *)
Inductive field : Type := FStr (s : string) | FInt (z : Z).

Definition field_text (v : field) : string :=
  match v with FStr s => json_string s | FInt z => Itoa z end.

Definition field_json (v : field) : json :=
  match v with FStr s => JStr s | FInt z => JNum (Itoa z) end.

Definition field_ok (v : field) : bool :=
  match v with FStr s => valid_utf8 s | FInt _ => true end.

Definition struct_text (l : list (string * field)) : string :=
  json_object (map (fun p => (p.1, field_text p.2)) l).

Lemma Itoa_head z : exists c s, Itoa z = String c s /\ is_json_space c = false /\
  code c <> 34 /\ code c <> 123 /\ code c <> 91 /\ code c <> 110 /\ code c <> 116 /\ code c <> 102.
Proof.
  destruct (to_int_nonnil z) as [Hp _]. unfold Itoa.
  destruct (Z.to_int z) as [d|d]; [destruct d; try done|];
    eexists _, _; (split; [reflexivity|]); vm_compute; repeat split; discriminate.
Qed.

Lemma parse_value_str n depth s t :
  valid_utf8 s = true -> parse_value (S n) depth (json_string s +:+ t) = Some (JStr s, t).
Proof.
  intros Hv. unfold json_string. cbn [parse_value]. simpl. rewrite str_app_assoc. simpl.
  by rewrite (unquote_json_quote true).
Qed.

Lemma parse_value_int n depth z t :
  ends_number t -> parse_value (S n) depth (Itoa z +:+ t) = Some (JNum (Itoa z), t).
Proof.
  intros Ht. pose proof (take_number_Itoa z t Ht) as Hn.
  destruct (Itoa_head z) as (c & s & E & Hsp & H1 & H2 & H3 & H4 & H5 & H6). rewrite E in *.
  assert (forall p d, HasPrefix (String c s +:+ t) (String d p) = true -> code c = code d) as Hpre.
  { intros p d [u Hu]%HasPrefix_spec. simpl in Hu. by injection Hu as -> _. }
  cbn [parse_value]. simpl. rewrite Hsp.
  replace (code c =? 34) with false by lia. replace (code c =? 123) with false by lia.
  replace (code c =? 91) with false by lia. simpl in Hn, Hpre.
  destruct (HasPrefix _ "null") eqn:P1; [apply Hpre in P1; vm_compute (code "n") in P1; lia|].
  destruct (HasPrefix _ "true") eqn:P2; [apply Hpre in P2; vm_compute (code "t") in P2; lia|].
  destruct (HasPrefix _ "false") eqn:P3; [apply Hpre in P3; vm_compute (code "f") in P3; lia|].
  by rewrite Hn.
Qed.

Lemma parse_field n depth v t :
  field_ok v = true -> ends_number t ->
  parse_value (S n) depth (field_text v +:+ t) = Some (field_json v, t).
Proof.
  destruct v; intros Hv Ht; [by apply parse_value_str|by apply parse_value_int].
Qed.

Lemma parse_members_text l n depth t :
  l <> [] -> forallb (fun p => valid_utf8 p.1 && field_ok p.2) l = true -> (length l < n)%nat ->
  parse_members n depth (json_members (map (fun p => (p.1, field_text p.2)) l) +:+ "}" +:+ t)
  = Some (map (fun p => (p.1, field_json p.2)) l, t).
Proof.
  revert n. induction l as [|[k v] l IH]; intros n Hne Hok Hn; [done|].
  simpl in Hok. apply andb_prop in Hok as [[Hk Hv]%andb_prop Hok].
  destruct n as [|[|n]]; [simpl in Hn; lia..|].
  assert (Hstep : forall tail, ends_number tail ->
    parse_members (S (S n)) depth (json_string k +:+ ":" +:+ field_text v +:+ tail) =
    match skip_space tail with
    | String e rest3 =>
        if code e =? 44 then
          match parse_members (S n) depth rest3 with
          | Some (l, out) => Some ((k, field_json v) :: l, out)
          | None => None
          end
        else if code e =? 125 then Some ([(k, field_json v)], rest3)
        else None
    | EmptyString => None
    end).
  { intros tail Htail. unfold json_string. remember (S n) as N eqn:EN. cbn [parse_members]. simpl.
    rewrite str_app_assoc. simpl. rewrite (unquote_json_quote true) by done. simpl.
    subst N. by rewrite parse_field. }
  destruct l as [|[k' v'] l].
  - cbn [map json_members fst snd]. rewrite !str_app_assoc. rewrite Hstep by done. done.
  - change (json_members (map (fun p => (p.1, field_text p.2)) ((k, v) :: (k', v') :: l)))
      with (json_string k +:+ ":" +:+ field_text v +:+ "," +:+
            json_members (map (fun p => (p.1, field_text p.2)) ((k', v') :: l))).
    rewrite !str_app_assoc. rewrite Hstep by done. simpl skip_space.
    change (code "," =? 44) with true. cbv iota.
    rewrite IH; [done|done|done|simpl in *; lia].
Qed.

Lemma struct_text_parse l :
  l <> [] -> forallb (fun p => valid_utf8 p.1 && field_ok p.2) l = true ->
  json_parse (struct_text l) = Some (JObj (map (fun p => (p.1, field_json p.2)) l)).
Proof.
  intros Hne Hok. unfold json_parse, struct_text, json_object.
  set (m := json_members _).
  assert (Hlen : (length l <= String.length m)%nat).
  { clear. unfold m. clear m. induction l as [|[k v] l IH]; [simpl; lia|].
    destruct l as [|q l]; cbn [map json_members fst snd] in *;
      rewrite !str_length_app; simpl in *; lia. }
  replace (2 * String.length ("{" +:+ m +:+ "}") + 2)%nat
    with (S (2 * String.length (m +:+ "}") + 3)) by (simpl; lia).
  assert (Hm : exists m', m = String quote m').
  { unfold m. destruct l as [|[k v] [|q l]]; [done| |]; eexists; reflexivity. }
  destruct Hm as [m' Em].
  assert (Hp : parse_members (2 * String.length (m +:+ "}") + 3) (0 + 1) (m +:+ "}" +:+ "") =
    Some (map (fun p => (p.1, field_json p.2)) l, "")).
  { apply parse_members_text; try done. rewrite str_length_app. lia. }
  cbn [parse_value]. simpl (skip_space _). rewrite Em in *. simpl in Hp |- *.
  by rewrite Hp.
Qed.


(** UTF-8 validity of strings that are put together and cut: a valid string cut in
    front of a byte that continues no rune gives two valid strings, and trimming
    white space keeps a string valid. *)
(** ** Valid strings are sequences of runes *)

Inductive utf8 : string -> Prop :=
| utf8_nil : utf8 ""
| utf8_rune s w r : take_rune s = Some (w, r) -> utf8 r -> utf8 s.

Lemma utf8_valid_fuel s : utf8 s -> forall n, (String.length s <= n)%nat -> valid_utf8_fuel n s = true.
Proof.
  induction 1 as [|s w r Ht Hr IH]; intros n Hn; [by destruct n|].
  destruct (take_rune_split _ _ _ Ht) as [-> Hw]. destruct w as [|c w]; [done|].
  simpl in Hn. rewrite str_length_app in Hn. destruct n as [|n]; [lia|].
  cbn [String.append valid_utf8_fuel] in *. rewrite Ht. apply IH. lia.
Qed.

Lemma valid_fuel_utf8 n s : valid_utf8_fuel n s = true -> utf8 s.
Proof.
  revert s. induction n as [|n IH]; intros [|c s]; intros H; try (constructor; fail); [done|].
  destruct (valid_utf8_fuel_rune _ _ _ H) as (w & r & Ht & Hr & _). econstructor; [exact Ht|auto].
Qed.

Lemma valid_utf8_spec s : valid_utf8 s = true <-> utf8 s.
Proof. split; [apply valid_fuel_utf8|]. intros H. by apply utf8_valid_fuel. Qed.

Lemma utf8_app s t : utf8 s -> utf8 t -> utf8 (s +:+ t).
Proof.
  induction 1 as [|s w r Ht Hr IH]; intros Ht'; [done|].
  destruct (take_rune_split _ _ _ Ht) as [-> _]. rewrite str_app_assoc.
  econstructor; [by eapply take_rune_app|auto].
Qed.

Lemma utf8_ascii c s : (code c <? 128) = true -> utf8 s -> utf8 (String c s).
Proof. intros Hc Hs. econstructor; [by apply take_rune_ascii|done]. Qed.

(** ** Cuts *)

(** A byte that continues a rune. *)
Definition continues (c : ascii) : bool := byte_in 128 191 c.

Definition starts_rune (s : string) : Prop :=
  match s with String c _ => continues c = false | EmptyString => True end.

Lemma ascii_starts c : (code c <? 128) = true -> continues c = false.
Proof. unfold continues, byte_in. intros H. apply andb_false_iff. lia. Qed.

Lemma rune_tail s w r : take_rune s = Some (w, r) ->
  forall c w', w = String c w' -> Forall (fun d => continues d = true) (String.list_ascii_of_string w').
Proof.
  unfold take_rune, continues. destruct s as [|a s1]; [done|].
  destruct (code a <? 128) eqn:Ea; [intros [= <- <-] c w' [= <- <-]; constructor|].
  destruct s1 as [|b s2]; [done|]. destruct (_ && byte_in 128 191 b) eqn:Eb.
  { intros [= <- <-] c w' [= <- <-]. apply andb_true_iff in Eb as [_ Eb]. by repeat constructor. }
  destruct s2 as [|c s3]; [done|]. cbn zeta. destruct (_ && byte_in 128 191 c) eqn:Ec.
  { intros [= <- <-] c' w' [= <- <-]. apply andb_true_iff in Ec as [E Ec].
    unfold byte_in in *. repeat constructor; breflect; lia. }
  destruct s3 as [|d s4]; [done|]. destruct (_ && byte_in 128 191 d) eqn:Ed; [|done].
  intros [= <- <-] c' w' [= <- <-]. unfold byte_in in *. repeat constructor; breflect; lia.
Qed.

Lemma str_app_split (a b w r : string) : a +:+ b = w +:+ r ->
  (exists x, a = w +:+ x /\ r = x +:+ b) \/ (exists c x, w = a +:+ String c x /\ b = String c (x +:+ r)).
Proof.
  revert w. induction a as [|c a IH]; intros [|d w]; simpl; intros E.
  - left. by exists "".
  - right. subst b. by exists d, w.
  - left. exists (String c a). by rewrite <- E.
  - injection E as -> E. destruct (IH w E) as [(x & -> & ->)|(e & x & -> & ->)]; [left|right]; eauto.
Qed.

Lemma utf8_cut a b : utf8 (a +:+ b) -> starts_rune b -> utf8 a /\ utf8 b.
Proof.
  intros H. remember (a +:+ b) as s eqn:E. revert a E.
  induction H as [|s w r Ht Hr IH]; intros a E Hb.
  { destruct a; [|done]. simpl in E. subst b. split; constructor. }
  destruct (take_rune_split _ _ _ Ht) as [Es Hw].
  destruct a as [|ch a].
  { split; [constructor|]. simpl in E. subst. by econstructor. }
  rewrite Es in E. symmetry in E. apply str_app_split in E as [(x & Ha & Hx)|(c & x & Hx & Hbx)].
  - destruct (IH x Hx Hb) as [Hux Hub]. split; [|done]. rewrite Ha.
    econstructor; [by eapply take_rune_app|done].
  - exfalso. subst b. simpl in Hb. pose proof (rune_tail _ _ _ Ht ch (a +:+ String c x) Hx) as Hall.
    rewrite Forall_forall in Hall. rewrite (Hall c) in Hb; [done|].
    clear. induction a as [|d a IH]; simpl; set_solver.
Qed.

Lemma utf8_infix a m b : utf8 (a +:+ m +:+ b) -> starts_rune (m +:+ b) -> starts_rune b -> utf8 m.
Proof. intros H Hm Hb. apply utf8_cut in H as [_ H]; [|done]. by apply utf8_cut in H as [H _]. Qed.

Lemma utf8_starts s : utf8 s -> starts_rune s.
Proof.
  destruct 1 as [|s w r Ht Hr]; [done|]. revert Ht. unfold take_rune, starts_rune, continues.
  destruct s as [|a s1]; [done|]. destruct (code a <? 128) eqn:Ea.
  { intros _. apply andb_false_iff. lia. }
  intros H. apply not_true_iff_false. intros E. revert H.
  destruct s1 as [|b s2]; [done|]. destruct (_ && byte_in 128 191 b) eqn:Eb.
  { unfold byte_in in *. breflect. lia. }
  destruct s2 as [|c s3]; [done|]. cbn zeta. destruct (_ && byte_in 128 191 c) eqn:Ec.
  { unfold byte_in in *. clear Eb. breflect. lia. }
  destruct s3 as [|d s4]; [done|]. destruct (_ && byte_in 128 191 d) eqn:Ed; [|done].
  unfold byte_in in *. clear Eb Ec. breflect. lia.
Qed.

(** ** Trimming *)

Section Trim.
Context (runes : list string) (Hrunes : Forall (fun w => take_rune w = Some (w, "")) runes).

Lemma strip_any_utf8 s s' : strip_any runes s = Some s' -> utf8 s -> utf8 s'.
Proof.
  unfold strip_any. destruct (find _ _) as [w|] eqn:E; [|done]. intros [= <-].
  apply List.find_some in E as [Hin Hp]. apply HasPrefix_spec in Hp as [r ->]. rewrite str_drop_app.
  rewrite Forall_forall in Hrunes. apply list_elem_of_In, Hrunes in Hin.
  intros Hu. inversion Hu as [E|x w' r' Ht Hr]; subst.
  - destruct w; [|done]. simpl in *. by subst.
  - rewrite (take_rune_app _ _ _ r Hin) in Ht. by injection Ht as _ <-.
Qed.

Lemma strip_back_utf8 s t : strip_any (map str_rev runes) s = Some t -> utf8 (str_rev s) -> utf8 (str_rev t).
Proof.
  unfold strip_any. destruct (find _ _) as [w|] eqn:E; [|done]. intros [= <-].
  apply List.find_some in E as [Hin Hp]. apply HasPrefix_spec in Hp as [r ->]. rewrite str_drop_app.
  apply in_map_iff in Hin as (v & <- & Hin). rewrite str_rev_app, str_rev_involutive.
  rewrite Forall_forall in Hrunes. apply list_elem_of_In, Hrunes in Hin.
  intros Hu. apply utf8_cut in Hu as [Hu _]; [done|].
  apply utf8_starts. econstructor; [exact Hin|constructor].
Qed.

Lemma TrimRunes_utf8 s : utf8 s -> utf8 (TrimRunes runes s).
Proof.
  intros Hs. unfold TrimRunes, TrimRightRunes, TrimLeftRunes.
  assert (Hl : utf8 (trim_front (String.length s) runes s)).
  { generalize (String.length s) as n. intros n. revert s Hs. induction n as [|n IH]; intros s Hs; [done|].
    simpl. destruct (strip_any runes s) as [s'|] eqn:E; [|done]. by eapply IH, strip_any_utf8. }
  revert Hl. generalize (trim_front (String.length s) runes s) as t. intros t Ht.
  rewrite <- (str_rev_involutive t) in Ht. revert Ht. generalize (str_rev t) as u. clear t.
  intros u Hu. generalize (String.length u) as n. intros n. revert u Hu.
  induction n as [|n IH]; intros u Hu; [done|]. simpl.
  destruct (strip_any _ u) as [u'|] eqn:E; [|done]. by eapply IH, strip_back_utf8.
Qed.
End Trim.

Lemma space_runes_utf8 : Forall (fun w => take_rune w = Some (w, "")) space_runes.
Proof. apply (bool_decide_unpack _). vm_compute. exact I. Qed.

Lemma TrimSpace_utf8 s : utf8 s -> utf8 (TrimSpace s).
Proof. apply TrimRunes_utf8, space_runes_utf8. Qed.

(** Strings of ASCII bytes. *)
Lemma ascii_utf8 s : forallb (fun c => code c <? 128) (String.list_ascii_of_string s) = true -> utf8 s.
Proof.
  induction s as [|c s IH]; simpl; [constructor|]. intros [Hc Hs]%andb_true_iff.
  apply utf8_ascii; auto.
Qed.

Create HintDb utf8.
#[export] Hint Resolve utf8_nil utf8_app TrimSpace_utf8 utf8_starts : utf8.
