(* ===== verification/GoText.v ===== *)
(** More of Go's [strings], [path] and [strconv], used by the manifest, graph and
    project-detection code. *)
From Stdlib Require Import Ascii DecimalString.
From S2P Require Import Prelude GoStd GoStdFacts GoJSON.
(** ** [path] *)

(** [path.Split] *)
Definition path_Split (p : string) : string * string :=
  let es := SplitByte "/" p in
  (match removelast es with [] => "" | d => Join d "/" +:+ "/" end, List.last es "").

Definition path_Base (p : string) : string :=
  if p =s "" then "."
  else
    let s := TrimRightRunes ["/"] p in
    if s =s "" then "/" else (path_Split s).2.

Definition path_Dir (p : string) : string := Clean (path_Split p).1.

(** The suffix from the last dot of the last element. *)
Definition path_Ext (p : string) : string :=
  match SplitByte "." (path_Split p).2 with
  | [] | [_] => ""
  | parts => "." +:+ List.last parts ""
  end.

(** ** [strings] *)

(** [strings.ToLower] as far as a comparison with ASCII text can tell: ASCII
    letters, and the two other runes whose lower case is an ASCII letter. *)
Fixpoint lower_fuel (fuel : nat) (s : string) : string :=
  match fuel, s with
  | S n, String c s' =>
      if HasPrefix s (bytes [226; 132; 170]%nat) then String "k" (lower_fuel n (str_drop 3 s))
      else if HasPrefix s (bytes [196; 176]%nat) then String "i" (lower_fuel n (str_drop 2 s))
      else String (ascii_lower c) (lower_fuel n s')
  | _, _ => ""
  end.

Definition ToLower (s : string) : string := lower_fuel (String.length s) s.

(** [strings.ToUpper], likewise. *)
Definition ascii_upper (c : ascii) : ascii :=
  if byte_in 97 122 c then chr (code c - 32) else c.

Fixpoint upper_fuel (fuel : nat) (s : string) : string :=
  match fuel, s with
  | S n, String c s' =>
      if HasPrefix s (bytes [196; 177]%nat) then String "I" (upper_fuel n (str_drop 2 s))
      else if HasPrefix s (bytes [197; 191]%nat) then String "S" (upper_fuel n (str_drop 2 s))
      else String (ascii_upper c) (upper_fuel n s')
  | _, _ => ""
  end.

Definition ToUpper (s : string) : string := upper_fuel (String.length s) s.

(** [strings.Index]; [None] is -1. *)
Fixpoint Index (s sub : string) : option nat :=
  if HasPrefix s sub then Some 0%nat
  else match s with
       | EmptyString => None
       | String _ s' => S <$> Index s' sub
       end.

(** [strings.ReplaceAll] of one byte. *)
Definition ReplaceByte (old new : ascii) (s : string) : string :=
  String.string_of_list_ascii
    (map (fun c => if bool_decide (c = old) then new else c) (String.list_ascii_of_string s)).

(** [strings.EqualFold] when one argument is ASCII: ASCII letters, and the two
    other runes whose case orbit holds an ASCII letter. *)
Definition EqualFold (s t : string) : bool := key_matches s t.

Definition TrimSuffix (s suffix : string) : string :=
  if HasSuffix s suffix then str_rev (str_drop (String.length suffix) (str_rev s)) else s.

(** The first [n] bytes. *)
Fixpoint str_take (n : nat) (s : string) : string :=
  match n, s with
  | S n', String c s' => String c (str_take n' s')
  | _, _ => ""
  end.

(** [strings.Cut] at one byte: what is before and after its first occurrence. *)
Fixpoint CutByte (sep : ascii) (s : string) : option (string * string) :=
  match s with
  | EmptyString => None
  | String c s' =>
      if bool_decide (c = sep) then Some ("", s')
      else match CutByte sep s' with
           | Some (a, b) => Some (String c a, b)
           | None => None
           end
  end.

(** [strings.ReplaceAll] of one byte by two of it. *)
Fixpoint DoubleByte (c : ascii) (s : string) : string :=
  match s with
  | EmptyString => ""
  | String d s' =>
      if bool_decide (d = c) then String d (String d (DoubleByte c s')) else String d (DoubleByte c s')
  end.

(** [strings.Fields]: the words between runs of white space; [cur] is the word
    being read, last byte first. *)
Fixpoint fields_fuel (fuel : nat) (cur : list ascii) (s : string) : list string :=
  let flush := match cur with [] => [] | _ => [String.string_of_list_ascii (rev cur)] end in
  match fuel, s with
  | S n, String c s' =>
      match strip_any space_runes s with
      | Some rest => flush ++ fields_fuel n [] rest
      | None => fields_fuel n (c :: cur) s'
      end
  | _, _ => flush
  end.

Definition Fields (s : string) : list string := fields_fuel (String.length s) [] s.

(** ** [time.Duration.String] *)

(** [n] as exactly [k] decimal digits. *)
Fixpoint fixed_digits (k : nat) (n : Z) : list ascii :=
  match k with
  | O => []
  | S k' => fixed_digits k' (n / 10) ++ [chr (48 + n mod 10)]
  end.

Fixpoint drop_zeros (l : list ascii) : list ascii :=
  match l with
  | c :: l' => if bool_decide (c = "0"%char) then drop_zeros l' else l
  | [] => []
  end.

(** The decimal point and the digits of [n / 10^k] without trailing zeros. *)
Definition fmtFrac (k : nat) (n : Z) : string :=
  let ds := rev (drop_zeros (rev (fixed_digits k n))) in
  match ds with [] => "" | _ => String "." (String.string_of_list_ascii ds) end.

Definition Duration_String (d : Z) : string :=
  let u := Z.abs d in
  let body :=
    if u =? 0 then "0s"
    else if u <? 1000 then Itoa u +:+ "ns"
    else if u <? 1000000 then Itoa (u / 1000) +:+ fmtFrac 3 (u mod 1000) +:+ bytes [194; 181]%nat +:+ "s"
    else if u <? 1000000000 then Itoa (u / 1000000) +:+ fmtFrac 6 (u mod 1000000) +:+ "ms"
    else
      let sec := u / 1000000000 in
      let s := Itoa (sec mod 60) +:+ fmtFrac 9 (u mod 1000000000) +:+ "s" in
      let m := sec / 60 in
      if m =? 0 then s
      else if m / 60 =? 0 then Itoa m +:+ "m" +:+ s
      else Itoa (m / 60) +:+ "h" +:+ Itoa (m mod 60) +:+ "m" +:+ s in
  if d <? 0 then "-" +:+ body else body.

Example duration_texts :
  map Duration_String [0; 30000000000; 1500000000; 90061000000000; 1500; 250000000]
  = ["0s"; "30s"; "1.5s"; "25h1m1s"; "1.5" +:+ bytes [194; 181]%nat +:+ "s"; "250ms"].
Proof. vm_compute. reflexivity. Qed.

(** ** [strconv] *)

(** [strconv.ParseInt(s, 10, 64)]: a sign and digits; [None] is an error. *)
Definition ParseInt64 (s : string) : option Z :=
  let '(neg, body) :=
    match s with
    | String c s' => if code c =? 45 then (true, s') else if code c =? 43 then (false, s') else (false, s)
    | EmptyString => (false, s)
    end in
  if body =s "" then None
  else match NilEmpty.uint_of_string body with
       | Some d =>
           let z := if neg then - Z.of_uint d else Z.of_uint d in
           if (- 2 ^ 63 <=? z) && (z <? 2 ^ 63) then Some z else None
       | None => None
       end.

(** [strconv.Atoi], on a 64-bit platform. *)
Definition Atoi (s : string) : option Z := ParseInt64 s.
