(* ===== verification/Sha256.v ===== *)
(** SHA-256 as [crypto/sha256] computes it, over byte strings, with
    [hex.EncodeToString] (used by the planner's stable identifiers). *)
From Stdlib Require Import Ascii.
From S2P Require Import Prelude GoStd GoJSON.
(** ** 32-bit words *)

Definition w32 (z : Z) : Z := z mod 2 ^ 32.
Definition add32 (a b : Z) : Z := w32 (a + b).
Definition rotr (n x : Z) : Z := Z.lor (Z.shiftr x n) (w32 (Z.shiftl x (32 - n))).
Definition not32 (x : Z) : Z := 4294967295 - x.

Definition Ch (x y z : Z) : Z := Z.lxor (Z.land x y) (Z.land (not32 x) z).
Definition Maj (x y z : Z) : Z := Z.lxor (Z.lxor (Z.land x y) (Z.land x z)) (Z.land y z).
Definition big_sigma0 (x : Z) : Z := Z.lxor (Z.lxor (rotr 2 x) (rotr 13 x)) (rotr 22 x).
Definition big_sigma1 (x : Z) : Z := Z.lxor (Z.lxor (rotr 6 x) (rotr 11 x)) (rotr 25 x).
Definition small_sigma0 (x : Z) : Z := Z.lxor (Z.lxor (rotr 7 x) (rotr 18 x)) (Z.shiftr x 3).
Definition small_sigma1 (x : Z) : Z := Z.lxor (Z.lxor (rotr 17 x) (rotr 19 x)) (Z.shiftr x 10).

Definition K : list Z :=
  [1116352408; 1899447441; 3049323471; 3921009573; 961987163; 1508970993; 2453635748; 2870763221;
   3624381080; 310598401; 607225278; 1426881987; 1925078388; 2162078206; 2614888103; 3248222580;
   3835390401; 4022224774; 264347078; 604807628; 770255983; 1249150122; 1555081692; 1996064986;
   2554220882; 2821834349; 2952996808; 3210313671; 3336571891; 3584528711; 113926993; 338241895;
   666307205; 773529912; 1294757372; 1396182291; 1695183700; 1986661051; 2177026350; 2456956037;
   2730485921; 2820302411; 3259730800; 3345764771; 3516065817; 3600352804; 4094571909; 275423344;
   430227734; 506948616; 659060556; 883997877; 958139571; 1322822218; 1537002063; 1747873779;
   1955562222; 2024104815; 2227730452; 2361852424; 2428436474; 2756734187; 3204031479; 3329325298].

Definition H0 : list Z :=
  [1779033703; 3144134277; 1013904242; 2773480762; 1359893119; 2600822924; 528734635; 1541459225].

(** ** Blocks *)

(** The message with 0x80, zeros and its 64-bit length in bits. *)
Definition pad (msg : list Z) : list Z :=
  let n := Z.of_nat (length msg) in
  let zeros := (55 - n) mod 64 in
  msg ++ [128] ++ repeat 0 (Z.to_nat zeros)
  ++ map (fun i => Z.land (Z.shiftr (8 * n) (8 * (7 - Z.of_nat i))) 255) (seq 0 8).

Fixpoint words (l : list Z) : list Z :=
  match l with
  | a :: b :: c :: d :: rest => (((a * 256 + b) * 256 + c) * 256 + d) :: words rest
  | _ => []
  end.

(** The message schedule, newest word first. *)
Fixpoint schedule (n : nat) (w : list Z) : list Z :=
  match n with
  | O => w
  | S n' =>
      schedule n' (add32 (add32 (small_sigma1 (nth 1 w 0)) (nth 6 w 0))
                         (add32 (small_sigma0 (nth 14 w 0)) (nth 15 w 0)) :: w)
  end.

Definition round (s : list Z) (kw : Z * Z) : list Z :=
  match s with
  | [a; b; c; d; e; f; g; h] =>
      let t1 := add32 (add32 h (big_sigma1 e)) (add32 (Ch e f g) (add32 kw.1 kw.2)) in
      let t2 := add32 (big_sigma0 a) (Maj a b c) in
      [add32 t1 t2; a; b; c; add32 d t1; e; f; g]
  | _ => s
  end.

Definition compress (s : list Z) (block : list Z) : list Z :=
  let w := rev (schedule 48 (rev (words block))) in
  zip_with add32 s (foldl round s (zip K w)).

Fixpoint blocks (fuel : nat) (l : list Z) : list (list Z) :=
  match fuel, l with
  | S n, _ :: _ => take 64 l :: blocks n (drop 64 l)
  | _, _ => []
  end.

Definition sha256_words (msg : list Z) : list Z :=
  let p := pad msg in foldl compress H0 (blocks (length p) p).

(** ** Hexadecimal text *)

Definition hex8 (w : Z) : string :=
  String.string_of_list_ascii
    (map (fun i => hex_digit (Z.land (Z.shiftr w (4 * (7 - Z.of_nat i))) 15)) (seq 0 8)).

(** [hex.EncodeToString(sha256.Sum256(s))] *)
Definition sha256_hex (s : string) : string :=
  Join (map hex8 (sha256_words (map code (String.list_ascii_of_string s)))) "".

(** The test vectors of the standard. *)
Example sha256_abc :
  sha256_hex "abc" = "ba7816bf8f01cfea414140de5dae2223b00361a396177a9cb410ff61f20015ad".
Proof. vm_compute. reflexivity. Qed.

Example sha256_empty :
  sha256_hex "" = "e3b0c44298fc1c149afbf4c8996fb92427ae41e4649b934ca495991b7852b855".
Proof. vm_compute. reflexivity. Qed.

Example sha256_two_blocks :
  sha256_hex "abcdbcdecdefdefgefghfghighijhijkijkljklmklmnlmnomnopnopq"
  = "248d6a61d20638b8e5c026930c3e6039a33ce45964ff2167f6ecedd419db06c1".
Proof. vm_compute. reflexivity. Qed.

(** ** Shape of the digest *)

Lemma length_round s kw : length s = 8%nat -> length (round s kw) = 8%nat.
Proof. do 9 (destruct s as [|? s]; try done). Qed.

Lemma length_compress s b : length s = 8%nat -> length (compress s b) = 8%nat.
Proof.
  intros Hs. unfold compress. rewrite length_zip_with, Hs.
  assert (length (foldl round s (zip K (rev (schedule 48 (rev (words b)))))) = 8%nat) as ->; [|done].
  generalize (zip K (rev (schedule 48 (rev (words b))))). intros l. revert s Hs.
  induction l as [|x l IH]; intros s Hs; simpl; [done|]. by apply IH, length_round.
Qed.

Lemma length_sha256_words m : length (sha256_words m) = 8%nat.
Proof.
  unfold sha256_words. generalize (blocks (length (pad m)) (pad m)). intros l.
  assert (length H0 = 8%nat) as Hs by done. revert Hs. generalize H0.
  induction l as [|x l IH]; intros s Hs; simpl; [done|]. by apply IH, length_compress.
Qed.
