(* ===== verification/WorkerClasses.v ===== *)
(** The queue registry (src/pkg/asynqueues/queues.go) and the executor class
    table (src/internal/backend/workerclasses/workerclasses.go). *)
From S2P Require Import Prelude GoStd GoStdFacts.
(** ** pkg/asynqueues *)

Definition QueueConnectionSync : string := "connection-sync-queue".
Definition QueueRepoIndex : string := "repo-index-queue".
Definition QueueRepoIndexRust : string := "repo-index-rust".
Definition QueueCodeGraphWrite : string := "code-graph-write".
Definition QueueAccountPermissionSync : string := "accountPermissionSyncQueue".
Definition QueueRepoPermissionSync : string := "repoPermissionSyncQueue".
Definition QueueLLMCompletion : string := "codeintel-llm-completion".
Definition QueueIndexCore : string := "codeintel-index-core".
Definition QueueIndexSCIPTSPython : string := "codeintel-index-scip-ts-python".
Definition QueueIndexSCIPGo : string := "codeintel-index-scip-go".
Definition QueueIndexSCIPJVM : string := "codeintel-index-scip-jvm".
Definition QueueIndexSCIPDotnet : string := "codeintel-index-scip-dotnet".
Definition QueueIndexSCIPRustDart : string := "codeintel-index-scip-rust-dart".
Definition QueueIndexSCIPCPPX86 : string := "codeintel-index-scip-cpp-x86".
Definition QueueIndexSCIPRubyX86 : string := "codeintel-index-scip-ruby-x86".

(** [asynqueues.All] *)
Definition AllQueues : list string :=
  [QueueConnectionSync; QueueRepoIndex; QueueCodeGraphWrite;
   QueueAccountPermissionSync; QueueRepoPermissionSync; QueueLLMCompletion].

Definition GoSubscribedQueues : list string := AllQueues.

(** The map built by the loop [out[q] = 1]. *)
Definition DefaultPriorities : gmap string Z :=
  foldl (fun out q => <[q := 1]> out) ∅ GoSubscribedQueues.

Definition ExecutorQueues : list string :=
  [QueueIndexCore; QueueIndexSCIPTSPython; QueueIndexSCIPGo; QueueIndexSCIPJVM;
   QueueIndexSCIPDotnet; QueueIndexSCIPRustDart; QueueIndexSCIPCPPX86;
   QueueIndexSCIPRubyX86].

(** ** internal/backend/workerclasses *)

Inductive ExecutionMode : Type := ModeCore | ModeHotPool | ModeColdJob.

#[global] Instance ExecutionMode_eq_dec : EqDecision ExecutionMode.
Proof. solve_decision. Defined.

Record WorkerClass : Type := {
  wc_Name : string;
  wc_Mode : ExecutionMode;
  wc_QueueName : string;
  wc_Image : string;
  wc_NodePool : string;
  wc_SCIPWorkerClasses : list string;
  wc_SCIPIndexers : list string;
  wc_PodConcurrency : Z;
  wc_MaxPods : Z;
  wc_CPURequest : string;
  wc_MemoryRequest : string;
  wc_CPULimit : string;
  wc_MemoryLimit : string;
  wc_Architecture : string;
  wc_Description : string
}.

Definition classes : list WorkerClass :=
  [ {| wc_Name := "core"; wc_Mode := ModeCore; wc_QueueName := QueueIndexCore;
       wc_Image := "codeintel-indexer-rs-core"; wc_NodePool := "index-core";
       wc_SCIPWorkerClasses := []; wc_SCIPIndexers := [];
       wc_PodConcurrency := 2; wc_MaxPods := 100;
       wc_CPURequest := "500m"; wc_MemoryRequest := "1Gi";
       wc_CPULimit := "2"; wc_MemoryLimit := "4Gi"; wc_Architecture := "multi";
       wc_Description := "Backend-owned clone, commit snapshot, Zoekt, AST/tree-sitter scheduling, and activation without language SDKs." |};
    {| wc_Name := "scip-ts-python"; wc_Mode := ModeHotPool;
       wc_QueueName := QueueIndexSCIPTSPython;
       wc_Image := "codeintel-scip-ts-python"; wc_NodePool := "index-light";
       wc_SCIPWorkerClasses := ["ts-js"; "python"];
       wc_SCIPIndexers := ["typescript"; "python"];
       wc_PodConcurrency := 4; wc_MaxPods := 300;
       wc_CPURequest := "500m"; wc_MemoryRequest := "1Gi";
       wc_CPULimit := "4"; wc_MemoryLimit := "6Gi"; wc_Architecture := "multi";
       wc_Description := "Warm pool for frequent TypeScript, JavaScript, and Python indexing." |};
    {| wc_Name := "scip-go"; wc_Mode := ModeHotPool; wc_QueueName := QueueIndexSCIPGo;
       wc_Image := "codeintel-scip-go"; wc_NodePool := "index-light";
       wc_SCIPWorkerClasses := ["go"]; wc_SCIPIndexers := ["go"];
       wc_PodConcurrency := 4; wc_MaxPods := 200;
       wc_CPURequest := "500m"; wc_MemoryRequest := "1Gi";
       wc_CPULimit := "4"; wc_MemoryLimit := "6Gi"; wc_Architecture := "multi";
       wc_Description := "Warm pool for Go indexing and module-aware SCIP extraction." |};
    {| wc_Name := "scip-jvm"; wc_Mode := ModeColdJob; wc_QueueName := QueueIndexSCIPJVM;
       wc_Image := "codeintel-scip-jvm"; wc_NodePool := "index-heavy";
       wc_SCIPWorkerClasses := ["jvm"]; wc_SCIPIndexers := ["java"];
       wc_PodConcurrency := 1; wc_MaxPods := 100;
       wc_CPURequest := "1"; wc_MemoryRequest := "4Gi";
       wc_CPULimit := "6"; wc_MemoryLimit := "16Gi"; wc_Architecture := "multi";
       wc_Description := "Ephemeral JVM worker for Maven, Gradle, and SBT projects." |};
    {| wc_Name := "scip-dotnet"; wc_Mode := ModeColdJob;
       wc_QueueName := QueueIndexSCIPDotnet;
       wc_Image := "codeintel-scip-dotnet"; wc_NodePool := "index-heavy";
       wc_SCIPWorkerClasses := ["dotnet"]; wc_SCIPIndexers := ["dotnet"];
       wc_PodConcurrency := 1; wc_MaxPods := 100;
       wc_CPURequest := "1"; wc_MemoryRequest := "4Gi";
       wc_CPULimit := "6"; wc_MemoryLimit := "16Gi"; wc_Architecture := "multi";
       wc_Description := "Ephemeral .NET worker for solution and project-file indexing." |};
    {| wc_Name := "scip-rust-dart"; wc_Mode := ModeColdJob;
       wc_QueueName := QueueIndexSCIPRustDart;
       wc_Image := "codeintel-scip-rust-dart"; wc_NodePool := "index-heavy";
       wc_SCIPWorkerClasses := ["rust-dart"]; wc_SCIPIndexers := ["rust"; "dart"];
       wc_PodConcurrency := 1; wc_MaxPods := 100;
       wc_CPURequest := "1"; wc_MemoryRequest := "4Gi";
       wc_CPULimit := "6"; wc_MemoryLimit := "16Gi"; wc_Architecture := "multi";
       wc_Description := "Ephemeral worker for Cargo/rust-analyzer and Dart SCIP extraction." |};
    {| wc_Name := "scip-cpp-x86"; wc_Mode := ModeColdJob;
       wc_QueueName := QueueIndexSCIPCPPX86;
       wc_Image := "codeintel-scip-cpp"; wc_NodePool := "index-native-x86";
       wc_SCIPWorkerClasses := ["cpp"]; wc_SCIPIndexers := ["clang"];
       wc_PodConcurrency := 1; wc_MaxPods := 50;
       wc_CPURequest := "2"; wc_MemoryRequest := "6Gi";
       wc_CPULimit := "8"; wc_MemoryLimit := "24Gi"; wc_Architecture := "amd64";
       wc_Description := "Architecture-specific C/C++ worker for compile_commands.json projects." |};
    {| wc_Name := "scip-ruby-x86"; wc_Mode := ModeColdJob;
       wc_QueueName := QueueIndexSCIPRubyX86;
       wc_Image := "codeintel-scip-ruby"; wc_NodePool := "index-native-x86";
       wc_SCIPWorkerClasses := ["ruby"]; wc_SCIPIndexers := ["ruby"];
       wc_PodConcurrency := 1; wc_MaxPods := 50;
       wc_CPURequest := "1"; wc_MemoryRequest := "2Gi";
       wc_CPULimit := "4"; wc_MemoryLimit := "8Gi"; wc_Architecture := "amd64";
       wc_Description := "Architecture-specific Ruby worker until an arm64 toolchain is approved." |} ].

(** [workerclasses.All]: a copy of the table. *)
Definition AllClasses : list WorkerClass := classes.

(** The loops over [classes] that return the first match; [None] is [(_, false)]. *)
Definition ByName (name : string) : option WorkerClass :=
  List.find (fun c => wc_Name c =s name) classes.

Definition ForSCIPWorkerClass (scipWorkerClass : string) : option WorkerClass :=
  List.find (fun c => existsb (fun wc => wc =s scipWorkerClass) (wc_SCIPWorkerClasses c)) classes.

Definition filterByMode (mode : ExecutionMode) : list WorkerClass :=
  List.filter (fun c => bool_decide (wc_Mode c = mode)) classes.

Definition HotPools : list WorkerClass := filterByMode ModeHotPool.

Definition ColdJobs : list WorkerClass := filterByMode ModeColdJob.

Definition QueueNames : list string := SortStrings (map wc_QueueName classes).

(** ** Facts the clients use *)

Lemma ByName_Some name c : ByName name = Some c -> wc_Name c = name /\ In c classes.
Proof. intros H. apply List.find_some in H as [H1 H2]. breflect. done. Qed.

Lemma ForSCIPWorkerClass_Some swc c :
  ForSCIPWorkerClass swc = Some c -> In c classes /\ In swc (wc_SCIPWorkerClasses c).
Proof.
  intros H. apply List.find_some in H as [H1 H2]. split; [done|].
  apply existsb_exists in H2 as (x & Hx & E). breflect. by subst.
Qed.

(** Class names identify a class, so a class found through its SCIP worker
    class is the one [ByName] returns for its name. *)
Lemma ByName_of_class c : In c classes -> ByName (wc_Name c) = Some c.
Proof. intros H. repeat (destruct H as [<-|H]; [reflexivity|]). destruct H. Qed.

Lemma ByName_core : exists c, ByName "core" = Some c /\ wc_Name c = "core" /\
  wc_QueueName c = QueueIndexCore /\ In c classes.
Proof. eexists. repeat split; [reflexivity..|]. left. reflexivity. Qed.

Lemma class_names_nonempty c : In c classes -> wc_Name c <> "" /\ wc_QueueName c <> "".
Proof. intros H. repeat (destruct H as [<-|H]; [done|]). destruct H. Qed.
