(* ===== verification/SubjobTypes.v ===== *)
(** Data of the indexing-subjob subsystem: the Go types of
    src/internal/backend/indexsubjobs/store.go and the database rows its
    statements read and write (tables of src/internal/migrate/migrations). *)
From S2P Require Import Prelude GoStd GoJSON.
(** ** Machine integers *)

(** Go's [int32] arithmetic wraps around. *)
Definition wrap32 (z : Z) : Z := (z + 2 ^ 31) mod 2 ^ 32 - 2 ^ 31.

Lemma wrap32_id z : - 2 ^ 31 <= z < 2 ^ 31 -> wrap32 z = z.
Proof. intros H. unfold wrap32. rewrite Z.mod_small; lia. Qed.

(** ** [indexsubjobs.Status]

    The CHECK constraint of the table limits the column to these values. *)
Inductive Status : Type :=
| StatusQueued | StatusClaimed | StatusRunning | StatusArtifactWritten
| StatusValidating | StatusSucceeded | StatusFailed | StatusRetrying
| StatusCanceled | StatusSkipped.

#[global] Instance Status_eq_dec : EqDecision Status.
Proof. solve_decision. Defined.

(** [status IN (...)] *)
Definition status_in (s : Status) (l : list Status) : bool := bool_decide (s ∈ l).

Definition in_flight (s : Status) : bool :=
  status_in s [StatusClaimed; StatusRunning; StatusArtifactWritten; StatusValidating].

Definition waiting (s : Status) : bool := status_in s [StatusQueued; StatusRetrying].

Definition terminal (s : Status) : bool :=
  status_in s [StatusSucceeded; StatusFailed; StatusCanceled; StatusSkipped].

(** ** [indexsubjobs.Layer], a Go string type with these constants *)

Definition LayerClone : string := "CLONE".
Definition LayerZoekt : string := "ZOEKT".
Definition LayerASTTreeSitter : string := "AST_TREE_SITTER".
Definition LayerSCIP : string := "SCIP".
Definition LayerGraphMerge : string := "GRAPH_MERGE".
Definition LayerActivate : string := "ACTIVATE".
Definition LayerRemove : string := "REMOVE".

Definition validLayer (layer : string) : bool :=
  bool_decide (layer ∈ [LayerClone; LayerZoekt; LayerASTTreeSitter; LayerSCIP;
                        LayerGraphMerge; LayerActivate; LayerRemove]).

(** ** Inputs and projections *)

Record CreateInput : Type := {
  ci_ID : string;
  ci_RepoIndexingJobID : string;
  ci_CodeIntelIndexID : option string;
  ci_OrgID : Z;
  ci_WorkspaceID : option string;
  ci_RepoID : Z;
  ci_Branch : string;
  ci_Revision : string;
  ci_CommitHash : string;
  ci_Layer : string;
  ci_Language : option string;
  ci_ProjectRoot : option string;
  ci_Indexer : option string;
  ci_WorkerClass : string;
  ci_QueueName : string;
  ci_MaxAttempts : Z;
  ci_InputDigest : option string;
  ci_ToolchainDigest : option string;
  ci_ImageDigest : option string
}.

Record DispatchableSubjob : Type := {
  ds_ID : string;
  ds_RepoIndexingJobID : string;
  ds_OrgID : Z;
  ds_WorkspaceID : option string;
  ds_RepoID : Z;
  ds_Branch : string;
  ds_Revision : string;
  ds_CommitHash : string;
  ds_Layer : string;
  ds_Language : option string;
  ds_ProjectRoot : option string;
  ds_Indexer : option string;
  ds_WorkerClass : string;
  ds_QueueName : string;
  ds_Attempt : Z
}.

Record ClaimScope : Type := {
  cs_ID : string;
  cs_RepoIndexingJobID : string;
  cs_OrgID : Z;
  cs_WorkspaceID : option string;
  cs_RepoID : Z;
  cs_Branch : string;
  cs_Revision : string;
  cs_CommitHash : string;
  cs_Layer : string;
  cs_Language : option string;
  cs_ProjectRoot : option string;
  cs_Indexer : option string;
  cs_WorkerClass : string;
  cs_QueueName : string;
  cs_Attempt : Z
}.

(** ** Rows

    Instants are integers on one time line (the columns are TIMESTAMP(3), so
    the unit is the millisecond); [NOW()] is an argument of each statement. *)

(** The columns of "CodeIntelIndexSubjob" no statement changes after the insert. *)
Record SubjobScope : Type := {
  sc_repoIndexingJobId : string;
  sc_codeIntelIndexId : option string;
  sc_orgId : Z;
  sc_workspaceId : string;
  sc_repoId : Z;
  sc_branch : string;
  sc_revision : string;
  sc_commitHash : string;
  sc_layer : string;
  sc_language : option string;
  sc_projectRoot : option string;
  sc_indexer : option string;
  sc_workerClass : string;
  sc_queueName : string;
  sc_maxAttempts : Z;
  sc_inputDigest : option string;
  sc_toolchainDigest : option string;
  sc_imageDigest : option string;
  sc_createdAt : Z
}.

(** The columns the state machine changes. *)
Record SubjobRun : Type := {
  run_status : Status;
  run_attempt : Z;
  run_attemptId : option string;
  run_leaseOwner : option string;
  run_leaseExpiresAt : option Z;
  run_heartbeatAt : option Z;
  run_startedAt : option Z;
  run_completedAt : option Z;
  run_artifactTempPath : option string;
  run_artifactPath : option string;
  run_artifactSha256 : option string;
  run_errorCode : option string;
  run_errorMessage : option string;
  run_updatedAt : Z
}.

(** A row of "CodeIntelIndexSubjob", stored under its primary key [id]. *)
Record Subjob : Type := { sj_scope : SubjobScope; sj_run : SubjobRun }.

Definition sj_status (r : Subjob) : Status := run_status (sj_run r).

Definition sj_layer (r : Subjob) : string := sc_layer (sj_scope r).

(** A row with its key, as a query returns it. *)
Definition SubjobRow : Type := string * Subjob.

(** The enum types "RepoIndexingJobType", "RepoIndexingJobStatus" and
    "RepoIndexManifestStatus". *)
Inductive JobType : Type := INDEX | CLEANUP | REMOVE_INDEX.
Inductive JobStatus : Type := PENDING | IN_PROGRESS | COMPLETED | FAILED.
Inductive ManifestStatus : Type :=
| ManifestPending | ManifestReady | ManifestFailed | ManifestSuperseded.

#[global] Instance JobType_eq_dec : EqDecision JobType.
Proof. solve_decision. Defined.
#[global] Instance JobStatus_eq_dec : EqDecision JobStatus.
Proof. solve_decision. Defined.
#[global] Instance ManifestStatus_eq_dec : EqDecision ManifestStatus.
Proof. solve_decision. Defined.

(** "RepoIndexingJob", under its key [id]. *)
Record Job : Type := {
  job_repoId : Z;
  job_type : JobType;
  job_status : JobStatus;
  job_errorMessage : option string;
  job_metadataRef : option string;
  job_createdAt : Z;
  job_completedAt : option Z;
  job_updatedAt : Z
}.

(** "Repo", under its key [id]. *)
Record Repo : Type := {
  repo_orgId : Z;
  repo_name : string;
  repo_latestIndexingJobStatus : option JobStatus;
  repo_cloneUrl : option string;
  repo_codeHostType : option string;
  repo_defaultBranch : option string;
  repo_metadata : option json;
  repo_indexedAt : option Z;
  repo_indexedCommitHash : option string;
  repo_updatedAt : Z
}.

(** A repository row with the defaults of its columns. *)
Definition new_repo (orgId : Z) (name : string) : Repo :=
  {| repo_orgId := orgId; repo_name := name; repo_latestIndexingJobStatus := None;
     repo_cloneUrl := None; repo_codeHostType := None; repo_defaultBranch := None;
     repo_metadata := None; repo_indexedAt := None; repo_indexedCommitHash := None;
     repo_updatedAt := 0 |}.

(** "RepoIndexManifest"; the JSON of the plan, which no statement reads, is left out. *)
Record Manifest : Type := {
  mf_id : string;
  mf_indexJobId : option string;
  mf_orgId : Z;
  mf_repoId : Z;
  mf_workspaceId : string;
  mf_providerConnectionId : option string;
  mf_branch : string;
  mf_commitHash : string;
  mf_status : ManifestStatus;
  mf_fileCount : Z;
  mf_addedFileCount : Z;
  mf_changedFileCount : Z;
  mf_deletedFileCount : Z;
  mf_unchangedFileCount : Z;
  mf_zoektStrategy : option string;
  mf_scipStrategy : option string;
  mf_graphStrategy : option string;
  mf_semanticStrategy : option string;
  mf_activatedAt : option Z;
  mf_supersededAt : option Z;
  mf_failedAt : option Z;
  mf_errorMessage : option string;
  mf_createdAt : Z;
  mf_updatedAt : Z
}.

(** A manifest row with the defaults of the columns an insert may leave out. *)
Definition new_manifest (id jobId : string) (orgId repoId : Z) (workspaceId branch commitHash : string)
  : Manifest :=
  {| mf_id := id; mf_indexJobId := Some jobId; mf_orgId := orgId; mf_repoId := repoId;
     mf_workspaceId := workspaceId; mf_providerConnectionId := None; mf_branch := branch; mf_commitHash := commitHash;
     mf_status := ManifestPending; mf_fileCount := 0; mf_addedFileCount := 0;
     mf_changedFileCount := 0; mf_deletedFileCount := 0; mf_unchangedFileCount := 0;
     mf_zoektStrategy := None; mf_scipStrategy := None; mf_graphStrategy := None;
     mf_semanticStrategy := None; mf_activatedAt := None; mf_supersededAt := None;
     mf_failedAt := None; mf_errorMessage := None; mf_createdAt := 0; mf_updatedAt := 0 |}.

(** "CodeIntelIndex", the columns of its scope key. *)
Record CodeIntelIndexKey : Type := {
  cii_id : string;
  cii_orgId : Z;
  cii_repoId : Z;
  cii_revision : string;
  cii_commitHash : string
}.

#[global] Instance CodeIntelIndexKey_eq_dec : EqDecision CodeIntelIndexKey.
Proof. solve_decision. Defined.

Record CodeIntelIndex : Type := {
  cix_key : CodeIntelIndexKey;
  cix_workspaceId : string;
  cix_branch : string;
  cix_kind : string;
  cix_status : string;
  cix_artifactRoot : option string;
  cix_languageCount : Z;
  cix_symbolCount : Z;
  cix_occurrenceCount : Z;
  cix_relationshipCount : Z;
  cix_errorMessage : option string;
  cix_indexedAt : option Z;
  cix_updatedAt : Z
}.

(** The one row of "CodeIntelIndexSubjobDispatchLock". *)
Record DispatchLock : Type := { lock_owner : string; lock_expiresAt : Z }.

Record DB : Type := {
  db_subjobs : gmap string Subjob;
  db_jobs : gmap string Job;
  db_repos : gmap Z Repo;
  db_manifests : list Manifest;
  db_indexes : list CodeIntelIndex;
  db_lock : option DispatchLock
}.

Definition set_subjobs (f : gmap string Subjob -> gmap string Subjob) (db : DB) : DB :=
  {| db_subjobs := f (db_subjobs db); db_jobs := db_jobs db; db_repos := db_repos db;
     db_manifests := db_manifests db; db_indexes := db_indexes db; db_lock := db_lock db |}.

Definition set_jobs (f : gmap string Job -> gmap string Job) (db : DB) : DB :=
  {| db_subjobs := db_subjobs db; db_jobs := f (db_jobs db); db_repos := db_repos db;
     db_manifests := db_manifests db; db_indexes := db_indexes db; db_lock := db_lock db |}.

Definition set_repos (f : gmap Z Repo -> gmap Z Repo) (db : DB) : DB :=
  {| db_subjobs := db_subjobs db; db_jobs := db_jobs db; db_repos := f (db_repos db);
     db_manifests := db_manifests db; db_indexes := db_indexes db; db_lock := db_lock db |}.

Definition set_manifests (f : list Manifest -> list Manifest) (db : DB) : DB :=
  {| db_subjobs := db_subjobs db; db_jobs := db_jobs db; db_repos := db_repos db;
     db_manifests := f (db_manifests db); db_indexes := db_indexes db; db_lock := db_lock db |}.

Definition set_indexes (f : list CodeIntelIndex -> list CodeIntelIndex) (db : DB) : DB :=
  {| db_subjobs := db_subjobs db; db_jobs := db_jobs db; db_repos := db_repos db;
     db_manifests := db_manifests db; db_indexes := f (db_indexes db); db_lock := db_lock db |}.

Definition set_lock (l : option DispatchLock) (db : DB) : DB :=
  {| db_subjobs := db_subjobs db; db_jobs := db_jobs db; db_repos := db_repos db;
     db_manifests := db_manifests db; db_indexes := db_indexes db; db_lock := l |}.

(** ** Statement execution *)

(** [s.db.Exec]/[QueryRow]: the driver may fail before the statement takes
    effect ([fault]); otherwise the statement runs atomically and either
    returns a value or raises an SQL error, which leaves the tables as they
    were. *)
Definition exec {A} (fault : option gerror) (stmt : DB -> result gerror (DB * A)) (db : DB)
  : DB * result gerror A :=
  match fault with
  | Some e => (db, Err e)
  | None => match stmt db with
            | Ok (db', a) => (db', Ok a)
            | Err e => (db, Err e)
            end
  end.
