(* ===== verification/SubjobStore.v ===== *)
(** The durable subjob store, src/internal/backend/indexsubjobs/store.go: one
    definition per method, each statement written out as the state change its
    SQL text prescribes.  [now] is the database's [NOW()]. *)
From S2P Require Import Prelude GoStd GoStdFacts WorkerClasses SubjobTypes.
Definition dispatchLockID : string := "index-subjob-dispatch".

(** ** Dispatch lock *)

(** [INSERT ... ON CONFLICT (id) DO UPDATE ... WHERE expired OR same owner
    RETURNING 1]; [pgx.ErrNoRows] is the value [false]. *)
Definition TryAcquireDispatchLock (fault : option gerror) (now : Z)
    (owner : string) (leaseUntil : Z) (db : DB) : DB * result gerror bool :=
  if owner =s "" then (db, Err (EText "indexsubjobs: dispatch lock owner is required"))
  else
    let stmt db :=
      let acquired := set_lock (Some {| lock_owner := owner; lock_expiresAt := leaseUntil |}) db in
      match db_lock db with
      | None => Ok (acquired, true)
      | Some l =>
          if (lock_expiresAt l <? now) || (lock_owner l =s owner)
          then Ok (acquired, true) else Ok (db, false)
      end in
    match exec fault stmt db with
    | (db', Err e) => (db', Err (EWrap "TryAcquireDispatchLock: " e ""))
    | r => r
    end.

Definition ReleaseDispatchLock (fault : option gerror) (owner : string) (db : DB)
  : DB * result gerror unit :=
  if owner =s "" then (db, Err (EText "indexsubjobs: dispatch lock owner is required"))
  else
    let stmt db :=
      match db_lock db with
      | Some l => if lock_owner l =s owner then Ok (set_lock None db, tt) else Ok (db, tt)
      | None => Ok (db, tt)
      end in
    match exec fault stmt db with
    | (db', Err e) => (db', Err (EWrap "ReleaseDispatchLock: " e ""))
    | r => r
    end.

(** ** Creation *)

Definition ErrInvalidCreateInput : gerror := ESentinel "indexsubjobs: invalid create input".
Definition ErrScopeNotReady : gerror :=
  ESentinel "indexsubjobs: parent job or manifest scope is not ready".

Definition safeProjectRoot (root0 : string) : bool :=
  let root := TrimSpace root0 in
  if (root =s "") || (root =s ".") then true
  else if HasPrefix root "/" || HasPrefix root "\" || Contains root "\" then false
  else
    let clean := Clean root in
    if (clean =s ".") || (clean =s "") then true
    else (clean =s root) && negb (clean =s "..") && negb (HasPrefix clean "../")
         && negb (Contains clean "/../").

(** The parent condition of every statement: the INDEX job of the row is in
    progress and its repository belongs to the row's organisation. *)
Definition job_active (db : DB) (jobId : string) (repoId orgId : Z) : bool :=
  match db_jobs db !! jobId with
  | None => false
  | Some j =>
      (job_repoId j =? repoId) && bool_decide (job_type j = INDEX)
      && bool_decide (job_status j = IN_PROGRESS)
      && match db_repos db !! job_repoId j with
         | Some r => repo_orgId r =? orgId
         | None => false
         end
  end.

Definition manifest_pending (db : DB) (jobId : string) (orgId repoId : Z)
    (workspaceId branch commitHash : string) : bool :=
  existsb (fun m =>
    bool_decide (mf_indexJobId m = Some jobId) && (mf_orgId m =? orgId)
    && (mf_repoId m =? repoId) && (mf_workspaceId m =s workspaceId)
    && (mf_branch m =s branch) && (mf_commitHash m =s commitHash)
    && bool_decide (mf_status m = ManifestPending)) (db_manifests db).

(** The checks of [upsertWithStatus] before its statement; [Some ws] carries the
    dereferenced [*in.WorkspaceID]. *)
Definition validate_create (c : CreateInput) : option string :=
  match ci_WorkspaceID c with
  | None => None
  | Some ws =>
      if (ci_ID c =s "") || (ci_RepoIndexingJobID c =s "") || (ci_OrgID c <=? 0)
         || (ci_RepoID c <=? 0) || (ws =s "") || (ci_Branch c =s "")
         || (ci_Revision c =s "") || (ci_CommitHash c =s "") || (ci_Layer c =s "")
         || (ci_WorkerClass c =s "") || (ci_QueueName c =s "") then None
      else if negb (commitHashPattern (ci_CommitHash c)) then None
      else if negb (validLayer (ci_Layer c)) then None
      else if negb (match ByName (ci_WorkerClass c) with
                    | Some class => wc_QueueName class =s ci_QueueName c
                    | None => false end) then None
      else if ci_Layer c =s LayerSCIP then
        match ci_Language c, ci_ProjectRoot c, ci_Indexer c with
        | Some lang, Some root, Some ix =>
            if (lang =s "") || (ix =s "") || negb (safeProjectRoot root)
            then None else Some ws
        | _, _, _ => None
        end
      else match ci_Language c, ci_ProjectRoot c, ci_Indexer c with
           | None, None, None => Some ws
           | _, _, _ => None
           end
  end.

(** The row the INSERT writes; columns it does not name take their defaults. *)
Definition new_subjob (now : Z) (c : CreateInput) (ws : string) (status : Status)
    (errorCode errorMessage : string) (completedAt : option Z) : Subjob :=
  {| sj_scope :=
       {| sc_repoIndexingJobId := ci_RepoIndexingJobID c;
          sc_codeIntelIndexId := ci_CodeIntelIndexID c;
          sc_orgId := ci_OrgID c; sc_workspaceId := ws; sc_repoId := ci_RepoID c;
          sc_branch := ci_Branch c; sc_revision := ci_Revision c;
          sc_commitHash := ci_CommitHash c; sc_layer := ci_Layer c;
          sc_language := ci_Language c; sc_projectRoot := ci_ProjectRoot c;
          sc_indexer := ci_Indexer c; sc_workerClass := ci_WorkerClass c;
          sc_queueName := ci_QueueName c;
          sc_maxAttempts := if ci_MaxAttempts c <=? 0 then 3 else ci_MaxAttempts c;
          sc_inputDigest := ci_InputDigest c; sc_toolchainDigest := ci_ToolchainDigest c;
          sc_imageDigest := ci_ImageDigest c; sc_createdAt := now |};
     sj_run :=
       {| run_status := status; run_attempt := 0; run_attemptId := None;
          run_leaseOwner := None; run_leaseExpiresAt := None; run_heartbeatAt := None;
          run_startedAt := None; run_completedAt := completedAt;
          run_artifactTempPath := None; run_artifactPath := None;
          run_artifactSha256 := None; run_errorCode := Some errorCode;
          run_errorMessage := Some errorMessage; run_updatedAt := now |} |}.

(** The [DO UPDATE ... WHERE] condition: the stored row has the scope of the
    input. *)
Definition conflict_matches (s e : SubjobScope) : bool :=
  (sc_repoIndexingJobId s =s sc_repoIndexingJobId e) && (sc_orgId s =? sc_orgId e)
  && (sc_workspaceId s =s sc_workspaceId e) && (sc_repoId s =? sc_repoId e)
  && (sc_branch s =s sc_branch e) && (sc_revision s =s sc_revision e)
  && (sc_commitHash s =s sc_commitHash e) && (sc_layer s =s sc_layer e)
  && (coalesce "" (sc_language s) =s coalesce "" (sc_language e))
  && (coalesce "" (sc_projectRoot s) =s coalesce "" (sc_projectRoot e))
  && (coalesce "" (sc_indexer s) =s coalesce "" (sc_indexer e))
  && (sc_workerClass s =s sc_workerClass e) && (sc_queueName s =s sc_queueName e).

(** The unique index "CodeIntelIndexSubjob_scope_key". *)
Definition scope_key (s : SubjobScope) : list string :=
  [sc_repoIndexingJobId s; sc_workspaceId s; sc_branch s; sc_revision s;
   sc_commitHash s; sc_layer s; sc_workerClass s; coalesce "" (sc_language s);
   coalesce "" (sc_projectRoot s); coalesce "" (sc_indexer s)].

Definition scope_key_taken (db : DB) (s : SubjobScope) : bool :=
  existsb (fun p => bool_decide (scope_key (sj_scope p.2) = scope_key s))
    (map_to_list (db_subjobs db)).

(** The foreign keys on "codeIntelIndexId"; those on job, repository and
    organisation follow from the EXISTS clauses of the statement. *)
Definition index_fk_ok (db : DB) (s : SubjobScope) : bool :=
  match sc_codeIntelIndexId s with
  | None => true
  | Some i => bool_decide ({| cii_id := i; cii_orgId := sc_orgId s;
                              cii_repoId := sc_repoId s; cii_revision := sc_revision s;
                              cii_commitHash := sc_commitHash s |} ∈ map cix_key (db_indexes db))
  end.

(** [INSERT ... SELECT ... WHERE EXISTS ... ON CONFLICT (id) DO UPDATE]; the
    value is [tag.RowsAffected() <> 0]. *)
Definition upsert_stmt (id : string) (row : Subjob) (db : DB) : result gerror (DB * bool) :=
  let s := sj_scope row in
  if job_active db (sc_repoIndexingJobId s) (sc_repoId s) (sc_orgId s)
     && manifest_pending db (sc_repoIndexingJobId s) (sc_orgId s) (sc_repoId s)
          (sc_workspaceId s) (sc_branch s) (sc_commitHash s)
  then
    match db_subjobs db !! id with
    | Some old => Ok (db, conflict_matches (sj_scope old) s)
    | None =>
        if scope_key_taken db s then
          Err (EText "duplicate key value violates unique constraint CodeIntelIndexSubjob_scope_key")
        else if negb (index_fk_ok db s) then
          Err (EText "insert violates foreign key constraint on codeIntelIndexId")
        else Ok (set_subjobs (fun m => <[id := row]> m) db, true)
    end
  else Ok (db, false).

(** [goNow] is [time.Now().UTC()]. *)
Definition upsertWithStatus (fault : option gerror) (now goNow : Z) (c : CreateInput)
    (status : Status) (errorCode errorMessage : string) (db : DB) : DB * result gerror unit :=
  match validate_create c with
  | None => (db, Err ErrInvalidCreateInput)
  | Some ws =>
      if bool_decide (status = StatusSkipped) || bool_decide (status = StatusQueued) then
        let completedAt := if bool_decide (status = StatusSkipped) then Some goNow else None in
        let row := new_subjob now c ws status errorCode errorMessage completedAt in
        match exec fault (upsert_stmt (ci_ID c) row) db with
        | (db', Err e) =>
            (db', Err (EWrap ("Upsert" +:+
                              (if bool_decide (status = StatusSkipped) then "SKIPPED" else "QUEUED")
                              +:+ ": ") e ""))
        | (db', Ok affected) => (db', if affected then Ok tt else Err ErrScopeNotReady)
        end
      else (db, Err ErrInvalidCreateInput)
  end.

Definition UpsertQueued (fault : option gerror) (now goNow : Z) (c : CreateInput) (db : DB)
  : DB * result gerror unit :=
  upsertWithStatus fault now goNow c StatusQueued "" "" db.

Definition UpsertSkipped (fault : option gerror) (now goNow : Z) (c : CreateInput)
    (errorCode errorMessage : string) (db : DB) : DB * result gerror unit :=
  if (TrimSpace errorCode =s "") || (TrimSpace errorMessage =s "")
  then (db, Err ErrInvalidCreateInput)
  else upsertWithStatus fault now goNow c StatusSkipped errorCode errorMessage db.

(** ** Dispatch query *)

(** [dep] belongs to the same job, workspace, repository and revision as [s]. *)
Definition same_revision (dep s : SubjobScope) : bool :=
  (sc_repoIndexingJobId dep =s sc_repoIndexingJobId s)
  && (sc_workspaceId dep =s sc_workspaceId s) && (sc_repoId dep =? sc_repoId s)
  && (sc_branch dep =s sc_branch s) && (sc_revision dep =s sc_revision s)
  && (sc_commitHash dep =s sc_commitHash s).

(** [dep.status NOT IN ('SUCCEEDED', 'SKIPPED')] *)
Definition unfinished (dep : Subjob) : bool :=
  negb (status_in (sj_status dep) [StatusSucceeded; StatusSkipped]).

(** [dep.layer = 'SCIP' AND dep.status IN ('FAILED', 'CANCELED')] *)
Definition scip_gave_up (dep : Subjob) : bool :=
  (sj_layer dep =s LayerSCIP) && status_in (sj_status dep) [StatusFailed; StatusCanceled].

(** [(a.createdAt, a.id) < (b.createdAt, b.id)] *)
Definition created_before (a b : SubjobRow) : bool :=
  (sc_createdAt (sj_scope a.2) <? sc_createdAt (sj_scope b.2))
  || (sc_createdAt (sj_scope a.2) =? sc_createdAt (sj_scope b.2)) && str_ltb a.1 b.1.

(** The dependency clause of the WHERE condition, per layer. *)
Definition deps_ready (rows : list SubjobRow) (s : SubjobRow) : bool :=
  let sc := sj_scope s.2 in
  let layer := sc_layer sc in
  (layer =s LayerClone) || (layer =s LayerRemove)
  || (((layer =s LayerZoekt) || (layer =s LayerASTTreeSitter) || (layer =s LayerSCIP))
      && negb (existsb (fun dep => same_revision (sj_scope dep.2) sc
                 && (sj_layer dep.2 =s LayerClone) && unfinished dep.2) rows))
  || ((layer =s LayerGraphMerge)
      && negb (existsb (fun dep => same_revision (sj_scope dep.2) sc
                 && ((sj_layer dep.2 =s LayerASTTreeSitter) || (sj_layer dep.2 =s LayerSCIP))
                 && unfinished dep.2 && negb (scip_gave_up dep.2)) rows))
  || ((layer =s LayerActivate)
      && negb (existsb (fun dep => same_revision (sj_scope dep.2) sc
                 && negb (dep.1 =s s.1) && negb (sj_layer dep.2 =s LayerActivate)
                 && unfinished dep.2 && negb (scip_gave_up dep.2)) rows)
      && negb (existsb (fun act =>
                 (sc_repoIndexingJobId (sj_scope act.2) =s sc_repoIndexingJobId sc)
                 && (sc_workspaceId (sj_scope act.2) =s sc_workspaceId sc)
                 && (sc_repoId (sj_scope act.2) =? sc_repoId sc)
                 && (sj_layer act.2 =s LayerActivate) && negb (act.1 =s s.1)
                 && status_in (sj_status act.2)
                      [StatusQueued; StatusClaimed; StatusRunning; StatusValidating;
                       StatusRetrying]
                 && created_before act s) rows)).

Definition dispatchable (db : DB) (s : SubjobRow) : bool :=
  let sc := sj_scope s.2 in
  waiting (sj_status s.2)
  && job_active db (sc_repoIndexingJobId sc) (sc_repoId sc) (sc_orgId sc)
  && (run_attempt (sj_run s.2) <? sc_maxAttempts sc)
  && deps_ready (map_to_list (db_subjobs db)) s.

Definition to_dispatchable (s : SubjobRow) : DispatchableSubjob :=
  let sc := sj_scope s.2 in
  {| ds_ID := s.1; ds_RepoIndexingJobID := sc_repoIndexingJobId sc;
     ds_OrgID := sc_orgId sc; ds_WorkspaceID := Some (sc_workspaceId sc);
     ds_RepoID := sc_repoId sc; ds_Branch := sc_branch sc; ds_Revision := sc_revision sc;
     ds_CommitHash := sc_commitHash sc; ds_Layer := sc_layer sc;
     ds_Language := sc_language sc; ds_ProjectRoot := sc_projectRoot sc;
     ds_Indexer := sc_indexer sc; ds_WorkerClass := sc_workerClass sc;
     ds_QueueName := sc_queueName sc; ds_Attempt := run_attempt (sj_run s.2) |}.

(** The rows of the SELECT, in its ORDER BY, cut to [LIMIT]. *)
Definition list_dispatchable (limit : Z) (db : DB) : list SubjobRow :=
  take (Z.to_nat limit)
    (sort_stable created_before
       (List.filter (dispatchable db) (map_to_list (db_subjobs db)))).

Definition ListDispatchable (fault : option gerror) (limit : Z) (db : DB)
  : DB * result gerror (list DispatchableSubjob) :=
  if limit <=? 0
  then (db, Err (EText "indexsubjobs: ListDispatchable requires positive limit"))
  else match exec fault (fun db => Ok (db, list_dispatchable limit db)) db with
       | (db', Err e) => (db', Err (EWrap "ListDispatchable: " e ""))
       | (db', Ok rows) => (db', Ok (map to_dispatchable rows))
       end.

(** ** Single-row updates *)

(** [UPDATE ... WHERE id = $1 AND guard]; the value is [RowsAffected() == 1]. *)
Definition update_row (id : string) (guard : Subjob -> bool) (upd : SubjobRun -> SubjobRun)
    (db : DB) : result gerror (DB * bool) :=
  match db_subjobs db !! id with
  | Some r =>
      if guard r
      then Ok (set_subjobs (fun m =>
                 <[id := {| sj_scope := sj_scope r; sj_run := upd (sj_run r) |}]> m) db, true)
      else Ok (db, false)
  | None => Ok (db, false)
  end.

Definition row_job_active (db : DB) (r : Subjob) : bool :=
  job_active db (sc_repoIndexingJobId (sj_scope r)) (sc_repoId (sj_scope r))
    (sc_orgId (sj_scope r)).

(** ["leaseOwner" = $2 AND "attemptId" = $3] *)
Definition holds_lease (r : Subjob) (leaseOwner attemptID : string) : bool :=
  bool_decide (run_leaseOwner (sj_run r) = Some leaseOwner)
  && bool_decide (run_attemptId (sj_run r) = Some attemptID).

(** ["leaseExpiresAt" IS NOT NULL AND "leaseExpiresAt" > NOW()] *)
Definition lease_live (now : Z) (r : Subjob) : bool :=
  match run_leaseExpiresAt (sj_run r) with
  | Some t => now <? t
  | None => false
  end.

(** The immutable scope of the queue payload against the row. *)
Definition scope_matches (c : ClaimScope) (s : SubjobScope) : bool :=
  (sc_repoIndexingJobId s =s cs_RepoIndexingJobID c) && (sc_orgId s =? cs_OrgID c)
  && bool_decide (cs_WorkspaceID c = Some (sc_workspaceId s))
  && (sc_repoId s =? cs_RepoID c) && (sc_branch s =s cs_Branch c)
  && (sc_revision s =s cs_Revision c) && (sc_commitHash s =s cs_CommitHash c)
  && (sc_layer s =s cs_Layer c)
  && (coalesce "" (sc_language s) =s coalesce "" (cs_Language c))
  && (coalesce "" (sc_projectRoot s) =s coalesce "" (cs_ProjectRoot c))
  && (coalesce "" (sc_indexer s) =s coalesce "" (cs_Indexer c))
  && (sc_workerClass s =s cs_WorkerClass c) && (sc_queueName s =s cs_QueueName c).

Definition claim_guard (now : Z) (c : ClaimScope) (db : DB) (r : Subjob) : bool :=
  scope_matches c (sj_scope r)
  && status_in (sj_status r) [StatusQueued; StatusRetrying; StatusClaimed]
  && (run_attempt (sj_run r) =? wrap32 (cs_Attempt c - 1))
  && (run_attempt (sj_run r) <? sc_maxAttempts (sj_scope r))
  && (match run_leaseExpiresAt (sj_run r) with None => true | Some t => t <? now end
      || waiting (sj_status r))
  && job_active db (cs_RepoIndexingJobID c) (cs_RepoID c) (cs_OrgID c).

Definition claim_run (now : Z) (leaseOwner attemptID : string) (leaseUntil : Z)
    (u : SubjobRun) : SubjobRun :=
  {| run_status := StatusClaimed; run_attempt := run_attempt u + 1;
     run_attemptId := Some attemptID; run_leaseOwner := Some leaseOwner;
     run_leaseExpiresAt := Some leaseUntil; run_heartbeatAt := Some now;
     run_startedAt := Some (default now (run_startedAt u));
     run_completedAt := run_completedAt u;
     run_artifactTempPath := run_artifactTempPath u; run_artifactPath := run_artifactPath u;
     run_artifactSha256 := run_artifactSha256 u; run_errorCode := run_errorCode u;
     run_errorMessage := run_errorMessage u; run_updatedAt := now |}.

Definition claim_scope_valid (c : ClaimScope) : bool :=
  negb ((cs_ID c =s "") || (cs_RepoIndexingJobID c =s "") || (cs_OrgID c <=? 0)
        || (cs_RepoID c <=? 0) || (coalesce "" (cs_WorkspaceID c) =s "")
        || (cs_Branch c =s "") || (cs_Revision c =s "") || (cs_CommitHash c =s "")
        || (cs_Layer c =s "") || (cs_WorkerClass c =s "") || (cs_QueueName c =s "")
        || (cs_Attempt c <=? 0)).

Definition ClaimScoped (fault : option gerror) (now : Z) (c : ClaimScope)
    (leaseOwner attemptID : string) (leaseUntil : Z) (db : DB) : DB * result gerror bool :=
  if negb (claim_scope_valid c)
  then (db, Err (EText "indexsubjobs: ClaimScoped requires immutable scope"))
  else if negb (match ByName (cs_WorkerClass c) with
                | Some class => wc_QueueName class =s cs_QueueName c
                | None => false end)
  then (db, Err (EText "indexsubjobs: ClaimScoped workerClass/queue mismatch"))
  else if (leaseOwner =s "") || (attemptID =s "")
  then (db, Err (EText "indexsubjobs: ClaimScoped requires leaseOwner and attemptID"))
  else
    match exec fault (fun db => update_row (cs_ID c) (claim_guard now c db)
                                  (claim_run now leaseOwner attemptID leaseUntil) db) db with
    | (db', Err e) => (db', Err (EWrap "ClaimScoped: " e ""))
    | r => r
    end.

Definition heartbeat_run (now leaseUntil : Z) (u : SubjobRun) : SubjobRun :=
  {| run_status := if status_in (run_status u) [StatusClaimed; StatusRunning]
                   then StatusRunning else run_status u;
     run_attempt := run_attempt u; run_attemptId := run_attemptId u;
     run_leaseOwner := run_leaseOwner u; run_leaseExpiresAt := Some leaseUntil;
     run_heartbeatAt := Some now; run_startedAt := run_startedAt u;
     run_completedAt := run_completedAt u;
     run_artifactTempPath := run_artifactTempPath u; run_artifactPath := run_artifactPath u;
     run_artifactSha256 := run_artifactSha256 u; run_errorCode := run_errorCode u;
     run_errorMessage := run_errorMessage u; run_updatedAt := now |}.

Definition Heartbeat (fault : option gerror) (now : Z)
    (subjobID leaseOwner attemptID : string) (leaseUntil : Z) (db : DB)
  : DB * result gerror bool :=
  match exec fault (fun db => update_row subjobID
          (fun r => holds_lease r leaseOwner attemptID && in_flight (sj_status r)
                    && row_job_active db r)
          (heartbeat_run now leaseUntil) db) db with
  | (db', Err e) => (db', Err (EWrap "Heartbeat: " e ""))
  | r => r
  end.

Definition artifact_run (now : Z) (tempPath artifactPath artifactSHA256 : string)
    (u : SubjobRun) : SubjobRun :=
  {| run_status := StatusArtifactWritten;
     run_attempt := run_attempt u; run_attemptId := run_attemptId u;
     run_leaseOwner := run_leaseOwner u; run_leaseExpiresAt := run_leaseExpiresAt u;
     run_heartbeatAt := Some now; run_startedAt := run_startedAt u;
     run_completedAt := run_completedAt u;
     run_artifactTempPath := Some tempPath; run_artifactPath := Some artifactPath;
     run_artifactSha256 := Some artifactSHA256; run_errorCode := run_errorCode u;
     run_errorMessage := run_errorMessage u; run_updatedAt := now |}.

Definition MarkArtifactWritten (fault : option gerror) (now : Z)
    (subjobID leaseOwner attemptID tempPath artifactPath artifactSHA256 : string) (db : DB)
  : DB * result gerror bool :=
  match exec fault (fun db => update_row subjobID
          (fun r => holds_lease r leaseOwner attemptID
                    && status_in (sj_status r)
                         [StatusClaimed; StatusRunning; StatusArtifactWritten]
                    && lease_live now r && row_job_active db r)
          (artifact_run now tempPath artifactPath artifactSHA256) db) db with
  | (db', Err e) => (db', Err (EWrap "MarkArtifactWritten: " e ""))
  | r => r
  end.

Definition succeeded_run (now : Z) (u : SubjobRun) : SubjobRun :=
  {| run_status := StatusSucceeded;
     run_attempt := run_attempt u; run_attemptId := run_attemptId u;
     run_leaseOwner := None; run_leaseExpiresAt := None;
     run_heartbeatAt := run_heartbeatAt u; run_startedAt := run_startedAt u;
     run_completedAt := Some now;
     run_artifactTempPath := run_artifactTempPath u; run_artifactPath := run_artifactPath u;
     run_artifactSha256 := run_artifactSha256 u; run_errorCode := None;
     run_errorMessage := None; run_updatedAt := now |}.

(** The guard shared by [MarkSucceeded] and [MarkFailed]. *)
Definition finish_guard (now : Z) (leaseOwner attemptID : string) (db : DB) (r : Subjob) : bool :=
  holds_lease r leaseOwner attemptID && in_flight (sj_status r) && lease_live now r
  && row_job_active db r.

Definition MarkSucceeded (fault : option gerror) (now : Z)
    (subjobID leaseOwner attemptID : string) (db : DB) : DB * result gerror bool :=
  if (subjobID =s "") || (leaseOwner =s "") || (attemptID =s "")
  then (db, Err (EText "indexsubjobs: MarkSucceeded requires subjobID, leaseOwner, and attemptID"))
  else
    match exec fault (fun db => update_row subjobID
            (finish_guard now leaseOwner attemptID db) (succeeded_run now) db) db with
    | (db', Err e) => (db', Err (EWrap "MarkSucceeded: " e ""))
    | r => r
    end.

(** ** Failure *)

Definition normalizeFailure (errorCode errorMessage : string) : string * string :=
  let errorCode := TrimSpace errorCode in
  let errorMessage := TrimSpace errorMessage in
  (if errorCode =s "" then "SUBJOB_FAILED" else errorCode,
   if errorMessage =s "" then "subjob failed without diagnostic" else errorMessage).

Definition semantically_empty (msg : string) : bool :=
  ilike_contains msg "semantically empty .scip" || ilike_contains msg "has no semantic rows:".

(** [CASE WHEN attempt < "maxAttempts" THEN 'RETRYING' WHEN layer IN ('SCIP',
    'AST_TREE_SITTER') THEN 'SKIPPED' ELSE 'FAILED' END] *)
Definition retry_status (s : SubjobScope) (attempt : Z) : Status :=
  if attempt <? sc_maxAttempts s then StatusRetrying
  else if (sc_layer s =s LayerSCIP) || (sc_layer s =s LayerASTTreeSitter) then StatusSkipped
  else StatusFailed.

(** The status CASE of [MarkFailed]. *)
Definition failed_status (s : SubjobScope) (attempt : Z) (msg : string) : Status :=
  if (sc_layer s =s LayerSCIP) && semantically_empty msg then StatusSkipped
  else if (sc_layer s =s LayerSCIP) && ilike_contains msg "timeout after" then StatusSkipped
  else retry_status s attempt.

(** The columns both failure statements set, for the status they chose; the
    completion time is NULL exactly for RETRYING. *)
Definition failed_run (now : Z) (st : Status) (errorCode errorMessage : string)
    (u : SubjobRun) : SubjobRun :=
  {| run_status := st;
     run_attempt := run_attempt u; run_attemptId := None;
     run_leaseOwner := None; run_leaseExpiresAt := None; run_heartbeatAt := None;
     run_startedAt := run_startedAt u;
     run_completedAt := if bool_decide (st = StatusRetrying) then None else Some now;
     run_artifactTempPath := run_artifactTempPath u; run_artifactPath := run_artifactPath u;
     run_artifactSha256 := run_artifactSha256 u; run_errorCode := Some errorCode;
     run_errorMessage := Some errorMessage; run_updatedAt := now |}.

(** [SET status = 'CANCELED', ... "errorCode" = 'PARENT_SUBJOB_FAILED'] *)
Definition canceled_run (now : Z) (message : string) (u : SubjobRun) : SubjobRun :=
  {| run_status := StatusCanceled;
     run_attempt := run_attempt u; run_attemptId := None;
     run_leaseOwner := None; run_leaseExpiresAt := None; run_heartbeatAt := None;
     run_startedAt := run_startedAt u; run_completedAt := Some now;
     run_artifactTempPath := run_artifactTempPath u; run_artifactPath := run_artifactPath u;
     run_artifactSha256 := run_artifactSha256 u;
     run_errorCode := Some "PARENT_SUBJOB_FAILED"; run_errorMessage := Some message;
     run_updatedAt := now |}.

Definition fail_job (now : Z) (message : string) (j : Job) : Job :=
  {| job_repoId := job_repoId j; job_type := job_type j; job_status := FAILED;
     job_errorMessage := Some message; job_metadataRef := job_metadataRef j;
     job_createdAt := job_createdAt j; job_completedAt := Some now; job_updatedAt := now |}.

Definition fail_repo (now : Z) (r : Repo) : Repo :=
  {| repo_orgId := repo_orgId r; repo_name := repo_name r;
     repo_latestIndexingJobStatus := Some FAILED; repo_cloneUrl := repo_cloneUrl r;
     repo_codeHostType := repo_codeHostType r; repo_defaultBranch := repo_defaultBranch r;
     repo_metadata := repo_metadata r; repo_indexedAt := repo_indexedAt r;
     repo_indexedCommitHash := repo_indexedCommitHash r; repo_updatedAt := now |}.

Definition set_run (r : Subjob) (u : SubjobRun) : Subjob :=
  {| sj_scope := sj_scope r; sj_run := u |}.

(** The data-modifying WITH query of [failParentIfTerminalFailure].  Its parts
    read one snapshot. *)
Definition fail_parent_stmt (now : Z) (subjobID message : string) (db : DB)
  : result gerror (DB * unit) :=
  match db_subjobs db !! subjobID with
  | Some f =>
      if bool_decide (sj_status f = StatusFailed) then
        let jobId := sc_repoIndexingJobId (sj_scope f) in
        let repoId := sc_repoId (sj_scope f) in
        let cancel id r :=
          if (sc_repoIndexingJobId (sj_scope r) =s jobId) && negb (id =s subjobID)
             && waiting (sj_status r)
          then set_run r (canceled_run now message (sj_run r)) else r in
        let db1 := set_subjobs (map_imap (fun id r => Some (cancel id r))) db in
        match db_jobs db !! jobId with
        | Some j =>
            if (job_repoId j =? repoId) && bool_decide (job_status j = IN_PROGRESS)
            then Ok (set_repos (alter (fail_repo now) repoId)
                       (set_jobs (fun m => <[jobId := fail_job now message j]> m) db1), tt)
            else Ok (db1, tt)
        | None => Ok (db1, tt)
        end
      else Ok (db, tt)
  | None => Ok (db, tt)
  end.

Definition failParentIfTerminalFailure (fault : option gerror) (now : Z)
    (subjobID errorCode errorMessage : string) (db : DB) : DB * result gerror unit :=
  match exec fault (fail_parent_stmt now subjobID (errorCode +:+ ": " +:+ errorMessage)) db with
  | (db', Err e) =>
      (db', Err (EWrap "fail parent index job after terminal subjob failure: " e ""))
  | r => r
  end.

(** The UPDATE of the two failure methods; [st] is its status CASE and
    [statuses] its status list. *)
Definition mark_failure_stmt (now : Z) (statuses : list Status)
    (st : SubjobScope -> Z -> string -> Status)
    (subjobID leaseOwner attemptID errorCode errorMessage : string) (db : DB)
  : result gerror (DB * bool) :=
  match db_subjobs db !! subjobID with
  | Some r =>
      update_row subjobID
        (fun r => holds_lease r leaseOwner attemptID && status_in (sj_status r) statuses
                  && lease_live now r && row_job_active db r)
        (failed_run now (st (sj_scope r) (run_attempt (sj_run r)) errorMessage)
           errorCode errorMessage) db
  | None => Ok (db, false)
  end.

(** The common body of the two failure methods: the update, then, when it hit a
    row, the parent repair, a second statement with its own [NOW()]. *)
Definition mark_failure (fault1 fault2 : option gerror) (now1 now2 : Z) (label : string)
    (statuses : list Status) (st : SubjobScope -> Z -> string -> Status)
    (subjobID leaseOwner attemptID errorCode0 errorMessage0 : string) (db : DB)
  : DB * result gerror bool :=
  if (subjobID =s "") || (leaseOwner =s "") || (attemptID =s "")
  then (db, Err (EText ("indexsubjobs: " +:+ label
                        +:+ " requires subjobID, leaseOwner, and attemptID")))
  else
    let '(errorCode, errorMessage) := normalizeFailure errorCode0 errorMessage0 in
    match exec fault1 (mark_failure_stmt now1 statuses st subjobID leaseOwner attemptID
                         errorCode errorMessage) db with
    | (db', Err e) => (db', Err (EWrap (label +:+ ": ") e ""))
    | (db', Ok true) =>
        match failParentIfTerminalFailure fault2 now2 subjobID errorCode errorMessage db' with
        | (db'', Err e) => (db'', Err e)
        | (db'', Ok _) => (db'', Ok true)
        end
    | (db', Ok false) => (db', Ok false)
    end.

(** [status IN (...)] of the two failure methods. *)
Definition markable : list Status :=
  [StatusClaimed; StatusRunning; StatusArtifactWritten; StatusValidating].

Definition infra_markable : list Status := [StatusClaimed; StatusRunning].

Definition infra_status (s : SubjobScope) (attempt : Z) (_ : string) : Status :=
  retry_status s attempt.

Definition MarkFailed (fault1 fault2 : option gerror) (now1 now2 : Z)
    (subjobID leaseOwner attemptID errorCode errorMessage : string) (db : DB)
  : DB * result gerror bool :=
  mark_failure fault1 fault2 now1 now2 "MarkFailed" markable failed_status
    subjobID leaseOwner attemptID errorCode errorMessage db.

Definition MarkRetryableInfrastructureFailure (fault1 fault2 : option gerror) (now1 now2 : Z)
    (subjobID leaseOwner attemptID errorCode errorMessage : string) (db : DB)
  : DB * result gerror bool :=
  mark_failure fault1 fault2 now1 now2 "MarkRetryableInfrastructureFailure"
    infra_markable infra_status subjobID leaseOwner attemptID errorCode errorMessage db.

(** ** Sweeps

    [locked id] says that another transaction holds the row's lock, which
    [FOR UPDATE ... SKIP LOCKED] passes over. *)

(** [JOIN "RepoIndexingJob" j ON j.id = s."repoIndexingJobId" AND j."repoId" =
    s."repoId"] *)
Definition joined_job (db : DB) (r : Subjob) : option Job :=
  match db_jobs db !! sc_repoIndexingJobId (sj_scope r) with
  | Some j => if job_repoId j =? sc_repoId (sj_scope r) then Some j else None
  | None => None
  end.

Definition job_running (j : Job) : bool :=
  bool_decide (job_type j = INDEX) && bool_decide (job_status j = IN_PROGRESS).

(** [LIMIT $n] over the unlocked rows that satisfy [cond], in the order [less]. *)
Definition pick (locked : string -> bool) (cond : SubjobRow -> bool)
    (less : SubjobRow -> SubjobRow -> bool) (limit : Z) (db : DB) : list string :=
  map fst (take (Z.to_nat limit)
    (sort_stable less
       (List.filter (fun p => cond p && negb (locked p.1)) (map_to_list (db_subjobs db))))).

(** The columns the two requeue statements set. *)
Definition requeued_run (st : Status) (completed updated : Z) (u : SubjobRun) : SubjobRun :=
  {| run_status := st;
     run_attempt := run_attempt u; run_attemptId := None;
     run_leaseOwner := None; run_leaseExpiresAt := None; run_heartbeatAt := None;
     run_startedAt := run_startedAt u;
     run_completedAt := if bool_decide (st = StatusRetrying) then None else Some completed;
     run_artifactTempPath := run_artifactTempPath u; run_artifactPath := run_artifactPath u;
     run_artifactSha256 := run_artifactSha256 u; run_errorCode := run_errorCode u;
     run_errorMessage := run_errorMessage u; run_updatedAt := updated |}.

(** The status CASE of the requeue statements; [skippable] is their layer test. *)
Definition requeue_status (skippable : string -> bool) (j : Job) (r : Subjob) : Status :=
  if job_running j then
    if run_attempt (sj_run r) <? sc_maxAttempts (sj_scope r) then StatusRetrying
    else if skippable (sj_layer r) then StatusSkipped else StatusFailed
  else StatusCanceled.

(** [UPDATE ... FROM picked, "RepoIndexingJob" j WHERE s.id = picked.id AND ...];
    the value is [RowsAffected()]. *)
Definition requeue_stmt (ids : list string) (skippable : string -> bool)
    (completed updated : Z) (db : DB) : result gerror (DB * Z) :=
  let step id r :=
    if bool_decide (id ∈ ids) then
      match joined_job db r with
      | Some j => set_run r (requeued_run (requeue_status skippable j r) completed updated (sj_run r))
      | None => r
      end
    else r in
  Ok (set_subjobs (map_imap (fun id r => Some (step id r))) db, Z.of_nat (length ids)).

Definition expired_row (at_ : Z) (db : DB) (p : SubjobRow) : bool :=
  in_flight (sj_status p.2)
  && (match run_leaseExpiresAt (sj_run p.2) with Some t => t <? at_ | None => false end)
  && (match joined_job db p.2 with Some _ => true | None => false end).

Definition lease_key (p : SubjobRow) : Z := default 0 (run_leaseExpiresAt (sj_run p.2)).

(** [at_] is the Go clock's [now] argument. *)
Definition RequeueExpiredLeases (fault : option gerror) (locked : string -> bool)
    (now at_ limit : Z) (db : DB) : DB * result gerror Z :=
  if limit <=? 0
  then (db, Err (EText "indexsubjobs: RequeueExpiredLeases requires positive limit"))
  else
    match exec fault (fun db =>
            requeue_stmt (pick locked (expired_row at_ db)
                            (fun a b => lease_key a <? lease_key b) limit db)
              (fun l => (l =s LayerSCIP) || (l =s LayerASTTreeSitter)) now now db) db with
    | (db', Err e) => (db', Err (EWrap "RequeueExpiredLeases: " e ""))
    | r => r
    end.

Definition rescued_row (prefixes : list string) (db : DB) (p : SubjobRow) : bool :=
  in_flight (sj_status p.2)
  && (match run_leaseOwner (sj_run p.2) with
      | Some o => existsb (fun prefix => sql_like o (prefix +:+ "%")) prefixes
      | None => false end)
  && (match joined_job db p.2 with Some _ => true | None => false end).

(** [ORDER BY "leaseExpiresAt" ASC NULLS FIRST, "updatedAt" ASC] *)
Definition rescue_before (a b : SubjobRow) : bool :=
  match run_leaseExpiresAt (sj_run a.2), run_leaseExpiresAt (sj_run b.2) with
  | None, Some _ => true
  | Some _, None => false
  | None, None => run_updatedAt (sj_run a.2) <? run_updatedAt (sj_run b.2)
  | Some s, Some t =>
      (s <? t) || (s =? t) && (run_updatedAt (sj_run a.2) <? run_updatedAt (sj_run b.2))
  end.

Definition RequeueLeasesForOwnerPrefixes (fault : option gerror) (locked : string -> bool)
    (ownerPrefixes : list string) (at_ limit : Z) (db : DB) : DB * result gerror Z :=
  if limit <=? 0
  then (db, Err (EText "indexsubjobs: RequeueLeasesForOwnerPrefixes requires positive limit"))
  else
    let cleanPrefixes :=
      List.filter (fun p => negb (p =s "")) (map TrimSpace ownerPrefixes) in
    match cleanPrefixes with
    | [] => (db, Err (EText "indexsubjobs: RequeueLeasesForOwnerPrefixes requires at least one owner prefix"))
    | _ =>
        match exec fault (fun db =>
                requeue_stmt (pick locked (rescued_row cleanPrefixes db) rescue_before limit db)
                  (fun l => l =s LayerSCIP) at_ at_ db) db with
        | (db', Err e) => (db', Err (EWrap "RequeueLeasesForOwnerPrefixes: " e ""))
        | r => r
        end
    end.

(** *** [ReconcileTerminalFailures] *)

Definition semantic_empty_row (db : DB) (p : SubjobRow) : bool :=
  (sj_layer p.2 =s LayerSCIP) && bool_decide (sj_status p.2 = StatusRetrying)
  && (match run_errorMessage (sj_run p.2) with
      | Some msg => semantically_empty msg
      | None => false end)
  && row_job_active db p.2.

Definition updated_before (a b : SubjobRow) : bool :=
  (run_updatedAt (sj_run a.2) <? run_updatedAt (sj_run b.2))
  || (run_updatedAt (sj_run a.2) =? run_updatedAt (sj_run b.2)) && str_ltb a.1 b.1.

(** [SET status = 'SKIPPED', ...]: the error columns stay. *)
Definition skipped_run (now : Z) (u : SubjobRun) : SubjobRun :=
  {| run_status := StatusSkipped;
     run_attempt := run_attempt u; run_attemptId := None;
     run_leaseOwner := None; run_leaseExpiresAt := None; run_heartbeatAt := None;
     run_startedAt := run_startedAt u; run_completedAt := Some now;
     run_artifactTempPath := run_artifactTempPath u; run_artifactPath := run_artifactPath u;
     run_artifactSha256 := run_artifactSha256 u; run_errorCode := run_errorCode u;
     run_errorMessage := run_errorMessage u; run_updatedAt := now |}.

Definition failed_row (db : DB) (p : SubjobRow) : bool :=
  bool_decide (sj_status p.2 = StatusFailed) && row_job_active db p.2.

(** [ORDER BY "repoIndexingJobId", "updatedAt" DESC, id DESC] *)
Definition failed_before (a b : SubjobRow) : bool :=
  let ja := sc_repoIndexingJobId (sj_scope a.2) in
  let jb := sc_repoIndexingJobId (sj_scope b.2) in
  str_ltb ja jb
  || (ja =s jb)
     && ((run_updatedAt (sj_run b.2) <? run_updatedAt (sj_run a.2))
         || (run_updatedAt (sj_run a.2) =? run_updatedAt (sj_run b.2)) && str_ltb b.1 a.1).

(** [COALESCE(NULLIF(c, ''), d)] *)
Definition coalesce_nullif (d : string) (c : option string) : string :=
  match c with Some s => if s =s "" then d else s | None => d end.

Record FailedJob : Type := { fj_jobId : string; fj_repoId : Z; fj_message : string }.

(** The first row of each job of a sorted list: [DISTINCT ON]. *)
Fixpoint distinct_on (seen : list string) (rows : list SubjobRow) : list FailedJob :=
  match rows with
  | [] => []
  | p :: rest =>
      let jobId := sc_repoIndexingJobId (sj_scope p.2) in
      if bool_decide (jobId ∈ seen) then distinct_on seen rest
      else {| fj_jobId := jobId; fj_repoId := sc_repoId (sj_scope p.2);
              fj_message := coalesce_nullif "SUBJOB_FAILED" (run_errorCode (sj_run p.2))
                +:+ ": " +:+
                coalesce_nullif "terminal subjob failed" (run_errorMessage (sj_run p.2)) |}
           :: distinct_on (jobId :: seen) rest
  end.

Definition failed_jobs (limit : Z) (db : DB) : list FailedJob :=
  take (Z.to_nat limit)
    (distinct_on [] (sort_stable failed_before
       (List.filter (failed_row db) (map_to_list (db_subjobs db))))).

Definition find_failed (fs : list FailedJob) (jobId : string) : option FailedJob :=
  List.find (fun f => fj_jobId f =s jobId) fs.

(** The parts of the WITH query read one snapshot.  A row that two parts update
    keeps one of the updates, PostgreSQL does not say which: [skip_wins]. *)
Definition reconcile_row (now : Z) (skipped : list string) (fs : list FailedJob)
    (skip_wins : string -> bool) (id : string) (r : Subjob) : Subjob :=
  let skip := bool_decide (id ∈ skipped) in
  let cancel := if waiting (sj_status r)
                then find_failed fs (sc_repoIndexingJobId (sj_scope r)) else None in
  match skip, cancel with
  | false, None => r
  | true, None => set_run r (skipped_run now (sj_run r))
  | false, Some f => set_run r (canceled_run now (fj_message f) (sj_run r))
  | true, Some f =>
      if skip_wins id then set_run r (skipped_run now (sj_run r))
      else set_run r (canceled_run now (fj_message f) (sj_run r))
  end.

Definition reconcile_job (now : Z) (fs : list FailedJob) (id : string) (j : Job) : Job :=
  match find_failed fs id with
  | Some f => if (job_repoId j =? fj_repoId f) && bool_decide (job_status j = IN_PROGRESS)
              then fail_job now (fj_message f) j else j
  | None => j
  end.

(** The repositories of the jobs the statement failed. *)
Definition failed_repos (fs : list FailedJob) (db : DB) : list Z :=
  dedup_first []
    (omap (fun f =>
      match db_jobs db !! fj_jobId f with
      | Some j => if (job_repoId j =? fj_repoId f) && bool_decide (job_status j = IN_PROGRESS)
                  then match db_repos db !! job_repoId j with
                       | Some _ => Some (job_repoId j)
                       | None => None end
                  else None
      | None => None
      end) fs).

Definition reconcile_stmt (locked skip_wins : string -> bool) (now limit : Z) (db : DB)
  : result gerror (DB * Z) :=
  let skipped := pick locked (semantic_empty_row db) updated_before limit db in
  let fs := failed_jobs limit db in
  let repos := failed_repos fs db in
  Ok (set_repos (map_imap (fun id r =>
                   Some (if bool_decide (id ∈ repos) then fail_repo now r else r)))
       (set_jobs (map_imap (fun id j => Some (reconcile_job now fs id j)))
         (set_subjobs (map_imap (fun id r =>
                         Some (reconcile_row now skipped fs skip_wins id r))) db)),
      Z.of_nat (length repos)).

Definition ReconcileTerminalFailures (fault : option gerror) (locked skip_wins : string -> bool)
    (now limit : Z) (db : DB) : DB * result gerror Z :=
  if limit <=? 0
  then (db, Err (EText "indexsubjobs: ReconcileTerminalFailures requires positive limit"))
  else match exec fault (reconcile_stmt locked skip_wins now limit) db with
       | (db', Err e) => (db', Err (EWrap "ReconcileTerminalFailures: " e ""))
       | r => r
       end.
