(* ===== verification/SubjobTask.v ===== *)
(** The queue payload of a subjob
    (src/internal/backend/indexsubjobtask/payload.go), and the statement the
    artifact stores run before they ingest
    (src/internal/backend/{scipartifact,astartifact,zoektartifact}/store.go). *)
From S2P Require Import Prelude GoStd GoStdFacts WorkerClasses SubjobTypes SubjobStore.
Record Payload : Type := {
  pl_SubjobID : string;
  pl_RepoIndexingJobID : string;
  pl_OrgID : Z;
  pl_WorkspaceID : option string;
  pl_RepoID : Z;
  pl_Branch : string;
  pl_Revision : string;
  pl_CommitHash : string;
  pl_Layer : string;
  pl_Language : option string;
  pl_ProjectRoot : option string;
  pl_Indexer : option string;
  pl_WorkerClass : string;
  pl_QueueName : string;
  pl_Attempt : Z
}.

(** [Layer.Valid] *)
Definition Layer_Valid (l : string) : bool :=
  bool_decide (l ∈ [LayerClone; LayerZoekt; LayerASTTreeSitter; LayerSCIP;
                    LayerGraphMerge; LayerActivate; LayerRemove]).

Definition ErrInvalidPayload : gerror := ESentinel "indexsubjobtask: invalid payload".

(** [Payload.Validate]; [None] is a nil error. *)
Definition Validate (p : Payload) : option gerror :=
  if (pl_SubjobID p =s "") || (pl_RepoIndexingJobID p =s "") || (pl_OrgID p <=? 0)
     || (pl_RepoID p <=? 0) || (coalesce "" (pl_WorkspaceID p) =s "")
     || (pl_Branch p =s "") || (pl_Revision p =s "") || (pl_CommitHash p =s "")
     || negb (Layer_Valid (pl_Layer p)) || (pl_WorkerClass p =s "") || (pl_QueueName p =s "")
  then Some ErrInvalidPayload
  else if negb (commitHashPattern (pl_CommitHash p)) then Some ErrInvalidPayload
  else if negb (match ByName (pl_WorkerClass p) with
                | Some class => wc_QueueName class =s pl_QueueName p
                | None => false end) then Some ErrInvalidPayload
  else if pl_Layer p =s LayerSCIP then
    match pl_Language p, pl_ProjectRoot p, pl_Indexer p with
    | Some lang, Some _, Some ix =>
        if (lang =s "") || (ix =s "") then Some ErrInvalidPayload else None
    | _, _, _ => Some ErrInvalidPayload
    end
  else match pl_Language p, pl_ProjectRoot p, pl_Indexer p with
       | None, None, None => None
       | _, _, _ => Some ErrInvalidPayload
       end.

(** [toClaimScope] of the executor handlers. *)
Definition toClaimScope (p : Payload) : ClaimScope :=
  {| cs_ID := pl_SubjobID p; cs_RepoIndexingJobID := pl_RepoIndexingJobID p;
     cs_OrgID := pl_OrgID p; cs_WorkspaceID := pl_WorkspaceID p; cs_RepoID := pl_RepoID p;
     cs_Branch := pl_Branch p; cs_Revision := pl_Revision p;
     cs_CommitHash := pl_CommitHash p; cs_Layer := pl_Layer p;
     cs_Language := pl_Language p; cs_ProjectRoot := pl_ProjectRoot p;
     cs_Indexer := pl_Indexer p; cs_WorkerClass := pl_WorkerClass p;
     cs_QueueName := pl_QueueName p; cs_Attempt := pl_Attempt p |}.

(** ** Live-lease validation of the artifact stores *)

(** [GREATEST(s."leaseExpiresAt", NOW() + INTERVAL '15 minutes')], in ms. *)
Definition validating_run (now : Z) (u : SubjobRun) : SubjobRun :=
  {| run_status := StatusValidating;
     run_attempt := run_attempt u; run_attemptId := run_attemptId u;
     run_leaseOwner := run_leaseOwner u;
     run_leaseExpiresAt := Some (match run_leaseExpiresAt u with
                                 | Some t => Z.max t (now + 900000)
                                 | None => now + 900000 end);
     run_heartbeatAt := Some now; run_startedAt := run_startedAt u;
     run_completedAt := run_completedAt u;
     run_artifactTempPath := run_artifactTempPath u; run_artifactPath := run_artifactPath u;
     run_artifactSha256 := run_artifactSha256 u; run_errorCode := run_errorCode u;
     run_errorMessage := run_errorMessage u; run_updatedAt := now |}.

(** The project columns: equal to the payload's for a SCIP row, NULL for the
    other two layers. *)
Definition project_columns_match (layer : string) (p : Payload) (s : SubjobScope) : bool :=
  if layer =s LayerSCIP then
    match pl_Language p, pl_ProjectRoot p, pl_Indexer p with
    | Some l, Some r, Some i =>
        (coalesce "" (sc_language s) =s l) && (coalesce "" (sc_projectRoot s) =s r)
        && (coalesce "" (sc_indexer s) =s i)
    | _, _, _ => false
    end
  else bool_decide (sc_language s = None) && bool_decide (sc_projectRoot s = None)
       && bool_decide (sc_indexer s = None).

Definition live_guard (now : Z) (layer : string) (p : Payload)
    (artifactPath artifactSHA256 leaseOwner attemptID : string) (db : DB) (r : Subjob) : bool :=
  let s := sj_scope r in
  (sc_repoIndexingJobId s =s pl_RepoIndexingJobID p) && (sc_orgId s =? pl_OrgID p)
  && bool_decide (pl_WorkspaceID p = Some (sc_workspaceId s))
  && (sc_repoId s =? pl_RepoID p) && (sc_branch s =s pl_Branch p)
  && (sc_revision s =s pl_Revision p) && (sc_commitHash s =s pl_CommitHash p)
  && (sc_layer s =s layer) && project_columns_match layer p s
  && (sc_workerClass s =s pl_WorkerClass p) && (sc_queueName s =s pl_QueueName p)
  && holds_lease r leaseOwner attemptID
  && bool_decide (run_artifactPath (sj_run r) = Some artifactPath)
  && bool_decide (run_artifactSha256 (sj_run r) = Some artifactSHA256)
  && status_in (sj_status r) [StatusArtifactWritten; StatusValidating]
  && lease_live now r && row_job_active db r
  && manifest_pending db (sc_repoIndexingJobId s) (sc_orgId s) (sc_repoId s)
       (sc_workspaceId s) (sc_branch s) (sc_commitHash s).

(** The statement shared by the three stores; [layer] is the store's literal
    and [lost] its error for a lease that is gone. *)
Definition validateLiveSubjobLease (fault : option gerror) (now : Z) (layer : string)
    (label lost : string) (p : Payload)
    (artifactPath artifactSHA256 leaseOwner attemptID : string) (db : DB)
  : DB * result gerror unit :=
  match exec fault (fun db => update_row (pl_SubjobID p)
          (live_guard now layer p artifactPath artifactSHA256 leaseOwner attemptID db)
          (validating_run now) db) db with
  | (db', Err e) => (db', Err (EWrap (label +:+ ": ") e ""))
  | (db', Ok true) => (db', Ok tt)
  | (db', Ok false) => (db', Err (EText lost))
  end.

Definition scip_validateLiveSubjobLease fault now :=
  validateLiveSubjobLease fault now LayerSCIP "validate SCIP subjob lease"
    "scipartifact: live subjob lease not found or no longer valid".

Definition ast_validateLiveSubjobLease fault now :=
  validateLiveSubjobLease fault now LayerASTTreeSitter "validate AST subjob lease"
    "astartifact: live subjob lease not found or no longer valid".

Definition zoekt_validateLiveSubjobLease fault now :=
  validateLiveSubjobLease fault now LayerZoekt "zoektartifact: validate live subjob lease"
    "zoektartifact: subjob lease is no longer valid".
