(* ===== verification/SubjobCodec.v ===== *)
(** The wire form of a subjob message: [Marshal] and [Unmarshal] of
    src/internal/backend/indexsubjobtask/payload.go over the JSON codec. *)
From S2P Require Import Prelude GoStd GoStdFacts GoJSON GoJSONFacts WorkerClasses SubjobTypes SubjobStore SubjobTask.
(** [json:"...,omitempty"] of a pointer. *)
Definition omitempty (key : string) (v : option string) : list (string * field) :=
  match v with Some s => [(key, FStr s)] | None => [] end.

(** The fields [json.Marshal] writes, in declaration order. *)
Definition payload_fields (p : Payload) : list (string * field) :=
  [("subjobId", FStr (pl_SubjobID p));
   ("repoIndexingJobId", FStr (pl_RepoIndexingJobID p));
   ("orgId", FInt (pl_OrgID p))]
  ++ omitempty "workspaceId" (pl_WorkspaceID p)
  ++ [("repoId", FInt (pl_RepoID p)); ("branch", FStr (pl_Branch p));
      ("revision", FStr (pl_Revision p)); ("commitHash", FStr (pl_CommitHash p));
      ("layer", FStr (pl_Layer p))]
  ++ omitempty "language" (pl_Language p)
  ++ omitempty "projectRoot" (pl_ProjectRoot p)
  ++ omitempty "indexer" (pl_Indexer p)
  ++ [("workerClass", FStr (pl_WorkerClass p)); ("queueName", FStr (pl_QueueName p));
      ("attempt", FInt (pl_Attempt p))].

Definition Marshal (p : Payload) : result gerror string :=
  match Validate p with
  | Some e => Err e
  | None => Ok (struct_text (payload_fields p))
  end.

(** ** Decoding into the struct *)

Definition zero_payload : Payload :=
  {| pl_SubjobID := ""; pl_RepoIndexingJobID := ""; pl_OrgID := 0; pl_WorkspaceID := None;
     pl_RepoID := 0; pl_Branch := ""; pl_Revision := ""; pl_CommitHash := ""; pl_Layer := "";
     pl_Language := None; pl_ProjectRoot := None; pl_Indexer := None; pl_WorkerClass := "";
     pl_QueueName := ""; pl_Attempt := 0 |}.

(** A value for a field of each type: [None] is a type mismatch; [null] leaves a
    string or an integer as it is and clears a pointer. *)
Definition as_string (old : string) (j : json) : option string :=
  match j with JStr s => Some s | JNull => Some old | _ => None end.

Definition as_pointer (j : json) : option (option string) :=
  match j with JStr s => Some (Some s) | JNull => Some None | _ => None end.

Definition as_int32 (old : Z) (j : json) : option Z :=
  match j with JNum lit => json_int32 lit | JNull => Some old | _ => None end.

(** The field of a struct an object key sets, and how. *)
Definition set_field (p : Payload) (key : string) (j : json) : option Payload :=
  let '(Build_Payload id job org ws repo br rev ch la lang root ix wc q att) := p in
  if key_matches "subjobId" key then
    (fun v => Build_Payload v job org ws repo br rev ch la lang root ix wc q att) <$> as_string id j
  else if key_matches "repoIndexingJobId" key then
    (fun v => Build_Payload id v org ws repo br rev ch la lang root ix wc q att) <$> as_string job j
  else if key_matches "orgId" key then
    (fun v => Build_Payload id job v ws repo br rev ch la lang root ix wc q att) <$> as_int32 org j
  else if key_matches "workspaceId" key then
    (fun v => Build_Payload id job org v repo br rev ch la lang root ix wc q att) <$> as_pointer j
  else if key_matches "repoId" key then
    (fun v => Build_Payload id job org ws v br rev ch la lang root ix wc q att) <$> as_int32 repo j
  else if key_matches "branch" key then
    (fun v => Build_Payload id job org ws repo v rev ch la lang root ix wc q att) <$> as_string br j
  else if key_matches "revision" key then
    (fun v => Build_Payload id job org ws repo br v ch la lang root ix wc q att) <$> as_string rev j
  else if key_matches "commitHash" key then
    (fun v => Build_Payload id job org ws repo br rev v la lang root ix wc q att) <$> as_string ch j
  else if key_matches "layer" key then
    (fun v => Build_Payload id job org ws repo br rev ch v lang root ix wc q att) <$> as_string la j
  else if key_matches "language" key then
    (fun v => Build_Payload id job org ws repo br rev ch la v root ix wc q att) <$> as_pointer j
  else if key_matches "projectRoot" key then
    (fun v => Build_Payload id job org ws repo br rev ch la lang v ix wc q att) <$> as_pointer j
  else if key_matches "indexer" key then
    (fun v => Build_Payload id job org ws repo br rev ch la lang root v wc q att) <$> as_pointer j
  else if key_matches "workerClass" key then
    (fun v => Build_Payload id job org ws repo br rev ch la lang root ix v q att) <$> as_string wc j
  else if key_matches "queueName" key then
    (fun v => Build_Payload id job org ws repo br rev ch la lang root ix wc v att) <$> as_string q j
  else if key_matches "attempt" key then
    (fun v => Build_Payload id job org ws repo br rev ch la lang root ix wc q v) <$> as_int32 att j
  else Some p.

(** Members in order, a later duplicate overwriting; any mismatch is an error. *)
Fixpoint set_fields (p : Payload) (l : list (string * json)) : option Payload :=
  match l with
  | [] => Some p
  | (k, v) :: rest =>
      match set_field p k v with
      | Some p' => set_fields p' rest
      | None => None
      end
  end.

(** The text of a JSON error is not modelled. *)
Definition ErrJSON : gerror := EText "json error".

Definition json_Unmarshal (raw : string) : result gerror Payload :=
  match json_parse raw with
  | Some (JObj l) =>
      match set_fields zero_payload l with Some p => Ok p | None => Err ErrJSON end
  | Some JNull => Ok zero_payload
  | _ => Err ErrJSON
  end.

Definition Unmarshal (raw : string) : result gerror Payload :=
  match json_Unmarshal raw with
  | Err e => Err e
  | Ok p =>
      match Validate p with
      | Some e => Err (EWrap "" e " after unmarshal")
      | None => Ok p
      end
  end.

(** ** Round trip *)

(** The values a Go [Payload] with UTF-8 strings has. *)
Definition encodable (p : Payload) : Prop :=
  forallb (fun q => field_ok q.2) (payload_fields p) = true /\
  - 2 ^ 31 <= pl_OrgID p < 2 ^ 31 /\ - 2 ^ 31 <= pl_RepoID p < 2 ^ 31 /\
  - 2 ^ 31 <= pl_Attempt p < 2 ^ 31.

Lemma set_fields_payload p :
  - 2 ^ 31 <= pl_OrgID p < 2 ^ 31 -> - 2 ^ 31 <= pl_RepoID p < 2 ^ 31 ->
  - 2 ^ 31 <= pl_Attempt p < 2 ^ 31 ->
  set_fields zero_payload (map (fun q => (q.1, field_json q.2)) (payload_fields p)) = Some p.
Proof.
  intros Ho Hr Ha. destruct p as [id job org ws repo br rev ch la lang root ix wc q att].
  cbn [pl_OrgID pl_RepoID pl_Attempt] in *.
  apply json_int32_Itoa in Ho, Hr, Ha.
  destruct ws, lang, root, ix; unfold payload_fields, omitempty; simpl;
    rewrite Ho; simpl; rewrite Hr; simpl; rewrite Ha; reflexivity.
Qed.

Lemma payload_keys_utf8 p :
  forallb (fun q => field_ok q.2) (payload_fields p) = true ->
  forallb (fun q => valid_utf8 q.1 && field_ok q.2) (payload_fields p) = true.
Proof.
  intros H. rewrite forallb_forall in H |- *. intros [k v] Hin.
  rewrite (H (k, v) Hin), andb_true_r. simpl. revert k v Hin. clear H.
  assert (forallb (fun q => valid_utf8 q.1) (payload_fields p) = true) as Hk.
  { destruct p as [id job org ws repo br rev ch la lang root ix wc q att].
    by destruct ws, lang, root, ix. }
  rewrite forallb_forall in Hk. intros k v Hin. by apply (Hk (k, v)).
Qed.

(** The message codec round-trips. A valid payload whose strings are UTF-8 and
    whose numbers are [int32] is encoded, and decoding the bytes on the
    executor's side gives back exactly that payload. *)
Theorem payload_roundtrip p :
  Validate p = None -> encodable p ->
  exists raw, Marshal p = Ok raw /\ Unmarshal raw = Ok p.
Proof.
  intros Hv (Hok & Ho & Hr & Ha). exists (struct_text (payload_fields p)).
  unfold Marshal. rewrite Hv. split; [done|].
  unfold Unmarshal, json_Unmarshal. rewrite struct_text_parse.
  - rewrite set_fields_payload by done. by rewrite Hv.
  - done.
  - by apply payload_keys_utf8.
Qed.

(** What the executor accepts is well formed. Whatever bytes arrive, a decoded
    payload has a positive organisation and repository, a known layer, a worker
    class whose queue is the message's queue, a 40-digit commit hash, and
    project columns exactly for SCIP. *)
Theorem unmarshal_validated raw p :
  Unmarshal raw = Ok p ->
  0 < pl_OrgID p /\ 0 < pl_RepoID p /\ Layer_Valid (pl_Layer p) = true /\
  commitHashPattern (pl_CommitHash p) = true /\
  (exists c, ByName (pl_WorkerClass p) = Some c /\ wc_QueueName c = pl_QueueName p) /\
  (exists w, pl_WorkspaceID p = Some w /\ w <> "") /\
  (pl_Layer p = LayerSCIP <->
     exists l r i, pl_Language p = Some l /\ pl_ProjectRoot p = Some r /\ pl_Indexer p = Some i) /\
  (pl_Layer p <> LayerSCIP ->
     pl_Language p = None /\ pl_ProjectRoot p = None /\ pl_Indexer p = None).
Proof.
  unfold Unmarshal. destruct (json_Unmarshal raw) as [q|]; [|done].
  destruct (Validate q) eqn:Hv; [done|]. intros [= <-]. revert Hv. unfold Validate.
  do 3 (match goal with |- (if ?b then _ else _) = None -> _ => destruct b eqn:?; [done|] end).
  repeat match goal with H : negb _ = false |- _ => apply negb_false_iff in H end.
  repeat match goal with H : (_ || _) = false |- _ => apply orb_false_iff in H as [? ?] end.
  repeat match goal with H : negb _ = false |- _ => apply negb_false_iff in H end.
  destruct (ByName (pl_WorkerClass q)) as [c|]; [|done].
  assert (exists c0, Some c = Some c0 /\ wc_QueueName c0 = pl_QueueName q) as Hq.
  { exists c. split; [done|]. by apply str_eqb_spec. }
  assert (exists w, pl_WorkspaceID q = Some w /\ w <> "") as Hws.
  { match goal with H : (coalesce _ _ =s _) = false |- _ => revert H end.
    destruct (pl_WorkspaceID q) as [w|]; [|by intros Hw%str_eqb_false]. simpl. intros Hw%str_eqb_false. eauto. }
  destruct (pl_Layer q =s LayerSCIP) eqn:El; breflect.
  - destruct (pl_Language q), (pl_ProjectRoot q), (pl_Indexer q); try done. intros _.
    repeat split; eauto 10; try lia; try done.
  - destruct (pl_Language q), (pl_ProjectRoot q), (pl_Indexer q); try done. intros _.
    repeat split; eauto; try lia; try done. naive_solver.
Qed.
