(* ===== verification/SubjobSystem.v ===== *)
(** The subjob subsystem as a transition system: every statement any client of
    the store can issue, in any order, and the abstract state machine a single
    subjob row goes through. *)
From S2P Require Import Prelude GoStd GoStdFacts WorkerClasses SubjobTypes SubjobStore SubjobTask.
(** ** Operations *)

(** One database statement, with the arguments of the method that issues it.
    [OpEnv] is everything else that happens to the parent tables. *)
Inductive op : Type :=
| OpTryAcquire (fault : option gerror) (now : Z) (owner : string) (leaseUntil : Z)
| OpRelease (fault : option gerror) (owner : string)
| OpUpsertQueued (fault : option gerror) (now goNow : Z) (c : CreateInput)
| OpUpsertSkipped (fault : option gerror) (now goNow : Z) (c : CreateInput) (code msg : string)
| OpClaim (fault : option gerror) (now : Z) (c : ClaimScope) (owner att : string) (leaseUntil : Z)
| OpHeartbeat (fault : option gerror) (now : Z) (id owner att : string) (leaseUntil : Z)
| OpArtifact (fault : option gerror) (now : Z) (id owner att temp path sha : string)
| OpValidate (fault : option gerror) (now : Z) (layer label lost : string) (p : Payload)
    (path sha owner att : string)
| OpSucceed (fault : option gerror) (now : Z) (id owner att : string)
| OpFailed (fault : option gerror) (now : Z) (id owner att code msg : string)
| OpInfraFailed (fault : option gerror) (now : Z) (id owner att code msg : string)
| OpFailParent (fault : option gerror) (now : Z) (id code msg : string)
| OpRequeueExpired (fault : option gerror) (locked : string -> bool) (now at_ limit : Z)
| OpRescue (fault : option gerror) (locked : string -> bool) (prefixes : list string)
    (at_ limit : Z)
| OpReconcile (fault : option gerror) (locked skip_wins : string -> bool) (now limit : Z)
| OpEnv (jobs : gmap string Job) (repos : gmap Z Repo) (manifests : list Manifest)
    (indexes : list CodeIntelIndex).

Definition run_op (o : op) (db : DB) : DB :=
  match o with
  | OpTryAcquire f now owner u => (TryAcquireDispatchLock f now owner u db).1
  | OpRelease f owner => (ReleaseDispatchLock f owner db).1
  | OpUpsertQueued f now goNow c => (UpsertQueued f now goNow c db).1
  | OpUpsertSkipped f now goNow c code msg => (UpsertSkipped f now goNow c code msg db).1
  | OpClaim f now c owner att u => (ClaimScoped f now c owner att u db).1
  | OpHeartbeat f now id owner att u => (Heartbeat f now id owner att u db).1
  | OpArtifact f now id owner att temp path sha =>
      (MarkArtifactWritten f now id owner att temp path sha db).1
  | OpValidate f now layer label lost p path sha owner att =>
      (validateLiveSubjobLease f now layer label lost p path sha owner att db).1
  | OpSucceed f now id owner att => (MarkSucceeded f now id owner att db).1
  | OpFailed f now id owner att code msg =>
      (exec f (mark_failure_stmt now markable failed_status id owner att code msg) db).1
  | OpInfraFailed f now id owner att code msg =>
      (exec f (mark_failure_stmt now infra_markable infra_status id owner att code msg) db).1
  | OpFailParent f now id code msg => (failParentIfTerminalFailure f now id code msg db).1
  | OpRequeueExpired f locked now at_ limit =>
      (RequeueExpiredLeases f locked now at_ limit db).1
  | OpRescue f locked prefixes at_ limit =>
      (RequeueLeasesForOwnerPrefixes f locked prefixes at_ limit db).1
  | OpReconcile f locked wins now limit =>
      (ReconcileTerminalFailures f locked wins now limit db).1
  | OpEnv jobs repos manifests indexes =>
      {| db_subjobs := db_subjobs db; db_jobs := jobs; db_repos := repos;
         db_manifests := manifests; db_indexes := indexes; db_lock := db_lock db |}
  end.

Definition run_ops (os : list op) (db : DB) : DB := foldl (fun db o => run_op o db) db os.

(** ** The abstract machine of one row *)

(** What a row promises: its status, its attempt counter and who holds it. *)
Record AState : Type := {
  a_status : Status;
  a_attempt : Z;
  a_holder : option (string * string)
}.

Definition abs (r : Subjob) : AState :=
  {| a_status := sj_status r; a_attempt := run_attempt (sj_run r);
     a_holder := match run_leaseOwner (sj_run r), run_attemptId (sj_run r) with
                 | Some o, Some a => Some (o, a)
                 | _, _ => None
                 end |}.

(** The moves the contract allows, for a row of [layer] with [max] attempts;
    [who] is the worker and attempt a claim is made for. *)
Inductive astep (max : Z) (layer : string) (who : option (string * string))
  : AState -> AState -> Prop :=
| a_claim s n h o a :
    waiting s = true \/ s = StatusClaimed -> n < max -> who = Some (o, a) ->
    astep max layer who {| a_status := s; a_attempt := n; a_holder := h |}
      {| a_status := StatusClaimed; a_attempt := n + 1; a_holder := Some (o, a) |}
| a_beat s n h :
    in_flight s = true ->
    astep max layer who {| a_status := s; a_attempt := n; a_holder := Some h |}
      {| a_status := if status_in s [StatusClaimed; StatusRunning] then StatusRunning else s;
         a_attempt := n; a_holder := Some h |}
| a_artifact s n h :
    status_in s [StatusClaimed; StatusRunning; StatusArtifactWritten] = true ->
    astep max layer who {| a_status := s; a_attempt := n; a_holder := Some h |}
      {| a_status := StatusArtifactWritten; a_attempt := n; a_holder := Some h |}
| a_validate s n h :
    status_in s [StatusArtifactWritten; StatusValidating] = true ->
    astep max layer who {| a_status := s; a_attempt := n; a_holder := Some h |}
      {| a_status := StatusValidating; a_attempt := n; a_holder := Some h |}
| a_succeed s n h :
    in_flight s = true ->
    astep max layer who {| a_status := s; a_attempt := n; a_holder := Some h |}
      {| a_status := StatusSucceeded; a_attempt := n; a_holder := None |}
| a_retry s n h :
    in_flight s = true -> n < max ->
    astep max layer who {| a_status := s; a_attempt := n; a_holder := h |}
      {| a_status := StatusRetrying; a_attempt := n; a_holder := None |}
| a_skip s n h :
    in_flight s = true -> layer = LayerSCIP \/ layer = LayerASTTreeSitter /\ max <= n ->
    astep max layer who {| a_status := s; a_attempt := n; a_holder := h |}
      {| a_status := StatusSkipped; a_attempt := n; a_holder := None |}
| a_fail s n h :
    in_flight s = true -> layer <> LayerSCIP -> max <= n ->
    astep max layer who {| a_status := s; a_attempt := n; a_holder := h |}
      {| a_status := StatusFailed; a_attempt := n; a_holder := None |}
| a_cancel s n h :
    in_flight s = true \/ waiting s = true ->
    astep max layer who {| a_status := s; a_attempt := n; a_holder := h |}
      {| a_status := StatusCanceled; a_attempt := n; a_holder := None |}
| a_skip_empty n h :
    layer = LayerSCIP ->
    astep max layer who {| a_status := StatusRetrying; a_attempt := n; a_holder := h |}
      {| a_status := StatusSkipped; a_attempt := n; a_holder := None |}.

(** The columns beside the abstract state follow the status a move reaches:
    the lease is filled in exactly while the row is in flight, the completion
    time exactly when it has ended. *)
Definition columns_follow (u u' : SubjobRun) : Prop :=
  (in_flight (run_status u') = true ->
     is_Some (run_leaseOwner u') /\ is_Some (run_attemptId u')
     /\ is_Some (run_leaseExpiresAt u') /\ run_completedAt u' = run_completedAt u) /\
  (in_flight (run_status u') = false ->
     run_leaseOwner u' = None /\ run_leaseExpiresAt u' = None) /\
  (waiting (run_status u') = true -> run_attemptId u' = None /\ run_completedAt u' = None) /\
  (terminal (run_status u') = true -> is_Some (run_completedAt u')).

(** A move of a row: its scope is kept, the abstract machine takes a step and
    the other columns follow. *)
Definition row_move (who : option (string * string)) (r r' : Subjob) : Prop :=
  sj_scope r' = sj_scope r /\
  astep (sc_maxAttempts (sj_scope r)) (sj_layer r) who (abs r) (abs r') /\
  columns_follow (sj_run r) (sj_run r').

Definition row_step (who : option (string * string)) (r r' : Subjob) : Prop :=
  r' = r \/ row_move who r r'.

(** What one statement may do to the whole table: keep every row up to a row
    step, and add rows that are fresh from an insert. *)
Definition fresh_row (id : string) (r : Subjob) : Prop :=
  exists now c ws st code msg comp,
    r = new_subjob now c ws st code msg comp /\ ci_ID c = id /\ validate_create c = Some ws /\
    (st = StatusQueued /\ comp = None \/ st = StatusSkipped /\ exists t, comp = Some t).

Definition table_step (who : string -> option (string * string)) (m m' : gmap string Subjob) : Prop :=
  (forall id r, m !! id = Some r -> exists r', m' !! id = Some r' /\ row_step (who id) r r') /\
  (forall id r', m' !! id = Some r' -> m !! id = None -> fresh_row id r').

(** The worker and attempt an operation claims each row for. *)
Definition claimant (o : op) (id : string) : option (string * string) :=
  match o with
  | OpClaim _ _ c owner att _ => if id =s cs_ID c then Some (owner, att) else None
  | _ => None
  end.

Lemma table_step_refl who m : table_step who m m.
Proof. split; [|naive_solver]. intros id r H. exists r. split; [done|by left]. Qed.

#[export] Hint Resolve table_step_refl : go.

(** ** Statement lemmas *)

Lemma exec_table who {A} fault (stmt : DB -> result gerror (DB * A)) db :
  (forall db' a, stmt db = Ok (db', a) -> table_step who (db_subjobs db) (db_subjobs db')) ->
  table_step who (db_subjobs db) (db_subjobs (exec fault stmt db).1).
Proof.
  intros H. unfold exec. destruct fault; simpl; eauto with go.
  destruct (stmt db) as [[db' a]|e] eqn:E; simpl; eauto with go.
Qed.

Lemma update_row_table who id guard upd db db' b :
  (forall r, db_subjobs db !! id = Some r -> guard r = true ->
     row_move (who id) r (set_run r (upd (sj_run r)))) ->
  update_row id guard upd db = Ok (db', b) ->
  table_step who (db_subjobs db) (db_subjobs db').
Proof.
  intros Hg. unfold update_row. destruct (db_subjobs db !! id) as [r|] eqn:Hr.
  2: { intros [= <- <-]. auto with go. }
  destruct (guard r) eqn:Eg; intros [= <- <-]; [|auto with go].
  simpl. split.
  - intros i x Hx. destruct (decide (i = id)) as [->|Hne].
    + rewrite lookup_insert_eq. eexists. split; [done|].
      rewrite Hr in Hx. injection Hx as <-. right. by apply Hg.
    + rewrite lookup_insert_ne by done. exists x. split; [done|by left].
  - intros i x Hx Hn. destruct (decide (i = id)) as [->|Hne]; [congruence|].
    rewrite lookup_insert_ne in Hx by done. congruence.
Qed.

Lemma map_imap_table who (f : string -> Subjob -> Subjob) m :
  (forall id r, m !! id = Some r -> row_step (who id) r (f id r)) ->
  table_step who m (map_imap (fun id r => Some (f id r)) m).
Proof.
  intros H. split.
  - intros id r Hr. exists (f id r). rewrite map_lookup_imap, Hr. simpl. eauto.
  - intros id r' Hr' Hn. rewrite map_lookup_imap, Hn in Hr'. done.
Qed.

(** The holder a lease check reads off the row. *)
Lemma holds_lease_abs r o a :
  holds_lease r o a = true -> a_holder (abs r) = Some (o, a).
Proof.
  unfold holds_lease, abs. intros [Ho Ha]%andb_prop. breflect. simpl. by rewrite Ho, Ha.
Qed.

Lemma abs_eta r h :
  a_holder (abs r) = h ->
  abs r = {| a_status := sj_status r; a_attempt := run_attempt (sj_run r); a_holder := h |}.
Proof. intros <-. done. Qed.

(** ** Refinement: each statement moves each row by the abstract machine *)

(** Splits a conjunctive guard into its parts. *)
Ltac guard_split H :=
  repeat match type of H with
  | (_ && _) = true => apply andb_prop in H as [H ?]
  end.

(** The columns of the moves that release the lease; the completion time is NULL
    exactly for RETRYING. *)
Definition settles (st : Status) : Prop := st = StatusRetrying \/ terminal st = true.

Ltac columns := repeat split; intros; simpl in *; try discriminate; eauto.

Lemma failed_columns now st code msg u :
  settles st -> columns_follow u (failed_run now st code msg u).
Proof. intros [-> | H]; [|destruct st; try discriminate H]; columns. Qed.

Lemma requeued_columns st c t u : settles st -> columns_follow u (requeued_run st c t u).
Proof. intros [-> | H]; [|destruct st; try discriminate H]; columns. Qed.

Lemma retry_settles s n : settles (retry_status s n).
Proof. unfold retry_status. destruct (_ <? _); [by left|]. destruct (_ || _); by right. Qed.

Lemma failed_settles s n msg : settles (failed_status s n msg).
Proof.
  unfold failed_status. destruct (_ && _); [by right|].
  destruct (_ && _); [by right|]. apply retry_settles.
Qed.

Lemma requeue_settles sk j r : settles (requeue_status sk j r).
Proof.
  unfold requeue_status. destruct (job_running j); [|by right].
  destruct (_ <? _); [by left|]. destruct (sk _); by right.
Qed.

#[export] Hint Resolve failed_columns requeued_columns retry_settles failed_settles
  requeue_settles : go.

Lemma claim_refines now c db o a u r :
  claim_guard now c db r = true ->
  row_move (Some (o, a)) r (set_run r (claim_run now o a u (sj_run r))).
Proof.
  unfold claim_guard. intros H. guard_split H. breflect.
  split; [done|split; [|columns]].
  unfold abs at 1. apply a_claim; [|done|done].
  unfold status_in in *. breflect. unfold waiting, status_in.
  match goal with H : sj_status r ∈ _ |- _ => set_unfold in H end.
  rewrite bool_decide_eq_true. set_solver.
Qed.

(** The moves of a holder keep the holder. *)
Lemma held_move who r o a u st :
  holds_lease r o a = true -> run_status u = st ->
  run_attempt u = run_attempt (sj_run r) -> run_leaseOwner u = run_leaseOwner (sj_run r) ->
  run_attemptId u = run_attemptId (sj_run r) -> is_Some (run_leaseExpiresAt u) ->
  run_completedAt u = run_completedAt (sj_run r) -> in_flight st = true ->
  astep (sc_maxAttempts (sj_scope r)) (sj_layer r) who
    {| a_status := sj_status r; a_attempt := run_attempt (sj_run r); a_holder := Some (o, a) |}
    {| a_status := st; a_attempt := run_attempt (sj_run r); a_holder := Some (o, a) |} ->
  row_move who r (set_run r u).
Proof.
  intros Hh <- Hn Ho Ha Hx Hc Hf Hstep. pose proof (holds_lease_abs _ _ _ Hh) as Habs.
  apply andb_prop in Hh as [Eo Ea]. breflect. rewrite Eo in Ho. rewrite Ea in Ha.
  split; [done|split].
  - rewrite (abs_eta r _ Habs). unfold abs, set_run, sj_status. simpl.
    by rewrite Ho, Ha, Hn.
  - unfold columns_follow. simpl. rewrite Ho, Ha.
    repeat split; intros; eauto; destruct (run_status u); discriminate.
Qed.

Lemma beat_in_flight s :
  in_flight s = true ->
  in_flight (if status_in s [StatusClaimed; StatusRunning] then StatusRunning else s) = true.
Proof. by destruct s. Qed.

Lemma lease_live_Some now r : lease_live now r = true -> is_Some (run_leaseExpiresAt (sj_run r)).
Proof. unfold lease_live. destruct (run_leaseExpiresAt _); eauto. discriminate. Qed.

#[export] Hint Resolve beat_in_flight lease_live_Some : go.

Lemma heartbeat_refines who now u db o a r :
  (holds_lease r o a && in_flight (sj_status r) && row_job_active db r) = true ->
  row_move who r (set_run r (heartbeat_run now u (sj_run r))).
Proof.
  intros H. guard_split H. eapply held_move; simpl; eauto using a_beat with go.
Qed.

Lemma artifact_refines who now db o a t p h r :
  (holds_lease r o a && status_in (sj_status r) [StatusClaimed; StatusRunning; StatusArtifactWritten]
   && lease_live now r && row_job_active db r) = true ->
  row_move who r (set_run r (artifact_run now t p h (sj_run r))).
Proof.
  intros H. guard_split H. eapply held_move; simpl; eauto using a_artifact with go.
Qed.

Lemma validate_refines who now layer p path sha o a db r :
  live_guard now layer p path sha o a db r = true ->
  row_move who r (set_run r (validating_run now (sj_run r))).
Proof.
  unfold live_guard. cbn zeta. intros H. guard_split H.
  eapply held_move; simpl; eauto using a_validate with go.
Qed.

Lemma succeed_refines who now o a db r :
  finish_guard now o a db r = true ->
  row_move who r (set_run r (succeeded_run now (sj_run r))).
Proof.
  unfold finish_guard. intros H. guard_split H. apply holds_lease_abs in H as Hh.
  split; [done|split; [|columns]].
  rewrite (abs_eta r _ Hh). unfold abs at 1, set_run, succeeded_run. simpl.
  by eapply a_succeed.
Qed.

(** The moves that release the lease. *)
Lemma released_move who r u :
  run_leaseOwner u = None -> run_attempt u = run_attempt (sj_run r) ->
  columns_follow (sj_run r) u ->
  astep (sc_maxAttempts (sj_scope r)) (sj_layer r) who (abs r)
    {| a_status := run_status u; a_attempt := run_attempt (sj_run r); a_holder := None |} ->
  row_move who r (set_run r u).
Proof.
  intros Ho Hn Hc Hs. split; [done|split; [|done]].
  unfold abs at 2, set_run, sj_status. simpl. by rewrite Ho, Hn.
Qed.

(** The status CASEs choose among retry, skip and fail as the contract says. *)
Lemma retry_status_refines who r :
  in_flight (sj_status r) = true ->
  astep (sc_maxAttempts (sj_scope r)) (sj_layer r) who (abs r)
    {| a_status := retry_status (sj_scope r) (run_attempt (sj_run r));
       a_attempt := run_attempt (sj_run r); a_holder := None |}.
Proof.
  intros Hf. unfold abs, retry_status, sj_layer.
  destruct (_ <? _) eqn:E1; [apply a_retry; [done|lia]|].
  destruct (_ || _) eqn:E2.
  - apply a_skip; [done|]. breflect. destruct E2; [by left|right; split; [done|lia]].
  - apply a_fail; [done| |lia]. breflect. done.
Qed.

Lemma failed_status_refines who r msg :
  in_flight (sj_status r) = true ->
  astep (sc_maxAttempts (sj_scope r)) (sj_layer r) who (abs r)
    {| a_status := failed_status (sj_scope r) (run_attempt (sj_run r)) msg;
       a_attempt := run_attempt (sj_run r); a_holder := None |}.
Proof.
  intros Hf. unfold failed_status.
  destruct (_ && semantically_empty _) eqn:E1.
  { apply a_skip; [done|]. breflect. by left. }
  destruct (_ && ilike_contains _ _) eqn:E2; [|by apply retry_status_refines].
  apply a_skip; [done|]. breflect. by left.
Qed.

Lemma requeue_refines who skippable j r c t :
  in_flight (sj_status r) = true ->
  (forall l, skippable l = true -> l = LayerSCIP \/ l = LayerASTTreeSitter) ->
  skippable LayerSCIP = true ->
  row_move who r (set_run r (requeued_run (requeue_status skippable j r) c t (sj_run r))).
Proof.
  intros Hf Hsk Hscip. apply released_move; auto with go. simpl. unfold abs, requeue_status.
  destruct (job_running j); [|apply a_cancel; auto].
  destruct (_ <? _) eqn:E1; [apply a_retry; [done|lia]|].
  destruct (skippable (sj_layer r)) eqn:E2.
  - apply a_skip; [done|]. destruct (Hsk _ E2); [by left|right; split; [done|lia]].
  - apply a_fail; [done| |lia]. intros E. rewrite E in E2. congruence.
Qed.

Lemma elem_of_take {A} (x : A) n l : x ∈ take n l -> x ∈ l.
Proof. intros H. rewrite <- (take_drop n l). apply elem_of_app. by left. Qed.

Lemma pick_spec locked cond less limit db id :
  id ∈ pick locked cond less limit db ->
  exists r, db_subjobs db !! id = Some r /\ cond (id, r) = true /\ locked id = false.
Proof.
  unfold pick. intros H. apply list_elem_of_fmap in H as ([i r] & -> & H).
  apply elem_of_take, elem_of_sort_stable, list_elem_of_In, filter_In in H as [Hin Hc].
  apply list_elem_of_In, elem_of_map_to_list in Hin. simpl in *.
  apply andb_prop in Hc as [? ?]. breflect. eauto.
Qed.

Lemma requeue_table who ids skippable c t db db' n :
  (forall id r, id ∈ ids -> db_subjobs db !! id = Some r -> in_flight (sj_status r) = true) ->
  (forall l, skippable l = true -> l = LayerSCIP \/ l = LayerASTTreeSitter) ->
  skippable LayerSCIP = true ->
  requeue_stmt ids skippable c t db = Ok (db', n) ->
  table_step who (db_subjobs db) (db_subjobs db').
Proof.
  intros Hids Hsk Hs. unfold requeue_stmt. intros [= <- <-]. simpl.
  apply map_imap_table. intros id r Hr. case_bool_decide as Hin; [|by left].
  destruct (joined_job db r); [|by left].
  right. apply requeue_refines; eauto.
Qed.

Lemma cancel_refines who now msg r :
  waiting (sj_status r) = true ->
  row_step who r (set_run r (canceled_run now msg (sj_run r))).
Proof.
  intros H. right. apply released_move; [done|done|columns|].
  unfold abs. apply a_cancel. by right.
Qed.

Lemma fail_parent_table who now id msg db db' u :
  fail_parent_stmt now id msg db = Ok (db', u) ->
  table_step who (db_subjobs db) (db_subjobs db').
Proof.
  unfold fail_parent_stmt. destruct (db_subjobs db !! id) as [f|]; cycle 1.
  { intros [= <- <-]. auto with go. }
  case_bool_decide; cycle 1.
  { intros [= <- <-]. auto with go. }
  intros Heq.
  assert (db_subjobs db' = map_imap (fun i r => Some
    (if (sc_repoIndexingJobId (sj_scope r) =s sc_repoIndexingJobId (sj_scope f))
        && negb (i =s id) && waiting (sj_status r)
     then set_run r (canceled_run now msg (sj_run r)) else r)) (db_subjobs db)) as ->.
  { destruct (db_jobs db !! _) as [j|]; [destruct (_ && _)|]; injection Heq as <- <-; done. }
  apply map_imap_table. intros i r _. destruct (_ && _) eqn:E; [|by left].
  apply andb_prop in E as [_ E]. by apply cancel_refines.
Qed.

Lemma reconcile_table who locked wins now limit db db' n :
  reconcile_stmt locked wins now limit db = Ok (db', n) ->
  table_step who (db_subjobs db) (db_subjobs db').
Proof.
  unfold reconcile_stmt. intros [= <- <-]. simpl. apply map_imap_table.
  intros id r Hr. unfold reconcile_row.
  assert (Hskip : id ∈ pick locked (semantic_empty_row db) updated_before limit db ->
    row_step (who id) r (set_run r (skipped_run now (sj_run r)))).
  { intros (r' & Hr' & Hc & _)%pick_spec. rewrite Hr in Hr'. injection Hr' as <-.
    unfold semantic_empty_row in Hc. guard_split Hc. breflect. simpl in *.
    right. apply released_move; [done|done|columns|]. unfold abs.
    match goal with H : sj_status r = _ |- _ => rewrite H end.
    by apply a_skip_empty. }
  assert (Hcan : forall msg, waiting (sj_status r) = true ->
    row_step (who id) r (set_run r (canceled_run now msg (sj_run r)))) by (intros; by apply cancel_refines).
  case_bool_decide as Hin; destruct (waiting (sj_status r)) eqn:Ew;
    try destruct (find_failed _ _); try destruct (wins id); auto; by left.
Qed.

Lemma upsert_table who id row db db' b :
  fresh_row id row -> upsert_stmt id row db = Ok (db', b) ->
  table_step who (db_subjobs db) (db_subjobs db').
Proof.
  intros Hf. unfold upsert_stmt. destruct (_ && _); cycle 1.
  { intros [= <- <-]. auto with go. }
  destruct (db_subjobs db !! id) as [old|] eqn:Ho.
  { intros [= <- <-]. auto with go. }
  destruct (scope_key_taken _ _); [done|]. destruct (negb _); [done|].
  intros [= <- <-]. simpl. split.
  - intros i r Hi. exists r. split; [|by left]. rewrite lookup_insert_ne; congruence.
  - intros i r Hi Hn. destruct (decide (i = id)) as [->|Hne].
    + rewrite lookup_insert_eq in Hi. by injection Hi as <-.
    + rewrite lookup_insert_ne in Hi by done. congruence.
Qed.

Lemma upsertWithStatus_table who fault now goNow c st code msg db :
  st = StatusQueued \/ st = StatusSkipped ->
  table_step who (db_subjobs db)
    (db_subjobs (upsertWithStatus fault now goNow c st code msg db).1).
Proof.
  intros Hst. unfold upsertWithStatus. destruct (validate_create c) as [ws|] eqn:Ev; simpl;
    [|auto with go].
  destruct (_ || _) eqn:E; simpl; [|auto with go].
  set (row := new_subjob _ _ _ _ _ _ _).
  pose proof (exec_table who fault (upsert_stmt (ci_ID c) row) db) as Ht.
  destruct (exec fault (upsert_stmt (ci_ID c) row) db) as [db' [b|e]]; simpl in *;
    apply Ht; intros ? ? Hs; eapply upsert_table; try exact Hs;
    exists now, c, ws, st, code, msg; eexists; do 3 (split; [done|]);
    destruct Hst as [->| ->]; [left|right|left|right]; simpl; eauto.
Qed.

Lemma mark_failure_table who now statuses st id o a code msg db db' b :
  (forall s, status_in s statuses = true -> in_flight s = true) ->
  (forall s n, settles (st s n msg)) ->
  (forall r, in_flight (sj_status r) = true ->
     astep (sc_maxAttempts (sj_scope r)) (sj_layer r) (who id) (abs r)
       {| a_status := st (sj_scope r) (run_attempt (sj_run r)) msg;
          a_attempt := run_attempt (sj_run r); a_holder := None |}) ->
  mark_failure_stmt now statuses st id o a code msg db = Ok (db', b) ->
  table_step who (db_subjobs db) (db_subjobs db').
Proof.
  intros Hin Hset Hst. unfold mark_failure_stmt.
  destruct (db_subjobs db !! id) as [r|] eqn:Hr.
  2: { intros [= <- <-]. auto with go. }
  apply update_row_table. intros r' Hr' H. rewrite Hr in Hr'. injection Hr' as <-.
  guard_split H. apply released_move; simpl; eauto with go.
Qed.

Lemma markable_in_flight s : status_in s markable = true -> in_flight s = true.
Proof. done. Qed.

Lemma infra_markable_in_flight s : status_in s infra_markable = true -> in_flight s = true.
Proof. by destruct s. Qed.

(** *** One lemma per method *)

Create HintDb subjob_table.

(** Enters a method whose body is guards around one statement. *)
Ltac method_table :=
  repeat match goal with
  | |- table_step _ _ (db_subjobs (if ?b then _ else _).1) => destruct b; simpl; [auto with go|]
  end;
  cbn zeta;
  match goal with
  | |- context [exec ?f ?s ?d] =>
      lazymatch goal with |- table_step ?who _ _ => cut (table_step who (db_subjobs d) (db_subjobs (exec f s d).1)) end;
      [ by destruct (exec f s d) as [? []]
      | apply exec_table; intros ? ? ]
  end.

Lemma TryAcquireDispatchLock_table who f now owner u db :
  table_step who (db_subjobs db) (db_subjobs (TryAcquireDispatchLock f now owner u db).1).
Proof.
  unfold TryAcquireDispatchLock. method_table.
  destruct (db_lock db) as [l|]; [destruct (_ || _)|]; intros [= <- <-]; apply table_step_refl.
Qed.

Lemma ReleaseDispatchLock_table who f owner db :
  table_step who (db_subjobs db) (db_subjobs (ReleaseDispatchLock f owner db).1).
Proof.
  unfold ReleaseDispatchLock. method_table.
  destruct (db_lock db) as [l|]; [destruct (_ =s _)|]; intros [= <- <-]; apply table_step_refl.
Qed.

Lemma UpsertQueued_table who f now goNow c db :
  table_step who (db_subjobs db) (db_subjobs (UpsertQueued f now goNow c db).1).
Proof. apply upsertWithStatus_table. by left. Qed.

Lemma UpsertSkipped_table who f now goNow c code msg db :
  table_step who (db_subjobs db) (db_subjobs (UpsertSkipped f now goNow c code msg db).1).
Proof.
  unfold UpsertSkipped. destruct (_ || _); simpl; [auto with go|].
  apply upsertWithStatus_table. by right.
Qed.

Lemma ClaimScoped_table f now c o a u db :
  table_step (claimant (OpClaim f now c o a u)) (db_subjobs db) (db_subjobs (ClaimScoped f now c o a u db).1).
Proof.
  unfold ClaimScoped. method_table.
  apply update_row_table. intros r _ H. unfold claimant. rewrite str_eqb_refl. by eapply claim_refines.
Qed.

Lemma Heartbeat_table who f now id o a u db :
  table_step who (db_subjobs db) (db_subjobs (Heartbeat f now id o a u db).1).
Proof.
  unfold Heartbeat. method_table.
  apply update_row_table. intros r _ H. by eapply heartbeat_refines.
Qed.

Lemma MarkArtifactWritten_table who f now id o a t p h db :
  table_step who (db_subjobs db) (db_subjobs (MarkArtifactWritten f now id o a t p h db).1).
Proof.
  unfold MarkArtifactWritten. method_table.
  apply update_row_table. intros r _ H. by eapply artifact_refines.
Qed.

Lemma validateLiveSubjobLease_table who f now layer label lost p path sha o a db :
  table_step who (db_subjobs db)
    (db_subjobs (validateLiveSubjobLease f now layer label lost p path sha o a db).1).
Proof.
  unfold validateLiveSubjobLease. set (stmt := fun db0 => update_row _ _ _ db0).
  assert (Ht : table_step who (db_subjobs db) (db_subjobs (exec f stmt db).1)).
  { method_table. apply update_row_table. intros r _ H. by eapply validate_refines. }
  by destruct (exec f stmt db) as [db' [[]|e]].
Qed.

Lemma MarkSucceeded_table who f now id o a db :
  table_step who (db_subjobs db) (db_subjobs (MarkSucceeded f now id o a db).1).
Proof.
  unfold MarkSucceeded. method_table.
  apply update_row_table. intros r _ H. by eapply succeed_refines.
Qed.

Lemma failed_stmt_table who f now id o a code msg db :
  table_step who (db_subjobs db)
    (db_subjobs (exec f (mark_failure_stmt now markable failed_status id o a code msg) db).1).
Proof.
  method_table. apply mark_failure_table; auto using failed_settles.
  intros. by apply failed_status_refines.
Qed.

Lemma infra_stmt_table who f now id o a code msg db :
  table_step who (db_subjobs db)
    (db_subjobs (exec f (mark_failure_stmt now infra_markable infra_status id o a code msg) db).1).
Proof.
  method_table. apply mark_failure_table.
  - apply infra_markable_in_flight.
  - intros. apply retry_settles.
  - intros. by apply retry_status_refines.
Qed.

Lemma failParent_table who f now id code msg db :
  table_step who (db_subjobs db) (db_subjobs (failParentIfTerminalFailure f now id code msg db).1).
Proof. unfold failParentIfTerminalFailure. method_table. apply fail_parent_table. Qed.

Lemma RequeueExpiredLeases_table who f locked now at_ limit db :
  table_step who (db_subjobs db) (db_subjobs (RequeueExpiredLeases f locked now at_ limit db).1).
Proof.
  unfold RequeueExpiredLeases. method_table.
  apply requeue_table; [|intros l; rewrite orb_true_iff, !str_eqb_spec; tauto|done].
  intros id r (r' & Hr' & Hc & _)%pick_spec Hr. rewrite Hr in Hr'. injection Hr' as <-.
  unfold expired_row in Hc. by guard_split Hc.
Qed.

Lemma RequeueLeasesForOwnerPrefixes_table who f locked ps at_ limit db :
  table_step who (db_subjobs db)
    (db_subjobs (RequeueLeasesForOwnerPrefixes f locked ps at_ limit db).1).
Proof.
  unfold RequeueLeasesForOwnerPrefixes.
  destruct (_ <=? _); simpl; [auto with go|].
  destruct (List.filter _ _) as [|q qs] eqn:Eq; simpl; [auto with go|]. method_table.
  apply requeue_table; [|intros l; rewrite str_eqb_spec; tauto|done].
  intros id r (r' & Hr' & Hc & _)%pick_spec Hr. rewrite Hr in Hr'. injection Hr' as <-.
  unfold rescued_row in Hc. by guard_split Hc.
Qed.

Lemma ReconcileTerminalFailures_table who f locked wins now limit db :
  table_step who (db_subjobs db)
    (db_subjobs (ReconcileTerminalFailures f locked wins now limit db).1).
Proof. unfold ReconcileTerminalFailures. method_table. apply reconcile_table. Qed.

#[export] Hint Resolve table_step_refl TryAcquireDispatchLock_table
  ReleaseDispatchLock_table UpsertQueued_table UpsertSkipped_table ClaimScoped_table
  Heartbeat_table MarkArtifactWritten_table validateLiveSubjobLease_table
  MarkSucceeded_table failed_stmt_table infra_stmt_table failParent_table
  RequeueExpiredLeases_table RequeueLeasesForOwnerPrefixes_table
  ReconcileTerminalFailures_table : subjob_table.

(** Every statement moves every row by the abstract machine. *)
Lemma run_op_table o db : table_step (claimant o) (db_subjobs db) (db_subjobs (run_op o db)).
Proof. destruct o; simpl; auto with subjob_table. Qed.
