(* ===== verification/SubjobInvariants.v ===== *)
(** Invariants of the subjob table over every sequence of statements, and the
    trace properties of the lease protocol (claims, fencing, attempts). *)
From S2P Require Import Prelude GoStd GoStdFacts WorkerClasses SubjobTypes SubjobStore SubjobTask SubjobSystem.
(** ** Well-formed rows *)

Record wf_row (r : Subjob) : Prop := {
  wf_max : 0 < sc_maxAttempts (sj_scope r);
  wf_attempt : 0 <= run_attempt (sj_run r) <= sc_maxAttempts (sj_scope r);
  wf_in_flight : in_flight (sj_status r) = true ->
    is_Some (run_leaseOwner (sj_run r)) /\ is_Some (run_attemptId (sj_run r))
    /\ is_Some (run_leaseExpiresAt (sj_run r)) /\ run_completedAt (sj_run r) = None
    /\ 1 <= run_attempt (sj_run r);
  wf_released : in_flight (sj_status r) = false ->
    run_leaseOwner (sj_run r) = None /\ run_leaseExpiresAt (sj_run r) = None;
  wf_waiting : waiting (sj_status r) = true ->
    run_attemptId (sj_run r) = None /\ run_completedAt (sj_run r) = None
    /\ run_attempt (sj_run r) < sc_maxAttempts (sj_scope r);
  wf_terminal : terminal (sj_status r) = true -> is_Some (run_completedAt (sj_run r));
  wf_failed : sj_status r = StatusFailed ->
    sj_layer r <> LayerSCIP /\ run_attempt (sj_run r) = sc_maxAttempts (sj_scope r)
}.

Definition wf_table (m : gmap string Subjob) : Prop := map_Forall (fun _ r => wf_row r) m.

(** *** What a move needs from the row it leaves *)

Lemma astep_open max layer who s s' :
  astep max layer who s s' -> terminal (a_status s) = false.
Proof.
  intros []; simpl in *; try done;
    repeat match goal with H : _ \/ _ |- _ => destruct H end; subst; try done;
    destruct s0; done.
Qed.

Lemma astep_attempt max layer who s s' :
  astep max layer who s s' ->
  a_attempt s' = a_attempt s \/
  a_attempt s' = a_attempt s + 1 /\ a_attempt s < max /\ a_status s' = StatusClaimed /\
  exists o a, who = Some (o, a) /\ a_holder s' = Some (o, a).
Proof. intros []; simpl; auto. right. repeat split; auto. eauto. Qed.

Lemma astep_retry max layer who s s' :
  astep max layer who s s' -> waiting (a_status s') = true -> a_attempt s' < max.
Proof.
  intros []; simpl; try done; try (destruct s0; done); lia.
Qed.

Lemma astep_failed max layer who s s' :
  astep max layer who s s' -> a_status s' = StatusFailed ->
  layer <> LayerSCIP /\ max <= a_attempt s' /\ a_attempt s' = a_attempt s.
Proof. intros []; simpl; try done; destruct s0; done. Qed.

Lemma astep_in_flight max layer who s s' :
  astep max layer who s s' -> in_flight (a_status s') = true ->
  a_status s' = StatusClaimed /\ a_attempt s' = a_attempt s + 1
    /\ (waiting (a_status s) = true \/ a_status s = StatusClaimed)
  \/ in_flight (a_status s) = true /\ a_attempt s' = a_attempt s.
Proof.
  intros []; simpl; try done; auto; intros _; right; split; auto; destruct s0; done.
Qed.

(** ** Preservation *)

Lemma wf_open_completed r :
  wf_row r -> terminal (sj_status r) = false -> run_completedAt (sj_run r) = None.
Proof.
  intros Hw Ht. destruct (in_flight (sj_status r)) eqn:Hf.
  - by destruct (wf_in_flight _ Hw Hf) as (_ & _ & _ & ? & _).
  - apply (wf_waiting _ Hw). by destruct (sj_status r).
Qed.

Lemma row_move_wf who r r' : wf_row r -> row_move who r r' -> wf_row r'.
Proof.
  intros Hw (Hs & Ha & Hfl & Hrel & Hwt & Ht). unfold sj_layer in *.
  pose proof (wf_open_completed _ Hw (astep_open _ _ _ _ _ Ha)) as Hc.
  pose proof (wf_attempt _ Hw) as Hn. pose proof (wf_max _ Hw) as Hm.
  pose proof (astep_attempt _ _ _ _ _ Ha) as Hstep.
  pose proof (astep_in_flight _ _ _ _ _ Ha) as Hin. simpl in Hstep, Hin.
  pose proof (astep_retry _ _ _ _ _ Ha) as Hre. pose proof (astep_failed _ _ _ _ _ Ha) as Hfa.
  simpl in Hre, Hfa. rewrite <- Hs in *. split; try done.
  - destruct Hstep as [E|(E & ? & _)]; rewrite E; lia.
  - intros Hf. destruct (Hfl Hf) as (? & ? & ? & ->). repeat split; auto.
    destruct (Hin Hf) as [(_ & -> & _)|[Hf0 ->]]; [lia|].
    by destruct (wf_in_flight _ Hw Hf0) as (_ & _ & _ & _ & ?).
  - intros Hf. destruct (Hwt Hf). auto.
  - intros Hf. destruct (Hfa Hf) as (Hl & ? & E). unfold sj_layer. rewrite Hs in *.
    split; [done|]. lia.
Qed.

Lemma fresh_row_wf id r : fresh_row id r -> wf_row r.
Proof.
  intros (now & c & ws & st & code & msg & comp & -> & _ & _ & Hst).
  assert (0 < (if ci_MaxAttempts c <=? 0 then 3 else ci_MaxAttempts c)).
  { destruct (_ <=? _) eqn:E; lia. }
  destruct Hst as [[-> ->]|[-> [t ->]]]; split; simpl; try done; lia.
Qed.

Lemma table_step_wf who m m' : wf_table m -> table_step who m m' -> wf_table m'.
Proof.
  intros Hm [Hold Hnew] id r' Hr'. destruct (m !! id) as [r|] eqn:Hr.
  - destruct (Hold id r Hr) as (x & Hx & Hstep). rewrite Hr' in Hx. injection Hx as <-.
    destruct Hstep as [->|Hstep]; [by apply (Hm id)|].
    eapply row_move_wf; [|exact Hstep]. by apply (Hm id).
  - apply (fresh_row_wf id). eauto.
Qed.

Lemma run_ops_app os1 os2 db : run_ops (os1 ++ os2) db = run_ops os2 (run_ops os1 db).
Proof. apply foldl_app. Qed.

(** Induction over traces: a reflexive and transitive relation every statement
    respects holds along every trace. *)
Lemma run_ops_ind (R : DB -> DB -> Prop) :
  (forall db, R db db) -> (forall a b c, R a b -> R b c -> R a c) ->
  (forall o db, R db (run_op o db)) -> forall os db, R db (run_ops os db).
Proof.
  intros Hr Ht Hs os. induction os as [|o os IH]; intros db; [apply Hr|].
  eapply Ht; [apply (Hs o)|apply IH].
Qed.

Lemma run_ops_keep_wf os db :
  wf_table (db_subjobs db) -> wf_table (db_subjobs (run_ops os db)).
Proof.
  revert db. apply (run_ops_ind (fun a b => wf_table (db_subjobs a) -> wf_table (db_subjobs b)));
    [done|auto|].
  intros o db Hw. eapply table_step_wf; [done|apply run_op_table].
Qed.

(** C1: the invariant of the subjob table. Whatever sequence of store statements
    the planner, the dispatcher, the executors, the artifact stores and the
    sweeps issue, with whatever arguments, clocks and driver faults, every row
    keeps its attempt counter within [0, maxAttempts], has a lease owner and an
    expiry exactly while it is in flight, then also an attempt id, which it does
    not have while it waits, a completion time once it has ended, attempts left
    while it waits, and is FAILED only for a non-SCIP layer with its attempts
    used up. *)
Theorem subjob_table_invariant os db :
  wf_table (db_subjobs db) -> wf_table (db_subjobs (run_ops os db)).
Proof. apply run_ops_keep_wf. Qed.

(** ** Refinement of the abstract machine along traces *)

Definition some_step (max : Z) (layer : string) (s s' : AState) : Prop :=
  exists who, astep max layer who s s'.

Definition row_path (r r' : Subjob) : Prop :=
  sj_scope r' = sj_scope r /\
  rtc (some_step (sc_maxAttempts (sj_scope r)) (sj_layer r)) (abs r) (abs r').

Lemma row_step_path who r r' : row_step who r r' -> row_path r r'.
Proof.
  intros [->|(Hs & Ha & _)]; split; auto; [apply rtc_refl|].
  apply rtc_once. by exists who.
Qed.

Lemma row_path_trans r1 r2 r3 : row_path r1 r2 -> row_path r2 r3 -> row_path r1 r3.
Proof.
  intros [Hs1 Hp1] [Hs2 Hp2]. unfold row_path, sj_layer in *. rewrite Hs1 in *.
  split; [done|]. by etrans; [exact Hp1|].
Qed.

Lemma run_ops_path os db id r :
  db_subjobs db !! id = Some r ->
  exists r', db_subjobs (run_ops os db) !! id = Some r' /\ row_path r r'.
Proof.
  revert r. pattern db, (run_ops os db). revert db. apply run_ops_ind.
  - intros db r H. exists r. repeat split; [done|apply rtc_refl].
  - intros a b c Hab Hbc r H. destruct (Hab _ H) as (r1 & H1 & P1).
    destruct (Hbc _ H1) as (r2 & H2 & P2). exists r2. split; [done|].
    by apply (row_path_trans r r1 r2).
  - intros o db0 r H. destruct (proj1 (run_op_table o db0) id r H) as (r' & H' & Hst).
    exists r'. split; [done|]. by eapply row_step_path.
Qed.

(** C7: refinement. Along any sequence of statements a row that exists keeps
    existing with its scope unchanged, and its status, attempt counter and
    holder move by the abstract machine [astep] (claim, heartbeat, artifact,
    validate, succeed, retry, skip, fail, cancel). *)
Theorem subjob_row_refines os db id r :
  db_subjobs db !! id = Some r ->
  exists r', db_subjobs (run_ops os db) !! id = Some r' /\ sj_scope r' = sj_scope r /\
    rtc (some_step (sc_maxAttempts (sj_scope r)) (sj_layer r)) (abs r) (abs r').
Proof. apply run_ops_path. Qed.

(** ** Ended rows *)

Lemma run_op_ended o db id r :
  db_subjobs db !! id = Some r -> terminal (sj_status r) = true ->
  db_subjobs (run_op o db) !! id = Some r.
Proof.
  intros Hr Ht. destruct (proj1 (run_op_table o db) id r Hr) as (r' & H' & [->|(_ & Ha & _)]).
  - done.
  - apply astep_open in Ha. simpl in Ha. congruence.
Qed.

Lemma run_ops_ended os db id r :
  db_subjobs db !! id = Some r -> terminal (sj_status r) = true ->
  db_subjobs (run_ops os db) !! id = Some r.
Proof.
  intros Hr Ht. revert db Hr. induction os as [|o os IH]; intros db Hr; [done|].
  apply IH. by apply run_op_ended.
Qed.

(** A row that has SUCCEEDED, FAILED, been CANCELED or SKIPPED is never
    changed again, in any column, by any sequence of statements: no late
    heartbeat, retry sweep, rescue or re-plan can revive it. *)
Theorem ended_subjob_frozen os db id r :
  db_subjobs db !! id = Some r -> terminal (sj_status r) = true ->
  db_subjobs (run_ops os db) !! id = Some r.
Proof. apply run_ops_ended. Qed.

(** ** Claims *)

Definition is_true (x : result gerror bool) : bool :=
  match x with Ok true => true | _ => false end.

(** A claim that [ClaimScoped] reports as won. *)
Definition claim_won (o : op) (id : string) (db : DB) : bool :=
  match o with
  | OpClaim f now c owner att u =>
      (id =s cs_ID c) && is_true (ClaimScoped f now c owner att u db).2
  | _ => false
  end.

Fixpoint claims_won (id : string) (os : list op) (db : DB) : Z :=
  match os with
  | [] => 0
  | o :: os => (if claim_won o id db then 1 else 0) + claims_won id os (run_op o db)
  end.

(** What a single-row update did, by what it returned. *)
Lemma exec_update_true fault id guard upd db db' pre :
  match exec fault (update_row id guard upd) db with
  | (db', Err e) => (db', Err (EWrap pre e ""))
  | r => r
  end = (db', Ok true) ->
  exists r, db_subjobs db !! id = Some r /\ guard r = true /\
    db' = set_subjobs (fun m => <[id := set_run r (upd (sj_run r))]> m) db.
Proof.
  unfold exec, update_row. destruct fault; [done|].
  destruct (db_subjobs db !! id) as [r|]; [|done].
  destruct (guard r) eqn:E; [|done]. intros [= <-]. eauto.
Qed.

Lemma exec_update_other fault id guard upd db db' res pre :
  match exec fault (update_row id guard upd) db with
  | (db', Err e) => (db', Err (EWrap pre e ""))
  | r => r
  end = (db', res) -> is_true res = false -> db' = db.
Proof.
  unfold exec, update_row. destruct fault; [by intros [= <- <-]|].
  destruct (db_subjobs db !! id) as [r|]; [|by intros [= <- <-]].
  destruct (guard r); intros [= <- <-]; done.
Qed.

Lemma ClaimScoped_true f now c o a u db db' :
  ClaimScoped f now c o a u db = (db', Ok true) ->
  exists r, db_subjobs db !! cs_ID c = Some r /\ claim_guard now c db r = true /\
    db' = set_subjobs (fun m => <[cs_ID c := set_run r (claim_run now o a u (sj_run r))]> m) db.
Proof.
  unfold ClaimScoped. destruct (negb (claim_scope_valid c)); [done|].
  destruct (negb _); [done|]. destruct (_ || _); [done|]. apply exec_update_true.
Qed.

Lemma ClaimScoped_other f now c o a u db db' res :
  ClaimScoped f now c o a u db = (db', res) -> is_true res = false -> db' = db.
Proof.
  unfold ClaimScoped. destruct (negb (claim_scope_valid c)); [by intros [= <- <-]|].
  destruct (negb _); [by intros [= <- <-]|]. destruct (_ || _); [by intros [= <- <-]|].
  apply exec_update_other.
Qed.

Lemma is_true_Ok x : is_true x = true -> x = Ok true.
Proof. by destruct x as [[]|]. Qed.

(** The attempt counter counts the won claims. *)
Lemma run_op_attempt o db id r :
  db_subjobs db !! id = Some r ->
  exists r', db_subjobs (run_op o db) !! id = Some r' /\
    run_attempt (sj_run r') = run_attempt (sj_run r) + (if claim_won o id db then 1 else 0).
Proof.
  intros Hr. destruct (claim_won o id db) eqn:Ew.
  - destruct o; try discriminate Ew. apply andb_prop in Ew as [E Ew]. breflect. subst.
    apply is_true_Ok in Ew. simpl. destruct (ClaimScoped _ _ _ _ _ _ db) as [db' res] eqn:Ec.
    simpl in *. subst res. apply ClaimScoped_true in Ec as (r0 & H0 & _ & ->).
    rewrite Hr in H0. injection H0 as <-. simpl. rewrite lookup_insert_eq. eauto.
  - destruct (proj1 (run_op_table o db) id r Hr) as (r' & H' & Hst). exists r'.
    split; [done|]. rewrite Z.add_0_r. destruct Hst as [->|(_ & Ha & _)]; [done|].
    apply astep_attempt in Ha as [?|(_ & _ & _ & w & a & Hw & _)]; [done|].
    destruct o; try discriminate Hw. simpl in *. destruct (id =s cs_ID c) eqn:E; [|done].
    apply str_eqb_spec in E. subst id. simpl in Ew.
    destruct (ClaimScoped _ _ _ _ _ _ db) as [db' res] eqn:Ec. simpl in *.
    apply ClaimScoped_other in Ec; [|done]. subst. congruence.
Qed.

Lemma run_ops_attempt os db id r :
  db_subjobs db !! id = Some r ->
  exists r', db_subjobs (run_ops os db) !! id = Some r' /\
    run_attempt (sj_run r') = run_attempt (sj_run r) + claims_won id os db.
Proof.
  revert db r. induction os as [|o os IH]; intros db r Hr; simpl.
  { exists r. split; [done|lia]. }
  destruct (run_op_attempt o db id r Hr) as (r1 & H1 & E1).
  destruct (IH _ _ H1) as (r2 & H2 & E2). exists r2. split; [done|]. lia.
Qed.

Lemma claims_won_nonneg id os db : 0 <= claims_won id os db.
Proof.
  revert db. induction os as [|o os IH]; intros db; simpl; [lia|].
  specialize (IH (run_op o db)). destruct (claim_won o id db); lia.
Qed.
