(* ===== verification/SubjobFacts.v ===== *)
(** The theorems on the subjob table: who can claim a row and how often, what a worker
    whose lease is gone can still do, what each reported success means; the dispatch
    query; the sweeps over expired leases and failed jobs. *)
From S2P Require Import Prelude GoStd GoStdFacts WorkerClasses SubjobTypes SubjobStore SubjobTask SubjobSystem.
From S2P Require Import SubjobInvariants.
(** ** Attempts *)

(** The attempt counter of a row counts exactly the claims that were reported
    as won, over any sequence of statements, and therefore no row is ever
    claimed more than [maxAttempts] times. *)
Theorem claims_bounded os db id r :
  wf_table (db_subjobs db) -> db_subjobs db !! id = Some r ->
  exists r', db_subjobs (run_ops os db) !! id = Some r' /\
    run_attempt (sj_run r') = run_attempt (sj_run r) + claims_won id os db /\
    run_attempt (sj_run r) + claims_won id os db <= sc_maxAttempts (sj_scope r).
Proof.
  intros Hw Hr. destruct (run_ops_attempt os db id r Hr) as (r' & H' & E).
  exists r'. do 2 (split; [done|]).
  pose proof (wf_attempt _ (run_ops_keep_wf os _ Hw _ _ H')) as Hb.
  destruct (run_ops_path os db id r Hr) as (x & Hx & [Hs _]).
  rewrite H' in Hx. injection Hx as <-. rewrite Hs in Hb. lia.
Qed.

(** C2: a queue message is claimed at most once. After a claim for a subjob and
    attempt number was won, no later claim for the same subjob and attempt
    number is won, by any worker, whatever happens in between: redelivered or
    duplicated messages are rejected and change nothing. *)
Theorem claim_once f now c o a u db db1 os f' now' c' o' a' u' :
  ClaimScoped f now c o a u db = (db1, Ok true) ->
  cs_ID c' = cs_ID c -> cs_Attempt c' = cs_Attempt c ->
  let db2 := run_ops os db1 in
  (ClaimScoped f' now' c' o' a' u' db2).1 = db2 /\
  (ClaimScoped f' now' c' o' a' u' db2).2 <> Ok true.
Proof.
  intros (r & Hr & Hg & ->)%ClaimScoped_true Hid Hatt db2.
  set (db1 := set_subjobs _ db) in *.
  assert (H1 : db_subjobs db1 !! cs_ID c = Some (set_run r (claim_run now o a u (sj_run r)))).
  { simpl. by rewrite lookup_insert_eq. }
  destruct (run_ops_attempt os _ _ _ H1) as (r2 & H2 & E2). simpl in E2.
  pose proof (claims_won_nonneg (cs_ID c) os db1).
  destruct (ClaimScoped f' now' c' o' a' u' db2) as [db3 res] eqn:Ec. simpl.
  assert (Hne : res <> Ok true).
  { intros ->. apply ClaimScoped_true in Ec as (r3 & H3 & Hg3 & _). rewrite Hid in H3.
    fold db2 in H2. rewrite H2 in H3. injection H3 as <-.
    unfold claim_guard in Hg, Hg3. rewrite Hatt in Hg3. guard_split Hg. guard_split Hg3. breflect. lia. }
  split; [|done]. eapply ClaimScoped_other; [exact Ec|].
  destruct res as [[]|]; [by destruct Hne|done|done].
Qed.

(** What a won claim means. The row has exactly the tenant, repository,
    revision, layer, project and queue the message names, its INDEX job is in
    progress and its repository belongs to the organisation, the row was
    waiting or its CLAIMED lease had run out; afterwards it is CLAIMED for this
    worker and attempt, and its counter is the attempt number of the message. *)
Theorem claim_won_meaning f now c o a u db db' :
  cs_Attempt c < 2 ^ 31 ->
  ClaimScoped f now c o a u db = (db', Ok true) ->
  exists r, db_subjobs db !! cs_ID c = Some r /\
    scope_matches c (sj_scope r) = true /\
    job_active db (cs_RepoIndexingJobID c) (cs_RepoID c) (cs_OrgID c) = true /\
    (waiting (sj_status r) = true \/
     sj_status r = StatusClaimed /\
     forall t, run_leaseExpiresAt (sj_run r) = Some t -> t < now) /\
    run_attempt (sj_run r) < sc_maxAttempts (sj_scope r) /\
    db' = set_subjobs (fun m => <[cs_ID c := set_run r (claim_run now o a u (sj_run r))]> m) db /\
    run_attempt (claim_run now o a u (sj_run r)) = cs_Attempt c.
Proof.
  intros Hlt Hc. assert (Hv : claim_scope_valid c = true).
  { unfold ClaimScoped in Hc. by destruct (claim_scope_valid c). }
  apply ClaimScoped_true in Hc as (r & Hr & Hg & ->). exists r.
  unfold claim_guard in Hg. guard_split Hg. split; [done|]. split; [done|].
  unfold claim_scope_valid in Hv. apply negb_true_iff, orb_false_iff in Hv as [_ Hpos].
  match goal with H : (_ || waiting _) = true |- _ => apply orb_prop in H as Hex end.
  match goal with H : status_in _ _ = true |- _ =>
    unfold status_in in H; apply bool_decide_eq_true in H end.
  breflect. repeat split; try done.
  - unfold waiting, status_in. rewrite bool_decide_eq_true.
    destruct Hex as [Hex|Hex]; [|left; by apply bool_decide_eq_true in Hex].
    match goal with H : sj_status r ∈ _ |- _ => set_unfold in H; destruct H as [?|[?|[?|[]]]] end;
      [left; set_solver|left; set_solver|right]. split; [done|].
    intros t Ht. rewrite Ht in Hex. lia.
  - simpl. match goal with H : run_attempt _ = wrap32 _ |- _ => rewrite H end.
    rewrite wrap32_id; lia.
Qed.

(** ** Fencing *)

(** The calls a worker makes for the lease it believes to hold. *)
Inductive holder_call : Type :=
| CallHeartbeat (leaseUntil : Z)
| CallArtifactWritten (tempPath artifactPath sha : string)
| CallValidate (layer label lost : string) (p : Payload) (path sha : string)
| CallSucceeded
| CallFailed (code msg : string)
| CallInfraFailed (code msg : string).

(** The store method of a call, with its result read as "reported success". *)
Definition holder_run (f1 f2 : option gerror) (now1 now2 : Z) (id o a : string)
    (call : holder_call) (db : DB) : DB * bool :=
  match call with
  | CallHeartbeat u =>
      let '(db', r) := Heartbeat f1 now1 id o a u db in (db', is_true r)
  | CallArtifactWritten t p h =>
      let '(db', r) := MarkArtifactWritten f1 now1 id o a t p h db in (db', is_true r)
  | CallValidate layer label lost p path sha =>
      let '(db', r) := validateLiveSubjobLease f1 now1 layer label lost
                         {| pl_SubjobID := id; pl_RepoIndexingJobID := pl_RepoIndexingJobID p;
                            pl_OrgID := pl_OrgID p; pl_WorkspaceID := pl_WorkspaceID p;
                            pl_RepoID := pl_RepoID p; pl_Branch := pl_Branch p;
                            pl_Revision := pl_Revision p; pl_CommitHash := pl_CommitHash p;
                            pl_Layer := pl_Layer p; pl_Language := pl_Language p;
                            pl_ProjectRoot := pl_ProjectRoot p; pl_Indexer := pl_Indexer p;
                            pl_WorkerClass := pl_WorkerClass p; pl_QueueName := pl_QueueName p;
                            pl_Attempt := pl_Attempt p |} path sha o a db in
      (db', match r with Ok _ => true | Err _ => false end)
  | CallSucceeded =>
      let '(db', r) := MarkSucceeded f1 now1 id o a db in (db', is_true r)
  | CallFailed code msg =>
      let '(db', r) := MarkFailed f1 f2 now1 now2 id o a code msg db in (db', is_true r)
  | CallInfraFailed code msg =>
      let '(db', r) := MarkRetryableInfrastructureFailure f1 f2 now1 now2 id o a code msg db in
      (db', is_true r)
  end.

(** The row of [id] is not held by owner [o] for attempt [a]. *)
Definition not_holder (id o a : string) (db : DB) : Prop :=
  forall r, db_subjobs db !! id = Some r -> a_holder (abs r) <> Some (o, a).

Lemma not_holder_holds id o a db r :
  not_holder id o a db -> db_subjobs db !! id = Some r -> holds_lease r o a = false.
Proof.
  intros Hn Hr. apply not_true_iff_false. intros Hh. apply (Hn r Hr). by apply holds_lease_abs.
Qed.

Lemma mark_failure_blocked f1 f2 now1 now2 label statuses st id o a code msg db :
  not_holder id o a db ->
  (mark_failure f1 f2 now1 now2 label statuses st id o a code msg db).1 = db /\
  is_true (mark_failure f1 f2 now1 now2 label statuses st id o a code msg db).2 = false.
Proof.
  intros Hn. unfold mark_failure. destruct (_ || _); [done|].
  destruct (normalizeFailure code msg) as [code' msg'].
  unfold exec, mark_failure_stmt, update_row. destruct f1; [done|].
  destruct (db_subjobs db !! id) as [r|] eqn:Hr; [|done].
  by rewrite (not_holder_holds _ _ _ _ _ Hn Hr).
Qed.

(** A guarded update a worker without the lease issues does nothing. *)
Lemma exec_update_blocked fault id o a guard upd db :
  not_holder id o a db -> (forall r, guard db r = true -> holds_lease r o a = true) ->
  exec fault (fun db => update_row id (guard db) upd db) db = (db, Ok false) \/
  exists e, exec fault (fun db => update_row id (guard db) upd db) db = (db, Err e).
Proof.
  intros Hn Hg. unfold exec, update_row. destruct fault; [eauto|].
  destruct (db_subjobs db !! id) as [r|] eqn:Hr; [|auto].
  destruct (guard db r) eqn:E; [|auto]. apply Hg in E.
  rewrite (not_holder_holds _ _ _ _ _ Hn Hr) in E. discriminate.
Qed.

Lemma holder_run_fenced f1 f2 now1 now2 id o a call db :
  not_holder id o a db ->
  holder_run f1 f2 now1 now2 id o a call db = (db, false).
Proof.
  intros Hn. destruct call; simpl.
  - edestruct (exec_update_blocked f1 id o a (fun db r => holds_lease r o a
      && in_flight (sj_status r) && row_job_active db r)) as [H|[e H]];
      [done|by intros r Hg; guard_split Hg| |]; unfold Heartbeat; by rewrite H.
  - edestruct (exec_update_blocked f1 id o a (fun db r => holds_lease r o a
      && status_in (sj_status r) [StatusClaimed; StatusRunning; StatusArtifactWritten]
      && lease_live now1 r && row_job_active db r)) as [H|[e H]];
      [done|by intros r Hg; guard_split Hg| |]; unfold MarkArtifactWritten; by rewrite H.
  - set (p' := Build_Payload _ _ _ _ _ _ _ _ _ _ _ _ _ _ _).
    edestruct (exec_update_blocked f1 id o a (live_guard now1 layer p' path sha o a))
      as [H|[e H]]; [done|by unfold live_guard; cbn zeta; intros r Hg; guard_split Hg| |];
      unfold validateLiveSubjobLease; simpl pl_SubjobID; by rewrite H.
  - edestruct (exec_update_blocked f1 id o a (finish_guard now1 o a)) as [H|[e H]];
      [done|by unfold finish_guard; intros r Hg; guard_split Hg| |];
      unfold MarkSucceeded; destruct (_ || _); try done; by rewrite H.
  - unfold MarkFailed.
    destruct (mark_failure_blocked f1 f2 now1 now2 "MarkFailed" markable failed_status
      id o a code msg db Hn) as [E1 E2].
    destruct (mark_failure _ _ _ _ _ _ _ _ _ _ _ _ _) as [db' res]. simpl in *. by rewrite E1, E2.
  - unfold MarkRetryableInfrastructureFailure.
    destruct (mark_failure_blocked f1 f2 now1 now2 "MarkRetryableInfrastructureFailure"
      infra_markable infra_status id o a code msg db Hn) as [E1 E2].
    destruct (mark_failure _ _ _ _ _ _ _ _ _ _ _ _ _) as [db' res]. simpl in *. by rewrite E1, E2.
Qed.

(** C3: fencing. A worker that does not hold a row's lease under its own attempt
    id cannot change anything: heartbeat, artifact registration, artifact
    validation, success and both failure reports leave the database as it was
    and do not report success, whatever the clocks, arguments and faults. *)
Theorem stale_holder_fenced f1 f2 now1 now2 id o a call db :
  not_holder id o a db ->
  holder_run f1 f2 now1 now2 id o a call db = (db, false).
Proof. apply holder_run_fenced. Qed.

Lemma astep_holder max layer who s s' h :
  astep max layer who s s' -> a_holder s' = Some h -> a_holder s = Some h \/ who = Some h.
Proof. intros []; simpl; auto; try discriminate. intros [= <-]. by right. Qed.

Lemma run_op_not_holder x id o a db :
  not_holder id o a db -> claimant x id <> Some (o, a) -> not_holder id o a (run_op x db).
Proof.
  intros Hn Hc r' Hr' Hh. destruct (run_op_table x db) as [Hold Hnew].
  destruct (db_subjobs db !! id) as [r|] eqn:Hr.
  - destruct (Hold _ _ Hr) as (y & Hy & Hst). rewrite Hr' in Hy. injection Hy as <-.
    destruct Hst as [->|(_ & Ha & _)]; [by apply (Hn r)|].
    destruct (astep_holder _ _ _ _ _ _ Ha Hh); [by apply (Hn r)|done].
  - destruct (Hnew _ _ Hr' Hr) as (? & ? & ? & ? & ? & ? & ? & -> & _). discriminate Hh.
Qed.

Lemma run_ops_not_holder os id o a db :
  not_holder id o a db -> Forall (fun x => claimant x id <> Some (o, a)) os ->
  not_holder id o a (run_ops os db).
Proof.
  intros Hn Hos. revert db Hn.
  induction Hos as [|x os Hx _ IH]; intros db Hn; [done|].
  apply IH. by apply run_op_not_holder.
Qed.

(** Fencing over time. Once another worker has won a claim on the row, the
    previous holder stays locked out for good: after any further statements
    (other than a new claim won under that very owner and attempt id), each of
    its calls leaves the database as it was and reports no success. *)
Theorem taken_over_fenced f now c o2 a2 u db db1 o a os f1 f2 now1 now2 call :
  ClaimScoped f now c o2 a2 u db = (db1, Ok true) -> (o2, a2) <> (o, a) ->
  Forall (fun x => claimant x (cs_ID c) <> Some (o, a)) os ->
  holder_run f1 f2 now1 now2 (cs_ID c) o a call (run_ops os db1) = (run_ops os db1, false).
Proof.
  intros (r & Hr & _ & ->)%ClaimScoped_true Hne Hos.
  apply holder_run_fenced. apply run_ops_not_holder; [|done].
  intros r' Hr' Hh. simpl in Hr'. rewrite lookup_insert_eq in Hr'. injection Hr' as <-.
  simpl in Hh. congruence.
Qed.

(** ** Exclusivity of a live lease *)

(** The row, guard and new columns of the statements that update one row. *)
Definition single_update (x : op) (db : DB)
  : option (string * (Subjob -> bool) * (Subjob -> SubjobRun)) :=
  match x with
  | OpClaim _ now c o a u =>
      Some (cs_ID c, claim_guard now c db, fun r => claim_run now o a u (sj_run r))
  | OpHeartbeat _ now id o a u =>
      Some (id, fun r => holds_lease r o a && in_flight (sj_status r) && row_job_active db r,
            fun r => heartbeat_run now u (sj_run r))
  | OpArtifact _ now id o a t p h =>
      Some (id, fun r => holds_lease r o a
                  && status_in (sj_status r) [StatusClaimed; StatusRunning; StatusArtifactWritten]
                  && lease_live now r && row_job_active db r,
            fun r => artifact_run now t p h (sj_run r))
  | OpValidate _ now layer _ _ p path sha o a =>
      Some (pl_SubjobID p, live_guard now layer p path sha o a db,
            fun r => validating_run now (sj_run r))
  | OpSucceed _ now id o a =>
      Some (id, finish_guard now o a db, fun r => succeeded_run now (sj_run r))
  | OpFailed _ now id o a code msg =>
      Some (id, fun r => holds_lease r o a && status_in (sj_status r) markable
                         && lease_live now r && row_job_active db r,
            fun r => failed_run now (failed_status (sj_scope r) (run_attempt (sj_run r)) msg)
                       code msg (sj_run r))
  | OpInfraFailed _ now id o a code msg =>
      Some (id, fun r => holds_lease r o a && status_in (sj_status r) infra_markable
                         && lease_live now r && row_job_active db r,
            fun r => failed_run now (infra_status (sj_scope r) (run_attempt (sj_run r)) msg)
                       code msg (sj_run r))
  | _ => None
  end.

Lemma exec_update_cases fault id guard upd db :
  (exec fault (fun db => update_row id (guard db) upd db) db).1 = db \/
  exists r, db_subjobs db !! id = Some r /\ guard db r = true /\
    (exec fault (fun db => update_row id (guard db) upd db) db).1 =
      set_subjobs (fun m => <[id := set_run r (upd (sj_run r))]> m) db.
Proof.
  unfold exec, update_row. destruct fault; [by left|].
  destruct (db_subjobs db !! id) as [r|]; [|by left].
  destruct (guard db r) eqn:E; [right; eauto|by left].
Qed.

Lemma exec_mark_failure_cases fault now statuses st id o a code msg db :
  (exec fault (mark_failure_stmt now statuses st id o a code msg) db).1 = db \/
  exists r, db_subjobs db !! id = Some r /\
    (holds_lease r o a && status_in (sj_status r) statuses && lease_live now r
     && row_job_active db r) = true /\
    (exec fault (mark_failure_stmt now statuses st id o a code msg) db).1 =
      set_subjobs (fun m => <[id := set_run r
        (failed_run now (st (sj_scope r) (run_attempt (sj_run r)) msg) code msg (sj_run r))]> m) db.
Proof.
  unfold exec, mark_failure_stmt, update_row. destruct fault; [by left|].
  destruct (db_subjobs db !! id) as [r|]; [|by left].
  destruct (_ && row_job_active db r) eqn:E; [right; eauto|by left].
Qed.

Lemma wrapped_fst {A} (x : DB * result gerror A) pre :
  (let '(db', r) := x in
   match r with Ok v => (db', Ok v) | Err e => (db', Err (EWrap pre e "")) end).1 = x.1.
Proof. by destruct x as [? []]. Qed.

Lemma single_update_cases x db id g u :
  single_update x db = Some (id, g, u) ->
  run_op x db = db \/
  exists r, db_subjobs db !! id = Some r /\ g r = true /\
    run_op x db = set_subjobs (fun m => <[id := set_run r (u r)]> m) db.
Proof.
  destruct x; try discriminate; intros [= <- <- <-]; simpl.
  - unfold ClaimScoped. destruct (negb (claim_scope_valid c)); [by left|].
    destruct (negb _); [by left|]. destruct (_ || _); [by left|].
    rewrite wrapped_fst. apply (exec_update_cases _ _ (claim_guard now c)).
  - unfold Heartbeat. rewrite wrapped_fst.
    apply (exec_update_cases _ _ (fun db r => _ && row_job_active db r)).
  - unfold MarkArtifactWritten. rewrite wrapped_fst.
    apply (exec_update_cases _ _ (fun db r => _ && row_job_active db r)).
  - unfold validateLiveSubjobLease.
    pose proof (exec_update_cases fault (pl_SubjobID p)
      (live_guard now layer p path sha owner att) (validating_run now) db) as H.
    by destruct (exec _ _ _) as [db' [[]|]].
  - unfold MarkSucceeded. destruct (_ || _); [by left|]. rewrite wrapped_fst.
    apply (exec_update_cases _ _ (finish_guard now owner att)).
  - apply exec_mark_failure_cases.
  - apply exec_mark_failure_cases.
Qed.

(** The row of [id] is in flight under owner [o] and attempt id [a], with
    counter [n] and a lease that lasts until [t] at least. *)
Definition held (id o a : string) (n t : Z) (db : DB) : Prop :=
  exists r t', db_subjobs db !! id = Some r /\ in_flight (sj_status r) = true /\
    holds_lease r o a = true /\ run_attempt (sj_run r) = n /\
    run_leaseExpiresAt (sj_run r) = Some t' /\ t <= t'.

(** The statements that do not end the lease: claims and expiry sweeps with a
    clock up to [t], rescues for other owners, and, of the holder itself,
    anything but a final report or a heartbeat that shortens the lease. *)
Definition undisturbed (id o a : string) (t : Z) (x : op) : Prop :=
  match x with
  | OpClaim _ now c _ _ _ => now <= t
  | OpRequeueExpired _ _ _ at_ _ => at_ <= t
  | OpRescue _ _ prefixes _ _ =>
      existsb (fun prefix => sql_like o (prefix +:+ "%"))
        (List.filter (fun p => negb (p =s "")) (map TrimSpace prefixes)) = false
  | OpSucceed _ _ id' o' a' | OpFailed _ _ id' o' a' _ _ | OpInfraFailed _ _ id' o' a' _ _ =>
      (id', o', a') <> (id, o, a)
  | OpHeartbeat _ _ id' o' a' u => (id', o', a') = (id, o, a) -> t <= u
  | _ => True
  end.

Lemma holds_lease_inj r o a o' a' :
  holds_lease r o a = true -> holds_lease r o' a' = true -> (o', a') = (o, a).
Proof. intros H1%holds_lease_abs H2%holds_lease_abs. congruence. Qed.

Lemma holds_lease_kept r o a u :
  holds_lease r o a = true -> run_leaseOwner u = run_leaseOwner (sj_run r) ->
  run_attemptId u = run_attemptId (sj_run r) -> holds_lease (set_run r u) o a = true.
Proof. intros H Ho Ha. unfold holds_lease in *. simpl. by rewrite Ho, Ha. Qed.

Lemma claim_guard_live now c db r t :
  in_flight (sj_status r) = true -> run_leaseExpiresAt (sj_run r) = Some t -> now <= t ->
  claim_guard now c db r = false.
Proof.
  intros Hf Ht Hle. apply not_true_iff_false. intros Hg. unfold claim_guard in Hg.
  guard_split Hg. rewrite Ht in *.
  match goal with H : (_ || waiting _) = true |- _ => apply orb_prop in H as [H|H] end.
  - lia.
  - by destruct (sj_status r).
Qed.

(** Each statement that updates one row, on a held row. *)
Lemma single_update_held id o a n t x db i g u r :
  single_update x db = Some (i, g, u) -> undisturbed id o a t x ->
  db_subjobs db !! i = Some r -> g r = true ->
  held id o a n t db -> i = id ->
  held id o a n t (set_subjobs (fun m => <[i := set_run r (u r)]> m) db).
Proof.
  intros Hx Hu Hr Hg (r0 & t' & H0 & Hf & Hh & Hn & Ht & Hle) ->.
  rewrite Hr in H0. injection H0 as <-. unfold held. simpl. rewrite lookup_insert_eq.
  destruct x; try discriminate Hx; injection Hx as Hi <- <-; simpl in Hu.
  - rewrite (claim_guard_live _ _ _ _ t') in Hg; [done|done|done|lia].
  - guard_split Hg. exists (set_run r (heartbeat_run now leaseUntil (sj_run r))), leaseUntil.
    assert (t <= leaseUntil) by
      (apply Hu; pose proof (holds_lease_inj _ _ _ _ _ Hh Hg); congruence).
    repeat split; auto using holds_lease_kept. by apply beat_in_flight.
  - eexists _, t'. split; [done|]. repeat split; auto using holds_lease_kept.
  - eexists _, (Z.max t' (now + 900000)). split; [done|]. simpl. rewrite Ht.
    repeat split; auto using holds_lease_kept. lia.
  - unfold finish_guard in Hg. guard_split Hg. destruct Hu.
    pose proof (holds_lease_inj _ _ _ _ _ Hh Hg). congruence.
  - guard_split Hg. destruct Hu. pose proof (holds_lease_inj _ _ _ _ _ Hh Hg). congruence.
  - guard_split Hg. destruct Hu. pose proof (holds_lease_inj _ _ _ _ _ Hh Hg). congruence.
Qed.

(** The other statements leave a held row alone. *)
Lemma upsert_keeps fault now goNow c st code msg db id r :
  db_subjobs db !! id = Some r ->
  db_subjobs (upsertWithStatus fault now goNow c st code msg db).1 !! id = Some r.
Proof.
  intros Hr. unfold upsertWithStatus. destruct (validate_create c); [|done].
  destruct (_ || _); [|done]. cbn zeta. set (row := new_subjob _ _ _ _ _ _ _).
  assert (H : db_subjobs (exec fault (upsert_stmt (ci_ID c) row) db).1 !! id = Some r).
  { unfold exec, upsert_stmt. destruct fault; [done|]. destruct (_ && _); [|done].
    destruct (db_subjobs db !! ci_ID c) eqn:E; [done|].
    destruct (scope_key_taken _ _); [done|]. destruct (negb _); [done|].
    simpl. rewrite lookup_insert_ne; congruence. }
  by destruct (exec _ _ _) as [db' []].
Qed.

Lemma exec_keeps {A} fault (stmt : DB -> result gerror (DB * A)) db id r :
  db_subjobs db !! id = Some r ->
  (forall db' v, stmt db = Ok (db', v) -> db_subjobs db' !! id = Some r) ->
  db_subjobs (exec fault stmt db).1 !! id = Some r.
Proof.
  intros Hr H. unfold exec. destruct fault; [done|].
  destruct (stmt db) as [[db' v]|] eqn:E; [|done]. by apply (H _ v).
Qed.

Lemma requeue_keeps ids sk c t db id r db' v :
  db_subjobs db !! id = Some r -> id ∉ ids ->
  requeue_stmt ids sk c t db = Ok (db', v) -> db_subjobs db' !! id = Some r.
Proof.
  intros Hr Hi [= <- _]. simpl. rewrite map_lookup_imap, Hr. simpl.
  by rewrite bool_decide_eq_false_2.
Qed.

Lemma cancel_keeps now id0 msg db id r db' v :
  db_subjobs db !! id = Some r -> waiting (sj_status r) = false ->
  fail_parent_stmt now id0 msg db = Ok (db', v) -> db_subjobs db' !! id = Some r.
Proof.
  intros Hr Hw. unfold fail_parent_stmt.
  destruct (db_subjobs db !! id0) as [x|]; [|by intros [= <- _]].
  case_bool_decide; [|by intros [= <- _]]. cbn zeta. intros Heq.
  assert (E : db_subjobs db' !! id = Some r); [|done].
  destruct (db_jobs db !! _) as [j|]; [destruct (_ && bool_decide _)|]; injection Heq as <- _;
    simpl; rewrite map_lookup_imap, Hr; simpl; rewrite Hw, andb_false_r; done.
Qed.

Lemma reconcile_keeps locked wins now limit db id r db' v :
  db_subjobs db !! id = Some r -> waiting (sj_status r) = false ->
  reconcile_stmt locked wins now limit db = Ok (db', v) -> db_subjobs db' !! id = Some r.
Proof.
  intros Hr Hw [= <- _]. simpl. rewrite map_lookup_imap, Hr. simpl.
  unfold reconcile_row. rewrite Hw. case_bool_decide as Hin; [|done].
  apply pick_spec in Hin as (r' & Hr' & Hc & _). rewrite Hr in Hr'. injection Hr' as <-.
  unfold semantic_empty_row in Hc. guard_split Hc. simpl in *. exfalso.
  match goal with H : bool_decide (sj_status r = _) = true |- _ =>
    apply bool_decide_eq_true in H; rewrite H in Hw; discriminate Hw end.
Qed.

Lemma held_same id o a n t db db' :
  (forall r, db_subjobs db !! id = Some r -> in_flight (sj_status r) = true ->
     holds_lease r o a = true -> forall t', run_leaseExpiresAt (sj_run r) = Some t' -> t <= t' ->
     db_subjobs db' !! id = Some r) ->
  held id o a n t db -> held id o a n t db'.
Proof.
  intros H (r & t' & Hr & Hf & Hh & Hn & Ht & Hle). exists r, t'.
  split; [by apply (H r Hr Hf Hh t')|done].
Qed.

Lemma in_flight_not_waiting s : in_flight s = true -> waiting s = false.
Proof. by destruct s. Qed.

#[export] Hint Resolve in_flight_not_waiting : go.

Lemma sweep_held id o a n t x db :
  single_update x db = None -> undisturbed id o a t x ->
  held id o a n t db -> held id o a n t (run_op x db).
Proof.
  intros Hx Hu. apply held_same. intros r Hr Hf Hh t' Ht Hle.
  destruct x; try discriminate Hx; simpl in *; try done.
  - unfold TryAcquireDispatchLock. destruct (_ =s _); [done|]. cbn zeta. rewrite wrapped_fst.
    apply exec_keeps; [done|]. intros db' v.
    destruct (db_lock db); [destruct (_ || _)|]; by intros [= <- _].
  - unfold ReleaseDispatchLock. destruct (_ =s _); [done|]. cbn zeta. rewrite wrapped_fst.
    apply exec_keeps; [done|]. intros db' v.
    destruct (db_lock db); [destruct (_ =s _)|]; by intros [= <- _].
  - by apply upsert_keeps.
  - unfold UpsertSkipped. destruct (_ || _); [done|]. by apply upsert_keeps.
  - unfold failParentIfTerminalFailure. rewrite wrapped_fst. apply exec_keeps; [done|].
    intros db' v. apply cancel_keeps; auto with go.
  - unfold RequeueExpiredLeases. destruct (_ <=? _); [done|]. rewrite wrapped_fst.
    apply exec_keeps; [done|]. intros db' v. apply requeue_keeps; [done|].
    intros (r' & Hr' & Hc & _)%pick_spec. rewrite Hr in Hr'. injection Hr' as <-.
    unfold expired_row in Hc. guard_split Hc. simpl in *. rewrite Ht in *. lia.
  - unfold RequeueLeasesForOwnerPrefixes. destruct (_ <=? _); [done|].
    destruct (List.filter _ _) as [|q qs]; [done|]. rewrite wrapped_fst.
    apply exec_keeps; [done|]. intros db' v. apply requeue_keeps; [done|].
    intros (r' & Hr' & Hc & _)%pick_spec. rewrite Hr in Hr'. injection Hr' as <-.
    unfold rescued_row in Hc. guard_split Hc. cbn [snd] in *.
    apply andb_prop in Hh as [Ho _]. breflect. rewrite Ho in *. congruence.
  - unfold ReconcileTerminalFailures. destruct (_ <=? _); [done|]. rewrite wrapped_fst.
    apply exec_keeps; [done|]. intros db' v. apply reconcile_keeps; auto with go.
Qed.

Lemma run_op_held id o a n t x db :
  undisturbed id o a t x -> held id o a n t db -> held id o a n t (run_op x db).
Proof.
  intros Hu Hheld. destruct (single_update x db) as [[[i g] u]|] eqn:Hx; cycle 1.
  { by apply sweep_held. }
  destruct (single_update_cases _ _ _ _ _ Hx) as [->|(r & Hr & Hg & ->)]; [done|].
  destruct (decide (i = id)) as [->|Hne].
  - by eapply single_update_held.
  - revert Hheld. apply held_same. intros. simpl. by rewrite lookup_insert_ne.
Qed.

(** A live lease is exclusive. While a worker holds a row with a lease until
    [t], statements issued with clocks up to [t] leave it holding the row, in
    flight, under the same attempt number: no second worker claims it, no
    expiry sweep requeues it, no reconciliation cancels it; only its own final
    report or a rescue of its own owner prefix ends the lease. *)
Theorem live_lease_exclusive id o a n t os db :
  held id o a n t db -> Forall (undisturbed id o a t) os ->
  held id o a n t (run_ops os db).
Proof.
  intros Hh Hos. revert db Hh. induction Hos as [|x os Hx _ IH]; intros db Hh; [done|].
  apply IH. by apply run_op_held.
Qed.


(** What the dispatch query of the store selects
    (src/internal/backend/indexsubjobs/store.go, [ListDispatchable]): its
    dependency order, the serialisation of ACTIVATE, its order and its limit. *)
(** ** Specification *)

(** A dependency no longer blocks: it succeeded, was skipped, or is a SCIP row
    that failed or was canceled. *)
Definition resolved (dep : Subjob) : Prop :=
  sj_status dep = StatusSucceeded \/ sj_status dep = StatusSkipped \/
  sj_layer dep = LayerSCIP /\ (sj_status dep = StatusFailed \/ sj_status dep = StatusCanceled).

Definition finished (dep : Subjob) : Prop :=
  sj_status dep = StatusSucceeded \/ sj_status dep = StatusSkipped.

(** The layer order: CLONE before the extractors, AST and SCIP before
    GRAPH_MERGE, everything before ACTIVATE, and ACTIVATE rows of one job one
    after the other in creation order. *)
Definition deps_done (m : gmap string Subjob) (id : string) (r : Subjob) : Prop :=
  (sj_layer r ∈ [LayerZoekt; LayerASTTreeSitter; LayerSCIP] ->
     forall i d, m !! i = Some d -> same_revision (sj_scope d) (sj_scope r) = true ->
       sj_layer d = LayerClone -> finished d) /\
  (sj_layer r = LayerGraphMerge ->
     forall i d, m !! i = Some d -> same_revision (sj_scope d) (sj_scope r) = true ->
       sj_layer d ∈ [LayerASTTreeSitter; LayerSCIP] -> resolved d) /\
  (sj_layer r = LayerActivate ->
     forall i d, m !! i = Some d -> same_revision (sj_scope d) (sj_scope r) = true ->
       i <> id -> sj_layer d <> LayerActivate -> resolved d) /\
  sj_layer r ∈ [LayerClone; LayerZoekt; LayerASTTreeSitter; LayerSCIP; LayerGraphMerge;
                LayerActivate; LayerRemove].

Lemma unfinished_false d : unfinished d = false <-> finished d.
Proof.
  unfold unfinished, finished, status_in. rewrite negb_false_iff, bool_decide_eq_true. set_solver.
Qed.

Lemma unresolved_false d : (unfinished d && negb (scip_gave_up d)) = false <-> resolved d.
Proof.
  unfold unfinished, scip_gave_up, resolved, status_in.
  destruct (sj_layer d =s LayerSCIP) eqn:El; apply str_eqb_spec in El || apply str_eqb_false in El;
    destruct (sj_status d); simpl; split; intros H; try done; naive_solver.
Qed.

(** A row no [EXISTS] finds. *)
Lemma no_dep m (P : SubjobRow -> bool) :
  existsb P (map_to_list m) = false -> forall i (d : Subjob), m !! i = Some d -> P (i, d) = false.
Proof.
  intros H i d Hd. apply not_true_iff_false. intros HP.
  apply not_true_iff_false in H. apply H. apply existsb_exists. exists (i, d).
  split; [|done]. by apply list_elem_of_In, elem_of_map_to_list.
Qed.

(** Closes a clause of another layer. *)
Ltac other_layer :=
  match goal with
  | |- _ /\ _ => split; other_layer
  | |- ?P -> _ => intros Hother; exfalso; revert Hother;
                 apply (bool_decide_eq_false_1 P); vm_compute; reflexivity
  | |- ?P => apply (bool_decide_eq_true_1 P); vm_compute; reflexivity
  end.

Lemma extractor_deps m id r :
  ((sj_layer r =s LayerZoekt) || (sj_layer r =s LayerASTTreeSitter)
   || (sj_layer r =s LayerSCIP)) = true ->
  existsb (fun dep => same_revision (sj_scope dep.2) (sj_scope r)
    && (sj_layer dep.2 =s LayerClone) && unfinished dep.2) (map_to_list m) = false ->
  deps_done m id r.
Proof.
  intros Hl H.
  assert (forall i d, m !! i = Some d -> same_revision (sj_scope d) (sj_scope r) = true ->
       sj_layer d = LayerClone -> finished d) as Hfin.
  { intros i d Hd Hs Hc. pose proof (no_dep _ _ H i d Hd) as E. cbn [snd] in E.
    rewrite Hs, Hc in E. by apply unfinished_false. }
  split; [done|].
  repeat (apply orb_prop in Hl; destruct Hl as [Hl|Hl]); apply str_eqb_spec in Hl;
    rewrite Hl; other_layer.
Qed.

Lemma merge_deps m id r :
  sj_layer r = LayerGraphMerge ->
  existsb (fun dep => same_revision (sj_scope dep.2) (sj_scope r)
    && ((sj_layer dep.2 =s LayerASTTreeSitter) || (sj_layer dep.2 =s LayerSCIP))
    && unfinished dep.2 && negb (scip_gave_up dep.2)) (map_to_list m) = false ->
  deps_done m id r.
Proof.
  intros Hl H.
  assert (forall i d, m !! i = Some d -> same_revision (sj_scope d) (sj_scope r) = true ->
       sj_layer d ∈ [LayerASTTreeSitter; LayerSCIP] -> resolved d) as Hres.
  { intros i d Hd Hs Hc. pose proof (no_dep _ _ H i d Hd) as E. cbn [snd] in E.
    apply unresolved_false. rewrite Hs in E.
    assert ((sj_layer d =s LayerASTTreeSitter) || (sj_layer d =s LayerSCIP) = true) as Ha
      by (apply orb_true_iff; rewrite !str_eqb_spec; set_solver).
    by rewrite Ha in E. }
  split; [rewrite Hl; other_layer|]. split; [done|]. rewrite Hl; other_layer.
Qed.

Lemma activate_deps m id r :
  sj_layer r = LayerActivate ->
  existsb (fun dep => same_revision (sj_scope dep.2) (sj_scope r)
    && negb (dep.1 =s id) && negb (sj_layer dep.2 =s LayerActivate)
    && unfinished dep.2 && negb (scip_gave_up dep.2)) (map_to_list m) = false ->
  deps_done m id r.
Proof.
  intros Hl H.
  assert (forall i d, m !! i = Some d -> same_revision (sj_scope d) (sj_scope r) = true ->
       i <> id -> sj_layer d <> LayerActivate -> resolved d) as Hres.
  { intros i d Hd Hs Hi Hc. pose proof (no_dep _ _ H i d Hd) as E. cbn [fst snd] in E.
    apply unresolved_false. rewrite Hs in E. apply str_eqb_false in Hi, Hc.
    by rewrite Hi, Hc in E. }
  do 2 (split; [rewrite Hl; other_layer|]). split; [done|]. rewrite Hl; other_layer.
Qed.

Lemma deps_ready_done m id r :
  deps_ready (map_to_list m) (id, r) = true -> deps_done m id r.
Proof.
  unfold deps_ready. cbn [fst snd]. cbn zeta. fold (sj_layer r). intros H.
  apply orb_prop in H as [H|H].
  1: apply orb_prop in H as [H|H].
  1: apply orb_prop in H as [H|H].
  1: apply orb_prop in H as [H|H]; apply str_eqb_spec in H;
       unfold deps_done; rewrite H; other_layer.
  all: apply andb_prop in H as [Hl H].
  - apply negb_true_iff in H. by apply extractor_deps.
  - apply negb_true_iff in H. apply str_eqb_spec in Hl. by apply merge_deps.
  - apply andb_prop in Hl as [Hl H']. apply negb_true_iff in H'.
    apply str_eqb_spec in Hl. by apply activate_deps.
Qed.

(** ** Creation order *)

Lemma created_before_asym a b : created_before a b = true -> created_before b a = false.
Proof.
  unfold created_before. intros [H|H]%orb_prop; apply orb_false_iff.
  - split; [lia|]. apply andb_false_iff. left. lia.
  - apply andb_prop in H as [E H]. split; [lia|]. rewrite (str_ltb_asym _ _ H).
    by rewrite andb_false_r.
Qed.

Lemma created_before_negtrans a b c :
  created_before b a = false -> created_before c b = false -> created_before c a = false.
Proof.
  unfold created_before. intros [H1 H2]%orb_false_iff [H3 H4]%orb_false_iff.
  apply orb_false_iff. split; [lia|]. apply andb_false_iff in H2, H4.
  apply andb_false_iff. destruct H2 as [H2|H2]; [left; lia|].
  destruct H4 as [H4|H4]; [left; lia|]. right. by eapply str_ltb_negtrans.
Qed.

Lemma created_before_total a b :
  created_before a b = false -> created_before b a = false -> a.1 = b.1.
Proof.
  unfold created_before. intros [H1 H2]%orb_false_iff [H3 H4]%orb_false_iff.
  apply andb_false_iff in H2, H4.
  destruct H2 as [H2|H2]; [lia|]. destruct H4 as [H4|H4]; [lia|].
  by apply str_ltb_total.
Qed.

Lemma StronglySorted_take_drop {A} (R : A -> A -> Prop) n l x y :
  StronglySorted R l -> x ∈ take n l -> y ∈ drop n l -> R x y.
Proof.
  intros Hs. revert n. induction Hs as [|z l Hs IH Hz]; intros [|n]; simpl; try by intros ?%elem_of_nil.
  intros [->|Hx]%elem_of_cons Hy; [|by eapply IH].
  rewrite Forall_forall in Hz. apply Hz. rewrite <- (take_drop n l). apply elem_of_app. by right.
Qed.

Lemma StronglySorted_take {A} (R : A -> A -> Prop) n l :
  StronglySorted R l -> StronglySorted R (take n l).
Proof.
  intros Hs. revert n. induction Hs as [|z l Hs IH Hz]; intros [|n]; simpl; try constructor; auto.
  rewrite Forall_forall in Hz |- *. intros x Hx. apply Hz. by eapply elem_of_take.
Qed.

Lemma elem_of_list_dispatchable limit db id r :
  (id, r) ∈ list_dispatchable limit db ->
  db_subjobs db !! id = Some r /\ dispatchable db (id, r) = true.
Proof.
  unfold list_dispatchable. intros H%elem_of_take.
  apply elem_of_sort_stable, list_elem_of_In, filter_In in H as [Hin Hd].
  by apply list_elem_of_In, elem_of_map_to_list in Hin.
Qed.

(** What the query promises for one selected row. *)
Definition ready (db : DB) (p : SubjobRow) : Prop :=
  db_subjobs db !! p.1 = Some p.2 /\ waiting (sj_status p.2) = true /\
  run_attempt (sj_run p.2) < sc_maxAttempts (sj_scope p.2) /\
  row_job_active db p.2 = true /\ deps_done (db_subjobs db) p.1 p.2.

Lemma dispatchable_ready db id r :
  db_subjobs db !! id = Some r -> dispatchable db (id, r) = true -> ready db (id, r).
Proof.
  intros Hr H. unfold dispatchable in H. cbn [snd] in H. cbn zeta in H. guard_split H.
  do 2 (split; [done|]). split; [cbn [snd]; lia|]. split; [done|]. by apply deps_ready_done.
Qed.

Lemma ListDispatchable_Ok f limit db db' ds :
  ListDispatchable f limit db = (db', Ok ds) ->
  0 < limit /\ db' = db /\ ds = map to_dispatchable (list_dispatchable limit db).
Proof.
  unfold ListDispatchable. destruct (limit <=? 0) eqn:E; [done|].
  unfold exec. destruct f; [done|]. intros [= <- <-]. repeat split. lia.
Qed.


(** A ready ACTIVATE row was created before every waiting one of its job. *)
Lemma activate_first db a ra b rb :
  db_subjobs db !! a = Some ra -> waiting (sj_status ra) = true ->
  sj_layer ra = LayerActivate -> sj_layer rb = LayerActivate ->
  sc_repoIndexingJobId (sj_scope ra) = sc_repoIndexingJobId (sj_scope rb) ->
  sc_workspaceId (sj_scope ra) = sc_workspaceId (sj_scope rb) ->
  sc_repoId (sj_scope ra) = sc_repoId (sj_scope rb) ->
  a <> b -> dispatchable db (b, rb) = true -> created_before (a, ra) (b, rb) = false.
Proof.
  intros Ha Hw La Lb Hj Hws Hp Hne [_ Hd]%andb_prop.
  unfold deps_ready in Hd. cbn [fst snd] in Hd. cbn zeta in Hd. fold (sj_layer rb) in Hd.
  rewrite Lb in Hd. simpl in Hd. apply andb_prop in Hd as [_ Hd].
  apply negb_true_iff in Hd. pose proof (no_dep _ _ Hd a ra Ha) as E. cbn [fst snd] in E.
  apply str_eqb_false in Hne. rewrite La, Hj, Hws, Hp, !str_eqb_refl, Z.eqb_refl, Hne in E.
  assert (status_in (sj_status ra) [StatusQueued; StatusClaimed; StatusRunning;
    StatusValidating; StatusRetrying] = true) as Hst by (by destruct (sj_status ra)).
  by rewrite Hst in E.
Qed.

(** ACTIVATE is serialised. Of the ACTIVATE subjobs of one indexing job,
    workspace and repository, whatever their branch and commit, the dispatch
    query returns at most one. *)
Theorem activate_serialised f limit db db' ds d1 d2 :
  ListDispatchable f limit db = (db', Ok ds) -> d1 ∈ ds -> d2 ∈ ds ->
  ds_Layer d1 = LayerActivate -> ds_Layer d2 = LayerActivate ->
  ds_RepoIndexingJobID d1 = ds_RepoIndexingJobID d2 ->
  ds_WorkspaceID d1 = ds_WorkspaceID d2 -> ds_RepoID d1 = ds_RepoID d2 ->
  d1 = d2.
Proof.
  intros (_ & _ & ->)%ListDispatchable_Ok H1 H2.
  apply list_elem_of_fmap in H1 as ([i1 r1] & -> & [Hr1 Hd1]%elem_of_list_dispatchable).
  apply list_elem_of_fmap in H2 as ([i2 r2] & -> & [Hr2 Hd2]%elem_of_list_dispatchable).
  simpl. intros L1 L2 Hj [= Hw] Hp.
  assert (waiting (sj_status r1) = true /\ waiting (sj_status r2) = true) as [W1 W2].
  { apply dispatchable_ready in Hd1, Hd2; try done. unfold ready in *. tauto. }
  destruct (decide (i1 = i2)) as [<-|Hne]; [by rewrite Hr1 in Hr2; injection Hr2 as <-|].
  exfalso. apply Hne. apply (created_before_total (i1, r1) (i2, r2));
    eapply activate_first; eauto.
Qed.


(** Failure propagation, the repair sweeps and the dispatch lock: what the
    multi-row statements of src/internal/backend/indexsubjobs/store.go achieve. *)
(** ** Terminal failure of a subjob *)

(** The parent tables after job [jobId] of repository [repoId] was failed with
    [message]. *)
Definition parent_failed (now : Z) (jobId : string) (repoId : Z) (message : string)
    (db db' : DB) : Prop :=
  (forall j, db_jobs db !! jobId = Some j -> db_jobs db' !! jobId = Some (fail_job now message j)) /\
  (forall r, db_repos db !! repoId = Some r -> db_repos db' !! repoId = Some (fail_repo now r)) /\
  (forall j, j <> jobId -> db_jobs db' !! j = db_jobs db !! j) /\
  (forall p, p <> repoId -> db_repos db' !! p = db_repos db !! p).

Lemma job_active_job db jobId repoId orgId :
  job_active db jobId repoId orgId = true ->
  exists j r, db_jobs db !! jobId = Some j /\ job_repoId j = repoId /\ job_type j = INDEX /\
    job_status j = IN_PROGRESS /\ db_repos db !! repoId = Some r /\ repo_orgId r = orgId.
Proof.
  unfold job_active. destruct (db_jobs db !! jobId) as [j|]; [|done]. intros H.
  guard_split H. apply Z.eqb_eq in H. rewrite H in *.
  destruct (db_repos db !! repoId) as [r|]; [|done]. exists j, r. breflect.
  repeat split; try done; lia.
Qed.

Lemma fail_parent_parents now id msg db db' f :
  db_subjobs db !! id = Some f -> sj_status f = StatusFailed -> row_job_active db f = true ->
  fail_parent_stmt now id msg db = Ok (db', tt) ->
  parent_failed now (sc_repoIndexingJobId (sj_scope f)) (sc_repoId (sj_scope f)) msg db db' /\
  forall i r, db_subjobs db !! i = Some r ->
    db_subjobs db' !! i = Some
      (if (sc_repoIndexingJobId (sj_scope r) =s sc_repoIndexingJobId (sj_scope f))
          && negb (i =s id) && waiting (sj_status r)
       then set_run r (canceled_run now msg (sj_run r)) else r).
Proof.
  intros Hf Hst (j & p & Hj & Hp & _ & Hs & Hr & _)%job_active_job.
  unfold fail_parent_stmt. rewrite Hf, bool_decide_eq_true_2 by done. cbn zeta.
  rewrite Hj, Hp, Z.eqb_refl, bool_decide_eq_true_2 by done. simpl. intros [= <-]. simpl.
  split; [split; [|split; [|split]]|]; simpl.
  - intros j' Hj'. rewrite Hj in Hj'. injection Hj' as <-. by rewrite lookup_insert_eq.
  - intros r0 Hr0. by rewrite lookup_alter_eq, Hr0.
  - intros j' Hne. by rewrite lookup_insert_ne.
  - intros p' Hne. by rewrite lookup_alter_ne.
  - intros i r Hi. by rewrite map_lookup_imap, Hi.
Qed.

Lemma fail_parent_quiet now id msg db db' u f :
  db_subjobs db !! id = Some f -> sj_status f <> StatusFailed ->
  fail_parent_stmt now id msg db = Ok (db', u) -> db' = db.
Proof.
  intros Hf Hst. unfold fail_parent_stmt. rewrite Hf, bool_decide_eq_false_2 by done.
  by intros [= <- _].
Qed.

(** What a reported failure means, for either failure method. *)
Definition failure_outcome (st : SubjobScope -> Z -> string -> Status) (now1 now2 : Z)
    (id code msg : string) (db db' : DB) : Prop :=
  exists r, db_subjobs db !! id = Some r /\ row_job_active db r = true /\
    let s := st (sj_scope r) (run_attempt (sj_run r)) msg in
    db_subjobs db' !! id = Some (set_run r (failed_run now1 s code msg (sj_run r))) /\
    (s <> StatusFailed ->
       db_jobs db' = db_jobs db /\ db_repos db' = db_repos db /\
       forall i, i <> id -> db_subjobs db' !! i = db_subjobs db !! i) /\
    (s = StatusFailed ->
       parent_failed now2 (sc_repoIndexingJobId (sj_scope r)) (sc_repoId (sj_scope r))
         (code +:+ ": " +:+ msg) db db' /\
       forall i x, i <> id -> db_subjobs db !! i = Some x ->
         db_subjobs db' !! i = Some
           (if (sc_repoIndexingJobId (sj_scope x) =s sc_repoIndexingJobId (sj_scope r))
               && waiting (sj_status x)
            then set_run x (canceled_run now2 (code +:+ ": " +:+ msg) (sj_run x)) else x)).

Lemma failParent_Ok f now id code msg db db' u :
  failParentIfTerminalFailure f now id code msg db = (db', Ok u) ->
  fail_parent_stmt now id (code +:+ ": " +:+ msg) db = Ok (db', tt).
Proof.
  unfold failParentIfTerminalFailure, exec. destruct f; [done|].
  destruct (fail_parent_stmt _ _ _ db) as [[db1 []]|]; [|done]. by intros [= <- _].
Qed.

Lemma mark_failure_true f1 f2 now1 now2 label statuses st id o a code msg code' msg' db db' :
  normalizeFailure code msg = (code', msg') ->
  mark_failure f1 f2 now1 now2 label statuses st id o a code msg db = (db', Ok true) ->
  failure_outcome st now1 now2 id code' msg' db db'.
Proof.
  intros Hn. unfold mark_failure. destruct (_ || _); [done|]. rewrite Hn.
  destruct (exec f1 _ db) as [db1 [[]|]] eqn:Ex; try done.
  destruct (failParentIfTerminalFailure _ _ _ _ _ db1) as [db2 [u|]] eqn:Ep; [|done].
  intros [= <-]. apply failParent_Ok in Ep.
  unfold exec, mark_failure_stmt, update_row in Ex. destruct f1; [done|].
  destruct (db_subjobs db !! id) as [r|] eqn:Hr; [|done].
  destruct (_ && row_job_active db r) eqn:Eg; [|done]. injection Ex as <-.
  set (r1 := {| sj_scope := sj_scope r; sj_run := _ |}) in Ep.
  set (db1 := set_subjobs _ db) in Ep. exists r. split; [done|].
  apply andb_prop in Eg as [_ Hact]. split; [done|]. cbn zeta.
  assert (H1 : db_subjobs db1 !! id = Some r1) by (simpl; by rewrite lookup_insert_eq).
  destruct (decide (sj_status r1 = StatusFailed)) as [Hst|Hst].
  - destruct (fail_parent_parents _ _ _ _ _ _ H1 Hst Hact Ep) as [Hpar Hsub].
    split; [|split; [done|intros _; split; [exact Hpar|]]].
    + by rewrite (Hsub _ _ H1), !str_eqb_refl.
    + intros i x Hi Hx. rewrite (Hsub i x) by (simpl; by rewrite lookup_insert_ne).
      apply str_eqb_false in Hi. simpl. by rewrite Hi, andb_true_r.
  - apply (fail_parent_quiet _ _ _ _ _ _ _ H1 Hst) in Ep. subst db2.
    split; [done|split; [intros _|done]]. repeat split.
    intros i Hi. simpl. by rewrite lookup_insert_ne.
Qed.

(** What a reported failure does. [MarkFailed] returning true leaves the row
    released with the status the rules give (RETRYING with attempts left;
    otherwise SKIPPED for SCIP and AST and for empty or timed-out SCIP, FAILED
    for the other layers). When it is FAILED, the indexing job and its
    repository are marked FAILED with the reason, every waiting subjob of the
    job is canceled and no other row, job or repository changes; otherwise
    nothing but the row changes. *)
Theorem MarkFailed_outcome f1 f2 now1 now2 id o a code msg db db' :
  MarkFailed f1 f2 now1 now2 id o a code msg db = (db', Ok true) ->
  failure_outcome failed_status now1 now2 id (normalizeFailure code msg).1
    (normalizeFailure code msg).2 db db'.
Proof. apply mark_failure_true. by destruct (normalizeFailure code msg). Qed.

(** ** Sweeps with room for every candidate *)

Lemma length_rows db (P : SubjobRow -> bool) :
  (length (List.filter P (map_to_list (db_subjobs db))) <= size (db_subjobs db))%nat.
Proof. rewrite <- (length_map_to_list (db_subjobs db)). apply List.filter_length_le. Qed.

Lemma pick_complete locked cond less limit db id r :
  Z.of_nat (size (db_subjobs db)) <= limit -> db_subjobs db !! id = Some r ->
  cond (id, r) = true -> locked id = false -> id ∈ pick locked cond less limit db.
Proof.
  intros Hlim Hr Hc Hl. unfold pick. apply list_elem_of_fmap. exists (id, r). split; [done|].
  rewrite take_ge.
  - apply elem_of_sort_stable, list_elem_of_In, filter_In. split.
    + by apply list_elem_of_In, elem_of_map_to_list.
    + simpl. by rewrite Hc, Hl.
  - rewrite length_sort_stable. pose proof (length_rows db (fun p => cond p && negb (locked p.1))). lia.
Qed.


(** ** Reconciliation of failed jobs *)

Lemma distinct_on_complete rows seen p :
  p ∈ rows -> sc_repoIndexingJobId (sj_scope p.2) ∉ seen ->
  exists f, f ∈ distinct_on seen rows /\ fj_jobId f = sc_repoIndexingJobId (sj_scope p.2).
Proof.
  revert seen. induction rows as [|q rows IH]; intros seen Hp Hs; [by apply elem_of_nil in Hp|].
  simpl. apply elem_of_cons in Hp as [<-|Hp].
  { rewrite bool_decide_eq_false_2 by done. eexists. split; [left|done]. }
  case_bool_decide as Hq; [by apply IH|].
  destruct (decide (sc_repoIndexingJobId (sj_scope p.2) = sc_repoIndexingJobId (sj_scope q.2)))
    as [E|E].
  { eexists. split; [left|done]. }
  destruct (IH (sc_repoIndexingJobId (sj_scope q.2) :: seen) Hp) as (f & Hf & Ef);
    [set_solver|]. exists f. split; [by right|done].
Qed.

Lemma distinct_on_sound rows seen f :
  f ∈ distinct_on seen rows ->
  exists p, p ∈ rows /\ fj_jobId f = sc_repoIndexingJobId (sj_scope p.2) /\
    fj_repoId f = sc_repoId (sj_scope p.2).
Proof.
  revert seen. induction rows as [|q rows IH]; intros seen Hf; [by apply elem_of_nil in Hf|].
  simpl in Hf. case_bool_decide.
  { destruct (IH _ Hf) as (p & Hp & ?). exists p. split; [by right|done]. }
  apply elem_of_cons in Hf as [->|Hf]; [exists q; split; [left|done]|].
  destruct (IH _ Hf) as (p & Hp & ?). exists p. split; [by right|done].
Qed.

Lemma distinct_on_length rows seen : (length (distinct_on seen rows) <= length rows)%nat.
Proof.
  revert seen. induction rows as [|q rows IH]; intros seen; simpl; [done|].
  case_bool_decide; simpl; [etrans; [apply IH|lia]|]. specialize (IH (sc_repoIndexingJobId (sj_scope q.2) :: seen)). lia.
Qed.

Lemma failed_jobs_sound limit db f :
  f ∈ failed_jobs limit db ->
  exists i r, db_subjobs db !! i = Some r /\ sj_status r = StatusFailed /\
    row_job_active db r = true /\ fj_jobId f = sc_repoIndexingJobId (sj_scope r) /\
    fj_repoId f = sc_repoId (sj_scope r).
Proof.
  unfold failed_jobs. intros H%elem_of_take. apply distinct_on_sound in H as ([i r] & Hp & Hf).
  apply elem_of_sort_stable, list_elem_of_In, filter_In in Hp as [Hin Hc].
  apply list_elem_of_In, elem_of_map_to_list in Hin. unfold failed_row in Hc.
  apply andb_prop in Hc as [Hc ?]. breflect. simpl in *. by exists i, r.
Qed.

Lemma failed_jobs_complete limit db i r :
  Z.of_nat (size (db_subjobs db)) <= limit -> db_subjobs db !! i = Some r ->
  sj_status r = StatusFailed -> row_job_active db r = true ->
  exists f, f ∈ failed_jobs limit db /\ fj_jobId f = sc_repoIndexingJobId (sj_scope r).
Proof.
  intros Hlim Hr Hs Ha. unfold failed_jobs. set (rows := sort_stable _ _).
  assert (Hin : (i, r) ∈ rows).
  { apply elem_of_sort_stable, list_elem_of_In, filter_In. split.
    - by apply list_elem_of_In, elem_of_map_to_list.
    - unfold failed_row. simpl. by rewrite Ha, bool_decide_eq_true_2. }
  rewrite take_ge; [apply (distinct_on_complete rows [] (i, r)); set_solver|].
  etrans; [apply distinct_on_length|]. unfold rows. rewrite length_sort_stable.
  pose proof (length_rows db (failed_row db)). lia.
Qed.

Lemma find_failed_Some fs jobId f :
  find_failed fs jobId = Some f -> f ∈ fs /\ fj_jobId f = jobId.
Proof.
  unfold find_failed. intros [Hin E]%find_some. breflect. split; [by apply list_elem_of_In|done].
Qed.

Lemma find_failed_ex fs f : f ∈ fs -> exists g, find_failed fs (fj_jobId f) = Some g.
Proof.
  intros Hin. destruct (find_failed fs (fj_jobId f)) as [g|] eqn:E; [eauto|].
  unfold find_failed in E. apply list_elem_of_In in Hin.
  pose proof (find_none _ _ E _ Hin) as H. simpl in H. by rewrite str_eqb_refl in H.
Qed.

(** The failed-job entry of a job with a FAILED row names its repository. *)
Lemma failed_job_entry limit db jobId f j :
  find_failed (failed_jobs limit db) jobId = Some f -> db_jobs db !! jobId = Some j ->
  exists i r p, db_subjobs db !! i = Some r /\ sj_status r = StatusFailed /\
    sc_repoIndexingJobId (sj_scope r) = jobId /\ row_job_active db r = true /\
    fj_repoId f = job_repoId j /\ job_status j = IN_PROGRESS /\
    db_repos db !! job_repoId j = Some p /\ f ∈ failed_jobs limit db.
Proof.
  intros [Hin Ef]%find_failed_Some Hj.
  destruct (failed_jobs_sound _ _ _ Hin) as (i & r & Hr & Hs & Ha & E1 & E2).
  apply job_active_job in Ha as Hact. destruct Hact as (j' & p & Hj' & Hp & _ & Hst & Hrep & _).
  assert (j' = j) as ->; [congruence|]. exists i, r, p. rewrite Hp in *.
  repeat split; congruence.
Qed.

Lemma failed_repos_spec limit db f j p :
  find_failed (failed_jobs limit db) (fj_jobId f) = Some f -> f ∈ failed_jobs limit db ->
  db_jobs db !! fj_jobId f = Some j -> fj_repoId f = job_repoId j ->
  job_status j = IN_PROGRESS -> db_repos db !! job_repoId j = Some p ->
  job_repoId j ∈ failed_repos (failed_jobs limit db) db.
Proof.
  intros _ Hin Hj Hrep Hst Hp. unfold failed_repos. apply elem_of_dedup_first.
  split; [|by apply not_elem_of_nil]. apply list_elem_of_omap. exists f. split; [done|].
  by rewrite Hj, Hrep, Z.eqb_refl, bool_decide_eq_true_2, Hp.
Qed.

(** The reconciliation sweep repairs exactly the jobs that need it. With room
    in its limit, afterwards every job that was running with a FAILED subjob is
    FAILED together with its repository, and all its waiting subjobs have ended
    (CANCELED, or SKIPPED for a SCIP row with nothing to index); a job without a
    FAILED subjob is left as it was. *)
Theorem reconcile_repairs locked wins now limit db db' n :
  Z.of_nat (size (db_subjobs db)) <= limit ->
  ReconcileTerminalFailures None locked wins now limit db = (db', Ok n) ->
  (forall i r, db_subjobs db !! i = Some r -> sj_status r = StatusFailed ->
     row_job_active db r = true ->
     (exists j, db_jobs db' !! sc_repoIndexingJobId (sj_scope r) = Some j /\ job_status j = FAILED) /\
     (exists p, db_repos db' !! sc_repoId (sj_scope r) = Some p /\
        repo_latestIndexingJobStatus p = Some FAILED) /\
     forall k x, db_subjobs db' !! k = Some x ->
       sc_repoIndexingJobId (sj_scope x) = sc_repoIndexingJobId (sj_scope r) ->
       waiting (sj_status x) = false) /\
  (forall jobId, (forall i r, db_subjobs db !! i = Some r ->
       sc_repoIndexingJobId (sj_scope r) = jobId -> sj_status r <> StatusFailed) ->
     db_jobs db' !! jobId = db_jobs db !! jobId).
Proof.
  intros Hlim. unfold ReconcileTerminalFailures. destruct (limit <=? 0); [done|].
  unfold exec, reconcile_stmt. intros [= <- _]. split.
  - intros i r Hr Hs Ha.
    destruct (failed_jobs_complete _ _ _ _ Hlim Hr Hs Ha) as (f0 & Hf0 & Ef0).
    destruct (find_failed_ex _ _ Hf0) as [f Hfind]. rewrite Ef0 in Hfind.
    apply job_active_job in Ha as (j & p & Hj & Hp & _ & Hst & Hrep & _).
    destruct (failed_job_entry _ _ _ _ _ Hfind Hj) as (_ & _ & p' & _ & _ & _ & _ & E & _ & Hp' & Hin).
    pose proof (proj2 (find_failed_Some _ _ _ Hfind)) as Ef. simpl. repeat split.
    + eexists. rewrite map_lookup_imap, Hj. split; [done|]. simpl. unfold reconcile_job.
      by rewrite Hfind, E, Z.eqb_refl, bool_decide_eq_true_2.
    + eexists. rewrite map_lookup_imap, Hrep. split; [done|]. simpl.
      rewrite bool_decide_eq_true_2; [done|]. rewrite <- Hp.
      eapply (failed_repos_spec _ _ f j p'); rewrite ?Ef; done.
    + intros k x. rewrite map_lookup_imap. destruct (db_subjobs db !! k) as [y|]; [|done].
      simpl. intros [= <-]. unfold reconcile_row.
      destruct (waiting (sj_status y)) eqn:Ew.
      * case_bool_decide; destruct (find_failed _ (sc_repoIndexingJobId (sj_scope y))) eqn:Ey;
          try destruct (wins k); try done; simpl; intros Hjy; rewrite Hjy in Ey; congruence.
      * by case_bool_decide.
  - intros jobId Hno. simpl. rewrite map_lookup_imap.
    destruct (db_jobs db !! jobId) as [j|] eqn:Hj; [|done]. simpl. f_equal.
    unfold reconcile_job. destruct (find_failed _ jobId) as [f|] eqn:Hf; [|done].
    destruct (failed_job_entry _ _ _ _ _ Hf Hj) as (i & r & _ & Hr & Hs & Hid & _).
    by destruct (Hno i r Hr Hid).
Qed.

(** ** The dispatch lock *)

Definition lock_op (x : op) : bool :=
  match x with OpTryAcquire _ _ _ _ | OpRelease _ _ => true | _ => false end.

Lemma exec_lock {A} fault (stmt : DB -> result gerror (DB * A)) db :
  (forall db' v, stmt db = Ok (db', v) -> db_lock db' = db_lock db) ->
  db_lock (exec fault stmt db).1 = db_lock db.
Proof.
  intros H. unfold exec. destruct fault; [done|].
  destruct (stmt db) as [[db' v]|] eqn:E; [|done]. by apply (H _ v).
Qed.

Lemma upsert_lock fault now goNow c st code msg db :
  db_lock (upsertWithStatus fault now goNow c st code msg db).1 = db_lock db.
Proof.
  unfold upsertWithStatus. destruct (validate_create c); [|done]. destruct (_ || _); [|done].
  cbn zeta. set (row := new_subjob _ _ _ _ _ _ _).
  assert (db_lock (exec fault (upsert_stmt (ci_ID c) row) db).1 = db_lock db) as H.
  { apply exec_lock. intros db' v. unfold upsert_stmt. destruct (_ && _); [|by intros [= <- _]].
    destruct (db_subjobs db !! _); [by intros [= <- _]|]. destruct (scope_key_taken _ _); [done|].
    destruct (negb _); [done|]. by intros [= <- _]. }
  by destruct (exec _ _ _) as [? []].
Qed.

Lemma other_op_lock x db : lock_op x = false -> db_lock (run_op x db) = db_lock db.
Proof.
  intros Hx. destruct (single_update x db) as [[[i g] u]|] eqn:Hs.
  { by destruct (single_update_cases _ _ _ _ _ Hs) as [->|(r & _ & _ & ->)]. }
  destruct x; try discriminate Hx; try discriminate Hs; simpl; try done.
  - apply upsert_lock.
  - unfold UpsertSkipped. destruct (_ || _); [done|]. apply upsert_lock.
  - unfold failParentIfTerminalFailure. rewrite wrapped_fst. apply exec_lock. intros db' v.
    unfold fail_parent_stmt. destruct (db_subjobs db !! id); [|by intros [= <- _]].
    case_bool_decide; [|by intros [= <- _]]. cbn zeta.
    destruct (db_jobs db !! _); [destruct (_ && _)|]; by intros [= <- _].
  - unfold RequeueExpiredLeases. destruct (_ <=? _); [done|]. rewrite wrapped_fst.
    apply exec_lock. by intros db' v [= <- _].
  - unfold RequeueLeasesForOwnerPrefixes. destruct (_ <=? _); [done|].
    destruct (List.filter _ _); [done|]. rewrite wrapped_fst.
    apply exec_lock. by intros db' v [= <- _].
  - unfold ReconcileTerminalFailures. destruct (_ <=? _); [done|]. rewrite wrapped_fst.
    apply exec_lock. by intros db' v [= <- _].
Qed.

(** [owner] holds the dispatch lock until [t] at least. *)
Definition lock_held (owner : string) (t : Z) (db : DB) : Prop :=
  exists l, db_lock db = Some l /\ lock_owner l = owner /\ t <= lock_expiresAt l.

(** Other owners try with clocks up to [t]; [owner] itself does not release and
    only renews for longer. *)
Definition lock_undisturbed (owner : string) (t : Z) (x : op) : Prop :=
  match x with
  | OpTryAcquire _ now o u => if o =s owner then t <= u else now <= t
  | OpRelease _ o => o <> owner
  | _ => True
  end.

Lemma TryAcquire_blocked f now o u owner t db :
  lock_held owner t db -> now <= t -> o <> owner ->
  (TryAcquireDispatchLock f now o u db).1 = db /\
  (TryAcquireDispatchLock f now o u db).2 <> Ok true.
Proof.
  intros (l & Hl & <- & Ht) Hn Hne. unfold TryAcquireDispatchLock.
  destruct (o =s ""); [done|]. unfold exec. destruct f; [done|]. rewrite Hl.
  destruct (_ <? now) eqn:E; [lia|].
  destruct (lock_owner l =s o) eqn:E2; [apply str_eqb_spec in E2; congruence|]. done.
Qed.

Lemma run_op_lock_held owner t x db :
  lock_undisturbed owner t x -> lock_held owner t db -> lock_held owner t (run_op x db).
Proof.
  intros Hu Hh. destruct (lock_op x) eqn:Hx; cycle 1.
  { destruct Hh as (l & Hl & Hr). exists l. by rewrite other_op_lock. }
  destruct x; try discriminate Hx; simpl in *.
  - rename owner0 into o. destruct (o =s owner) eqn:Eo; breflect; cycle 1.
    { by destruct (TryAcquire_blocked fault now o leaseUntil owner t db Hh Hu Eo) as [-> _]. }
    subst o. destruct Hh as (l & Hl & Hlo & Ht). unfold TryAcquireDispatchLock.
    destruct (owner =s ""); [by exists l|]. cbn zeta. rewrite wrapped_fst.
    unfold exec. destruct fault; [by exists l|]. rewrite Hl, Hlo, str_eqb_refl, orb_true_r.
    by eexists.
  - rename owner0 into o. destruct Hh as (l & Hl & Hlo & Ht). unfold ReleaseDispatchLock.
    destruct (o =s ""); [by exists l|]. cbn zeta. rewrite wrapped_fst.
    unfold exec. destruct fault; [by exists l|]. rewrite Hl.
    destruct (lock_owner l =s o) eqn:E; breflect; [congruence|]. by exists l.
Qed.

(** Mutual exclusion of dispatchers. After a dispatcher acquired the lock until
    [u], no other dispatcher acquires it with a clock up to [u], whatever
    statements run in between, as long as the holder neither releases it nor
    shortens its lease. *)
Theorem dispatch_lock_exclusive f now owner u db db1 os f' now' other u' :
  TryAcquireDispatchLock f now owner u db = (db1, Ok true) ->
  Forall (lock_undisturbed owner u) os -> other <> owner -> now' <= u ->
  let db2 := run_ops os db1 in
  lock_held owner u db2 /\
  (TryAcquireDispatchLock f' now' other u' db2).1 = db2 /\
  (TryAcquireDispatchLock f' now' other u' db2).2 <> Ok true.
Proof.
  intros Hacq Hos Hne Hle db2.
  assert (lock_held owner u db1) as H1.
  { unfold TryAcquireDispatchLock in Hacq. destruct (owner =s ""); [done|].
    unfold exec in Hacq. destruct f; [done|].
    destruct (db_lock db) as [l|]; [destruct (_ || _)|]; try discriminate Hacq;
      injection Hacq as <-; eexists; split; try done; simpl; split; try done; lia. }
  assert (lock_held owner u db2) as H2.
  { unfold db2. clear -H1 Hos. revert db1 H1.
    induction Hos as [|x os Hx _ IH]; intros db1 H1; [done|].
    apply IH. by apply run_op_lock_held. }
  split; [done|]. by eapply TryAcquire_blocked.
Qed.

(** ** Planning again *)

(** The parent conditions of the insert, for an input and its workspace. *)
Definition parent_ready (c : CreateInput) (db : DB) : Prop :=
  job_active db (ci_RepoIndexingJobID c) (ci_RepoID c) (ci_OrgID c) = true /\
  manifest_pending db (ci_RepoIndexingJobID c) (ci_OrgID c) (ci_RepoID c)
    (coalesce "" (ci_WorkspaceID c)) (ci_Branch c) (ci_CommitHash c) = true.

Lemma validate_create_ws c ws : validate_create c = Some ws -> ci_WorkspaceID c = Some ws.
Proof.
  unfold validate_create. destruct (ci_WorkspaceID c) as [w|]; [|done]. intros H.
  repeat match type of H with
  | (if ?b then _ else _) = _ => destruct b; try discriminate H
  | match ?o with _ => _ end = _ => destruct o; try discriminate H
  end; congruence.
Qed.

Lemma UpsertQueued_Ok f now goNow c db db1 :
  UpsertQueued f now goNow c db = (db1, Ok tt) ->
  exists ws r, validate_create c = Some ws /\ db_subjobs db1 !! ci_ID c = Some r /\
    conflict_matches (sj_scope r)
      (sj_scope (new_subjob now c ws StatusQueued "" "" None)) = true.
Proof.
  unfold UpsertQueued, upsertWithStatus. destruct (validate_create c) as [ws|]; [|done].
  simpl. set (row := new_subjob _ _ _ _ _ _ _). unfold exec, upsert_stmt.
  destruct f; [done|]. destruct (_ && _); [|done].
  destruct (db_subjobs db !! ci_ID c) as [old|] eqn:Ho.
  - destruct (conflict_matches _ _) eqn:E; [|done]. intros [= <-]. by exists ws, old.
  - destruct (scope_key_taken _ _); [done|]. destruct (negb _); [done|]. intros [= <-].
    exists ws, row. split; [done|]. split; [simpl; by rewrite lookup_insert_eq|].
    unfold conflict_matches. by rewrite !str_eqb_refl, !Z.eqb_refl.
Qed.

Lemma UpsertQueued_existing f now goNow c db r :
  db_subjobs db !! ci_ID c = Some r -> (UpsertQueued f now goNow c db).1 = db.
Proof.
  intros Hr. unfold UpsertQueued, upsertWithStatus. destruct (validate_create c); [|done].
  simpl. unfold exec, upsert_stmt. destruct f; [done|].
  destruct (_ && _); [|done]. by rewrite Hr.
Qed.

(** Planning is idempotent. Once a subjob was queued, queueing the same input
    again, at any later time and after any statements, changes nothing (a
    claimed, finished or failed subjob is not reset), and it succeeds as long
    as the job is running and its manifest pending. *)
Theorem replan_idempotent f now goNow c db db1 os f' now' goNow' :
  UpsertQueued f now goNow c db = (db1, Ok tt) ->
  let db2 := run_ops os db1 in
  (UpsertQueued f' now' goNow' c db2).1 = db2 /\
  (f' = None -> parent_ready c db2 -> (UpsertQueued f' now' goNow' c db2).2 = Ok tt).
Proof.
  intros (ws & r & Hv & Hr & Hm)%UpsertQueued_Ok db2.
  destruct (run_ops_path os _ _ _ Hr) as (r2 & Hr2 & [Hs _]). fold db2 in Hr2.
  split; [by eapply UpsertQueued_existing|].
  intros -> [Hj Hp]. pose proof (validate_create_ws _ _ Hv) as Hw. rewrite Hw in Hp.
  unfold UpsertQueued, upsertWithStatus. rewrite Hv. simpl. unfold exec, upsert_stmt. simpl.
  simpl in Hp. rewrite Hj, Hp. simpl. rewrite Hr2, Hs.
  change (conflict_matches (sj_scope r)
    (sj_scope (new_subjob now' c ws StatusQueued "" "" None)) = true) in Hm.
  unfold new_subjob in Hm. simpl in Hm. unfold conflict_matches in *. simpl in *.
  by rewrite Hm.
Qed.

(** ** The rescue of leases by owner prefix *)

(** A row of [layer] in its last attempt, claimed by an executor of host "a-1". *)
Definition claimed_row (layer : string) : Subjob :=
  {| sj_scope :=
       {| sc_repoIndexingJobId := "job"; sc_codeIntelIndexId := None; sc_orgId := 1;
          sc_workspaceId := "ws"; sc_repoId := 7; sc_branch := "main";
          sc_revision := "refs/heads/main"; sc_commitHash := "c0ffee";
          sc_layer := layer; sc_language := None; sc_projectRoot := None; sc_indexer := None;
          sc_workerClass := "core"; sc_queueName := QueueIndexCore; sc_maxAttempts := 3;
          sc_inputDigest := None; sc_toolchainDigest := None; sc_imageDigest := None;
          sc_createdAt := 0 |};
     sj_run :=
       {| run_status := StatusRunning; run_attempt := 3; run_attemptId := Some "att";
          run_leaseOwner := Some "index-executor-a-1-77"; run_leaseExpiresAt := Some 100;
          run_heartbeatAt := Some 10; run_startedAt := Some 5; run_completedAt := None;
          run_artifactTempPath := None; run_artifactPath := None; run_artifactSha256 := None;
          run_errorCode := None; run_errorMessage := None; run_updatedAt := 10 |} |}.

Definition rescue_db (layer : string) : DB :=
  {| db_subjobs := {[ "s" := claimed_row layer ]};
     db_jobs := {[ "job" := {| job_repoId := 7; job_type := INDEX; job_status := IN_PROGRESS;
                               job_errorMessage := None; job_metadataRef := None;
                               job_createdAt := 0; job_completedAt := None;
                               job_updatedAt := 0 |} ]};
     db_repos := {[ 7 := new_repo 1 "r" ]};
     db_manifests := []; db_indexes := []; db_lock := None |}.

Definition status_of (id : string) (db : DB) : option Status :=
  sj_status <$> db_subjobs db !! id.

(** The two sweeps end an exhausted AST row differently: the expiry sweep skips
    it, as the failure methods do, the rescue by owner prefix marks it FAILED
    (the reconciliation then fails the whole job). *)
Theorem rescue_fails_ast :
  status_of "s" (RequeueExpiredLeases None (fun _ => false) 200 200 10
                   (rescue_db LayerASTTreeSitter)).1 = Some StatusSkipped /\
  status_of "s" (RequeueLeasesForOwnerPrefixes None (fun _ => false)
                   ["index-executor-a-1-"] 200 10 (rescue_db LayerASTTreeSitter)).1
    = Some StatusFailed.
Proof. vm_compute. auto. Qed.

(** The rescue of one host's prefix takes rows of other hosts: an executor
    restarting on host "a" requeues the live lease of an executor on host
    "a-1", and the underscore of a prefix matches any character. *)
Theorem rescue_takes_other_host :
  status_of "s" (RequeueLeasesForOwnerPrefixes None (fun _ => false)
                   ["index-executor-a-"] 50 10 (rescue_db LayerSCIP)).1 = Some StatusSkipped /\
  status_of "s" (RequeueLeasesForOwnerPrefixes None (fun _ => false)
                   ["index-executor-a_1-"] 50 10 (rescue_db LayerSCIP)).1 = Some StatusSkipped.
Proof. vm_compute. auto. Qed.
