(* ===== verification/Dispatcher.v ===== *)
(** The subjob dispatcher, src/internal/backend/indexsubjobs/dispatcher.go,
    written against the two interfaces it is given: the store
    ([dispatchStore]) and the task queue client ([taskEnqueuer]). *)
From S2P Require Import Prelude GoStd GoStdFacts GoJSON GoJSONFacts WorkerClasses SubjobTypes SubjobStore SubjobTask.
From S2P Require Import SubjobCodec SubjobSystem SubjobInvariants SubjobFacts.
(** ** Interfaces *)

(** The methods the dispatcher calls, over a state [S]. *)
Class DispatchStore (S : Type) : Type := {
  st_ListDispatchable : Z -> S -> S * result gerror (list DispatchableSubjob);
  st_RequeueExpiredLeases : Z -> Z -> S -> S * result gerror Z;
  st_ReconcileTerminalFailures : Z -> S -> S * result gerror Z;
  st_TryAcquireDispatchLock : string -> Z -> S -> S * result gerror bool;
  st_ReleaseDispatchLock : string -> S -> S * result gerror unit
}.

(** An [asynq.Task] with the options it is enqueued with. *)
Record Task : Type := {
  task_type : string;
  task_payload : string;
  task_queue : string;
  task_maxRetry : Z;
  task_retention : Z;
  task_id : option string;
  task_unique : option Z
}.

(** The queue client, over a state [Q]. *)
Class TaskEnqueuer (Q : Type) : Type := {
  EnqueueContext : Task -> Q -> Q * result gerror unit
}.

(** The sentinels of the queue library the dispatcher tests for. *)
Definition ErrTaskIDConflict : string := "task ID conflicts with another task".
Definition ErrDuplicateTask : string := "task already exists".

(** ** Data *)

Definition rescueTaskUniquenessTTL : Z := 600000.

Record DispatchStats : Type := {
  ExpiredRequeued : Z;
  TerminalFailuresReconciled : Z;
  Scanned : Z;
  Enqueued : Z;
  Duplicates : Z;
  RescuedDuplicates : Z
}.

Definition zero_stats : DispatchStats :=
  {| ExpiredRequeued := 0; TerminalFailuresReconciled := 0; Scanned := 0; Enqueued := 0;
     Duplicates := 0; RescuedDuplicates := 0 |}.

Definition dispatchTaskID (subjobID : string) (attempt : Z) : string :=
  "codeintel-index-subjob:" +:+ subjobID +:+ ":" +:+ Itoa attempt.

(** [nonce] is the random suffix in hex, [None] when the source of randomness
    failed. *)
Definition dispatchOwner (hostname : string) (unixNano : Z) (nonce : option string) : string :=
  match nonce with
  | None => "dispatcher-" +:+ hostname +:+ "-" +:+ Itoa unixNano
  | Some h => "dispatcher-" +:+ hostname +:+ "-" +:+ Itoa unixNano +:+ "-" +:+ h
  end.


(** ** Operations *)

Definition row_payload (row : DispatchableSubjob) (class : WorkerClass) : Payload :=
  {| pl_SubjobID := ds_ID row; pl_RepoIndexingJobID := ds_RepoIndexingJobID row;
     pl_OrgID := ds_OrgID row; pl_WorkspaceID := ds_WorkspaceID row; pl_RepoID := ds_RepoID row;
     pl_Branch := ds_Branch row; pl_Revision := ds_Revision row;
     pl_CommitHash := ds_CommitHash row; pl_Layer := ds_Layer row;
     pl_Language := ds_Language row; pl_ProjectRoot := ds_ProjectRoot row;
     pl_Indexer := ds_Indexer row; pl_WorkerClass := ds_WorkerClass row;
     pl_QueueName := wc_QueueName class; pl_Attempt := wrap32 (ds_Attempt row + 1) |}.

(** The class of a row, checked against its queue. *)
Definition row_class (row : DispatchableSubjob) : result gerror WorkerClass :=
  match ByName (ds_WorkerClass row) with
  | None => Err (EText ("subjob " +:+ ds_ID row +:+ " has unknown worker class "
                        +:+ quoted (ds_WorkerClass row)))
  | Some class =>
      if negb (ds_QueueName row =s "") && negb (ds_QueueName row =s wc_QueueName class)
      then Err (EText ("subjob " +:+ ds_ID row +:+ " queue " +:+ quoted (ds_QueueName row)
                       +:+ " does not match worker class " +:+ quoted (ds_WorkerClass row)
                       +:+ " queue " +:+ quoted (wc_QueueName class)))
      else Ok class
  end.

Section Dispatch.
Context {S Q : Type} `{DispatchStore S} `{TaskEnqueuer Q}.

Definition enqueue (row : DispatchableSubjob) (q : Q) : Q * result gerror unit :=
  let nextAttempt := wrap32 (ds_Attempt row + 1) in
  match row_class row with
  | Err e => (q, Err e)
  | Ok class =>
      match Marshal (row_payload row class) with
      | Err e => (q, Err (EWrap ("marshal subjob payload " +:+ ds_ID row +:+ ": ") e ""))
      | Ok payload =>
          match EnqueueContext
                  {| task_type := wc_QueueName class; task_payload := payload;
                     task_queue := wc_QueueName class; task_maxRetry := 0; task_retention := 0;
                     task_id := Some (dispatchTaskID (ds_ID row) nextAttempt);
                     task_unique := None |} q with
          | (q', Err e) => (q', Err (EWrap ("enqueue subjob " +:+ ds_ID row +:+ ": ") e ""))
          | (q', Ok _) => (q', Ok tt)
          end
      end
  end.

Definition enqueueRescue (row : DispatchableSubjob) (q : Q) : Q * result gerror unit :=
  match row_class row with
  | Err e => (q, Err e)
  | Ok class =>
      match Marshal (row_payload row class) with
      | Err e => (q, Err (EWrap ("marshal rescue subjob payload " +:+ ds_ID row +:+ ": ") e ""))
      | Ok payload =>
          match EnqueueContext
                  {| task_type := wc_QueueName class; task_payload := payload;
                     task_queue := wc_QueueName class; task_maxRetry := 0; task_retention := 0;
                     task_id := None; task_unique := Some rescueTaskUniquenessTTL |} q with
          | (q', Err e) => (q', Err (EWrap ("enqueue rescue subjob " +:+ ds_ID row +:+ ": ") e ""))
          | (q', Ok _) => (q', Ok tt)
          end
      end
  end.

Definition already_queued (e : gerror) : bool :=
  err_is ErrTaskIDConflict e || err_is ErrDuplicateTask e.

Definition count_enqueued (s : DispatchStats) : DispatchStats :=
  {| ExpiredRequeued := ExpiredRequeued s;
     TerminalFailuresReconciled := TerminalFailuresReconciled s; Scanned := Scanned s;
     Enqueued := Enqueued s + 1; Duplicates := Duplicates s;
     RescuedDuplicates := RescuedDuplicates s |}.

Definition count_duplicate (s : DispatchStats) : DispatchStats :=
  {| ExpiredRequeued := ExpiredRequeued s;
     TerminalFailuresReconciled := TerminalFailuresReconciled s; Scanned := Scanned s;
     Enqueued := Enqueued s; Duplicates := Duplicates s + 1;
     RescuedDuplicates := RescuedDuplicates s |}.

Definition count_rescued (s : DispatchStats) : DispatchStats :=
  {| ExpiredRequeued := ExpiredRequeued s;
     TerminalFailuresReconciled := TerminalFailuresReconciled s; Scanned := Scanned s;
     Enqueued := Enqueued s; Duplicates := Duplicates s;
     RescuedDuplicates := RescuedDuplicates s + 1 |}.

(** The loop of [DispatchReady]; the error is [None] when it ran to the end. *)
Fixpoint dispatch_rows (rows : list DispatchableSubjob) (stats : DispatchStats) (q : Q)
  : Q * DispatchStats * option gerror :=
  match rows with
  | [] => (q, stats, None)
  | row :: rest =>
      match enqueue row q with
      | (q1, Ok _) => dispatch_rows rest (count_enqueued stats) q1
      | (q1, Err e) =>
          if already_queued e then
            let stats1 := count_duplicate stats in
            match enqueueRescue row q1 with
            | (q2, Ok _) => dispatch_rows rest (count_rescued stats1) q2
            | (q2, Err e2) =>
                if already_queued e2 then dispatch_rows rest stats1 q2
                else (q2, stats1, Some e2)
            end
          else (q1, stats, Some e)
      end
  end.

Definition not_configured : gerror := EText "indexsubjobs: dispatcher not configured".

(** [configured] says that neither the receiver nor its two members is nil. *)
Definition DispatchReady (configured : bool) (limit : Z) (w : S * Q)
  : S * Q * DispatchStats * option gerror :=
  let '(s, q) := w in
  if negb configured then (s, q, zero_stats, Some not_configured)
  else
    match st_ListDispatchable limit s with
    | (s1, Err e) => (s1, q, zero_stats, Some e)
    | (s1, Ok rows) =>
        let stats := {| ExpiredRequeued := 0; TerminalFailuresReconciled := 0;
                        Scanned := Z.of_nat (length rows); Enqueued := 0; Duplicates := 0;
                        RescuedDuplicates := 0 |} in
        let '(q1, stats1, err) := dispatch_rows rows stats q in (s1, q1, stats1, err)
    end.

(** The body that runs under the lock. *)
Definition requeue_and_dispatch (now leaseLimit dispatchLimit : Z) (w : S * Q)
  : S * Q * DispatchStats * option gerror :=
  let '(s, q) := w in
  match st_RequeueExpiredLeases now leaseLimit s with
  | (s1, Err e) => (s1, q, zero_stats, Some e)
  | (s1, Ok expired) =>
      match st_ReconcileTerminalFailures leaseLimit s1 with
      | (s2, Err e) => (s2, q, zero_stats, Some e)
      | (s2, Ok reconciled) =>
          match DispatchReady true dispatchLimit (s2, q) with
          | (s3, q3, stats, Some e) => (s3, q3, stats, Some e)
          | (s3, q3, stats, None) =>
              (s3, q3, {| ExpiredRequeued := expired;
                          TerminalFailuresReconciled := reconciled; Scanned := Scanned stats;
                          Enqueued := Enqueued stats; Duplicates := Duplicates stats;
                          RescuedDuplicates := RescuedDuplicates stats |}, None)
          end
      end
  end.

(** [owner] is [dispatchOwner now]; the lease is [now.Add(30*time.Second)] and the
    deferred release runs on every path after the lock was acquired. *)
Definition RequeueExpiredAndDispatch (configured : bool) (owner : string)
    (now leaseLimit dispatchLimit : Z) (w : S * Q) : S * Q * DispatchStats * option gerror :=
  let '(s, q) := w in
  if negb configured then (s, q, zero_stats, Some not_configured)
  else
    match st_TryAcquireDispatchLock owner (now + 30000) s with
    | (s1, Err e) => (s1, q, zero_stats, Some e)
    | (s1, Ok false) => (s1, q, zero_stats, None)
    | (s1, Ok true) =>
        let '(s2, q2, stats, err) := requeue_and_dispatch now leaseLimit dispatchLimit (s1, q) in
        let '(s3, _) := st_ReleaseDispatchLock owner s2 in
        (s3, q2, stats, err)
    end.
End Dispatch.

(** ** The store as an instance *)

(** What the environment answers during one run: the fault and the database
    clock of each call, and the lock oracles of the sweeps. *)
Record CallEnv : Type := {
  env_acquire : option gerror * Z;
  env_requeue : option gerror * Z;
  env_reconcile : option gerror * Z;
  env_list : option gerror;
  env_release : option gerror;
  env_locked : string -> bool;
  env_skip_wins : string -> bool
}.

#[export] Instance db_store (env : CallEnv) : DispatchStore DB := {
  st_ListDispatchable limit db := ListDispatchable (env_list env) limit db;
  st_RequeueExpiredLeases at_ limit db :=
    RequeueExpiredLeases (env_requeue env).1 (env_locked env) (env_requeue env).2 at_ limit db;
  st_ReconcileTerminalFailures limit db :=
    ReconcileTerminalFailures (env_reconcile env).1 (env_locked env) (env_skip_wins env)
      (env_reconcile env).2 limit db;
  st_TryAcquireDispatchLock owner until db :=
    TryAcquireDispatchLock (env_acquire env).1 (env_acquire env).2 owner until db;
  st_ReleaseDispatchLock owner db := ReleaseDispatchLock (env_release env) owner db
}.
