(* ===== verification/DispatcherFacts.v ===== *)
(** Correctness of the dispatcher against its interfaces: the messages it queues
    can be claimed, its lock is released, its counters add up. *)
From Stdlib Require Import Ascii DecimalString DecimalZ.
From S2P Require Import Prelude GoStd GoStdFacts GoJSON GoJSONFacts WorkerClasses SubjobTypes SubjobStore SubjobTask.
From S2P Require Import SubjobCodec SubjobSystem SubjobInvariants SubjobFacts Dispatcher.
(** ** Rows that come from a validated input *)

Definition created_from (id : string) (r : Subjob) : Prop :=
  exists now c ws, ci_ID c = id /\ validate_create c = Some ws /\
    sj_scope r = sj_scope (new_subjob now c ws StatusQueued "" "" None).

Definition created_table (m : gmap string Subjob) : Prop := map_Forall created_from m.

Lemma table_step_created who m m' : created_table m -> table_step who m m' -> created_table m'.
Proof.
  intros Hm [Hold Hnew] id r' Hr'. destruct (m !! id) as [r|] eqn:Hr.
  - destruct (Hold id r Hr) as (x & Hx & Hstep). rewrite Hr' in Hx. injection Hx as <-.
    destruct Hstep as [->|[Hs _]]; [by apply (Hm id)|].
    unfold created_from. rewrite Hs. by apply (Hm id).
  - destruct (Hnew _ _ Hr' Hr) as (now & c & ws & st & code & msg & comp & -> & Hid & Hv & _).
    by exists now, c, ws.
Qed.

Lemma run_ops_created os db :
  created_table (db_subjobs db) -> created_table (db_subjobs (run_ops os db)).
Proof.
  revert db. apply (run_ops_ind (fun a b => created_table (db_subjobs a) -> created_table (db_subjobs b)));
    [done|auto|].
  intros o db Hw. eapply table_step_created; [done|apply run_op_table].
Qed.

(** The facts [validate_create] establishes. *)
Record valid_scope (id : string) (s : SubjobScope) : Prop := {
  vs_id : id <> ""; vs_job : sc_repoIndexingJobId s <> ""; vs_org : 0 < sc_orgId s;
  vs_repo : 0 < sc_repoId s; vs_ws : sc_workspaceId s <> ""; vs_branch : sc_branch s <> "";
  vs_rev : sc_revision s <> ""; vs_hash : sc_commitHash s <> ""; vs_layer : sc_layer s <> "";
  vs_class : sc_workerClass s <> ""; vs_queue : sc_queueName s <> "";
  vs_commit : commitHashPattern (sc_commitHash s) = true;
  vs_known : validLayer (sc_layer s) = true;
  vs_byname : exists c, ByName (sc_workerClass s) = Some c /\ wc_QueueName c = sc_queueName s;
  vs_project :
    if sc_layer s =s LayerSCIP then
      exists l r i, sc_language s = Some l /\ sc_projectRoot s = Some r /\ sc_indexer s = Some i
        /\ l <> "" /\ i <> "" /\ safeProjectRoot r = true
    else sc_language s = None /\ sc_projectRoot s = None /\ sc_indexer s = None
}.

Lemma created_valid id r : created_from id r -> valid_scope id (sj_scope r).
Proof.
  intros (now & c & ws & <- & Hv & Hs). rewrite Hs. clear r Hs. revert Hv. unfold validate_create.
  destruct (ci_WorkspaceID c) as [w|]; [|done].
  do 4 (match goal with |- (if ?b then _ else _) = _ -> _ => destruct b eqn:?; [done|] end).
  repeat match goal with
  | H : negb _ = false |- _ => apply negb_false_iff in H
  | H : (_ || _) = false |- _ => apply orb_false_iff in H as [? ?]
  | H : (_ =s _) = false |- _ => apply str_eqb_false in H
  end.
  destruct (ByName (ci_WorkerClass c)) as [class|] eqn:Eb; [|done].
  destruct (ci_Layer c =s LayerSCIP) eqn:El.
  - destruct (ci_Language c) as [l|] eqn:E1, (ci_ProjectRoot c) as [p|] eqn:E2,
      (ci_Indexer c) as [i|] eqn:E3; try done.
    destruct (_ || _) eqn:Ei; [done|]. intros [= ->].
    repeat match goal with
    | H : (_ || _) = false |- _ => apply orb_false_iff in H as [? ?]
    | H : (_ =s _) = false |- _ => apply str_eqb_false in H
    | H : negb _ = false |- _ => apply negb_false_iff in H
    end.
    split; simpl; try done; try lia.
    + exists class. split; [done|]. by apply str_eqb_spec.
    + rewrite El, E1, E2, E3. by exists l, p, i.
  - destruct (ci_Language c) as [l|] eqn:E1, (ci_ProjectRoot c) as [p|] eqn:E2,
      (ci_Indexer c) as [i|] eqn:E3; try done. intros [= ->].
    split; simpl; try done; try lia.
    + exists class. split; [done|]. by apply str_eqb_spec.
    + by rewrite El, E1, E2, E3.
Qed.

(** ** Messages *)

Lemma row_class_valid id r :
  valid_scope id (sj_scope r) ->
  exists class, row_class (to_dispatchable (id, r)) = Ok class /\
    ByName (sc_workerClass (sj_scope r)) = Some class /\
    wc_QueueName class = sc_queueName (sj_scope r).
Proof.
  intros Hv. destruct (vs_byname _ _ Hv) as (c & Hc & Hq). exists c.
  unfold row_class. simpl. rewrite Hc, Hq, str_eqb_refl. simpl. by rewrite andb_false_r.
Qed.

Lemma row_payload_valid id r class :
  valid_scope id (sj_scope r) -> ByName (sc_workerClass (sj_scope r)) = Some class ->
  wc_QueueName class = sc_queueName (sj_scope r) ->
  Validate (row_payload (to_dispatchable (id, r)) class) = None.
Proof.
  intros [] Hc Hq. unfold Validate. simpl. rewrite Hc, Hq, str_eqb_refl, vs_commit0.
  change (Layer_Valid (sc_layer (sj_scope r))) with (validLayer (sc_layer (sj_scope r))).
  rewrite vs_known0.
  repeat match goal with
  | H : ?s <> "" |- _ => apply str_eqb_false in H; rewrite H; clear H
  end.
  replace (sc_orgId (sj_scope r) <=? 0) with false by lia.
  replace (sc_repoId (sj_scope r) <=? 0) with false by lia. simpl.
  destruct (sc_layer (sj_scope r) =s LayerSCIP).
  - destruct vs_project0 as (l & p & i & -> & -> & -> & Hl & Hi & _).
    apply str_eqb_false in Hl, Hi. by rewrite Hl, Hi.
  - by destruct vs_project0 as (-> & -> & ->).
Qed.

(** A message built from a ready row wins its claim. *)
Lemma ready_claimable db id r class f now owner att until :
  f = None -> owner <> "" -> att <> "" -> valid_scope id (sj_scope r) -> ready db (id, r) ->
  0 <= run_attempt (sj_run r) -> sc_maxAttempts (sj_scope r) < 2 ^ 31 ->
  ByName (sc_workerClass (sj_scope r)) = Some class ->
  wc_QueueName class = sc_queueName (sj_scope r) ->
  (ClaimScoped f now (toClaimScope (row_payload (to_dispatchable (id, r)) class))
     owner att until db).2 = Ok true.
Proof.
  intros -> Ho Ha Hv (Hr & Hw & Hlt & Hact & _) Hn Hmax Hc Hq. cbn [fst snd] in *.
  set (c := toClaimScope _). unfold ClaimScoped.
  assert (wrap32 (run_attempt (sj_run r) + 1) = run_attempt (sj_run r) + 1) as Ew
    by (apply wrap32_id; lia).
  assert (claim_scope_valid c = true) as ->.
  { destruct Hv. unfold claim_scope_valid, c. simpl. rewrite Ew, Hq.
    repeat match goal with
    | H : ?s <> "" |- _ => apply str_eqb_false in H; rewrite H; clear H
    end.
    replace (sc_orgId (sj_scope r) <=? 0) with false by lia.
    replace (sc_repoId (sj_scope r) <=? 0) with false by lia. simpl.
    replace (run_attempt (sj_run r) + 1 <=? 0) with false by lia. done. }
  unfold c at 1. simpl. rewrite Hc, str_eqb_refl. simpl.
  apply str_eqb_false in Ho, Ha. rewrite Ho, Ha. simpl.
  unfold update_row. rewrite Hr.
  assert (claim_guard now c db r = true) as ->; [|done].
  unfold claim_guard, c, scope_matches. simpl. rewrite Hq, Ew, !str_eqb_refl, !Z.eqb_refl.
  rewrite bool_decide_eq_true_2 by done. simpl. rewrite Hw, orb_true_r.
  unfold row_job_active in Hact. rewrite Hact.
  replace (run_attempt (sj_run r) + 1 - 1) with (run_attempt (sj_run r)) by lia.
  rewrite wrap32_id, Z.eqb_refl by lia.
  replace (run_attempt (sj_run r) <? _) with true by lia.
  by destruct (sj_status r).
Qed.

(** ** The documented behaviour of the queue client *)

(** [queued] lists the tasks a queue has accepted; a call either appends its task
    or returns an error and appends nothing. *)
Class EnqueuerLaws (Q : Type) `{TaskEnqueuer Q} : Type := {
  queued : Q -> list Task;
  queued_accept : forall t q q' u, EnqueueContext t q = (q', Ok u) -> queued q' = queued q ++ [t];
  queued_reject : forall t q q' e, EnqueueContext t q = (q', Err e) -> queued q' = queued q
}.

(** A queue in memory: a task id or a unique payload already present is refused. *)
#[export] Instance mem_queue : TaskEnqueuer (list Task) := {
  EnqueueContext t q :=
    match task_id t with
    | Some i =>
        if existsb (fun x => bool_decide (task_id x = Some i) && (task_queue x =s task_queue t)) q
        then (q, Err (ESentinel ErrTaskIDConflict)) else (q ++ [t], Ok tt)
    | None =>
        if existsb (fun x => bool_decide (task_unique x <> None) && (task_payload x =s task_payload t)
                             && (task_queue x =s task_queue t)) q
        then (q, Err (ESentinel ErrDuplicateTask)) else (q ++ [t], Ok tt)
    end
}.

Lemma mem_accept t (q q' : list Task) u : EnqueueContext t q = (q', Ok u) -> q' = q ++ [t].
Proof. simpl. destruct (task_id t); destruct (existsb _ _); by intros [= <- _]. Qed.

Lemma mem_reject t (q q' : list Task) e : EnqueueContext t q = (q', Err e) -> q' = q.
Proof. simpl. destruct (task_id t); destruct (existsb _ _); by intros [= <- _]. Qed.

#[export] Instance mem_queue_laws : EnqueuerLaws (list Task) := {
  queued q := q; queued_accept := mem_accept; queued_reject := mem_reject
}.

(** A task that carries the message of a row. *)
Definition message_for (row : DispatchableSubjob) (t : Task) : Prop :=
  exists class, row_class row = Ok class /\
    Marshal (row_payload row class) = Ok (task_payload t) /\
    task_queue t = wc_QueueName class /\ task_type t = wc_QueueName class /\
    task_maxRetry t = 0.

Section Queue.
Context {Q : Type} `{EnqueuerLaws Q}.

Lemma enqueue_queued row q q' res :
  enqueue row q = (q', res) ->
  match res with
  | Ok _ => exists t, queued q' = queued q ++ [t] /\ message_for row t /\
      task_id t = Some (dispatchTaskID (ds_ID row) (wrap32 (ds_Attempt row + 1)))
  | Err _ => queued q' = queued q
  end.
Proof.
  unfold enqueue. cbn zeta. destruct (row_class row) as [class|] eqn:Ec; [|by intros [= <- <-]].
  destruct (Marshal _) as [raw|] eqn:Em; [|by intros [= <- <-]].
  destruct (EnqueueContext _ q) as [q1 [u|e]] eqn:Ee; intros [= <- <-].
  - apply queued_accept in Ee. eexists. split; [done|]. split; [|done]. by exists class.
  - by apply queued_reject in Ee.
Qed.

Lemma enqueueRescue_queued row q q' res :
  enqueueRescue row q = (q', res) ->
  match res with
  | Ok _ => exists t, queued q' = queued q ++ [t] /\ message_for row t /\ task_id t = None
  | Err _ => queued q' = queued q
  end.
Proof.
  unfold enqueueRescue. destruct (row_class row) as [class|] eqn:Ec; [|by intros [= <- <-]].
  destruct (Marshal _) as [raw|] eqn:Em; [|by intros [= <- <-]].
  destruct (EnqueueContext _ q) as [q1 [u|e]] eqn:Ee; intros [= <- <-].
  - apply queued_accept in Ee. eexists. split; [done|]. split; [|done]. by exists class.
  - by apply queued_reject in Ee.
Qed.

(** What the loop adds to the queue and to the counters. *)
Definition added (rows : list DispatchableSubjob) (stats stats' : DispatchStats)
    (q q' : Q) (err : option gerror) : Prop :=
  exists ts, queued q' = queued q ++ ts /\
    Forall (fun t => exists row, row ∈ rows /\ message_for row t) ts /\
    Z.of_nat (length ts) = (Enqueued stats' - Enqueued stats)
      + (RescuedDuplicates stats' - RescuedDuplicates stats) /\
    0 <= RescuedDuplicates stats' - RescuedDuplicates stats
      <= Duplicates stats' - Duplicates stats /\
    Scanned stats' = Scanned stats /\
    (err = None -> (Enqueued stats' - Enqueued stats) + (Duplicates stats' - Duplicates stats)
                   = Z.of_nat (length rows)).

Lemma added_nil stats q : added [] stats stats q q None.
Proof. exists []. rewrite app_nil_r. simpl. repeat split; try constructor; lia. Qed.

(** One more row in front: it queued [ts0] and moved the counters. *)
Lemma added_cons row rows stats stats1 stats' q q1 q' err ts0 :
  queued q1 = queued q ++ ts0 -> Forall (message_for row) ts0 ->
  Z.of_nat (length ts0) = (Enqueued stats1 - Enqueued stats)
      + (RescuedDuplicates stats1 - RescuedDuplicates stats) ->
  0 <= RescuedDuplicates stats1 - RescuedDuplicates stats
      <= Duplicates stats1 - Duplicates stats ->
  Scanned stats1 = Scanned stats ->
  (Enqueued stats1 - Enqueued stats) + (Duplicates stats1 - Duplicates stats) = 1 ->
  added rows stats1 stats' q1 q' err -> added (row :: rows) stats stats' q q' err.
Proof.
  intros Hq Hf Hl Hd Hs He (ts & Hq' & Hf' & Hl' & Hd' & Hs' & He').
  exists (ts0 ++ ts). rewrite Hq', Hq, app_assoc, length_app. split; [done|].
  split; [|repeat split; try lia; intros E; specialize (He' E); simpl; lia].
  apply Forall_app. split.
  - eapply Forall_impl; [exact Hf|]. intros t Ht. exists row. split; [left|done].
  - eapply Forall_impl; [exact Hf'|]. intros t (x & Hx & Ht). exists x. split; [by right|done].
Qed.

(** The loop stopped at the first row. *)
Lemma added_stop row rows stats stats' q q' e :
  queued q' = queued q -> Scanned stats' = Scanned stats -> Enqueued stats' = Enqueued stats ->
  RescuedDuplicates stats' = RescuedDuplicates stats -> Duplicates stats <= Duplicates stats' ->
  added (row :: rows) stats stats' q q' (Some e).
Proof.
  intros Hq Hs He Hr Hd. exists []. rewrite app_nil_r. simpl.
  repeat split; try constructor; try done; lia.
Qed.

Lemma dispatch_rows_added rows stats q q' stats' err :
  dispatch_rows rows stats q = (q', stats', err) -> added rows stats stats' q q' err.
Proof.
  revert stats q. induction rows as [|row rows IH]; intros stats q; simpl.
  { intros [= <- <- <-]. apply added_nil. }
  destruct (enqueue row q) as [q1 [u|e]] eqn:E1; apply enqueue_queued in E1.
  - destruct E1 as (t & Hq & Ht & _). intros Hd%IH.
    eapply (added_cons _ _ _ _ _ _ _ _ _ [t]); [exact Hq| | | | | |exact Hd];
      simpl; try lia. by constructor.
  - destruct (already_queued e) eqn:Ea; cycle 1.
    { intros [= <- <- <-]. by apply added_stop. }
    destruct (enqueueRescue row q1) as [q2 [u|e2]] eqn:E2; apply enqueueRescue_queued in E2.
    + destruct E2 as (t & Hq & Ht & _). intros Hd%IH.
      eapply (added_cons _ _ _ _ _ _ _ _ _ [t]); [by rewrite Hq, E1| | | | | |exact Hd];
        simpl; try lia. by constructor.
    + destruct (already_queued e2); cycle 1.
      { intros [= <- <- <-]. apply added_stop; simpl; try done; [congruence|lia]. }
      intros Hd%IH. eapply (added_cons _ _ _ _ _ _ _ _ _ []); [|constructor| | | | |exact Hd];
        simpl; try lia. rewrite app_nil_r. congruence.
Qed.
End Queue.

(** ** End to end *)

(** The column types of the table: text is UTF-8, integers are 32 bits wide. *)
Definition column_types (id : string) (r : Subjob) : Prop :=
  let s := sj_scope r in
  forallb valid_utf8
    [id; sc_repoIndexingJobId s; sc_workspaceId s; sc_branch s; sc_revision s; sc_commitHash s;
     sc_layer s; coalesce "" (sc_language s); coalesce "" (sc_projectRoot s);
     coalesce "" (sc_indexer s); sc_workerClass s; sc_queueName s] = true /\
  sc_orgId s < 2 ^ 31 /\ sc_repoId s < 2 ^ 31 /\ sc_maxAttempts s < 2 ^ 31.

Definition typed_table (m : gmap string Subjob) : Prop := map_Forall column_types m.

Lemma row_payload_encodable id r class :
  valid_scope id (sj_scope r) -> wf_row r -> column_types id r ->
  run_attempt (sj_run r) < sc_maxAttempts (sj_scope r) ->
  wc_QueueName class = sc_queueName (sj_scope r) ->
  encodable (row_payload (to_dispatchable (id, r)) class).
Proof.
  intros Hv Hw (Hu & Ho & Hp & Hm) Hlt Hq. pose proof (wf_attempt _ Hw).
  pose proof (vs_org _ _ Hv). pose proof (vs_repo _ _ Hv). simpl in Hu.
  repeat match goal with H : (_ && _) = true |- _ => apply andb_prop in H as [? ?] end.
  split; [|simpl; rewrite wrap32_id by lia; lia].
  unfold payload_fields, omitempty. simpl. rewrite Hq.
  destruct (sc_language (sj_scope r)), (sc_projectRoot (sj_scope r)), (sc_indexer (sj_scope r));
    simpl in *; repeat (apply andb_true_intro; split); done.
Qed.

Lemma ready_message db id r t :
  valid_scope id (sj_scope r) -> wf_row r -> column_types id r -> ready db (id, r) ->
  message_for (to_dispatchable (id, r)) t ->
  exists p, Unmarshal (task_payload t) = Ok p /\ task_queue t = pl_QueueName p /\
    pl_SubjobID p = id /\ pl_Attempt p = run_attempt (sj_run r) + 1 /\
    forall now owner att until, owner <> "" -> att <> "" ->
      (ClaimScoped None now (toClaimScope p) owner att until db).2 = Ok true.
Proof.
  intros Hv Hw Ht Hr (class & Hc & Hm & Hq & _ & _).
  destruct (row_class_valid id r Hv) as (class' & Hc' & Hby & Hqn).
  rewrite Hc in Hc'. injection Hc' as <-.
  pose proof (wf_attempt _ Hw) as Hat. destruct Ht as (Ht1 & Ht2 & Ht3 & Ht4).
  assert (run_attempt (sj_run r) < sc_maxAttempts (sj_scope r)) as Hlt by (by destruct Hr as (_ & _ & ? & _)).
  pose proof (row_payload_valid id r class Hv Hby Hqn) as Hval.
  assert (encodable (row_payload (to_dispatchable (id, r)) class)) as (E1 & E2 & E3 & E4)
    by (by apply row_payload_encodable).
  exists (row_payload (to_dispatchable (id, r)) class).
  unfold Marshal in Hm. rewrite Hval in Hm. injection Hm as <-.
  split; [|split; [done|split; [done|split]]].
  - unfold Unmarshal, json_Unmarshal. rewrite struct_text_parse by (done || by apply payload_keys_utf8).
    rewrite set_fields_payload by done. by rewrite Hval.
  - simpl. rewrite wrap32_id; lia.
  - intros now owner att until Ho Ha. apply ready_claimable; auto; lia.
Qed.

(** C5: dispatch, end to end. Every message [DispatchReady] puts on a queue, first
    delivery or rescue, is decoded by the executor, names the queue it is on
    and the next attempt of a ready subjob, and the executor's claim for it is
    won on the database the dispatcher saw; the dispatcher itself does not
    change the database, and its counters account for every message and, when
    it ran to the end, for every selected row. *)
Theorem dispatch_end_to_end {Q} `{EnqueuerLaws Q} env limit db q db' q' stats err :
  wf_table (db_subjobs db) -> created_table (db_subjobs db) -> typed_table (db_subjobs db) ->
  DispatchReady (H := db_store env) true limit (db, q) = (db', q', stats, err) ->
  db' = db /\ exists ts, queued q' = queued q ++ ts /\
    Z.of_nat (length ts) = Enqueued stats + RescuedDuplicates stats /\
    (err = None -> Enqueued stats + Duplicates stats = Scanned stats) /\
    Forall (fun t => exists p r, Unmarshal (task_payload t) = Ok p /\
      task_queue t = pl_QueueName p /\ db_subjobs db !! pl_SubjobID p = Some r /\
      waiting (sj_status r) = true /\ pl_Attempt p = run_attempt (sj_run r) + 1 /\
      forall now owner att until, owner <> "" -> att <> "" ->
        (ClaimScoped None now (toClaimScope p) owner att until db).2 = Ok true) ts.
Proof.
  intros Hw Hc Ht. unfold DispatchReady. simpl.
  destruct (ListDispatchable (env_list env) limit db) as [db1 [ds|e]] eqn:El; cycle 1.
  { intros [= <- <- <- <-]. split.
    - unfold ListDispatchable in El. destruct (_ <=? _); [by injection El|].
      unfold exec in El. destruct (env_list env); by injection El.
    - exists []. rewrite app_nil_r. repeat split; constructor. }
  apply ListDispatchable_Ok in El as (_ & -> & ->).
  destruct (dispatch_rows _ _ q) as [[q1 stats1] err1] eqn:Ed. intros [= <- <- <- <-].
  split; [done|]. apply dispatch_rows_added in Ed as (ts & Hq & Hf & Hl & _ & Hs & He).
  simpl in *. exists ts. split; [done|]. split; [lia|]. split; [intros E; specialize (He E); lia|].
  eapply Forall_impl; [exact Hf|]. intros t (row & Hrow & Hmsg).
  apply list_elem_of_fmap in Hrow as ([id r] & -> & [Hr Hd]%elem_of_list_dispatchable).
  pose proof (dispatchable_ready db id r Hr Hd) as Hready.
  destruct (ready_message db id r t) as (p & Hp & Hq' & <- & Ha & Hclaim);
    [apply created_valid; by apply (Hc id)|by apply (Hw id)|by apply (Ht id)|done|done|].
  exists p, r. destruct Hready as (_ & Hwt & _). by repeat split.
Qed.

(** ** The lock *)

(** The store's state along one run is a trace of its statements. *)
Lemma requeue_and_dispatch_trace {Q} `{TaskEnqueuer Q} env now l1 l2 db q db' q' stats err :
  requeue_and_dispatch (H := db_store env) now l1 l2 (db, q) = (db', q', stats, err) ->
  exists os, db' = run_ops os db.
Proof.
  unfold requeue_and_dispatch. cbn [st_RequeueExpiredLeases db_store].
  set (o1 := OpRequeueExpired (env_requeue env).1 (env_locked env) (env_requeue env).2 now l1).
  destruct (RequeueExpiredLeases _ _ _ _ _ db) as [db1 r1] eqn:E1.
  assert (H1 : db1 = run_op o1 db) by (simpl; by rewrite E1).
  destruct r1 as [n1|e]; [|intros [= <- <- <- <-]; by exists [o1]].
  cbn [st_ReconcileTerminalFailures db_store].
  set (o2 := OpReconcile (env_reconcile env).1 (env_locked env) (env_skip_wins env)
               (env_reconcile env).2 l1).
  destruct (ReconcileTerminalFailures _ _ _ _ _ db1) as [db2 r2] eqn:E2.
  assert (H2 : db2 = run_op o2 db1) by (simpl; by rewrite E2).
  destruct r2 as [n2|e]; [|intros [= <- <- <- <-]; subst; by exists [o1; o2]].
  intros Hd. assert (db' = db2) as ->; [|subst; by exists [o1; o2]].
  revert Hd. unfold DispatchReady. cbn [negb st_ListDispatchable db_store].
  assert (forall x, (ListDispatchable (env_list env) l2 x).1 = x) as Hl.
  { intros x. unfold ListDispatchable. destruct (_ <=? _); [done|].
    unfold exec. by destruct (env_list env). }
  specialize (Hl db2). destruct (ListDispatchable _ _ db2) as [db3 [ds|e]]; simpl in Hl; subst.
  - destruct (dispatch_rows _ _ _) as [[q3 s3] [e|]]; by intros [= <- _ _ _].
  - by intros [= <- _ _ _].
Qed.

(** Dispatchers do not overlap, and a run stays inside the store's contract.
    While another dispatcher holds the lock, a run changes neither the database
    nor the queue and reports nothing; otherwise its effect on the database is a
    sequence of store statements, so the invariants of the subjob table hold for
    it. *)
Theorem dispatcher_run_contract {Q} `{TaskEnqueuer Q} env owner now l1 l2 db q
    db' q' stats err :
  RequeueExpiredAndDispatch (H := db_store env) true owner now l1 l2 (db, q)
    = (db', q', stats, err) ->
  (exists os, db' = run_ops os db) /\
  (forall other t, lock_held other t db -> (env_acquire env).2 <= t -> owner <> other ->
     db' = db /\ q' = q /\ stats = zero_stats).
Proof.
  unfold RequeueExpiredAndDispatch. cbn [negb st_TryAcquireDispatchLock db_store].
  set (o1 := OpTryAcquire (env_acquire env).1 (env_acquire env).2 owner (now + 30000)).
  destruct (TryAcquireDispatchLock _ _ owner _ db) as [db1 r1] eqn:Ea.
  assert (H1 : db1 = run_op o1 db) by (simpl; by rewrite Ea).
  assert (Hblock : forall other t, lock_held other t db -> (env_acquire env).2 <= t ->
    owner <> other -> db1 = db /\ r1 <> Ok true).
  { intros other t Hh Hle Hne. pose proof (TryAcquire_blocked (env_acquire env).1
      (env_acquire env).2 owner (now + 30000) other t db Hh Hle Hne) as [E1 E2].
    rewrite Ea in E1, E2. by simpl in E1, E2. }
  destruct r1 as [[]|e].
  - destruct (requeue_and_dispatch _ _ _ (db1, q)) as [[[db2 q2] st2] err2] eqn:Er.
    apply requeue_and_dispatch_trace in Er as (os & ->).
    cbn [st_ReleaseDispatchLock db_store].
    destruct (ReleaseDispatchLock _ owner _) as [db3 r3] eqn:E3. intros [= <- <- <- <-].
    split.
    + exists (o1 :: os ++ [OpRelease (env_release env) owner]).
      change (o1 :: os ++ [OpRelease (env_release env) owner])
        with ([o1] ++ os ++ [OpRelease (env_release env) owner]).
      rewrite !run_ops_app. change (run_ops [o1] db) with (run_op o1 db). rewrite <- H1.
      change (db3 = (ReleaseDispatchLock (env_release env) owner (run_ops os db1)).1).
      by rewrite E3.
    + intros other t Hh Hle Hne. by destruct (Hblock other t Hh Hle Hne) as [_ []].
  - intros [= <- <- <- <-]. split; [by exists [o1]|].
    intros other t Hh Hle Hne. by destruct (Hblock other t Hh Hle Hne) as [-> _].
  - intros [= <- <- <- <-]. split; [by exists [o1]|].
    intros other t Hh Hle Hne. by destruct (Hblock other t Hh Hle Hne) as [-> _].
Qed.

(** The dispatch lock is always given back. A run of
    [RequeueExpiredAndDispatch] under a fresh owner name leaves no lock of that
    owner behind, on every path (lock busy, failed sweep, failed query, failed
    enqueue, success), provided the release statement itself reaches the
    database. *)
Theorem dispatcher_releases_lock {Q} `{TaskEnqueuer Q} env host nanos nonce now l1 l2 db q
    db' q' stats err :
  let owner := dispatchOwner host nanos nonce in
  env_release env = None ->
  (forall l, db_lock db = Some l -> lock_owner l <> owner) ->
  RequeueExpiredAndDispatch (H := db_store env) true owner now l1 l2 (db, q)
    = (db', q', stats, err) ->
  forall l, db_lock db' = Some l -> lock_owner l <> owner.
Proof.
  intros owner Hrel Hfresh.
  assert (Hne : (owner =s "") = false) by (unfold owner, dispatchOwner; by destruct nonce).
  unfold RequeueExpiredAndDispatch. cbn [negb st_TryAcquireDispatchLock db_store].
  destruct (TryAcquireDispatchLock _ _ owner _ db) as [db1 [[]|e]] eqn:Ea.
  - destruct (requeue_and_dispatch _ _ _ (db1, q)) as [[[db2 q2] st2] err2] eqn:Er.
    cbn [st_ReleaseDispatchLock db_store]. rewrite Hrel.
    destruct (ReleaseDispatchLock None owner db2) as [db3 r3] eqn:E3.
    intros [= <- <- <- <-] l Hl Ho. unfold ReleaseDispatchLock in E3. rewrite Hne in E3.
    cbn in E3. destruct (db_lock db2) as [l2'|] eqn:El2; [|injection E3 as <- _; congruence].
    destruct (lock_owner l2' =s owner) eqn:E; injection E3 as <- _; [done|].
    apply str_eqb_false in E. congruence.
  - intros [= <- <- <- <-]. unfold TryAcquireDispatchLock in Ea. rewrite Hne in Ea. cbn in Ea.
    unfold exec in Ea. destruct (env_acquire env).1; [done|].
    destruct (db_lock db) as [l0|] eqn:El; [destruct (_ || _)|]; try done.
    injection Ea as <-. intros l Hl. rewrite El in Hl. injection Hl as <-. by apply Hfresh.
  - intros [= <- <- <- <-]. unfold TryAcquireDispatchLock in Ea. rewrite Hne in Ea. cbn in Ea.
    unfold exec in Ea. destruct (env_acquire env).1; [by injection Ea as <- _|].
    destruct (db_lock db) as [l0|]; [destruct (_ || _)|]; done.
Qed.

(** ** Task ids *)

Definition colon : ascii := chr 58.

Lemma Itoa_no_colon z : colon ∉ String.list_ascii_of_string (Itoa z).
Proof. by apply Itoa_avoids. Qed.

(** Task ids identify the subjob and the attempt: two dispatches use the same
    queue task id only for the same attempt of the same subjob, so the queue's
    id check refuses exactly the repeated deliveries. *)
Theorem dispatchTaskID_inj s1 n1 s2 n2 :
  dispatchTaskID s1 n1 = dispatchTaskID s2 n2 -> s1 = s2 /\ n1 = n2.
Proof.
  unfold dispatchTaskID. intros E%str_app_inv_head.
  apply (f_equal String.list_ascii_of_string) in E.
  rewrite !list_of_str_app in E. simpl in E.
  apply last_split in E as [E1 E2]; try apply Itoa_no_colon.
  split; [|apply Itoa_inj]; apply (f_equal String.string_of_list_ascii) in E1, E2;
    rewrite !String.string_of_list_ascii_of_string in *; done.
Qed.
