(* ===== verification/Planner.v ===== *)
(** The index planner, src/internal/backend/indexplanner/planner.go: it expands an
    indexing job into subjobs with stable identifiers and queues them. *)
From Stdlib Require Import Ascii.
From S2P Require Import Prelude GoStd GoStdFacts GoJSON Sha256 WorkerClasses SubjobTypes SubjobStore.
(** ** Data *)

Record SCIPProject : Type := {
  sp_Language : string;
  sp_ProjectRoot : string;
  sp_Indexer : string;
  sp_SCIPWorkerClass : string;
  sp_ToolchainDigest : option string;
  sp_ImageDigest : option string;
  sp_ProjectInputHash : option string
}.

Record Revision : Type := {
  rv_WorkspaceID : option string;
  rv_Branch : string;
  rv_Revision : string;
  rv_CommitHash : string;
  rv_RunClone : bool;
  rv_RunZoekt : bool;
  rv_RunASTTreeSitter : bool;
  rv_RunGraphMerge : bool;
  rv_RunActivate : bool;
  rv_SCIPProjects : list SCIPProject
}.

Record Input : Type := {
  in_RepoIndexingJobID : string;
  in_OrgID : Z;
  in_RepoID : Z;
  in_MaxAttempts : Z;
  in_Revisions : list Revision
}.

Definition ErrInvalidPlan : gerror := ESentinel "indexplanner: invalid plan".

(** ** Identifiers *)

Definition stringPtrValue (value : option string) : string := coalesce "" value.

Definition NUL : ascii := chr 0.

(** What [digest] writes into the hash: every part and a zero byte. *)
Definition digest_input (parts : list string) : string :=
  foldr (fun part rest => part +:+ String NUL rest) "" parts.

Definition digest (parts : list string) : string := sha256_hex (digest_input parts).

Definition stableID_parts (i : Input) (rev : Revision)
    (layer workerClass language projectRoot indexer : string) : list string :=
  ["subjob"; in_RepoIndexingJobID i; Itoa (in_OrgID i); stringPtrValue (rv_WorkspaceID rev);
   Itoa (in_RepoID i); rv_Branch rev; rv_Revision rev; rv_CommitHash rev; layer; workerClass;
   language; projectRoot; indexer].

Definition stableID (i : Input) (rev : Revision)
    (layer workerClass language projectRoot indexer : string) : string :=
  let sum := digest (stableID_parts i rev layer workerClass language projectRoot indexer) in
  "isj_" +:+ String.substring 0 32 sum.

(** ** Project roots *)

Definition NormalizeProjectRoot (root0 : string) : string * bool :=
  let root := TrimSpace root0 in
  if root =s "." then ("", true)
  else if root =s "" then ("", true)
  else if HasPrefix root "/" || HasPrefix root "\" || Contains root "\" then ("", false)
  else
    let clean := Clean root in
    if (clean =s ".") || (clean =s "") then ("", true)
    else if negb (clean =s root) || (clean =s "..") || HasPrefix clean "../"
            || Contains clean "/../" then ("", false)
    else (TrimSlash clean, true).

Definition TrimProjectRoot (root : string) : string := (NormalizeProjectRoot root).1.

(** ** Subjobs *)

Definition coreSubjob (i : Input) (rev : Revision) (layer : string) (class : WorkerClass)
  : CreateInput :=
  let inputDigest :=
    digest ["input"; in_RepoIndexingJobID i; stringPtrValue (rv_WorkspaceID rev); rv_Branch rev;
            rv_Revision rev; rv_CommitHash rev; layer; wc_Name class] in
  {| ci_ID := stableID i rev layer (wc_Name class) "" "" "";
     ci_RepoIndexingJobID := in_RepoIndexingJobID i; ci_CodeIntelIndexID := None;
     ci_OrgID := in_OrgID i; ci_WorkspaceID := rv_WorkspaceID rev; ci_RepoID := in_RepoID i;
     ci_Branch := rv_Branch rev; ci_Revision := rv_Revision rev;
     ci_CommitHash := rv_CommitHash rev; ci_Layer := layer; ci_Language := None;
     ci_ProjectRoot := None; ci_Indexer := None; ci_WorkerClass := wc_Name class;
     ci_QueueName := wc_QueueName class; ci_MaxAttempts := in_MaxAttempts i;
     ci_InputDigest := Some inputDigest; ci_ToolchainDigest := None; ci_ImageDigest := None |}.

Definition scipSubjob (i : Input) (rev : Revision) (project : SCIPProject)
  : result gerror CreateInput :=
  if (sp_Language project =s "") || (sp_Indexer project =s "")
     || (sp_SCIPWorkerClass project =s "") then Err ErrInvalidPlan
  else
    match ForSCIPWorkerClass (sp_SCIPWorkerClass project) with
    | None => Err (EWrap "" ErrInvalidPlan (": no executor class for SCIP workerClass "
                     +:+ String quote (sp_SCIPWorkerClass project +:+ String quote "")))
    | Some class =>
        let '(projectRoot, ok) := NormalizeProjectRoot (sp_ProjectRoot project) in
        if negb ok then
          Err (EWrap "" ErrInvalidPlan (": projectRoot "
                 +:+ String quote (sp_ProjectRoot project +:+ String quote "")
                 +:+ " is not repo-relative"))
        else
          let language := sp_Language project in
          let indexer := sp_Indexer project in
          let inputDigest :=
            if coalesce "" (sp_ProjectInputHash project) =s "" then
              digest ["input"; in_RepoIndexingJobID i; stringPtrValue (rv_WorkspaceID rev);
                      rv_Branch rev; rv_Revision rev; rv_CommitHash rev; language; projectRoot;
                      indexer; sp_SCIPWorkerClass project]
            else coalesce "" (sp_ProjectInputHash project) in
          Ok {| ci_ID := stableID i rev LayerSCIP (wc_Name class) language projectRoot indexer;
                ci_RepoIndexingJobID := in_RepoIndexingJobID i; ci_CodeIntelIndexID := None;
                ci_OrgID := in_OrgID i; ci_WorkspaceID := rv_WorkspaceID rev;
                ci_RepoID := in_RepoID i; ci_Branch := rv_Branch rev;
                ci_Revision := rv_Revision rev; ci_CommitHash := rv_CommitHash rev;
                ci_Layer := LayerSCIP; ci_Language := Some language;
                ci_ProjectRoot := Some projectRoot; ci_Indexer := Some indexer;
                ci_WorkerClass := wc_Name class; ci_QueueName := wc_QueueName class;
                ci_MaxAttempts := in_MaxAttempts i; ci_InputDigest := Some inputDigest;
                ci_ToolchainDigest := sp_ToolchainDigest project;
                ci_ImageDigest := sp_ImageDigest project |}
    end.

Fixpoint scip_subjobs (i : Input) (rev : Revision) (projects : list SCIPProject)
  : result gerror (list CreateInput) :=
  match projects with
  | [] => Ok []
  | p :: rest =>
      let? subjob := scipSubjob i rev p in
      let? more := scip_subjobs i rev rest in
      Ok (subjob :: more)
  end.

(** The checks of one revision. *)
Definition check_revision (rev : Revision) : result gerror unit :=
  if (rv_Branch rev =s "") || (rv_Revision rev =s "") || (rv_CommitHash rev =s "")
  then Err ErrInvalidPlan
  else if stringPtrValue (rv_WorkspaceID rev) =s "" then Err ErrInvalidPlan
  else if rv_RunClone rev
  then Err (EWrap "" ErrInvalidPlan ": clone is a repo-wide layer and is not revision-planned")
  else
    let hasGraphProducer :=
      rv_RunASTTreeSitter rev || (0 <? length (rv_SCIPProjects rev))%nat in
    let hasProducer := rv_RunZoekt rev || hasGraphProducer in
    if rv_RunGraphMerge rev && negb hasGraphProducer
    then Err (EWrap "" ErrInvalidPlan
                ": graph merge requires AST/tree-sitter or SCIP producer work")
    else if rv_RunActivate rev && negb hasProducer && negb (rv_RunGraphMerge rev)
    then Err (EWrap "" ErrInvalidPlan ": activate requires at least one producer layer")
    else Ok tt.

(** One iteration of the loop of [Build]. *)
Definition plan_revision (i : Input) (core : WorkerClass) (rev : Revision)
  : result gerror (list CreateInput) :=
  let? _ := check_revision rev in
  let? scip := scip_subjobs i rev (rv_SCIPProjects rev) in
  Ok ((if rv_RunZoekt rev then [coreSubjob i rev LayerZoekt core] else [])
      ++ (if rv_RunASTTreeSitter rev then [coreSubjob i rev LayerASTTreeSitter core] else [])
      ++ scip
      ++ (if rv_RunGraphMerge rev then [coreSubjob i rev LayerGraphMerge core] else [])
      ++ (if rv_RunActivate rev then [coreSubjob i rev LayerActivate core] else [])).

Fixpoint plan_revisions (i : Input) (core : WorkerClass) (revs : list Revision)
  : result gerror (list CreateInput) :=
  match revs with
  | [] => Ok []
  | rev :: rest =>
      let? here := plan_revision i core rev in
      let? more := plan_revisions i core rest in
      Ok (here ++ more)
  end.

Definition Build (i : Input) : result gerror (list CreateInput) :=
  if (in_RepoIndexingJobID i =s "") || (in_OrgID i <=? 0) || (in_RepoID i <=? 0)
     || (length (in_Revisions i) =? 0)%nat then Err ErrInvalidPlan
  else
    match ByName "core" with
    | None => Err (EWrap "" ErrInvalidPlan ": core worker class is not registered")
    | Some core =>
        let? out := plan_revisions i core (in_Revisions i) in
        if (length out =? 0)%nat then Err ErrInvalidPlan else Ok out
    end.

(** ** Persisting *)

(** The interface [subjobWriter], over a state [S]. *)
Class SubjobWriter (S : Type) : Type := {
  sw_UpsertQueued : CreateInput -> S -> S * result gerror unit
}.

Section Persist.
Context {S : Type} `{SubjobWriter S}.

(** The loop: the first error ends it, what was written stays written. *)
Fixpoint persist (subjobs : list CreateInput) (s : S) : S * result gerror unit :=
  match subjobs with
  | [] => (s, Ok tt)
  | c :: rest =>
      match sw_UpsertQueued c s with
      | (s1, Err e) => (s1, Err e)
      | (s1, Ok _) => persist rest s1
      end
  end.

(** [hasStore] says that the store is not nil. *)
Definition PlanAndPersist (hasStore : bool) (i : Input) (s : S)
  : S * result gerror (list CreateInput) :=
  if negb hasStore then (s, Err (EText "indexplanner: store is required"))
  else
    match Build i with
    | Err e => (s, Err e)
    | Ok subjobs =>
        match persist subjobs s with
        | (s1, Err e) => (s1, Err e)
        | (s1, Ok _) => (s1, Ok subjobs)
        end
    end.
End Persist.

(** The database store, with the clocks of one run. *)
#[export] Instance db_writer (now goNow : Z) : SubjobWriter DB := {
  sw_UpsertQueued c db := UpsertQueued None now goNow c db
}.
