(* ===== verification/PlannerFacts.v ===== *)
(** Correctness of the planner: what [Build] produces, that the store accepts it,
    that identifiers separate scopes, and that project roots stay inside the
    repository. *)
From Stdlib Require Import Ascii.
From S2P Require Import Prelude GoStd GoStdFacts GoJSON Sha256 WorkerClasses SubjobTypes SubjobStore SubjobFacts.
From S2P Require Import DispatcherFacts Planner.
(** ** Project roots *)

Lemma slash_free_rev w : slash_free w -> slash_free (str_rev w).
Proof.
  unfold slash_free, str_rev. rewrite String.list_ascii_of_string_of_list_ascii.
  intros H Hin. apply H. by apply list_elem_of_In, in_rev, list_elem_of_In in Hin.
Qed.

Lemma str_rev_nonempty w : w <> "" -> str_rev w <> "".
Proof. intros H E. apply H. rewrite <- (str_rev_involutive w), E. done. Qed.

(** A rendered relative path has no slash at either end. *)
Lemma TrimSlash_Join l :
  Forall (fun w => w <> "") l -> Forall slash_free l -> TrimSlash (Join l "/") = Join l "/".
Proof.
  intros Hn Hf. destruct (decide (l = [])) as [->|Hl]; [reflexivity|].
  apply TrimRunes_fix; unfold strip_any; simpl.
  - by rewrite Join_not_rooted.
  - destruct (exists_last Hl) as (l0 & w & ->).
    apply Forall_app in Hn as [_ Hn], Hf as [_ Hf].
    apply Forall_inv in Hn, Hf.
    assert (exists x, Join (l0 ++ [w]) "/" = x +:+ w) as [x ->].
    { destruct l0 as [|y l0]; [by exists ""|]. rewrite Join_app by done.
      exists (Join (y :: l0) "/" +:+ "/"). by rewrite str_app_assoc. }
    rewrite str_rev_app. change (str_rev "/") with "/".
    rewrite slash_free_head; [done|by apply str_rev_nonempty|by apply slash_free_rev].
Qed.

(** A path relative to the repository that never leaves it. *)
Definition inside_repo (p : string) : Prop :=
  p = "" \/ rooted p = false /\ Clean p = p /\ Forall plain (path_elems p).

Lemma relative_clean_inside root :
  root <> "" -> rooted root = false -> Clean root = root -> Clean root <> "." ->
  Clean root <> ".." -> HasPrefix (Clean root) "../" = false ->
  TrimSlash root = root /\ Forall plain (path_elems root).
Proof.
  intros Hne Hr Hc Hdot Hdd Hpre. rewrite Clean_render, Hr in Hc, Hdot, Hdd, Hpre by done.
  destruct (path_elems_shape root) as (k & l & E & Hl & _). rewrite E in *.
  assert (Hcase : render_path false (replicate k ".." ++ l) = Join (replicate k ".." ++ l) "/").
  { unfold render_path in *. by destruct (replicate k ".." ++ l). }
  rewrite Hcase in *. split.
  - rewrite <- Hc at 1. rewrite TrimSlash_Join; [done|by apply shape_nonempty|by apply shape_slash_free].
  - destruct k as [|k]; [done|]. exfalso. simpl in *.
    destruct (replicate k ".." ++ l) as [|w ws]; [done|].
    change (HasPrefix ("../" +:+ Join (w :: ws) "/") "../" = false) in Hpre.
    by rewrite HasPrefix_app in Hpre.
Qed.

Lemma NormalizeProjectRoot_ok root p :
  NormalizeProjectRoot root = (p, true) -> safeProjectRoot p = true /\ inside_repo p.
Proof.
  unfold NormalizeProjectRoot. pose proof (TrimSpace_idemp root) as Hid.
  set (r := TrimSpace root) in *. clearbody r. clear root.
  destruct (r =s ".") eqn:E1; [intros [= <-]; split; [done|by left]|].
  destruct (r =s "") eqn:E2; [intros [= <-]; split; [done|by left]|].
  destruct (_ || Contains r "\") eqn:E3; [done|].
  destruct (_ || (Clean r =s "")) eqn:E4; [intros [= <-]; split; [done|by left]|].
  destruct (_ || Contains (Clean r) "/../") eqn:E5; [done|]. intros [= <-].
  apply orb_false_iff in E3 as [[E3 E3']%orb_false_iff E3''].
  apply orb_false_iff in E4 as [E4 E4'].
  apply orb_false_iff in E5 as [[[E5 E6]%orb_false_iff E7]%orb_false_iff E8].
  apply negb_false_iff in E5. apply str_eqb_spec in E5 as Hc. apply str_eqb_false in E2 as Hne.
  destruct (relative_clean_inside r) as [Ht Hp]; try done;
    try (by apply str_eqb_false).
  rewrite Hc, Ht. split; [|right; by repeat split].
  unfold safeProjectRoot. rewrite Hid, E1, E2, E3, E3', E3'', E4, E4', E5, E6, E7, E8. done.
Qed.

(** Project roots cannot leave the repository. A root the planner accepts is
    empty or a clean relative path without any ".." element, and the store's own
    check accepts it too. *)
Theorem project_root_inside root p :
  NormalizeProjectRoot root = (p, true) -> safeProjectRoot p = true /\ inside_repo p.
Proof. apply NormalizeProjectRoot_ok. Qed.

(** ** Identifiers *)

Definition nul_free (s : string) : Prop := NUL ∉ String.list_ascii_of_string s.

Lemma digest_input_inj l1 l2 :
  Forall nul_free l1 -> Forall nul_free l2 -> digest_input l1 = digest_input l2 -> l1 = l2.
Proof.
  intros H1. revert l2. induction H1 as [|x l1 Hx H1 IH]; intros [|y l2] H2 E; simpl in E.
  - done.
  - by destruct y.
  - by destruct x.
  - apply Forall_cons in H2 as [Hy H2]. apply str_first_split in E as [-> E]; try done.
    by rewrite (IH l2 H2 E).
Qed.

Lemma Itoa_nul_free z : nul_free (Itoa z).
Proof. by apply Itoa_avoids. Qed.

(** Two different byte strings whose SHA-256 agree in their first 128 bits. *)
Definition sha_collision : Prop :=
  exists x y, x <> y /\
    String.substring 0 32 (sha256_hex x) = String.substring 0 32 (sha256_hex y).

Lemma str_dec (x y : string) : x = y \/ x <> y.
Proof. destruct (decide (x = y)); auto. Qed.

(** Subjob identifiers separate tenants and scopes. Two subjobs whose texts
    hold no zero byte (PostgreSQL text cannot) get the same identifier only when
    job, organisation, workspace, repository, branch, revision, commit, layer,
    worker class, language, project root and indexer all agree, unless SHA-256
    truncated to 128 bits collides. *)
Theorem stableID_separates i1 r1 la1 wc1 lang1 root1 ix1 i2 r2 la2 wc2 lang2 root2 ix2 :
  Forall nul_free (stableID_parts i1 r1 la1 wc1 lang1 root1 ix1) ->
  Forall nul_free (stableID_parts i2 r2 la2 wc2 lang2 root2 ix2) ->
  stableID i1 r1 la1 wc1 lang1 root1 ix1 = stableID i2 r2 la2 wc2 lang2 root2 ix2 ->
  sha_collision \/
  (in_RepoIndexingJobID i1 = in_RepoIndexingJobID i2 /\ in_OrgID i1 = in_OrgID i2 /\
   stringPtrValue (rv_WorkspaceID r1) = stringPtrValue (rv_WorkspaceID r2) /\
   in_RepoID i1 = in_RepoID i2 /\ rv_Branch r1 = rv_Branch r2 /\
   rv_Revision r1 = rv_Revision r2 /\ rv_CommitHash r1 = rv_CommitHash r2 /\
   la1 = la2 /\ wc1 = wc2 /\ lang1 = lang2 /\ root1 = root2 /\ ix1 = ix2).
Proof.
  intros H1 H2 E. apply str_app_inv_head in E. unfold digest in E.
  destruct (str_dec (digest_input (stableID_parts i1 r1 la1 wc1 lang1 root1 ix1))
    (digest_input (stableID_parts i2 r2 la2 wc2 lang2 root2 ix2))) as [Eq|Ne].
  - right. apply digest_input_inj in Eq; [|done|done]. unfold stableID_parts in Eq.
    injection Eq as Ej Eo Ew Er Eb Erv Ec El Ewc Elg Ert Eix.
    apply Itoa_inj in Eo, Er. done.
  - left. eexists _, _. split; [exact Ne|exact E].
Qed.

(** ** Plans *)

(** The layers a revision asks for, in planning order. *)
Definition rev_layers (rev : Revision) : list string :=
  (if rv_RunZoekt rev then [LayerZoekt] else [])
  ++ (if rv_RunASTTreeSitter rev then [LayerASTTreeSitter] else [])
  ++ map (fun _ => LayerSCIP) (rv_SCIPProjects rev)
  ++ (if rv_RunGraphMerge rev then [LayerGraphMerge] else [])
  ++ (if rv_RunActivate rev then [LayerActivate] else []).

(** A subjob carries the scope of the job and of one of its revisions. *)
Definition in_scope (i : Input) (rev : Revision) (c : CreateInput) : Prop :=
  ci_RepoIndexingJobID c = in_RepoIndexingJobID i /\ ci_OrgID c = in_OrgID i /\
  ci_RepoID c = in_RepoID i /\ ci_WorkspaceID c = rv_WorkspaceID rev /\
  ci_Branch c = rv_Branch rev /\ ci_Revision c = rv_Revision rev /\
  ci_CommitHash c = rv_CommitHash rev /\ ci_MaxAttempts c = in_MaxAttempts i.

Lemma rbind_Ok {E A B} (x : result E A) (k : A -> result E B) b :
  rbind x k = Ok b -> exists a, x = Ok a /\ k a = Ok b.
Proof. destruct x; [eauto|done]. Qed.

(** What a planned SCIP subjob looks like. *)
Lemma scipSubjob_Ok i rev p c :
  scipSubjob i rev p = Ok c ->
  exists class root, In class classes /\ NormalizeProjectRoot (sp_ProjectRoot p) = (root, true) /\
    in_scope i rev c /\ ci_Layer c = LayerSCIP /\ ci_WorkerClass c = wc_Name class /\
    ci_QueueName c = wc_QueueName class /\ ci_Language c = Some (sp_Language p) /\
    ci_ProjectRoot c = Some root /\ ci_Indexer c = Some (sp_Indexer p) /\
    sp_Language p <> "" /\ sp_Indexer p <> "" /\ ci_ID c <> "".
Proof.
  unfold scipSubjob. destruct (_ || _) eqn:E; [done|].
  apply orb_false_iff in E as [[E1 E2]%orb_false_iff _]. apply str_eqb_false in E1, E2.
  destruct (ForSCIPWorkerClass _) as [class|] eqn:Ec; [|done].
  destruct (NormalizeProjectRoot _) as [root ok] eqn:En. destruct ok; [|done].
  intros [= <-]. exists class, root. apply ForSCIPWorkerClass_Some in Ec as [Hin _].
  by repeat split.
Qed.

Lemma scip_subjobs_Ok i rev ps cs :
  scip_subjobs i rev ps = Ok cs -> Forall2 (fun p c => scipSubjob i rev p = Ok c) ps cs.
Proof.
  revert cs. induction ps as [|p ps IH]; intros cs; simpl; [intros [= <-]; constructor|].
  intros (c & Hc & (more & Hm & [= <-])%rbind_Ok)%rbind_Ok. constructor; auto.
Qed.

Lemma coreSubjob_scope i rev layer class : in_scope i rev (coreSubjob i rev layer class).
Proof. by repeat split. Qed.

Lemma plan_revision_Ok i core rev cs :
  plan_revision i core rev = Ok cs ->
  check_revision rev = Ok tt /\ map ci_Layer cs = rev_layers rev /\
  Forall (fun c => in_scope i rev c /\
    ((exists p, scipSubjob i rev p = Ok c) \/
     exists layer, c = coreSubjob i rev layer core /\
       layer ∈ [LayerZoekt; LayerASTTreeSitter; LayerGraphMerge; LayerActivate])) cs.
Proof.
  unfold plan_revision. intros ([] & Hck & (scip & Hs & [= <-])%rbind_Ok)%rbind_Ok.
  apply scip_subjobs_Ok in Hs. split; [done|]. split.
  - rewrite !map_app. unfold rev_layers.
    assert (map ci_Layer scip = map (fun _ => LayerSCIP) (rv_SCIPProjects rev)) as ->.
    { clear Hck. induction Hs as [|p c ps cs Hc _ IH]; simpl; [done|]. rewrite IH.
      apply scipSubjob_Ok in Hc as (class & root & _ & _ & _ & -> & _). done. }
    by destruct (rv_RunZoekt rev), (rv_RunASTTreeSitter rev), (rv_RunGraphMerge rev),
      (rv_RunActivate rev).
  - assert (Forall (fun c => in_scope i rev c /\ ((exists p, scipSubjob i rev p = Ok c) \/
      exists layer, c = coreSubjob i rev layer core /\
        layer ∈ [LayerZoekt; LayerASTTreeSitter; LayerGraphMerge; LayerActivate])) scip) as Hscip.
    { clear Hck. induction Hs as [|p c ps cs Hc _ IH]; constructor; [|done].
      split; [|eauto]. apply scipSubjob_Ok in Hc as (class & root & _ & _ & ? & _). done. }
    rewrite !Forall_app. repeat split; try done;
      match goal with |- Forall _ (if ?b then _ else _) => destruct b end; constructor; try done;
      (split; [apply coreSubjob_scope|]); right; eexists; (split; [done|]); set_solver.
Qed.

Lemma plan_revisions_Ok i core revs cs :
  plan_revisions i core revs = Ok cs ->
  Forall (fun rev => check_revision rev = Ok tt) revs /\
  map ci_Layer cs = flat_map rev_layers revs /\
  Forall (fun c => exists rev, rev ∈ revs /\ in_scope i rev c /\
    ((exists p, scipSubjob i rev p = Ok c) \/
     exists layer, c = coreSubjob i rev layer core /\
       layer ∈ [LayerZoekt; LayerASTTreeSitter; LayerGraphMerge; LayerActivate])) cs.
Proof.
  revert cs. induction revs as [|rev revs IH]; intros cs; simpl.
  { intros [= <-]. repeat split; constructor. }
  intros (here & Hh & (more & Hm & [= <-])%rbind_Ok)%rbind_Ok.
  apply plan_revision_Ok in Hh as (Hck & Hl & Hf). destruct (IH _ Hm) as (Hcks & Hls & Hfs).
  split; [by constructor|]. split; [by rewrite map_app, Hl, Hls|].
  apply Forall_app. split.
  - eapply Forall_impl; [exact Hf|]. intros c Hc. exists rev. split; [left|done].
  - eapply Forall_impl; [exact Hfs|]. intros c (r & Hr & Hc). exists r. split; [by right|done].
Qed.

Lemma Build_Ok i out :
  Build i = Ok out ->
  in_RepoIndexingJobID i <> "" /\ 0 < in_OrgID i /\ 0 < in_RepoID i /\ out <> [] /\
  exists core, ByName "core" = Some core /\ plan_revisions i core (in_Revisions i) = Ok out.
Proof.
  unfold Build. destruct (_ || _) eqn:E; [done|].
  apply orb_false_iff in E as [[[E1 E2]%orb_false_iff E3]%orb_false_iff _].
  apply str_eqb_false in E1. destruct (ByName "core") as [core|]; [|done].
  intros (cs & Hp & H)%rbind_Ok. destruct (length cs =? 0)%nat eqn:El; [done|].
  injection H as <-. repeat split; try lia; try done; [by intros ->|]. eauto.
Qed.

(** A plan is exactly what was asked for. [Build] returns, revision by
    revision, the requested layers in dependency order (ZOEKT, AST, one SCIP
    subjob per project, GRAPH_MERGE, ACTIVATE), every subjob carrying the job's
    organisation and repository and the revision's workspace, branch and commit;
    a GRAPH_MERGE is never planned without an AST or SCIP producer, an ACTIVATE
    never without any producer, and a plan is never empty. *)
Theorem Build_plan i out :
  Build i = Ok out ->
  out <> [] /\ map ci_Layer out = flat_map rev_layers (in_Revisions i) /\
  Forall (fun c => exists rev, rev ∈ in_Revisions i /\ in_scope i rev c) out /\
  Forall (fun rev =>
    (rv_RunGraphMerge rev = true ->
       rv_RunASTTreeSitter rev = true \/ rv_SCIPProjects rev <> []) /\
    (rv_RunActivate rev = true ->
       rv_RunZoekt rev = true \/ rv_RunASTTreeSitter rev = true \/ rv_SCIPProjects rev <> []))
    (in_Revisions i).
Proof.
  intros (_ & _ & _ & Hne & core & _ & Hp)%Build_Ok.
  apply plan_revisions_Ok in Hp as (Hck & Hl & Hf). split; [done|]. split; [done|]. split.
  - eapply Forall_impl; [exact Hf|]. intros c (rev & Hr & Hs & _). eauto.
  - eapply Forall_impl; [exact Hck|]. intros rev. unfold check_revision.
    destruct (_ || _); [done|]. destruct (_ =s ""); [done|]. destruct (rv_RunClone rev); [done|].
    destruct (rv_RunGraphMerge rev), (rv_RunActivate rev), (rv_RunZoekt rev),
      (rv_RunASTTreeSitter rev), (rv_SCIPProjects rev); simpl; intros H; try done;
      split; intros; auto; try done; right; auto.
Qed.

(** ** The store accepts a plan *)

Lemma check_revision_Ok rev :
  check_revision rev = Ok tt ->
  rv_Branch rev <> "" /\ rv_Revision rev <> "" /\ rv_CommitHash rev <> "" /\
  exists ws, rv_WorkspaceID rev = Some ws /\ ws <> "".
Proof.
  unfold check_revision. destruct (_ || _) eqn:E; [done|].
  apply orb_false_iff in E as [[E1 E2]%orb_false_iff E3]. apply str_eqb_false in E1, E2, E3.
  destruct (stringPtrValue _ =s "") eqn:Ew; [done|]. intros _. apply str_eqb_false in Ew.
  destruct (rv_WorkspaceID rev) as [ws|]; [|done]. repeat split; eauto.
Qed.

(** A subjob in the scope of a checked revision passes the store's checks, given
    its class, layer and project columns. *)
Lemma validate_in_scope i rev c class ws :
  in_RepoIndexingJobID i <> "" -> 0 < in_OrgID i -> 0 < in_RepoID i -> in_scope i rev c ->
  check_revision rev = Ok tt -> commitHashPattern (rv_CommitHash rev) = true ->
  rv_WorkspaceID rev = Some ws -> ci_ID c <> "" -> In class classes ->
  ci_WorkerClass c = wc_Name class -> ci_QueueName c = wc_QueueName class ->
  validLayer (ci_Layer c) = true -> ci_Layer c <> "" ->
  (if ci_Layer c =s LayerSCIP then
     exists l r x, ci_Language c = Some l /\ ci_ProjectRoot c = Some r /\ ci_Indexer c = Some x
       /\ l <> "" /\ x <> "" /\ safeProjectRoot r = true
   else ci_Language c = None /\ ci_ProjectRoot c = None /\ ci_Indexer c = None) ->
  validate_create c = Some ws.
Proof.
  intros Hj Ho Hr (S1 & S2 & S3 & S4 & S5 & S6 & S7 & _) Hck Hpat Hws Hid Hin Hwc Hq Hlay Hl0 Hproj.
  destruct (check_revision_Ok _ Hck) as (Hb & Hrv & Hch & ws' & Hws' & Hne).
  destruct (class_names_nonempty _ Hin) as [Hn1 Hn2].
  unfold validate_create. rewrite S4, Hws, S1, S2, S3, S5, S6, S7, Hwc, Hq, Hlay, Hpat,
    (ByName_of_class _ Hin), str_eqb_refl.
  assert (ws = ws') as -> by congruence.
  repeat match goal with
  | H : ?s <> "" |- _ => apply str_eqb_false in H; rewrite H; clear H
  end.
  replace (in_OrgID i <=? 0) with false by lia. replace (in_RepoID i <=? 0) with false by lia.
  simpl. destruct (ci_Layer c =s LayerSCIP).
  - destruct Hproj as (l & r & x & -> & -> & -> & Hl & Hx & ->).
    apply str_eqb_false in Hl, Hx. by rewrite Hl, Hx.
  - by destruct Hproj as (-> & -> & ->).
Qed.

Lemma stableID_nonempty i rev la wc lang root ix : stableID i rev la wc lang root ix <> "".
Proof. done. Qed.

(** The store accepts every plan. When the commit hashes are 40 hexadecimal
    digits, each subjob [Build] returns passes the validation of
    [UpsertQueued], so queueing a plan can fail only on the database side. *)
Theorem Build_accepted i out :
  Build i = Ok out ->
  Forall (fun rev => commitHashPattern (rv_CommitHash rev) = true) (in_Revisions i) ->
  Forall (fun c => exists ws, validate_create c = Some ws /\ ci_WorkspaceID c = Some ws) out.
Proof.
  intros (Hj & Ho & Hr & _ & core & Hcore & Hp)%Build_Ok Hpat.
  apply plan_revisions_Ok in Hp as (Hck & _ & Hf).
  eapply Forall_impl; [exact Hf|]. intros c (rev & Hin & Hs & Hc).
  rewrite Forall_forall in Hck, Hpat. specialize (Hck _ Hin). specialize (Hpat _ Hin).
  destruct (check_revision_Ok _ Hck) as (_ & _ & _ & ws & Hws & _). exists ws.
  split; [|by destruct Hs as (_ & _ & _ & -> & _)].
  destruct Hc as [[p Hc]|(layer & -> & Hlay)].
  - apply scipSubjob_Ok in Hc as (class & root & Hcl & Hroot & _ & El & Ewc & Eq & E1 & E2 & E3 & N1 & N2 & Nid).
    eapply validate_in_scope; eauto; rewrite ?El; try done.
    exists (sp_Language p), root, (sp_Indexer p). repeat split; auto.
    by apply NormalizeProjectRoot_ok in Hroot as [? _].
  - apply ByName_Some in Hcore as [_ Hcl].
    eapply (validate_in_scope i rev _ core); eauto; try done; simpl.
    + apply bool_decide_eq_true. set_solver.
    + set_solver.
    + destruct (layer =s LayerSCIP) eqn:El; [|done]. apply str_eqb_spec in El. subst.
      exfalso. apply (bool_decide_eq_true_2 _) in Hlay. vm_compute in Hlay. discriminate Hlay.
Qed.

(** ** Persisting a plan *)

(** A row for the subjob, with the scope that was asked for. *)
Definition planned_in (rows : gmap string Subjob) (c : CreateInput) : Prop :=
  exists ws r, validate_create c = Some ws /\ rows !! ci_ID c = Some r /\
    conflict_matches (sj_scope r) (sj_scope (new_subjob 0 c ws StatusQueued "" "" None)) = true.

(** What the planner relies on of a [SubjobWriter]: no call changes a row that
    exists, and one that succeeds leaves a row for its subjob. *)
Class WriterLaws (S : Type) `{SubjobWriter S} (rows : S -> gmap string Subjob) : Prop := {
  writer_keeps c s s' r : sw_UpsertQueued c s = (s', r) ->
    forall id x, rows s !! id = Some x -> rows s' !! id = Some x;
  writer_puts c s s' : sw_UpsertQueued c s = (s', Ok tt) -> planned_in (rows s') c
}.

Section Interface.
Context {S : Type} `{SubjobWriter S} (rows : S -> gmap string Subjob) `{!WriterLaws S rows}.

Lemma persist_rows cs s s' r :
  persist cs s = (s', r) ->
  (forall id x, rows s !! id = Some x -> rows s' !! id = Some x) /\
  (r = Ok tt -> Forall (planned_in (rows s')) cs).
Proof.
  revert s. induction cs as [|c cs IH]; intros s; simpl; [intros [= <- <-]; by split|].
  destruct (sw_UpsertQueued c s) as [s1 x] eqn:E. pose proof (writer_keeps c s s1 x E) as Hk.
  destruct x as [[]|e].
  - intros Hp. destruct (IH _ Hp) as [Hkeep Hf]. split; [auto|]. intros Hr. constructor; [|auto].
    destruct (writer_puts c s s1 E) as (ws & y & Hv & Hy & Hm). exists ws, y. auto.
  - intros [= <- <-]. by split.
Qed.

Lemma PlanAndPersist_rows i s s' r :
  PlanAndPersist true i s = (s', r) ->
  (forall id x, rows s !! id = Some x -> rows s' !! id = Some x) /\
  (forall out, r = Ok out -> Build i = Ok out /\ Forall (planned_in (rows s')) out).
Proof.
  unfold PlanAndPersist. simpl. destruct (Build i) as [cs|] eqn:Eb; [|by intros [= <- <-]].
  destruct (persist cs s) as [s1 [[]|e]] eqn:Ep; apply persist_rows in Ep as [Hk Hf];
    intros [= <- <-]; (split; [done|]); [|done]. intros out [= <-]. auto.
Qed.
End Interface.

#[export] Instance db_writer_laws now goNow : WriterLaws DB (H := db_writer now goNow) db_subjobs.
Proof.
  split.
  - intros c db db' r E id x Hx. pose proof (SubjobFacts.upsert_keeps None now goNow c
      StatusQueued "" "" db id x Hx) as Hk. unfold sw_UpsertQueued, db_writer, UpsertQueued in E.
    by rewrite E in Hk.
  - intros c db db' Eu. by apply UpsertQueued_Ok in Eu.
Qed.

(** A persisted plan is in the database. When [PlanAndPersist] succeeds, every
    planned subjob has a row under its identifier with exactly the planned
    scope, and every row that existed before, whatever its progress, is
    unchanged. *)
Theorem plan_persisted now goNow i db db' out :
  PlanAndPersist (H := db_writer now goNow) true i db = (db', Ok out) ->
  Build i = Ok out /\
  (forall id r, db_subjobs db !! id = Some r -> db_subjobs db' !! id = Some r) /\
  Forall (fun c => exists ws r, validate_create c = Some ws /\
    db_subjobs db' !! ci_ID c = Some r /\
    conflict_matches (sj_scope r)
      (sj_scope (new_subjob now c ws StatusQueued "" "" None)) = true) out.
Proof.
  intros Hp. by apply (PlanAndPersist_rows db_subjobs) in Hp as [Hk (Hb & Hf)%(fun H => H out eq_refl)].
Qed.
