(* ===== verification/ManifestDelta.v ===== *)
(** Incremental indexing, src/internal/backend/repoindexmanager: the file manifest
    of a commit (manifest_files.go), the plan that compares it with the manifest
    of the last index (delta_plan.go), and the choice of SCIP projects
    (handler.go, [filterSCIPProjectsForDelta]).  The files of the commit's tree,
    which a git library reads, are the input; rows with equal paths, which differ
    only in backslashes, keep the order of the tree; the plan's JSON form is left
    out. *)
From Stdlib Require Import Ascii.
From S2P Require Import Prelude GoStd GoStdFacts GoJSON GoText Planner.
(** ** Manifest rows *)

Record manifestFileRow : Type := {
  fr_Path : string;
  fr_ContentHash : string;
  fr_Language : option string;
  fr_ProjectRoot : option string;
  fr_Generated : bool;
  fr_Vendor : bool;
  fr_Test : bool
}.

(** An entry of the commit's tree: the modes the manifest keeps, or another. *)
Inductive FileMode : Type := Regular | Executable | Symlink | OtherMode.

Record GitFile : Type := { gf_Name : string; gf_Mode : FileMode; gf_Hash : string }.

Definition isManifestFileMode (m : FileMode) : bool :=
  match m with Regular | Executable | Symlink => true | OtherMode => false end.

Definition normalizeManifestPath (value : string) : string :=
  TrimLeftRunes ["/"] (ReplaceByte "\" "/" value).

Definition manifestRootMarkers : list string :=
  ["package.json"; "tsconfig.json"; "jsconfig.json"; "go.mod"; "pyproject.toml"; "setup.py";
   "requirements.txt"; "pom.xml"; "build.gradle"; "build.sbt"; "compile_commands.json";
   "Cargo.toml"; "Gemfile"; "pubspec.yaml"].

Definition manifestRootMarkerSuffixes : list string :=
  [".csproj"; ".vbproj"; ".fsproj"; ".sln"; ".gemspec"].

Definition is_root_marker (base : string) : bool :=
  bool_decide (base ∈ manifestRootMarkers)
  || existsb (fun suffix => HasSuffix base suffix) manifestRootMarkerSuffixes.

(** The root a marker file stands for. *)
Definition marker_root (p : string) : string :=
  let root := path_Dir p in if (root =s ".") || (root =s "/") then "." else root.

Definition longer (a b : string) : bool := (String.length b <? String.length a)%nat.

Definition detectManifestProjectRoots (paths : list string) : list string :=
  let marked := List.filter (fun p => is_root_marker (path_Base p)) paths in
  sort_stable longer ("." :: dedup_first ["."] (map marker_root marked)).

Definition root_contains (filePath root : string) : bool :=
  (root =s ".") || (filePath =s root) || HasPrefix filePath (root +:+ "/").

Fixpoint nearestManifestProjectRoot (filePath : string) (roots : list string) : string :=
  match roots with
  | [] => "."
  | root :: rest =>
      if root_contains filePath root then root else nearestManifestProjectRoot filePath rest
  end.

Definition ext_in (ext : string) (l : list string) : bool := bool_decide (ext ∈ l).

Definition inferManifestLanguage (filePath : string) : string :=
  let ext := ToLower (path_Ext filePath) in
  if ext_in ext [".ts"; ".tsx"; ".js"; ".jsx"; ".mjs"; ".cjs"] then "typescript"
  else if ext_in ext [".go"] then "go"
  else if ext_in ext [".py"] then "python"
  else if ext_in ext [".java"; ".kt"; ".scala"] then "jvm"
  else if ext_in ext [".c"; ".cc"; ".cpp"; ".cxx"; ".h"; ".hpp"; ".hh"] then "cpp"
  else if ext_in ext [".cs"; ".vb"; ".fs"] then "dotnet"
  else if ext_in ext [".rb"] then "ruby"
  else if ext_in ext [".rs"] then "rust"
  else if ext_in ext [".dart"] then "dart"
  else if ext_in ext [".md"; ".mdx"; ".rst"; ".txt"] then "docs"
  else if ext_in ext [".json"; ".yaml"; ".yml"; ".toml"; ".xml"; ".gradle"; ".sbt"] then "config"
  else "".

Definition hasManifestDirSegment (filePath segment : string) : bool :=
  HasPrefix filePath (segment +:+ "/") || Contains filePath ("/" +:+ segment +:+ "/").

Definition hasManifestDirPathPrefix (filePath prefix : string) : bool :=
  HasPrefix filePath (prefix +:+ "/") || Contains filePath ("/" +:+ prefix +:+ "/").

Definition isGeneratedManifestPath (filePath : string) : bool :=
  existsb (hasManifestDirSegment filePath)
    ["dist"; "build"; "coverage"; "target"; "generated"; "gen"]
  || hasManifestDirPathPrefix filePath "vendor/bundle"
  || Contains filePath ".generated." || HasSuffix filePath ".min.js".

Definition isVendorManifestPath (filePath : string) : bool :=
  existsb (hasManifestDirSegment filePath) ["node_modules"; "vendor"; "third_party"; ".venv"; "venv"].

Definition isTestManifestPath (filePath : string) : bool :=
  existsb (hasManifestDirSegment filePath) ["__tests__"; "test"; "tests"; "spec"]
  || let parts := SplitByte "." (path_Base filePath) in
     if (length parts <? 3)%nat then false
     else
       let category := nth (length parts - 2) parts "" in
       ((category =s "test") || (category =s "spec")) && negb (List.last parts "" =s "").

(** [stringPtr]: nil for an empty string. *)
Definition stringPtr (value : string) : option string :=
  if value =s "" then None else Some value.

Definition manifest_row (f : GitFile) : manifestFileRow :=
  let p := normalizeManifestPath (gf_Name f) in
  {| fr_Path := p; fr_ContentHash := gf_Hash f; fr_Language := stringPtr (inferManifestLanguage p);
     fr_ProjectRoot := None; fr_Generated := isGeneratedManifestPath p;
     fr_Vendor := isVendorManifestPath p; fr_Test := isTestManifestPath p |}.

Definition set_root (root : string) (r : manifestFileRow) : manifestFileRow :=
  {| fr_Path := fr_Path r; fr_ContentHash := fr_ContentHash r; fr_Language := fr_Language r;
     fr_ProjectRoot := Some root; fr_Generated := fr_Generated r; fr_Vendor := fr_Vendor r;
     fr_Test := fr_Test r |}.

(** [buildManifestFilesForCommit] once the commit's tree was read. *)
Definition buildManifestFiles (files : list GitFile) : list manifestFileRow :=
  let raw := List.filter (fun r => negb (fr_Path r =s ""))
               (map manifest_row (List.filter (fun f => isManifestFileMode (gf_Mode f)) files)) in
  let projectRoots := detectManifestProjectRoots (map fr_Path raw) in
  sort_stable (fun a b => str_ltb (fr_Path a) (fr_Path b))
    (map (fun r => set_root (nearestManifestProjectRoot (fr_Path r) projectRoots) r) raw).

(** ** Delta plans *)

Definition zoektStrategyNoop : string := "NOOP".
Definition zoektStrategyDeltaFiles : string := "DELTA_FILES".
Definition zoektStrategyFullRepo : string := "FULL_REPO".
Definition zoektStrategyFullRepoRewrite : string := "FULL_REPO_REWRITE".

Record deltaZoektPlan : Type := {
  zp_Strategy : string; zp_Files : list string; zp_Reason : option string
}.

Record deltaSCIPPlan : Type := {
  xp_Strategy : string; xp_ProjectRoots : list string; xp_Files : list string;
  xp_Reason : option string
}.

Record deltaGraphPlan : Type := {
  gp_Strategy : string; gp_Files : list string; gp_DeletedFiles : list string
}.

Record deltaSemanticPlan : Type := {
  mp_Strategy : string; mp_Files : list string; mp_Reason : option string
}.

Record deltaReindexPlan : Type := {
  dp_Mode : string;
  dp_AddedFiles : list string;
  dp_ChangedFiles : list string;
  dp_DeletedFiles : list string;
  dp_UnchangedFiles : list string;
  dp_Zoekt : deltaZoektPlan;
  dp_SCIP : deltaSCIPPlan;
  dp_Graph : deltaGraphPlan;
  dp_Semantic : deltaSemanticPlan
}.

Definition manifestFileMap (files : list manifestFileRow) : gmap string manifestFileRow :=
  foldl (fun out file => if fr_Path file =s "" then out else <[fr_Path file := file]> out) ∅ files.

Definition sortedManifestKeys (values : gmap string manifestFileRow) : list string :=
  SortStrings (map fst (map_to_list values)).

Definition row_root (file : manifestFileRow) : string :=
  match fr_ProjectRoot file with
  | Some r => if r =s "" then "." else r
  | None => "."
  end.

Definition uniqueManifestProjectRoots (files : list manifestFileRow) : list string :=
  SortStrings (dedup_first [] (map row_root files)).

Definition uniqueManifestProjectRootsForPaths (files : gmap string manifestFileRow)
    (paths : list string) : list string :=
  uniqueManifestProjectRoots (omap (fun path => files !! path) paths).

(** The keys of [m] that satisfy [f]; a loop over a map visits them in some order
    and the result is sorted. *)
Definition sorted_where (f : string -> manifestFileRow -> bool) (m : gmap string manifestFileRow)
  : list string :=
  SortStrings (map fst (List.filter (fun kv => f kv.1 kv.2) (map_to_list m))).

Definition no_previous : option string := Some "No previous index manifest exists.".

Definition rewrite_reason : string :=
  "Zoekt rewrites repository shard files because file-level shard delta is not enabled.".

Definition skipped_semantic : deltaSemanticPlan :=
  {| mp_Strategy := "SKIPPED"; mp_Files := []; mp_Reason := None |}.

Definition buildManifestDeltaPlan (previous current : list manifestFileRow)
    (supportsZoektFileDelta : bool) : deltaReindexPlan :=
  let currentByPath := manifestFileMap current in
  match previous with
  | [] =>
      let allFiles := sortedManifestKeys currentByPath in
      let allRoots := uniqueManifestProjectRoots current in
      {| dp_Mode := "FULL"; dp_AddedFiles := allFiles; dp_ChangedFiles := [];
         dp_DeletedFiles := []; dp_UnchangedFiles := [];
         dp_Zoekt := {| zp_Strategy := zoektStrategyFullRepo; zp_Files := allFiles;
                        zp_Reason := no_previous |};
         dp_SCIP := {| xp_Strategy := "FULL_REPO"; xp_ProjectRoots := allRoots;
                       xp_Files := allFiles; xp_Reason := no_previous |};
         dp_Graph := {| gp_Strategy := "DELTA_FILES"; gp_Files := allFiles;
                        gp_DeletedFiles := [] |};
         dp_Semantic := skipped_semantic |}
  | _ =>
      let previousByPath := manifestFileMap previous in
      let added := sorted_where (fun path _ =>
        bool_decide (previousByPath !! path = None)) currentByPath in
      let changed := sorted_where (fun path curr =>
        match previousByPath !! path with
        | Some prev => negb (fr_ContentHash prev =s fr_ContentHash curr)
        | None => false
        end) currentByPath in
      let unchanged := sorted_where (fun path curr =>
        match previousByPath !! path with
        | Some prev => fr_ContentHash prev =s fr_ContentHash curr
        | None => false
        end) currentByPath in
      let deleted := sorted_where (fun path _ =>
        bool_decide (currentByPath !! path = None)) previousByPath in
      let touched := added ++ changed in
      let noop := bool_decide (added = []) && bool_decide (changed = [])
                  && bool_decide (deleted = []) in
      {| dp_Mode := if noop then "NOOP" else "DELTA";
         dp_AddedFiles := added; dp_ChangedFiles := changed; dp_DeletedFiles := deleted;
         dp_UnchangedFiles := unchanged;
         dp_Zoekt :=
           if noop then
             {| zp_Strategy := zoektStrategyNoop; zp_Files := []; zp_Reason := None |}
           else if supportsZoektFileDelta then
             {| zp_Strategy := zoektStrategyDeltaFiles; zp_Files := touched; zp_Reason := None |}
           else
             {| zp_Strategy := zoektStrategyFullRepoRewrite; zp_Files := touched;
                zp_Reason := Some rewrite_reason |};
         dp_SCIP :=
           {| xp_Strategy := if noop then "NOOP" else "PROJECT_ROOTS";
              xp_ProjectRoots :=
                if noop then [] else uniqueManifestProjectRootsForPaths currentByPath touched;
              xp_Files := if noop then [] else touched; xp_Reason := None |};
         dp_Graph :=
           {| gp_Strategy := if noop then "NOOP" else "DELTA_FILES";
              gp_Files := if noop then [] else touched; gp_DeletedFiles := deleted |};
         dp_Semantic := skipped_semantic |}
  end.

Definition empty_plan : deltaReindexPlan :=
  {| dp_Mode := ""; dp_AddedFiles := []; dp_ChangedFiles := []; dp_DeletedFiles := [];
     dp_UnchangedFiles := [];
     dp_Zoekt := {| zp_Strategy := ""; zp_Files := []; zp_Reason := None |};
     dp_SCIP := {| xp_Strategy := ""; xp_ProjectRoots := []; xp_Files := []; xp_Reason := None |};
     dp_Graph := {| gp_Strategy := ""; gp_Files := []; gp_DeletedFiles := [] |};
     dp_Semantic := {| mp_Strategy := ""; mp_Files := []; mp_Reason := None |} |}.

Definition forceSemanticRepairPlan (plan : option deltaReindexPlan)
    (current : list manifestFileRow) (reason : string) : deltaReindexPlan :=
  let allFiles := sortedManifestKeys (manifestFileMap current) in
  let allRoots := uniqueManifestProjectRoots current in
  let p := default empty_plan plan in
  {| dp_Mode := "SEMANTIC_REPAIR"; dp_AddedFiles := dp_AddedFiles p;
     dp_ChangedFiles := dp_ChangedFiles p; dp_DeletedFiles := dp_DeletedFiles p;
     dp_UnchangedFiles := dp_UnchangedFiles p;
     dp_Zoekt := {| zp_Strategy := "NOOP"; zp_Files := []; zp_Reason := None |};
     dp_SCIP := {| xp_Strategy := "FULL_REPO"; xp_ProjectRoots := allRoots; xp_Files := allFiles;
                   xp_Reason := Some reason |};
     dp_Graph := {| gp_Strategy := "DELTA_FILES"; gp_Files := allFiles; gp_DeletedFiles := [] |};
     dp_Semantic := {| mp_Strategy := "SKIPPED"; mp_Files := []; mp_Reason := Some reason |} |}.

(** [None] is a nil error; the [%q] of the last message is exact for names that
    need no escape. *)
Definition validate (plan : option deltaReindexPlan) : option gerror :=
  match plan with
  | None => Some (EText "nil delta plan")
  | Some p =>
      let z := zp_Strategy (dp_Zoekt p) in
      if (dp_Mode p =s "") || (z =s "") || (xp_Strategy (dp_SCIP p) =s "")
         || (gp_Strategy (dp_Graph p) =s "") || (mp_Strategy (dp_Semantic p) =s "")
      then Some (EText "delta plan has empty strategy")
      else if bool_decide (z ∈ [zoektStrategyNoop; zoektStrategyDeltaFiles;
                                zoektStrategyFullRepo; zoektStrategyFullRepoRewrite])
      then None
      else Some (EText ("delta plan has unsupported zoekt strategy " +:+ quoted z))
  end.

Definition inferSemanticLanguageFromPath (path : string) : string :=
  let lower := ToLower path in
  let has := existsb (fun suffix => HasSuffix lower suffix) in
  if has [".ts"; ".tsx"; ".js"; ".jsx"; ".mts"; ".cts"; ".mjs"; ".cjs"] then "typescript"
  else if has [".go"] then "go"
  else if has [".py"] then "python"
  else if has [".java"; ".scala"; ".kt"] then "java"
  else if has [".cc"; ".cpp"; ".cxx"; ".c"; ".h"; ".hpp"] then "cpp"
  else if has [".cs"; ".vb"; ".fs"] then "dotnet"
  else if has [".rb"] then "ruby"
  else if has [".rs"] then "rust"
  else if has [".dart"] then "dart"
  else "".

Definition manifestHasSemanticCandidates (files : list manifestFileRow) : bool :=
  existsb (fun file =>
    let declared := match fr_Language file with
                    | Some l => ToLower (TrimSpace l)
                    | None => ""
                    end in
    let language := if declared =s "" then inferSemanticLanguageFromPath (fr_Path file)
                    else declared in
    bool_decide (language ∈ ["typescript"; "javascript"; "go"; "python"; "java"; "cpp"; "c"; "c++";
                             "dotnet"; "csharp"; "ruby"; "rust"; "dart"])) files.

Definition filterSCIPProjectsForDelta (projects : list SCIPProject)
    (plan : option deltaReindexPlan) : list SCIPProject :=
  match plan with
  | None => projects
  | Some p =>
      let s := dp_SCIP p in
      if xp_Strategy s =s "FULL_REPO" then projects
      else if xp_Strategy s =s "NOOP" then []
      else
        let roots := map TrimProjectRoot (xp_ProjectRoots s) in
        List.filter (fun project => bool_decide (TrimProjectRoot (sp_ProjectRoot project) ∈ roots))
          projects
  end.


(** What a delta plan guarantees: an incremental index built from it is the full
    index, the projects of touched files are re-indexed, and each file belongs to
    its deepest project root; and two cases in which a project or a language is
    missed. *)
(** ** Lists of keys *)

Lemma elem_of_sorted_where f m k :
  k ∈ sorted_where f m <-> exists v, m !! k = Some v /\ f k v = true.
Proof.
  unfold sorted_where. rewrite elem_of_SortStrings, list_elem_of_fmap. split.
  - intros ([k' v] & -> & H). apply list_elem_of_In, filter_In in H as [H Hf].
    apply list_elem_of_In, elem_of_map_to_list in H. eauto.
  - intros (v & Hv & Hf). exists (k, v). split; [done|].
    apply list_elem_of_In, filter_In. split; [|done].
    by apply list_elem_of_In, elem_of_map_to_list.
Qed.

Lemma NoDup_filtered_keys {V} (f : string * V -> bool) (l : list (string * V)) :
  NoDup (map fst l) -> NoDup (map fst (List.filter f l)).
Proof.
  induction l as [|[k v] l IH]; simpl; [done|]. intros [Hk Hl]%NoDup_cons.
  destruct (f (k, v)); simpl; [|auto]. apply NoDup_cons. split; [|auto].
  intros H. apply Hk. apply list_elem_of_fmap in H as (x & -> & Hx).
  apply list_elem_of_fmap_2. apply list_elem_of_In, filter_In in Hx as [Hx _].
  by apply list_elem_of_In.
Qed.

Lemma sorted_where_sorted f m :
  StronglySorted str_le (sorted_where f m) /\ NoDup (sorted_where f m).
Proof.
  split; [apply SortStrings_sorted|]. apply NoDup_SortStrings, NoDup_filtered_keys.
  apply NoDup_fst_map_to_list.
Qed.

Lemma elem_of_sortedManifestKeys m k : k ∈ sortedManifestKeys m <-> is_Some (m !! k).
Proof.
  unfold sortedManifestKeys. rewrite elem_of_SortStrings, list_elem_of_fmap. split.
  - intros ([k' v] & -> & H%elem_of_map_to_list). by exists v.
  - intros [v Hv]. exists (k, v). split; [done|]. by apply elem_of_map_to_list.
Qed.

(** ** Indexes *)

Section Index.
(** An index holds for each path what some function computes from the path and
    the content. *)
Context {X : Type} (index : string -> string -> X).

Definition full_index (m : gmap string manifestFileRow) : gmap string X :=
  map_imap (fun path row => Some (index path (fr_ContentHash row))) m.

(** Drop the deleted paths, then index the listed ones from the current files. *)
Definition reindex (cur : gmap string manifestFileRow) (files : list string) (idx : gmap string X)
  : gmap string X :=
  foldl (fun idx path => match cur !! path with
                         | Some row => <[path := index path (fr_ContentHash row)]> idx
                         | None => idx
                         end) idx files.

Definition incremental_index (cur : gmap string manifestFileRow) (deleted files : list string)
    (idx : gmap string X) : gmap string X :=
  reindex cur files (foldl (fun idx path => delete path idx) idx deleted).

Lemma lookup_deletes deleted idx p :
  foldl (fun idx path => delete path idx) idx deleted !! p
  = (if bool_decide (p ∈ deleted) then None else (idx : gmap string X) !! p).
Proof.
  revert idx. induction deleted as [|d l IH]; intros idx; simpl; [done|]. rewrite IH.
  case_bool_decide as H1; case_bool_decide as H2; try done; try set_solver.
  - set_unfold in H2. assert (p = d) as -> by tauto. by rewrite lookup_delete_eq.
  - rewrite lookup_delete_ne; [done|]. set_solver.
Qed.

Lemma lookup_reindex cur files idx p :
  reindex cur files idx !! p
  = match cur !! p with
    | Some row => if bool_decide (p ∈ files) then Some (index p (fr_ContentHash row))
                  else (idx : gmap string X) !! p
    | None => idx !! p
    end.
Proof.
  unfold reindex. revert idx. induction files as [|f l IH]; intros idx; simpl.
  { by destruct (cur !! p). }
  rewrite IH. destruct (decide (f = p)) as [->|Hne].
  - destruct (cur !! p) as [row|] eqn:E; [|done].
    rewrite (bool_decide_eq_true_2 (p ∈ p :: l)) by left.
    case_bool_decide; [done|]. by rewrite lookup_insert_eq.
  - assert (Hs : forall row, cur !! p = Some row -> bool_decide (p ∈ f :: l) = bool_decide (p ∈ l)).
    { intros row _. apply bool_decide_ext. set_solver. }
    destruct (cur !! f) as [rf|] eqn:Ef, (cur !! p) as [row|] eqn:Ep;
      rewrite ?(Hs row eq_refl), ?lookup_insert_ne by done; done.
Qed.

Lemma lookup_full_index m p :
  full_index m !! p = (fun row => index p (fr_ContentHash row)) <$> m !! p.
Proof. unfold full_index. rewrite map_lookup_imap. by destruct (m !! p). Qed.

(** Files whose content is the same in both manifests need no work. *)
Lemma incremental_full prev cur deleted files :
  (forall p, p ∈ deleted <-> is_Some (prev !! p) /\ cur !! p = None) ->
  (forall p row, cur !! p = Some row -> p ∉ files ->
     exists old, prev !! p = Some old /\ fr_ContentHash old = fr_ContentHash row) ->
  incremental_index cur deleted files (full_index prev) = full_index cur.
Proof.
  intros Hdel Hfiles. apply map_eq. intros p. unfold incremental_index.
  rewrite lookup_reindex, lookup_deletes, !lookup_full_index.
  destruct (cur !! p) as [row|] eqn:Ec; simpl.
  - case_bool_decide as Hf; [done|]. destruct (Hfiles p row Ec Hf) as (old & -> & E).
    rewrite bool_decide_eq_false_2 by (rewrite Hdel; naive_solver). simpl. by rewrite E.
  - case_bool_decide as Hd; [done|]. destruct (prev !! p) eqn:Ep; [|done].
    exfalso. apply Hd, Hdel. by rewrite Ep.
Qed.
End Index.

(** ** The lists of a plan *)

Lemma no_manifest p : manifestFileMap [] !! p = None.
Proof. apply lookup_empty. Qed.

Section Plan.
Context (previous current : list manifestFileRow) (zoektDelta : bool).
Let prev := manifestFileMap previous.
Let cur := manifestFileMap current.
Let plan := buildManifestDeltaPlan previous current zoektDelta.

Lemma plan_added p :
  p ∈ dp_AddedFiles plan <-> is_Some (cur !! p) /\ prev !! p = None.
Proof.
  unfold plan, buildManifestDeltaPlan, prev. destruct previous as [|r rs] eqn:E; simpl.
  - rewrite elem_of_sortedManifestKeys. fold cur. split; [|tauto]. intros H. split; [done|].
    apply no_manifest.
  - rewrite elem_of_sorted_where. setoid_rewrite bool_decide_eq_true. fold cur.
    split; [intros (v & -> & ?); eauto|intros [[v ->] ?]; eauto].
Qed.

Lemma plan_changed p :
  p ∈ dp_ChangedFiles plan <->
  exists old row, prev !! p = Some old /\ cur !! p = Some row /\
    fr_ContentHash old <> fr_ContentHash row.
Proof.
  unfold plan, buildManifestDeltaPlan, prev. destruct previous as [|r rs] eqn:E; simpl.
  - split; [intros H%not_elem_of_nil; done|]. intros (old & row & H & _).
    by rewrite no_manifest in H.
  - rewrite elem_of_sorted_where. fold cur. split.
    + intros (v & Hv & H). destruct (manifestFileMap (r :: rs) !! p) as [old|]; [|done].
      exists old, v. breflect. by split_and!.
    + intros (old & row & -> & Hr & Hne). exists row. split; [done|]. by breflect.
Qed.

Lemma plan_unchanged p :
  p ∈ dp_UnchangedFiles plan <->
  exists old row, prev !! p = Some old /\ cur !! p = Some row /\
    fr_ContentHash old = fr_ContentHash row.
Proof.
  unfold plan, buildManifestDeltaPlan, prev. destruct previous as [|r rs] eqn:E; simpl.
  - split; [intros H%not_elem_of_nil; done|]. intros (old & row & H & _).
    by rewrite no_manifest in H.
  - rewrite elem_of_sorted_where. fold cur. split.
    + intros (v & Hv & H). destruct (manifestFileMap (r :: rs) !! p) as [old|]; [|done].
      exists old, v. breflect. by split_and!.
    + intros (old & row & -> & Hr & Hne). exists row. split; [done|]. by breflect.
Qed.

Lemma plan_deleted p :
  p ∈ dp_DeletedFiles plan <-> is_Some (prev !! p) /\ cur !! p = None.
Proof.
  unfold plan, buildManifestDeltaPlan, prev. destruct previous as [|r rs] eqn:E; simpl.
  - split; [intros H%not_elem_of_nil; done|]. intros [[? H] _]. by rewrite no_manifest in H.
  - rewrite elem_of_sorted_where. setoid_rewrite bool_decide_eq_true. fold cur.
    split; [intros (v & -> & ?); eauto|intros [[v ->] ?]; eauto].
Qed.

(** The work lists are the added and the changed files. *)
Lemma plan_files : gp_Files (dp_Graph plan) = dp_AddedFiles plan ++ dp_ChangedFiles plan.
Proof.
  unfold plan, buildManifestDeltaPlan. destruct previous; simpl; [by rewrite app_nil_r|].
  match goal with |- (if ?b then _ else _) = _ => destruct b eqn:E end; [|done].
  breflect.
  repeat match goal with H : _ = [] |- _ => rewrite H; clear H end. done.
Qed.

Lemma plan_same_files :
  zp_Files (dp_Zoekt plan) = gp_Files (dp_Graph plan) /\
  xp_Files (dp_SCIP plan) = gp_Files (dp_Graph plan) /\
  gp_DeletedFiles (dp_Graph plan) = dp_DeletedFiles plan.
Proof.
  unfold plan, buildManifestDeltaPlan. destruct previous; simpl; [done|].
  match goal with |- context [if ?b then _ else _] => destruct b end; [done|].
  by destruct zoektDelta.
Qed.

Lemma plan_validates : validate (Some plan) = None.
Proof.
  unfold plan, buildManifestDeltaPlan, validate. destruct previous; simpl; [done|].
  destruct (bool_decide _ && bool_decide _ && bool_decide _); [done|].
  by destruct zoektDelta.
Qed.

(** Nothing to do exactly when both manifests have the same contents. *)
Lemma plan_noop :
  dp_Mode plan = "NOOP" <->
  previous <> [] /\ fr_ContentHash <$> prev = fr_ContentHash <$> cur.
Proof.
  assert (Hlists : fr_ContentHash <$> prev = fr_ContentHash <$> cur <->
      dp_AddedFiles plan = [] /\ dp_ChangedFiles plan = [] /\ dp_DeletedFiles plan = []).
  { split.
    - intros E. assert (Ep : forall p, fr_ContentHash <$> prev !! p = fr_ContentHash <$> cur !! p)
        by (intros p; by rewrite <- !lookup_fmap, E).
      split_and!; apply elem_of_nil_inv; intros p H; specialize (Ep p).
      + apply plan_added in H as [[row Hr] Hp]. by rewrite Hr, Hp in Ep.
      + apply plan_changed in H as (old & row & Ho & Hr & Hne). rewrite Ho, Hr in Ep. naive_solver.
      + apply plan_deleted in H as [[old Ho] Hc]. by rewrite Ho, Hc in Ep.
    - intros (Ha & Hc & Hd). apply map_eq. intros p. rewrite !lookup_fmap.
      destruct (prev !! p) as [old|] eqn:Ho, (cur !! p) as [row|] eqn:Hr; simpl; try done.
      + f_equal. destruct (decide (fr_ContentHash old = fr_ContentHash row)) as [|Hne]; [done|].
        exfalso. apply (not_elem_of_nil p). rewrite <- Hc. apply plan_changed. eauto.
      + exfalso. apply (not_elem_of_nil p). rewrite <- Hd. apply plan_deleted. by rewrite Ho.
      + exfalso. apply (not_elem_of_nil p). rewrite <- Ha. apply plan_added. by rewrite Hr. }
  rewrite Hlists. clear Hlists. unfold plan, buildManifestDeltaPlan.
  destruct previous; simpl; [naive_solver|].
  destruct (bool_decide _ && bool_decide _ && bool_decide _) eqn:E; breflect; [by split_and!|].
  split; [done|]. intros (_ & Ha & Hc & Hd). rewrite Ha, Hc, Hd in E.
  destruct E as [[E|E]|E]; done.
Qed.
End Plan.

(** Incremental indexing is exact.  For every way of indexing a file from its
    path and content, removing the plan's deleted files from the previous index
    and indexing its listed files gives the full index of the current commit; the
    three layers get the same list; every file of either manifest is in exactly
    one of the added, changed, unchanged and deleted lists, the one its presence
    and its two content hashes say; the plan is a no-op exactly when a previous
    manifest exists and has the same contents; and the plan is valid. *)
Theorem delta_plan_exact {X} (index : string -> string -> X) previous current zoektDelta :
  let prev := manifestFileMap previous in
  let cur := manifestFileMap current in
  let plan := buildManifestDeltaPlan previous current zoektDelta in
  incremental_index index cur (gp_DeletedFiles (dp_Graph plan)) (gp_Files (dp_Graph plan))
    (full_index index prev) = full_index index cur /\
  zp_Files (dp_Zoekt plan) = gp_Files (dp_Graph plan) /\
  xp_Files (dp_SCIP plan) = gp_Files (dp_Graph plan) /\
  (forall p, p ∈ dp_AddedFiles plan <-> is_Some (cur !! p) /\ prev !! p = None) /\
  (forall p, p ∈ dp_ChangedFiles plan <->
     exists old row, prev !! p = Some old /\ cur !! p = Some row /\
       fr_ContentHash old <> fr_ContentHash row) /\
  (forall p, p ∈ dp_UnchangedFiles plan <->
     exists old row, prev !! p = Some old /\ cur !! p = Some row /\
       fr_ContentHash old = fr_ContentHash row) /\
  (forall p, p ∈ dp_DeletedFiles plan <-> is_Some (prev !! p) /\ cur !! p = None) /\
  (dp_Mode plan = "NOOP" <->
     previous <> [] /\ fr_ContentHash <$> prev = fr_ContentHash <$> cur) /\
  validate (Some plan) = None.
Proof.
  intros prev cur plan.
  destruct (plan_same_files previous current zoektDelta) as (Hz & Hx & Hd).
  fold plan in Hz, Hx, Hd. split; [|split_and!].
  - rewrite Hd. apply incremental_full; [apply plan_deleted|].
    intros p row Hr Hp. unfold plan in Hp. rewrite plan_files, elem_of_app in Hp.
    rewrite plan_added, plan_changed in Hp. fold prev cur in Hp.
    destruct (prev !! p) as [old|] eqn:Ho; [|exfalso; apply Hp; left; by rewrite Hr].
    exists old. split; [done|].
    destruct (decide (fr_ContentHash old = fr_ContentHash row)); [done|]. exfalso. eauto 8.
  - done.
  - done.
  - apply plan_added.
  - apply plan_changed.
  - apply plan_unchanged.
  - apply plan_deleted.
  - apply plan_noop.
  - apply plan_validates.
Qed.

(** ** Projects *)

Lemma elem_of_roots files r : r ∈ uniqueManifestProjectRoots files <-> exists f, f ∈ files /\ row_root f = r.
Proof.
  unfold uniqueManifestProjectRoots. rewrite elem_of_SortStrings, elem_of_dedup_first, list_elem_of_fmap.
  split; [intros [(f & -> & ?) _]; eauto|]. intros (f & ? & <-). split; [eauto|]. apply not_elem_of_nil.
Qed.

Lemma scip_roots previous current zoektDelta r :
  previous <> [] ->
  r ∈ xp_ProjectRoots (dp_SCIP (buildManifestDeltaPlan previous current zoektDelta)) <->
  exists p f, p ∈ xp_Files (dp_SCIP (buildManifestDeltaPlan previous current zoektDelta)) /\
    manifestFileMap current !! p = Some f /\ row_root f = r.
Proof.
  intros Hne. unfold buildManifestDeltaPlan. destruct previous; [done|]. simpl.
  match goal with |- context [if ?b then _ else _] => destruct b end.
  { split; [intros H%not_elem_of_nil; done|]. intros (p & f & H%not_elem_of_nil & _). done. }
  unfold uniqueManifestProjectRootsForPaths. rewrite elem_of_roots.
  setoid_rewrite list_elem_of_omap. naive_solver.
Qed.

(** The SCIP projects that are run again.  Against a previous manifest, a
    detected project is kept exactly when its root, in normal form, is that of the
    project root recorded for an added or changed file; without a previous
    manifest every project is kept. *)
Theorem scip_projects_for_delta previous current zoektDelta projects pr :
  let plan := buildManifestDeltaPlan previous current zoektDelta in
  pr ∈ filterSCIPProjectsForDelta projects (Some plan) <->
  pr ∈ projects /\
  (previous = [] \/
   exists p f, p ∈ dp_AddedFiles plan ++ dp_ChangedFiles plan /\
     manifestFileMap current !! p = Some f /\
     TrimProjectRoot (row_root f) = TrimProjectRoot (sp_ProjectRoot pr)).
Proof.
  intros plan. destruct (decide (previous = [])) as [->|Hne].
  { simpl. tauto. }
  pose proof (fun r => scip_roots previous current zoektDelta r Hne) as Hroots.
  fold plan in Hroots.
  destruct (plan_same_files previous current zoektDelta) as (_ & Hx & _). fold plan in Hx.
  pose proof (plan_files previous current zoektDelta) as Hf. fold plan in Hf.
  rewrite Hf in Hx. setoid_rewrite Hx in Hroots.
  assert (Hfilter : pr ∈ filterSCIPProjectsForDelta projects (Some plan) <->
    pr ∈ projects /\ exists r, r ∈ xp_ProjectRoots (dp_SCIP plan) /\
      TrimProjectRoot r = TrimProjectRoot (sp_ProjectRoot pr)).
  { unfold filterSCIPProjectsForDelta.
    assert (Hs : xp_Strategy (dp_SCIP plan) = "NOOP" /\ xp_ProjectRoots (dp_SCIP plan) = [] \/
                 xp_Strategy (dp_SCIP plan) = "PROJECT_ROOTS").
    { unfold plan, buildManifestDeltaPlan. destruct previous; [done|]. simpl.
      match goal with |- context [if ?b then _ else _] => destruct b end; auto. }
    destruct Hs as [[-> ->]| ->]; simpl.
    - split; [intros H%not_elem_of_nil; done|]. intros [_ (r & H%not_elem_of_nil & _)]. done.
    - rewrite list_elem_of_In, filter_In, <- list_elem_of_In, bool_decide_eq_true, list_elem_of_fmap.
      naive_solver. }
  rewrite Hfilter. setoid_rewrite Hroots. naive_solver.
Qed.

(** ** Project roots *)

Lemma longer_negtrans x y z : longer y x = false -> longer z y = false -> longer z x = false.
Proof. unfold longer. rewrite !Nat.ltb_ge. lia. Qed.

Lemma longer_asym x y : longer x y = true -> longer y x = false.
Proof. unfold longer. rewrite Nat.ltb_lt, Nat.ltb_ge. lia. Qed.

(** The first root of a list that contains the file. *)
Lemma nearest_first file roots :
  let r := nearestManifestProjectRoot file roots in
  (exists l1 l2, roots = l1 ++ r :: l2 /\ root_contains file r = true /\
     forall x, x ∈ l1 -> root_contains file x = false) \/
  r = "." /\ forall x, x ∈ roots -> root_contains file x = false.
Proof.
  induction roots as [|x roots IH]; simpl; [right; set_solver|].
  destruct (root_contains file x) eqn:E.
  - left. exists [], roots. set_solver.
  - destruct IH as [(l1 & l2 & E' & Hr & Hl)|[Hr Hl]].
    + left. exists (x :: l1), l2. simpl. rewrite E' at 1. split_and!; try done. set_solver.
    + right. split; [done|]. set_solver.
Qed.

(** A file belongs to its deepest project.  The root of a file is a detected
    root that contains it, and no longer detected root does. *)
Theorem nearest_root_deepest file paths :
  let roots := detectManifestProjectRoots paths in
  let r := nearestManifestProjectRoot file roots in
  r ∈ roots /\ root_contains file r = true /\
  (forall x, x ∈ roots -> root_contains file x = true ->
     (String.length x <= String.length r)%nat) /\
  (forall x, x ∈ roots <->
     x = "." \/ exists p, p ∈ paths /\ is_root_marker (path_Base p) = true /\ marker_root p = x).
Proof.
  intros roots r.
  assert (Hsorted : StronglySorted (fun a b => longer b a = false) roots)
    by (apply sort_stable_sorted; [apply longer_negtrans|apply longer_asym]).
  assert (Hspec : forall x, x ∈ roots <->
     x = "." \/ exists p, p ∈ paths /\ is_root_marker (path_Base p) = true /\ marker_root p = x).
  { intros x. unfold roots, detectManifestProjectRoots. rewrite elem_of_sort_stable, elem_of_cons.
    rewrite elem_of_dedup_first, list_elem_of_fmap. setoid_rewrite list_elem_of_In.
    setoid_rewrite filter_In. setoid_rewrite <- list_elem_of_In.
    destruct (decide (x = ".")) as [->|Hx]; [naive_solver|].
    split; [naive_solver|]. intros [?|(p & ? & ? & <-)]; [done|]. right. split; [eauto|set_solver]. }
  destruct (nearest_first file roots) as [(l1 & l2 & E & Hr & Hl)|[_ Hl]]; cycle 1.
  { assert (Hdot : "." ∈ roots) by (apply Hspec; by left). by specialize (Hl "." Hdot). }
  fold r in E, Hr. split_and!; [rewrite E; set_solver|done| |done].
  intros x Hx Hc. rewrite E in Hx. apply elem_of_app in Hx as [Hx|[->|Hx]%elem_of_cons].
  - rewrite Hl in Hc; done.
  - done.
  - rewrite E in Hsorted. apply StronglySorted_app_1_r in Hsorted.
    apply StronglySorted_inv in Hsorted as [_ Hs]. rewrite Forall_forall in Hs.
    specialize (Hs x Hx). unfold longer in Hs. by apply Nat.ltb_ge in Hs.
Qed.

(** A commit with one Go module in directory a, before and after an edit. *)
Definition module_commit (hash : string) : list GitFile :=
  [{| gf_Name := "a/go.mod"; gf_Mode := Regular; gf_Hash := "h0" |};
   {| gf_Name := "a/x.go"; gf_Mode := Regular; gf_Hash := hash |}].

Definition module_project : SCIPProject :=
  {| sp_Language := "go"; sp_ProjectRoot := "a"; sp_Indexer := "scip-go";
     sp_SCIPWorkerClass := "go"; sp_ToolchainDigest := None; sp_ImageDigest := None;
     sp_ProjectInputHash := None |}.

(** A project in a directory with a one-letter name is missed.  Its root has
    the length of the root of the repository, which the stable sort keeps first,
    so its files are filed under the repository and an edit of one of them does
    not run the project again. *)
Theorem short_root_missed :
  let before := buildManifestFiles (module_commit "h1") in
  let after := buildManifestFiles (module_commit "h2") in
  let plan := buildManifestDeltaPlan before after true in
  "a" ∈ detectManifestProjectRoots (map fr_Path after) /\
  dp_ChangedFiles plan = ["a/x.go"] /\
  map fr_ProjectRoot after = [Some "."; Some "."] /\
  filterSCIPProjectsForDelta [module_project] (Some plan) = [].
Proof. split_and!; [apply (bool_decide_unpack _); vm_compute; done|reflexivity..]. Qed.

Lemma buildManifestFiles_language files row :
  row ∈ buildManifestFiles files ->
  exists f, f ∈ files /\ fr_Path row = normalizeManifestPath (gf_Name f) /\
    fr_Language row = stringPtr (inferManifestLanguage (fr_Path row)).
Proof.
  unfold buildManifestFiles. rewrite elem_of_sort_stable, list_elem_of_fmap.
  intros (r & -> & Hr). rewrite list_elem_of_In, filter_In, <- list_elem_of_In in Hr.
  destruct Hr as [(f & -> & Hf)%list_elem_of_fmap _].
  rewrite list_elem_of_In, filter_In, <- list_elem_of_In in Hf.
  destruct Hf as [Hf _]. exists f. by split_and!.
Qed.

(** A Java file as a manifest without languages lists it. *)
Definition java_row : manifestFileRow :=
  {| fr_Path := "src/A.java"; fr_ContentHash := "h1"; fr_Language := None;
     fr_ProjectRoot := None; fr_Generated := false; fr_Vendor := false; fr_Test := false |}.

(** A Java, Kotlin or Scala repository is never repaired.  The manifest files
    them under jvm, a language the test for semantic candidates does not list, so
    for a commit that holds only such files, documents and configuration the
    test answers no, though the same test accepts a Java path that has no
    language. *)
Theorem jvm_never_repaired files :
  (forall f, f ∈ files ->
     inferManifestLanguage (normalizeManifestPath (gf_Name f)) ∈ ["jvm"; "docs"; "config"]) ->
  manifestHasSemanticCandidates (buildManifestFiles files) = false /\
  manifestHasSemanticCandidates [java_row] = true.
Proof.
  intros Hfiles. split; [|reflexivity].
  apply not_true_is_false. intros (row & Hrow & Hl)%existsb_exists.
  apply list_elem_of_In, buildManifestFiles_language in Hrow as (f & Hf & Hp & Hlang).
  specialize (Hfiles f Hf). rewrite <- Hp in Hfiles. rewrite Hlang in Hl. clear Hlang Hp.
  rewrite !elem_of_cons, elem_of_nil in Hfiles.
  destruct Hfiles as [E|[E|[E|[]]]]; rewrite E in Hl; vm_compute in Hl; discriminate.
Qed.

Lemma jvm_never_repaired_witness :
  manifestHasSemanticCandidates
    (buildManifestFiles [{| gf_Name := "src/A.java"; gf_Mode := Regular; gf_Hash := "h1" |}]) = false.
Proof.
  apply (jvm_never_repaired [{| gf_Name := "src/A.java"; gf_Mode := Regular; gf_Hash := "h1" |}]).
  intros f ->%list_elem_of_singleton. apply (bool_decide_unpack _). vm_compute. done.
Defined.
