(* ===== verification/FileTree.v ===== *)
(** The part of the file system the indexing code touches, as a finite map from
    path to kind of file, with the operations of [os] and [filepath.WalkDir] it
    uses.  Paths are the clean texts the code computes; a relative path and its
    absolute form are not told apart. *)
From Stdlib Require Import Ascii.
From S2P Require Import Prelude GoStd GoStdFacts.
Inductive FileKind : Type := KDir | KFile | KSymlink | KOther.

#[global] Instance FileKind_eq_dec : EqDecision FileKind.
Proof. solve_decision. Defined.

Definition FS : Type := gmap string FileKind.

(** [p] lies strictly below the directory [dir]. *)
Definition below (dir p : string) : bool := HasPrefix p (dir +:+ "/").

Definition at_or_below (dir p : string) : bool := (p =s dir) || below dir p.

(** [os.RemoveAll] *)
Definition RemoveAll (p : string) (fs : FS) : FS := filter (fun kv => at_or_below p kv.1 = false) fs.

(** [os.Remove] of a file. *)
Definition Remove (p : string) (fs : FS) : FS := delete p fs.

(** [os.Stat(p)] finds something. *)
Definition Exists (p : string) (fs : FS) : bool := bool_decide (fs !! p <> None).

(** The directories a path lies in, from the outside in; [pre] is the text read. *)
Fixpoint parents (pre s : string) : list string :=
  match s with
  | EmptyString => []
  | String c s' =>
      (if bool_decide (c = "/"%char /\ pre <> "") then [pre] else []) ++ parents (pre +:+ String c "") s'
  end.

(** [os.MkdirAll]: the path and the directories above it that are missing. *)
Definition MkdirAll (p : string) (fs : FS) : FS :=
  foldl (fun fs d => match fs !! d with Some _ => fs | None => <[d := KDir]> fs end)
    fs (parents "" p ++ [p]).

(** What lies below [root], by its path relative to [root]. *)
Definition walk (root : string) (fs : FS) : list (string * FileKind) :=
  map (fun kv => (TrimPrefix kv.1 (root +:+ "/"), kv.2))
    (List.filter (fun kv => below root kv.1) (map_to_list fs)).

(** [os.ReadDir]: the entries directly in [dir], by name. *)
Definition ReadDir (dir : string) (fs : FS) : list (string * FileKind) :=
  sort_stable (fun a b => str_ltb a.1 b.1)
    (List.filter (fun e => negb (Contains e.1 "/")) (walk dir fs)).

Lemma elem_of_walk root fs rel k :
  (rel, k) ∈ walk root fs <-> fs !! (root +:+ "/" +:+ rel) = Some k.
Proof.
  unfold walk. rewrite <- str_app_assoc, list_elem_of_fmap. split.
  - intros ([p k'] & [= -> ->] & Hin). apply list_elem_of_In, filter_In in Hin as [Hin Hb].
    apply list_elem_of_In, elem_of_map_to_list in Hin. simpl in *.
    unfold below in Hb. apply HasPrefix_spec in Hb as [r ->]. by rewrite TrimPrefix_app.
  - intros H. exists ((root +:+ "/") +:+ rel, k). simpl. rewrite TrimPrefix_app. split; [done|].
    apply list_elem_of_In, filter_In. split.
    + by apply list_elem_of_In, elem_of_map_to_list.
    + apply HasPrefix_app.
Qed.

Lemma lookup_RemoveAll p q fs :
  RemoveAll p fs !! q = if at_or_below p q then None else fs !! q.
Proof.
  unfold RemoveAll. destruct (at_or_below p q) eqn:A.
  - apply map_lookup_filter_None. right. intros k _. simpl. congruence.
  - destruct (fs !! q) as [k|] eqn:E.
    + apply map_lookup_filter_Some. by split.
    + apply map_lookup_filter_None. by left.
Qed.
