(* ===== verification/ScipDetect.v ===== *)
(** Detection of SCIP projects in a revision snapshot,
    src/internal/backend/scipprojectdetect/detect.go: marker files, inferred
    TypeScript roots, the worker classes of the deployment and the limit on the
    number of projects.  Go maps used as sets are deduplicated lists. *)
From Stdlib Require Import Ascii.
From S2P Require Import Prelude GoStd GoStdFacts GoJSON GoText Planner FileTree.
Definition envWorkerClasses : string := "CODEINTEL_INDEX_PLAN_SCIP_WORKER_CLASSES".
Definition envMaxProjects : string := "CODEINTEL_SCIP_MAX_PROJECT_ROOTS_PER_REVISION".
Definition defaultMax : Z := 24.

Record Config : Type := { cf_WorkerClasses : string; cf_MaxProjects : Z }.

Definition ConfigFromEnv (getenv : string -> string) : Config :=
  let raw := TrimSpace (getenv envMaxProjects) in
  let maxProjects :=
    if raw =s "" then defaultMax
    else match Atoi raw with
         | Some parsed => if 0 <? parsed then parsed else defaultMax
         | None => defaultMax
         end in
  let workerClasses := TrimSpace (getenv envWorkerClasses) in
  {| cf_WorkerClasses := if workerClasses =s "" then "universal" else workerClasses;
     cf_MaxProjects := maxProjects |}.

Record Plan : Type := { pn_Runnable : list SCIPProject; pn_Skipped : list SCIPProject }.

Record definition : Type := {
  df_language : string; df_indexer : string; df_workerClass : string; df_markers : list string
}.

Definition supported : list definition :=
  [{| df_language := "typescript"; df_indexer := "scip-typescript"; df_workerClass := "ts-js";
      df_markers := ["tsconfig.json"; "jsconfig.json"; "package.json"] |};
   {| df_language := "go"; df_indexer := "scip-go"; df_workerClass := "go";
      df_markers := ["go.mod"] |};
   {| df_language := "python"; df_indexer := "scip-python"; df_workerClass := "python";
      df_markers := ["pyproject.toml"; "setup.py"; "setup.cfg"; "requirements.txt"; "Pipfile"] |};
   {| df_language := "java"; df_indexer := "scip-java"; df_workerClass := "jvm";
      df_markers := ["pom.xml"; "build.gradle"; "build.gradle.kts"; "settings.gradle";
                     "settings.gradle.kts"; "build.sbt"] |};
   {| df_language := "cpp"; df_indexer := "scip-clang"; df_workerClass := "cpp";
      df_markers := ["compile_commands.json"] |};
   {| df_language := "dotnet"; df_indexer := "scip-dotnet"; df_workerClass := "dotnet";
      df_markers := [] |};
   {| df_language := "ruby"; df_indexer := "scip-ruby"; df_workerClass := "ruby";
      df_markers := ["Gemfile"] |};
   {| df_language := "rust"; df_indexer := "rust-analyzer"; df_workerClass := "rust-dart";
      df_markers := ["Cargo.toml"] |};
   {| df_language := "dart"; df_indexer := "dart"; df_workerClass := "rust-dart";
      df_markers := ["pubspec.yaml"] |}].

Definition ignoredSegments : list string :=
  [".git"; "node_modules"; ".next"; "dist"; "build"; "target"; ".venv"; "venv"; "__pycache__";
   "vendor"].

Definition dotnetSuffixes : list string := [".sln"; ".csproj"; ".vbproj"; ".fsproj"].
Definition rubySuffixes : list string := [".gemspec"].
Definition typescriptSuffix : list string :=
  [".ts"; ".tsx"; ".js"; ".jsx"; ".mts"; ".cts"; ".mjs"; ".cjs"].
Definition jvmSourceSuffixes : list string := [".java"; ".scala"; ".kt"].
Definition defaultClassAllow : string := "all".

Record project : Type := {
  pj_language : string; pj_indexer : string; pj_workerClass : string; pj_root : string
}.

#[global] Instance project_eq_dec : EqDecision project.
Proof. solve_decision. Defined.

(** ** Files *)

Definition pathIsIgnored (rel : string) : bool :=
  existsb (fun part => bool_decide (part ∈ ignoredSegments)) (SplitByte "/" rel).

(** The walk of the snapshot.  A directory that is not entered makes the paths of
    everything below it ignored, so leaving out the ignored paths is the same. *)
Definition snapshotFiles (snapshotRoot : string) (fs : FS) : result gerror (list string) :=
  if negb (Exists snapshotRoot fs)
  then Err (EText ("lstat " +:+ snapshotRoot +:+ ": no such file or directory"))
  else
    Ok (SortStrings (map fst
      (List.filter (fun e => negb (bool_decide (e.2 = KDir)) && negb (pathIsIgnored e.1))
         (walk snapshotRoot fs)))).

Definition hasAnySuffix (s : string) (suffixes : list string) : bool :=
  existsb (fun suffix => HasSuffix s suffix) suffixes.

Definition fileInRoot (file root : string) : bool :=
  if (root =s "") || (root =s ".") then true
  else (file =s root) || HasPrefix file (root +:+ "/").

Definition coveredByRoot (file : string) (roots : list string) : bool :=
  existsb (fun root => fileInRoot file root) roots.

(** [path.Dir], with "" for the repository root. *)
Definition file_root (file : string) : string :=
  let root := path_Dir file in if root =s "." then "" else root.

Definition typeScriptMarkerRoots (files : list string) : list string :=
  SortStrings (dedup_first [] (map file_root
    (List.filter (fun file =>
       bool_decide (path_Base file ∈ ["package.json"; "tsconfig.json"; "jsconfig.json"])) files))).

Definition matches (def : definition) (base : string) : bool :=
  if existsb (fun marker => base =s marker) (df_markers def) then true
  else if df_language def =s "dotnet" then hasAnySuffix base dotnetSuffixes
  else if df_language def =s "ruby" then hasAnySuffix base rubySuffixes
  else false.

Definition containedByNestedRoot (file root : string) (markerRoots : list string) : bool :=
  existsb (fun child =>
    if (child =s root) || (child =s "") then false
    else if negb (root =s "") && negb (HasPrefix child (root +:+ "/")) then false
    else if (root =s "") || HasPrefix child (root +:+ "/") then fileInRoot file child
    else false) markerRoots.

(** A TypeScript or JavaScript source that is not generated. *)
Definition typescript_input (file : string) : bool :=
  let lower := ToLower file in
  negb (negb (hasAnySuffix lower typescriptSuffix) || HasSuffix lower ".d.ts"
        || HasSuffix lower ".min.js" || (file =s "coverage") || HasPrefix file "coverage/"
        || Contains file "/coverage/").

Definition hasTypeScriptInputInRoot (files : list string) (root : string)
    (markerRoots : list string) : bool :=
  existsb (fun file =>
    fileInRoot file root && negb (containedByNestedRoot file root markerRoots)
    && typescript_input file) files.

Definition hasJVMSourceSetInputInRoot (files : list string) (root : string) : bool :=
  existsb (fun file =>
    fileInRoot file root
    && (let rel := if (root =s "") || (root =s ".") then file else TrimPrefix file (root +:+ "/") in
        let lower := ToLower rel in
        hasAnySuffix lower jvmSourceSuffixes
        && (HasPrefix lower "src/" || Contains lower "/src/"))) files.

(** ** Projects *)

Definition NUL1 : string := String (chr 0) "".

Definition project_key (p : project) : string := pj_language p +:+ NUL1 +:+ pj_root p.

Definition project_less (a b : project) : bool :=
  if pj_root a =s pj_root b then str_ltb (pj_language a) (pj_language b)
  else str_ltb (pj_root a) (pj_root b).

(** The keys are distinct, so [sort.Slice] has one possible result. *)
Definition sortProjects (projects : list project) : list project := sort_stable project_less projects.

Definition project_of (def : definition) (root : string) : project :=
  {| pj_language := df_language def; pj_indexer := df_indexer def;
     pj_workerClass := df_workerClass def; pj_root := root |}.

(** The definitions a file is a marker of, with the source checks of TypeScript
    and Java. *)
Definition file_projects (files tsMarkerRoots : list string) (file : string) : list project :=
  let root := file_root file in
  map (fun def => project_of def root)
    (List.filter (fun def =>
       matches def (path_Base file)
       && negb ((df_language def =s "typescript")
                && negb (hasTypeScriptInputInRoot files root tsMarkerRoots))
       && negb ((df_language def =s "java") && negb (hasJVMSourceSetInputInRoot files root)))
       supported).

(** Keeps the first project of each key. *)
Fixpoint first_by_key (seen : list string) (l : list project) : list project :=
  match l with
  | [] => []
  | p :: rest =>
      if bool_decide (project_key p ∈ seen) then first_by_key seen rest
      else p :: first_by_key (project_key p :: seen) rest
  end.

Definition detect (files : list string) : list project :=
  sortProjects (first_by_key []
    (flat_map (file_projects files (typeScriptMarkerRoots files)) files)).

Definition typescript_project (root : string) : project :=
  {| pj_language := "typescript"; pj_indexer := "scip-typescript"; pj_workerClass := "ts-js";
     pj_root := root |}.

Fixpoint src_root (before : list string) (parts : list string) : string :=
  match parts with
  | [] => ""
  | part :: rest =>
      if (part =s "src") && (0 <? length before)%nat then Join before "/"
      else src_root (before ++ [part]) rest
  end.

Definition inferTypeScriptRoot (file : string) : string := src_root [] (SplitByte "/" file).

Definition addInferredTypeScriptProjects (files : list string) (projects : list project)
  : list project :=
  let roots := map pj_root (List.filter (fun p => pj_language p =s "typescript") projects) in
  let inferred :=
    map inferTypeScriptRoot
      (List.filter (fun file => typescript_input file && negb (coveredByRoot file roots)) files) in
  let seen := map project_key projects in
  let inferredRoots := SortStrings (dedup_first [] inferred) in
  sortProjects (projects ++ map typescript_project
    (List.filter (fun root => negb (bool_decide (project_key (typescript_project root) ∈ seen)))
       inferredRoots)).

(** ** Worker classes *)

Definition parseWorkerClasses (raw : string) : list string :=
  let raw := if TrimSpace raw =s "" then defaultClassAllow else raw in
  let out := List.filter (fun s => negb (s =s "")) (map TrimSpace (SplitByte "," raw)) in
  if (length out =? 0)%nat then [defaultClassAllow] else out.

Definition splitWorkerClasses (projects : list project) (raw : string)
  : list project * list project :=
  let allowed := parseWorkerClasses raw in
  if bool_decide ("none" ∈ allowed) then ([], projects)
  else if bool_decide ("all" ∈ allowed) then (projects, [])
  else if bool_decide ("universal" ∈ allowed) then (projects, [])
  else
    let ok p := bool_decide (pj_workerClass p ∈ allowed) in
    (List.filter ok projects, List.filter (fun p => negb (ok p)) projects).

Definition toPlannerProjects (projects : list project) : list SCIPProject :=
  map (fun p => {| sp_Language := pj_language p; sp_ProjectRoot := pj_root p;
                   sp_Indexer := pj_indexer p; sp_SCIPWorkerClass := pj_workerClass p;
                   sp_ToolchainDigest := None; sp_ImageDigest := None;
                   sp_ProjectInputHash := None |}) projects.

(** The projects of a snapshot, before the classes and the limit. *)
Definition all_projects (files : list string) : list project :=
  addInferredTypeScriptProjects files (detect files).

Definition DetectSnapshotPlan (snapshotRoot : string) (cfg : Config) (fs : FS) : result gerror Plan :=
  let? files := snapshotFiles snapshotRoot fs in
  let '(runnable, skipped) := splitWorkerClasses (all_projects files) (cf_WorkerClasses cfg) in
  let maxProjects := Z.to_nat (if cf_MaxProjects cfg <=? 0 then defaultMax else cf_MaxProjects cfg) in
  Ok {| pn_Runnable := toPlannerProjects (firstn maxProjects runnable);
        pn_Skipped := toPlannerProjects (firstn maxProjects skipped) |}.

Definition DetectSnapshot (snapshotRoot : string) (cfg : Config) (fs : FS)
  : result gerror (list SCIPProject) :=
  let? plan := DetectSnapshotPlan snapshotRoot cfg fs in Ok (pn_Runnable plan).

(** The polyglot snapshot of the package's tests. *)
Example detect_polyglot :
  let files := ["api/go.mod"; "api/main.go"; "service/pom.xml"; "service/src/main/java/A.java";
                "web/package.json"; "web/src/app.ts"; "tools/src/x.ts"] in
  map (fun p => (pj_language p, pj_root p)) (all_projects files)
  = [("go", "api"); ("java", "service"); ("typescript", "tools"); ("typescript", "web")].
Proof. vm_compute. reflexivity. Qed.
