(* ===== verification/ScipDetectFacts.v ===== *)
(** What the detected SCIP projects are: complete, distinct, ordered, accepted by
    the planner; and which of them an incremental plan can reach. *)
From Stdlib Require Import Ascii.
From S2P Require Import Prelude GoStd GoStdFacts GoJSON GoText WorkerClasses SubjobTypes Planner PlannerFacts.
From S2P Require Import ManifestDelta FileTree ScipDetect.
(** ** Order *)

Lemma project_less_asym a b : project_less a b = true -> project_less b a = false.
Proof.
  unfold project_less. destruct (pj_root a =s pj_root b) eqn:E.
  - apply str_eqb_spec in E. rewrite E, str_eqb_refl. apply str_ltb_asym.
  - assert ((pj_root b =s pj_root a) = false) as ->
      by (apply str_eqb_false in E; by apply str_eqb_false). apply str_ltb_asym.
Qed.

Lemma project_less_false a b :
  project_less b a = false <->
  str_ltb (pj_root b) (pj_root a) = false /\
  (pj_root a = pj_root b -> str_ltb (pj_language b) (pj_language a) = false).
Proof.
  unfold project_less. destruct (pj_root b =s pj_root a) eqn:E; breflect.
  - rewrite E. split; [intros H; split; [apply str_ltb_irrefl|done]|naive_solver].
  - split; [intros H; split; [done|congruence]|naive_solver].
Qed.

Lemma project_less_negtrans x y z :
  project_less y x = false -> project_less z y = false -> project_less z x = false.
Proof.
  rewrite !project_less_false. intros [H1 H2] [H3 H4]. split; [by eapply str_ltb_negtrans|].
  intros E. rewrite <- E in H3.
  assert (pj_root x = pj_root y) as Exy by (by apply str_ltb_total).
  eapply str_ltb_negtrans; [by apply H2|]. apply H4. congruence.
Qed.

Lemma sortProjects_sorted l : StronglySorted (fun a b => project_less b a = false) (sortProjects l).
Proof. apply sort_stable_sorted; [exact project_less_negtrans|exact project_less_asym]. Qed.

Lemma sortProjects_perm l : sortProjects l ≡ₚ l.
Proof. apply sort_stable_perm. Qed.

(** ** Keys *)

Lemma first_by_key_keys seen l :
  NoDup (map project_key (first_by_key seen l)) /\
  forall p, p ∈ first_by_key seen l -> project_key p ∉ seen.
Proof.
  revert seen. induction l as [|q l IH]; intros seen; simpl.
  { split; [constructor|set_solver]. }
  case_bool_decide as Hq; [apply IH|]. destruct (IH (project_key q :: seen)) as [Hnd Hs].
  split.
  - simpl. constructor; [|done]. intros (p & Hk & Hp)%list_elem_of_fmap.
    apply Hs in Hp. set_solver.
  - intros p [->|Hp]%elem_of_cons; [done|]. apply Hs in Hp. set_solver.
Qed.

Lemma first_by_key_complete seen l p :
  p ∈ l -> project_key p ∈ seen \/ exists q, q ∈ first_by_key seen l /\ project_key q = project_key p.
Proof.
  revert seen. induction l as [|q l IH]; intros seen; simpl; [set_solver|].
  intros [->|Hp]%elem_of_cons; case_bool_decide as Hq.
  - by left.
  - right. exists q. set_solver.
  - by apply IH.
  - destruct (IH (project_key q :: seen) Hp) as [[E|?]%elem_of_cons|(r & Hr & E)].
    + right. exists q. rewrite E. set_solver.
    + by left.
    + right. exists r. set_solver.
Qed.

Lemma first_by_key_sub seen l p : p ∈ first_by_key seen l -> p ∈ l.
Proof.
  revert seen. induction l as [|q l IH]; intros seen; simpl; [set_solver|].
  case_bool_decide; [set_solver|]. intros [->|?]%elem_of_cons; set_solver.
Qed.

Lemma nul_split a b s t :
  chr 0 ∉ String.list_ascii_of_string a -> chr 0 ∉ String.list_ascii_of_string b ->
  a +:+ NUL1 +:+ s = b +:+ NUL1 +:+ t -> a = b /\ s = t.
Proof. intros Ha Hb H. by apply (str_first_split (chr 0)). Qed.

(** The languages hold no NUL, so a key names the language and the root. *)
Lemma project_key_inj p q :
  chr 0 ∉ String.list_ascii_of_string (pj_language p) ->
  chr 0 ∉ String.list_ascii_of_string (pj_language q) ->
  project_key p = project_key q -> pj_language p = pj_language q /\ pj_root p = pj_root q.
Proof. intros Hp Hq H. by apply nul_split. Qed.

Lemma typescript_nul : chr 0 ∉ String.list_ascii_of_string "typescript".
Proof. apply (bool_decide_unpack _). vm_compute. exact I. Qed.

(** ** The detected projects *)

Lemma elem_of_file_projects files roots f p :
  p ∈ file_projects files roots f ->
  exists def, def ∈ supported /\ p = project_of def (file_root f).
Proof.
  unfold file_projects. intros (def & -> & Hd)%list_elem_of_fmap.
  apply list_elem_of_In, filter_In in Hd as [Hd _]. exists def. by rewrite list_elem_of_In.
Qed.

Lemma supported_nul def : def ∈ supported -> chr 0 ∉ String.list_ascii_of_string (df_language def).
Proof.
  assert (H : Forall (fun d => chr 0 ∉ String.list_ascii_of_string (df_language d)) supported)
    by (apply (bool_decide_unpack _); vm_compute; exact I).
  rewrite Forall_forall in H. apply H.
Qed.

Lemma elem_of_flat_map {A B} (f : A -> list B) l y : y ∈ flat_map f l <-> exists x, x ∈ l /\ y ∈ f x.
Proof.
  rewrite list_elem_of_In, in_flat_map. split; intros (x & ? & ?); exists x;
    by rewrite !list_elem_of_In in *.
Qed.

Lemma detect_inv files p :
  p ∈ detect files ->
  exists f def, f ∈ files /\ def ∈ supported /\ p = project_of def (file_root f).
Proof.
  unfold detect. rewrite sortProjects_perm. intros Hp%first_by_key_sub.
  apply elem_of_flat_map in Hp as (f & Hf & Hp).
  apply elem_of_file_projects in Hp as (def & Hd & ->). by exists f, def.
Qed.

Lemma detect_NoDup files : NoDup (map project_key (detect files)).
Proof.
  unfold detect. rewrite sortProjects_perm. apply first_by_key_keys.
Qed.

Lemma detect_marker files f def :
  f ∈ files -> def ∈ supported -> matches def (path_Base f) = true ->
  df_language def <> "typescript" -> df_language def <> "java" ->
  exists p, p ∈ detect files /\ pj_language p = df_language def /\ pj_root p = file_root f.
Proof.
  intros Hf Hd Hm Hts Hjv. unfold detect. setoid_rewrite sortProjects_perm.
  set (ps := flat_map _ files).
  assert (Hin : project_of def (file_root f) ∈ ps).
  { apply elem_of_flat_map. exists f. split; [done|]. apply list_elem_of_fmap. exists def.
    split; [done|]. apply list_elem_of_In, filter_In. rewrite <- list_elem_of_In. split; [done|].
    apply str_eqb_false in Hts, Hjv. by rewrite Hm, Hts, Hjv. }
  destruct (first_by_key_complete [] ps _ Hin) as [Hnil|(q & Hq & E)]; [by apply elem_of_nil in Hnil|].
  exists q. split; [done|].
  assert (Hq' := Hq). apply first_by_key_sub, elem_of_flat_map in Hq' as (g & _ & Hq').
  apply elem_of_file_projects in Hq' as (def' & Hd' & ->).
  apply project_key_inj in E as [-> ->]; [done|by apply supported_nul..].
Qed.

(** ** Inferred TypeScript roots *)

Lemma fileInRoot_Join before rest :
  rest <> [] -> before <> [] -> fileInRoot (Join (before ++ rest) "/") (Join before "/") = true.
Proof.
  intros Hr Hb. unfold fileInRoot. destruct (_ || _); [done|]. rewrite Join_app by done.
  rewrite <- str_app_assoc, HasPrefix_app. apply orb_true_r.
Qed.

Lemma src_root_covers before parts :
  parts <> [] -> fileInRoot (Join (before ++ parts) "/") (src_root before parts) = true.
Proof.
  revert before. induction parts as [|w parts IH]; intros before Hne; simpl; [done|].
  destruct ((w =s "src") && _) eqn:E.
  - breflect. apply fileInRoot_Join; [done|]. intros ->. simpl in *. done.
  - destruct parts as [|v parts]; [done|].
    specialize (IH (before ++ [w])). rewrite <- app_assoc in IH. by apply IH.
Qed.

Lemma Join_SplitByte s : Join (SplitByte "/" s) "/" = s.
Proof.
  induction s as [|c s IH]; simpl; [done|]. pose proof (SplitByte_nonempty "/" s) as Hne.
  case_bool_decide as Hc.
  - subst c. destruct (SplitByte "/" s) as [|w ws]; [done|]. rewrite Join_cons2, IH. done.
  - destruct (SplitByte "/" s) as [|w ws]; [done|]. rewrite <- IH. destruct ws; done.
Qed.

Lemma inferTypeScriptRoot_covers f : fileInRoot f (inferTypeScriptRoot f) = true.
Proof.
  unfold inferTypeScriptRoot. pose proof (src_root_covers [] (SplitByte "/" f)) as H.
  simpl in H. rewrite Join_SplitByte in H. apply H. apply SplitByte_nonempty.
Qed.

Lemma all_projects_perm files :
  exists roots, all_projects files ≡ₚ detect files ++ map typescript_project roots /\
    NoDup (map project_key (detect files ++ map typescript_project roots)) /\
    forall f, f ∈ files -> typescript_input f = true ->
      coveredByRoot f (map pj_root (List.filter (fun p => pj_language p =s "typescript") (detect files)))
        = true \/
      inferTypeScriptRoot f ∈ roots \/
      project_key (typescript_project (inferTypeScriptRoot f)) ∈ map project_key (detect files).
Proof.
  unfold all_projects, addInferredTypeScriptProjects. set (d := detect files).
  set (tsroots := map pj_root _). set (inferred := map inferTypeScriptRoot _).
  set (keep := fun root => negb (bool_decide (project_key (typescript_project root) ∈ map project_key d))).
  exists (List.filter keep (SortStrings (dedup_first [] inferred))). split; [apply sortProjects_perm|].
  split.
  - rewrite map_app. apply NoDup_app. split_and!.
    + apply detect_NoDup.
    + intros k Hk (p & -> & Hp)%list_elem_of_fmap.
      apply list_elem_of_fmap in Hp as (r & -> & Hr).
      apply list_elem_of_In, filter_In in Hr as [_ Hr]. unfold keep in Hr. breflect. done.
    + rewrite map_map. apply NoDup_fmap_2_strong.
      * intros x y _ _ E. by apply project_key_inj in E as [_ E]; [|apply typescript_nul..].
      * apply NoDup_ListNoDup, List.NoDup_filter, NoDup_ListNoDup, NoDup_SortStrings, NoDup_dedup_first.
  - intros f Hf Hin. destruct (coveredByRoot f tsroots) eqn:Hc; [by left|]. right.
    destruct (keep (inferTypeScriptRoot f)) eqn:Hk.
    + left. apply list_elem_of_In, filter_In. split; [|done].
      apply list_elem_of_In, elem_of_SortStrings, elem_of_dedup_first. split; [|apply not_elem_of_nil].
      apply list_elem_of_fmap. exists f. split; [done|]. apply list_elem_of_In, filter_In.
      rewrite <- list_elem_of_In, Hin, Hc. done.
    + right. unfold keep in Hk. by breflect.
Qed.

Lemma typescript_covered files roots f :
  (coveredByRoot f (map pj_root (List.filter (fun p => pj_language p =s "typescript") (detect files)))
     = true \/
   inferTypeScriptRoot f ∈ roots \/
   project_key (typescript_project (inferTypeScriptRoot f)) ∈ map project_key (detect files)) ->
  exists p, p ∈ detect files ++ map typescript_project roots /\ pj_language p = "typescript" /\
            fileInRoot f (pj_root p) = true.
Proof.
  intros [Hc|[Hr|Hk]].
  - apply existsb_exists in Hc as (r & Hr & Hc). apply in_map_iff in Hr as (p & <- & Hp).
    apply filter_In in Hp as [Hp Hl]. apply list_elem_of_In in Hp. breflect. exists p. rewrite elem_of_app.
    by split_and!; [left|..].
  - exists (typescript_project (inferTypeScriptRoot f)). split_and!.
    + apply elem_of_app. right. apply list_elem_of_fmap. by eexists.
    + done.
    + apply inferTypeScriptRoot_covers.
  - apply list_elem_of_fmap in Hk as (p & E & Hp). exists p. rewrite elem_of_app.
    pose proof Hp as Hp'. apply detect_inv in Hp' as (g & def & _ & Hd & ->).
    apply project_key_inj in E as [<- <-]; [|apply typescript_nul|by apply supported_nul].
    split_and!; [by left|done|apply inferTypeScriptRoot_covers].
Qed.

(** A project the deployment has workers for. *)
Definition class_allowed (raw : string) (p : project) : bool :=
  let l := parseWorkerClasses raw in
  negb (bool_decide ("none" ∈ l))
  && (bool_decide ("all" ∈ l) || bool_decide ("universal" ∈ l) || bool_decide (pj_workerClass p ∈ l)).

Lemma splitWorkerClasses_allowed ps raw :
  splitWorkerClasses ps raw =
  (List.filter (class_allowed raw) ps, List.filter (fun p => negb (class_allowed raw p)) ps).
Proof.
  unfold splitWorkerClasses, class_allowed.
  case_bool_decide; [|case_bool_decide; [|case_bool_decide]]; simpl; [..|done];
    f_equal; clear; induction ps; simpl; congruence.
Qed.


(** ** Roots the planner accepts *)

(** A directory or file name as repositories have it: no backslash, no white space
    at either end. *)
Definition tidy (w : string) : Prop := plain w /\ Contains w "\" = false /\ TrimSpace w = w.

Lemma Contains_byte c s :
  Contains s (String c "") = bool_decide (c ∈ String.list_ascii_of_string s).
Proof.
  apply eq_true_iff_eq. rewrite bool_decide_eq_true, Contains_spec. split.
  - intros (p & q & ->). rewrite !list_of_str_app. simpl. set_solver.
  - intros (l1 & l2 & E)%list_elem_of_split. exists (String.string_of_list_ascii l1),
      (String.string_of_list_ascii l2).
    rewrite <- (String.string_of_list_ascii_of_string s), E, str_of_list_app. done.
Qed.

Lemma Join_bytes (P : ascii -> Prop) ws sep :
  Forall P (String.list_ascii_of_string sep) ->
  Forall (fun w => Forall P (String.list_ascii_of_string w)) ws ->
  Forall P (String.list_ascii_of_string (Join ws sep)).
Proof.
  intros Hs. induction 1 as [|w [|v ws] Hw Hws IH]; [constructor|done|].
  rewrite Join_cons2, !list_of_str_app. apply Forall_app. split; [done|].
  apply Forall_app. split; [done|]. apply IH.
Qed.

Lemma HasPrefix_word w t r :
  slash_free r -> HasPrefix (w +:+ "/" +:+ t) r = true -> HasPrefix w r = true.
Proof.
  intros Hr. rewrite !HasPrefix_spec. revert r Hr. induction w as [|c w IH]; intros r Hr [q E].
  - destruct r as [|d r]; [by exists ""|]. simpl in E. injection E as <- _.
    exfalso. apply Hr. simpl. left.
  - destruct r as [|d r]; [by exists (String c w)|]. simpl in E. injection E as -> E.
    destruct (IH r) as [q' ->]; [|by exists q|by exists q'].
    intros H. apply Hr. simpl. by right.
Qed.

Lemma strip_word runes w t :
  Forall slash_free runes -> strip_any runes w = None -> strip_any runes (w +:+ "/" +:+ t) = None.
Proof.
  intros Hf. rewrite !strip_any_None, !Forall_forall in *. intros H r Hr.
  specialize (H r Hr). apply not_true_iff_false. intros E.
  apply HasPrefix_word in E; [congruence|by apply Hf].
Qed.

Lemma space_runes_slash_free : Forall slash_free space_runes.
Proof. apply (bool_decide_unpack _). vm_compute. exact I. Qed.

Lemma space_runes_rev_slash_free : Forall slash_free (map str_rev space_runes).
Proof. apply (bool_decide_unpack _). vm_compute. exact I. Qed.

Lemma trimmed_ends w :
  TrimSpace w = w ->
  strip_any space_runes w = None /\ strip_any (map str_rev space_runes) (str_rev w) = None.
Proof.
  intros E. rewrite <- E.
  split; [apply TrimRunes_front|apply TrimRunes_back]; apply space_runes_nonempty.
Qed.

Lemma tidy_join_trimmed ws : ws <> [] -> Forall tidy ws -> TrimSpace (Join ws "/") = Join ws "/".
Proof.
  intros Hne Ht. apply TrimRunes_fix.
  - destruct Ht as [|w [|v ws] (_ & _ & Hw) _]; [done|..]; apply trimmed_ends in Hw as [Hw _]; [done|].
    rewrite Join_cons2. apply strip_word; [apply space_runes_slash_free|done].
  - destruct (exists_last Hne) as (us & w & ->). apply Forall_app in Ht as [_ Hw].
    apply Forall_inv in Hw as (_ & _ & Hw). apply trimmed_ends in Hw as [_ Hw].
    destruct us as [|u us]; [done|]. rewrite Join_app by done. simpl Join at 2.
    rewrite !str_rev_app, str_app_assoc. simpl (str_rev "/").
    apply strip_word; [apply space_runes_rev_slash_free|done].
Qed.

Lemma tidy_join_clean ws :
  ws <> [] -> Forall tidy ws ->
  rooted (Join ws "/") = false /\ path_elems (Join ws "/") = ws /\ Clean (Join ws "/") = Join ws "/".
Proof.
  intros Hne Ht. assert (Hp : Forall plain ws) by (eapply Forall_impl; [exact Ht|]; by intros w []).
  destruct (render_path_elems false 0 ws) as [Hr He]; [done..|].
  replace (render_path false (replicate 0 ".." ++ ws)) with (Join ws "/") in * by (by destruct ws).
  split_and!; [done..|]. rewrite Clean_render, Hr, He; [by destruct ws|].
  intros E. apply Join_empty in E; [done|]. eapply Forall_impl; [exact Hp|]. by intros w [].
Qed.

(** A root made of tidy names is its own normal form. *)
Lemma NormalizeProjectRoot_tidy ws :
  Forall tidy ws -> NormalizeProjectRoot (Join ws "/") = (Join ws "/", true).
Proof.
  intros Ht. destruct (decide (ws = [])) as [->|Hne]; [done|].
  destruct (tidy_join_clean ws Hne Ht) as (Hr & He & Hc).
  assert (Hp : Forall plain ws) by (eapply Forall_impl; [exact Ht|]; by intros w []).
  unfold NormalizeProjectRoot. rewrite tidy_join_trimmed, Hc by done.
  assert (Hbs : Contains (Join ws "/") "\" = false).
  { rewrite Contains_byte. apply bool_decide_eq_false. intros Hin.
    assert (HF : Forall (fun c => c <> "\"%char) (String.list_ascii_of_string (Join ws "/"))).
    { apply Join_bytes; [by repeat constructor|]. eapply Forall_impl; [exact Ht|].
      intros w (_ & Hw & _). rewrite Contains_byte in Hw. apply bool_decide_eq_false in Hw.
      apply Forall_forall. intros c Hc' ->. done. }
    rewrite Forall_forall in HF. by apply (HF _ Hin). }
  assert (Hsplit : SplitByte "/" (Join ws "/") = ws).
  { apply SplitByte_Join; [done|]. eapply Forall_impl; [exact Hp|]. by intros w (_ & _ & _ & ?). }
  assert (Hnodd : ".." ∉ ws).
  { rewrite Forall_forall in Hp. intros H%Hp. by destruct H as (_ & _ & ? & _). }
  assert (Hdot : (Join ws "/" =s ".") = false).
  { apply str_eqb_false. intros E. rewrite E in He. by subst ws. }
  assert (Hempty : (Join ws "/" =s "") = false).
  { apply str_eqb_false. intros E. rewrite <- Hc in E. by apply Clean_nonempty in E. }
  assert (Hdd : (Join ws "/" =s "..") = false).
  { apply str_eqb_false. intros E. rewrite E in Hsplit. apply Hnodd. rewrite <- Hsplit. left. }
  assert (Hbs' : HasPrefix (Join ws "/") "\" = false).
  { apply not_true_iff_false. intros (r & E)%HasPrefix_spec. rewrite E in Hbs.
    apply not_true_iff_false in Hbs. apply Hbs, Contains_spec. by exists "", r. }
  assert (Hpre : HasPrefix (Join ws "/") "../" = false).
  { apply not_true_iff_false. intros (r & E)%HasPrefix_spec. apply Hnodd. rewrite <- Hsplit, E.
    change ("../" +:+ r) with (".." +:+ "/" +:+ r). rewrite SplitByte_sep. simpl. left. }
  assert (Hmid : Contains (Join ws "/") "/../" = false).
  { apply not_true_iff_false. intros (p & r & E)%Contains_spec. apply Hnodd. rewrite <- Hsplit, E.
    change ("/../" +:+ r) with ("/" +:+ ".." +:+ "/" +:+ r). rewrite !SplitByte_sep.
    apply elem_of_app. right. simpl. left. }
  unfold rooted in Hr. rewrite Hdot, Hempty, Hbs, Hbs', Hr, Hdd, Hpre, Hmid, str_eqb_refl.
  cbn [orb negb]. rewrite TrimSlash_Join; [done|..]; eapply Forall_impl; try exact Hp;
    by intros w (? & _ & _ & ?).
Qed.

Lemma removelast_Forall {A} (P : A -> Prop) l : Forall P l -> Forall P (removelast l).
Proof. induction 1 as [|x [|y l] Hx Hl IH]; simpl in *; auto. Qed.

Lemma file_root_tidy f :
  Forall tidy (SplitByte "/" f) -> file_root f = Join (removelast (SplitByte "/" f)) "/".
Proof.
  intros Ht. unfold file_root, path_Dir, path_Split. cbv zeta. cbn [fst].
  apply removelast_Forall in Ht. set (ws := removelast _) in *.
  destruct (decide (ws = [])) as [->|Hne]; [done|].
  assert (Hp : Forall plain ws) by (eapply Forall_impl; [exact Ht|]; by intros w []).
  assert (E : Clean (Join ws "/" +:+ "/") = Join ws "/").
  { destruct (tidy_join_clean ws Hne Ht) as (Hr & He & Hc).
    assert (Hn : Join ws "/" <> "") by (intros E; rewrite <- Hc in E; by apply Clean_nonempty in E).
    rewrite Clean_render by (by destruct (Join ws "/")).
    rewrite rooted_app, Hr by done.
    assert (path_elems (Join ws "/" +:+ "/") = ws) as ->.
    { unfold path_elems in *. rewrite rooted_app, Hr in * by done.
      rewrite <- (str_app_nil_r "/"), SplitByte_sep. unfold clean_elems in *.
      rewrite foldl_app. simpl. exact He. }
    by destruct ws. }
  assert (Hm : match ws with [] => "" | w :: l => Join (w :: l) "/" +:+ "/" end = Join ws "/" +:+ "/")
    by (by destruct ws).
  rewrite Hm, E. destruct (Join ws "/" =s ".") eqn:Ed; [|done]. exfalso. breflect.
  destruct (tidy_join_clean ws Hne Ht) as (_ & He & _). rewrite Ed in He. by subst ws.
Qed.

Lemma src_root_tidy before parts :
  Forall tidy before -> Forall tidy parts ->
  exists ws, Forall tidy ws /\ src_root before parts = Join ws "/".
Proof.
  revert before. induction parts as [|w parts IH]; intros before Hb Hp; simpl; [by exists []|].
  apply Forall_cons in Hp as [Hw Hp]. destruct (_ && _); [by exists before|].
  apply IH; [|done]. apply Forall_app. split; [done|]. by apply Forall_singleton.
Qed.

Lemma all_projects_plannable files p :
  Forall (fun f => Forall tidy (SplitByte "/" f)) files -> p ∈ all_projects files ->
  NormalizeProjectRoot (pj_root p) = (pj_root p, true) /\
  exists def, def ∈ supported /\ p = project_of def (pj_root p).
Proof.
  intros Ht Hp. rewrite Forall_forall in Ht. unfold all_projects, addInferredTypeScriptProjects in Hp.
  rewrite sortProjects_perm in Hp. apply elem_of_app in Hp as [Hp|Hp].
  - apply detect_inv in Hp as (f & def & Hf & Hd & ->). simpl. split; [|by exists def].
    rewrite file_root_tidy by (by apply Ht).
    by apply NormalizeProjectRoot_tidy, removelast_Forall, Ht.
  - apply list_elem_of_fmap in Hp as (r & -> & Hr). apply list_elem_of_In, filter_In in Hr as [Hr _].
    apply list_elem_of_In, elem_of_SortStrings, elem_of_dedup_first in Hr as [Hr _].
    apply list_elem_of_fmap in Hr as (f & -> & Hf). apply list_elem_of_In, filter_In in Hf as [Hf _].
    apply list_elem_of_In in Hf. split.
    + destruct (src_root_tidy [] (SplitByte "/" f)) as (ws & Hws & E); [constructor|by apply Ht|].
      simpl. unfold inferTypeScriptRoot. rewrite E. by apply NormalizeProjectRoot_tidy.
    + eexists. split; [unfold supported; left|reflexivity].
Qed.

Lemma supported_planned def :
  def ∈ supported ->
  df_language def <> "" /\ df_indexer def <> "" /\ df_workerClass def <> "" /\
  ForSCIPWorkerClass (df_workerClass def) <> None.
Proof.
  assert (H : Forall (fun def => df_language def <> "" /\ df_indexer def <> "" /\
      df_workerClass def <> "" /\ is_Some (ForSCIPWorkerClass (df_workerClass def))) supported).
  { repeat constructor; try done; eexists; vm_compute; reflexivity. }
  rewrite Forall_forall in H. intros Hd. destruct (H def Hd) as (? & ? & ? & [x ->]). done.
Qed.

Lemma plan_from_projects snapshotRoot cfg fs files plan q :
  snapshotFiles snapshotRoot fs = Ok files -> DetectSnapshotPlan snapshotRoot cfg fs = Ok plan ->
  q ∈ pn_Runnable plan ++ pn_Skipped plan ->
  exists p, p ∈ all_projects files /\ q ∈ toPlannerProjects [p].
Proof.
  intros Hf. unfold DetectSnapshotPlan. rewrite Hf. cbn [rbind].
  rewrite splitWorkerClasses_allowed. cbn [fst snd]. intros H.
  assert (Ep := f_equal (fun r => match r with Ok p => p | Err _ => plan end) H). cbv beta iota in Ep.
  rewrite <- Ep. clear. simpl pn_Runnable. simpl pn_Skipped. unfold toPlannerProjects.
  rewrite elem_of_app, !list_elem_of_fmap.
  intros [(p & -> & Hp)|(p & -> & Hp)]; exists p; (split; [|left]);
    apply (subseteq_take _ _ _) in Hp; apply list_elem_of_In, filter_In in Hp as [Hp _];
    by apply list_elem_of_In.
Qed.

(** Every detected project can be planned.  In a snapshot whose path elements
    have no backslash and no white space at their ends, each project of the plan
    becomes a SCIP subjob of the planner, with its own language, indexer and root
    and with an executor class that exists. *)
Theorem detected_projects_plannable snapshotRoot cfg fs files plan i rev :
  snapshotFiles snapshotRoot fs = Ok files ->
  Forall (fun f => Forall tidy (SplitByte "/" f)) files ->
  DetectSnapshotPlan snapshotRoot cfg fs = Ok plan ->
  forall q, q ∈ pn_Runnable plan ++ pn_Skipped plan ->
  exists c, scipSubjob i rev q = Ok c /\ ci_Layer c = LayerSCIP /\
    ci_Language c = Some (sp_Language q) /\ ci_Indexer c = Some (sp_Indexer q) /\
    ci_ProjectRoot c = Some (sp_ProjectRoot q).
Proof.
  intros Hf Ht Hplan q Hq.
  assert (Hin : exists p, p ∈ all_projects files /\ q ∈ toPlannerProjects [p]).
  { by eapply plan_from_projects. }
  destruct Hin as (p & Hp & ->%list_elem_of_singleton).
  destruct (all_projects_plannable files p Ht Hp) as [Hn (def & Hd & ->)].
  destruct (supported_planned def Hd) as (H1 & H2 & H3 & H4).
  unfold scipSubjob. simpl in *. apply str_eqb_false in H1, H2, H3. rewrite H1, H2, H3. simpl.
  destruct (ForSCIPWorkerClass _) as [class|]; [|done]. rewrite Hn. simpl. by eexists.
Qed.

(** ** Projects an incremental plan does not reach *)

Definition blob (name hash : string) : GitFile :=
  {| gf_Name := name; gf_Mode := Regular; gf_Hash := hash |}.

(** The SCIP projects planned when a commit with the files [after] follows an
    index of the files [before]. *)
Definition rerun (before after : list GitFile) : list SCIPProject :=
  filterSCIPProjectsForDelta (toPlannerProjects (all_projects (map gf_Name after)))
    (Some (buildManifestDeltaPlan (buildManifestFiles before) (buildManifestFiles after) true)).

(** Projects an edit does not rebuild.  Detection knows Gradle projects by
    build.gradle.kts and gives TypeScript sources without a marker file a project
    at the directory above src; the manifest knows neither, so it files the
    sources under the repository root.  An edit of such a source plans no project
    although the project that holds it was detected, and its SCIP index stays
    that of the old text. *)
Example edited_project_not_rerun :
  let kotlin h := [blob "app/build.gradle.kts" "1"; blob "app/src/main/kotlin/A.kt" h] in
  let typescript h := [blob "web/src/app.ts" h] in
  map (fun p => (pj_language p, pj_root p)) (all_projects (map gf_Name (kotlin "2"))) = [("java", "app")] /\
  rerun (kotlin "2") (kotlin "3") = [] /\
  map (fun p => (pj_language p, pj_root p)) (all_projects (map gf_Name (typescript "2")))
    = [("typescript", "web")] /\
  rerun (typescript "2") (typescript "3") = [].
Proof. vm_compute. done. Qed.
