(* ===== verification/Executor.v ===== *)
(** The executor's subjob handler, src/internal/backend/indexexecutor/handler.go.
    A handler run is a function of the task and of a script that fixes what the
    code does not: clocks, faults, random attempt suffixes, the answers of the
    runner, the artifact validator and the ingestor, and the interleaving of the
    heartbeat goroutine, the work goroutine and the other clients of the
    database. *)
From S2P Require Import Prelude GoStd GoStdFacts GoJSON GoJSONFacts WorkerClasses SubjobTypes SubjobStore SubjobTask.
From S2P Require Import SubjobCodec SubjobSystem SubjobInvariants SubjobFacts.
(** ** Configuration *)

Definition defaultLeaseDuration : Z := 120000.
Definition defaultHeartbeatInterval : Z := 30000.

Record Config : Type := {
  cfg_LeaseDuration : Z;
  cfg_HeartbeatInterval : Z;
  cfg_LeaseOwner : string;
  cfg_hasValidator : bool;
  cfg_hasIngestor : bool
}.

Record Handler : Type := {
  h_leaseDuration : Z;
  h_heartbeatInterval : Z;
  h_leaseOwner : string
}.

(** [nonceHex]: random bytes in hex, or the clock when there is no randomness. *)
Definition nonceHex (random : option string) (unixNano : Z) : string :=
  match random with Some h => h | None => Itoa unixNano end.

Definition generatedLeaseOwner (hostname nonce : string) : string :=
  "index-executor-" +:+ hostname +:+ "-" +:+ nonce.

Definition generatedAttemptID (subjobID : string) (attempt : Z) (nonce : string) : string :=
  subjobID +:+ ":" +:+ Itoa attempt +:+ ":" +:+ nonce.

(** [hasStore] and [hasRunner] say that the arguments are not nil. *)
Definition NewHandler (hasStore hasRunner : bool) (hostname nonce : string) (cfg : Config)
  : result gerror Handler :=
  if negb hasStore then Err (EText "indexexecutor: store is required")
  else if negb hasRunner then Err (EText "indexexecutor: runner is required")
  else if negb (cfg_hasValidator cfg)
  then Err (EText "indexexecutor: artifact validator is required")
  else if negb (cfg_hasIngestor cfg)
  then Err (EText "indexexecutor: artifact ingestor is required")
  else
    let leaseDuration :=
      if cfg_LeaseDuration cfg <=? 0 then defaultLeaseDuration else cfg_LeaseDuration cfg in
    let heartbeatInterval :=
      if cfg_HeartbeatInterval cfg <=? 0 then defaultHeartbeatInterval
      else cfg_HeartbeatInterval cfg in
    if leaseDuration <=? heartbeatInterval
    then Err (EText "indexexecutor: heartbeat interval must be shorter than lease duration")
    else Ok {| h_leaseDuration := leaseDuration; h_heartbeatInterval := heartbeatInterval;
               h_leaseOwner := if cfg_LeaseOwner cfg =s ""
                               then generatedLeaseOwner hostname nonce
                               else cfg_LeaseOwner cfg |}.

(** ** Data *)

(** [Result], without the free-form metadata the handler does not read. *)
Record Result : Type := {
  res_ArtifactTempPath : string;
  res_ArtifactPath : string;
  res_ArtifactSHA256 : string;
  res_Metadata : gmap string string
}.

Definition hasCompleteArtifact (r : Result) : bool :=
  negb (res_ArtifactTempPath r =s "") && negb (res_ArtifactPath r =s "")
  && negb (res_ArtifactSHA256 r =s "").

Definition ErrExecutorUnavailable : string := "indexexecutor: executor unavailable".

(** The calls the handler makes, in order. *)
Inductive hcall : Type :=
| HClaim (won : bool)
| HBeat (ok : bool)
| HExecuted (err : option gerror)
| HValidated (ok : bool)
| HArtifact (ok : bool)
| HIngested (err : option gerror)
| HFailed (code : string) (ok : bool)
| HInfraFailed (ok : bool)
| HSucceeded (ok : bool).

(** ** [withHeartbeat]: two goroutines and a select *)

(** The heartbeat goroutine: ticking, gone after it reported an error, or stopped
    by the cancelled context. *)
Inductive beat_state : Type := BeatRunning | BeatFailed (e : gerror) | BeatStopped.

(** The goroutine that called [withHeartbeat]. *)
Inductive main_state : Type :=
| MainSelect
| MainWaitStop (hbErr : gerror)
| MainReturned (err : option gerror).

(** After the five-second timer the work goroutine is abandoned: it goes on with a
    cancelled context, so its store calls fail without effect, and whatever an
    ingestor that ignores the context still writes counts as statements of
    another client.  [postFailureCode] is read when the call returns.

    The next thing that happens: a tick of the heartbeat, a move of the work
    goroutine (with its answer [A]), the main goroutine taking a ready channel,
    the five-second timer, or a statement of another client. *)
Inductive event (A : Type) : Type :=
| EvTick (fault : option gerror) (clock dbnow : Z)
| EvWork (a : A)
| EvTakeBeat
| EvTakeWork
| EvTimeout
| EvEnv (o : op).
Arguments EvTick {A}. Arguments EvWork {A}. Arguments EvTakeBeat {A}.
Arguments EvTakeWork {A}. Arguments EvTimeout {A}. Arguments EvEnv {A}.

(** The store call of a heartbeat. *)
Definition beat (h : Handler) (subjobID attemptID : string) (fault : option gerror)
    (clock dbnow : Z) (db : DB) : DB * result gerror bool :=
  Heartbeat fault dbnow subjobID (h_leaseOwner h) attemptID (clock + h_leaseDuration h) db.

Section WithHeartbeat.
(** The work goroutine: its states, its move on an answer, and its result once it
    is done ([Some None] is a nil error). *)
Context {W A : Type} (work_step : A -> W -> DB -> DB * W * list hcall)
  (work_done : W -> option (option gerror)).
Context (h : Handler) (subjobID attemptID : string).

Record wh_state : Type := {
  wh_db : DB; wh_main : main_state; wh_beat : beat_state; wh_work : W; wh_log : list hcall
}.

Definition wh_step (ev : event A) (s : wh_state) : wh_state :=
  match ev with
  | EvEnv o =>
      {| wh_db := run_op o (wh_db s); wh_main := wh_main s; wh_beat := wh_beat s;
         wh_work := wh_work s; wh_log := wh_log s |}
  | EvTick fault clock dbnow =>
      match wh_beat s, wh_main s with
      | BeatRunning, MainSelect =>
          let '(db', r) := beat h subjobID attemptID fault clock dbnow (wh_db s) in
          {| wh_db := db'; wh_main := MainSelect;
             wh_beat := match r with
                        | Ok true => BeatRunning
                        | Ok false => BeatFailed (EText "heartbeat: lease lost")
                        | Err e => BeatFailed (EWrap "heartbeat: " e "")
                        end;
             wh_work := wh_work s; wh_log := wh_log s ++ [HBeat (is_true r)] |}
      | _, _ => s
      end
  | EvWork a =>
      match work_done (wh_work s), wh_main s with
      | None, (MainSelect | MainWaitStop _) =>
          let '(db', w', calls) := work_step a (wh_work s) (wh_db s) in
          {| wh_db := db'; wh_main := wh_main s; wh_beat := wh_beat s; wh_work := w';
             wh_log := wh_log s ++ calls |}
      | _, _ => s
      end
  | EvTakeBeat =>
      match wh_main s, wh_beat s with
      | MainSelect, BeatFailed e =>
          {| wh_db := wh_db s; wh_main := MainWaitStop e; wh_beat := wh_beat s;
             wh_work := wh_work s; wh_log := wh_log s |}
      | _, _ => s
      end
  | EvTakeWork =>
      match wh_main s, work_done (wh_work s) with
      | MainSelect, Some err =>
          {| wh_db := wh_db s; wh_main := MainReturned err;
             wh_beat := match wh_beat s with BeatRunning => BeatStopped | b => b end;
             wh_work := wh_work s; wh_log := wh_log s |}
      | MainWaitStop e, Some _ =>
          {| wh_db := wh_db s; wh_main := MainReturned (Some e); wh_beat := wh_beat s;
             wh_work := wh_work s; wh_log := wh_log s |}
      | _, _ => s
      end
  | EvTimeout =>
      match wh_main s with
      | MainWaitStop e =>
          {| wh_db := wh_db s; wh_main := MainReturned (Some e); wh_beat := wh_beat s;
             wh_work := wh_work s; wh_log := wh_log s |}
      | _ => s
      end
  end.

(** The initial heartbeat with its clocks, then the events until the call returns;
    [None] while it has not returned. *)
Record wh_script : Type := {
  ws_fault : option gerror; ws_clock : Z; ws_dbnow : Z; ws_events : list (event A)
}.

Definition withHeartbeat (sc : wh_script) (w : W) (db : DB) (log : list hcall)
  : option (DB * W * list hcall * option gerror) :=
  let '(db1, r) := beat h subjobID attemptID (ws_fault sc) (ws_clock sc) (ws_dbnow sc) db in
  let log1 := log ++ [HBeat (is_true r)] in
  match r with
  | Err e => Some (db1, w, log1, Some (EWrap "initial heartbeat: " e ""))
  | Ok false => Some (db1, w, log1, Some (EText "initial heartbeat: lease lost"))
  | Ok true =>
      let s := foldl (fun s ev => wh_step ev s)
                 {| wh_db := db1; wh_main := MainSelect; wh_beat := BeatRunning; wh_work := w;
                    wh_log := log1 |} (ws_events sc) in
      match wh_main s with
      | MainReturned err => Some (wh_db s, wh_work s, wh_log s, err)
      | _ => None
      end
  end.
End WithHeartbeat.
Arguments wh_state : clear implicits.
Arguments wh_script : clear implicits.

(** ** The two bodies run under a heartbeat *)

(** [runner.Execute]; the answer is its result. *)
Inductive run_state : Type := Executing | Executed (r : Result) (err : option gerror).

Definition run_step (a : Result * option gerror) (w : run_state) (db : DB)
  : DB * run_state * list hcall :=
  match w with
  | Executing => (db, Executed a.1 a.2, [HExecuted a.2])
  | _ => (db, w, [])
  end.

Definition run_done (w : run_state) : option (option gerror) :=
  match w with Executing => None | Executed _ err => Some err end.

(** Validation, registration and ingestion of the artifact; [code] is
    [postFailureCode]. *)
Inductive post_state : Type :=
| PostValidating (r : Result)
| PostMarking (validated : Result)
| PostIngesting (validated : Result)
| PostDone (code : string) (err : option gerror).

Inductive post_answer : Type :=
| AnsValidated (v : result gerror Result)
| AnsMarked (fault : option gerror) (dbnow : Z)
| AnsIngested (err : option gerror).

Definition post_step (h : Handler) (subjobID attemptID : string) (a : post_answer)
    (w : post_state) (db : DB) : DB * post_state * list hcall :=
  match w, a with
  | PostValidating _, AnsValidated (Ok v) => (db, PostMarking v, [HValidated true])
  | PostValidating _, AnsValidated (Err e) =>
      (db, PostDone "INVALID_ARTIFACT" (Some e), [HValidated false])
  | PostMarking v, AnsMarked fault dbnow =>
      let '(db', r) := MarkArtifactWritten fault dbnow subjobID (h_leaseOwner h) attemptID
                         (res_ArtifactTempPath v) (res_ArtifactPath v) (res_ArtifactSHA256 v) db in
      (db',
       match r with
       | Err e => PostDone "" (Some (EWrap ("mark artifact written for subjob " +:+ subjobID
                                            +:+ ": ") e ""))
       | Ok false => PostDone "" (Some (EText ("mark artifact written for subjob " +:+ subjobID
                                               +:+ ": lease lost")))
       | Ok true => PostIngesting v
       end, [HArtifact (is_true r)])
  | PostIngesting _, AnsIngested (Some e) =>
      (db, PostDone "ARTIFACT_INGEST_FAILED" (Some e), [HIngested (Some e)])
  | PostIngesting _, AnsIngested None => (db, PostDone "" None, [HIngested None])
  | _, _ => (db, w, [])
  end.

Definition post_done (w : post_state) : option (option gerror) :=
  match w with PostDone _ err => Some err | _ => None end.

Definition postFailureCode (w : post_state) : string :=
  match w with PostDone code _ => code | _ => "" end.

(** ** [Handle] *)

(** The clocks and faults of a mark call: its two statements. *)
Record mark_env : Type := {
  me_fault1 : option gerror; me_fault2 : option gerror; me_now1 : Z; me_now2 : Z
}.

Definition markFailed (h : Handler) (subjobID attemptID code message : string) (e : mark_env)
    (db : DB) (log : list hcall) : DB * list hcall * option gerror :=
  let '(db', r) := MarkFailed (me_fault1 e) (me_fault2 e) (me_now1 e) (me_now2 e)
                     subjobID (h_leaseOwner h) attemptID code message db in
  (db', log ++ [HFailed code (is_true r)],
   match r with
   | Err err => Some (EWrap ("mark subjob " +:+ subjobID +:+ " failed: ") err "")
   | Ok false => Some (EText ("mark subjob " +:+ subjobID +:+ " failed: lease lost"))
   | Ok true => None
   end).

Definition markRetryableInfrastructureFailure (h : Handler)
    (subjobID attemptID code message : string) (e : mark_env) (db : DB) (log : list hcall)
  : DB * list hcall * option gerror :=
  let '(db', r) := MarkRetryableInfrastructureFailure (me_fault1 e) (me_fault2 e) (me_now1 e)
                     (me_now2 e) subjobID (h_leaseOwner h) attemptID code message db in
  (db', log ++ [HInfraFailed (is_true r)],
   match r with
   | Err err => Some (EWrap ("mark subjob " +:+ subjobID +:+ " retryable infrastructure failure: ") err "")
   | Ok false => Some (EText ("mark subjob " +:+ subjobID
                              +:+ " retryable infrastructure failure: lease lost"))
   | Ok true => None
   end).

(** What a run of [Handle] meets; [sc_env1] .. [sc_env4] are the statements of
    other clients before the claim, between the phases and before the last
    report. *)
Record script : Type := {
  sc_nonce : string;
  sc_claim_clock : Z;
  sc_claim_fault : option gerror;
  sc_claim_dbnow : Z;
  sc_run : wh_script (Result * option gerror);
  sc_post : wh_script post_answer;
  sc_mark : mark_env;
  sc_env1 : list op;
  sc_env2 : list op;
  sc_env3 : list op;
  sc_env4 : list op
}.

(** Validation, registration, ingestion, and the last report. *)
Definition handle_post (h : Handler) (id attemptID : string) (sc : script) (result : Result)
    (db : DB) (log : list hcall) : option (DB * list hcall * option gerror) :=
  match withHeartbeat (post_step h id attemptID) post_done h id attemptID (sc_post sc)
          (PostValidating result) db log with
  | None => None
  | Some (db2, w2, log2, Some err) =>
      if negb (postFailureCode w2 =s "")
      then Some (markFailed h id attemptID (postFailureCode w2) (err_text err) (sc_mark sc)
                   (run_ops (sc_env4 sc) db2) log2)
      else Some (run_ops (sc_env4 sc) db2, log2, Some err)
  | Some (db2, _, log2, None) =>
      let '(db3, r) := MarkSucceeded (me_fault1 (sc_mark sc)) (me_now1 (sc_mark sc)) id
                         (h_leaseOwner h) attemptID (run_ops (sc_env4 sc) db2) in
      Some (db3, log2 ++ [HSucceeded (is_true r)],
            match r with
            | Err e => Some (EWrap ("mark subjob " +:+ id +:+ " succeeded: ") e "")
            | Ok false => Some (EText ("mark subjob " +:+ id +:+ " succeeded: lease lost"))
            | Ok true => None
            end)
  end.

(** The part after a won claim. *)
Definition handle_claimed (h : Handler) (p : Payload) (attemptID : string) (sc : script)
    (db : DB) (log : list hcall) : option (DB * list hcall * option gerror) :=
  let id := pl_SubjobID p in
  match withHeartbeat run_step run_done h id attemptID (sc_run sc) Executing
          (run_ops (sc_env2 sc) db) log with
  | None => None
  | Some (db1, _, log1, Some runErr) =>
      let db2 := run_ops (sc_env3 sc) db1 in
      if err_is ErrExecutorUnavailable runErr
      then Some (markRetryableInfrastructureFailure h id attemptID "EXECUTOR_UNAVAILABLE"
                   (err_text runErr) (sc_mark sc) db2 log1)
      else Some (markFailed h id attemptID "EXECUTION_FAILED" (err_text runErr) (sc_mark sc)
                   db2 log1)
  | Some (db1, w, log1, None) =>
      let result := match w with
                    | Executed r _ => r
                    | Executing => {| res_ArtifactTempPath := ""; res_ArtifactPath := "";
                                      res_ArtifactSHA256 := ""; res_Metadata := ∅ |} end in
      handle_post h id attemptID sc result (run_ops (sc_env3 sc) db1) log1
  end.

(** [task] is the type and the payload of a non-nil task of a configured handler;
    the value is the database, the calls and the returned error, [None] while
    the run has not returned. *)
Definition Handle (h : Handler) (task_type task_payload : string) (sc : script) (db : DB)
  : option (DB * list hcall * option gerror) :=
  match Unmarshal task_payload with
  | Err _ => Some (db, [], None)
  | Ok p =>
      if negb (task_type =s pl_QueueName p) then Some (db, [], None)
      else
        let attemptID := generatedAttemptID (pl_SubjobID p) (pl_Attempt p) (sc_nonce sc) in
        let '(db1, r) := ClaimScoped (sc_claim_fault sc) (sc_claim_dbnow sc) (toClaimScope p)
                           (h_leaseOwner h) attemptID
                           (sc_claim_clock sc + h_leaseDuration h) (run_ops (sc_env1 sc) db) in
        match r with
        | Err e => Some (db1, [HClaim false],
                         Some (EWrap ("claim subjob " +:+ pl_SubjobID p +:+ ": ") e ""))
        | Ok false => Some (db1, [HClaim false], None)
        | Ok true => handle_claimed h p attemptID sc db1 [HClaim true]
        end
  end.
