(* ===== verification/ExecutorFacts.v ===== *)
(** The executor's protocol: the order of its calls over every interleaving, its
    effect on the database, and what a completed subjob means. *)
From S2P Require Import Prelude GoStd GoStdFacts GoJSON GoJSONFacts WorkerClasses SubjobTypes SubjobStore SubjobTask.
From S2P Require Import SubjobCodec SubjobSystem SubjobInvariants SubjobFacts Executor.
(** ** Configuration *)

(** A handler that was built renews its lease in time: its heartbeat interval
    is positive and shorter than its lease, and its lease owner is not empty. *)
Theorem NewHandler_leases hasStore hasRunner host nonce cfg h :
  NewHandler hasStore hasRunner host nonce cfg = Ok h ->
  0 < h_heartbeatInterval h < h_leaseDuration h /\ h_leaseOwner h <> "".
Proof.
  unfold NewHandler. destruct (negb hasStore); [done|]. destruct (negb hasRunner); [done|].
  destruct (negb _); [done|]. destruct (negb _); [done|]. cbn zeta.
  set (l := if cfg_LeaseDuration cfg <=? 0 then _ else _).
  set (b := if cfg_HeartbeatInterval cfg <=? 0 then _ else _).
  assert (0 < b).
  { unfold b, defaultHeartbeatInterval. destruct (cfg_HeartbeatInterval cfg <=? 0) eqn:E; lia. }
  destruct (l <=? b) eqn:E; [done|]. intros [= <-]. simpl. split; [lia|].
  destruct (cfg_LeaseOwner cfg =s "") eqn:Eo; [done|]. by apply str_eqb_false.
Qed.

(** ** The database along a run is a trace *)

Definition traces (db db' : DB) : Prop := exists os, db' = run_ops os db.

Lemma traces_refl db : traces db db.
Proof. by exists []. Qed.

Lemma traces_trans a b c : traces a b -> traces b c -> traces a c.
Proof. intros [o1 ->] [o2 ->]. exists (o1 ++ o2). by rewrite run_ops_app. Qed.

Lemma traces_ops os db : traces db (run_ops os db).
Proof. by exists os. Qed.

Lemma traces_op o db : traces db (run_op o db).
Proof. by exists [o]. Qed.

#[export] Hint Resolve traces_refl traces_ops traces_op : go.

Lemma beat_trace h id att f clock now db : traces db (beat h id att f clock now db).1.
Proof. apply (traces_op (OpHeartbeat f now id (h_leaseOwner h) att (clock + h_leaseDuration h))). Qed.

(** The two statements of a failure report. *)
Lemma mark_failure_trace f1 f2 now1 now2 label statuses st id o a code msg db mk :
  (forall c m, run_op (mk c m) db = (exec f1 (mark_failure_stmt now1 statuses st id o a c m) db).1) ->
  traces db (mark_failure f1 f2 now1 now2 label statuses st id o a code msg db).1.
Proof.
  intros Hmk. unfold mark_failure. destruct (_ || _); [apply traces_refl|].
  destruct (normalizeFailure code msg) as [c m]. specialize (Hmk c m).
  destruct (exec f1 _ db) as [db1 [[]|e]]; simpl in *; subst; auto with go.
  pose proof (traces_op (OpFailParent f2 now2 id c m) (run_op (mk c m) db)) as Ht.
  simpl in Ht. destruct (failParentIfTerminalFailure _ _ _ _ _ _) as [db2 []]; simpl in *;
    (eapply traces_trans; [apply traces_op|exact Ht]).
Qed.

(** A failure report after other clients' statements [env]. *)
Lemma markFailed_spec h id att code msg e env db log db' log' err :
  markFailed h id att code msg e (run_ops env db) log = (db', log', err) ->
  traces db db' /\ exists ok, log' = log ++ [HFailed code ok].
Proof.
  unfold markFailed. set (db1 := run_ops env db).
  pose proof (mark_failure_trace (me_fault1 e) (me_fault2 e) (me_now1 e) (me_now2 e) "MarkFailed"
    markable failed_status id (h_leaseOwner h) att code msg db1
    (fun c m => OpFailed (me_fault1 e) (me_now1 e) id (h_leaseOwner h) att c m)
    (fun _ _ => eq_refl)) as Ht.
  change (mark_failure _ _ _ _ _ _ _ _ _ _ _ _ db1) with
    (MarkFailed (me_fault1 e) (me_fault2 e) (me_now1 e) (me_now2 e) id (h_leaseOwner h) att
    code msg db1) in Ht.
  destruct (MarkFailed _ _ _ _ _ _ _ _ _ db1) as [db2 r]. intros [= <- <- _].
  split; [|eauto]. eapply traces_trans; [apply traces_ops|exact Ht].
Qed.

Lemma markInfra_spec h id att code msg e env db log db' log' err :
  markRetryableInfrastructureFailure h id att code msg e (run_ops env db) log = (db', log', err) ->
  traces db db' /\ exists ok, log' = log ++ [HInfraFailed ok].
Proof.
  unfold markRetryableInfrastructureFailure. set (db1 := run_ops env db).
  pose proof (mark_failure_trace (me_fault1 e) (me_fault2 e) (me_now1 e) (me_now2 e)
    "MarkRetryableInfrastructureFailure"
    infra_markable infra_status id (h_leaseOwner h) att code msg db1
    (fun c m => OpInfraFailed (me_fault1 e) (me_now1 e) id (h_leaseOwner h) att c m)
    (fun _ _ => eq_refl)) as Ht.
  change (mark_failure _ _ _ _ _ _ _ _ _ _ _ _ db1) with
    (MarkRetryableInfrastructureFailure (me_fault1 e) (me_fault2 e) (me_now1 e) (me_now2 e) id
    (h_leaseOwner h) att code msg db1) in Ht.
  destruct (MarkRetryableInfrastructureFailure _ _ _ _ _ _ _ _ _ db1) as [db2 r].
  intros [= <- <- _]. split; [|eauto]. eapply traces_trans; [apply traces_ops|exact Ht].
Qed.

Lemma MarkSucceeded_spec f now id o a env db db' r :
  MarkSucceeded f now id o a (run_ops env db) = (db', r) ->
  traces db db' /\ (is_true r = true -> status_of id db' = Some StatusSucceeded).
Proof.
  intros Hs. split.
  - pose proof (traces_op (OpSucceed f now id o a) (run_ops env db)) as Ht. simpl in Ht.
    rewrite Hs in Ht. eapply traces_trans; [apply traces_ops|exact Ht].
  - intros ->%is_true_Ok. revert Hs. unfold MarkSucceeded. destruct (_ || _); [done|].
    intros (x & _ & _ & ->)%(exec_update_true _ _ (finish_guard now o a (run_ops env db))).
    unfold status_of. simpl. by rewrite lookup_insert_eq.
Qed.

(** ** One call of [withHeartbeat] *)

Definition is_beat (c : hcall) : bool := match c with HBeat _ => true | _ => false end.

(** The calls other than heartbeats. *)
Definition erase (log : list hcall) : list hcall := List.filter (fun c => negb (is_beat c)) log.

Lemma erase_app l1 l2 : erase (l1 ++ l2) = erase l1 ++ erase l2.
Proof. apply List.filter_app. Qed.

Section WithHeartbeat.
Context {W A : Type} (work_step : A -> W -> DB -> DB * W * list hcall)
  (work_done : W -> option (option gerror)) (h : Handler) (id att : string).
(** What the work goroutine has called so far, by its state. *)
Context (I : W -> list hcall -> Prop).
Hypothesis Istep : forall a w db db' w' calls l,
  work_step a w db = (db', w', calls) -> work_done w = None -> I w l ->
  traces db db' /\ erase calls = calls /\ I w' (l ++ calls).

(** The invariant of the event loop. *)
Definition wh_inv (db0 : DB) (log0 : list hcall) (s : wh_state W) : Prop :=
  traces db0 (wh_db s) /\
  (exists l, erase (wh_log s) = erase log0 ++ l /\ I (wh_work s) l) /\
  (wh_main s = MainReturned None -> work_done (wh_work s) = Some None).

Lemma wh_step_inv db0 log0 ev s :
  wh_inv db0 log0 s ->
  wh_inv db0 log0 (wh_step work_step work_done h id att ev s).
Proof.
  intros (Ht & (l & Hl & HI) & Hm). destruct s as [db m b w log]. simpl in *.
  assert (Hx : exists l, erase log = erase log0 ++ l /\ I w l) by eauto.
  destruct ev as [f clock now|a| | | |o]; simpl.
  - destruct b, m; try done.
    destruct (beat h id att f clock now db) as [db' r] eqn:Eb. split; [|split; [|done]]; simpl.
    + eapply traces_trans; [exact Ht|]. pose proof (beat_trace h id att f clock now db) as Hb.
      by rewrite Eb in Hb.
    + exists l. by rewrite erase_app, app_nil_r.
  - destruct (work_done w) eqn:Ew.
    { split; [done|split; [done|]]. simpl. by rewrite Ew. }
    destruct m; cycle 2.
    { split; [done|split; [done|]]. simpl. by rewrite Ew. }
    1, 2:
      destruct (work_step a w db) as [[db' w'] calls] eqn:Es;
      destruct (Istep _ _ _ _ _ _ _ Es Ew HI) as (H1 & H2 & H3);
      (split; [by eapply traces_trans|split; [eexists; split; [|exact H3]|done]]);
      simpl; by rewrite erase_app, H2, Hl, app_assoc.
  - by destruct m, b.
  - destruct m, (work_done w) as [oe|] eqn:Ew; (split; [done|split; [done|]]); simpl;
      rewrite Ew; try done; by intros [= ->].
  - by destruct m.
  - split; [|done]. simpl. eapply traces_trans; [exact Ht|]. auto with go.
Qed.

Lemma wh_fold_inv db0 log0 evs s :
  wh_inv db0 log0 s ->
  wh_inv db0 log0 (foldl (fun s ev => wh_step work_step work_done h id att ev s) s evs).
Proof.
  revert s. induction evs as [|ev evs IH]; intros s Hs; simpl; [done|].
  apply IH. by apply wh_step_inv.
Qed.

Lemma withHeartbeat_inv sc w db log db' w' log' err :
  I w [] ->
  withHeartbeat work_step work_done h id att sc w db log = Some (db', w', log', err) ->
  traces db db' /\ (exists l, erase log' = erase log ++ l /\ I w' l) /\
  (err = None -> work_done w' = Some None).
Proof.
  intros HI. unfold withHeartbeat.
  destruct (beat h id att _ _ _ db) as [db1 r] eqn:Eb.
  pose proof (beat_trace h id att (ws_fault sc) (ws_clock sc) (ws_dbnow sc) db) as Hb.
  rewrite Eb in Hb. simpl in Hb.
  assert (Hl : erase (log ++ [HBeat (is_true r)]) = erase log ++ []) by (by rewrite erase_app).
  destruct r as [[]|e]; try (intros [= <- <- <- <-]; repeat split; eauto; done).
  cbn zeta. set (s0 := {| wh_db := db1 |}).
  assert (H0 : wh_inv db log s0) by (repeat split; simpl; eauto; done).
  pose proof (wh_fold_inv db log (ws_events sc) s0 H0) as (H1 & H2 & H3).
  destruct (wh_main _) eqn:Em; try done. intros [= <- <- <- <-].
  split; [done|]. split; [done|]. intros ->. by apply H3.
Qed.
End WithHeartbeat.

(** ** The calls of the two bodies *)

Definition run_calls (w : run_state) (l : list hcall) : Prop :=
  match w with Executing => l = [] | Executed _ err => l = [HExecuted err] end.

Inductive post_calls : post_state -> list hcall -> Prop :=
| pc_start r : post_calls (PostValidating r) []
| pc_valid v : post_calls (PostMarking v) [HValidated true]
| pc_written v : post_calls (PostIngesting v) [HValidated true; HArtifact true]
| pc_invalid e : post_calls (PostDone "INVALID_ARTIFACT" (Some e)) [HValidated false]
| pc_lost e : post_calls (PostDone "" (Some e)) [HValidated true; HArtifact false]
| pc_ingest_failed e :
    post_calls (PostDone "ARTIFACT_INGEST_FAILED" (Some e))
      [HValidated true; HArtifact true; HIngested (Some e)]
| pc_ingested :
    post_calls (PostDone "" None) [HValidated true; HArtifact true; HIngested None].

Lemma run_calls_step a w db db' w' calls l :
  run_step a w db = (db', w', calls) -> run_done w = None -> run_calls w l ->
  traces db db' /\ erase calls = calls /\ run_calls w' (l ++ calls).
Proof. destruct w; [|done]. intros [= <- <- <-] _ ->. split; [auto with go|done]. Qed.

Lemma post_calls_step h id att a w db db' w' calls l :
  post_step h id att a w db = (db', w', calls) -> post_done w = None -> post_calls w l ->
  traces db db' /\ erase calls = calls /\ post_calls w' (l ++ calls).
Proof.
  intros Hs Hd Hp.
  destruct Hp; try discriminate Hd; destruct a as [v'|f now|e]; simpl in Hs;
    try (injection Hs as <- <- <-; rewrite app_nil_r; repeat split; auto with go; by constructor).
  - destruct v' as [v'|e]; injection Hs as <- <- <-; repeat split; auto with go; constructor.
  - destruct (MarkArtifactWritten _ _ _ _ _ _ _ _ db) as [db1 r] eqn:Em.
    injection Hs as <- <- <-. split; [|split; [done|]].
    + pose proof (traces_op (OpArtifact f now id (h_leaseOwner h) att (res_ArtifactTempPath v)
        (res_ArtifactPath v) (res_ArtifactSHA256 v)) db) as Ht. simpl in Ht. by rewrite Em in Ht.
    + destruct r as [[]|e]; simpl; constructor.
  - destruct e; injection Hs as <- <- <-; repeat split; auto with go; constructor.
Qed.

(** ** The protocol of [Handle] *)

(** The calls of a run, heartbeats left out. *)
Inductive protocol : list hcall -> Prop :=
| pr_dropped : protocol []
| pr_not_claimed : protocol [HClaim false]
| pr_infra run ok : (run = [] \/ exists e, run = [HExecuted e]) ->
    protocol (HClaim true :: run ++ [HInfraFailed ok])
| pr_failed run ok : (run = [] \/ exists e, run = [HExecuted e]) ->
    protocol (HClaim true :: run ++ [HFailed "EXECUTION_FAILED" ok])
| pr_post_failed w post ok : post_calls w post -> postFailureCode w <> "" ->
    protocol (HClaim true :: HExecuted None :: post ++ [HFailed (postFailureCode w) ok])
| pr_abandoned w post : post_calls w post ->
    protocol (HClaim true :: HExecuted None :: post)
| pr_finished ok :
    protocol [HClaim true; HExecuted None; HValidated true; HArtifact true; HIngested None;
              HSucceeded ok].

Lemma run_calls_case w l : run_calls w l -> l = [] \/ exists e, l = [HExecuted e].
Proof. destruct w; simpl; eauto. Qed.

Lemma erase_last log c : is_beat c = false -> erase (log ++ [c]) = erase log ++ [c].
Proof. intros Hc. rewrite erase_app. simpl. by rewrite Hc. Qed.

Lemma post_calls_not_final w l ok : post_calls w l -> HSucceeded ok ∉ l.
Proof. intros []; set_solver. Qed.

(** What a run that returned guarantees. *)
Definition run_spec (id : string) (db db' : DB) (log : list hcall) : Prop :=
  traces db db' /\ protocol (erase log) /\
  (HSucceeded true ∈ erase log -> status_of id db' = Some StatusSucceeded).

Lemma post_phase_spec h id att sc db log result db' log' err :
  erase log = [HClaim true; HExecuted None] ->
  handle_post h id att sc result db log = Some (db', log', err) ->
  run_spec id db db' log'.
Proof.
  intros Hlog. unfold handle_post.
  destruct (withHeartbeat _ _ _ _ _ _ _ _ _) as [[[[db2 w2] log2] err2]|] eqn:E2; [|done].
  apply (withHeartbeat_inv _ _ _ _ _ post_calls) in E2 as (T2 & (l2 & L2 & R2) & D2);
    [|by intros; eapply post_calls_step|constructor].
  rewrite Hlog in L2. simpl in L2. pose proof (post_calls_not_final _ _ true R2) as Hnf.
  destruct err2 as [e2|].
  - destruct (negb _) eqn:Ec; cycle 1.
    { intros [= <- <- <-]. split; [eapply traces_trans; [exact T2|apply traces_ops]|].
      rewrite L2. split; [by apply (pr_abandoned w2)|set_solver]. }
    apply negb_true_iff, str_eqb_false in Ec. intros [= Hm].
    apply markFailed_spec in Hm as (T3 & ok & ->).
    split; [by eapply traces_trans|]. rewrite erase_last, L2 by done.
    split; [by apply (pr_post_failed w2)|set_solver].
  - specialize (D2 eq_refl).
    destruct (MarkSucceeded _ _ _ _ _ _) as [db3 r] eqn:Es. intros [= <- <- <-].
    apply MarkSucceeded_spec in Es as [T3 Hs].
    split; [by eapply traces_trans|]. rewrite erase_last, L2 by done.
    inversion R2; subst; try discriminate D2. split; [constructor|].
    intros H. apply Hs. set_unfold in H. naive_solver.
Qed.

Lemma handle_claimed_spec h p att sc db log db' log' err :
  erase log = [HClaim true] ->
  handle_claimed h p att sc db log = Some (db', log', err) ->
  run_spec (pl_SubjobID p) db db' log'.
Proof.
  intros Hlog. unfold handle_claimed. cbn zeta. set (id := pl_SubjobID p).
  destruct (withHeartbeat run_step _ _ _ _ _ _ _ _) as [[[[db1 w] log1] err1]|] eqn:E1; [|done].
  apply (withHeartbeat_inv _ _ _ _ _ run_calls) in E1 as (T1 & (l1 & L1 & R1) & D1);
    [|by intros; eapply run_calls_step|done].
  rewrite Hlog in L1. apply (traces_trans _ _ _ (traces_ops (sc_env2 sc) db)) in T1.
  destruct err1 as [runErr|].
  - apply run_calls_case in R1.
    destruct (err_is _ runErr); intros [= Hm].
    + apply markInfra_spec in Hm as (T2 & ok & ->).
      split; [by eapply traces_trans|]. rewrite erase_last, L1 by done.
      split; [by apply (pr_infra l1)|destruct R1 as [->|[e ->]]; set_solver].
    + apply markFailed_spec in Hm as (T2 & ok & ->).
      split; [by eapply traces_trans|]. rewrite erase_last, L1 by done.
      split; [by apply (pr_failed l1)|destruct R1 as [->|[e ->]]; set_solver].
  - specialize (D1 eq_refl). destruct w as [|res e]; [done|]. injection D1 as ->.
    simpl in R1. subst l1. intros (T2 & P2 & S2)%post_phase_spec; [|by rewrite L1].
    split; [|done]. eapply traces_trans; [exact T1|].
    eapply traces_trans; [apply traces_ops|exact T2].
Qed.

Lemma Handle_spec h ty raw sc db db' log err :
  Handle h ty raw sc db = Some (db', log, err) ->
  match Unmarshal raw with
  | Ok p => run_spec (pl_SubjobID p) db db' log
  | Err _ => db' = db /\ log = [] /\ err = None
  end.
Proof.
  unfold Handle. destruct (Unmarshal raw) as [p|]; [|by intros [= <- <- <-]].
  destruct (negb _).
  { intros [= <- <- <-]. split; [auto with go|]. split; [constructor|set_solver]. }
  cbn zeta. set (att := generatedAttemptID _ _ _).
  pose proof (traces_op (OpClaim (sc_claim_fault sc) (sc_claim_dbnow sc) (toClaimScope p)
    (h_leaseOwner h) att (sc_claim_clock sc + h_leaseDuration h)) (run_ops (sc_env1 sc) db)) as Tc.
  simpl in Tc. destruct (ClaimScoped _ _ _ _ _ _ _) as [db1 r] eqn:Ec. simpl in Tc.
  apply (traces_trans _ _ _ (traces_ops (sc_env1 sc) db)) in Tc.
  destruct r as [[]|e].
  - intros (T & P)%handle_claimed_spec; [|done]. split; [by eapply traces_trans|done].
  - intros [= <- <- <-]. split; [done|]. split; [constructor|set_solver].
  - intros [= <- <- <-]. split; [done|]. split; [constructor|set_solver].
Qed.

(** ** Runs return *)

(** The events that bring a call of [withHeartbeat] to its end from any point: the
    heartbeat's error is taken if there is one and the timer runs out, or the
    work goroutine gets its answers and its result is taken. *)
Definition finish {A} (answers : list A) : list (event A) :=
  EvTakeBeat :: EvTimeout :: map EvWork answers ++ [EvTakeWork].

Section Returns.
Context {W A : Type} (work_step : A -> W -> DB -> DB * W * list hcall)
  (work_done : W -> option (option gerror)) (h : Handler) (id att : string).
Notation step := (fun s ev => wh_step work_step work_done h id att ev s).

Lemma returned_stays evs s e :
  wh_main s = MainReturned e -> wh_main (foldl step s evs) = MainReturned e.
Proof.
  revert s. induction evs as [|ev evs IH]; intros s Hs; [done|]. apply IH.
  destruct ev; simpl; rewrite ?Hs; try done; by repeat case_match.
Qed.

Lemma working_stays answers s :
  wh_main s = MainSelect -> wh_main (foldl step s (map EvWork answers)) = MainSelect.
Proof.
  revert s. induction answers as [|a l IH]; intros s Hs; [done|]. apply IH. simpl.
  rewrite Hs. destruct (work_done (wh_work s)); [done|].
  by destruct (work_step a (wh_work s) (wh_db s)) as [[]].
Qed.

Context (answers : list A).

(** From [s] on, once the work it has left is done by these answers. *)
Lemma finish_returns s :
  (forall s', wh_work s' = wh_work s -> wh_db s' = wh_db s -> wh_main s' = MainSelect ->
     work_done (wh_work (foldl step s' (map EvWork answers))) <> None) ->
  exists e, wh_main (foldl step s (finish answers)) = MainReturned e.
Proof.
  intros Hfin. unfold finish. cbn [foldl].
  set (s2 := wh_step work_step work_done h id att EvTimeout
               (wh_step work_step work_done h id att EvTakeBeat s)).
  assert (H2 : wh_work s2 = wh_work s /\ wh_db s2 = wh_db s /\
            (wh_main s2 = MainSelect \/ exists e, wh_main s2 = MainReturned e)).
  { unfold s2. destruct s as [db [|e|e] [] w log]; simpl; eauto. }
  destruct H2 as (Hw & Hd2 & H2). rewrite foldl_app. destruct H2 as [H2|[e H2]].
  - simpl. pose proof (Hfin s2 Hw Hd2 H2) as Hd. rewrite (working_stays answers s2 H2).
    destruct (work_done _) as [err|]; [|done]. by exists err.
  - exists e. apply returned_stays. by apply returned_stays.
Qed.

Definition finish_script (sc : wh_script A) : wh_script A :=
  {| ws_fault := ws_fault sc; ws_clock := ws_clock sc; ws_dbnow := ws_dbnow sc;
     ws_events := ws_events sc ++ finish answers |}.

Hypothesis Hfin : forall s, wh_main s = MainSelect ->
  work_done (wh_work (foldl step s (map EvWork answers))) <> None.

Lemma withHeartbeat_returns sc w db log :
  withHeartbeat work_step work_done h id att (finish_script sc) w db log <> None.
Proof.
  unfold withHeartbeat. simpl.
  destruct (beat _ _ _ _ _ _ _) as [db1 [[]|e]]; try done. rewrite foldl_app.
  match goal with |- context [foldl _ ?s0 (finish answers)] =>
    destruct (finish_returns s0) as [e He]; [by intros; apply Hfin|] end.
  by rewrite He.
Qed.
End Returns.

Lemma run_finishes a h id att s :
  wh_main s = MainSelect ->
  run_done (wh_work (foldl (fun s ev => wh_step run_step run_done h id att ev s) s
    (map EvWork [a]))) <> None.
Proof. intros Hs. simpl. rewrite Hs. destruct (wh_work s) eqn:E; simpl; by rewrite ?E. Qed.

Lemma post_finishes v f now e h id att s :
  wh_main s = MainSelect ->
  post_done (wh_work (foldl (fun s ev => wh_step (post_step h id att) post_done h id att ev s) s
    (map EvWork [AnsValidated v; AnsMarked f now; AnsIngested e]))) <> None.
Proof.
  destruct s as [db m b w log]. simpl. intros ->.
  destruct w as [r|r|r|code err]; destruct v, e; simpl; try done;
    repeat (destruct (MarkArtifactWritten _ _ _ _ _ _ _ _ _) as [? [[]|]]; simpl); done.
Qed.

(** A script whose two phases are brought to their end, with the answers the
    runner, the validator, the registration and the ingestor give by then. *)
Definition finish_run (a : Result * option gerror) (v : result gerror Result)
    (f : option gerror) (now : Z) (e : option gerror) (sc : script) : script :=
  {| sc_nonce := sc_nonce sc; sc_claim_clock := sc_claim_clock sc;
     sc_claim_fault := sc_claim_fault sc; sc_claim_dbnow := sc_claim_dbnow sc;
     sc_run := finish_script [a] (sc_run sc);
     sc_post := finish_script [AnsValidated v; AnsMarked f now; AnsIngested e] (sc_post sc);
     sc_mark := sc_mark sc; sc_env1 := sc_env1 sc; sc_env2 := sc_env2 sc;
     sc_env3 := sc_env3 sc; sc_env4 := sc_env4 sc |}.

Lemma Handle_returns h ty raw a v f now e sc db :
  is_Some (Handle h ty raw (finish_run a v f now e sc) db).
Proof.
  unfold Handle. destruct (Unmarshal raw) as [p|]; [|by eexists].
  destruct (negb _); [by eexists|].
  destruct (ClaimScoped _ _ _ _ _ _ _) as [db1 [[]|]]; try by eexists.
  unfold handle_claimed. cbn [finish_run sc_run sc_env2 sc_env3 sc_mark].
  match goal with |- context [withHeartbeat ?ws ?wd ?h ?i ?at_ (finish_script ?l ?sc) ?w ?d ?lg] =>
    pose proof (withHeartbeat_returns ws wd h i at_ l (run_finishes a h i at_) sc w d lg) as Hr;
    destruct (withHeartbeat ws wd h i at_ (finish_script l sc) w d lg)
      as [[[[db2 w2] lg2] [e2|]]|]; [destruct (err_is _ _); by eexists| |done] end.
  unfold handle_post. cbn [finish_run sc_post sc_env4 sc_mark].
  match goal with |- context [withHeartbeat ?ws ?wd ?h ?i ?at_ (finish_script ?l ?sc) ?w ?d ?lg] =>
    pose proof (withHeartbeat_returns ws wd h i at_ l (post_finishes v f now e h i at_) sc w d lg)
      as Hp;
    destruct (withHeartbeat ws wd h i at_ (finish_script l sc) w d lg)
      as [[[[db3 w3] lg3] [e3|]]|]; [destruct (negb _); by eexists| |done] end.
  destruct (MarkSucceeded _ _ _ _ _ _) as [db4 r4]. by eexists.
Qed.


Lemma succeeded_stays id db os : status_of id db = Some StatusSucceeded ->
  status_of id (run_ops os db) = Some StatusSucceeded.
Proof.
  unfold status_of. destruct (db_subjobs db !! id) as [r|] eqn:Hr; [|done]. intros [= Hs].
  rewrite (run_ops_ended os db _ r); [|done|]; simpl; by rewrite Hs.
Qed.

(** The effect of a run on the database. It is a sequence of the store's
    statements, the handler's own and the other clients', so every invariant of
    the subjob table survives it; a malformed message changes nothing and is not
    retried; and when the handler reported success, the subjob of its message is
    SUCCEEDED, for good. *)
Theorem executor_effect h ty raw sc db db' log err :
  Handle h ty raw sc db = Some (db', log, err) ->
  (exists os, db' = run_ops os db) /\
  (forall e, Unmarshal raw = Err e -> db' = db /\ err = None) /\
  (forall p, Unmarshal raw = Ok p -> HSucceeded true ∈ log ->
     forall os, status_of (pl_SubjobID p) (run_ops os db') = Some StatusSucceeded).
Proof.
  intros H%Handle_spec. destruct (Unmarshal raw) as [p|].
  - destruct H as (T & _ & S). split; [done|]. split; [done|].
    intros q [= <-] Hin os.
    assert (Hs : status_of (pl_SubjobID p) db' = Some StatusSucceeded).
    { apply S. apply list_elem_of_In, filter_In. split; [by apply list_elem_of_In|done]. }
    by apply succeeded_stays.
  - destruct H as (-> & -> & ->). split; [apply traces_refl|]. split; [done|]. done.
Qed.
