(* ===== verification/Scheduler.v ===== *)
(** The scheduler, src/internal/backend/scheduler/scheduler.go: it opens a
    "RepoIndexingJob" or "ConnectionSyncJob" row and puts its task on the queue.
    The task payloads are those of src/pkg/repoindex and src/pkg/connectionsync. *)
From Stdlib Require Import Ascii.
From S2P Require Import Prelude GoStd GoStdFacts GoJSON GoJSONFacts WorkerClasses SubjobTypes Dispatcher.
(** ** Tables and queue *)

(** "Connection", under its key [id]. *)
Record Connection : Type := { conn_orgId : Z; conn_name : string }.

(** "ConnectionSyncJob", under its key [id]. *)
Record SyncJob : Type := {
  sync_connectionId : Z;
  sync_status : string;
  sync_errorMessage : option string;
  sync_warningMessages : list string;
  sync_createdAt : Z;
  sync_completedAt : option Z;
  sync_updatedAt : Z
}.

(** The tables and the queue, as (task type, queue, payload) in order of arrival. *)
Record World : Type := {
  w_db : DB;
  w_connections : gmap Z Connection;
  w_repoToConnection : list (Z * Z);
  w_syncJobs : gmap string SyncJob;
  w_queue : list (string * string * string)
}.

Definition set_w_db (db : DB) (w : World) : World :=
  {| w_db := db; w_connections := w_connections w; w_repoToConnection := w_repoToConnection w;
     w_syncJobs := w_syncJobs w; w_queue := w_queue w |}.

Definition set_w_syncJobs (f : gmap string SyncJob -> gmap string SyncJob) (w : World) : World :=
  {| w_db := w_db w; w_connections := w_connections w;
     w_repoToConnection := w_repoToConnection w; w_syncJobs := f (w_syncJobs w);
     w_queue := w_queue w |}.

Definition push_task (t : string * string * string) (w : World) : World :=
  {| w_db := w_db w; w_connections := w_connections w;
     w_repoToConnection := w_repoToConnection w; w_syncJobs := w_syncJobs w;
     w_queue := w_queue w ++ [t] |}.

(** ** Task payloads *)

Definition job_type_text (t : JobType) : string :=
  match t with INDEX => "INDEX" | CLEANUP => "CLEANUP" | REMOVE_INDEX => "REMOVE_INDEX" end.

Definition job_status_text (s : JobStatus) : string :=
  match s with
  | PENDING => "PENDING" | IN_PROGRESS => "IN_PROGRESS"
  | COMPLETED => "COMPLETED" | FAILED => "FAILED"
  end.

(** A [JobType] string of the source, as the enum it names. *)
Definition job_type_of (s : string) : option JobType :=
  if s =s "INDEX" then Some INDEX
  else if s =s "CLEANUP" then Some CLEANUP
  else if s =s "REMOVE_INDEX" then Some REMOVE_INDEX
  else None.

(** [JobType.Valid] *)
Definition Valid (t : string) : bool := bool_decide (job_type_of t <> None).

Module repoindex.
Record TaskPayload : Type := {
  tp_Type : string;
  tp_JobID : string;
  tp_RepoID : Z;
  tp_OrgID : Z;
  tp_RepoName : string;
  tp_Ref : string
}.

Definition task_fields (p : TaskPayload) : list (string * field) :=
  [("type", FStr (tp_Type p)); ("jobId", FStr (tp_JobID p)); ("repoId", FInt (tp_RepoID p));
   ("orgId", FInt (tp_OrgID p)); ("repoName", FStr (tp_RepoName p))]
  ++ (if tp_Ref p =s "" then [] else [("ref", FStr (tp_Ref p))]).

Definition MarshalTask (p : TaskPayload) : result gerror string :=
  if negb (Valid (tp_Type p)) then Err (EText ("repoindex: invalid JobType " +:+ quoted (tp_Type p)))
  else if tp_OrgID p <=? 0 then Err (EText "repoindex: orgId is required")
  else Ok (struct_text (task_fields p)).
End repoindex.

Module connectionsync.
Record SyncPayload : Type := {
  sp_JobID : string;
  sp_ConnectionID : Z;
  sp_ConnectionName : string;
  sp_OrgID : Z
}.

Definition sync_fields (p : SyncPayload) : list (string * field) :=
  [("jobId", FStr (sp_JobID p)); ("connectionId", FInt (sp_ConnectionID p));
   ("connectionName", FStr (sp_ConnectionName p)); ("orgId", FInt (sp_OrgID p))].

Definition MarshalSync (p : SyncPayload) : result gerror string := Ok (struct_text (sync_fields p)).
End connectionsync.
Import repoindex connectionsync.

(** ** Requests and results *)

Record RepoScheduleRequest : Type := {
  rq_OrgID : Z;
  rq_RepoID : Z;
  rq_Kind : string;
  rq_Ref : string
}.

Record ConnectionSyncRequest : Type := { cq_OrgID : Z; cq_ConnectionID : Z }.

Record ScheduleResult : Type := { sr_JobID : string; sr_AlreadyAtCapacity : bool }.

Record activeRepoIndexJob : Type := { aj_JobID : string; aj_Type : string; aj_Status : string }.

(** [*JobAlreadyActiveError] or another error. *)
Inductive sched_error : Type :=
| JobAlreadyActiveError (j : activeRepoIndexJob)
| SchedErr (e : gerror).

Definition ErrRepoNotFound : gerror := ESentinel "backend scheduler: repo not found in org".
Definition ErrConnectionNotFound : gerror :=
  ESentinel "backend scheduler: connection not found in org".
Definition ErrUnavailable : gerror :=
  ESentinel "backend scheduler: queue producer is not configured".

(** What the drivers answer to one request: the failure of each statement, if
    any, the failure of the enqueue call, the clock and the new uuid. *)
Record SchedEnv : Type := {
  se_available : bool;
  se_load : option gerror;
  se_insert : option gerror;
  se_enqueue : option gerror;
  se_mark : option gerror;
  se_now : Z;
  se_mark_now : Z;
  se_uuid : string
}.

(** ** Opening a repository job *)

(** The compaction loop writes [out[:0]] behind the element it reads. *)
Definition schedulerRefCandidates (ref : string) : list string :=
  let ref := TrimSpace ref in
  if ref =s "" then []
  else
    let stripped := TrimPrefix ref "refs/heads/" in
    let second := if negb (stripped =s ref) && negb (TrimSpace stripped =s "") then stripped
                  else "refs/heads/" +:+ ref in
    dedup_first [] (List.filter (fun s => negb (s =s "")) (map TrimSpace [ref; second])).

Definition job_is_active (j : Job) : bool :=
  bool_decide (job_status j = PENDING) || bool_decide (job_status j = IN_PROGRESS).

(** [COALESCE(j.metadata->>'ref', '')] *)
Definition job_ref (j : Job) : string := coalesce "" (job_metadataRef j).

(** The WHERE clause of the [existing] subquery. *)
Definition blocks_insert (repoID : Z) (ref : string) (cands : list string) (j : Job) : bool :=
  (job_repoId j =? repoID) && job_is_active j
  && ((ref =s "") || (job_ref j =s "") || bool_decide (job_ref j ∈ cands)).

(** ORDER BY "createdAt" DESC, id DESC *)
Definition newer_job (a b : string * Job) : bool :=
  (job_createdAt b.2 <? job_createdAt a.2)
  || ((job_createdAt a.2 =? job_createdAt b.2) && str_ltb b.1 a.1).

Definition existing_job (jobs : gmap string Job) (repoID : Z) (ref : string) (cands : list string)
  : option (string * Job) :=
  head (sort_stable newer_job
          (List.filter (fun p => blocks_insert repoID ref cands p.2) (map_to_list jobs))).

(** The statement of [insertPendingRepoIndexJob].  It reads [snapshot], the table
    as of the statement's start, and inserts into the table as it is when the
    lock is granted; a duplicate key, an unknown repository or an unknown enum
    label is an SQL error. *)
Definition insert_stmt (snapshot : gmap string Job) (now repoID : Z) (jobID jobType ref : string)
    (db : DB) : result gerror (DB * (bool * activeRepoIndexJob)) :=
  match job_type_of jobType with
  | None => Err (EText "invalid input value for enum")
  | Some ty =>
      match existing_job snapshot repoID ref (schedulerRefCandidates ref) with
      | Some (id, j) =>
          Ok (db, (false, {| aj_JobID := id; aj_Type := job_type_text (job_type j);
                             aj_Status := job_status_text (job_status j) |}))
      | None =>
          if bool_decide (db_jobs db !! jobID <> None) then Err (EText "duplicate key")
          else if bool_decide (db_repos db !! repoID = None) then Err (EText "foreign key violation")
          else
            let row := {| job_repoId := repoID; job_type := ty; job_status := PENDING;
                          job_errorMessage := None;
                          job_metadataRef := if ref =s "" then None else Some ref;
                          job_createdAt := now; job_completedAt := None;
                          job_updatedAt := now |} in
            Ok (set_jobs (<[jobID := row]>) db,
                (true, {| aj_JobID := jobID; aj_Type := jobType; aj_Status := "PENDING" |}))
      end
  end.

Definition insertPendingRepoIndexJob (fault : option gerror) (now repoID : Z)
    (jobID jobType ref : string) (db : DB) : DB * result gerror (bool * activeRepoIndexJob) :=
  match exec fault (insert_stmt (db_jobs db) now repoID jobID jobType ref) db with
  | (db', Ok r) => (db', Ok r)
  | (db', Err e) => (db', Err (EWrap "backend scheduler: insert pending repo index job: " e ""))
  end.

Definition mark_job_failed (now : Z) (cause : gerror) (j : Job) : Job :=
  {| job_repoId := job_repoId j; job_type := job_type j; job_status := FAILED;
     job_errorMessage := Some ("enqueue failed before worker delivery: " +:+ err_text cause);
     job_metadataRef := job_metadataRef j; job_createdAt := job_createdAt j;
     job_completedAt := Some now; job_updatedAt := now |}.

Definition markRepoIndexJobFailedAfterEnqueueError (fault : option gerror) (now : Z)
    (jobID : string) (cause : gerror) (db : DB) : DB * option gerror :=
  let stmt (db : DB) : result gerror (DB * unit) :=
    Ok (set_jobs (alter (fun j => if bool_decide (job_status j = PENDING)
                                  then mark_job_failed now cause j else j) jobID) db, tt) in
  match exec fault stmt db with
  | (db', Ok _) => (db', None)
  | (db', Err e) => (db', Some (EWrap "backend scheduler: mark enqueue failure: " e ""))
  end.

(** The repository lookup: the repository of the organisation, linked to a
    connection of the same organisation. *)
Definition load_repo (w : World) (repoID orgID : Z) : option string :=
  match db_repos (w_db w) !! repoID with
  | Some r =>
      if (repo_orgId r =? orgID)
         && existsb (fun l => (l.1 =? repoID) &&
              match w_connections w !! l.2 with
              | Some c => conn_orgId c =? repo_orgId r
              | None => false
              end) (w_repoToConnection w)
      then Some (repo_name r) else None
  | None => None
  end.

(** Everything after the row was inserted. *)
Definition deliver_repo_task (env : SchedEnv) (req : RepoScheduleRequest) (jobID repoName : string)
    (w : World) : World * result sched_error ScheduleResult :=
  let mark cause w :=
    set_w_db (markRepoIndexJobFailedAfterEnqueueError (se_mark env) (se_mark_now env) jobID cause
                (w_db w)).1 w in
  match MarshalTask {| tp_Type := rq_Kind req; tp_JobID := jobID; tp_RepoID := rq_RepoID req;
                       tp_OrgID := rq_OrgID req; tp_RepoName := repoName;
                       tp_Ref := TrimSpace (rq_Ref req) |} with
  | Err e => (mark e w, Err (SchedErr (EWrap "backend scheduler: marshal repo index payload: " e "")))
  | Ok payload =>
      match se_enqueue env with
      | Some e => (mark e w, Err (SchedErr (EWrap "backend scheduler: enqueue repo index: " e "")))
      | None => (push_task (QueueRepoIndex, QueueRepoIndex, payload) w,
                 Ok {| sr_JobID := jobID; sr_AlreadyAtCapacity := false |})
      end
  end.

Definition ScheduleRepoIndex (env : SchedEnv) (req : RepoScheduleRequest) (w : World)
  : World * result sched_error ScheduleResult :=
  if negb (se_available env) then (w, Err (SchedErr ErrUnavailable))
  else if negb (Valid (rq_Kind req)) then
    (w, Err (SchedErr (EText ("backend scheduler: invalid repo index kind " +:+ quoted (rq_Kind req)))))
  else if (rq_OrgID req <=? 0) || (rq_RepoID req <=? 0) then
    (w, Err (SchedErr (EText "backend scheduler: orgId and repoId are required")))
  else
    match se_load env with
    | Some e => (w, Err (SchedErr (EWrap "backend scheduler: load repo: " e "")))
    | None =>
        match load_repo w (rq_RepoID req) (rq_OrgID req) with
        | None => (w, Err (SchedErr ErrRepoNotFound))
        | Some repoName =>
            let jobID := se_uuid env in
            match insertPendingRepoIndexJob (se_insert env) (se_now env) (rq_RepoID req) jobID
                    (rq_Kind req) (TrimSpace (rq_Ref req)) (w_db w) with
            | (db', Err e) => (set_w_db db' w, Err (SchedErr e))
            | (db', Ok (false, active)) => (set_w_db db' w, Err (JobAlreadyActiveError active))
            | (db', Ok (true, _)) => deliver_repo_task env req jobID repoName (set_w_db db' w)
            end
        end
    end.

(** ** Opening a connection sync *)

Definition mark_sync_failed (now : Z) (cause : gerror) (j : SyncJob) : SyncJob :=
  {| sync_connectionId := sync_connectionId j; sync_status := "FAILED";
     sync_errorMessage := Some ("enqueue failed before worker delivery: " +:+ err_text cause);
     sync_warningMessages := sync_warningMessages j; sync_createdAt := sync_createdAt j;
     sync_completedAt := Some now; sync_updatedAt := now |}.

Definition markConnectionSyncJobFailedAfterEnqueueError (fault : option gerror) (now : Z)
    (jobID : string) (connectionID : Z) (cause : gerror) (w : World) : World * option gerror :=
  match fault with
  | Some e => (w, Some (EWrap "backend scheduler: mark connection sync enqueue failure: " e ""))
  | None =>
      (set_w_syncJobs (alter (fun j =>
         if (sync_connectionId j =? connectionID) && (sync_status j =s "PENDING")
         then mark_sync_failed now cause j else j) jobID) w, None)
  end.

Definition ScheduleConnectionSync (env : SchedEnv) (req : ConnectionSyncRequest) (w : World)
  : World * result sched_error ScheduleResult :=
  if negb (se_available env) then (w, Err (SchedErr ErrUnavailable))
  else if (cq_OrgID req <=? 0) || (cq_ConnectionID req <=? 0) then
    (w, Err (SchedErr (EText "backend scheduler: orgId and connectionId are required")))
  else
    match se_load env with
    | Some e => (w, Err (SchedErr (EWrap "backend scheduler: load connection: " e "")))
    | None =>
        match w_connections w !! cq_ConnectionID req with
        | None => (w, Err (SchedErr ErrConnectionNotFound))
        | Some conn =>
            if negb (conn_orgId conn =? cq_OrgID req) then (w, Err (SchedErr ErrConnectionNotFound))
            else
              let jobID := se_uuid env in
              let mark cause w :=
                (markConnectionSyncJobFailedAfterEnqueueError (se_mark env) (se_mark_now env) jobID
                   (cq_ConnectionID req) cause w).1 in
              let insert_err e :=
                (w, Err (SchedErr (EWrap "backend scheduler: insert connection sync job: " e ""))) in
              match se_insert env with
              | Some e => insert_err e
              | None =>
                  if bool_decide (w_syncJobs w !! jobID <> None) then insert_err (EText "duplicate key")
                  else
                    let row := {| sync_connectionId := cq_ConnectionID req; sync_status := "PENDING";
                                  sync_errorMessage := None; sync_warningMessages := [];
                                  sync_createdAt := se_now env; sync_completedAt := None;
                                  sync_updatedAt := se_now env |} in
                    let w1 := set_w_syncJobs (<[jobID := row]>) w in
                    match MarshalSync {| sp_JobID := jobID; sp_ConnectionID := cq_ConnectionID req;
                                         sp_ConnectionName := conn_name conn;
                                         sp_OrgID := cq_OrgID req |} with
                    | Err e => (mark e w1, Err (SchedErr
                        (EWrap "backend scheduler: marshal connection sync payload: " e "")))
                    | Ok payload =>
                        match se_enqueue env with
                        | Some e => (mark e w1, Err (SchedErr
                            (EWrap "backend scheduler: enqueue connection sync: " e "")))
                        | None => (push_task (QueueConnectionSync, QueueConnectionSync, payload) w1,
                                   Ok {| sr_JobID := jobID; sr_AlreadyAtCapacity := false |})
                        end
                    end
              end
        end
    end.
