(* ===== verification/SchedulerFacts.v ===== *)
(** What the scheduler guarantees: one active job per repository and branch when
    its statements do not overlap, what each answer means for the tables and the
    queue, and what overlapping statements can do. *)
From Stdlib Require Import Ascii.
From S2P Require Import Prelude GoStd GoStdFacts GoJSON GoJSONFacts WorkerClasses SubjobTypes Dispatcher Scheduler.
Import repoindex connectionsync.

(** ** Conflicting refs *)

(** Two scopes that must not be worked on at once: one of them is the whole
    repository, or they name the same branch, with or without "refs/heads/". *)
Definition same_branch (x y : string) : Prop :=
  x = y \/ (x = "refs/heads/" +:+ y /\ HasPrefix y "refs/heads/" = false).

Definition conflicts (x y : string) : Prop :=
  x = "" \/ y = "" \/ same_branch x y \/ same_branch y x.

Lemma conflicts_sym x y : conflicts x y -> conflicts y x.
Proof. unfold conflicts. tauto. Qed.

Lemma refs_heads_neq y : "refs/heads/" +:+ y <> y.
Proof.
  intros E. apply (f_equal String.length) in E. rewrite str_length_app in E.
  cbn [String.length] in E. lia.
Qed.

(** The candidate list of a trimmed ref covers every conflicting trimmed ref. *)
Lemma candidates_cover ref y :
  TrimSpace ref = ref -> TrimSpace y = y -> conflicts ref y ->
  ref = "" \/ y = "" \/ y ∈ schedulerRefCandidates ref.
Proof.
  intros Hr Hy Hc. destruct (decide (ref = "")) as [|Hne]; [auto|].
  destruct (decide (y = "")) as [|Hyne]; [auto|]. do 2 right.
  unfold schedulerRefCandidates. rewrite Hr, (proj2 (str_eqb_false _ _) Hne).
  apply elem_of_dedup_first. split; [|apply not_elem_of_nil].
  apply list_elem_of_In, filter_In. rewrite negb_true_iff, str_eqb_false. split; [|done].
  apply list_elem_of_In. rewrite <- Hy. apply list_elem_of_fmap_2.
  destruct Hc as [?|[?|[[->|[-> Hp]]|[->|[-> Hp]]]]]; try done; try by left.
  - rewrite TrimPrefix_app, Hy, (proj2 (str_eqb_false _ _) Hyne).
    rewrite (proj2 (str_eqb_false y _)) by (intros E; by apply (refs_heads_neq y)).
    right. left.
  - rewrite (TrimPrefix_none _ _ Hp), str_eqb_refl. right. left.
Qed.

(** ** The insert statement *)

Lemma existing_job_None jobs repoID ref cands :
  existing_job jobs repoID ref cands = None ->
  forall id j, jobs !! id = Some j -> blocks_insert repoID ref cands j = false.
Proof.
  unfold existing_job. intros H id j Hj.
  set (l := List.filter _ _) in H.
  assert (Hl : l = []).
  { pose proof (length_sort_stable newer_job l) as Hlen.
    destruct (sort_stable newer_job l); [|done]. by destruct l. }
  destruct (blocks_insert repoID ref cands j) eqn:E; [|done].
  assert (Hin : (id, j) ∈ l).
  { apply list_elem_of_In, filter_In. split; [|done].
    by apply list_elem_of_In, elem_of_map_to_list. }
  rewrite Hl in Hin. by apply not_elem_of_nil in Hin.
Qed.

Lemma existing_job_Some jobs repoID ref cands id j :
  existing_job jobs repoID ref cands = Some (id, j) ->
  jobs !! id = Some j /\ blocks_insert repoID ref cands j = true.
Proof.
  unfold existing_job. intros H. apply head_Some_elem_of in H.
  apply elem_of_sort_stable, list_elem_of_In, filter_In in H as [H ?].
  by apply list_elem_of_In, elem_of_map_to_list in H.
Qed.

Definition pending_row (now repoID : Z) (ty : JobType) (ref : string) : Job :=
  {| job_repoId := repoID; job_type := ty; job_status := PENDING; job_errorMessage := None;
     job_metadataRef := if ref =s "" then None else Some ref;
     job_createdAt := now; job_completedAt := None; job_updatedAt := now |}.

Lemma pending_row_ref now repoID ty ref : job_ref (pending_row now repoID ty ref) = ref.
Proof. unfold job_ref. simpl. destruct (ref =s "") eqn:E; breflect; by subst. Qed.

(** The two outcomes of the statement. *)
Lemma insert_stmt_spec snapshot now repoID jobID jobType ref db db' ins a :
  insert_stmt snapshot now repoID jobID jobType ref db = Ok (db', (ins, a)) ->
  if ins then
    exists ty, job_type_of jobType = Some ty /\
      existing_job snapshot repoID ref (schedulerRefCandidates ref) = None /\
      db_jobs db !! jobID = None /\ db_repos db !! repoID <> None /\
      db' = set_jobs (<[jobID := pending_row now repoID ty ref]>) db
  else
    db' = db /\ exists j, existing_job snapshot repoID ref (schedulerRefCandidates ref)
                            = Some (aj_JobID a, j) /\
      aj_Type a = job_type_text (job_type j) /\ aj_Status a = job_status_text (job_status j).
Proof.
  unfold insert_stmt. destruct (job_type_of jobType) as [ty|]; [|done].
  destruct (existing_job _ _ _ _) as [[id j]|] eqn:E.
  { intros [= <- <- <-]. eauto. }
  destruct (bool_decide (db_jobs db !! jobID <> None)) eqn:E1; [done|].
  destruct (bool_decide (db_repos db !! repoID = None)) eqn:E2; [done|].
  intros [= <- <- <-]. breflect. exists ty. split_and!; try done.
  destruct (db_jobs db !! jobID); [exfalso; by apply E1|done].
Qed.

Lemma insertPending_Ok fault now repoID jobID jobType ref db db' r :
  insertPendingRepoIndexJob fault now repoID jobID jobType ref db = (db', Ok r) ->
  insert_stmt (db_jobs db) now repoID jobID jobType ref db = Ok (db', r).
Proof.
  unfold insertPendingRepoIndexJob, exec. destruct fault; [done|].
  destruct (insert_stmt _ _ _ _ _ _ _) as [[db1 r1]|e]; [|done]. by intros [= <- <-].
Qed.

Lemma insertPending_Err fault now repoID jobID jobType ref db db' e :
  insertPendingRepoIndexJob fault now repoID jobID jobType ref db = (db', Err e) -> db' = db.
Proof.
  unfold insertPendingRepoIndexJob, exec. destruct fault; [by intros [= <- _]|].
  destruct (insert_stmt _ _ _ _ _ _ _) as [[db1 r1]|]; [done|]. by intros [= <- _].
Qed.

(** ** Exclusive jobs *)

Definition jobs_exclusive (jobs : gmap string Job) : Prop :=
  forall i j a b, i <> j -> jobs !! i = Some a -> jobs !! j = Some b ->
    job_repoId a = job_repoId b -> job_is_active a = true -> job_is_active b = true ->
    ~ conflicts (job_ref a) (job_ref b).

Definition refs_trimmed (jobs : gmap string Job) : Prop :=
  forall i a, jobs !! i = Some a -> TrimSpace (job_ref a) = job_ref a.

Definition jobs_ok (jobs : gmap string Job) : Prop := jobs_exclusive jobs /\ refs_trimmed jobs.

(** A new pending job no active job blocks. *)
Lemma jobs_ok_insert jobs now repoID ty ref jobID :
  jobs_ok jobs -> TrimSpace ref = ref -> jobs !! jobID = None ->
  existing_job jobs repoID ref (schedulerRefCandidates ref) = None ->
  jobs_ok (<[jobID := pending_row now repoID ty ref]> jobs).
Proof.
  intros [Hex Htr] Href Hnew Hnone.
  assert (Hfree : forall i b, jobs !! i = Some b -> job_repoId b = repoID ->
      job_is_active b = true -> ~ conflicts ref (job_ref b)).
  { intros i b Hb Hrepo Hact Hc.
    pose proof (existing_job_None _ _ _ _ Hnone i b Hb) as Hblk.
    apply candidates_cover in Hc; [|done|eauto].
    assert (Ht : blocks_insert repoID ref (schedulerRefCandidates ref) b = true);
      [|congruence].
    unfold blocks_insert. rewrite Hact, Hrepo, Z.eqb_refl. simpl.
    rewrite !orb_true_iff, !str_eqb_spec, bool_decide_eq_true. tauto. }
  split.
  - intros i j a b Hij Ha Hb Hrepo Hacta Hactb.
    apply lookup_insert_Some in Ha as [[<- <-]|[Hi Ha]],
      Hb as [[<- <-]|[Hj Hb]]; try done.
    + rewrite pending_row_ref. eapply Hfree; eauto.
    + rewrite pending_row_ref. intros Hc%conflicts_sym. eapply Hfree; eauto.
    + eauto.
  - intros i a [[<- <-]|[_ Ha]]%lookup_insert_Some; [by rewrite pending_row_ref|eauto].
Qed.

(** A job that ends, or starts, keeps the table in order. *)
Lemma jobs_ok_update jobs id j j' :
  jobs_ok jobs -> jobs !! id = Some j ->
  job_repoId j' = job_repoId j -> job_metadataRef j' = job_metadataRef j ->
  (job_is_active j' = true -> job_is_active j = true) ->
  jobs_ok (<[id := j']> jobs).
Proof.
  intros [Hex Htr] Hj Hrepo Hmeta Hact.
  assert (Hold : forall i a, <[id := j']> jobs !! i = Some a ->
      exists a0, jobs !! i = Some a0 /\ job_repoId a = job_repoId a0 /\
        job_ref a = job_ref a0 /\ (job_is_active a = true -> job_is_active a0 = true)).
  { intros i a [[<- <-]|[_ Ha]]%lookup_insert_Some; [|eauto 6].
    exists j. unfold job_ref. rewrite Hmeta. auto. }
  split.
  - intros i k a b Hik Ha Hb Hr H1 H2.
    destruct (Hold i a Ha) as (a0 & Ha0 & E1 & E2 & E3), (Hold k b Hb) as (b0 & Hb0 & F1 & F2 & F3).
    rewrite E2, F2. eapply (Hex i k); eauto. congruence.
  - intros i a Ha. destruct (Hold i a Ha) as (a0 & Ha0 & _ & -> & _). eauto.
Qed.

Lemma alter_lookup_Some {A} (f : A -> A) (m : gmap string A) i x :
  m !! i = Some x -> alter f i m = <[i := f x]> m.
Proof.
  intros H. apply map_eq. intros k. destruct (decide (i = k)) as [<-|Hk].
  - by rewrite lookup_alter_eq, lookup_insert_eq, H.
  - by rewrite lookup_alter_ne, lookup_insert_ne.
Qed.

Lemma mark_failed_ok fault now jobID cause db :
  jobs_ok (db_jobs db) ->
  jobs_ok (db_jobs (markRepoIndexJobFailedAfterEnqueueError fault now jobID cause db).1).
Proof.
  intros Hok. unfold markRepoIndexJobFailedAfterEnqueueError, exec.
  destruct fault; [done|]. simpl. destruct (db_jobs db !! jobID) as [j|] eqn:E.
  - rewrite (alter_lookup_Some _ _ _ _ E).
    eapply jobs_ok_update; [done|done|..]; by case_bool_decide.
  - rewrite alter_id; [done|]. intros x Hx. congruence.
Qed.

(** ** One request *)

Definition sched_jobs (w : World) : gmap string Job := db_jobs (w_db w).

Lemma deliver_cases env req jobID name w :
  let out := deliver_repo_task env req jobID name w in
  (exists cause e, out = (set_w_db (markRepoIndexJobFailedAfterEnqueueError (se_mark env)
       (se_mark_now env) jobID cause (w_db w)).1 w, Err (SchedErr e))) \/
  (exists payload, MarshalTask {| tp_Type := rq_Kind req; tp_JobID := jobID;
       tp_RepoID := rq_RepoID req; tp_OrgID := rq_OrgID req; tp_RepoName := name;
       tp_Ref := TrimSpace (rq_Ref req) |} = Ok payload /\
     out = (push_task (QueueRepoIndex, QueueRepoIndex, payload) w,
            Ok {| sr_JobID := jobID; sr_AlreadyAtCapacity := false |})).
Proof.
  cbv zeta. unfold deliver_repo_task.
  destruct (MarshalTask _) as [payload|e]; [|eauto].
  destruct (se_enqueue env); eauto.
Qed.

(** Where a request can end: before the table was touched, at a blocking job, or
    past the insert of a new pending row. *)
Lemma schedule_cases env req w w' r :
  ScheduleRepoIndex env req w = (w', r) ->
  (w' = w /\ exists e, r = Err (SchedErr e)) \/
  (w' = w /\ exists a j, r = Err (JobAlreadyActiveError a) /\
     existing_job (sched_jobs w) (rq_RepoID req) (TrimSpace (rq_Ref req))
       (schedulerRefCandidates (TrimSpace (rq_Ref req))) = Some (aj_JobID a, j) /\
     aj_Type a = job_type_text (job_type j) /\ aj_Status a = job_status_text (job_status j)) \/
  (exists ty name, job_type_of (rq_Kind req) = Some ty /\
     load_repo w (rq_RepoID req) (rq_OrgID req) = Some name /\
     existing_job (sched_jobs w) (rq_RepoID req) (TrimSpace (rq_Ref req))
       (schedulerRefCandidates (TrimSpace (rq_Ref req))) = None /\
     sched_jobs w !! se_uuid env = None /\
     (w', r) = deliver_repo_task env req (se_uuid env) name
       (set_w_db (set_jobs (<[se_uuid env := pending_row (se_now env) (rq_RepoID req) ty
                                (TrimSpace (rq_Ref req))]>) (w_db w)) w)).
Proof.
  assert (Hw : set_w_db (w_db w) w = w) by by destruct w.
  unfold ScheduleRepoIndex. destruct (se_available env); [|intros [= <- <-]; eauto].
  destruct (Valid (rq_Kind req)); [|intros [= <- <-]; eauto]. cbn [negb].
  match goal with |- (if ?b then _ else _) = _ -> _ => destruct b end; [intros [= <- <-]; eauto|].
  destruct (se_load env); [intros [= <- <-]; eauto|].
  destruct (load_repo w (rq_RepoID req) (rq_OrgID req)) as [name|]; [|intros [= <- <-]; eauto].
  destruct (insertPendingRepoIndexJob _ _ _ _ _ _ _) as [db' [[ins a]|e]] eqn:Ei.
  - apply insertPending_Ok, insert_stmt_spec in Ei. destruct ins; intros Heq.
    + destruct Ei as (ty & H1 & H2 & H3 & _ & ->). right. right. exists ty, name. eauto.
    + destruct Ei as (-> & j & H1 & H2 & H3). rewrite Hw in Heq. injection Heq as <- <-.
      right. left. eauto 8.
  - apply insertPending_Err in Ei as ->. rewrite Hw. intros [= <- <-]. eauto.
Qed.

Lemma schedule_jobs_ok env req w :
  jobs_ok (sched_jobs w) -> jobs_ok (sched_jobs (ScheduleRepoIndex env req w).1).
Proof.
  intros Hok. destruct (ScheduleRepoIndex env req w) as [w' r] eqn:E.
  apply schedule_cases in E as [[-> _]|[[-> _]|(ty & name & Hty & _ & Hnone & Hnew & Hd)]];
    [done|done|].
  assert (Hins : jobs_ok (<[se_uuid env := pending_row (se_now env) (rq_RepoID req) ty
                              (TrimSpace (rq_Ref req))]> (sched_jobs w)))
    by (apply jobs_ok_insert; auto using TrimSpace_idemp).
  match type of Hd with _ = deliver_repo_task _ _ ?i ?n ?w1 =>
    destruct (deliver_cases env req i n w1) as [(cause & e & Hc)|(payload & _ & Hc)] end;
    rewrite Hc in Hd; injection Hd as -> _; [by apply mark_failed_ok|done].
Qed.

Lemma sync_jobs_same env req w :
  sched_jobs (ScheduleConnectionSync env req w).1 = sched_jobs w.
Proof.
  unfold ScheduleConnectionSync, markConnectionSyncJobFailedAfterEnqueueError.
  repeat case_match; done.
Qed.

(** ** Runs *)

(** Requests one after the other, and the workers' updates of a job: they keep
    its repository and its ref, and never make an ended job active again. *)
Inductive sched_step : World -> World -> Prop :=
| step_repo env req w : sched_step w (ScheduleRepoIndex env req w).1
| step_connection env req w : sched_step w (ScheduleConnectionSync env req w).1
| step_worker w id j j' :
    sched_jobs w !! id = Some j ->
    job_repoId j' = job_repoId j -> job_metadataRef j' = job_metadataRef j ->
    (job_is_active j' = true -> job_is_active j = true) ->
    sched_step w (set_w_db (set_jobs (<[id := j']>) (w_db w)) w).

Lemma sched_step_ok w w' : sched_step w w' -> jobs_ok (sched_jobs w) -> jobs_ok (sched_jobs w').
Proof.
  intros [env req w0|env req w0|w0 id j j' Hj Hr Hm Ha] Hok.
  - by apply schedule_jobs_ok.
  - by rewrite sync_jobs_same.
  - by eapply jobs_ok_update.
Qed.

(** C29: one job at a time.  In every run of requests that do not overlap, with
    workers starting and ending jobs in between, no two active jobs of a
    repository conflict: a repository-wide job is alone, and no branch has two
    jobs, however its ref is written. *)
Theorem active_jobs_exclusive w0 w
    (H0 : sched_jobs w0 = ∅) (Hrun : rtc sched_step w0 w) :
  jobs_exclusive (sched_jobs w).
Proof.
  assert (Hok : jobs_ok (sched_jobs w0)).
  { rewrite H0. split; [intros i j a b _ Ha|intros i a Ha]; by rewrite lookup_empty in Ha. }
  enough (jobs_ok (sched_jobs w)) by by destruct H.
  clear H0. induction Hrun as [|x y z Hs Hrun IH]; [done|]. eauto using sched_step_ok.
Qed.

(** What an answer of [ScheduleRepoIndex] means.  Success: the repository
    belongs to the organisation, no active job stood in the way, the pending row
    of the request is in the table and its task is the last of the queue.  Already
    active: nothing changed and the named job is active, of that repository and
    in the way.  Any other error: nothing was queued, and unless marking the row
    itself failed, every active job was there before. *)
Theorem schedule_outcome env req w w' r
    (Hrun : ScheduleRepoIndex env req w = (w', r)) :
  match r with
  | Ok res =>
      exists ty name payload, job_type_of (rq_Kind req) = Some ty /\
        load_repo w (rq_RepoID req) (rq_OrgID req) = Some name /\
        (forall id j, sched_jobs w !! id = Some j ->
           blocks_insert (rq_RepoID req) (TrimSpace (rq_Ref req))
             (schedulerRefCandidates (TrimSpace (rq_Ref req))) j = false) /\
        sched_jobs w' = <[sr_JobID res := pending_row (se_now env) (rq_RepoID req) ty
                                            (TrimSpace (rq_Ref req))]> (sched_jobs w) /\
        sched_jobs w !! sr_JobID res = None /\
        MarshalTask {| tp_Type := rq_Kind req; tp_JobID := sr_JobID res;
          tp_RepoID := rq_RepoID req; tp_OrgID := rq_OrgID req; tp_RepoName := name;
          tp_Ref := TrimSpace (rq_Ref req) |} = Ok payload /\
        w_queue w' = w_queue w ++ [(QueueRepoIndex, QueueRepoIndex, payload)]
  | Err (JobAlreadyActiveError a) =>
      w' = w /\ exists j, sched_jobs w !! aj_JobID a = Some j /\ job_is_active j = true /\
        job_repoId j = rq_RepoID req /\ aj_Status a = job_status_text (job_status j) /\
        aj_Type a = job_type_text (job_type j)
  | Err (SchedErr _) =>
      w_queue w' = w_queue w /\
      (se_mark env = None -> forall id j, sched_jobs w' !! id = Some j ->
         job_is_active j = true -> sched_jobs w !! id = Some j)
  end.
Proof.
  apply schedule_cases in Hrun
    as [[-> [e ->]]|[[-> (a & j & -> & Hex & Ht & Hs)]|(ty & name & Hty & Hl & Hnone & Hnew & Hd)]].
  - done.
  - split; [done|]. apply existing_job_Some in Hex as [Hj Hb].
    unfold blocks_insert in Hb. breflect. eauto 8.
  - match type of Hd with _ = deliver_repo_task _ _ ?i ?n ?w1 =>
      destruct (deliver_cases env req i n w1) as [(cause & e & Hc)|(payload & Hp & Hc)] end;
      rewrite Hc in Hd; injection Hd as -> ->.
    + split; [done|]. intros Hm id j. unfold sched_jobs. rewrite Hm. simpl.
      rewrite lookup_alter_Some. setoid_rewrite lookup_insert_Some.
      intros [(<- & j0 & [[_ <-]|[? _]] & ->)|(Hne & [[<- _]|[_ Hj]])]; try done.
    + exists ty, name, payload. split_and!; try done. by apply existing_job_None.
Qed.

(** ** Overlapping statements *)

(** The arguments of one [insertPendingRepoIndexJob] statement. *)
Record InsertCall : Type := {
  ic_now : Z; ic_repoID : Z; ic_jobID : string; ic_jobType : string; ic_ref : string
}.

(** Statements of concurrent sessions.  The statement is its own transaction, at
    the default isolation level: its snapshot is taken when it starts, which is
    before the advisory lock its first subquery asks for is granted; the lock
    only orders the statements' effects. *)
Inductive stmt_step
  : DB * list (InsertCall * gmap string Job) -> DB * list (InsertCall * gmap string Job) -> Prop :=
| stmt_start call db ws : stmt_step (db, ws) (db, ws ++ [(call, db_jobs db)])
| stmt_granted call snapshot db db' r ws1 ws2 :
    insert_stmt snapshot (ic_now call) (ic_repoID call) (ic_jobID call) (ic_jobType call)
      (ic_ref call) db = Ok (db', r) ->
    stmt_step (db, ws1 ++ (call, snapshot) :: ws2) (db', ws1 ++ ws2).

Definition race_db : DB :=
  {| db_subjobs := ∅; db_jobs := ∅;
     db_repos := {[ 7 := new_repo 1 "r" ]};
     db_manifests := []; db_indexes := []; db_lock := None |}.

Definition race_call (id : string) : InsertCall :=
  {| ic_now := 1; ic_repoID := 7; ic_jobID := id; ic_jobType := "INDEX"; ic_ref := "main" |}.

Definition race_after (calls : list string) : DB :=
  set_jobs (fun _ => list_to_map (map (fun id => (id, pending_row 1 7 INDEX "main")) calls)) race_db.

(** The lock does not serialise overlapping requests.  Two requests for the
    same repository and branch whose statements start before either is granted
    the advisory lock both insert: the second one still reads the table as it was
    before the first, and the repository ends with two pending jobs for one
    branch. *)
Theorem schedule_race :
  exists db', rtc stmt_step (race_db, []) (db', []) /\ ~ jobs_exclusive (db_jobs db').
Proof.
  exists (race_after ["b"; "a"]). split.
  - eapply rtc_l; [apply (stmt_start (race_call "a"))|].
    eapply rtc_l; [apply (stmt_start (race_call "b"))|].
    eapply rtc_l; [apply (stmt_granted (race_call "a") ∅ race_db (race_after ["a"])
      (true, {| aj_JobID := "a"; aj_Type := "INDEX"; aj_Status := "PENDING" |}) []); reflexivity|].
    eapply rtc_l; [apply (stmt_granted (race_call "b") ∅ (race_after ["a"]) (race_after ["b"; "a"])
      (true, {| aj_JobID := "b"; aj_Type := "INDEX"; aj_Status := "PENDING" |}) [] []); reflexivity|].
    apply rtc_refl.
  - intros Hex. apply (Hex "a" "b" (pending_row 1 7 INDEX "main") (pending_row 1 7 INDEX "main"));
      try reflexivity; [done|]. right. right. left. by left.
Qed.

(** ** Concrete requests *)

Definition sched_world : World :=
  {| w_db := race_db; w_connections := {[ 3 := {| conn_orgId := 1; conn_name := "gh" |} ]};
     w_repoToConnection := [(7, 3)]; w_syncJobs := ∅; w_queue := [] |}.

Definition sched_env (uuid : string) (enqueue : option gerror) : SchedEnv :=
  {| se_available := true; se_load := None; se_insert := None; se_enqueue := enqueue;
     se_mark := None; se_now := 5; se_mark_now := 6; se_uuid := uuid |}.

Definition sched_req (ref : string) : RepoScheduleRequest :=
  {| rq_OrgID := 1; rq_RepoID := 7; rq_Kind := "INDEX"; rq_Ref := ref |}.

(** The second spelling of the branch is refused, another branch is not. *)
Definition sched_run : World :=
  let w1 := (ScheduleRepoIndex (sched_env "a" None) (sched_req " main ") sched_world).1 in
  let w2 := (ScheduleRepoIndex (sched_env "b" None) (sched_req "refs/heads/main") w1).1 in
  (ScheduleRepoIndex (sched_env "c" None) (sched_req "dev") w2).1.

Lemma active_jobs_exclusive_witness :
  elements (dom (sched_jobs sched_run)) = ["c"; "a"] /\ jobs_exclusive (sched_jobs sched_run).
Proof.
  split; [vm_compute; reflexivity|].
  apply (active_jobs_exclusive sched_world sched_run); [reflexivity|].
  eapply rtc_l; [apply (step_repo (sched_env "a" None) (sched_req " main "))|].
  eapply rtc_l; [apply (step_repo (sched_env "b" None) (sched_req "refs/heads/main"))|].
  apply rtc_once, (step_repo (sched_env "c" None) (sched_req "dev")).
Defined.

Definition sched_failed : World :=
  (ScheduleRepoIndex (sched_env "a" (Some (EText "down"))) (sched_req "main") sched_world).1.

Definition sched_failed_error : sched_error :=
  SchedErr (EWrap "backend scheduler: enqueue repo index: " (EText "down") "").

(** The enqueue fails: the row is there, failed. *)
Lemma schedule_outcome_witness :
  (job_status <$> sched_jobs sched_failed !! "a") = Some FAILED /\
  w_queue sched_failed = w_queue sched_world.
Proof.
  split; [vm_compute; reflexivity|].
  pose proof (schedule_outcome (sched_env "a" (Some (EText "down"))) (sched_req "main") sched_world
    sched_failed (Err sched_failed_error) ltac:(vm_compute; reflexivity)) as H.
  destruct H as [H _]. exact H.
Defined.
