(* ===== verification/RepoPaths.v ===== *)
(** On-disk paths, src/pkg/repopaths/paths.go: where a repository's clone, its
    Zoekt shards and its revision snapshots live, and that the directories of
    different tenants and repositories are apart. *)
From Stdlib Require Import Ascii.
From S2P Require Import Prelude GoStd GoStdFacts.
(** ** Operations *)

Definition StorageLayoutOrgDirectory : string := "org-directory".

Record Config : Type := {
  DataCacheDir : string;
  ZoektEFSRoot : string;
  ZoektStorageLayout : string
}.

(** [getenv] is the process environment, "" for a variable that is not set. *)
Definition LoadConfigFromEnv (getenv : string -> string) : Config :=
  let dataCacheDir := getenv "CODEINTEL_DATA_CACHE_DIR" in
  {| DataCacheDir := if dataCacheDir =s "" then "./data" else dataCacheDir;
     ZoektEFSRoot := getenv "CODEINTEL_ZOEKT_EFS_ROOT";
     ZoektStorageLayout := getenv "CODEINTEL_ZOEKT_STORAGE_LAYOUT" |}.

Record Repo : Type := {
  rp_OrgID : Z;
  rp_RepoID : Z;
  rp_CloneURL : string;
  rp_CodeHostType : string
}.

Definition ErrInvalidCloneURL : gerror := ESentinel "repopaths: invalid CloneURL".

Definition zoektOrgRootPath (c : Config) (orgID : Z) : string :=
  if negb (ZoektEFSRoot c =s "") then FilepathJoin [ZoektEFSRoot c; Itoa orgID]
  else FilepathJoin [DataCacheDir c; "zoekt-orgs"; Itoa orgID].

Definition zoektOrgIndexPath (c : Config) (orgID : Z) : string :=
  FilepathJoin [zoektOrgRootPath c orgID; "index"].

Definition zoektOrgReposPath (c : Config) (orgID : Z) : string :=
  FilepathJoin [zoektOrgRootPath c orgID; "repos"].

Definition org_layout (c : Config) : bool := ZoektStorageLayout c =s StorageLayoutOrgDirectory.

(** The directory of a repository that is not read in place. *)
Definition managed_path (c : Config) (r : Repo) : string :=
  let reposRoot := if org_layout c then zoektOrgReposPath c (rp_OrgID r)
                   else FilepathJoin [DataCacheDir c; "repos"] in
  FilepathJoin [reposRoot; Itoa (rp_RepoID r)].

Section Url.
(** [net/url.Parse]: the scheme and the path, [None] for an error. *)
Context (Parse : string -> option (string * string)).

Definition RepoPath (c : Config) (r : Repo) : result gerror (string * bool) :=
  if ((rp_CodeHostType r =s "genericGitHost") || (rp_CodeHostType r =s "generic-git-host"))
     && negb (rp_CloneURL r =s "") then
    match Parse (rp_CloneURL r) with
    | None => Err ErrInvalidCloneURL
    | Some (scheme, path) =>
        if scheme =s "file" then Ok (path, true) else Ok (managed_path c r, false)
    end
  else Ok (managed_path c r, false).
End Url.

Definition ZoektIndexPath (c : Config) (r : Repo) : string :=
  if org_layout c then zoektOrgIndexPath c (rp_OrgID r)
  else FilepathJoin [DataCacheDir c; "index"].

Definition RevisionSnapshotRepoRoot (c : Config) (orgID repoID : Z) : string :=
  let base := if org_layout c then zoektOrgRootPath c orgID else DataCacheDir c in
  FilepathJoin [base; "codeintel"; "revision-snapshots"; Itoa repoID].

Definition RevisionSnapshotPath (c : Config) (orgID repoID : Z) (commitHash : string) : string :=
  FilepathJoin [RevisionSnapshotRepoRoot c orgID repoID; commitHash].

Definition ShardPrefix (orgID repoID : Z) : string := Itoa orgID +:+ "_" +:+ Itoa repoID.

Definition ShardFilePrefix (orgID repoID : Z) : string := ShardPrefix orgID repoID +:+ "_".

(** ** Directories *)

(** [p] is the directory [d] or lies below it. *)
Definition within (p d : string) : Prop :=
  rooted p = rooted d /\ exists rest, path_elems p = path_elems d ++ rest.

Lemma plain_literal w :
  bool_decide (w <> "" /\ w <> "." /\ w <> ".." /\ "/"%char ∉ String.list_ascii_of_string w) = true ->
  plain w.
Proof. by intros H%bool_decide_eq_true. Qed.

#[export] Hint Resolve Itoa_plain : go.
#[export] Hint Extern 1 (plain _) => (apply plain_literal; reflexivity) : go.
#[export] Hint Extern 1 (Forall plain _) => repeat constructor : go.

Lemma data_dir_nonempty getenv : DataCacheDir (LoadConfigFromEnv getenv) <> "".
Proof. simpl. destruct (_ =s "") eqn:E; by breflect. Qed.

Section Layout.
Context (c : Config) (Hdata : DataCacheDir c <> "").

(** The elements of the directory that holds the organisations. *)
Definition org_base : string := if negb (ZoektEFSRoot c =s "") then ZoektEFSRoot c else DataCacheDir c.

Definition org_prefix : list string :=
  path_elems org_base ++ (if negb (ZoektEFSRoot c =s "") then [] else ["zoekt-orgs"]).

Lemma org_root_elems o :
  rooted (zoektOrgRootPath c o) = rooted org_base /\
  path_elems (zoektOrgRootPath c o) = org_prefix ++ [Itoa o] /\ zoektOrgRootPath c o <> "".
Proof.
  unfold zoektOrgRootPath, org_prefix, org_base. destruct (ZoektEFSRoot c =s "") eqn:E; cbn [negb].
  - rewrite <- app_assoc. apply FilepathJoin_elems; auto with go.
  - breflect. rewrite app_nil_r. apply FilepathJoin_elems; auto with go.
Qed.

(** A directory made from the organisation's root. *)
Lemma org_dir_elems o ws :
  Forall plain ws ->
  rooted (FilepathJoin (zoektOrgRootPath c o :: ws)) = rooted org_base /\
  path_elems (FilepathJoin (zoektOrgRootPath c o :: ws)) = org_prefix ++ Itoa o :: ws /\
  FilepathJoin (zoektOrgRootPath c o :: ws) <> "".
Proof.
  intros Hws. destruct (org_root_elems o) as (Hr & He & Hne).
  destruct (FilepathJoin_elems _ ws Hne Hws) as (-> & -> & ?).
  rewrite Hr, He, <- app_assoc. done.
Qed.

(** The elements of a path the layout makes below the directory of the
    organisation or, in the flat layout, below the data directory. *)
Definition layout_elems (o : Z) (ws : list string) : bool * list string :=
  if org_layout c then (rooted org_base, org_prefix ++ Itoa o :: ws)
  else (rooted (DataCacheDir c), path_elems (DataCacheDir c) ++ ws).

Definition elems_of (p : string) : bool * list string := (rooted p, path_elems p).

Lemma base_elems o ws :
  Forall plain ws ->
  let base := if org_layout c then zoektOrgRootPath c o else DataCacheDir c in
  elems_of (FilepathJoin (base :: ws)) = layout_elems o ws /\ FilepathJoin (base :: ws) <> "".
Proof.
  intros Hws base. unfold elems_of, layout_elems, base. destruct (org_layout c).
  - by destruct (org_dir_elems o ws Hws) as (-> & -> & ?).
  - by destruct (FilepathJoin_elems _ ws Hdata Hws) as (-> & -> & ?).
Qed.

Lemma join_below p w :
  p <> "" -> plain w -> elems_of (FilepathJoin [p; w]) = (rooted p, path_elems p ++ [w]).
Proof. intros Hp Hw. unfold elems_of. by destruct (FilepathJoin2_elems p w Hp Hw) as (-> & -> & _). Qed.

Lemma managed_elems r :
  elems_of (managed_path c r) = layout_elems (rp_OrgID r) ["repos"; Itoa (rp_RepoID r)].
Proof.
  unfold managed_path, zoektOrgReposPath.
  destruct (base_elems (rp_OrgID r) ["repos"]) as [He Hne]; [auto with go|].
  unfold layout_elems in *. destruct (org_layout c); rewrite join_below by auto with go;
    unfold elems_of in He; apply pair_equal_spec in He as [-> ->]; by rewrite <- app_assoc.
Qed.

Lemma index_elems r :
  elems_of (ZoektIndexPath c r) = layout_elems (rp_OrgID r) ["index"].
Proof.
  unfold ZoektIndexPath, zoektOrgIndexPath.
  destruct (base_elems (rp_OrgID r) ["index"]) as [He _]; [auto with go|].
  rewrite <- He. by destruct (org_layout c).
Qed.

Lemma snapshot_elems o r :
  elems_of (RevisionSnapshotRepoRoot c o r)
    = layout_elems o ["codeintel"; "revision-snapshots"; Itoa r] /\
  RevisionSnapshotRepoRoot c o r <> "".
Proof. apply base_elems. auto with go. Qed.

(** A path below two directories of the layout. *)
Lemma layout_common p d1 d2 o1 o2 ws1 ws2 :
  within p d1 -> within p d2 ->
  elems_of d1 = layout_elems o1 ws1 -> elems_of d2 = layout_elems o2 ws2 ->
  (exists rest1 rest2, ws1 ++ rest1 = ws2 ++ rest2) /\ (org_layout c = true -> o1 = o2).
Proof.
  intros [_ [r1 E1]] [_ [r2 E2]] H1 H2. rewrite E1 in E2. unfold elems_of, layout_elems in *.
  destruct (org_layout c); apply pair_equal_spec in H1 as [_ H1], H2 as [_ H2];
    rewrite H1, H2, <- !app_assoc in E2; apply app_inv_head in E2.
  - injection E2 as Ho Ews. apply Itoa_inj in Ho. eauto.
  - split; [eauto|done].
Qed.
End Layout.

(** ** Isolation *)

Section Isolation.
Context (Parse : string -> option (string * string)) (c : Config).

(** The directories that belong to one repository: its clone, unless it is read
    in place, and the root of its snapshots. *)
Inductive repo_dir (o r : Z) : string -> Prop :=
| clone_dir repo p :
    rp_OrgID repo = o -> rp_RepoID repo = r -> RepoPath Parse c repo = Ok (p, false) ->
    repo_dir o r p
| snapshot_dir : repo_dir o r (RevisionSnapshotRepoRoot c o r).

(** The directories that belong to one organisation: those of its repositories
    and, in the per-organisation layout, its shard directory. *)
Inductive org_dir (o : Z) : string -> Prop :=
| org_repo_dir r p : repo_dir o r p -> org_dir o p
| org_index_dir repo : rp_OrgID repo = o -> org_layout c = true -> org_dir o (ZoektIndexPath c repo).

Context (Hdata : DataCacheDir c <> "").

Lemma RepoPath_managed repo p : RepoPath Parse c repo = Ok (p, false) -> p = managed_path c repo.
Proof. unfold RepoPath. repeat case_match; intros [= ->]; done. Qed.

Lemma repo_dir_elems o r d :
  repo_dir o r d ->
  exists w ws, elems_of d = layout_elems c o (w :: ws) /\
    (w = "repos" /\ ws = [Itoa r] \/ w = "codeintel" /\ ws = ["revision-snapshots"; Itoa r]).
Proof.
  intros [repo p <- <- ->%RepoPath_managed|].
  - eexists _, _. rewrite managed_elems by done. eauto.
  - eexists _, _. destruct (snapshot_elems c Hdata o r) as [-> _]. eauto.
Qed.

Lemma org_dir_layout o d : org_dir o d -> exists ws, elems_of d = layout_elems c o ws.
Proof.
  intros [r p (w & ws & E & _)%repo_dir_elems|repo <- _]; [eauto|].
  rewrite index_elems by done. eauto.
Qed.

Lemma repo_dirs_apart p o1 r1 d1 o2 r2 d2 :
  repo_dir o1 r1 d1 -> repo_dir o2 r2 d2 -> within p d1 -> within p d2 -> r1 = r2.
Proof.
  intros (w1 & ws1 & E1 & H1)%repo_dir_elems (w2 & ws2 & E2 & H2)%repo_dir_elems Hp1 Hp2.
  destruct (layout_common c p d1 d2 o1 o2 _ _ Hp1 Hp2 E1 E2) as [(x & y & E) _].
  destruct H1 as [[-> ->]|[-> ->]], H2 as [[-> ->]|[-> ->]]; simpl in E;
    injection E; try done; intros; by apply Itoa_inj.
Qed.
End Isolation.

Lemma commit_plain h : commitHashPattern h = true -> plain h.
Proof.
  unfold commitHashPattern. intros [Hl%Nat.eqb_eq Hh]%andb_true_iff.
  split_and!; try (intros ->; done).
  intros Hin. rewrite forallb_forall in Hh. specialize (Hh "/"%char).
  rewrite <- list_elem_of_In in Hh. by specialize (Hh Hin).
Qed.

Lemma snapshot_within c o r h :
  DataCacheDir c <> "" -> commitHashPattern h = true ->
  within (RevisionSnapshotPath c o r h) (RevisionSnapshotRepoRoot c o r).
Proof.
  intros Hdata Hh. destruct (snapshot_elems c Hdata o r) as [_ Hne].
  destruct (FilepathJoin2_elems _ h Hne (commit_plain h Hh)) as (Hr & He & _).
  split; [exact Hr|]. eauto.
Qed.

(** Storage isolation.  With the configuration read from any environment, a
    path that lies in directories of two repositories (clone or snapshots) means
    they have the same id; in the per-organisation layout a path in directories
    of two organisations (clones, snapshots, shards) means they are the same
    organisation; and the snapshot of a commit lies in its repository's snapshot
    directory. *)
Theorem storage_isolated Parse getenv :
  let c := LoadConfigFromEnv getenv in
  (forall p o1 r1 d1 o2 r2 d2, repo_dir Parse c o1 r1 d1 -> repo_dir Parse c o2 r2 d2 ->
     within p d1 -> within p d2 -> r1 = r2) /\
  (org_layout c = true ->
   forall p o1 d1 o2 d2, org_dir Parse c o1 d1 -> org_dir Parse c o2 d2 ->
     within p d1 -> within p d2 -> o1 = o2) /\
  (forall o r h, commitHashPattern h = true ->
     within (RevisionSnapshotPath c o r h) (RevisionSnapshotRepoRoot c o r)).
Proof.
  intros c. assert (Hdata : DataCacheDir c <> "") by apply data_dir_nonempty. split_and!.
  - intros p o1 r1 d1 o2 r2 d2. by apply repo_dirs_apart.
  - intros Horg p o1 d1 o2 d2 Hd1 Hd2 Hp1 Hp2.
    apply org_dir_layout in Hd1 as [v1 F1], Hd2 as [v2 F2]; try done.
    by apply (layout_common c p d1 d2 o1 o2 v1 v2).
  - intros o r h. by apply snapshot_within.
Qed.

(** ** Shard files *)

Lemma ShardFilePrefix_eq o r : ShardFilePrefix o r = Itoa o +:+ String "_" (Itoa r +:+ "_").
Proof. unfold ShardFilePrefix, ShardPrefix. by rewrite !str_app_assoc. Qed.

(** Shard files.  A file name carries the shard prefix of at most one
    repository, so a cleanup that filters by [ShardFilePrefix] never removes
    another repository's shards. *)
Theorem shard_files_apart file o1 r1 o2 r2
    (H1 : HasPrefix file (ShardFilePrefix o1 r1) = true)
    (H2 : HasPrefix file (ShardFilePrefix o2 r2) = true) :
  o1 = o2 /\ r1 = r2.
Proof.
  apply HasPrefix_spec in H1 as [x ->], H2 as [y E].
  rewrite !ShardFilePrefix_eq, !str_app_assoc in E. simpl in E.
  apply str_first_split in E as [Eo E]; [|by apply Itoa_avoids..].
  rewrite !str_app_assoc in E. simpl in E.
  apply str_first_split in E as [Er _]; [|by apply Itoa_avoids..].
  split; by apply Itoa_inj.
Qed.

(** Without the delimiter the prefix of repository 2 also selects the shards of
    repository 23. *)
Example shard_prefix_delimiter :
  HasPrefix (ShardFilePrefix 1 23) (ShardPrefix 1 2) = true /\
  HasPrefix (ShardFilePrefix 1 23) (ShardFilePrefix 1 2) = false.
Proof. done. Qed.

Lemma shard_files_apart_witness :
  HasPrefix "7_23_refs_00000.zoekt" (ShardFilePrefix 7 23) = true /\ 7 = 7 /\ 23 = 23.
Proof.
  split; [reflexivity|].
  apply (shard_files_apart "7_23_refs_00000.zoekt" 7 23 7 23); reflexivity.
Defined.
