(* ===== verification/RepoIndexStatus.v ===== *)
(** Index status of a repository, src/pkg/repoindexstatus: the repository and branch
    summaries (summary.go, branches.go) and the SCIP and code-graph projections
    (scip.go, codegraph.go), and the theorems on them. *)
From Stdlib Require Import Ascii.
From S2P Require Import Prelude GoStd GoStdFacts GoJSON.
(** ** States and colors *)

(** The five values of [RepoIndexState] the package produces. *)
Inductive RepoIndexState : Type :=
| StateIndexed | StateIndexing | StateFailed | StateNotIndexed | StateRemoving.

Inductive RepoIndexColor : Type := ColorGreen | ColorYellow | ColorRed | ColorGray.

Inductive RepoIndexRunState : Type :=
| RunCompleted | RunFailed | RunIndexing | RunRemoving | RunNone.

#[global] Instance RepoIndexState_eq_dec : EqDecision RepoIndexState.
Proof. solve_decision. Defined.
#[global] Instance RepoIndexRunState_eq_dec : EqDecision RepoIndexRunState.
Proof. solve_decision. Defined.

(** Job types and statuses are strings that are not parsed. *)
Definition JobTypeRemoveIndex : string := "REMOVE_INDEX".
Definition JobStatusPending : string := "PENDING".
Definition JobStatusInProgress : string := "IN_PROGRESS".
Definition JobStatusCompleted : string := "COMPLETED".
Definition JobStatusFailed : string := "FAILED".

(** ** Inputs *)

Record RepoInput : Type := {
  ri_Metadata : string;
  ri_DefaultBranch : option string;
  ri_IndexedAt : option string;
  ri_LatestIndexingJobStatus : option string
}.

Record LatestJob : Type := { lj_ID : string; lj_Type : string; lj_Status : string }.

Record RepoMetadata : Type := {
  md_Branches : list string;
  md_Tags : list string;
  md_IndexedRevisions : list string
}.

Definition zero_metadata : RepoMetadata :=
  {| md_Branches := []; md_Tags := []; md_IndexedRevisions := [] |}.

(** A JSON value for a [[]string] field: [null] clears it, a [null] element keeps
    what an earlier value put there. *)
Fixpoint as_strings (old : list string) (l : list json) : option (list string) :=
  match l with
  | [] => Some []
  | j :: rest =>
      let s := match j with
               | JStr s => Some s
               | JNull => Some (hd "" old)
               | _ => None
               end in
      match s, as_strings (tail old) rest with
      | Some s, Some out => Some (s :: out)
      | _, _ => None
      end
  end.

Definition as_slice (old : list string) (j : json) : option (list string) :=
  match j with
  | JArr l => as_strings old l
  | JNull => Some []
  | _ => None
  end.

Definition set_metadata_field (md : RepoMetadata) (key : string) (j : json)
  : option RepoMetadata :=
  if key_matches "branches" key then
    (fun v => {| md_Branches := v; md_Tags := md_Tags md;
                 md_IndexedRevisions := md_IndexedRevisions md |}) <$> as_slice (md_Branches md) j
  else if key_matches "tags" key then
    (fun v => {| md_Branches := md_Branches md; md_Tags := v;
                 md_IndexedRevisions := md_IndexedRevisions md |}) <$> as_slice (md_Tags md) j
  else if key_matches "indexedRevisions" key then
    (fun v => {| md_Branches := md_Branches md; md_Tags := md_Tags md;
                 md_IndexedRevisions := v |}) <$> as_slice (md_IndexedRevisions md) j
  else Some md.

Fixpoint set_metadata (md : RepoMetadata) (l : list (string * json)) : option RepoMetadata :=
  match l with
  | [] => Some md
  | (k, v) :: rest =>
      match set_metadata_field md k v with
      | Some md' => set_metadata md' rest
      | None => None
      end
  end.

(** Any decode error gives the zero value. *)
Definition ParseMetadata (raw : string) : RepoMetadata :=
  if raw =s "" then zero_metadata
  else
    match json_parse raw with
    | Some (JObj l) => default zero_metadata (set_metadata zero_metadata l)
    | _ => zero_metadata
    end.

(** ** Refs *)

Definition BranchRevision (branch : string) : string :=
  if HasPrefix branch "refs/heads/" then branch else "refs/heads/" +:+ branch.

Definition StripBranchRevision (revision : string) : string := TrimPrefix revision "refs/heads/".

Definition filterNonEmpty (l : list string) : list string :=
  List.filter (fun s => negb (s =s "")) l.

Definition containsString (haystack : list string) (needle : string) : bool :=
  existsb (fun s => s =s needle) haystack.

(** ** Policy *)

Section Policy.
(** [glob.Compile] of github.com/gobwas/glob: [None] is a pattern that does not
    compile, otherwise the matcher. *)
Context (Compile : string -> option (string -> bool)).

Definition matchAnyGlob (name : string) (patterns : list string) : bool :=
  existsb (fun pat => match Compile pat with Some g => g name | None => false end) patterns.

Definition IsBranchAllowedByIndexPolicy (repo : RepoInput) (branch : string) : bool :=
  let md := ParseMetadata (ri_Metadata repo) in
  let branchName := StripBranchRevision branch in
  let patterns := filterNonEmpty (md_Branches md) in
  match patterns with
  | [] =>
      match ri_DefaultBranch repo with
      | None => true
      | Some d => if d =s "" then true else branchName =s d
      end
  | _ => if containsString patterns "*" then true else matchAnyGlob branchName patterns
  end.

Definition IsRevisionAllowedByIndexPolicy (repo : RepoInput) (revision : string) : bool :=
  if HasPrefix revision "refs/heads/" then IsBranchAllowedByIndexPolicy repo revision
  else if HasPrefix revision "refs/tags/" then
    let tagPatterns := filterNonEmpty (md_Tags (ParseMetadata (ri_Metadata repo))) in
    match tagPatterns with
    | [] => false
    | _ => matchAnyGlob (TrimPrefix revision "refs/tags/") tagPatterns
    end
  else true.

Definition GetPolicyVisibleIndexedRevisions (repo : RepoInput) : list string :=
  List.filter (fun rev => negb (rev =s "") && IsRevisionAllowedByIndexPolicy repo rev)
    (md_IndexedRevisions (ParseMetadata (ri_Metadata repo))).

(** ** Run state and visible state *)

Definition getLatestRunState (repo : RepoInput) (latestJob : option LatestJob)
  : RepoIndexRunState :=
  let jobType := match latestJob with Some j => lj_Type j | None => "" end in
  let jobStatus0 := match latestJob with Some j => lj_Status j | None => "" end in
  let jobStatus := if jobStatus0 =s "" then default "" (ri_LatestIndexingJobStatus repo)
                   else jobStatus0 in
  if (jobStatus =s JobStatusPending) || (jobStatus =s JobStatusInProgress) then
    if jobType =s JobTypeRemoveIndex then RunRemoving else RunIndexing
  else if jobStatus =s JobStatusFailed then RunFailed
  else if jobStatus =s JobStatusCompleted then RunCompleted
  else RunNone.

Definition resolveVisibleStatus (active : RepoIndexState) (run : RepoIndexRunState)
  : RepoIndexState :=
  match run with
  | RunIndexing => StateIndexing
  | RunRemoving => StateRemoving
  | RunFailed => if bool_decide (active <> StateIndexed) then StateFailed else active
  | _ => active
  end.

Definition colorForState (s : RepoIndexState) : RepoIndexColor :=
  match s with
  | StateIndexed => ColorGreen
  | StateFailed => ColorRed
  | StateIndexing | StateRemoving => ColorYellow
  | StateNotIndexed => ColorGray
  end.

Definition colorForRunState (s : RepoIndexRunState) : RepoIndexColor :=
  match s with
  | RunCompleted => ColorGreen
  | RunFailed => ColorRed
  | RunIndexing | RunRemoving => ColorYellow
  | RunNone => ColorGray
  end.

(** [LatestRunBlocksActiveIndex] *)
Definition run_blocks (active : RepoIndexState) (run : RepoIndexRunState) : bool :=
  bool_decide (run = RunIndexing) || bool_decide (run = RunRemoving)
  || (bool_decide (run = RunFailed) && bool_decide (active <> StateIndexed)).

(** ** Summaries *)

Record RepoIndexSummary : Type := {
  rs_Status : RepoIndexState;
  rs_Color : RepoIndexColor;
  rs_Indexed : bool;
  rs_IndexedRevisions : list string;
  rs_ActiveIndexStatus : RepoIndexState;
  rs_ActiveIndexStatusColor : RepoIndexColor;
  rs_ActiveIndexUsable : bool;
  rs_LatestRunStatus : RepoIndexRunState;
  rs_LatestRunStatusColor : RepoIndexColor;
  rs_LatestRunBlocksActiveIndex : bool
}.

Definition BuildRepoIndexSummary (repo : RepoInput) (latestJob : option LatestJob)
  : RepoIndexSummary :=
  let indexedRevisions := GetPolicyVisibleIndexedRevisions repo in
  let active := if bool_decide (ri_IndexedAt repo <> None)
                   && (0 <? length indexedRevisions)%nat
                then StateIndexed else StateNotIndexed in
  let run := getLatestRunState repo latestJob in
  let status := resolveVisibleStatus active run in
  {| rs_Status := status; rs_Color := colorForState status;
     rs_Indexed := bool_decide (active = StateIndexed);
     rs_IndexedRevisions := indexedRevisions; rs_ActiveIndexStatus := active;
     rs_ActiveIndexStatusColor := colorForState active;
     rs_ActiveIndexUsable := bool_decide (active = StateIndexed);
     rs_LatestRunStatus := run; rs_LatestRunStatusColor := colorForRunState run;
     rs_LatestRunBlocksActiveIndex := run_blocks active run |}.

Record BranchIndexStatus : Type := {
  bs_Branch : string;
  bs_Revision : string;
  bs_AllowedByPolicy : bool;
  bs_Indexed : bool;
  bs_Status : RepoIndexState;
  bs_Color : RepoIndexColor;
  bs_ActiveIndexStatus : RepoIndexState;
  bs_ActiveIndexStatusColor : RepoIndexColor;
  bs_ActiveIndexUsable : bool;
  bs_LatestRunStatus : RepoIndexRunState;
  bs_LatestRunStatusColor : RepoIndexColor;
  bs_LatestRunBlocksActiveIndex : bool;
  bs_IndexedAt : option string;
  bs_LatestJob : option LatestJob
}.

(** The three optional job fields are set together, from the job. *)
Definition BuildBranchIndexStatus (repo : RepoInput) (branch : string)
    (latestJob : option LatestJob) : BranchIndexStatus :=
  let branchName := StripBranchRevision branch in
  let revision := BranchRevision branchName in
  let indexedRevisions := GetPolicyVisibleIndexedRevisions repo in
  let allowed := IsBranchAllowedByIndexPolicy repo branchName in
  let indexed := allowed && bool_decide (ri_IndexedAt repo <> None)
                 && containsString indexedRevisions revision in
  let active := if indexed then StateIndexed else StateNotIndexed in
  let run := getLatestRunState repo latestJob in
  let status := resolveVisibleStatus active run in
  {| bs_Branch := branchName; bs_Revision := revision; bs_AllowedByPolicy := allowed;
     bs_Indexed := indexed; bs_Status := status; bs_Color := colorForState status;
     bs_ActiveIndexStatus := active; bs_ActiveIndexStatusColor := colorForState active;
     bs_ActiveIndexUsable := bool_decide (active = StateIndexed);
     bs_LatestRunStatus := run; bs_LatestRunStatusColor := colorForRunState run;
     bs_LatestRunBlocksActiveIndex := run_blocks active run;
     bs_IndexedAt := if indexed then ri_IndexedAt repo else None;
     bs_LatestJob := latestJob |}.

(** [[*?\[\]{}()!+@]] *)
Definition globMetaRE (s : string) : bool :=
  ContainsAny s (map chr [42; 63; 91; 93; 123; 125; 40; 41; 33; 43; 64]).

(** The candidates before deduplication. *)
Definition known_branches (repo : RepoInput) : list string :=
  let md := ParseMetadata (ri_Metadata repo) in
  let indexedBranchNames :=
    map StripBranchRevision
      (List.filter (fun rev => HasPrefix rev "refs/heads/") (md_IndexedRevisions md)) in
  let configuredBranchNames :=
    List.filter (fun b => negb ((b =s "*") || globMetaRE b)) (md_Branches md) in
  match ri_DefaultBranch repo with
  | Some d => if d =s "" then [] else [d]
  | None => []
  end ++ configuredBranchNames ++ indexedBranchNames.

Definition BuildKnownBranchIndexStatuses (repo : RepoInput) (latestJob : option LatestJob)
  : list BranchIndexStatus :=
  map (fun b => BuildBranchIndexStatus repo b latestJob) (dedup_first [] (known_branches repo)).
End Policy.


(** The code-intelligence projections of the repository status,
    src/pkg/repoindexstatus/scip.go and codegraph.go.  Instants are integers, in
    milliseconds. *)
(** ** [uniqueSorted] *)

Definition uniqueSorted (l : list string) : list string :=
  SortStrings (dedup_first [] (List.filter (fun s => negb (s =s "")) l)).

(** ** SCIP indexes *)

Record CodeIntelLanguageIndexInput : Type := {
  li_Language : string;
  li_ProjectRoot : string;
  li_Indexer : string;
  li_WorkerClass : option string;
  li_Status : string;
  li_ArtifactPath : option string;
  li_ToolchainFingerprint : option string;
  li_ToolchainVersion : option string;
  li_ToolchainPath : option string;
  li_ToolchainSha256 : option string;
  li_DurationMs : option Z;
  li_ErrorMessage : option string
}.

Record ScipCodeIntelIndexInput : Type := {
  si_ID : string;
  si_Kind : string;
  si_Status : string;
  si_Revision : string;
  si_CommitHash : string;
  si_LanguageCount : Z;
  si_SymbolCount : Z;
  si_OccurrenceCount : Z;
  si_RelationshipCount : Z;
  si_IndexedAt : option Z;
  si_ErrorMessage : option string;
  si_LanguageIndexes : list CodeIntelLanguageIndexInput
}.

Record LanguageIndexRow : Type := {
  lr_Language : string;
  lr_ProjectRoot : string;
  lr_Indexer : string;
  lr_WorkerClass : option string;
  lr_Status : string;
  lr_ToolchainFingerprint : option string;
  lr_ToolchainVersion : option string;
  lr_ToolchainPath : option string;
  lr_ToolchainSha256 : option string;
  lr_DurationMs : option Z;
  lr_ErrorMessage : option string;
  lr_ArtifactPath : option string
}.

Record ScipCodeIntelIndexOutput : Type := {
  so_ID : string;
  so_Kind : string;
  so_Status : string;
  so_Revision : string;
  so_CommitHash : string;
  so_LanguageCount : Z;
  so_ProjectCount : Z;
  so_DetectedLanguages : list string;
  so_ReadyLanguages : list string;
  so_SkippedLanguages : list string;
  so_FailedLanguages : list string;
  so_SymbolCount : Z;
  so_OccurrenceCount : Z;
  so_RelationshipCount : Z;
  so_IndexedAt : option Z;
  so_ErrorMessage : option string;
  so_LanguageIndexes : list LanguageIndexRow
}.

Definition language_row (includeArtifactPaths : bool) (li : CodeIntelLanguageIndexInput)
  : LanguageIndexRow :=
  {| lr_Language := li_Language li; lr_ProjectRoot := li_ProjectRoot li;
     lr_Indexer := li_Indexer li; lr_WorkerClass := li_WorkerClass li; lr_Status := li_Status li;
     lr_ToolchainFingerprint := li_ToolchainFingerprint li;
     lr_ToolchainVersion := li_ToolchainVersion li;
     lr_ToolchainPath := if includeArtifactPaths then li_ToolchainPath li else None;
     lr_ToolchainSha256 := li_ToolchainSha256 li; lr_DurationMs := li_DurationMs li;
     lr_ErrorMessage := li_ErrorMessage li;
     lr_ArtifactPath := if includeArtifactPaths then li_ArtifactPath li else None |}.

(** The comparator of [sort.SliceStable]. *)
Definition row_less (a b : LanguageIndexRow) : bool :=
  if negb (lr_ProjectRoot a =s lr_ProjectRoot b) then
    str_ltb (lr_ProjectRoot a) (lr_ProjectRoot b)
  else if negb (lr_Language a =s lr_Language b) then str_ltb (lr_Language a) (lr_Language b)
  else str_ltb (lr_Indexer a) (lr_Indexer b).

Definition pickLanguages (rows : list LanguageIndexRow) (status : string) : list string :=
  uniqueSorted (map lr_Language (List.filter (fun r => lr_Status r =s status) rows)).

Definition FormatScipCodeIntelIndex (index : option ScipCodeIntelIndexInput)
    (includeArtifactPaths : bool) : option ScipCodeIntelIndexOutput :=
  match index with
  | None => None
  | Some i =>
      let rows := sort_stable row_less
                    (map (language_row includeArtifactPaths) (si_LanguageIndexes i)) in
      Some {| so_ID := si_ID i; so_Kind := si_Kind i; so_Status := si_Status i;
              so_Revision := si_Revision i; so_CommitHash := si_CommitHash i;
              so_LanguageCount := si_LanguageCount i;
              so_ProjectCount := Z.of_nat (length rows);
              so_DetectedLanguages := uniqueSorted (map lr_Language rows);
              so_ReadyLanguages := pickLanguages rows "READY";
              so_SkippedLanguages := pickLanguages rows "SKIPPED";
              so_FailedLanguages := pickLanguages rows "FAILED";
              so_SymbolCount := si_SymbolCount i; so_OccurrenceCount := si_OccurrenceCount i;
              so_RelationshipCount := si_RelationshipCount i; so_IndexedAt := si_IndexedAt i;
              so_ErrorMessage := si_ErrorMessage i; so_LanguageIndexes := rows |}
  end.

(** ** Code-graph indexes *)

Record CodeGraphRevision : Type := {
  gr_Revision : string; gr_CommitHash : string; gr_ActivatedAt : option Z
}.

Record CodeGraphCounts : Type := {
  gc_SemanticFacts : option Z; gc_SemanticEdges : option Z; gc_SemanticHyperedges : option Z
}.

Record CodeGraphIndexInput : Type := {
  gi_ID : string;
  gi_Provider : string;
  gi_Status : string;
  gi_SourceRevision : option string;
  gi_CommitHash : string;
  gi_GraphSpace : option string;
  gi_WorkspaceID : string;
  gi_SchemaVersion : Z;
  gi_BuilderVersion : string;
  gi_VertexCount : Z;
  gi_EdgeCount : Z;
  gi_AnchorCount : Z;
  gi_LinkedEdgeCount : Z;
  gi_SemanticFactCount : option Z;
  gi_SemanticEdgeCount : option Z;
  gi_SemanticHyperedgeCount : option Z;
  gi_SemanticRejectedFactCount : option Z;
  gi_SemanticBatchCount : option Z;
  gi_Counts : option CodeGraphCounts;
  gi_IndexedAt : option Z;
  gi_SupersededAt : option Z;
  gi_DeleteAfter : option Z;
  gi_ErrorMessage : option string;
  gi_Revisions : list CodeGraphRevision
}.

Record CodeGraphIndexOutput : Type := {
  go_ID : string;
  go_Provider : string;
  go_IsActive : bool;
  go_Status : string;
  go_SourceRevision : option string;
  go_CommitHash : string;
  go_GraphSpace : option string;
  go_WorkspaceID : string;
  go_SchemaVersion : Z;
  go_BuilderVersion : string;
  go_VertexCount : Z;
  go_EdgeCount : Z;
  go_AnchorCount : Z;
  go_LinkedEdgeCount : Z;
  go_SemanticFactCount : Z;
  go_SemanticEdgeCount : Z;
  go_SemanticHyperedgeCount : Z;
  go_SemanticRejectedFactCount : Z;
  go_SemanticBatchCount : Z;
  go_ActiveRevisionCount : Z;
  go_ActiveRevisions : list CodeGraphRevision;
  go_IndexedAt : option Z;
  go_SupersededAt : option Z;
  go_DeleteAfter : option Z;
  go_ErrorMessage : option string
}.

Definition pickCount (direct agg : option Z) : Z :=
  match direct, agg with
  | Some n, _ => n
  | None, Some n => n
  | None, None => 0
  end.

Definition FormatCodeGraphIndex (index : option CodeGraphIndexInput)
  : option CodeGraphIndexOutput :=
  match index with
  | None => None
  | Some i =>
      let revisions := sort_stable (fun a b => str_ltb (gr_Revision a) (gr_Revision b))
                         (gi_Revisions i) in
      let agg f := match gi_Counts i with Some c => f c | None => None end in
      Some {| go_ID := gi_ID i; go_Provider := gi_Provider i;
              go_IsActive := (0 <? length revisions)%nat; go_Status := gi_Status i;
              go_SourceRevision := gi_SourceRevision i; go_CommitHash := gi_CommitHash i;
              go_GraphSpace := gi_GraphSpace i; go_WorkspaceID := gi_WorkspaceID i;
              go_SchemaVersion := gi_SchemaVersion i; go_BuilderVersion := gi_BuilderVersion i;
              go_VertexCount := gi_VertexCount i; go_EdgeCount := gi_EdgeCount i;
              go_AnchorCount := gi_AnchorCount i; go_LinkedEdgeCount := gi_LinkedEdgeCount i;
              go_SemanticFactCount := pickCount (gi_SemanticFactCount i) (agg gc_SemanticFacts);
              go_SemanticEdgeCount := pickCount (gi_SemanticEdgeCount i) (agg gc_SemanticEdges);
              go_SemanticHyperedgeCount :=
                pickCount (gi_SemanticHyperedgeCount i) (agg gc_SemanticHyperedges);
              go_SemanticRejectedFactCount := pickCount (gi_SemanticRejectedFactCount i) None;
              go_SemanticBatchCount := pickCount (gi_SemanticBatchCount i) None;
              go_ActiveRevisionCount := Z.of_nat (length revisions);
              go_ActiveRevisions := revisions; go_IndexedAt := gi_IndexedAt i;
              go_SupersededAt := gi_SupersededAt i; go_DeleteAfter := gi_DeleteAfter i;
              go_ErrorMessage := gi_ErrorMessage i |}
  end.

Definition isCurrentGraphSnapshot (i : CodeGraphIndexInput) : bool :=
  (gi_Status i =s "READY") && (0 <? length (gi_Revisions i))%nat.

Definition statusRank (status : string) : Z :=
  if status =s "READY" then 0
  else if status =s "PARTIAL" then 1
  else if (status =s "BUILDING") || (status =s "PENDING") then 2
  else if status =s "FAILED" then 3
  else if status =s "SKIPPED" then 4
  else if status =s "DELETING" then 5
  else 99.

Definition boolToInt (b : bool) : Z := if b then 1 else 0.

Definition dateMs (d : option Z) : Z := default 0 d.

(** Negative when [a] sorts before [b]. *)
Definition compareCodeGraphIndexForCurrent (a b : CodeGraphIndexInput) : Z :=
  let v1 := boolToInt (isCurrentGraphSnapshot b) - boolToInt (isCurrentGraphSnapshot a) in
  if negb (v1 =? 0) then v1
  else
    let v2 := statusRank (gi_Status a) - statusRank (gi_Status b) in
    if negb (v2 =? 0) then v2
    else
      let v3 := boolToInt (bool_decide (gi_SupersededAt b = None))
                - boolToInt (bool_decide (gi_SupersededAt a = None)) in
      if negb (v3 =? 0) then v3
      else
        let bms := dateMs (gi_IndexedAt b) in
        let ams := dateMs (gi_IndexedAt a) in
        if negb (bms =? ams) then (if ams <? bms then 1 else -1) else 0.

Definition SortCodeGraphIndexesForStatus (l : list CodeGraphIndexInput)
  : list CodeGraphIndexInput :=
  sort_stable (fun a b => compareCodeGraphIndexForCurrent a b <? 0) l.

Definition SelectCurrentCodeGraphIndex (l : list CodeGraphIndexInput)
  : option CodeGraphIndexInput :=
  match l with
  | [] => None
  | _ => head (SortCodeGraphIndexesForStatus l)
  end.

(** ** The comparators are strict weak orders *)

(** Lexicographic orders: a strict weak order refined by another one. *)
Lemma str_lex_asym (s t : string) (p q : bool) :
  (p = true -> q = false) ->
  (if negb (s =s t) then str_ltb s t else p) = true ->
  (if negb (t =s s) then str_ltb t s else q) = false.
Proof.
  destruct (s =s t) eqn:E, (t =s s) eqn:E'; breflect; subst; simpl; try done; eauto with go.
Qed.

Lemma str_lex_negtrans (s t u : string) (p q r : bool) :
  (p = false -> q = false -> r = false) ->
  (if negb (t =s s) then str_ltb t s else p) = false ->
  (if negb (u =s t) then str_ltb u t else q) = false ->
  (if negb (u =s s) then str_ltb u s else r) = false.
Proof.
  intros Hr. destruct (t =s s) eqn:E, (u =s t) eqn:E', (u =s s) eqn:E'';
    breflect; subst; simpl; intros H1 H2; try done; eauto with go.
  exfalso. apply E. by apply str_ltb_total.
Qed.

Lemma row_less_asym a b : row_less a b = true -> row_less b a = false.
Proof. unfold row_less. repeat apply str_lex_asym. apply str_ltb_asym. Qed.

Lemma row_less_negtrans a b c :
  row_less b a = false -> row_less c b = false -> row_less c a = false.
Proof. unfold row_less. repeat apply str_lex_negtrans. apply str_ltb_negtrans. Qed.

(** The comparator compares the rank vectors lexicographically. *)
Definition graph_rank (i : CodeGraphIndexInput) : Z * Z * Z * Z :=
  (- boolToInt (isCurrentGraphSnapshot i), statusRank (gi_Status i),
   - boolToInt (bool_decide (gi_SupersededAt i = None)), - dateMs (gi_IndexedAt i)).

Definition rank_lt (x y : Z * Z * Z * Z) : Prop :=
  let '(a, b, c, d) := x in let '(a', b', c', d') := y in
  a < a' \/ a = a' /\ (b < b' \/ b = b' /\ (c < c' \/ c = c' /\ d < d')).

Lemma compare_rank a b :
  compareCodeGraphIndexForCurrent a b < 0 <-> rank_lt (graph_rank a) (graph_rank b).
Proof.
  unfold compareCodeGraphIndexForCurrent, rank_lt, graph_rank.
  generalize (boolToInt (isCurrentGraphSnapshot a)), (boolToInt (isCurrentGraphSnapshot b)),
    (statusRank (gi_Status a)), (statusRank (gi_Status b)),
    (boolToInt (bool_decide (gi_SupersededAt a = None))),
    (boolToInt (bool_decide (gi_SupersededAt b = None))),
    (dateMs (gi_IndexedAt a)), (dateMs (gi_IndexedAt b)).
  intros. cbv zeta. repeat case_match; breflect; lia.
Qed.

Lemma rank_lt_negtrans x y z : ~ rank_lt y x -> ~ rank_lt z y -> ~ rank_lt z x.
Proof.
  destruct x as [[[??]?]?], y as [[[??]?]?], z as [[[??]?]?]. unfold rank_lt. lia.
Qed.

Lemma rank_lt_asym x y : rank_lt x y -> ~ rank_lt y x.
Proof. destruct x as [[[??]?]?], y as [[[??]?]?]. unfold rank_lt. lia. Qed.

Lemma compare_ge a b :
  (compareCodeGraphIndexForCurrent a b <? 0) = false <-> ~ rank_lt (graph_rank a) (graph_rank b).
Proof. rewrite Z.ltb_ge, <- compare_rank. lia. Qed.

Lemma compare_negtrans a b c :
  (compareCodeGraphIndexForCurrent b a <? 0) = false ->
  (compareCodeGraphIndexForCurrent c b <? 0) = false ->
  (compareCodeGraphIndexForCurrent c a <? 0) = false.
Proof. rewrite !compare_ge. apply rank_lt_negtrans. Qed.

Lemma compare_asym a b :
  (compareCodeGraphIndexForCurrent a b <? 0) = true ->
  (compareCodeGraphIndexForCurrent b a <? 0) = false.
Proof. rewrite compare_ge, Z.ltb_lt, compare_rank. apply rank_lt_asym. Qed.

(** ** The head of a stable sort *)

Section StableHead.
Context {A : Type} (less : A -> A -> bool).
Context (Hnt : forall x y z, less y x = false -> less z y = false -> less z x = false)
        (Hasym : forall x y, less x y = true -> less y x = false).

(** A stable sort puts first the first of the least elements. *)
Lemma sort_stable_head l :
  l <> [] ->
  exists pre x post, l = pre ++ x :: post /\ head (sort_stable less l) = Some x /\
    (forall y, y ∈ pre -> less x y = true) /\ (forall y, y ∈ post -> less y x = false).
Proof.
  induction l as [|a l IH]; [done|]. intros _. simpl.
  destruct (decide (l = [])) as [->|Hl].
  { exists [], a, []. simpl. set_solver. }
  destruct (IH Hl) as (pre & x & post & -> & Hh & Hpre & Hpost).
  destruct (sort_stable less (pre ++ x :: post)) as [|y l'] eqn:Es; [done|].
  simpl in Hh. simplify_eq. simpl. destruct (less x a) eqn:E.
  - exists (a :: pre), x, post. simpl. split_and!; try done.
    intros y [->|Hy]%elem_of_cons; auto.
  - exists [], a, (pre ++ x :: post). simpl. split_and!; try done; [set_solver|].
    intros y Hy. apply elem_of_app in Hy as [Hy|[->|Hy]%elem_of_cons]; eauto.
Qed.
End StableHead.


(** What the repository status promises its readers: the badge of a repository
    and of its branches (RepoIndexStatus), the current code-graph index and the
    SCIP projection. *)
(** ** Helper lemmas *)

Lemma containsString_spec l s : containsString l s = true <-> s ∈ l.
Proof.
  unfold containsString. rewrite existsb_exists.
  setoid_rewrite str_eqb_spec. setoid_rewrite <- list_elem_of_In. naive_solver.
Qed.

Lemma StronglySorted_mono {A} (R S : A -> A -> Prop) l :
  (forall a b, R a b -> S a b) -> StronglySorted R l -> StronglySorted S l.
Proof.
  intros HRS. induction 1 as [|a l Hs IH Ha]; constructor; [done|].
  eapply Forall_impl; eauto.
Qed.

Lemma StripBranchRevision_app b :
  StripBranchRevision ("refs/heads/" +:+ b) = b.
Proof. unfold StripBranchRevision. apply TrimPrefix_app. Qed.

Section Summaries.
Context (Compile : string -> option (string -> bool)).

(** Field access without unfolding the string literals of the statements. *)
Ltac fields :=
  cbn [bs_Branch bs_Revision bs_AllowedByPolicy bs_Indexed bs_IndexedAt
       rs_Indexed rs_IndexedRevisions rs_Status] in *.

Lemma visible_spec repo rev :
  rev ∈ GetPolicyVisibleIndexedRevisions Compile repo <->
  rev ∈ md_IndexedRevisions (ParseMetadata (ri_Metadata repo)) /\ rev <> "" /\
  IsRevisionAllowedByIndexPolicy Compile repo rev = true.
Proof.
  unfold GetPolicyVisibleIndexedRevisions. rewrite elem_of_List_filter.
  rewrite andb_true_iff, negb_true_iff, str_eqb_false. tauto.
Qed.

Lemma visible_nonempty repo :
  (0 <? length (GetPolicyVisibleIndexedRevisions Compile repo))%nat = true <->
  exists rev, rev ∈ GetPolicyVisibleIndexedRevisions Compile repo.
Proof.
  destruct (GetPolicyVisibleIndexedRevisions Compile repo) as [|r l]; simpl.
  - split; [done|]. intros [? ?%not_elem_of_nil]. done.
  - split; [|done]. intros _. exists r. left.
Qed.

Lemma blocks_status active run :
  active = StateIndexed \/ active = StateNotIndexed ->
  run_blocks active run = true <->
  (resolveVisibleStatus active run = StateIndexing \/
   resolveVisibleStatus active run = StateRemoving \/
   resolveVisibleStatus active run = StateFailed).
Proof. intros [-> | ->]; destruct run; naive_solver. Qed.

(** The badge of a repository.  The index counts as indexed and usable
    exactly when the repository was indexed and some recorded revision is still
    allowed by the index policy; the latest run blocks it exactly when the badge
    is not the state of the index itself ("indexing", "removing" or "failed");
    and a failed run never takes the badge, the colour or the usability from an
    index that is there. *)
Theorem repo_summary_contract repo latestJob :
  let s := BuildRepoIndexSummary Compile repo latestJob in
  (rs_Indexed s = true <->
     ri_IndexedAt repo <> None /\
     exists rev, rev ∈ md_IndexedRevisions (ParseMetadata (ri_Metadata repo)) /\ rev <> "" /\
       IsRevisionAllowedByIndexPolicy Compile repo rev = true) /\
  (rs_LatestRunBlocksActiveIndex s = true <->
     rs_Status s = StateIndexing \/ rs_Status s = StateRemoving \/ rs_Status s = StateFailed) /\
  (rs_LatestRunBlocksActiveIndex s = false -> rs_Status s = rs_ActiveIndexStatus s) /\
  (rs_LatestRunStatus s = RunFailed -> rs_Indexed s = true ->
     rs_Status s = StateIndexed /\ rs_Color s = ColorGreen /\ rs_ActiveIndexUsable s = true /\
     rs_LatestRunStatusColor s = ColorRed).
Proof.
  intros s.
  set (b := bool_decide (ri_IndexedAt repo <> None)
            && (0 <? length (GetPolicyVisibleIndexedRevisions Compile repo))%nat).
  assert (Hb : b = true <-> ri_IndexedAt repo <> None /\
      exists rev, rev ∈ GetPolicyVisibleIndexedRevisions Compile repo).
  { unfold b. by rewrite andb_true_iff, bool_decide_eq_true, visible_nonempty. }
  setoid_rewrite visible_spec in Hb. rewrite <- Hb. clear Hb. unfold s. simpl. fold b.
  destruct b; (split_and!; [done|by apply blocks_status; auto| |]);
    destruct (getLatestRunState repo latestJob); try done.
Qed.

(** [BuildBranchIndexStatus] on a plain branch name. *)
Lemma branch_indexed_spec repo b latestJob :
  HasPrefix b "refs/heads/" = false ->
  bs_Indexed (BuildBranchIndexStatus Compile repo b latestJob) = true <->
  ri_IndexedAt repo <> None /\
  "refs/heads/" +:+ b ∈ GetPolicyVisibleIndexedRevisions Compile repo.
Proof.
  intros Hb. unfold BuildBranchIndexStatus. fields.
  assert (Hs : StripBranchRevision b = b).
  { unfold StripBranchRevision, TrimPrefix. by rewrite Hb. }
  unfold BranchRevision. rewrite Hs, Hb.
  rewrite !andb_true_iff, bool_decide_eq_true, containsString_spec.
  split; [tauto|]. intros [H1 H2]. split; [|done]. split; [|done].
  apply visible_spec in H2 as (_ & _ & H2).
  unfold IsRevisionAllowedByIndexPolicy in H2. rewrite HasPrefix_app in H2.
  revert H2. unfold IsBranchAllowedByIndexPolicy. by rewrite StripBranchRevision_app, Hs.
Qed.

Lemma known_branch_in repo b :
  "refs/heads/" +:+ b ∈ md_IndexedRevisions (ParseMetadata (ri_Metadata repo)) ->
  b ∈ known_branches repo.
Proof.
  intros H. unfold known_branches. rewrite !elem_of_app. right. right.
  rewrite <- (StripBranchRevision_app b). apply list_elem_of_fmap_2.
  apply elem_of_List_filter. split; [done|]. apply HasPrefix_app.
Qed.

Lemma known_status_in repo latestJob st :
  st ∈ BuildKnownBranchIndexStatuses Compile repo latestJob <->
  exists b, b ∈ known_branches repo /\ st = BuildBranchIndexStatus Compile repo b latestJob.
Proof.
  unfold BuildKnownBranchIndexStatuses. rewrite list_elem_of_fmap.
  setoid_rewrite elem_of_dedup_first. set_solver.
Qed.

(** The branch list and the repository agree.  For a branch name that does
    not itself start with "refs/heads/", the repository was indexed and shows the
    branch among its visible revisions exactly when the known-branch list has an
    entry of that branch that is indexed; such an entry carries the time of the
    index and the repository counts as indexed. *)
Theorem branch_list_agrees repo latestJob b
    (Hb : HasPrefix b "refs/heads/" = false) :
  let s := BuildRepoIndexSummary Compile repo latestJob in
  (rs_Indexed s = true /\ "refs/heads/" +:+ b ∈ rs_IndexedRevisions s) <->
  (exists st, st ∈ BuildKnownBranchIndexStatuses Compile repo latestJob /\
     bs_Branch st = b /\ bs_Indexed st = true /\ bs_AllowedByPolicy st = true /\
     bs_Revision st = "refs/heads/" +:+ b /\
     bs_IndexedAt st = ri_IndexedAt repo /\ bs_IndexedAt st <> None).
Proof.
  unfold BuildRepoIndexSummary. cbv zeta. fields. rewrite bool_decide_eq_true. split.
  - intros [Hi Hv].
    assert (Hat : ri_IndexedAt repo <> None).
    { destruct (bool_decide (ri_IndexedAt repo <> None)) eqn:E; [by breflect|done]. }
    exists (BuildBranchIndexStatus Compile repo b latestJob). split.
    { apply known_status_in. exists b. split; [|done].
      apply known_branch_in. by apply visible_spec in Hv as [? _]. }
    assert (Hx : bs_Indexed (BuildBranchIndexStatus Compile repo b latestJob) = true)
      by by apply branch_indexed_spec.
    assert (Hs : StripBranchRevision b = b).
    { unfold StripBranchRevision, TrimPrefix. by rewrite Hb. }
    unfold BuildBranchIndexStatus in *. cbv zeta in *. pose proof Hx as Hx'. fields. rewrite Hx'.
    apply andb_true_iff in Hx' as [[Ha _]%andb_true_iff _].
    rewrite Hs in *. unfold BranchRevision. rewrite Hb. by split_and!.
  - intros (st & (c & Hc & ->)%known_status_in & Hbr & Hi & _ & Hr & _).
    unfold BuildBranchIndexStatus in *. fields. rewrite Hr in Hi.
    apply andb_true_iff in Hi as [[_ Hat]%andb_true_iff Hv].
    apply containsString_spec in Hv. split; [|done].
    rewrite Hat, andb_true_l.
    destruct (0 <? length (GetPolicyVisibleIndexedRevisions Compile repo))%nat eqn:E; [done|].
    exfalso. assert (Hne : exists r, r ∈ GetPolicyVisibleIndexedRevisions Compile repo) by eauto.
    apply visible_nonempty in Hne. congruence.
Qed.
End Summaries.

(** ** The current code-graph index *)

Lemma SortCodeGraph_sorted l :
  StronglySorted (fun a b => 0 <= compareCodeGraphIndexForCurrent b a)
    (SortCodeGraphIndexesForStatus l).
Proof.
  pose proof (sort_stable_sorted (fun a b => compareCodeGraphIndexForCurrent a b <? 0)
                compare_negtrans compare_asym l) as H.
  eapply StronglySorted_mono; [|exact H]. intros a b Hab. by apply Z.ltb_ge in Hab.
Qed.

Lemma current_not_after i j :
  0 <= compareCodeGraphIndexForCurrent j i -> isCurrentGraphSnapshot j = true ->
  isCurrentGraphSnapshot i = true.
Proof.
  unfold compareCodeGraphIndexForCurrent. cbv zeta. intros H Hj. rewrite Hj in H.
  destruct (isCurrentGraphSnapshot i); [done|]. simpl in H. lia.
Qed.

(** The current code-graph index.  On a non-empty list the selection returns
    the first of the entries no other entry comes before: everything earlier in
    the list compares after it, nothing later compares before it, and it is a
    READY snapshot with revisions as soon as the list has one.  The full ordering
    is a sorted rearrangement of the list that keeps the order of equal entries. *)
Theorem current_graph_index_best l (Hl : l <> []) :
  (exists pre i post, l = pre ++ i :: post /\ SelectCurrentCodeGraphIndex l = Some i /\
     (forall j, j ∈ pre -> compareCodeGraphIndexForCurrent i j < 0) /\
     (forall j, j ∈ post -> 0 <= compareCodeGraphIndexForCurrent j i) /\
     ((exists j, j ∈ l /\ isCurrentGraphSnapshot j = true) -> isCurrentGraphSnapshot i = true)) /\
  SortCodeGraphIndexesForStatus l ≡ₚ l /\
  StronglySorted (fun a b => 0 <= compareCodeGraphIndexForCurrent b a)
    (SortCodeGraphIndexesForStatus l) /\
  (forall i, let same j := bool_decide (graph_rank j = graph_rank i) in
     List.filter same (SortCodeGraphIndexesForStatus l) = List.filter same l).
Proof.
  split; [|split_and!].
  - destruct (sort_stable_head _ compare_negtrans compare_asym l Hl)
      as (pre & i & post & El & Hh & Hpre & Hpost).
    exists pre, i, post. split; [done|]. split; [by destruct l|].
    assert (Hp : forall j, j ∈ pre -> compareCodeGraphIndexForCurrent i j < 0)
      by (intros j Hj; by apply Z.ltb_lt, Hpre).
    assert (Hq : forall j, j ∈ post -> 0 <= compareCodeGraphIndexForCurrent j i)
      by (intros j Hj; by apply Z.ltb_ge, Hpost).
    split_and!; [done|done|].
    intros (j & Hj & Hc). subst l.
    apply elem_of_app in Hj as [Hj|[->|Hj]%elem_of_cons]; [|done|].
    + eapply current_not_after; [|done]. apply Z.ltb_ge, compare_asym, Z.ltb_lt. eauto.
    + eapply current_not_after; eauto.
  - apply sort_stable_perm.
  - apply SortCodeGraph_sorted.
  - intros i same. apply sort_stable_filter. unfold same. intros x y Hx Hy. breflect.
    apply Z.nlt_ge. rewrite compare_rank, Hx, Hy. intros H. by eapply rank_lt_asym.
Qed.

(** ** The SCIP projection *)

Lemma uniqueSorted_spec l s : s ∈ uniqueSorted l <-> s ∈ l /\ s <> "".
Proof.
  unfold uniqueSorted, SortStrings.
  rewrite elem_of_sort_stable, elem_of_dedup_first, elem_of_List_filter, negb_true_iff, str_eqb_false.
  set_solver.
Qed.

Lemma uniqueSorted_sorted l : StronglySorted str_le (uniqueSorted l) /\ NoDup (uniqueSorted l).
Proof.
  split; [apply SortStrings_sorted|].
  unfold uniqueSorted, SortStrings. rewrite sort_stable_perm. apply NoDup_dedup_first.
Qed.

(** A sorted, duplicate-free list is determined by its elements. *)
Lemma uniqueSorted_ext l1 l2 : (forall s, s ∈ l1 <-> s ∈ l2) -> uniqueSorted l1 = uniqueSorted l2.
Proof.
  intros H. apply SortStrings_perm. apply NoDup_Permutation; try apply NoDup_dedup_first.
  intros s. rewrite !elem_of_dedup_first, !elem_of_List_filter, H. done.
Qed.

(** The SCIP projection.  The rows are the stored language indexes, sorted by
    project root, language and indexer; each language bucket is the sorted,
    duplicate-free list of the non-empty languages that have a row with that
    status, so the buckets do not depend on the order the rows were read in; and
    unless paths are asked for no row carries a filesystem path. *)
Theorem scip_projection index includePaths :
  exists o, FormatScipCodeIntelIndex (Some index) includePaths = Some o /\
  so_LanguageIndexes o ≡ₚ map (language_row includePaths) (si_LanguageIndexes index) /\
  StronglySorted (fun a b => row_less b a = false) (so_LanguageIndexes o) /\
  so_ProjectCount o = Z.of_nat (length (si_LanguageIndexes index)) /\
  (forall status out, (status, out) ∈ [("READY", so_ReadyLanguages o);
       ("SKIPPED", so_SkippedLanguages o); ("FAILED", so_FailedLanguages o)] ->
     StronglySorted str_le out /\ NoDup out /\
     forall lang, lang ∈ out <-> lang <> "" /\
       exists li, li ∈ si_LanguageIndexes index /\ li_Language li = lang /\ li_Status li = status) /\
  (forall status index' o', si_LanguageIndexes index ≡ₚ si_LanguageIndexes index' ->
     FormatScipCodeIntelIndex (Some index') includePaths = Some o' ->
     pickLanguages (so_LanguageIndexes o) status = pickLanguages (so_LanguageIndexes o') status /\
     so_DetectedLanguages o = so_DetectedLanguages o') /\
  (includePaths = false -> Forall (fun r => lr_ToolchainPath r = None /\ lr_ArtifactPath r = None)
                             (so_LanguageIndexes o)).
Proof.
  eexists. split; [reflexivity|]. cbn [so_LanguageIndexes so_ProjectCount so_ReadyLanguages
    so_SkippedLanguages so_FailedLanguages so_DetectedLanguages].
  set (rows := sort_stable row_less (map (language_row includePaths) (si_LanguageIndexes index))).
  assert (Hperm : rows ≡ₚ map (language_row includePaths) (si_LanguageIndexes index))
    by apply sort_stable_perm.
  assert (Hpick : forall status lang, lang ∈ pickLanguages rows status <-> lang <> "" /\
     exists li, li ∈ si_LanguageIndexes index /\ li_Language li = lang /\ li_Status li = status).
  { intros status lang. unfold pickLanguages. rewrite uniqueSorted_spec, list_elem_of_fmap.
    setoid_rewrite elem_of_List_filter. setoid_rewrite Hperm. setoid_rewrite list_elem_of_fmap.
    setoid_rewrite str_eqb_spec. split.
    - intros [(r & -> & (li & -> & Hli) & Hs) Hne]. eauto.
    - intros [Hne (li & Hli & <- & <-)]. split; [|done].
      exists (language_row includePaths li). simpl. eauto 6. }
  split_and!.
  - done.
  - apply sort_stable_sorted; [apply row_less_negtrans|apply row_less_asym].
  - by rewrite Hperm, length_map.
  - intros status out Hin. set_unfold in Hin.
    destruct Hin as [Hin|[Hin|[Hin|[]]]]; simplify_eq;
      (split_and!; [apply uniqueSorted_sorted|apply uniqueSorted_sorted|apply Hpick]).
  - intros status index' o' Hp [= <-]. simpl.
    assert (Hrows : forall r, r ∈ rows <->
        r ∈ sort_stable row_less (map (language_row includePaths) (si_LanguageIndexes index'))).
    { intros r. unfold rows. by rewrite !elem_of_sort_stable, Hp. }
    split; apply uniqueSorted_ext; intros s; rewrite !list_elem_of_fmap;
      [setoid_rewrite elem_of_List_filter|]; by setoid_rewrite Hrows.
  - intros ->. rewrite Hperm. apply Forall_forall.
    intros r (li & -> & _)%list_elem_of_fmap. done.
Qed.
