(* ===== verification/GraphSchema.v ===== *)
(** The graph schema, src/pkg/graphschema: the statements of the graph database's
    query language that create the schema (nebula_ngql.go, describe_alter.go), insert
    a snapshot (insert.go, value.go), find and delete one (lookup.go), and the
    bootstrap of the graph space (bootstrap.go).  The database is the parameter
    [Graphd]: its answers, the clock and the cancellation of the context. *)
From Stdlib Require Import Ascii.
From S2P Require Import Prelude GoStd GoStdFacts GoJSON GoText Sha256.
(** ** Data (types.go) *)

(** A float64, a finite one by the shortest decimal that reads back as it:
    0.[digits] times 10 to [dp], no zero digit at either end. *)
Inductive float64 : Type :=
| FNaN
| FInf (negative : bool)
| FFinite (negative : bool) (digits : string) (dp : Z).

(** The dynamic types the renderer tells apart; [PInt] is int, int32 or int64,
    [PFloat] float32 or float64, [POther] any other. *)
Inductive CodeGraphPrimitive : Type :=
| PNil
| PBool (b : bool)
| PString (s : string)
| PInt (z : Z)
| PFloat (f : float64)
| POther.

Record CodeGraphVertex : Type := {
  vx_VID : string; vx_Kind : string; vx_Properties : gmap string CodeGraphPrimitive
}.

Record CodeGraphEdge : Type := {
  ed_FromVID : string; ed_ToVID : string; ed_Kind : string; ed_Rank : Z;
  ed_Properties : gmap string CodeGraphPrimitive
}.

Record CodeGraphSnapshotAnchor : Type := {
  an_Kind : string; an_Direction : string; an_Key : string; an_NodeVID : string;
  an_EvidenceFilePath : option string; an_StartLine : option Z; an_EndLine : option Z;
  an_Confidence : float64; an_ConfidenceTier : string; an_Source : string
}.

Record CodeGraphSnapshot : Type := {
  sn_OrgID : Z; sn_WorkspaceID : string; sn_RepoID : Z; sn_Revision : string;
  sn_CommitHash : string; sn_SchemaVersion : Z; sn_BuilderVersion : string;
  sn_Vertices : list CodeGraphVertex; sn_Edges : list CodeGraphEdge;
  sn_Anchors : list CodeGraphSnapshotAnchor
}.

Inductive CodeGraphWriteStatus : Type := WriteStatusReady | WriteStatusSkipped | WriteStatusFailed.

Record CodeGraphWriteResult : Type := {
  wr_Status : CodeGraphWriteStatus; wr_VertexCount : Z; wr_EdgeCount : Z;
  wr_AnchorCount : Z; wr_LinkedEdgeCount : Z; wr_ErrorMessage : string
}.

Record CodeGraphDeleteInput : Type := {
  di_OrgID : Z; di_WorkspaceID : string; di_RepoID : Z; di_CommitHash : string;
  di_SchemaVersion : Z; di_BuilderVersion : string
}.

(** The value of a property, nil when it is absent. *)
Definition prop_of (m : gmap string CodeGraphPrimitive) (k : string) : CodeGraphPrimitive :=
  default PNil (m !! k).

(** ** Literals (value.go) *)

Fixpoint zeros (n : nat) : string :=
  match n with O => "" | S n' => String "0" (zeros n') end.

(** [fmtE] with all the digits. *)
Definition fmtE (digits : string) (dp : Z) : string :=
  let mantissa :=
    match digits with
    | EmptyString => "0"
    | String c EmptyString => String c ""
    | String c rest => String c ("." +:+ rest)
    end in
  let exp := if digits =s "" then 0 else dp - 1 in
  let e := Z.abs exp in
  mantissa +:+ "e" +:+ (if exp <? 0 then "-" else "+") +:+ (if e <? 10 then "0" else "") +:+ Itoa e.

(** [fmtF] with all the digits. *)
Definition fmtF (digits : string) (dp : Z) : string :=
  let nd := String.length digits in
  if 0 <? dp then
    let k := Z.to_nat dp in
    str_take k digits +:+ zeros (k - nd)
    +:+ (if (k <? nd)%nat then "." +:+ str_drop k digits else "")
  else if digits =s "" then "0"
  else "0." +:+ zeros (Z.to_nat (- dp)) +:+ digits.

(** [strconv.FormatFloat(v, 'g', -1, 64)] of a finite value. *)
Definition FormatFloat_g (negative : bool) (digits : string) (dp : Z) : string :=
  let exp := dp - 1 in
  (if negative then "-" else "")
  +:+ (if (exp <? -4) || (6 <=? exp) then fmtE digits dp else fmtF digits dp).

Definition formatFloat (f : float64) : string :=
  match f with
  | FNaN | FInf _ => "NULL"
  | FFinite n ds dp => FormatFloat_g n ds dp
  end.

Definition jsonStringify (s : string) : string := json_quote false s.

Definition ngqlValue (v : CodeGraphPrimitive) : string :=
  match v with
  | PNil => "NULL"
  | PBool b => if b then "true" else "false"
  | PString s => jsonStringify s
  | PInt z => Itoa z
  | PFloat f => formatFloat f
  | POther => "NULL"
  end.

(** The first four bytes of the hash, most significant first. *)
Definition EdgeRank (input : string) : Z :=
  nth 0 (sha256_words (map code (String.list_ascii_of_string input))) 0.

(** The loop of [chunkArray]: one round per chunk; [fuel] bounds the rounds. *)
Fixpoint chunks {A} (fuel : nat) (size : nat) (values : list A) : list (list A) :=
  match fuel, values with
  | S n, _ :: _ => firstn size values :: chunks n size (skipn size values)
  | _, _ => []
  end.

Definition chunkArray {A} (values : list A) (chunkSize : Z) : list (list A) :=
  if chunkSize <=? 0 then match values with [] => [] | _ => [values] end
  else chunks (length values) (Z.to_nat chunkSize) values.

(** ** Schema statements (nebula_ngql.go) *)

Definition NodeTag : string := "code_graph_node".
Definition EdgeType : string := "code_graph_edge".
Definition nodeScopeIndex : string := "code_graph_node_scope_idx".
Definition nodeLabelIndex : string := "code_graph_node_label_idx".
Definition nodeKeyIndex : string := "code_graph_node_key_idx".
Definition nodePathIndex : string := "code_graph_node_path_idx".
Definition nodeRouteIndex : string := "code_graph_node_route_path_idx".

Definition NodeProps : list string :=
  ["kind"; "orgId"; "workspaceId"; "repoId"; "revision"; "commitHash"; "schemaVersion";
   "builderVersion"; "key"; "label"; "path"; "language"; "routeMethod"; "routePath";
   "packageManager"; "confidence"; "confidenceTier"; "evidenceFilePath"; "startLine"; "endLine";
   "source"; "provenance"].

Definition EdgeProps : list string :=
  ["kind"; "orgId"; "workspaceId"; "repoId"; "revision"; "commitHash"; "schemaVersion";
   "builderVersion"; "confidence"; "confidenceTier"; "evidenceFilePath"; "startLine"; "endLine";
   "normalizedKey"; "source"; "provenance"; "context"].

Definition backtick : ascii := chr 96.

Definition quoteIdentifier (value : string) : string :=
  if bool_decide (backtick ∈ String.list_ascii_of_string value)
  then String backtick (DoubleByte backtick value +:+ String backtick "")
  else String backtick (value +:+ String backtick "").

Definition propType (prop : string) : string :=
  if bool_decide (prop ∈ ["orgId"; "repoId"; "schemaVersion"; "startLine"; "endLine"]) then "int"
  else if prop =s "confidence" then "double"
  else "string".

Definition renderPropDefs (props : list string) : string :=
  Join (map (fun prop => quoteIdentifier prop +:+ " " +:+ propType prop) props) ", ".

(** One CREATE TAG INDEX over the organisation, the workspace and one property. *)
Definition label_index (name prop : string) : string :=
  "CREATE TAG INDEX IF NOT EXISTS " +:+ quoteIdentifier name +:+ " ON " +:+ quoteIdentifier NodeTag
  +:+ "(" +:+ Join [quoteIdentifier "orgId"; quoteIdentifier "workspaceId" +:+ "(128)";
                    quoteIdentifier prop +:+ "(128)"] ", " +:+ ");".

Definition RenderSchemaStatements : list string :=
  ["CREATE TAG IF NOT EXISTS " +:+ quoteIdentifier NodeTag +:+ "(" +:+ renderPropDefs NodeProps
     +:+ ");";
   "CREATE EDGE IF NOT EXISTS " +:+ quoteIdentifier EdgeType +:+ "(" +:+ renderPropDefs EdgeProps
     +:+ ");";
   "CREATE TAG INDEX IF NOT EXISTS " +:+ quoteIdentifier nodeScopeIndex +:+ " ON "
     +:+ quoteIdentifier NodeTag +:+ "("
     +:+ Join [quoteIdentifier "orgId"; quoteIdentifier "workspaceId" +:+ "(128)";
               quoteIdentifier "repoId"; quoteIdentifier "commitHash" +:+ "(40)";
               quoteIdentifier "schemaVersion"; quoteIdentifier "builderVersion" +:+ "(128)"] ", "
     +:+ ");";
   label_index nodeLabelIndex "label"; label_index nodeKeyIndex "key";
   label_index nodePathIndex "path"; label_index nodeRouteIndex "routePath"].

(** ** Insert statements (insert.go) *)

Definition snapshotBatchSize : Z := 250.

Definition tuple_text (props : list string) (m : gmap string CodeGraphPrimitive) : string :=
  "(" +:+ Join (map (fun p => ngqlValue (prop_of m p)) props) ", " +:+ ")".

Definition vertex_row_text (v : CodeGraphVertex) : string :=
  ngqlValue (PString (vx_VID v)) +:+ ": " +:+ tuple_text NodeProps (vx_Properties v).

Definition edge_row_text (e : CodeGraphEdge) : string :=
  ngqlValue (PString (ed_FromVID e)) +:+ "->" +:+ ngqlValue (PString (ed_ToVID e)) +:+ "@"
  +:+ Itoa (ed_Rank e) +:+ ": " +:+ tuple_text EdgeProps (ed_Properties e).

Definition RenderVertexInsert (vertices : list CodeGraphVertex) : string :=
  "INSERT VERTEX " +:+ quoteIdentifier NodeTag +:+ "(" +:+ Join (map quoteIdentifier NodeProps) ", "
  +:+ ") VALUES " +:+ Join (map vertex_row_text vertices) ", " +:+ ";".

Definition RenderEdgeInsert (edges : list CodeGraphEdge) : string :=
  "INSERT EDGE " +:+ quoteIdentifier EdgeType +:+ "(" +:+ Join (map quoteIdentifier EdgeProps) ", "
  +:+ ") VALUES " +:+ Join (map edge_row_text edges) ", " +:+ ";".

Definition RenderSnapshotStatementsWithBatchSize (snapshot : CodeGraphSnapshot) (batchSize : Z)
  : list string :=
  let size := if batchSize <=? 0 then snapshotBatchSize else batchSize in
  RenderSchemaStatements
  ++ map RenderVertexInsert (chunkArray (sn_Vertices snapshot) size)
  ++ map RenderEdgeInsert (chunkArray (sn_Edges snapshot) size).

Definition RenderSnapshotStatements (snapshot : CodeGraphSnapshot) : list string :=
  RenderSnapshotStatementsWithBatchSize snapshot snapshotBatchSize.

(** ** Lookup and deletion (lookup.go), introspection (describe_alter.go) *)

Definition propRef (prop : string) : string :=
  quoteIdentifier NodeTag +:+ "." +:+ quoteIdentifier prop.

Definition RenderLookupSnapshotVerticesStatement (input : CodeGraphDeleteInput) : string :=
  Join ["LOOKUP ON " +:+ quoteIdentifier NodeTag;
        "WHERE " +:+ propRef "orgId" +:+ " == " +:+ ngqlValue (PInt (di_OrgID input));
        "AND " +:+ propRef "workspaceId" +:+ " == " +:+ ngqlValue (PString (di_WorkspaceID input));
        "AND " +:+ propRef "repoId" +:+ " == " +:+ ngqlValue (PInt (di_RepoID input));
        "AND " +:+ propRef "commitHash" +:+ " == " +:+ ngqlValue (PString (di_CommitHash input));
        "AND " +:+ propRef "schemaVersion" +:+ " == " +:+ ngqlValue (PInt (di_SchemaVersion input));
        "AND " +:+ propRef "builderVersion" +:+ " == "
          +:+ ngqlValue (PString (di_BuilderVersion input));
        "YIELD id(vertex) AS vid;"] " ".

Definition RenderDeleteVerticesStatements (vids : list string) : list string :=
  map (fun chunk => "DELETE VERTEX " +:+ Join (map (fun vid => ngqlValue (PString vid)) chunk) ", "
                    +:+ " WITH EDGE;")
    (chunkArray vids snapshotBatchSize).

Definition RenderDescribeTagStatement : string := "DESCRIBE TAG " +:+ quoteIdentifier NodeTag +:+ ";".
Definition RenderDescribeEdgeStatement : string :=
  "DESCRIBE EDGE " +:+ quoteIdentifier EdgeType +:+ ";".
Definition RenderAlterTagAddStatement (props : list string) : string :=
  "ALTER TAG " +:+ quoteIdentifier NodeTag +:+ " ADD (" +:+ renderPropDefs props +:+ ");".
Definition RenderAlterEdgeAddStatement (props : list string) : string :=
  "ALTER EDGE " +:+ quoteIdentifier EdgeType +:+ " ADD (" +:+ renderPropDefs props +:+ ");".

(** ** The graph database *)

(** The first column of a result set, a cell being [None] when it cannot be read
    as a string; a nil result set is [None]. *)
Definition ResultSet : Type := option (list (option string)).

(** How the outside answers, given the statements executed so far: the database,
    the clock (nanoseconds), and the error of the context if it was cancelled
    while the process slept. *)
Record Graphd : Type := {
  gd_answer : list string -> string -> result gerror ResultSet;
  gd_now : list string -> Z;
  gd_cancelled : list string -> option gerror
}.

(** A computation that executes statements: the log holds them, last one last. *)
Definition GM (A : Type) : Type := list string -> A * list string.

Definition gret {A} (a : A) : GM A := fun log => (a, log).
Definition gbind {A B} (m : GM A) (k : A -> GM B) : GM B :=
  fun log => let '(a, log') := m log in k a log'.

Notation "'let!' x ':=' e 'in' k" := (gbind e (fun x => k))
  (at level 10, x pattern, e at level 200, k at level 200) : go_scope.

Definition Execute (g : Graphd) (stmt : string) : GM (result gerror ResultSet) :=
  fun log => (gd_answer g log stmt, log ++ [stmt]).

(** Execute each statement until one fails; the error is wrapped by [wrap]. *)
Fixpoint execute_all (exec : string -> GM (result gerror ResultSet))
    (wrap : string -> gerror -> gerror) (stmts : list string) : GM (option gerror) :=
  match stmts with
  | [] => gret None
  | stmt :: rest =>
      let! r := exec stmt in
      match r with
      | Ok _ => execute_all exec wrap rest
      | Err e => gret (Some (wrap stmt e))
      end
  end.

(** ** Bootstrap (bootstrap.go) *)

Definition SpaceName : string := "codeintel".
Definition DefaultVidLength : Z := 128.
Definition DefaultPartitionNum : Z := 10.
Definition DefaultReplicaFactor : Z := 1.

Definition or_default (v d : Z) : Z := if v <=? 0 then d else v.

Definition renderCreateSpaceStatement (partitions replicaFactor vidLen : Z) : string :=
  "CREATE SPACE IF NOT EXISTS " +:+ quoteIdentifier SpaceName +:+ " (partition_num = "
  +:+ Itoa (or_default partitions DefaultPartitionNum) +:+ ", replica_factor = "
  +:+ Itoa (or_default replicaFactor DefaultReplicaFactor) +:+ ", vid_type = FIXED_STRING("
  +:+ Itoa (or_default vidLen DefaultVidLength) +:+ "));".

Record BootstrapOptions : Type := {
  bo_PartitionNum : Z; bo_ReplicaFactor : Z; bo_VidLength : Z; bo_ReadyTimeout : Z; bo_ReadyPoll : Z
}.

Definition second : Z := 1000000000.

Definition applyDefaults (o : BootstrapOptions) : BootstrapOptions :=
  {| bo_PartitionNum := or_default (bo_PartitionNum o) DefaultPartitionNum;
     bo_ReplicaFactor := or_default (bo_ReplicaFactor o) DefaultReplicaFactor;
     bo_VidLength := or_default (bo_VidLength o) DefaultVidLength;
     bo_ReadyTimeout := or_default (bo_ReadyTimeout o) (30 * second);
     bo_ReadyPoll := or_default (bo_ReadyPoll o) second |}.

Definition ErrClientNil : gerror := ESentinel "graphschema: client is nil".

Definition isSpaceNotFound (e : gerror) : bool := Contains (err_text e) "SpaceNotFound".

Definition use_space : string := "USE " +:+ quoteIdentifier SpaceName +:+ ";".

(** The loop of [waitForSpaceReady]; [fuel] bounds its rounds, [None] is a loop
    that has not ended, [Some None] a nil error. *)
Fixpoint wait_loop (g : Graphd) (fuel : nat) (deadline timeout : Z) : GM (option (option gerror)) :=
  match fuel with
  | O => gret None
  | S n =>
      let! r := Execute g use_space in
      match r with
      | Ok _ => gret (Some None)
      | Err e => fun log =>
          if negb (isSpaceNotFound e) then
            gret (Some (Some (EWrap ("graphschema: USE " +:+ SpaceName +:+ " probe: ") e ""))) log
          else if deadline <? gd_now g log then
            gret (Some (Some (EWrap ("graphschema: space " +:+ String quote SpaceName
              +:+ String quote " did not become USE-able within " +:+ Duration_String timeout
              +:+ ": ") e ""))) log
          else match gd_cancelled g log with
               | Some c => gret (Some (Some c)) log
               | None => wait_loop g n deadline timeout log
               end
      end
  end.

Definition waitForSpaceReady (g : Graphd) (fuel : nat) (timeout : Z) : GM (option (option gerror)) :=
  fun log => wait_loop g fuel (gd_now g log + timeout) timeout log.

Definition statementKind (stmt : string) : string :=
  match Fields stmt with
  | f0 :: f1 :: f2 :: _ =>
      if EqualFold f0 "CREATE" then
        if EqualFold f2 "INDEX" then Join [f0; f1; f2] " " else Join [f0; f1] " "
      else "statement"
  | _ => "statement"
  end.

Definition Bootstrap (client : option Graphd) (fuel : nat) (options : BootstrapOptions)
  : GM (option (option gerror)) :=
  match client with
  | None => gret (Some (Some ErrClientNil))
  | Some g =>
      let opts := applyDefaults options in
      let! r := Execute g (renderCreateSpaceStatement (bo_PartitionNum opts)
                             (bo_ReplicaFactor opts) (bo_VidLength opts)) in
      match r with
      | Err e => gret (Some (Some (EWrap "graphschema: CREATE SPACE: " e "")))
      | Ok _ =>
          let! ready := waitForSpaceReady g fuel (bo_ReadyTimeout opts) in
          match ready with
          | None => gret None
          | Some (Some e) => gret (Some (Some e))
          | Some None =>
              let! r := execute_all
                (fun stmt => Execute g ("USE " +:+ quoteIdentifier SpaceName +:+ "; " +:+ stmt))
                (fun stmt e => EWrap ("graphschema: " +:+ statementKind stmt +:+ ": ") e "")
                RenderSchemaStatements in
              gret (Some r)
          end
      end
  end.
