(* ===== verification/GraphStore.v ===== *)
(** The graph writer, src/internal/backend/graphstore: rendered statements that come
    from the indexer, their validation and the rows they hold (rendered.go), the
    three stores (store.go, unconfigured.go) and their choice at startup
    (factory.go).

    The source's scanners run over runes; every character they look for is ASCII
    and no byte of a longer encoding is, so the scanners here run over bytes. *)
From Stdlib Require Import Ascii DecimalString DecimalZ.
From S2P Require Import Prelude GoStd GoStdFacts GoJSON GoText Sha256 GraphSchema.
(** ** Rendered statements: data *)

Record RenderedStatementWrite : Type := {
  rw_OrgID : Z; rw_WorkspaceID : string; rw_RepoID : Z; rw_Revision : string;
  rw_CommitHash : string; rw_SchemaVersion : Z; rw_BuilderVersion : string; rw_Source : string;
  rw_Statements : list string
}.

Record RenderedVertexRow : Type := { rv_VID : string; rv_Props : gmap string string }.

Record RenderedEdgeRow : Type := {
  re_FromVID : string; re_ToVID : string; re_Rank : string; re_Props : gmap string string
}.

Definition ErrRenderedStatementValidation : string := "graphstore: rendered statement validation".

(** [fmt.Errorf("%w: %s", ErrRenderedStatementValidation, ...)] *)
Definition renderedValidation (msg : string) : gerror :=
  EWrap "" (ESentinel ErrRenderedStatementValidation) (": " +:+ msg).

(** ** Scanners *)

(** Where a scanner is: outside a string literal, inside, or after a backslash. *)
Inductive lex : Type := Plain | InString | Escaped.

#[global] Instance lex_eq_dec : EqDecision lex.
Proof. solve_decision. Defined.

(** The next state inside a literal. *)
Definition lex_string (st : lex) (c : ascii) : lex :=
  match st with
  | Escaped => InString
  | _ => if code c =? 92 then Escaped else if code c =? 34 then Plain else InString
  end.

(** [cur] holds the bytes since the last separator, last byte first. *)
Definition part_text (cur : list ascii) : string :=
  TrimSpace (String.string_of_list_ascii (rev cur)).

Fixpoint split_loop (sep : ascii) (st : lex) (depth : Z) (cur : list ascii) (s : string)
  : result gerror (list string) :=
  match s with
  | EmptyString =>
      if negb (bool_decide (st = Plain)) || negb (depth =? 0)
      then Err (EText "unterminated string or tuple")
      else if part_text cur =s "" then Err (EText "empty trailing part")
      else Ok [part_text cur]
  | String c s' =>
      match st with
      | Plain =>
          if code c =? 34 then split_loop sep InString depth (c :: cur) s'
          else if code c =? 40 then split_loop sep Plain (depth + 1) (c :: cur) s'
          else if code c =? 41 then
            if depth - 1 <? 0 then Err (EText "unbalanced parentheses")
            else split_loop sep Plain (depth - 1) (c :: cur) s'
          else if bool_decide (c = sep) && (depth =? 0) then
            if part_text cur =s "" then Err (EText "empty top-level part")
            else let? rest := split_loop sep Plain depth [] s' in Ok (part_text cur :: rest)
          else split_loop sep Plain depth (c :: cur) s'
      | _ => split_loop sep (lex_string st c) depth (c :: cur) s'
      end
  end.

Definition splitTopLevel (s : string) (sep : ascii) : result gerror (list string) :=
  split_loop sep Plain 0 [] s.

Fixpoint index_loop (needle : ascii) (st : lex) (i : nat) (s : string) : option nat :=
  match s with
  | EmptyString => None
  | String c s' =>
      match st with
      | Plain =>
          if code c =? 34 then index_loop needle InString (S i) s'
          else if bool_decide (c = needle) then Some i
          else index_loop needle Plain (S i) s'
      | _ => index_loop needle (lex_string st c) (S i) s'
      end
  end.

Definition indexOutside (s : string) (needle : ascii) : result gerror nat :=
  match index_loop needle Plain 0 s with
  | Some i => Ok i
  | None => Err (EText ("missing '" +:+ String needle "" +:+ "' outside string"))
  end.

Fixpoint index_token_loop (token : string) (st : lex) (i : nat) (s : string) : option nat :=
  match s with
  | EmptyString => None
  | String c s' =>
      match st with
      | Plain =>
          if code c =? 34 then index_token_loop token InString (S i) s'
          else if HasPrefix s token then Some i
          else index_token_loop token Plain (S i) s'
      | _ => index_token_loop token (lex_string st c) (S i) s'
      end
  end.

Definition indexTokenOutside (s token : string) : result gerror nat :=
  if token =s "" then Err (EText "empty token")
  else match index_token_loop token Plain 0 s with
       | Some i => Ok i
       | None => Err (EText ("missing " +:+ quoted token +:+ " outside string"))
       end.

(** Where the statement scanner is: as above, or inside a quoted identifier. *)
Inductive slex : Type := SPlain | SString | SEscaped | SIdent.

Fixpoint statement_loop (st : slex) (s : string) : option gerror :=
  match s with
  | EmptyString =>
      match st with
      | SPlain => None
      | _ => Some (EText "unterminated quoted literal or identifier")
      end
  | String c s' =>
      match st with
      | SEscaped => statement_loop SString s'
      | SString =>
          statement_loop (if code c =? 92 then SEscaped else if code c =? 34 then SPlain
                          else SString) s'
      | SIdent =>
          if code c =? 96 then
            match s' with
            | String d _ => if code d =? 96 then statement_loop SIdent s' else statement_loop SPlain s'
            | EmptyString => statement_loop SPlain s'
            end
          else statement_loop SIdent s'
      | SPlain =>
          if code c =? 34 then statement_loop SString s'
          else if code c =? 96 then statement_loop SIdent s'
          else if code c =? 59 then Some (EText "statement contains an extra top-level semicolon")
          else statement_loop SPlain s'
      end
  end.

Definition validateSingleTerminatedStatement (stmt : string) : option gerror :=
  if negb (TrimSpace stmt =s stmt) then Some (EText "statement has leading or trailing whitespace")
  else if negb (HasSuffix stmt ";") then Some (EText "statement must terminate with semicolon")
  else statement_loop SPlain (TrimSuffix stmt ";").

(** A JSON string literal; the messages of encoding/json are not modelled. *)
Definition parseStringLiteral (raw : string) : result gerror string :=
  let q := String quote "" in
  if negb (HasPrefix raw q) || negb (HasSuffix raw q)
  then Err (EText ("not a string literal: " +:+ raw))
  else match json_parse raw with
       | Some (JStr s) => Ok s
       | _ => Err (EText "invalid JSON string")
       end.

(** ** Rows *)

Definition parseInsertRows (valuesPart : string) : result gerror (list string) :=
  let? rows := splitTopLevel valuesPart "," in
  if bool_decide (rows = []) then Err (EText "INSERT has no rows") else Ok rows.

Definition parseInsertRowValues (row : string) : result gerror (list string) :=
  let? idx := indexOutside row ":" in
  let valueTuple := TrimSpace (str_drop (S idx) row) in
  if negb (HasPrefix valueTuple "(") || negb (HasSuffix valueTuple ")")
  then Err (EText ("row values are not a tuple: " +:+ row))
  else splitTopLevel (TrimSuffix (str_drop 1 valueTuple) ")") ",".

Definition edgePropsIndex (name : string) : Z :=
  match list_find (fun p => p = name) EdgeProps with
  | Some (i, _) => Z.of_nat i
  | None => -1
  end.

Definition decodeRenderedValue (raw : string) : string :=
  let value := TrimSpace raw in
  if (value =s "") || EqualFold value "NULL" then ""
  else if HasPrefix value (String quote "") then
    match parseStringLiteral value with Ok decoded => decoded | Err _ => value end
  else value.

Definition renderedProps (keys values : list string) : gmap string string :=
  foldl (fun props kv => <[kv.1 := decodeRenderedValue kv.2]> props) ∅ (zip keys values).

Definition parseRenderedVertexRow (row : string) : result gerror RenderedVertexRow :=
  let? idx := indexOutside row ":" in
  let? vid := parseStringLiteral (TrimSpace (str_take idx row)) in
  let? values := parseInsertRowValues row in
  Ok {| rv_VID := vid; rv_Props := renderedProps NodeProps values |}.

Definition parseRenderedEdgeRow (row : string) : result gerror RenderedEdgeRow :=
  let? idx := indexOutside row ":" in
  let target := TrimSpace (str_take idx row) in
  let? arrowIdx := indexTokenOutside target "->" in
  let targetAndRank := str_drop (arrowIdx + 2) target in
  let? rankIdx := indexTokenOutside targetAndRank "@" in
  let? fromVID := parseStringLiteral (TrimSpace (str_take arrowIdx target)) in
  let? toVID := parseStringLiteral (TrimSpace (str_take rankIdx targetAndRank)) in
  let rank := TrimSpace (str_drop (S rankIdx) targetAndRank) in
  let? values := parseInsertRowValues row in
  Ok {| re_FromVID := fromVID; re_ToVID := toVID; re_Rank := rank;
        re_Props := renderedProps EdgeProps values |}.

(** ** Validation *)

Definition isLowerHex (s : string) : bool :=
  negb (s =s "")
  && forallb (fun c => byte_in 48 57 c || byte_in 97 102 c) (String.list_ascii_of_string s).

Definition zero_byte : string := String (chr 0) "".

Definition hashParts (parts : list string) (length : Z) : string :=
  let encoded := sha256_hex (Join parts zero_byte) in
  if length <? 0 then ""
  else if Z.of_nat (String.length encoded) <? length then encoded
  else str_take (Z.to_nat length) encoded.

Definition vid_prefix (input : RenderedStatementWrite) : string :=
  Join ["cg"; "o" +:+ Itoa (rw_OrgID input); "w" +:+ hashParts [rw_WorkspaceID input] 8;
        "r" +:+ Itoa (rw_RepoID input); "c" +:+ str_take 12 (rw_CommitHash input);
        "s" +:+ Itoa (rw_SchemaVersion input); "b" +:+ hashParts [rw_BuilderVersion input] 8] ":"
  +:+ ":".

Definition validateScopedVID (vid expectedKind : string) (input : RenderedStatementWrite)
  : option gerror :=
  let prefix := vid_prefix input in
  if negb (HasPrefix vid prefix) then
    Some (EText ("VID " +:+ quoted vid +:+ " does not start with scoped prefix " +:+ quoted prefix))
  else match CutByte ":" (TrimPrefix vid prefix) with
       | None => Some (EText ("VID " +:+ quoted vid +:+ " missing kind/key hash"))
       | Some (kind, key) =>
           if negb (expectedKind =s "") && negb (kind =s expectedKind) then
             Some (EText ("VID kind got " +:+ quoted kind +:+ ", want " +:+ quoted expectedKind))
           else if (expectedKind =s "") && (kind =s "") then Some (EText "VID kind is empty")
           else if Contains key ":" then
             Some (EText ("VID key hash " +:+ quoted key +:+ " contains ':'"))
           else if negb (String.length key =? 32)%nat || negb (isLowerHex key) then
             Some (EText ("VID key hash " +:+ quoted key +:+ " is not 32 lowercase hex chars"))
           else None
       end.

(** [None] is a nil error. *)
Definition err_of {A} (r : result gerror A) (k : A -> option gerror) : option gerror :=
  match r with Ok a => k a | Err e => Some e end.

Definition wrap_err (pre : string) (e : option gerror) : option gerror :=
  (fun e => EWrap pre e "") <$> e.

Definition wrap_result {A} (pre : string) (r : result gerror A) : result gerror A :=
  match r with Ok a => Ok a | Err e => Err (EWrap pre e "") end.

Definition validateVertexRowIdentity (row : string) (values : list string)
    (input : RenderedStatementWrite) : option gerror :=
  err_of (indexOutside row ":") (fun idx =>
  err_of (wrap_result "vertex VID: " (parseStringLiteral (TrimSpace (str_take idx row)))) (fun vid =>
  match values with
  | [] => Some (EText "vertex values are empty")
  | v0 :: _ =>
      err_of (wrap_result "vertex kind: " (parseStringLiteral (TrimSpace v0))) (fun kind =>
      validateScopedVID vid kind input)
  end)).

Definition validateEdgeRowIdentity (row : string) (values : list string)
    (input : RenderedStatementWrite) : option gerror :=
  err_of (indexOutside row ":") (fun idx =>
  match values with
  | [] => Some (EText "edge values are empty")
  | v0 :: _ =>
      let target := TrimSpace (str_take idx row) in
      err_of (wrap_result "edge target: " (indexTokenOutside target "->")) (fun arrowIdx =>
      let targetAndRank := str_drop (arrowIdx + 2) target in
      err_of (wrap_result "edge rank: " (indexTokenOutside targetAndRank "@")) (fun rankIdx =>
      err_of (wrap_result "edge from VID: "
                (parseStringLiteral (TrimSpace (str_take arrowIdx target)))) (fun fromVID =>
      err_of (wrap_result "edge to VID: "
                (parseStringLiteral (TrimSpace (str_take rankIdx targetAndRank)))) (fun toVID =>
      let rankText := TrimSpace (str_drop (S rankIdx) targetAndRank) in
      match ParseInt64 rankText with
      | Some rank =>
          if (rank <? 0) || (4294967295 <? rank)
          then Some (EText ("edge rank " +:+ quoted rankText +:+ " is outside uint32 range"))
          else
          err_of (wrap_result "edge kind: " (parseStringLiteral (TrimSpace v0))) (fun kind =>
          let sourceIdx := edgePropsIndex "source" in
          match (if sourceIdx <? 0 then None else values !! Z.to_nat sourceIdx) with
          | None => Some (EText ("edge source: column index out of range (sourceIdx="
                      +:+ Itoa sourceIdx +:+ ", values=" +:+ Itoa (Z.of_nat (length values)) +:+ ")"))
          | Some sourceText =>
              err_of (wrap_result "edge source: " (parseStringLiteral (TrimSpace sourceText)))
              (fun source =>
              let expectedRank := EdgeRank (fromVID +:+ "->" +:+ toVID +:+ ":" +:+ kind +:+ ":"
                                            +:+ source) in
              if negb (rank =? expectedRank) then
                Some (EText ("edge rank got " +:+ Itoa rank +:+ ", want " +:+ Itoa expectedRank))
              else match validateScopedVID fromVID "" input with
                   | Some e => Some (EWrap "from VID: " e "")
                   | None => wrap_err "to VID: " (validateScopedVID toVID "" input)
                   end)
          end)
      | None => Some (EText ("edge rank " +:+ quoted rankText +:+ " is outside uint32 range"))
      end))))
  end).

(** [json.Encoder] without HTML escapes; its newline is dropped. *)
Definition renderStringLiteral (s : string) : string := json_quote false s.

Definition scope_wants (input : RenderedStatementWrite) : list (string * string) :=
  [("orgId", Itoa (rw_OrgID input)); ("workspaceId", renderStringLiteral (rw_WorkspaceID input));
   ("repoId", Itoa (rw_RepoID input)); ("revision", renderStringLiteral (rw_Revision input));
   ("commitHash", renderStringLiteral (rw_CommitHash input));
   ("schemaVersion", Itoa (rw_SchemaVersion input));
   ("builderVersion", renderStringLiteral (rw_BuilderVersion input))].

Definition scope_want (input : RenderedStatementWrite) (prop : string) : option string :=
  snd <$> List.find (fun kv => kv.1 =s prop) (scope_wants input).

Fixpoint scope_loop (input : RenderedStatementWrite) (pvs : list (string * string)) : option gerror :=
  match pvs with
  | [] => None
  | (prop, value) :: rest =>
      match scope_want input prop with
      | Some expected =>
          if TrimSpace value =s expected then scope_loop input rest
          else Some (EText ("scope property " +:+ prop +:+ " got " +:+ TrimSpace value +:+ ", want "
                            +:+ expected))
      | None => scope_loop input rest
      end
  end.

Definition validateScopeValues (values props : list string) (input : RenderedStatementWrite)
  : option gerror :=
  if negb (length values =? length props)%nat then
    Some (EText ("value count got " +:+ Itoa (Z.of_nat (length values)) +:+ ", want "
                 +:+ Itoa (Z.of_nat (length props))))
  else scope_loop input (zip props values).

Definition validateRenderedScope (input : RenderedStatementWrite) : option gerror :=
  if rw_OrgID input <=? 0 then Some (renderedValidation ("invalid orgId " +:+ Itoa (rw_OrgID input)))
  else if rw_RepoID input <=? 0 then
    Some (renderedValidation ("invalid repoId " +:+ Itoa (rw_RepoID input)))
  else if TrimSpace (rw_WorkspaceID input) =s "" then
    Some (renderedValidation "workspaceId is required")
  else if TrimSpace (rw_Revision input) =s "" then Some (renderedValidation "revision is required")
  else if negb (commitHashPattern (rw_CommitHash input)) then
    Some (renderedValidation "commitHash must be a 40-character SHA")
  else if rw_SchemaVersion input <=? 0 then
    Some (renderedValidation ("invalid schemaVersion " +:+ Itoa (rw_SchemaVersion input)))
  else if TrimSpace (rw_BuilderVersion input) =s "" then
    Some (renderedValidation "builderVersion is required")
  else if TrimSpace (rw_Source input) =s "" then Some (renderedValidation "source is required")
  else None.

(** ** [validateRenderedStatements] and [ExtractRenderedRows] *)

Definition insertPrefix (kind name : string) (props : list string) : string :=
  let quoteIdentifierLocal s := String backtick (DoubleByte backtick s +:+ String backtick "") in
  "INSERT " +:+ kind +:+ " " +:+ quoteIdentifierLocal name +:+ "("
  +:+ Join (map quoteIdentifierLocal props) ", " +:+ ") VALUES ".

Definition vertexPrefix : string := insertPrefix "VERTEX" NodeTag NodeProps.
Definition edgePrefix : string := insertPrefix "EDGE" EdgeType EdgeProps.

(** The text between the prefix and the semicolon. *)
Definition insert_body (stmt prefix : string) : string := TrimSuffix (TrimPrefix stmt prefix) ";".

(** One row of an insert: its values, the identity check, the scope check. *)
Definition validate_row (identity : string -> list string -> RenderedStatementWrite -> option gerror)
    (props : list string) (input : RenderedStatementWrite) (row : string) : option gerror :=
  err_of (parseInsertRowValues row) (fun values =>
  match identity row values input with
  | Some e => Some e
  | None => validateScopeValues values props input
  end).

Fixpoint first_error {A} (f : A -> option gerror) (l : list A) : option gerror :=
  match l with
  | [] => None
  | x :: l' => match f x with Some e => Some e | None => first_error f l' end
  end.

(** The rows of an insert statement, all valid, counted. *)
Definition validate_insert (label : string)
    (identity : string -> list string -> RenderedStatementWrite -> option gerror)
    (prefix : string) (props : list string) (input : RenderedStatementWrite) (i : Z) (stmt : string)
  : result gerror Z :=
  let fail e := renderedValidation (label +:+ " statement " +:+ Itoa i +:+ ": " +:+ err_text e) in
  match parseInsertRows (insert_body stmt prefix) with
  | Err e => Err (fail e)
  | Ok rows =>
      match first_error (validate_row identity props input) rows with
      | Some e => Err (fail e)
      | None => Ok (Z.of_nat (length rows))
      end
  end.

Fixpoint validate_inserts (input : RenderedStatementWrite) (i : Z) (vertexCount edgeCount : Z)
    (stmts : list string) : result gerror (Z * Z) :=
  match stmts with
  | [] => Ok (vertexCount, edgeCount)
  | stmt :: rest =>
      match validateSingleTerminatedStatement stmt with
      | Some e => Err (renderedValidation ("statement " +:+ Itoa i +:+ ": " +:+ err_text e))
      | None =>
          if HasPrefix stmt vertexPrefix then
            let? n := validate_insert "vertex" validateVertexRowIdentity vertexPrefix NodeProps
                        input i stmt in
            validate_inserts input (i + 1) (vertexCount + n) edgeCount rest
          else if HasPrefix stmt edgePrefix then
            let? n := validate_insert "edge" validateEdgeRowIdentity edgePrefix EdgeProps
                        input i stmt in
            validate_inserts input (i + 1) vertexCount (edgeCount + n) rest
          else Err (renderedValidation ("statement " +:+ Itoa i
                      +:+ " is not an allowed graph INSERT"))
      end
  end.

(** The index of the first schema statement that differs. *)
Fixpoint schema_mismatch (i : Z) (wants gots : list string) : option Z :=
  match wants, gots with
  | w :: ws, g :: gs => if g =s w then schema_mismatch (i + 1) ws gs else Some i
  | _, _ => None
  end.

Definition validateRenderedStatements (input : RenderedStatementWrite) : result gerror (Z * Z) :=
  match validateRenderedScope input with
  | Some e => Err e
  | None =>
      let n := length RenderSchemaStatements in
      if (length (rw_Statements input) <? n)%nat then
        Err (renderedValidation ("expected at least " +:+ Itoa (Z.of_nat n)
               +:+ " schema statements, got " +:+ Itoa (Z.of_nat (length (rw_Statements input)))))
      else match schema_mismatch 0 RenderSchemaStatements (rw_Statements input) with
           | Some i => Err (renderedValidation ("schema statement " +:+ Itoa i +:+ " mismatch"))
           | None => validate_inserts input (Z.of_nat n) 0 0 (skipn n (rw_Statements input))
           end
  end.

Definition ValidateRenderedStatementWrite (input : RenderedStatementWrite) : result gerror (Z * Z) :=
  validateRenderedStatements input.

(** [for _, row := range rows { parsed, err := parse(row); ... }] *)
Fixpoint parse_rows {A} (parse : string -> result gerror A) (rows : list string)
  : result gerror (list A) :=
  match rows with
  | [] => Ok []
  | row :: rest =>
      let? a := parse row in
      let? l := parse_rows parse rest in
      Ok (a :: l)
  end.

Fixpoint extract_rows (stmts : list string)
  : result gerror (list RenderedVertexRow * list RenderedEdgeRow) :=
  match stmts with
  | [] => Ok ([], [])
  | stmt :: rest =>
      if HasPrefix stmt vertexPrefix then
        let? rows := parseInsertRows (insert_body stmt vertexPrefix) in
        let? vs := parse_rows parseRenderedVertexRow rows in
        let? ve := extract_rows rest in
        Ok (vs ++ ve.1, ve.2)
      else if HasPrefix stmt edgePrefix then
        let? rows := parseInsertRows (insert_body stmt edgePrefix) in
        let? es := parse_rows parseRenderedEdgeRow rows in
        let? ve := extract_rows rest in
        Ok (ve.1, es ++ ve.2)
      else extract_rows rest
  end.

Definition ExtractRenderedRows (input : RenderedStatementWrite)
  : result gerror (list RenderedVertexRow * list RenderedEdgeRow) :=
  let? _ := ValidateRenderedStatementWrite input in
  extract_rows (skipn (length RenderSchemaStatements) (rw_Statements input)).

(** ** The stores *)

(** What a store offers the queue handlers (rendered.go, [Store]). *)
Class Store (S : Type) : Type := {
  WriteSnapshot : S -> CodeGraphSnapshot -> GM (CodeGraphWriteResult * option gerror);
  WriteRenderedStatements : S -> RenderedStatementWrite ->
    GM (CodeGraphWriteResult * option gerror);
  MarkSnapshotForDeletion : S -> CodeGraphDeleteInput -> GM (option gerror)
}.

(** The retry delay is time the process sleeps; it is not part of the state. *)
Record SchemaRetryConfig : Type := { rc_Attempts : Z; rc_Delay : Z }.

Definition DefaultSchemaRetryConfig : SchemaRetryConfig :=
  {| rc_Attempts := 30; rc_Delay := second |}.

(** [ns_prefix] is put before every statement ([spacePrefixedExecutor]). *)
Record NebulaCodeGraphStore : Type := {
  ns_executor : Graphd; ns_prefix : string; ns_retry : SchemaRetryConfig
}.

Definition NewWithRetry (executor : Graphd) (prefix : string) (retry : SchemaRetryConfig)
  : NebulaCodeGraphStore :=
  {| ns_executor := executor; ns_prefix := prefix;
     ns_retry := {| rc_Attempts := or_default (rc_Attempts retry) (rc_Attempts DefaultSchemaRetryConfig);
                    rc_Delay := or_default (rc_Delay retry) (rc_Delay DefaultSchemaRetryConfig) |} |}.

Definition New (executor : Graphd) (prefix : string) : NebulaCodeGraphStore :=
  NewWithRetry executor prefix DefaultSchemaRetryConfig.

Definition store_execute (s : NebulaCodeGraphStore) (stmt : string) : GM (result gerror ResultSet) :=
  Execute (ns_executor s) (ns_prefix s +:+ stmt).

Definition isSchemaPropagationError (e : gerror) : bool :=
  let msg := ToLower (err_text e) in
  Contains msg "schema" || Contains msg "tag" || Contains msg "edge" || Contains msg "space".

(** [attempts] are left. *)
Fixpoint retry_loop (s : NebulaCodeGraphStore) (attempts : nat) (stmt : string)
  : GM (result gerror ResultSet) :=
  match attempts with
  | O => gret (Err (EText "graphstore: schema retry exhausted without recorded error"))
  | S left_ =>
      let! r := store_execute s stmt in
      match r with
      | Ok rs => gret (Ok rs)
      | Err e => fun log =>
          if negb (isSchemaPropagationError e) || (left_ =? 0)%nat then (Err e, log)
          else match gd_cancelled (ns_executor s) log with
               | Some c => (Err c, log)
               | None => retry_loop s left_ stmt log
               end
      end
  end.

Definition executeWithSchemaRetry (s : NebulaCodeGraphStore) (stmt : string)
  : GM (result gerror ResultSet) :=
  retry_loop s (Z.to_nat (rc_Attempts (ns_retry s))) stmt.

(** The non-empty strings of the first column. *)
Definition column0 (rs : ResultSet) : list string :=
  List.filter (fun s => negb (s =s "")) (omap id (default [] rs)).

Definition extractSchemaPropertyNames (rs : ResultSet) : gset string := list_to_set (column0 rs).

Definition extractVids (rs : ResultSet) : list string := column0 rs.

Definition ensureMissingSchemaProperties (s : NebulaCodeGraphStore) (expected : list string)
    (describeStmt : string) (renderAlterStmt : list string -> string) (label : string)
  : GM (option gerror) :=
  let! r := executeWithSchemaRetry s describeStmt in
  match r with
  | Err e => gret (Some (EWrap ("graphstore: DESCRIBE " +:+ label +:+ ": ") e ""))
  | Ok rs =>
      let existing := extractSchemaPropertyNames rs in
      if bool_decide (existing = ∅) then gret None
      else
        let missing := List.filter (fun prop => negb (bool_decide (prop ∈ existing))) expected in
        if bool_decide (missing = []) then gret None
        else
          let! r := executeWithSchemaRetry s (renderAlterStmt missing) in
          match r with
          | Err e => gret (Some (EWrap ("graphstore: ALTER " +:+ label +:+ ": ") e ""))
          | Ok _ => gret None
          end
  end.

Definition ensureSchema (s : NebulaCodeGraphStore) : GM (option gerror) :=
  let! r := execute_all (executeWithSchemaRetry s)
              (fun _ e => EWrap "graphstore: schema create: " e "") RenderSchemaStatements in
  match r with
  | Some e => gret (Some e)
  | None =>
      let! r := ensureMissingSchemaProperties s NodeProps RenderDescribeTagStatement
                  RenderAlterTagAddStatement "tag" in
      match r with
      | Some e => gret (Some e)
      | None => ensureMissingSchemaProperties s EdgeProps RenderDescribeEdgeStatement
                  RenderAlterEdgeAddStatement "edge"
      end
  end.

Definition write_failed (e : gerror) : CodeGraphWriteResult * option gerror :=
  ({| wr_Status := WriteStatusFailed; wr_VertexCount := 0; wr_EdgeCount := 0; wr_AnchorCount := 0;
      wr_LinkedEdgeCount := 0; wr_ErrorMessage := err_text e |}, Some e).

Definition countLinkedEdges (snapshot : CodeGraphSnapshot) : Z :=
  Z.of_nat (length (List.filter (fun e =>
    match prop_of (ed_Properties e) "source" with
    | PString v => v =s "anchor-linker"
    | _ => false
    end) (sn_Edges snapshot))).

(** Ensure the schema, then execute the statements; [ready] is the answer when
    all went well. *)
Definition write_statements (s : NebulaCodeGraphStore) (stmts : list string)
    (ready : CodeGraphWriteResult) : GM (CodeGraphWriteResult * option gerror) :=
  let! r := ensureSchema s in
  match r with
  | Some e => gret (write_failed e)
  | None =>
      let! r := execute_all (executeWithSchemaRetry s) (fun _ e => e) stmts in
      match r with
      | Some e => gret (write_failed e)
      | None => gret (ready, None)
      end
  end.

Definition nebula_WriteSnapshot (s : NebulaCodeGraphStore) (snapshot : CodeGraphSnapshot)
  : GM (CodeGraphWriteResult * option gerror) :=
  write_statements s
    (skipn (length RenderSchemaStatements) (RenderSnapshotStatements snapshot))
    {| wr_Status := WriteStatusReady; wr_VertexCount := Z.of_nat (length (sn_Vertices snapshot));
       wr_EdgeCount := Z.of_nat (length (sn_Edges snapshot));
       wr_AnchorCount := Z.of_nat (length (sn_Anchors snapshot));
       wr_LinkedEdgeCount := countLinkedEdges snapshot; wr_ErrorMessage := "" |}.

Definition nebula_WriteRenderedStatements (s : NebulaCodeGraphStore) (input : RenderedStatementWrite)
  : GM (CodeGraphWriteResult * option gerror) :=
  match ValidateRenderedStatementWrite input with
  | Err e => gret (write_failed e)
  | Ok (vertexCount, edgeCount) =>
      write_statements s (skipn (length RenderSchemaStatements) (rw_Statements input))
        {| wr_Status := WriteStatusReady; wr_VertexCount := vertexCount; wr_EdgeCount := edgeCount;
           wr_AnchorCount := 0; wr_LinkedEdgeCount := 0; wr_ErrorMessage := "" |}
  end.

Definition nebula_MarkSnapshotForDeletion (s : NebulaCodeGraphStore) (input : CodeGraphDeleteInput)
  : GM (option gerror) :=
  let! r := store_execute s (RenderLookupSnapshotVerticesStatement input) in
  match r with
  | Err e => gret (Some (EWrap "graphstore: LOOKUP for retirement: " e ""))
  | Ok rs =>
      execute_all (store_execute s) (fun _ e => EWrap "graphstore: DELETE VERTEX: " e "")
        (RenderDeleteVerticesStatements (extractVids rs))
  end.

#[global] Instance nebula_store : Store NebulaCodeGraphStore := {|
  WriteSnapshot := nebula_WriteSnapshot;
  WriteRenderedStatements := nebula_WriteRenderedStatements;
  MarkSnapshotForDeletion := nebula_MarkSnapshotForDeletion
|}.

Definition shortCommit (commit : string) : string := str_take 12 commit.

(** *** No graph database configured (unconfigured.go) *)

Record UnconfiguredCodeGraphStore : Type := { uc_Reason : string }.

Definition write_skipped (message : string) : CodeGraphWriteResult * option gerror :=
  ({| wr_Status := WriteStatusSkipped; wr_VertexCount := 0; wr_EdgeCount := 0; wr_AnchorCount := 0;
      wr_LinkedEdgeCount := 0; wr_ErrorMessage := message |}, None).

#[global] Instance unconfigured_store : Store UnconfiguredCodeGraphStore := {|
  WriteSnapshot s snapshot :=
    gret (write_skipped (uc_Reason s +:+ "; skipped graph snapshot " +:+ Itoa (sn_RepoID snapshot)
                         +:+ "@" +:+ shortCommit (sn_CommitHash snapshot) +:+ "."));
  WriteRenderedStatements s input :=
    match ValidateRenderedStatementWrite input with
    | Err e => gret (write_failed e)
    | Ok _ =>
        gret (write_skipped (uc_Reason s +:+ "; skipped rendered graph snapshot "
                +:+ Itoa (rw_RepoID input) +:+ "@" +:+ shortCommit (rw_CommitHash input) +:+ "."))
    end;
  MarkSnapshotForDeletion _ _ := gret None
|}.

(** *** A configured database that could not be reached *)

Definition ErrGraphStoreUnavailable : string := "graphstore: unavailable".

Record UnavailableCodeGraphStore : Type := { ua_Reason : string }.

Definition unavailableError (s : UnavailableCodeGraphStore) : gerror :=
  EWrap "" (ESentinel ErrGraphStoreUnavailable) (": " +:+ ua_Reason s).

#[global] Instance unavailable_store : Store UnavailableCodeGraphStore := {|
  WriteSnapshot s _ := gret (write_failed (unavailableError s));
  WriteRenderedStatements s input :=
    match ValidateRenderedStatementWrite input with
    | Err e => gret (write_failed e)
    | Ok _ => gret (write_failed (unavailableError s))
    end;
  MarkSnapshotForDeletion s _ := gret (Some (unavailableError s))
|}.

(** ** [CreateFromEnv] (factory.go) *)

Inductive AnyStore : Type :=
| SUnconfigured (s : UnconfiguredCodeGraphStore)
| SUnavailable (s : UnavailableCodeGraphStore)
| SNebula (s : NebulaCodeGraphStore).

#[global] Instance any_store : Store AnyStore := {|
  WriteSnapshot s snapshot :=
    match s with
    | SUnconfigured s => WriteSnapshot s snapshot
    | SUnavailable s => WriteSnapshot s snapshot
    | SNebula s => WriteSnapshot s snapshot
    end;
  WriteRenderedStatements s input :=
    match s with
    | SUnconfigured s => WriteRenderedStatements s input
    | SUnavailable s => WriteRenderedStatements s input
    | SNebula s => WriteRenderedStatements s input
    end;
  MarkSnapshotForDeletion s input :=
    match s with
    | SUnconfigured s => MarkSnapshotForDeletion s input
    | SUnavailable s => MarkSnapshotForDeletion s input
    | SNebula s => MarkSnapshotForDeletion s input
    end
|}.

Definition EnvAddr : string := "CODEINTEL_NEBULA_ADDR".

Definition no_options : BootstrapOptions :=
  {| bo_PartitionNum := 0; bo_ReplicaFactor := 0; bo_VidLength := 0; bo_ReadyTimeout := 0;
     bo_ReadyPoll := 0 |}.

(** [addr] is the variable's value, [config] the outcome of reading the other
    settings and [client] of connecting; [None] is a bootstrap that has not
    ended within [fuel] probes. *)
Definition CreateFromEnv (addr : string) (config : result gerror unit)
    (client : result gerror Graphd) (fuel : nat) : GM (option AnyStore) :=
  let unavailable reason := gret (Some (SUnavailable {| ua_Reason := reason |})) in
  if addr =s "" then gret (Some (SUnconfigured {| uc_Reason := EnvAddr +:+ " is not configured" |}))
  else match config with
  | Err e => unavailable ("env validation failed: " +:+ err_text e)
  | Ok _ =>
      match client with
      | Err e => unavailable ("nebula client init failed: " +:+ err_text e)
      | Ok g =>
          let! r := Bootstrap (Some g) fuel no_options in
          match r with
          | None => gret None
          | Some (Some e) => unavailable ("graph schema bootstrap failed: " +:+ err_text e)
          | Some None =>
              gret (Some (SNebula (New g ("USE " +:+ quoteIdentifier SpaceName +:+ "; "))))
          end
      end
  end.
