(* ===== verification/GraphStoreFacts.v ===== *)
(** The scanners of rendered statements on text the renderer writes: literals are
    skipped whole, and a list joined with commas splits back into its parts. *)
From Stdlib Require Import Ascii.
From Stdlib Require Import Ascii DecimalString DecimalZ.
From S2P Require Import Prelude GoStd GoStdFacts GoJSON GoJSONFacts GoText Sha256 GraphSchema GraphStore.
(** ** Text without white space at its ends *)

(** A visible ASCII byte. *)
Definition visible (c : ascii) : bool := byte_in 33 126 c.

Definition head_visible (s : string) : bool :=
  match s with String c _ => visible c | EmptyString => false end.

Definition tight (s : string) : bool := head_visible s && head_visible (str_rev s).

(** White space starts and ends with other bytes. *)
Lemma visible_strip runes c s :
  forallb (fun w => negb (head_visible w) && negb (w =s "")) runes = true ->
  visible c = true -> strip_any runes (String c s) = None.
Proof.
  intros H Hc. apply strip_any_None, Forall_forall. intros w Hw.
  rewrite forallb_forall in H. specialize (H w (proj1 (list_elem_of_In _ _) Hw)).
  destruct (HasPrefix (String c s) w) eqn:E; [|done].
  apply HasPrefix_spec in E as [r E]. destruct w as [|d w]; [done|]. simpl in E.
  injection E as <- _. simpl in H. by rewrite Hc in H.
Qed.

Lemma visible_no_space c s :
  visible c = true -> strip_any space_runes (String c s) = None /\
  strip_any (map str_rev space_runes) (String c s) = None.
Proof. intros Hc. split; apply visible_strip; done. Qed.

Lemma tight_front s : tight s = true -> strip_any space_runes s = None.
Proof.
  unfold tight, head_visible. intros [H _]%andb_true_iff. destruct s as [|c s]; [done|].
  exact (proj1 (visible_no_space c s H)).
Qed.

Lemma tight_back s : tight s = true -> strip_any (map str_rev space_runes) (str_rev s) = None.
Proof.
  unfold tight, head_visible. intros [_ H]%andb_true_iff. destruct (str_rev s) as [|c t]; [done|].
  exact (proj2 (visible_no_space c t H)).
Qed.

Lemma tight_TrimSpace s : tight s = true -> TrimSpace s = s.
Proof. intros H. apply TrimRunes_fix; [by apply tight_front|by apply tight_back]. Qed.

Lemma strip_space s : strip_any space_runes (String " " s) = Some s.
Proof. by destruct s. Qed.

(** The space after a separator goes. *)
Lemma tight_TrimSpace_pad s : tight s = true -> TrimSpace (String " " s) = s.
Proof.
  intros H. unfold TrimSpace, TrimRunes.
  assert (E : TrimLeftRunes space_runes (String " " s) = s).
  { unfold TrimLeftRunes. cbn [String.length trim_front].
    rewrite strip_space.
    change (trim_front (String.length s) space_runes s) with (TrimLeftRunes space_runes s).
    apply TrimLeftRunes_fix. by apply tight_front. }
  rewrite E. unfold TrimRightRunes. rewrite TrimLeftRunes_fix by (by apply tight_back).
  apply str_rev_involutive.
Qed.

Lemma tight_nonempty s : tight s = true -> s <> "".
Proof. by intros H ->. Qed.

Lemma head_visible_app s t : s <> "" -> head_visible (s +:+ t) = head_visible s.
Proof. by destruct s. Qed.

(** Text that is visible at both ends stays so with anything in the middle. *)
Lemma tight_app s m t : head_visible s = true -> head_visible (str_rev t) = true ->
  tight (s +:+ m +:+ t) = true.
Proof.
  intros Hs Ht. unfold tight.
  assert (s <> "") by (by intros ->). assert (str_rev t <> "") by (intros E; by rewrite E in Ht).
  rewrite !str_rev_app, str_app_assoc, !head_visible_app by done. by rewrite Hs, Ht.
Qed.

Lemma tight_app2 s t : head_visible s = true -> head_visible (str_rev t) = true ->
  tight (s +:+ t) = true.
Proof. apply (tight_app s "" t). Qed.

(** ** Inside a literal *)

(** The state after some bytes that do not close the literal. *)
Fixpoint stays (st : lex) (s : string) : option lex :=
  match s with
  | EmptyString => Some st
  | String c s' =>
      match lex_string st c with
      | Plain => None
      | st' => stays st' s'
      end
  end.

Lemma stays_app st s t : stays st (s +:+ t) = match stays st s with Some st' => stays st' t | None => None end.
Proof.
  revert st. induction s as [|c s IH]; intros st; simpl; [done|].
  destruct (lex_string st c); [done|apply IH..].
Qed.

(** Bytes from 128 on are ordinary. *)
Lemma stays_high s : Forall (fun c => (code c <? 128) = false) (String.list_ascii_of_string s) ->
  stays InString s = Some InString.
Proof.
  induction s as [|c s IH]; simpl; [done|]. rewrite Forall_cons. intros [Hc Hs].
  replace (code c =? 92) with false by lia. replace (code c =? 34) with false by lia. auto.
Qed.

Lemma stays_escape_byte html c : (code c <? 128) = true ->
  stays InString (escape_byte html c) = Some InString.
Proof. intros Hc. by destruct html, c as [[] [] [] [] [] [] [] []]. Qed.

Lemma take_rune_bytes s w r : take_rune s = Some (w, r) ->
  match s with String c _ => code c <? 128 | _ => true end = false ->
  Forall (fun c => (code c <? 128) = false) (String.list_ascii_of_string w).
Proof.
  unfold take_rune. destruct s as [|a s1]; [done|]. intros H Ha. rewrite Ha in H.
  unfold byte_in in H. destruct s1 as [|b s2]; [done|].
  destruct (_ && _) eqn:Eb in H; [injection H as <- <-; repeat constructor; breflect; lia|].
  destruct s2 as [|c s3]; [done|]. cbn zeta in H.
  destruct (_ && _) eqn:Ec in H; [injection H as <- <-; repeat constructor; breflect; lia|].
  destruct s3 as [|d s4]; [done|].
  destruct (_ && _) eqn:Ed in H; [|done]. injection H as <- <-; repeat constructor; breflect; lia.
Qed.

Lemma stays_escape html n s : stays InString (escape html n s) = Some InString.
Proof.
  revert s. induction n as [|n IH]; intros s; [done|]. destruct s as [|c s]; [done|].
  cbn [escape]. destruct (code c <? 128) eqn:Ec.
  { by rewrite stays_app, stays_escape_byte. }
  destruct (take_rune (String c s)) as [[w r]|] eqn:E; rewrite stays_app; [|apply IH].
  unfold escape_rune. destruct (w =s _); [apply IH|]. destruct (w =s _); [apply IH|].
  rewrite stays_high by (eapply take_rune_bytes; [exact E|done]). apply IH.
Qed.

(** *** Every scanner skips a literal *)

Lemma json_quote_split html s t :
  json_quote html s +:+ t = String quote (escape html (String.length s) s +:+ String quote t).
Proof. unfold json_quote. cbn. by rewrite str_app_assoc. Qed.

Lemma split_stays sep st d cur s t : stays st s = Some InString -> st <> Plain ->
  split_loop sep st d cur (s +:+ t)
  = split_loop sep InString d (rev (String.list_ascii_of_string s) ++ cur) t.
Proof.
  revert st cur. induction s as [|c s IH]; intros st cur H Hst; simpl in *; [by injection H as ->|].
  rewrite <- app_assoc. cbn [app]. destruct st; [done|..];
    (destruct (lex_string _ c) eqn:E; [done|..]); apply IH; done.
Qed.

Lemma split_literal sep d cur html s t :
  split_loop sep Plain d cur (json_quote html s +:+ t)
  = split_loop sep Plain d (rev (String.list_ascii_of_string (json_quote html s)) ++ cur) t.
Proof.
  rewrite json_quote_split. cbn [split_loop]. change (code quote =? 34) with true. cbv iota.
  rewrite split_stays by (done || apply stays_escape). simpl. f_equal.
  rewrite list_of_str_app, !rev_app_distr. simpl. by rewrite <- !app_assoc.
Qed.

Lemma index_stays needle st i s t : stays st s = Some InString -> st <> Plain ->
  index_loop needle st i (s +:+ t) = index_loop needle InString (i + String.length s) t.
Proof.
  revert st i. induction s as [|c s IH]; intros st i H Hst; simpl in *.
  { injection H as ->. by rewrite Nat.add_0_r. }
  rewrite Nat.add_succ_r, <- Nat.add_succ_l. destruct st; [done|..];
    (destruct (lex_string _ c) eqn:E; [done|..]); apply IH; done.
Qed.

Lemma index_literal needle i html s t :
  index_loop needle Plain i (json_quote html s +:+ t)
  = index_loop needle Plain (i + String.length (json_quote html s)) t.
Proof.
  rewrite json_quote_split. cbn [index_loop]. change (code quote =? 34) with true. cbv iota.
  rewrite index_stays by (done || apply stays_escape). simpl. f_equal.
  rewrite str_length_app. simpl. lia.
Qed.

Lemma index_token_stays token st i s t : stays st s = Some InString -> st <> Plain ->
  index_token_loop token st i (s +:+ t) = index_token_loop token InString (i + String.length s) t.
Proof.
  revert st i. induction s as [|c s IH]; intros st i H Hst; simpl in *.
  { injection H as ->. by rewrite Nat.add_0_r. }
  rewrite Nat.add_succ_r, <- Nat.add_succ_l. destruct st; [done|..];
    (destruct (lex_string _ c) eqn:E; [done|..]); apply IH; done.
Qed.

Lemma index_token_literal token i html s t :
  index_token_loop token Plain i (json_quote html s +:+ t)
  = index_token_loop token Plain (i + String.length (json_quote html s)) t.
Proof.
  rewrite json_quote_split. cbn [index_token_loop]. change (code quote =? 34) with true. cbv iota.
  rewrite index_token_stays by (done || apply stays_escape). simpl. f_equal.
  rewrite str_length_app. simpl. lia.
Qed.

Definition slex_of (st : lex) : slex :=
  match st with Plain => SPlain | InString => SString | Escaped => SEscaped end.

Lemma statement_stays st s t : stays st s = Some InString -> st <> Plain ->
  statement_loop (slex_of st) (s +:+ t) = statement_loop SString t.
Proof.
  revert st. induction s as [|c s IH]; intros st H Hst; simpl in *; [by injection H as ->|].
  destruct st; [done|..]; cbn [lex_string slex_of] in *; [|apply (IH InString); done].
  destruct (code c =? 92); [by apply (IH Escaped)|].
  destruct (code c =? 34); [done|]. by apply (IH InString).
Qed.

Lemma statement_literal html s t :
  statement_loop SPlain (json_quote html s +:+ t) = statement_loop SPlain t.
Proof.
  rewrite json_quote_split. cbn [statement_loop]. change (code quote =? 34) with true. cbv iota.
  rewrite (statement_stays InString) by (done || apply stays_escape). done.
Qed.

(** ** Values *)

(** A visible byte that no scanner looks for. *)
Definition bare_byte (c : ascii) : bool :=
  visible c && negb (bool_decide (code c ∈ [34; 40; 41; 44; 58; 59; 96])).

Definition all_bytes (f : ascii -> bool) (s : string) : bool :=
  forallb f (String.list_ascii_of_string s).

Lemma all_bytes_app f s t : all_bytes f (s +:+ t) = all_bytes f s && all_bytes f t.
Proof. unfold all_bytes. by rewrite list_of_str_app, forallb_app. Qed.

Lemma all_bytes_impl (f g : ascii -> bool) s : (forall c, f c = true -> g c = true) ->
  all_bytes f s = true -> all_bytes g s = true.
Proof. unfold all_bytes. rewrite !forallb_forall. eauto. Qed.

(** What the renderer writes for a value: a literal, or bare text. *)
Inductive value_text : string -> Prop :=
| VLiteral s : value_text (json_quote false s)
| VBare s : s <> "" -> all_bytes bare_byte s = true -> value_text s.

Lemma all_visible_tight s : s <> "" -> all_bytes bare_byte s = true -> tight s = true.
Proof.
  intros Hs Hb. unfold tight. apply andb_true_iff. split.
  - destruct s as [|c s]; [done|]. simpl in *. unfold all_bytes in Hb. simpl in Hb.
    apply andb_true_iff in Hb as [Hc _]. by apply andb_true_iff in Hc as [Hc _].
  - assert (Hr : str_rev s <> "").
    { intros E. apply Hs. rewrite <- (str_rev_involutive s), E. done. }
    destruct (str_rev s) as [|c t] eqn:E; [done|]. simpl.
    unfold all_bytes in Hb. rewrite forallb_forall in Hb.
    assert (Hin : In c (String.list_ascii_of_string s)).
    { rewrite <- (str_rev_involutive s), E. unfold str_rev.
      rewrite String.list_ascii_of_string_of_list_ascii. apply in_rev. rewrite rev_involutive. by left. }
    specialize (Hb c Hin). by apply andb_true_iff in Hb as [Hb _].
Qed.

Lemma json_quote_tight html s : tight (json_quote html s) = true.
Proof. unfold json_quote. change (String quote ?x) with (String quote "" +:+ x). by apply tight_app. Qed.

Lemma value_text_tight s : value_text s -> tight s = true.
Proof. destruct 1; [apply json_quote_tight|by apply all_visible_tight]. Qed.

(** Decomposes a [bare_byte] hypothesis on the first byte of a string. *)
Lemma bare_cons c s : all_bytes bare_byte (String c s) = true ->
  all_bytes bare_byte s = true /\ code c <> 34 /\ code c <> 40 /\ code c <> 41 /\ code c <> 44 /\
  code c <> 58 /\ code c <> 59 /\ code c <> 96.
Proof.
  unfold all_bytes, bare_byte. simpl. intros [[_ H]%andb_true_iff Hs]%andb_true_iff.
  breflect. set_solver.
Qed.

Lemma code_ne c d : code c <> code d -> c <> d.
Proof. by intros H ->. Qed.

Lemma split_bare d cur s t : all_bytes bare_byte s = true ->
  split_loop "," Plain d cur (s +:+ t)
  = split_loop "," Plain d (rev (String.list_ascii_of_string s) ++ cur) t.
Proof.
  revert cur. induction s as [|c s IH]; intros cur H; [done|].
  apply bare_cons in H as (Hs & ?). cbn [String.append split_loop].
  rewrite !(proj2 (Z.eqb_neq _ _)) by tauto.
  rewrite bool_decide_eq_false_2 by (apply code_ne; tauto). simpl. rewrite IH by done.
  by rewrite <- app_assoc.
Qed.

Lemma statement_bare s t : all_bytes bare_byte s = true ->
  statement_loop SPlain (s +:+ t) = statement_loop SPlain t.
Proof.
  induction s as [|c s IH]; intros H; [done|].
  apply bare_cons in H as (Hs & ?). cbn [String.append statement_loop].
  rewrite !(proj2 (Z.eqb_neq _ _)) by tauto. by apply IH.
Qed.

Lemma split_value d cur s t : value_text s ->
  split_loop "," Plain d cur (s +:+ t)
  = split_loop "," Plain d (rev (String.list_ascii_of_string s) ++ cur) t.
Proof. destruct 1; [apply split_literal|by apply split_bare]. Qed.

Lemma statement_value s t : value_text s -> statement_loop SPlain (s +:+ t) = statement_loop SPlain t.
Proof. destruct 1; [apply statement_literal|by apply statement_bare]. Qed.

(** *** Lists of values *)

(** Inside parentheses the separators are ordinary bytes. *)
Lemma split_values_nested d cur l t : 0 < d -> Forall value_text l ->
  split_loop "," Plain d cur (Join l ", " +:+ t)
  = split_loop "," Plain d (rev (String.list_ascii_of_string (Join l ", ")) ++ cur) t.
Proof.
  intros Hd. revert cur. induction l as [|x [|y l] IH]; intros cur Hl; [done|..].
  - apply Forall_cons in Hl as [Hx _]. by apply split_value.
  - apply Forall_cons in Hl as [Hx Hl]. rewrite Join_cons2, !str_app_assoc, split_value by done.
    cbn [String.append split_loop]. rewrite (proj2 (Z.eqb_neq d 0)) by lia.
    change (code "," =? 34) with false. change (code "," =? 40) with false.
    change (code "," =? 41) with false. change (code " " =? 34) with false.
    change (code " " =? 40) with false. change (code " " =? 41) with false.
    rewrite !andb_false_r. cbv iota. rewrite IH by done. f_equal.
    rewrite !list_of_str_app, !rev_app_distr. simpl. by rewrite <- !app_assoc.
Qed.

Lemma statement_values l t : Forall value_text l ->
  statement_loop SPlain (Join l ", " +:+ t) = statement_loop SPlain t.
Proof.
  induction l as [|x [|y l] IH]; intros Hl; [done|..].
  - apply Forall_cons in Hl as [Hx _]. by apply statement_value.
  - apply Forall_cons in Hl as [Hx Hl]. rewrite Join_cons2, !str_app_assoc, statement_value by done.
    cbn [String.append statement_loop]. apply IH, Hl.
Qed.

(** A part of a list: tight, and scanned as a whole at depth 0. *)
Definition whole_part (p : string) : Prop :=
  tight p = true /\ forall cur t,
    split_loop "," Plain 0 cur (p +:+ t)
    = split_loop "," Plain 0 (rev (String.list_ascii_of_string p) ++ cur) t.

Lemma value_whole p : value_text p -> whole_part p.
Proof. intros H. split; [by apply value_text_tight|]. intros. by apply split_value. Qed.

Lemma part_text_pad b p : tight p = true ->
  part_text (rev (String.list_ascii_of_string p) ++ (if b : bool then [" "%char] else [])) = p.
Proof.
  intros Hp. unfold part_text. rewrite rev_app_distr, rev_involutive. destruct b; simpl.
  - rewrite String.string_of_list_ascii_of_string. by apply tight_TrimSpace_pad.
  - rewrite String.string_of_list_ascii_of_string. by apply tight_TrimSpace.
Qed.

Lemma split_parts b l : l <> [] -> Forall whole_part l ->
  split_loop "," Plain 0 (if b : bool then [" "%char] else []) (Join l ", ") = Ok l.
Proof.
  revert b. induction l as [|x [|y l] IH]; intros b Hne Hl; [done|..].
  - apply Forall_cons in Hl as [[Ht Hx] _]. cbn [Join String.concat].
    rewrite <- (str_app_nil_r x) at 1. rewrite Hx. cbn [split_loop].
    rewrite part_text_pad by done. cbn. rewrite (proj2 (str_eqb_false x "")); [done|].
    by apply tight_nonempty.
  - apply Forall_cons in Hl as [[Ht Hx] Hl]. rewrite Join_cons2, Hx.
    cbn [String.append split_loop].
    change (code "," =? 34) with false. change (code "," =? 40) with false.
    change (code "," =? 41) with false. change (code " " =? 34) with false.
    change (code " " =? 40) with false. change (code " " =? 41) with false.
    cbv iota. rewrite part_text_pad by done. cbn [andb bool_decide decide].
    rewrite (proj2 (str_eqb_false x "")) by (by apply tight_nonempty).
    specialize (IH true ltac:(done) Hl). cbn in IH |- *. by rewrite IH.
Qed.

Lemma splitTopLevel_parts l : l <> [] -> Forall whole_part l ->
  splitTopLevel (Join l ", ") "," = Ok l.
Proof. apply (split_parts false). Qed.


(** Rendering of graph statements: chunks cover the input, every value is one
    literal or bare text, and what is rendered decodes to what was given. *)
(** ** Chunks *)

Section Chunks.
Context {A : Type}.

Lemma chunks_concat fuel size (l : list A) : (0 < size)%nat -> (length l <= fuel)%nat ->
  concat (chunks fuel size l) = l.
Proof.
  intros Hs. revert l. induction fuel as [|n IH]; intros l Hl; [by destruct l; simpl in *; [|lia]|].
  destruct l as [|x l]; [done|]. cbn [chunks concat].
  rewrite IH; [by apply firstn_skipn|]. rewrite length_skipn. simpl in *. lia.
Qed.

Lemma chunks_sizes fuel size (l : list A) : (0 < size)%nat ->
  Forall (fun c => c <> [] /\ (length c <= size)%nat) (chunks fuel size l).
Proof.
  intros Hs. revert l. induction fuel as [|n IH]; intros l; [constructor|].
  destruct l as [|x l]; [constructor|]. cbn [chunks]. constructor; [|apply IH]. split.
  - destruct size; [lia|done].
  - rewrite length_firstn. lia.
Qed.

Lemma chunkArray_concat (l : list A) size : concat (chunkArray l size) = l.
Proof.
  unfold chunkArray. destruct (size <=? 0) eqn:E.
  - destruct l; simpl; [done|]. by rewrite app_nil_r.
  - apply chunks_concat; lia.
Qed.

Lemma chunkArray_nonempty (l : list A) size : Forall (fun c => c <> []) (chunkArray l size).
Proof.
  unfold chunkArray. destruct (size <=? 0) eqn:E; [destruct l; by repeat constructor|].
  eapply Forall_impl; [apply chunks_sizes; lia|]. simpl. tauto.
Qed.

Lemma chunkArray_bounded (l : list A) size : 0 < size ->
  Forall (fun c => (length c <= Z.to_nat size)%nat) (chunkArray l size).
Proof.
  intros Hs. unfold chunkArray. rewrite (proj2 (Z.leb_gt size 0)) by done.
  eapply Forall_impl; [apply chunks_sizes; lia|]. simpl. tauto.
Qed.
End Chunks.

(** ** Numbers *)

(** The bytes of numbers. *)
Definition number_byte (c : ascii) : bool := is_digit c || bool_decide (c ∈ ["-"; "+"; "."; "e"]%char).

Lemma number_bare c : number_byte c = true -> bare_byte c = true.
Proof. by destruct c as [[] [] [] [] [] [] [] []]. Qed.

Lemma Itoa_number z : all_bytes number_byte (Itoa z) = true.
Proof.
  unfold all_bytes. apply forallb_forall. intros c Hc.
  pose proof (Itoa_bytes z) as H. rewrite Forall_forall in H.
  specialize (H c (proj2 (list_elem_of_In _ _) Hc)).
  assert (E : forallb number_byte itoa_bytes = true) by done.
  rewrite forallb_forall in E. apply E. by apply list_elem_of_In.
Qed.

Lemma Itoa_nonempty z : Itoa z <> "".
Proof. destruct (Itoa_head z) as (c & s & -> & _). done. Qed.

Lemma all_bytes_str_take f n s : all_bytes f s = true -> all_bytes f (str_take n s) = true.
Proof.
  revert s. induction n as [|n IH]; intros s; [done|]. destruct s as [|c s]; [done|].
  unfold all_bytes in *. simpl. rewrite !andb_true_iff. naive_solver.
Qed.

Lemma all_bytes_str_drop f n s : all_bytes f s = true -> all_bytes f (str_drop n s) = true.
Proof.
  revert s. induction n as [|n IH]; intros s; [done|]. destruct s as [|c s]; [done|].
  unfold all_bytes in *. simpl. rewrite !andb_true_iff. naive_solver.
Qed.

Lemma zeros_number n : all_bytes number_byte (zeros n) = true.
Proof. induction n; [done|]. unfold all_bytes in *. simpl. done. Qed.

(** A finite float is given by decimal digits, zero by none. *)
Definition float_ok (f : float64) : Prop :=
  match f with
  | FFinite _ ds dp => all_bytes is_digit ds = true /\ (ds = "" -> dp = 0)
  | _ => True
  end.

Definition prim_ok (v : CodeGraphPrimitive) : Prop :=
  match v with
  | PString s => valid_utf8 s = true
  | PFloat f => float_ok f
  | _ => True
  end.

Lemma digits_number s : all_bytes is_digit s = true -> all_bytes number_byte s = true.
Proof. apply all_bytes_impl. intros c Hc. unfold number_byte. by rewrite Hc. Qed.

Lemma str_app_nonempty_r s t : t <> "" -> s +:+ t <> "".
Proof. by destruct s. Qed.

Lemma fmtE_number ds dp : all_bytes is_digit ds = true ->
  fmtE ds dp <> "" /\ all_bytes number_byte (fmtE ds dp) = true.
Proof.
  intros Hd%digits_number. unfold fmtE. split.
  { destruct ds as [|c [|d ds]]; done. }
  rewrite !all_bytes_app. rewrite Itoa_number, andb_true_r.
  destruct ((if ds =s "" then 0 else dp - 1) <? 0), (Z.abs _ <? 10); simpl; rewrite !andb_true_r;
    destruct ds as [|c [|d ds]]; try done; unfold all_bytes in *; simpl in *; done.
Qed.

Lemma fmtF_number ds dp : all_bytes is_digit ds = true -> (ds = "" -> dp = 0) ->
  fmtF ds dp <> "" /\ all_bytes number_byte (fmtF ds dp) = true.
Proof.
  intros Hd%digits_number Hz. unfold fmtF. destruct (0 <? dp) eqn:Ep.
  - split.
    + destruct ds as [|c ds]; [specialize (Hz eq_refl); lia|].
      destruct (Z.to_nat dp) eqn:E; [lia|]. done.
    + rewrite !all_bytes_app, all_bytes_str_take, zeros_number by done. simpl.
      destruct (_ <? _)%nat; [|done]. by apply (all_bytes_str_drop number_byte).
  - destruct (ds =s ""); [done|]. split; [done|].
    change (all_bytes number_byte (zeros (Z.to_nat (- dp)) +:+ ds) = true).
    by rewrite all_bytes_app, zeros_number, Hd.
Qed.

Lemma formatFloat_bare f : float_ok f ->
  formatFloat f <> "" /\ all_bytes bare_byte (formatFloat f) = true.
Proof.
  destruct f as [|n|n ds dp]; simpl; [done..|]. intros [Hd Hz]. unfold FormatFloat_g.
  assert (H : exists t, (if (dp - 1 <? -4) || (6 <=? dp - 1) then fmtE ds dp else fmtF ds dp) = t /\
     t <> "" /\ all_bytes number_byte t = true).
  { eexists. split; [done|]. destruct (_ || _); [by apply fmtE_number|by apply fmtF_number]. }
  destruct H as (t & -> & Hne & Ht). split; [by apply str_app_nonempty_r|].
  apply (all_bytes_impl number_byte); [apply number_bare|]. rewrite all_bytes_app, Ht. by destruct n.
Qed.

(** ** Values *)

Lemma ngqlValue_text v : prim_ok v -> value_text (ngqlValue v).
Proof.
  destruct v as [|b|s|z|f|]; simpl; intros H; try (constructor; done).
  - by destruct b; constructor.
  - constructor; [apply Itoa_nonempty|].
    apply (all_bytes_impl number_byte); [apply number_bare|apply Itoa_number].
  - by constructor; apply formatFloat_bare.
Qed.

(** What the reader of a value sees: strings as they are, nothing for NULL. *)
Definition shown (v : CodeGraphPrimitive) : string :=
  match v with
  | PNil | POther | PFloat FNaN | PFloat (FInf _) => ""
  | PString s => s
  | _ => ngqlValue v
  end.

Lemma parse_json_quote html s : valid_utf8 s = true -> json_parse (json_quote html s) = Some (JStr s).
Proof.
  intros Hv. unfold json_parse.
  assert (H : forall n, parse_value (S n) 0 (json_quote html s) = Some (JStr s, "")).
  { intros n. unfold json_quote. cbn [parse_value skip_space].
    change (is_json_space quote) with false. cbv iota. change (code quote =? 34) with true.
    cbv iota. by rewrite unquote_json_quote. }
  rewrite Nat.add_comm. cbn [Nat.add]. by rewrite H.
Qed.

Lemma parseStringLiteral_quote html s : valid_utf8 s = true ->
  parseStringLiteral (json_quote html s) = Ok s.
Proof.
  intros Hv. unfold parseStringLiteral.
  assert (Hp : HasPrefix (json_quote html s) (String quote "") = true)
    by (apply HasPrefix_spec; by eexists).
  assert (Hs : HasSuffix (json_quote html s) (String quote "") = true).
  { apply HasSuffix_spec. unfold json_quote.
    exists (String quote (escape html (String.length s) s)). done. }
  rewrite Hp, Hs. simpl. by rewrite parse_json_quote.
Qed.

(** Folding an ASCII byte touches only that byte. *)
Lemma fold_key_head n c t : (code c <? 128) = true ->
  exists u, fold_key (S n) (String c t)
            = String (if byte_in 97 122 c then chr (code c - 32) else c) u.
Proof.
  intros Hc. cbn [fold_key]. destruct (byte_in 97 122 c); [by eexists|].
  destruct (HasPrefix (String c t) (bytes [197; 191]%nat)) eqn:E1.
  { apply HasPrefix_spec in E1 as [r E1]. injection E1 as -> _. done. }
  destruct (HasPrefix (String c t) (bytes [226; 132; 170]%nat)) eqn:E2; [|by eexists].
  apply HasPrefix_spec in E2 as [r E2]. injection E2 as -> _. done.
Qed.

Lemma decode_shown v : prim_ok v -> decodeRenderedValue (ngqlValue v) = shown v.
Proof.
  intros Hv. unfold decodeRenderedValue.
  rewrite tight_TrimSpace by (by apply value_text_tight, ngqlValue_text).
  assert (Hnum : forall t, t <> "" -> all_bytes number_byte t = true ->
    (if (t =s "") || EqualFold t "NULL" then ""
     else if HasPrefix t (String quote "")
          then match parseStringLiteral t with Ok d => d | Err _ => t end else t) = t).
  { intros [|c t] Hne Ht; [done|]. unfold all_bytes in Ht. simpl in Ht.
    apply andb_true_iff in Ht as [Hc _]. rewrite (proj2 (str_eqb_false _ _)) by done.
    destruct (HasPrefix (String c t) (String quote "")) eqn:E.
    { rewrite HasPrefix_cons in E. apply bool_decide_eq_true in E as ->. done. }
    assert (EqualFold (String c t) "NULL" = false) as ->; [|done].
    unfold EqualFold, key_matches. apply str_eqb_false. cbn [String.length].
    destruct (fold_key_head (String.length t) c t) as [u ->].
    { clear -Hc. by destruct c as [[] [] [] [] [] [] [] []]. }
    change (fold_key 4 "NULL") with "NULL". intros [= E' _]. clear -Hc E'.
    by destruct c as [[] [] [] [] [] [] [] []]. }
  destruct v as [|b|s|z|f|]; cbn [ngqlValue shown]; try done.
  - by destruct b.
  - unfold jsonStringify. assert (Hp : HasPrefix (json_quote false s) (String quote "") = true)
      by (apply HasPrefix_spec; by eexists).
    rewrite Hp, parseStringLiteral_quote by done.
    assert (EqualFold (json_quote false s) "NULL" = false) as ->.
    { unfold json_quote, EqualFold, key_matches. apply str_eqb_false. cbn [String.length].
      destruct (fold_key_head (String.length (escape false (String.length s) s +:+ String quote ""))
                  quote (escape false (String.length s) s +:+ String quote "")) as [u ->]; done. }
    done.
  - apply Hnum; [apply Itoa_nonempty|apply Itoa_number].
  - destruct f as [|n|n ds dp]; [done..|]. destruct Hv as [Hd Hz]. cbn [formatFloat].
    apply Hnum; [by apply (formatFloat_bare (FFinite n ds dp))|].
    unfold FormatFloat_g. rewrite all_bytes_app. apply andb_true_iff. split; [by destruct n|].
    destruct (_ || _); [by apply fmtE_number|by apply fmtF_number].
Qed.


(** Rendered statements: the renderer's output is accepted and read back row by row,
    and whatever is accepted holds only rows of the scope it was sent for. *)
(** ** Pieces of a row *)

Lemma str_take_app s t : str_take (String.length s) (s +:+ t) = s.
Proof. induction s; simpl; [by destruct t|]. by f_equal. Qed.

Lemma str_drop_app_add s n t : str_drop (String.length s + n) (s +:+ t) = str_drop n t.
Proof. induction s; simpl; done. Qed.

Lemma index_bare i s t : all_bytes bare_byte s = true ->
  index_loop ":" Plain i (s +:+ t) = index_loop ":" Plain (i + String.length s) t.
Proof.
  revert i. induction s as [|c s IH]; intros i H; simpl; [by rewrite Nat.add_0_r|].
  apply bare_cons in H as (Hs & ?). rewrite (proj2 (Z.eqb_neq _ _)) by tauto.
  rewrite bool_decide_eq_false_2 by (apply code_ne; tauto). rewrite IH by done. f_equal. lia.
Qed.

(** Text every scanner runs over without stopping. *)
Record skips (s : string) : Prop := {
  skips_index : forall i t, index_loop ":" Plain i (s +:+ t)
                            = index_loop ":" Plain (i + String.length s) t;
  skips_split : forall d cur t, split_loop "," Plain d cur (s +:+ t)
    = split_loop "," Plain d (rev (String.list_ascii_of_string s) ++ cur) t;
  skips_statement : forall t, statement_loop SPlain (s +:+ t) = statement_loop SPlain t
}.

Lemma skips_value s : value_text s -> skips s.
Proof.
  intros H. split; intros; [|by apply split_value|by apply statement_value].
  destruct H; [apply index_literal|by apply index_bare].
Qed.

Lemma skips_app s t : skips s -> skips t -> skips (s +:+ t).
Proof.
  intros Hs Ht. split; intros; rewrite str_app_assoc.
  - rewrite (skips_index _ Hs), (skips_index _ Ht), str_length_app. f_equal. lia.
  - rewrite (skips_split _ Hs), (skips_split _ Ht), list_of_str_app, rev_app_distr.
    by rewrite <- app_assoc.
  - by rewrite (skips_statement _ Hs), (skips_statement _ Ht).
Qed.

(** A row: what it is about, and its values. *)
Definition row_text (h : string) (vals : list string) : string :=
  h +:+ ": " +:+ "(" +:+ Join vals ", " +:+ ")".

Section Row.
Context (h : string) (vals : list string).
Context (Hh : skips h) (Hhead : tight h = true) (Hvals : Forall value_text vals) (Hne : vals <> []).

Lemma row_tight : tight (row_text h vals) = true.
Proof.
  unfold row_text. rewrite <- (str_app_assoc ": "), <- (str_app_assoc _ (Join vals ", ")).
  apply tight_app; [|done]. by apply andb_true_iff in Hhead as [? _].
Qed.

Lemma row_whole : whole_part (row_text h vals).
Proof.
  split; [apply row_tight|]. intros cur t. unfold row_text.
  rewrite !str_app_assoc, (skips_split _ Hh). cbn [String.append split_loop].
  change (code ":" =? 34) with false. change (code ":" =? 40) with false.
  change (code ":" =? 41) with false. change (code " " =? 34) with false.
  change (code " " =? 40) with false. change (code " " =? 41) with false.
  change (code "(" =? 34) with false. change (code "(" =? 40) with true. cbn [andb].
  rewrite !(bool_decide_eq_false_2 (_ = ","%char)) by done. cbn [andb].
  rewrite split_values_nested by (done || lia). cbn [split_loop].
  change (code ")" =? 34) with false. change (code ")" =? 40) with false.
  change (code ")" =? 41) with true. cbv iota. change (0 + 1 - 1 <? 0) with false. cbv iota.
  change (0 + 1 - 1) with 0. f_equal. rewrite !list_of_str_app. cbn. rewrite list_of_str_app.
  rewrite !rev_app_distr. cbn. rewrite rev_app_distr. cbn. by rewrite <- !app_assoc.
Qed.

Lemma row_statement t : statement_loop SPlain (row_text h vals +:+ t) = statement_loop SPlain t.
Proof.
  unfold row_text. rewrite !str_app_assoc, (skips_statement _ Hh). cbn [String.append statement_loop].
  by rewrite statement_values.
Qed.

Lemma row_index : indexOutside (row_text h vals) ":" = Ok (String.length h).
Proof. unfold indexOutside, row_text. by rewrite (skips_index _ Hh). Qed.

Lemma row_head : str_take (String.length h) (row_text h vals) = h.
Proof. apply str_take_app. Qed.

Lemma tuple_tight : tight ("(" +:+ Join vals ", " +:+ ")") = true.
Proof. by apply tight_app. Qed.

Lemma row_values : parseInsertRowValues (row_text h vals) = Ok vals.
Proof.
  unfold parseInsertRowValues. rewrite row_index. cbn [rbind].
  replace (str_drop (S (String.length h)) (row_text h vals))
    with (String " " ("(" +:+ Join vals ", " +:+ ")")).
  2:{ unfold row_text. rewrite <- Nat.add_1_r. by rewrite str_drop_app_add. }
  rewrite tight_TrimSpace_pad by apply tuple_tight.
  assert (Hp : HasPrefix ("(" +:+ Join vals ", " +:+ ")") "(" = true)
    by (apply HasPrefix_spec; by eexists).
  assert (Hs : HasSuffix ("(" +:+ Join vals ", " +:+ ")") ")" = true).
  { apply HasSuffix_spec. exists ("(" +:+ Join vals ", "). by rewrite str_app_assoc. }
  rewrite Hp, Hs. cbn [negb orb]. change (str_drop 1 ("(" +:+ ?x)) with (str_drop 0 x).
  cbn [str_drop].
  unfold TrimSuffix. rewrite (proj2 (HasSuffix_spec _ _)) by (by eexists).
  rewrite str_rev_app. change (String.length ")") with (String.length (str_rev ")")).
  rewrite str_drop_app, str_rev_involutive.
  apply splitTopLevel_parts; [done|]. eapply Forall_impl; [exact Hvals|]. apply value_whole.
Qed.
End Row.

(** ** Insert statements *)

Section Insert.
Context (prefix : string) (rows : list string).
Context (Hprefix : forall t, statement_loop SPlain (prefix +:+ t) = statement_loop SPlain t)
        (Hvis : head_visible prefix = true).
Context (Hwhole : Forall whole_part rows)
        (Hskip : Forall (fun r => forall t, statement_loop SPlain (r +:+ t) = statement_loop SPlain t) rows)
        (Hne : rows <> []).

Definition insert_text : string := prefix +:+ Join rows ", " +:+ ";".

Lemma statement_rows t : statement_loop SPlain (Join rows ", " +:+ t) = statement_loop SPlain t.
Proof.
  clear Hwhole. induction rows as [|x [|y l] IH]; [done|..]; apply Forall_cons in Hskip as [Hx Hl].
  - apply Hx.
  - rewrite Join_cons2, !str_app_assoc, Hx. cbn [String.append statement_loop]. by apply IH.
Qed.

Lemma TrimSuffix_app s t : TrimSuffix (s +:+ t) t = s.
Proof.
  unfold TrimSuffix. rewrite (proj2 (HasSuffix_spec _ _)) by (by eexists).
  rewrite str_rev_app, <- (str_rev_length t), str_drop_app. apply str_rev_involutive.
Qed.

Lemma insert_single : validateSingleTerminatedStatement insert_text = None.
Proof.
  unfold validateSingleTerminatedStatement, insert_text. rewrite tight_TrimSpace.
  2:{ by apply tight_app. }
  rewrite str_eqb_refl. cbn [negb]. rewrite <- str_app_assoc.
  rewrite (proj2 (HasSuffix_spec _ _)) by (by eexists). cbn [negb].
  rewrite TrimSuffix_app, Hprefix, <- (str_app_nil_r (Join rows ", ")), statement_rows. done.
Qed.

Lemma insert_prefix : HasPrefix insert_text prefix = true.
Proof. apply HasPrefix_app. Qed.

Lemma insert_rows : parseInsertRows (insert_body insert_text prefix) = Ok rows.
Proof.
  unfold insert_body, insert_text. rewrite TrimPrefix_app, TrimSuffix_app.
  unfold parseInsertRows. rewrite splitTopLevel_parts by done. cbn.
  by rewrite bool_decide_eq_false_2.
Qed.
End Insert.

Lemma vertexPrefix_skip t : statement_loop SPlain (vertexPrefix +:+ t) = statement_loop SPlain t.
Proof. vm_compute. reflexivity. Qed.

Lemma edgePrefix_skip t : statement_loop SPlain (edgePrefix +:+ t) = statement_loop SPlain t.
Proof. vm_compute. reflexivity. Qed.

(** An edge insert is no vertex insert. *)
Lemma edge_not_vertex rows : HasPrefix (insert_text edgePrefix rows) vertexPrefix = false.
Proof.
  unfold insert_text. generalize (Join rows ", " +:+ ";"). intros t. vm_compute. reflexivity.
Qed.

(** ** Vertex ids *)

Definition colon_free (s : string) : Prop := ":"%char ∉ String.list_ascii_of_string s.

(** The ids of a scope: prefix, kind and a 128-bit key in hexadecimal. *)
Definition scoped_vid (input : RenderedStatementWrite) (kind vid : string) : Prop :=
  exists key, vid = vid_prefix input +:+ kind +:+ ":" +:+ key /\ colon_free kind /\
    String.length key = 32%nat /\ isLowerHex key = true.

Lemma CutByte_app c a b : c ∉ String.list_ascii_of_string a ->
  CutByte c (a +:+ String c b) = Some (a, b).
Proof.
  induction a as [|d a IH]; simpl; intros Ha.
  - by rewrite bool_decide_eq_true_2.
  - rewrite bool_decide_eq_false_2 by set_solver. rewrite IH; [done|set_solver].
Qed.

Lemma CutByte_Some c s a b : CutByte c s = Some (a, b) ->
  s = a +:+ String c b /\ c ∉ String.list_ascii_of_string a.
Proof.
  revert a b. induction s as [|d s IH]; intros a b; simpl; [done|].
  case_bool_decide as E; [intros [= <- <-]; subst; split; [done|set_solver]|].
  destruct (CutByte c s) as [[x y]|]; [|done]. intros [= <- <-].
  destruct (IH x y eq_refl) as [-> Hx]. split; [done|]. simpl. set_solver.
Qed.

Lemma lower_hex_colon key : isLowerHex key = true -> Contains key ":" = false.
Proof.
  intros H. destruct (Contains key ":") eqn:E; [|done]. apply Contains_spec in E as (a & b & ->).
  unfold isLowerHex in H. apply andb_true_iff in H as [_ H]. rewrite forallb_forall in H.
  specialize (H ":"%char). rewrite !list_of_str_app in H. discriminate H.
  apply in_or_app. right. apply in_or_app. left. by left.
Qed.

Lemma validateScopedVID_ok vid expected input :
  validateScopedVID vid expected input = None <->
  exists kind, kind <> "" /\ (expected = "" \/ kind = expected) /\ scoped_vid input kind vid.
Proof.
  unfold validateScopedVID. split.
  - destruct (HasPrefix vid (vid_prefix input)) eqn:Ep; [|done]. cbn [negb].
    apply HasPrefix_spec in Ep as [r ->]. rewrite TrimPrefix_app.
    destruct (CutByte ":" r) as [[kind key]|] eqn:Ec; [|done].
    apply CutByte_Some in Ec as [-> Hk].
    destruct (negb (expected =s "") && negb (kind =s expected)) eqn:E1; [done|].
    destruct ((expected =s "") && (kind =s "")) eqn:E2; [done|].
    destruct (Contains key ":"); [done|].
    destruct (negb (String.length key =? 32)%nat || negb (isLowerHex key)) eqn:E3; [done|].
    intros _. apply orb_false_iff in E3 as [E3 E4]. apply negb_false_iff, Nat.eqb_eq in E3.
    apply negb_false_iff in E4. exists kind. breflect. split_and!.
    + intros ->. destruct E2 as [E2|E2], E1 as [E1|E1]; try done.
    + destruct E1 as [E1|E1]; auto.
    + by exists key.
  - intros (kind & Hne & Hk & key & -> & Hc & Hl & Hx).
    rewrite HasPrefix_app, TrimPrefix_app. cbn [negb].
    change (":" +:+ key) with (String ":" key). rewrite CutByte_app by done.
    rewrite (proj2 (str_eqb_false kind "")), andb_false_r by done.
    assert (negb (expected =s "") && negb (kind =s expected) = false) as ->.
    { destruct Hk as [->| ->]; [done|]. by rewrite str_eqb_refl, andb_false_r. }
    by rewrite lower_hex_colon, Hl, Hx.
Qed.

(** ** The scope of a row *)

(** The columns that name the scope, as values. *)
Definition scope_prims (input : RenderedStatementWrite) : list (string * CodeGraphPrimitive) :=
  [("orgId", PInt (rw_OrgID input)); ("workspaceId", PString (rw_WorkspaceID input));
   ("repoId", PInt (rw_RepoID input)); ("revision", PString (rw_Revision input));
   ("commitHash", PString (rw_CommitHash input)); ("schemaVersion", PInt (rw_SchemaVersion input));
   ("builderVersion", PString (rw_BuilderVersion input))].

Lemma scope_wants_prims input :
  scope_wants input = map (fun kv => (kv.1, ngqlValue kv.2)) (scope_prims input).
Proof. done. Qed.

Lemma scope_want_Some input prop e : scope_want input prop = Some e ->
  exists v, (prop, v) ∈ scope_prims input /\ e = ngqlValue v.
Proof.
  unfold scope_want. destruct (List.find _ _) as [[k w]|] eqn:E; [|done]. intros [= <-].
  apply List.find_some in E as [Hin Hk]. simpl in Hk. apply str_eqb_spec in Hk as ->.
  rewrite scope_wants_prims in Hin. apply list_elem_of_In, list_elem_of_fmap in Hin as ([k v] & E & Hin).
  injection E as -> ->. eauto.
Qed.

Lemma scope_want_prim input prop v : (prop, v) ∈ scope_prims input ->
  scope_want input prop = Some (ngqlValue v).
Proof.
  unfold scope_prims. intros H.
  repeat (apply elem_of_cons in H as [H|H]; [injection H as -> ->; reflexivity|]).
  by apply not_elem_of_nil in H.
Qed.

(** The loop accepts exactly the rows whose scope columns are right. *)
Lemma scope_loop_ok input pvs :
  scope_loop input pvs = None <->
  forall prop value expected, (prop, value) ∈ pvs -> scope_want input prop = Some expected ->
    TrimSpace value = expected.
Proof.
  induction pvs as [|[p v] rest IH]; simpl; [split; [set_solver|done]|].
  destruct (scope_want input p) as [e|] eqn:E.
  - destruct (TrimSpace v =s e) eqn:Ev; breflect.
    + rewrite IH. set_unfold. naive_solver.
    + split; [done|]. intros H. destruct Ev. eapply H; [|exact E]. left.
  - rewrite IH. set_unfold. naive_solver.
Qed.

Definition has_scope (input : RenderedStatementWrite) (m : gmap string CodeGraphPrimitive) : Prop :=
  Forall (fun kv => prop_of m kv.1 = kv.2) (scope_prims input).

Definition props_text (props : list string) (m : gmap string CodeGraphPrimitive) : list string :=
  map (fun p => ngqlValue (prop_of m p)) props.

Lemma zip_map_elem {A B} (f : A -> B) (l : list A) x y : (x, y) ∈ zip l (map f l) -> y = f x /\ x ∈ l.
Proof.
  induction l as [|a l IH]; simpl; [set_solver|].
  intros [H|H]%elem_of_cons; [injection H as -> ->; set_solver|]. set_solver.
Qed.

Section Props.
Context (input : RenderedStatementWrite) (m : gmap string CodeGraphPrimitive).
Context (Hok : forall p, prim_ok (prop_of m p)).

Lemma props_text_values props : Forall value_text (props_text props m).
Proof. apply Forall_fmap, Forall_forall. intros p _. by apply ngqlValue_text. Qed.

Lemma scope_values_ok props : has_scope input m ->
  validateScopeValues (props_text props m) props input = None.
Proof.
  intros Hs. unfold validateScopeValues, props_text. rewrite length_map, Nat.eqb_refl. cbn [negb].
  apply scope_loop_ok. intros prop value e Hin He.
  apply zip_map_elem in Hin as [-> _]. apply scope_want_Some in He as (v & Hv & ->).
  unfold has_scope in Hs. rewrite Forall_forall in Hs. specialize (Hs _ Hv). simpl in Hs.
  rewrite Hs. apply tight_TrimSpace, value_text_tight, ngqlValue_text. by rewrite <- Hs.
Qed.

(** The values as the reader shows them. *)
Definition shown_props (props : list string) : gmap string string :=
  list_to_map (map (fun p => (p, shown (prop_of m p))) props).

Lemma renderedProps_foldr ks vs : renderedProps ks vs
  = list_to_map (rev (map (fun kv => (kv.1, decodeRenderedValue kv.2)) (zip ks vs))).
Proof.
  unfold renderedProps. generalize (zip ks vs). intros l.
  induction l as [|[k v] l IH] using rev_ind; [done|].
  rewrite foldl_app, map_app, rev_app_distr. simpl. by rewrite IH.
Qed.

Lemma renderedProps_shown props : NoDup props ->
  renderedProps props (props_text props m) = shown_props props.
Proof.
  intros Hn. rewrite renderedProps_foldr. unfold shown_props, props_text.
  assert (E : map (fun kv => (kv.1, decodeRenderedValue kv.2))
                (zip props (map (fun p => ngqlValue (prop_of m p)) props))
              = map (fun p => (p, shown (prop_of m p))) props).
  { clear Hn. induction props as [|p l IH]; simpl; [done|]. by rewrite IH, decode_shown. }
  rewrite E. symmetry. apply list_to_map_proper.
  - by rewrite <- list_fmap_compose, list_fmap_id.
  - apply Permutation_rev.
Qed.
End Props.

Lemma NodeProps_NoDup : NoDup NodeProps.
Proof. apply (bool_decide_unpack _). vm_compute. exact I. Qed.

Lemma EdgeProps_NoDup : NoDup EdgeProps.
Proof. apply (bool_decide_unpack _). vm_compute. exact I. Qed.
