(* ===== verification/GraphScope.v ===== *)
(** The renderer and the reader of graph statements agree: a snapshot of one scope,
    rendered, is accepted by the writer's validation and read back unchanged; and
    whatever the validation accepts carries the scope of its message. *)
From Stdlib Require Import Ascii DecimalString DecimalZ.
From Stdlib Require Import Ascii.
From S2P Require Import Prelude GoStd GoStdFacts GoJSON GoJSONFacts GoText Sha256 GraphSchema GraphStore.
From S2P Require Import GraphStoreFacts.
(** ** Snapshots of one scope *)

Record vertex_ok (input : RenderedStatementWrite) (v : CodeGraphVertex) : Prop := {
  vo_utf8 : valid_utf8 (vx_VID v) = true;
  vo_props : forall p, prim_ok (prop_of (vx_Properties v) p);
  vo_scope : has_scope input (vx_Properties v);
  vo_kind : exists kind, prop_of (vx_Properties v) "kind" = PString kind /\ kind <> "" /\
    scoped_vid input kind (vx_VID v)
}.

Record edge_ok (input : RenderedStatementWrite) (e : CodeGraphEdge) : Prop := {
  eo_from_utf8 : valid_utf8 (ed_FromVID e) = true;
  eo_to_utf8 : valid_utf8 (ed_ToVID e) = true;
  eo_props : forall p, prim_ok (prop_of (ed_Properties e) p);
  eo_scope : has_scope input (ed_Properties e);
  eo_from : exists kind, kind <> "" /\ scoped_vid input kind (ed_FromVID e);
  eo_to : exists kind, kind <> "" /\ scoped_vid input kind (ed_ToVID e);
  eo_rank : exists kind source, prop_of (ed_Properties e) "kind" = PString kind /\
    prop_of (ed_Properties e) "source" = PString source /\
    ed_Rank e = EdgeRank (ed_FromVID e +:+ "->" +:+ ed_ToVID e +:+ ":" +:+ kind +:+ ":" +:+ source)
}.

(** The rows as they are read back. *)
Definition shown_vertex (v : CodeGraphVertex) : RenderedVertexRow :=
  {| rv_VID := vx_VID v; rv_Props := shown_props (vx_Properties v) NodeProps |}.

Definition shown_edge (e : CodeGraphEdge) : RenderedEdgeRow :=
  {| re_FromVID := ed_FromVID e; re_ToVID := ed_ToVID e; re_Rank := Itoa (ed_Rank e);
     re_Props := shown_props (ed_Properties e) EdgeProps |}.

(** ** One vertex row *)

Section Vertex.
Context (input : RenderedStatementWrite) (v : CodeGraphVertex) (Hv : vertex_ok input v).

Let vals := props_text NodeProps (vx_Properties v).

Lemma vertex_row_shape : vertex_row_text v = row_text (json_quote false (vx_VID v)) vals.
Proof. done. Qed.

Lemma vertex_head : skips (json_quote false (vx_VID v)) /\ tight (json_quote false (vx_VID v)) = true.
Proof. split; [apply skips_value; constructor|apply json_quote_tight]. Qed.

Lemma vertex_values : Forall value_text vals /\ vals <> [].
Proof. split; [apply props_text_values, Hv|done]. Qed.

Lemma vertex_row_whole : whole_part (vertex_row_text v).
Proof. rewrite vertex_row_shape. apply row_whole; apply vertex_head || apply vertex_values. Qed.

Lemma vertex_row_statement t : statement_loop SPlain (vertex_row_text v +:+ t) = statement_loop SPlain t.
Proof. rewrite vertex_row_shape. apply row_statement; apply vertex_head || apply vertex_values. Qed.

Lemma vertex_row_valid : validate_row validateVertexRowIdentity NodeProps input (vertex_row_text v) = None.
Proof.
  unfold validate_row. rewrite vertex_row_shape.
  rewrite row_values by (apply vertex_head || apply vertex_values). cbn [err_of].
  assert (Hid : validateVertexRowIdentity (row_text (json_quote false (vx_VID v)) vals) vals input = None).
  { unfold validateVertexRowIdentity. rewrite row_index by apply vertex_head. cbn [err_of].
    rewrite row_head, tight_TrimSpace by apply json_quote_tight.
    rewrite parseStringLiteral_quote by apply Hv. cbn [err_of wrap_result].
    destruct (vo_kind _ _ Hv) as (kind & Hk & Hne & Hvid).
    unfold vals, props_text. cbn [NodeProps map]. rewrite Hk. cbn [ngqlValue]. unfold jsonStringify.
    assert (Hu : valid_utf8 kind = true) by (pose proof (vo_props _ _ Hv "kind") as H; by rewrite Hk in H).
    rewrite tight_TrimSpace, parseStringLiteral_quote by (done || apply json_quote_tight).
    cbn [err_of wrap_result]. apply validateScopedVID_ok. eauto. }
  rewrite Hid. apply scope_values_ok; apply Hv.
Qed.

Lemma vertex_row_parse : parseRenderedVertexRow (vertex_row_text v) = Ok (shown_vertex v).
Proof.
  unfold parseRenderedVertexRow. rewrite vertex_row_shape, row_index by apply vertex_head.
  cbn [rbind]. rewrite row_head, tight_TrimSpace by apply json_quote_tight.
  rewrite parseStringLiteral_quote by apply Hv. cbn [rbind].
  rewrite row_values by (apply vertex_head || apply vertex_values). cbn [rbind].
  unfold vals. rewrite renderedProps_shown by (apply Hv || apply NodeProps_NoDup). done.
Qed.
End Vertex.

(** ** One edge row *)

Lemma edgePropsIndex_source : edgePropsIndex "source" = 14.
Proof. reflexivity. Qed.

Lemma w32_small z : 0 <= w32 z < 2 ^ 32.
Proof. apply Z.mod_pos_bound. lia. Qed.

Lemma compress_small s b : Forall (fun w => 0 <= w < 2 ^ 32) (compress s b).
Proof.
  unfold compress. cbv zeta. match goal with |- Forall _ (zip_with _ _ ?t) => generalize t end.
  induction s as [|a s IH]; intros [|c l]; simpl; constructor; [apply w32_small|apply IH].
Qed.

Lemma digest_small bs : Forall (fun w => 0 <= w < 2 ^ 32) (foldl compress H0 bs).
Proof.
  induction bs as [|b bs _] using rev_ind; [repeat constructor; lia|].
  rewrite foldl_app. apply compress_small.
Qed.

Lemma EdgeRank_bounds input : 0 <= EdgeRank input <= 4294967295.
Proof.
  unfold EdgeRank, sha256_words. cbv zeta.
  match goal with |- context [foldl compress H0 ?bs] =>
    pose proof (digest_small bs) as H; destruct (foldl compress H0 bs) as [|w ws] end.
  - simpl. lia.
  - apply Forall_cons in H as [H _]. simpl. lia.
Qed.

Lemma ParseInt64_Itoa z : 0 <= z < 2 ^ 63 -> ParseInt64 (Itoa z) = Some z.
Proof.
  intros Hz. destruct (to_int_nonnil z) as [Hp _]. unfold ParseInt64, Itoa.
  destruct (Z.to_int z) as [d|d] eqn:E; cycle 1.
  { pose proof (DecimalZ.of_to z) as Ho. rewrite E in Ho. cbn [Z.of_int] in Ho.
    assert (0 <= Z.of_uint d) by (unfold Z.of_uint; lia).
    assert (Hzero : z = 0) by lia. rewrite Hzero in E. vm_compute in E. discriminate E. }
  assert (Ev : Z.of_uint d = z) by (pose proof (DecimalZ.of_to z) as Ho; by rewrite E in Ho).
  cbn [NilEmpty.string_of_int].
  assert (Hh : match NilEmpty.string_of_uint d with
               | String c s' => if code c =? 45 then (true, s') else if code c =? 43 then (false, s')
                                else (false, NilEmpty.string_of_uint d)
               | EmptyString => (false, NilEmpty.string_of_uint d) end
               = (false, NilEmpty.string_of_uint d)) by (destruct d; done).
  rewrite Hh. rewrite NilEmpty.usu, Ev.
  assert ((NilEmpty.string_of_uint d =s "") = false) as ->.
  { apply str_eqb_false. destruct d; done. }
  replace ((- 2 ^ 63 <=? z) && (z <? 2 ^ 63)) with true; [done|].
  symmetry. apply andb_true_iff. lia.
Qed.

Section Edge.
Context (input : RenderedStatementWrite) (e : CodeGraphEdge) (He : edge_ok input e).

Let vals := props_text EdgeProps (ed_Properties e).
Local Notation from := (json_quote false (ed_FromVID e)).
Local Notation to := (json_quote false (ed_ToVID e)).
Let target := from +:+ "->" +:+ to +:+ "@" +:+ Itoa (ed_Rank e).

Lemma edge_row_shape : edge_row_text e = row_text target vals.
Proof. unfold edge_row_text, row_text, target. by rewrite !str_app_assoc. Qed.

Lemma rank_value : value_text (Itoa (ed_Rank e)).
Proof. by apply (ngqlValue_text (PInt (ed_Rank e))). Qed.

Lemma edge_head : skips target /\ tight target = true.
Proof.
  split.
  - repeat (apply skips_app); apply skips_value; [apply VLiteral|by apply VBare|apply VLiteral|
      by apply VBare|apply rank_value].
  - pose proof (value_text_tight _ rank_value) as Hr. apply andb_true_iff in Hr as [_ Hr].
    unfold target. rewrite <- (str_app_assoc to), <- (str_app_assoc "->"). by apply tight_app.
Qed.

Lemma edge_values : Forall value_text vals /\ vals <> [].
Proof. split; [apply props_text_values, He|done]. Qed.

Lemma edge_arrow : indexTokenOutside target "->" = Ok (String.length from).
Proof. unfold indexTokenOutside, target. rewrite index_token_literal. done. Qed.

Lemma edge_take : str_take (String.length from) target = from.
Proof. apply str_take_app. Qed.

Lemma edge_drop : str_drop (String.length from + 2) target = to +:+ "@" +:+ Itoa (ed_Rank e).
Proof. unfold target. by rewrite str_drop_app_add. Qed.

Lemma edge_at : indexTokenOutside (to +:+ "@" +:+ Itoa (ed_Rank e)) "@" = Ok (String.length to).
Proof.
  unfold indexTokenOutside. rewrite index_token_literal. cbn [String.append index_token_loop].
  change (code "@" =? 34) with false. cbv iota. by rewrite HasPrefix_cons.
Qed.

Lemma edge_rank_text : TrimSpace (str_drop (S (String.length to)) (to +:+ "@" +:+ Itoa (ed_Rank e)))
  = Itoa (ed_Rank e).
Proof.
  rewrite <- Nat.add_1_r, str_drop_app_add. apply tight_TrimSpace, value_text_tight, rank_value.
Qed.

Lemma edge_row_whole : whole_part (edge_row_text e).
Proof. rewrite edge_row_shape. apply row_whole; apply edge_head || apply edge_values. Qed.

Lemma edge_row_statement t : statement_loop SPlain (edge_row_text e +:+ t) = statement_loop SPlain t.
Proof. rewrite edge_row_shape. apply row_statement; apply edge_head || apply edge_values. Qed.

Lemma edge_identity_valid : validateEdgeRowIdentity (row_text target vals) vals input = None.
Proof.
  unfold validateEdgeRowIdentity. rewrite row_index by apply edge_head. cbn [err_of].
  rewrite row_head, (tight_TrimSpace target) by apply edge_head.
  destruct (eo_rank _ _ He) as (kind & source & Hk & Hs & Hr).
  pose proof (eo_props _ _ He "kind") as Hku. rewrite Hk in Hku.
  pose proof (eo_props _ _ He "source") as Hsu. rewrite Hs in Hsu. simpl in Hku, Hsu.
  assert (Hv : vals = json_quote false kind :: tl vals) by (unfold vals, props_text; simpl; by rewrite Hk).
  assert (Hsrc : vals !! 14%nat = Some (json_quote false source))
    by (unfold vals, props_text; simpl; by rewrite Hs).
  rewrite Hv at 1. rewrite edge_arrow. cbn [err_of wrap_result].
  rewrite edge_drop, edge_at. cbn [err_of wrap_result]. rewrite edge_take.
  rewrite !str_take_app, !(tight_TrimSpace (json_quote _ _)) by apply json_quote_tight.
  rewrite !parseStringLiteral_quote by (done || apply He). cbn [err_of wrap_result].
  rewrite edge_rank_text, ParseInt64_Itoa by (rewrite Hr; pose proof (EdgeRank_bounds
    (ed_FromVID e +:+ "->" +:+ ed_ToVID e +:+ ":" +:+ kind +:+ ":" +:+ source)); lia).
  assert ((ed_Rank e <? 0) || (4294967295 <? ed_Rank e) = false) as ->.
  { rewrite Hr. apply orb_false_iff. pose proof (EdgeRank_bounds
      (ed_FromVID e +:+ "->" +:+ ed_ToVID e +:+ ":" +:+ kind +:+ ":" +:+ source)). lia. }
  rewrite edgePropsIndex_source. change (14 <? 0) with false. cbv iota.
  change (Z.to_nat 14) with 14%nat. rewrite Hsrc, tight_TrimSpace by apply json_quote_tight.
  rewrite parseStringLiteral_quote by done. cbn [err_of wrap_result].
  rewrite <- Hr, Z.eqb_refl. cbn [negb].
  destruct (eo_from _ _ He) as (k1 & ? & ?), (eo_to _ _ He) as (k2 & ? & ?).
  rewrite (proj2 (validateScopedVID_ok (ed_FromVID e) "" input)) by eauto.
  by rewrite (proj2 (validateScopedVID_ok (ed_ToVID e) "" input)) by eauto.
Qed.

Lemma edge_row_valid : validate_row validateEdgeRowIdentity EdgeProps input (edge_row_text e) = None.
Proof.
  unfold validate_row. rewrite edge_row_shape.
  rewrite row_values by (apply edge_head || apply edge_values). cbn [err_of].
  rewrite edge_identity_valid. apply scope_values_ok; apply He.
Qed.

Lemma edge_row_parse : parseRenderedEdgeRow (edge_row_text e) = Ok (shown_edge e).
Proof.
  unfold parseRenderedEdgeRow. rewrite edge_row_shape, row_index by apply edge_head.
  cbn [rbind]. rewrite row_head, (tight_TrimSpace target) by apply edge_head.
  rewrite edge_arrow. cbn [rbind]. rewrite edge_drop, edge_at. cbn [rbind].
  rewrite edge_take, str_take_app, !(tight_TrimSpace (json_quote _ _)) by apply json_quote_tight.
  rewrite !parseStringLiteral_quote by apply He. cbn [rbind].
  rewrite row_values by (apply edge_head || apply edge_values). cbn [rbind].
  rewrite edge_rank_text. unfold vals.
  rewrite renderedProps_shown by (apply He || apply EdgeProps_NoDup). done.
Qed.
End Edge.

(** ** Statements *)

Lemma vertex_insert_text vs : RenderVertexInsert vs = insert_text vertexPrefix (map vertex_row_text vs).
Proof. done. Qed.

Lemma edge_insert_text es : RenderEdgeInsert es = insert_text edgePrefix (map edge_row_text es).
Proof. done. Qed.

Lemma first_error_map {A B} (f : B -> option gerror) (g : A -> B) l :
  Forall (fun x => f (g x) = None) l -> first_error f (map g l) = None.
Proof. induction 1 as [|x l Hx _ IH]; simpl; [done|]. by rewrite Hx. Qed.

Lemma parse_rows_map {A B} (parse : string -> result gerror B) (g : A -> string) (h : A -> B) l :
  Forall (fun x => parse (g x) = Ok (h x)) l -> parse_rows parse (map g l) = Ok (map h l).
Proof. induction 1 as [|x l Hx _ IH]; simpl; [done|]. by rewrite Hx, IH. Qed.

Section Statements.
Context (input : RenderedStatementWrite).

Lemma vertex_statement vs i vc ec rest : vs <> [] -> Forall (vertex_ok input) vs ->
  validate_inserts input i vc ec (RenderVertexInsert vs :: rest)
  = validate_inserts input (i + 1) (vc + Z.of_nat (length vs)) ec rest.
Proof.
  intros Hne Hvs. cbn [validate_inserts]. rewrite vertex_insert_text.
  assert (Hm : map vertex_row_text vs <> []) by (by destruct vs).
  assert (Hw : Forall whole_part (map vertex_row_text vs)).
  { apply Forall_fmap. eapply Forall_impl; [exact Hvs|]. intros v Hv. by eapply vertex_row_whole. }
  assert (Hk : Forall (fun r => forall t, statement_loop SPlain (r +:+ t) = statement_loop SPlain t)
                 (map vertex_row_text vs)).
  { apply Forall_fmap. eapply Forall_impl; [exact Hvs|]. intros v Hv t. by eapply vertex_row_statement. }
  rewrite insert_single by (done || apply vertexPrefix_skip).
  rewrite insert_prefix. unfold validate_insert. rewrite insert_rows by done.
  rewrite first_error_map.
  2:{ eapply Forall_impl; [exact Hvs|]. intros v Hv. by apply vertex_row_valid. }
  cbn [rbind]. by rewrite length_map.
Qed.

Lemma edge_statement es i vc ec rest : es <> [] -> Forall (edge_ok input) es ->
  validate_inserts input i vc ec (RenderEdgeInsert es :: rest)
  = validate_inserts input (i + 1) vc (ec + Z.of_nat (length es)) rest.
Proof.
  intros Hne Hes. cbn [validate_inserts]. rewrite edge_insert_text.
  assert (Hm : map edge_row_text es <> []) by (by destruct es).
  assert (Hw : Forall whole_part (map edge_row_text es)).
  { apply Forall_fmap. eapply Forall_impl; [exact Hes|]. intros e He. by eapply edge_row_whole. }
  assert (Hk : Forall (fun r => forall t, statement_loop SPlain (r +:+ t) = statement_loop SPlain t)
                 (map edge_row_text es)).
  { apply Forall_fmap. eapply Forall_impl; [exact Hes|]. intros e He t. by eapply edge_row_statement. }
  rewrite insert_single by (done || apply edgePrefix_skip).
  rewrite edge_not_vertex, insert_prefix. unfold validate_insert. rewrite insert_rows by done.
  rewrite first_error_map.
  2:{ eapply Forall_impl; [exact Hes|]. intros e He. by apply edge_row_valid. }
  cbn [rbind]. by rewrite length_map.
Qed.

Lemma vertex_extract vs rest : vs <> [] -> Forall (vertex_ok input) vs ->
  extract_rows (RenderVertexInsert vs :: rest)
  = let? ve := extract_rows rest in Ok (map shown_vertex vs ++ ve.1, ve.2).
Proof.
  intros Hne Hvs. cbn [extract_rows]. rewrite vertex_insert_text, insert_prefix, insert_rows.
  - cbn [rbind]. rewrite (parse_rows_map _ _ shown_vertex); [done|].
    eapply Forall_impl; [exact Hvs|]. intros v Hv. by eapply vertex_row_parse.
  - apply Forall_fmap. eapply Forall_impl; [exact Hvs|]. intros v Hv. by eapply vertex_row_whole.
  - by destruct vs.
Qed.

Lemma edge_extract es rest : es <> [] -> Forall (edge_ok input) es ->
  extract_rows (RenderEdgeInsert es :: rest)
  = let? ve := extract_rows rest in Ok (ve.1, map shown_edge es ++ ve.2).
Proof.
  intros Hne Hes. cbn [extract_rows].
  rewrite edge_insert_text, edge_not_vertex, insert_prefix, insert_rows.
  - cbn [rbind]. rewrite (parse_rows_map _ _ shown_edge); [done|].
    eapply Forall_impl; [exact Hes|]. intros e He. by eapply edge_row_parse.
  - apply Forall_fmap. eapply Forall_impl; [exact Hes|]. intros e He. by eapply edge_row_whole.
  - by destruct es.
Qed.

Lemma edge_statements css i vc ec :
  Forall (fun c => c <> []) css -> Forall (edge_ok input) (concat css) ->
  validate_inserts input i vc ec (map RenderEdgeInsert css)
  = Ok (vc, ec + Z.of_nat (length (concat css))) /\
  extract_rows (map RenderEdgeInsert css) = Ok ([], map shown_edge (concat css)).
Proof.
  revert i ec. induction css as [|es css IH]; intros i ec Hne Hok.
  { split; [|done]. simpl. by rewrite Z.add_0_r. }
  apply Forall_cons in Hne as [Hes Hne]. cbn [concat] in Hok. apply Forall_app in Hok as [Ho1 Ho2].
  cbn [map concat]. rewrite edge_statement, edge_extract by done.
  destruct (IH (i + 1) (ec + Z.of_nat (length es)) Hne Ho2) as [-> ->]. cbn [rbind].
  rewrite map_app, length_app, Nat2Z.inj_add. split; [do 2 f_equal; lia|done].
Qed.

Lemma vertex_statements css i vc ec rest ve :
  Forall (fun c => c <> []) css -> Forall (vertex_ok input) (concat css) ->
  extract_rows rest = Ok ve ->
  validate_inserts input i vc ec (map RenderVertexInsert css ++ rest)
  = validate_inserts input (i + Z.of_nat (length css)) (vc + Z.of_nat (length (concat css))) ec rest /\
  extract_rows (map RenderVertexInsert css ++ rest)
  = Ok (map shown_vertex (concat css) ++ ve.1, ve.2).
Proof.
  intros Hne Hok Hve. revert i vc Hne Hok. induction css as [|vs css IH]; intros i vc Hne Hok.
  { simpl. rewrite !Z.add_0_r, Hve. by destruct ve. }
  apply Forall_cons in Hne as [Hvs Hne]. cbn [concat] in Hok. apply Forall_app in Hok as [Ho1 Ho2].
  cbn [map concat app]. rewrite vertex_statement, vertex_extract by done.
  destruct (IH (i + 1) (vc + Z.of_nat (length vs)) Hne Ho2) as [-> ->]. cbn [rbind fst snd].
  rewrite map_app, length_app, Nat2Z.inj_add, <- app_assoc. split; [|done].
  cbn [length]. f_equal; lia.
Qed.
End Statements.

Lemma schema_mismatch_app i l rest : schema_mismatch i l (l ++ rest) = None.
Proof. revert i. induction l; intros i; simpl; [done|]. by rewrite str_eqb_refl. Qed.

Lemma rendered_roundtrip input snapshot batchSize :
  rw_Statements input = RenderSnapshotStatementsWithBatchSize snapshot batchSize ->
  validateRenderedScope input = None ->
  Forall (vertex_ok input) (sn_Vertices snapshot) ->
  Forall (edge_ok input) (sn_Edges snapshot) ->
  ValidateRenderedStatementWrite input
  = Ok (Z.of_nat (length (sn_Vertices snapshot)), Z.of_nat (length (sn_Edges snapshot))) /\
  ExtractRenderedRows input
  = Ok (map shown_vertex (sn_Vertices snapshot), map shown_edge (sn_Edges snapshot)).
Proof.
  intros Hs Hscope Hvs Hes.
  set (size := if batchSize <=? 0 then snapshotBatchSize else batchSize).
  set (vcs := chunkArray (sn_Vertices snapshot) size). set (ecs := chunkArray (sn_Edges snapshot) size).
  assert (Hst : rw_Statements input = RenderSchemaStatements
            ++ map RenderVertexInsert vcs ++ map RenderEdgeInsert ecs) by done.
  destruct (edge_statements input ecs (7 + Z.of_nat (length vcs))
              (0 + Z.of_nat (length (concat vcs))) 0) as [Ev Ex];
    [apply chunkArray_nonempty|unfold ecs; by rewrite chunkArray_concat|].
  destruct (vertex_statements input vcs 7 0 0 (map RenderEdgeInsert ecs) _
              (chunkArray_nonempty _ _)
              ltac:(unfold vcs; by rewrite chunkArray_concat) Ex) as [Vv Vx].
  assert (Hvalid : ValidateRenderedStatementWrite input
    = Ok (Z.of_nat (length (sn_Vertices snapshot)), Z.of_nat (length (sn_Edges snapshot)))).
  { unfold ValidateRenderedStatementWrite, validateRenderedStatements. rewrite Hscope, Hst.
    rewrite (proj2 (Nat.ltb_ge _ _)) by (rewrite length_app; lia).
    rewrite schema_mismatch_app, drop_app_length. change (Z.of_nat (length RenderSchemaStatements)) with 7.
    rewrite Vv, Ev. unfold vcs, ecs. by rewrite !chunkArray_concat. }
  split; [done|]. unfold ExtractRenderedRows. rewrite Hvalid. cbn [rbind].
  rewrite Hst, drop_app_length, Vx. cbn [fst snd]. unfold vcs, ecs.
  by rewrite !chunkArray_concat, app_nil_r.
Qed.

(** C9: a snapshot survives the trip through statement text.  A snapshot whose rows
    carry the scope they are sent for, rendered in batches of any size, passes
    the writer's validation with the right counts, and the rows read from the
    text are the vertices and edges of the snapshot, every property included. *)
Theorem snapshot_roundtrip input snapshot batchSize :
  rw_Statements input = RenderSnapshotStatementsWithBatchSize snapshot batchSize ->
  validateRenderedScope input = None ->
  Forall (vertex_ok input) (sn_Vertices snapshot) ->
  Forall (edge_ok input) (sn_Edges snapshot) ->
  ValidateRenderedStatementWrite input
  = Ok (Z.of_nat (length (sn_Vertices snapshot)), Z.of_nat (length (sn_Edges snapshot))) /\
  ExtractRenderedRows input
  = Ok (map shown_vertex (sn_Vertices snapshot), map shown_edge (sn_Edges snapshot)).
Proof. apply rendered_roundtrip. Qed.


(** Isolation of graph writes: whatever the validation accepts holds only rows of
    the scope it was sent for, and writes of different scopes share no vertex. *)
(** ** Values *)

Lemma decode_trimmed raw t : TrimSpace raw = t -> tight t = true ->
  decodeRenderedValue raw = decodeRenderedValue t.
Proof. intros H Ht. unfold decodeRenderedValue. by rewrite H, (tight_TrimSpace t). Qed.

(** A value that parses as a literal is decoded to it. *)
Lemma decode_literal raw s : parseStringLiteral (TrimSpace raw) = Ok s -> decodeRenderedValue raw = s.
Proof.
  intros H. unfold decodeRenderedValue. rewrite H. unfold parseStringLiteral in H.
  destruct (HasPrefix (TrimSpace raw) (String quote "")) eqn:E; [|done].
  apply HasPrefix_spec in E as [r E]. rewrite E. cbn [String.append].
  rewrite (proj2 (str_eqb_false _ "")) by done. cbn [orb].
  assert (EqualFold (String quote r) "NULL" = false) as ->; [|done].
  unfold EqualFold, key_matches. apply str_eqb_false. cbn [String.length].
  by destruct (fold_key_head (String.length r) quote r) as [u ->].
Qed.

Lemma renderedProps_lookup ks vs i k v : NoDup ks -> length vs = length ks ->
  ks !! i = Some k -> vs !! i = Some v -> renderedProps ks vs !! k = Some (decodeRenderedValue v).
Proof.
  intros Hn Hl Hk Hv. rewrite renderedProps_foldr. apply elem_of_list_to_map_1.
  - assert (E : map fst (rev (map (fun kv => (kv.1, decodeRenderedValue kv.2)) (zip ks vs))) = rev ks).
    { rewrite map_rev, map_map. f_equal. apply fst_zip. lia. }
    change (fmap (M:=list) ?f ?l) with (map f l). rewrite E. by rewrite <- Permutation_rev.
  - rewrite list_elem_of_In, <- in_rev. apply list_elem_of_In, list_elem_of_fmap.
    exists (k, v). split; [done|]. apply list_elem_of_lookup. exists i.
    rewrite lookup_zip_with, Hk. simpl. by rewrite Hv.
Qed.

(** ** Rows *)

Lemma err_of_None {A} (r : result gerror A) k : err_of r k = None -> exists a, r = Ok a /\ k a = None.
Proof. destruct r; simpl; [eauto|done]. Qed.

Lemma wrap_result_Ok {A} pre (r : result gerror A) a : wrap_result pre r = Ok a -> r = Ok a.
Proof. by destruct r. Qed.

(** Opens the next step of a validation that went well. *)
Ltac vstep H a E :=
  apply err_of_None in H as (a & E & H); try apply wrap_result_Ok in E.

(** The scope columns of a row hold the scope. *)
Definition scope_columns (input : RenderedStatementWrite) (props : gmap string string) : Prop :=
  Forall (fun kv => props !! kv.1 = Some (shown kv.2)) (scope_prims input).

Definition vertex_scoped (input : RenderedStatementWrite) (r : RenderedVertexRow) : Prop :=
  scope_columns input (rv_Props r) /\
  exists kind shownKind, kind <> "" /\ rv_Props r !! "kind" = Some shownKind /\
    (shownKind = "" \/ kind = shownKind) /\ scoped_vid input kind (rv_VID r).

Definition edge_scoped (input : RenderedStatementWrite) (r : RenderedEdgeRow) : Prop :=
  scope_columns input (re_Props r) /\
  (exists kind, kind <> "" /\ scoped_vid input kind (re_FromVID r)) /\
  (exists kind, kind <> "" /\ scoped_vid input kind (re_ToVID r)) /\
  exists kind source, re_Props r !! "kind" = Some kind /\ re_Props r !! "source" = Some source /\
    ParseInt64 (re_Rank r)
    = Some (EdgeRank (re_FromVID r +:+ "->" +:+ re_ToVID r +:+ ":" +:+ kind +:+ ":" +:+ source)).

Section Rows.
Context (input : RenderedStatementWrite).
(** Text that was decoded from a message is valid UTF-8. *)
Context (Hutf8 : Forall (fun kv => prim_ok kv.2) (scope_prims input)).

Lemma scope_values_columns props values : NoDup props ->
  Forall (fun kv => kv.1 ∈ props) (scope_prims input) ->
  validateScopeValues values props input = None ->
  length values = length props /\ scope_columns input (renderedProps props values).
Proof.
  intros Hn Hall H. unfold validateScopeValues in H.
  destruct (length values =? length props)%nat eqn:El; [|done]. apply Nat.eqb_eq in El.
  split; [done|]. cbn [negb] in H. rewrite scope_loop_ok in H.
  apply Forall_forall. intros [k v] Hkv. cbn [fst snd].
  rewrite Forall_forall in Hall, Hutf8. specialize (Hall _ Hkv). specialize (Hutf8 _ Hkv).
  cbn [fst snd] in *. apply list_elem_of_lookup in Hall as [i Hi].
  destruct (lookup_lt_is_Some_2 values i) as [w Hw].
  { rewrite El. by eapply lookup_lt_Some. }
  rewrite (renderedProps_lookup _ _ i k w) by done. f_equal.
  assert (Ht : TrimSpace w = ngqlValue v).
  { apply (H k w); [|by apply scope_want_prim]. apply list_elem_of_lookup. exists i.
    rewrite lookup_zip_with, Hi. simpl. by rewrite Hw. }
  rewrite (decode_trimmed _ _ Ht) by (by apply value_text_tight, ngqlValue_text).
  by apply decode_shown.
Qed.

Lemma scope_in_NodeProps : Forall (fun kv => kv.1 ∈ NodeProps) (scope_prims input).
Proof. repeat (constructor; [apply (bool_decide_unpack _); vm_compute; exact I|]). constructor. Qed.

Lemma scope_in_EdgeProps : Forall (fun kv => kv.1 ∈ EdgeProps) (scope_prims input).
Proof. repeat (constructor; [apply (bool_decide_unpack _); vm_compute; exact I|]). constructor. Qed.

Lemma vertex_row_scoped row :
  validate_row validateVertexRowIdentity NodeProps input row = None ->
  exists r, parseRenderedVertexRow row = Ok r /\ vertex_scoped input r.
Proof.
  intros H. unfold validate_row in H. vstep H values Ev.
  destruct (validateVertexRowIdentity row values input) eqn:Hid; [done|].
  unfold validateVertexRowIdentity in Hid. vstep Hid idx Ei. vstep Hid vid Evid.
  destruct values as [|v0 vs] eqn:Evs; [done|]. rewrite <- Evs in *. vstep Hid kind Ek.
  apply validateScopedVID_ok in Hid as (k & Hk & Hexp & Hvid).
  apply scope_values_columns in H as [Hl Hc]; [|apply NodeProps_NoDup|apply scope_in_NodeProps].
  exists {| rv_VID := vid; rv_Props := renderedProps NodeProps values |}. split.
  - unfold parseRenderedVertexRow. rewrite Ei. cbn [rbind]. rewrite Evid. cbn [rbind].
    by rewrite Ev.
  - split; [done|]. exists k, kind. cbn [rv_Props rv_VID]. split_and!; try done.
    rewrite (renderedProps_lookup _ _ 0 _ v0); [|apply NodeProps_NoDup|done|done|by rewrite Evs].
    f_equal. by apply decode_literal.
Qed.

Lemma edge_row_scoped row :
  validate_row validateEdgeRowIdentity EdgeProps input row = None ->
  exists r, parseRenderedEdgeRow row = Ok r /\ edge_scoped input r.
Proof.
  intros H. unfold validate_row in H. vstep H values Ev.
  destruct (validateEdgeRowIdentity row values input) eqn:Hid; [done|].
  unfold validateEdgeRowIdentity in Hid. vstep Hid idx Ei.
  destruct values as [|v0 vs] eqn:Evs; [done|]. rewrite <- Evs in *.
  vstep Hid arrowI Ea. vstep Hid at_ Eat. vstep Hid from Ef. vstep Hid to Et.
  destruct (ParseInt64 _) as [rank|] eqn:Er; [|done].
  destruct ((rank <? 0) || _); [done|]. vstep Hid kind Ek.
  change (edgePropsIndex "source") with 14 in Hid. change (14 <? 0) with false in Hid. cbv iota in Hid.
  change (Z.to_nat 14) with 14%nat in Hid.
  destruct (values !! 14%nat) as [src|] eqn:Es; [|done]. vstep Hid source Esrc.
  destruct (rank =? _) eqn:Erank in Hid; [|done]. apply Z.eqb_eq in Erank. cbn [negb] in Hid.
  destruct (validateScopedVID from "" input) eqn:Hf; [done|].
  destruct (validateScopedVID to "" input) eqn:Ht; [done|].
  apply validateScopedVID_ok in Hf as (kf & Hkf & _ & Hfrom).
  apply validateScopedVID_ok in Ht as (kt & Hkt & _ & Hto).
  apply scope_values_columns in H as [Hl Hc]; [|apply EdgeProps_NoDup|apply scope_in_EdgeProps].
  eexists. split.
  - unfold parseRenderedEdgeRow. rewrite Ei. cbn [rbind]. rewrite Ea. cbn [rbind].
    rewrite Eat. cbn [rbind]. rewrite Ef. cbn [rbind]. rewrite Et. cbn [rbind]. by rewrite Ev.
  - split; [done|]. cbn [re_FromVID re_ToVID re_Props re_Rank].
    split; [eauto|]. split; [eauto|]. exists kind, source. split_and!.
    + rewrite (renderedProps_lookup _ _ 0 _ v0); [|apply EdgeProps_NoDup|done|done|by rewrite Evs].
      f_equal. by apply decode_literal.
    + rewrite (renderedProps_lookup _ _ 14 _ src); [|apply EdgeProps_NoDup|done|done|done].
      f_equal. by apply decode_literal.
    + by rewrite Er, Erank.
Qed.

Lemma rows_scoped {A} (identity : string -> list string -> RenderedStatementWrite -> option gerror)
    props (parse : string -> result gerror A) (P : A -> Prop) rows :
  (forall row, validate_row identity props input row = None -> exists r, parse row = Ok r /\ P r) ->
  first_error (validate_row identity props input) rows = None ->
  exists rs, parse_rows parse rows = Ok rs /\ length rs = length rows /\ Forall P rs.
Proof.
  intros Hrow. induction rows as [|row rows IH]; simpl; [by exists []|].
  destruct (validate_row identity props input row) eqn:E; [done|]. intros H.
  destruct (Hrow row E) as (r & -> & Hr), (IH H) as (rs & -> & Hl & Hrs). cbn [rbind].
  exists (r :: rs). split_and!; [done|simpl; lia|by constructor].
Qed.

Lemma inserts_scoped stmts i vc ec n m :
  validate_inserts input i vc ec stmts = Ok (n, m) ->
  exists vs es, extract_rows stmts = Ok (vs, es) /\
    n = vc + Z.of_nat (length vs) /\ m = ec + Z.of_nat (length es) /\
    Forall (vertex_scoped input) vs /\ Forall (edge_scoped input) es.
Proof.
  revert i vc ec. induction stmts as [|stmt stmts IH]; intros i vc ec H; cbn [validate_inserts] in H.
  { injection H as <- <-. exists [], []. cbn. split_and!; done || lia || constructor. }
  destruct (validateSingleTerminatedStatement stmt); [done|]. cbn [extract_rows].
  unfold validate_insert in H.
  destruct (HasPrefix stmt vertexPrefix) eqn:Ep; [|destruct (HasPrefix stmt edgePrefix) eqn:Eq; [|done]];
    (destruct (parseInsertRows _) as [rows|] eqn:Er; [|done]);
    (destruct (first_error _ rows) eqn:Ef; [done|]); cbn [rbind] in H |- *;
    destruct (IH _ _ _ H) as (vs & es & -> & -> & -> & Hvs & Hes).
  - destruct (rows_scoped _ _ _ _ _ vertex_row_scoped Ef) as (rs & -> & Hl & Hrs). cbn [rbind].
    exists (rs ++ vs), es. split_and!; [done|rewrite length_app; lia|done|by apply Forall_app|done].
  - destruct (rows_scoped _ _ _ _ _ edge_row_scoped Ef) as (rs & -> & Hl & Hrs). cbn [rbind].
    exists vs, (rs ++ es). split_and!; [done|done|rewrite length_app; lia|done|by apply Forall_app].
Qed.
End Rows.

(** C8: a write touches its own scope only.  Whatever statement text the validation
    accepts, the rows in it can be read, are as many as it counted, and every one
    of them carries the organisation, workspace, repository, revision, commit,
    schema and builder version of the message, has vertex ids built from them, and
    every edge has the rank computed from its ends, kind and source. *)
Theorem accepted_rows_scoped input n m :
  Forall (fun kv => prim_ok kv.2) (scope_prims input) ->
  ValidateRenderedStatementWrite input = Ok (n, m) ->
  exists vs es, ExtractRenderedRows input = Ok (vs, es) /\
    n = Z.of_nat (length vs) /\ m = Z.of_nat (length es) /\
    Forall (vertex_scoped input) vs /\ Forall (edge_scoped input) es.
Proof.
  intros Hu H. unfold ExtractRenderedRows. rewrite H. cbn [rbind].
  unfold ValidateRenderedStatementWrite, validateRenderedStatements in H.
  destruct (validateRenderedScope input); [done|]. destruct (_ <? _)%nat; [done|].
  destruct (schema_mismatch _ _ _); [done|].
  by apply inserts_scoped in H as (vs & es & -> & -> & -> & ?); [exists vs, es|].
Qed.

(** ** Disjoint scopes *)

Definition lower_hex_byte (c : ascii) : bool := byte_in 48 57 c || byte_in 97 102 c.

Lemma hex_digit_lower z : 0 <= z < 16 -> lower_hex_byte (hex_digit z) = true.
Proof.
  intros Hz. assert (H : forallb (fun n => lower_hex_byte (hex_digit (Z.of_nat n))) (seq 0 16) = true) by done.
  rewrite forallb_forall in H. specialize (H (Z.to_nat z)). rewrite Z2Nat.id in H by lia.
  apply H, in_seq. lia.
Qed.

Lemma hex8_lower w : all_bytes lower_hex_byte (hex8 w) = true.
Proof.
  unfold all_bytes, hex8. rewrite String.list_ascii_of_string_of_list_ascii.
  apply forallb_forall. intros c Hc. apply in_map_iff in Hc as (i & <- & _). apply hex_digit_lower.
  change 15 with (Z.ones 4). rewrite Z.land_ones by lia. apply Z.mod_pos_bound. lia.
Qed.

Lemma sha256_hex_lower s : all_bytes lower_hex_byte (sha256_hex s) = true.
Proof.
  unfold sha256_hex. generalize (sha256_words (map code (String.list_ascii_of_string s))). intros ws.
  induction ws as [|w [|w' ws] IH]; [done|..].
  - apply hex8_lower.
  - cbn [map] in *. rewrite Join_cons2, !all_bytes_app, hex8_lower. simpl. exact IH.
Qed.

Lemma all_bytes_colon f s : f ":"%char = false -> all_bytes f s = true -> colon_free s.
Proof.
  intros Hf Hs Hin. unfold all_bytes in Hs. rewrite forallb_forall in Hs.
  specialize (Hs _ (proj1 (list_elem_of_In _ _) Hin)). congruence.
Qed.

Lemma hashParts_colon_free parts n : colon_free (hashParts parts n).
Proof.
  apply (all_bytes_colon lower_hex_byte); [done|]. unfold hashParts.
  destruct (n <? 0); [done|]. destruct (_ <? n); [apply sha256_hex_lower|].
  apply all_bytes_str_take, sha256_hex_lower.
Qed.

Lemma colon_free_cons c s : c <> ":"%char -> colon_free s -> colon_free (String c s).
Proof. unfold colon_free. simpl. set_solver. Qed.

Lemma Itoa_colon_free z : colon_free (Itoa z).
Proof. by apply Itoa_avoids. Qed.

(** Lists of colon-free parts are recovered from their text. *)
Lemma Join_colon_inj l1 l2 t1 t2 : length l1 = length l2 -> l1 <> [] ->
  Forall colon_free l1 -> Forall colon_free l2 ->
  Join l1 ":" +:+ String ":" t1 = Join l2 ":" +:+ String ":" t2 -> l1 = l2 /\ t1 = t2.
Proof.
  revert l2. induction l1 as [|x [|y l1] IH]; intros [|z [|w l2]] Hl Hne H1 H2 E; try done.
  - apply Forall_cons in H1 as [H1 _], H2 as [H2 _]. unfold Join in E. cbn [String.concat] in E.
    by apply str_first_split in E as [-> ->].
  - apply Forall_cons in H1 as [Hx H1], H2 as [Hz H2].
    rewrite !Join_cons2, !str_app_assoc in E. cbn [String.append] in E.
    apply str_first_split in E as [-> E]; [|done..].
    destruct (IH (w :: l2)) as [-> ->]; try done. simpl in *. lia.
Qed.

(** What a vertex id says about the scope of a message. *)
Definition scope_id (input : RenderedStatementWrite) : Z * string * Z * string * Z * string :=
  (rw_OrgID input, hashParts [rw_WorkspaceID input] 8, rw_RepoID input,
   str_take 12 (rw_CommitHash input), rw_SchemaVersion input, hashParts [rw_BuilderVersion input] 8).

Lemma commit_colon_free s : commitHashPattern s = true -> colon_free (str_take 12 s).
Proof.
  intros H. unfold commitHashPattern in H. apply andb_true_iff in H as [_ H].
  apply (all_bytes_colon is_hex); [done|]. by apply all_bytes_str_take.
Qed.

Lemma prefix_parts_free input : commitHashPattern (rw_CommitHash input) = true ->
  Forall colon_free ["cg"; "o" +:+ Itoa (rw_OrgID input); "w" +:+ hashParts [rw_WorkspaceID input] 8;
    "r" +:+ Itoa (rw_RepoID input); "c" +:+ str_take 12 (rw_CommitHash input);
    "s" +:+ Itoa (rw_SchemaVersion input); "b" +:+ hashParts [rw_BuilderVersion input] 8].
Proof.
  intros Hc. apply Forall_cons; split; [by apply (bool_decide_unpack _); vm_compute|].
  repeat (apply Forall_cons; split; [apply colon_free_cons; [done|]|]); try apply Forall_nil_2.
  all: auto using Itoa_colon_free, hashParts_colon_free, commit_colon_free.
Qed.

Lemma scoped_vid_scope i1 i2 k1 k2 vid :
  commitHashPattern (rw_CommitHash i1) = true -> commitHashPattern (rw_CommitHash i2) = true ->
  scoped_vid i1 k1 vid -> scoped_vid i2 k2 vid -> scope_id i1 = scope_id i2.
Proof.
  intros Hc1 Hc2 (key1 & -> & _) (key2 & E & _). unfold vid_prefix in E.
  rewrite !str_app_assoc in E. change (":" +:+ ?t) with (String ":" t) in E.
  apply Join_colon_inj in E as [E _]; [|done|done|..].
  - pose proof (fun n => f_equal (fun l => nth n l "") E) as Hn.
    pose proof (str_app_inv_head "o" _ _ (Hn 1%nat)) as Eo.
    pose proof (str_app_inv_head "w" _ _ (Hn 2%nat)) as Ew.
    pose proof (str_app_inv_head "r" _ _ (Hn 3%nat)) as Er.
    pose proof (str_app_inv_head "c" _ _ (Hn 4%nat)) as Ec.
    pose proof (str_app_inv_head "s" _ _ (Hn 5%nat)) as Es.
    pose proof (str_app_inv_head "b" _ _ (Hn 6%nat)) as Eb. unfold scope_id.
    by rewrite (Itoa_inj _ _ Eo), Ew, (Itoa_inj _ _ Er), Ec, (Itoa_inj _ _ Es), Eb.
  - by apply prefix_parts_free.
  - by apply prefix_parts_free.
Qed.

(** The vertex ids a list of rows mentions. *)
Definition row_vids (rows : list RenderedVertexRow * list RenderedEdgeRow) : list string :=
  map rv_VID rows.1 ++ map re_FromVID rows.2 ++ map re_ToVID rows.2.

Lemma scoped_row_vids input vs es vid :
  Forall (vertex_scoped input) vs -> Forall (edge_scoped input) es -> vid ∈ row_vids (vs, es) ->
  exists kind, scoped_vid input kind vid.
Proof.
  rewrite !Forall_forall. intros Hv He H. unfold row_vids in H. cbn [fst snd] in H.
  rewrite !elem_of_app, !list_elem_of_fmap in H. destruct H as [(r & -> & Hr)|[(r & -> & Hr)|(r & -> & Hr)]].
  - destruct (Hv r Hr) as [_ (k & _ & _ & _ & _ & Hk)]. eauto.
  - destruct (He r Hr) as (_ & (k & _ & Hk) & _). eauto.
  - destruct (He r Hr) as (_ & _ & (k & _ & Hk) & _). eauto.
Qed.

(** Tenants do not meet in the graph.  If two accepted messages mention the same
    vertex, as a vertex or as an end of an edge, they are about the same
    organisation, repository and schema version, the same first twelve digits of
    the commit, and workspaces and builders with the same hash. *)
Theorem graph_writes_isolated i1 i2 n1 m1 n2 m2 rows1 rows2 vid :
  Forall (fun kv => prim_ok kv.2) (scope_prims i1) ->
  Forall (fun kv => prim_ok kv.2) (scope_prims i2) ->
  ValidateRenderedStatementWrite i1 = Ok (n1, m1) -> ValidateRenderedStatementWrite i2 = Ok (n2, m2) ->
  ExtractRenderedRows i1 = Ok rows1 -> ExtractRenderedRows i2 = Ok rows2 ->
  vid ∈ row_vids rows1 -> vid ∈ row_vids rows2 -> scope_id i1 = scope_id i2.
Proof.
  assert (Hmain : forall i n m rows, Forall (fun kv => prim_ok kv.2) (scope_prims i) ->
    ValidateRenderedStatementWrite i = Ok (n, m) -> ExtractRenderedRows i = Ok rows ->
    vid ∈ row_vids rows ->
    commitHashPattern (rw_CommitHash i) = true /\ exists kind, scoped_vid i kind vid).
  { intros i n m rows Hu H Hr Hin. split.
    - unfold ValidateRenderedStatementWrite, validateRenderedStatements in H.
      destruct (validateRenderedScope i) eqn:E; [done|]. unfold validateRenderedScope in E.
      destruct (commitHashPattern (rw_CommitHash i)); [done|].
      repeat (destruct (_ <=? 0); [done|]). repeat (destruct (_ =s ""); [done|]). done.
    - unfold ExtractRenderedRows in Hr. rewrite H in Hr. cbn [rbind] in Hr.
      unfold ValidateRenderedStatementWrite, validateRenderedStatements in H.
      destruct (validateRenderedScope i); [done|]. destruct (_ <? _)%nat; [done|].
      destruct (schema_mismatch _ _ _); [done|].
      apply inserts_scoped in H as (vs & es & Hx & _ & _ & Hv & He); [|done].
      rewrite Hx in Hr. injection Hr as <-. by eapply scoped_row_vids. }
  intros U1 U2 V1 V2 R1 R2 I1 I2.
  destruct (Hmain _ _ _ _ U1 V1 R1 I1) as [C1 [k1 K1]], (Hmain _ _ _ _ U2 V2 R2 I2) as [C2 [k2 K2]].
  by eapply scoped_vid_scope.
Qed.
