(* ===== verification/GraphWrite.v ===== *)
(** What the graph writer does to the database: which statements are accepted, in
    which order and after how many calls; and that waiting for the graph space
    ends. *)
From Stdlib Require Import Ascii.
From S2P Require Import Prelude GoStd GoStdFacts GoJSON GoText Sha256 GraphSchema GraphStore GraphStoreFacts.
(** ** Effects *)

(** The statements of [calls] the database accepted, after [log]. *)
Fixpoint accepted (g : Graphd) (log calls : list string) : list string :=
  match calls with
  | [] => []
  | c :: rest =>
      (if is_ok (gd_answer g log c) then [c] else []) ++ accepted g (log ++ [c]) rest
  end.

Lemma accepted_app g log c1 c2 :
  accepted g log (c1 ++ c2) = accepted g log c1 ++ accepted g (log ++ c1) c2.
Proof.
  revert log. induction c1 as [|c c1 IH]; intros log; simpl; [by rewrite app_nil_r|].
  by rewrite IH, <- !app_assoc.
Qed.

(** At most [k] calls, of which exactly [acc] were accepted, lead from one log to
    the other. *)
Definition effect (g : Graphd) (log : list string) (acc : list string) (k : nat) (log' : list string)
  : Prop :=
  exists calls, log' = log ++ calls /\ accepted g log calls = acc /\ (length calls <= k)%nat.

Lemma effect_nil g log k : effect g log [] k log.
Proof. exists []. rewrite app_nil_r. split_and!; [done|done|simpl; lia]. Qed.

Lemma effect_trans g log a1 k1 log1 a2 k2 log2 k :
  effect g log a1 k1 log1 -> effect g log1 a2 k2 log2 -> (k1 + k2 <= k)%nat ->
  effect g log (a1 ++ a2) k log2.
Proof.
  intros (c1 & -> & <- & L1) (c2 & -> & <- & L2) Hk. exists (c1 ++ c2).
  rewrite accepted_app, length_app, app_assoc. split_and!; [done|done|lia].
Qed.

Lemma effect_weaken g log a k k' log' : effect g log a k log' -> (k <= k')%nat -> effect g log a k' log'.
Proof. intros (c & ? & ? & ?) ?. exists c. split_and!; done || lia. Qed.

Lemma effect_call g log stmt :
  effect g log (if is_ok (gd_answer g log stmt) then [stmt] else []) 1 (log ++ [stmt]).
Proof. exists [stmt]. simpl. rewrite app_nil_r. by split_and!. Qed.

Section Writer.
Context (s : NebulaCodeGraphStore).
Let g := ns_executor s.
Let sent (stmt : string) : string := ns_prefix s +:+ stmt.
Let n := Z.to_nat (rc_Attempts (ns_retry s)).

Lemma retry_effect k stmt log r log' : retry_loop s k stmt log = (r, log') ->
  effect g log (if is_ok r then [sent stmt] else []) k log'.
Proof.
  revert log. induction k as [|k IH]; intros log; cbn [retry_loop].
  { intros [= <- <-]. apply effect_nil. }
  unfold gbind, store_execute, Execute. pose proof (effect_call g log (sent stmt)) as Hc.
  unfold sent, g in Hc |- *. destruct (gd_answer _ _ _) as [rs|e]; cbn [is_ok] in Hc.
  - intros [= <- <-]. eapply effect_weaken; [exact Hc|lia].
  - assert (Hc' : effect (ns_executor s) log [] (S k) (log ++ [ns_prefix s +:+ stmt]))
      by (eapply effect_weaken; [exact Hc|lia]).
    destruct (_ || _); [intros [= <- <-]; exact Hc'|].
    destruct (gd_cancelled _ _); [intros [= <- <-]; exact Hc'|].
    intros H. apply IH in H. by apply (effect_trans _ _ [] 1 _ _ k _ (S k) Hc H).
Qed.

Lemma schema_retry_effect stmt log r log' : executeWithSchemaRetry s stmt log = (r, log') ->
  effect g log (if is_ok r then [sent stmt] else []) n log'.
Proof. apply retry_effect. Qed.

(** A list of statements: all are accepted in order, or some first ones. *)
Lemma all_effect wrap stmts log r log' :
  execute_all (executeWithSchemaRetry s) wrap stmts log = (r, log') ->
  exists done_, effect g log (map sent done_) (n * length stmts) log' /\ done_ `prefix_of` stmts /\
    (r = None -> done_ = stmts).
Proof.
  revert log. induction stmts as [|stmt stmts IH]; intros log; cbn [execute_all].
  { intros [= <- <-]. exists []. split_and!; [apply effect_nil|done|done]. }
  unfold gbind. destruct (executeWithSchemaRetry s stmt log) as [r1 log1] eqn:E.
  apply schema_retry_effect in E. destruct r1 as [rs|e]; cbn [is_ok] in E.
  - intros H. apply IH in H as (d & Hd & Hp & Hr). exists (stmt :: d). split_and!.
    + apply (effect_trans _ _ [sent stmt] n _ _ _ _ _ E Hd). simpl. lia.
    + by apply prefix_cons.
    + intros ->. by rewrite Hr.
  - intros [= <- <-]. exists []. split_and!; [|apply prefix_nil|done].
    eapply effect_weaken; [exact E|]. simpl. lia.
Qed.

(** The statements that prepare the schema. *)
Definition setup_statement (stmt : string) : Prop :=
  stmt ∈ RenderSchemaStatements ++ [RenderDescribeTagStatement; RenderDescribeEdgeStatement] \/
  (exists missing, missing <> [] /\ missing ⊆ NodeProps /\ stmt = RenderAlterTagAddStatement missing) \/
  (exists missing, missing <> [] /\ missing ⊆ EdgeProps /\ stmt = RenderAlterEdgeAddStatement missing).

Definition setup_effect (log : list string) (k : nat) (log' : list string) : Prop :=
  exists stmts, effect g log (map sent stmts) k log' /\ Forall setup_statement stmts.

Lemma setup_trans log k1 log1 k2 log2 k : setup_effect log k1 log1 -> setup_effect log1 k2 log2 ->
  (k1 + k2 <= k)%nat -> setup_effect log k log2.
Proof.
  intros (s1 & E1 & H1) (s2 & E2 & H2) Hk. exists (s1 ++ s2). split; [|by apply Forall_app].
  rewrite map_app. by eapply effect_trans.
Qed.

Lemma setup_call stmt log r log' : executeWithSchemaRetry s stmt log = (r, log') ->
  setup_statement stmt -> setup_effect log n log'.
Proof.
  intros H Hs. apply schema_retry_effect in H. destruct (is_ok r).
  - exists [stmt]. by split; [|constructor].
  - exists []. by split.
Qed.

Lemma missing_effect expected describe alter label log r log' :
  ensureMissingSchemaProperties s expected describe alter label log = (r, log') ->
  setup_statement describe ->
  (forall missing, missing <> [] -> missing ⊆ expected -> setup_statement (alter missing)) ->
  setup_effect log (n + n) log'.
Proof.
  intros H Hd Ha. unfold ensureMissingSchemaProperties, gbind in H.
  destruct (executeWithSchemaRetry s describe log) as [r1 log1] eqn:E.
  apply setup_call in E; [|done].
  assert (Hstop : setup_effect log (n + n) log1).
  { destruct E as (st & E & Hst). exists st. split; [|done]. eapply effect_weaken; [exact E|lia]. }
  destruct r1 as [rs|e]; [|by injection H as <- <-].
  case_bool_decide; [by injection H as <- <-|]. case_bool_decide as Hm; [by injection H as <- <-|].
  destruct (executeWithSchemaRetry s (alter _) log1) as [r2 log2] eqn:E2.
  apply setup_call in E2.
  - assert (log' = log2) as -> by (by destruct r2; injection H as <- <-).
    by apply (setup_trans _ _ _ _ _ _ E E2).
  - apply Ha; [done|]. intros x Hx. apply list_elem_of_In, filter_In in Hx as [Hx _].
    by apply list_elem_of_In.
Qed.

Lemma schema_effect log r log' : ensureSchema s log = (r, log') -> setup_effect log (n * 11) log'.
Proof.
  intros H. unfold ensureSchema, gbind in H.
  destruct (execute_all _ _ RenderSchemaStatements log) as [r1 log1] eqn:E1.
  apply all_effect in E1 as (d & E1 & Hp & _).
  assert (S1 : setup_effect log (n * 7) log1).
  { exists d. split; [exact E1|]. apply Forall_forall. intros x Hx. left. apply elem_of_app. left.
    destruct Hp as [rest ->]. set_solver. }
  destruct r1 as [e|].
  { injection H as <- <-. destruct S1 as (st & E & Hst). exists st. split; [|done].
    eapply effect_weaken; [exact E|lia]. }
  destruct (ensureMissingSchemaProperties s NodeProps _ _ _ log1) as [r2 log2] eqn:E2.
  apply missing_effect in E2; [|left; set_solver|intros; right; left; eauto].
  assert (S2 : setup_effect log (n * 9) log2) by (eapply setup_trans; [exact S1|exact E2|lia]).
  destruct r2 as [e|].
  { injection H as <- <-. destruct S2 as (st & E & Hst). exists st. split; [|done].
    eapply effect_weaken; [exact E|lia]. }
  apply missing_effect in H; [|left; set_solver|intros; right; right; eauto].
  eapply setup_trans; [exact S2|exact H|lia].
Qed.
End Writer.


(** ** Waiting for the space *)

Section Wait.
Context (g : Graphd) (poll : Z).
(** Between two readings of the clock the process sleeps at least [poll]. *)
Context (Hclock : forall log, gd_now g log + poll <= gd_now g (log ++ [use_space])).

Lemma wait_loop_ends fuel deadline timeout log :
  gd_now g log <= deadline -> deadline < gd_now g log + poll * Z.of_nat fuel ->
  exists r k, wait_loop g fuel deadline timeout log = (Some r, log ++ replicate (S k) use_space) /\
    (k < fuel)%nat /\
    (r = None -> is_ok (gd_answer g (log ++ replicate k use_space) use_space) = true).
Proof.
  revert log. induction fuel as [|n IH]; intros log Hle Hlt; [lia|].
  cbn [wait_loop]. unfold gbind, Execute.
  destruct (gd_answer g log use_space) as [rs|e] eqn:Ea.
  { eexists _, 0%nat. split_and!; [done|lia|]. simpl. by rewrite app_nil_r, Ea. }
  destruct (isSpaceNotFound e); cbn [negb]; [|by eexists _, 0%nat; split_and!; [|lia|]].
  destruct (deadline <? gd_now g (log ++ [use_space])) eqn:Ed;
    [by eexists _, 0%nat; split_and!; [|lia|]|].
  destruct (gd_cancelled g (log ++ [use_space])); [by eexists _, 0%nat; split_and!; [|lia|]|].
  pose proof (Hclock log). destruct (IH (log ++ [use_space])) as (r & k & Hw & Hk & Hr); [lia|lia|].
  exists r, (S k). rewrite Hw. split_and!; [by rewrite <- app_assoc|lia|].
  by rewrite <- app_assoc in Hr.
Qed.
End Wait.

Lemma execute_all_calls g (pre : string -> string) wrap stmts log r log' :
  execute_all (fun stmt => Execute g (pre stmt)) wrap stmts log = (r, log') ->
  exists done_, log' = log ++ map pre done_ /\ done_ `prefix_of` stmts /\ (r = None -> done_ = stmts).
Proof.
  revert log. induction stmts as [|stmt stmts IH]; intros log; cbn [execute_all].
  { intros [= <- <-]. exists []. by rewrite app_nil_r. }
  unfold gbind, Execute at 1. destruct (gd_answer g log (pre stmt)).
  - intros H. apply IH in H as (d & -> & Hp & Hr). exists (stmt :: d). rewrite <- app_assoc.
    split_and!; [done|by apply prefix_cons|]. intros ->. by rewrite Hr.
  - intros [= <- <-]. exists [stmt]. split_and!; [done|by apply prefix_cons, prefix_nil|done].
Qed.


(** Retiring a snapshot.  When the deletion reports no error, the ids the lookup
    of the scope returned have been deleted, each once and in order, in statements
    of at most 250 ids; a lookup that finds nothing is followed by no statement;
    and a failed lookup by none either. *)
Theorem retire_effect s input log err log' :
  nebula_MarkSnapshotForDeletion s input log = (err, log') ->
  let sent stmt := ns_prefix s +:+ stmt in
  let lookup := sent (RenderLookupSnapshotVerticesStatement input) in
  match gd_answer (ns_executor s) log lookup with
  | Err e => err = Some (EWrap "graphstore: LOOKUP for retirement: " e "") /\ log' = log ++ [lookup]
  | Ok rs =>
      exists batches calls, concat batches = extractVids rs /\
        Forall (fun b => b <> [] /\ (length b <= 250)%nat) batches /\
        log' = log ++ [lookup] ++ map sent calls /\
        calls `prefix_of` map (fun b => "DELETE VERTEX "
          +:+ Join (map (fun vid => ngqlValue (PString vid)) b) ", " +:+ " WITH EDGE;") batches /\
        (err = None -> length calls = length batches)
  end.
Proof.
  intros H sent lookup_. unfold nebula_MarkSnapshotForDeletion, gbind, store_execute at 1, Execute in H.
  change (ns_prefix s +:+ RenderLookupSnapshotVerticesStatement input) with lookup_ in H.
  destruct (gd_answer _ log lookup_) as [rs|e]; [|by unfold gret in H; injection H as <- <-].
  exists (chunkArray (extractVids rs) snapshotBatchSize).
  unfold store_execute in H. apply execute_all_calls in H as (d & -> & Hp & Hd). exists d.
  split_and!; [apply chunkArray_concat| |by rewrite <- app_assoc|done|].
  - pose proof (chunkArray_nonempty (extractVids rs) snapshotBatchSize) as H1.
    pose proof (chunkArray_bounded (extractVids rs) snapshotBatchSize) as H2.
    rewrite Forall_forall in H1, H2 |- *. intros b Hb. split; [by apply H1|]. apply (H2 ltac:(done)), Hb.
  - intros Hn. rewrite (Hd Hn). unfold RenderDeleteVerticesStatements. by rewrite length_map.
Qed.
