(* ===== verification/ScipProjection.v ===== *)
(** The projection of SCIP evidence to graph vertices and edges, the part of
    src/internal/backend/indexcore/handler.go that computes without the database:
    [buildSCIPSnapshot] and the functions on symbols and source lines below it.

    A null database integer ([sql.NullInt32]) is [None].  Where the code reads
    [*payload.WorkspaceID] its callers have checked the pointer; the slice of the
    commit hash in [codeGraphVID] needs twelve bytes, which [IndexCore] checks. *)
From Stdlib Require Import Ascii DecimalString DecimalZ.
From S2P Require Import Prelude GoStd GoStdFacts GoJSON GoText Sha256 SubjobTypes SubjobTask GraphSchema.
Definition defaultSchemaVersion : Z := 1.
Definition defaultBuilder : string := "codeintel-code-graph-v7".
Definition defaultSCIPGraphBatch : Z := 500.
Definition defaultSCIPOccurrenceCap : Z := 30000.
Definition defaultSCIPSymbolRoleCap : Z := 48.
Definition defaultSCIPFileCap : Z := 600.

(** ** Rows *)

Record scipSymbolProjection : Type := {
  ss_Symbol : string; ss_DisplayName : string; ss_Kind : string; ss_Language : string;
  ss_FilePath : string; ss_StartLine : option Z; ss_EndLine : option Z
}.

Record scipRelationshipProjection : Type := {
  sr_SourceSymbol : string; sr_TargetSymbol : string; sr_IsReference : bool;
  sr_IsImplementation : bool; sr_IsTypeDefinition : bool; sr_IsDefinition : bool;
  sr_SourceFile : string; sr_StartLine : option Z; sr_EndLine : option Z
}.

Record scipOccurrenceProjection : Type := {
  so_Symbol : string; so_FilePath : string; so_StartLine : option Z; so_EndLine : option Z;
  so_Role : string; so_SyntaxKind : string; so_LineContent : string; so_EnclosingSymbol : string
}.

(** ** Symbols and lines *)

Definition nonEmpty (value fallback : string) : string :=
  if TrimSpace value =s "" then fallback else value.

Fixpoint drop_while (f : ascii -> bool) (l : list ascii) : list ascii :=
  match l with
  | c :: l' => if f c then drop_while f l' else l
  | [] => []
  end.

Fixpoint take_while (f : ascii -> bool) (l : list ascii) : list ascii :=
  match l with
  | c :: l' => if f c then c :: take_while f l' else []
  | [] => []
  end.

(** The two loops run from the end of the symbol, so on its reverse: descriptor
    suffixes are dropped, then the bytes up to the last separator are kept. *)
Definition descriptor_suffix (c : ascii) : bool := bool_decide (c ∈ ["."; "#"; ")"; "("; "]"]%char).
Definition symbol_separator (c : ascii) : bool :=
  bool_decide (c ∈ ["/"; "#"; "."; " "; "("; "["; ":"]%char).

Definition scipDisplayNameFromSymbol (symbol : string) : string :=
  let trimmed := drop_while descriptor_suffix (rev (String.list_ascii_of_string (TrimSpace symbol))) in
  String.string_of_list_ascii (rev (take_while (fun c => negb (symbol_separator c)) trimmed)).

(** [scipQuotedSymbolRE], "`([^`]+)`": the text of the leftmost match.  At a
    backtick, the run of other bytes after it must not be empty and must end in a
    backtick. *)
Fixpoint quoted_match (s : string) : option string :=
  match s with
  | EmptyString => None
  | String c s' =>
      if code c =? 96 then
        match CutByte backtick s' with
        | Some (w, _) => if w =s "" then quoted_match s' else Some w
        | None => None
        end
      else quoted_match s'
  end.

(** [symbol[strings.LastIndex(symbol, "`")+1:]] *)
Definition after_last_backtick (s : string) : string := List.last (SplitByte backtick s) "".

Definition formatSCIPSymbolForEvidence (symbol0 : string) : string :=
  let symbol := TrimSpace symbol0 in
  if symbol =s "" then ""
  else match quoted_match symbol with
       | Some base =>
           let suffix := TrimSpace (after_last_backtick symbol) in
           if negb (suffix =s "") && negb (suffix =s "/") then base +:+ suffix else base
       | None => scipDisplayNameFromSymbol symbol
       end.

(** The loop over the occurrences of [symbolName] in the rest of the line, each
    round dropping at least one byte. *)
Fixpoint call_loop (fuel : nat) (symbolName rest : string) : bool :=
  match fuel with
  | O => false
  | S n =>
      match Index rest symbolName with
      | None => false
      | Some idx =>
          let after := str_drop (idx + String.length symbolName) rest in
          HasPrefix (TrimLeftRunes [" "; bytes [9]%nat] after) "(" || call_loop n symbolName after
      end
  end.

Definition looksLikeCallExpression (line symbolName : string) : bool :=
  if (symbolName =s "") || (line =s "") then false
  else call_loop (S (String.length line)) symbolName line.

Definition scipOccurrenceReferenceKind (occ : scipOccurrenceProjection) : string * string :=
  let syntaxKind := ToLower (TrimSpace (so_SyntaxKind occ)) in
  let line := TrimSpace (so_LineContent occ) in
  let symbolName := scipDisplayNameFromSymbol (so_Symbol occ) in
  if Contains syntaxKind "function" || looksLikeCallExpression line symbolName
  then ("CALLS", "call") else ("REFERENCES", "reference").

Definition looksLikeImportOccurrence (occ : scipOccurrenceProjection) : bool :=
  let line := TrimSpace (so_LineContent occ) in
  if line =s "" then false
  else
    let lower := ToLower line in
    if HasPrefix lower "import " || HasPrefix lower "from " || HasPrefix lower "require("
       || Contains lower " require(" then true
    else if Contains line (String quote "") && negb (Contains line "(") && negb (Contains line "=")
    then
      let symbol := ToLower (so_Symbol occ) in
      Contains symbol " gomod " || Contains symbol " npm " || Contains symbol " pypi "
      || Contains symbol " maven " || Contains line " "
    else false.

Record relationKind : Type := { rk_kind : string; rk_context : string }.

Definition scipRelationKinds (rel : scipRelationshipProjection) : list relationKind :=
  (if sr_IsReference rel then [{| rk_kind := "REFERENCES"; rk_context := "reference" |}] else [])
  ++ (if sr_IsImplementation rel then [{| rk_kind := "IMPLEMENTS"; rk_context := "inherits" |}] else [])
  ++ (if sr_IsTypeDefinition rel then [{| rk_kind := "TYPE_DEFINES"; rk_context := "type" |}] else [])
  ++ (if sr_IsDefinition rel then [{| rk_kind := "DEFINES"; rk_context := "definition" |}] else []).

(** ** Identity and properties *)

Definition hashParts (parts : list string) (n : nat) : string :=
  str_take n (sha256_hex (Join parts (String (chr 0) ""))).

Definition payload_ws (p : Payload) : string := coalesce "" (pl_WorkspaceID p).

Definition codeGraphVID (p : Payload) (kind key : string) : string :=
  let workspaceID := payload_ws p in
  let builderHash := hashParts [defaultBuilder] 8 in
  let keyHash := hashParts [Itoa (pl_OrgID p); workspaceID; Itoa (pl_RepoID p); pl_CommitHash p;
                            Itoa defaultSchemaVersion; defaultBuilder; kind; key] 32 in
  "cg:o" +:+ Itoa (pl_OrgID p) +:+ ":w" +:+ hashParts [workspaceID] 8 +:+ ":r"
  +:+ Itoa (pl_RepoID p) +:+ ":c" +:+ str_take 12 (pl_CommitHash p) +:+ ":s"
  +:+ Itoa defaultSchemaVersion +:+ ":b" +:+ builderHash +:+ ":" +:+ kind +:+ ":" +:+ keyHash.

Notation Props := (gmap string CodeGraphPrimitive).

(** [v == nil], or an empty string. *)
Definition dropped_value (v : CodeGraphPrimitive) : bool :=
  match v with PNil => true | PString s => s =s "" | _ => false end.

Definition scope_props (p : Payload) : list (string * CodeGraphPrimitive) :=
  [("orgId", PInt (pl_OrgID p)); ("workspaceId", PString (payload_ws p));
   ("repoId", PInt (pl_RepoID p)); ("revision", PString (pl_Revision p));
   ("commitHash", PString (pl_CommitHash p)); ("schemaVersion", PInt defaultSchemaVersion);
   ("builderVersion", PString defaultBuilder)].

(** The keys of a map literal are distinct, so the order of the range over [props]
    does not matter. *)
Definition scopedProps (p : Payload) (props : list (string * CodeGraphPrimitive)) : Props :=
  foldl (fun out kv => if dropped_value kv.2 then out else <[kv.1 := kv.2]> out)
    (list_to_map (scope_props p)) props.

(** [int64(value.Int32 + 1)], the sum in 32 bits. *)
Definition nullableOneBasedLine (value : option Z) : CodeGraphPrimitive :=
  match value with None => PNil | Some v => PInt (wrap32 (v + 1)) end.

Definition nullableInt32 (value : option Z) : CodeGraphPrimitive :=
  match value with None => PNil | Some v => PInt v end.

Definition conf95 : float64 := FFinite false "95" 0.
Definition conf90 : float64 := FFinite false "9" 0.

(** ** [buildSCIPSnapshot] *)

(** [seenVertices], [edges] and [seenEdges]. *)
Record Builder : Type := {
  b_vertices : gmap string CodeGraphVertex;
  b_edges : list CodeGraphEdge;
  b_seenEdges : gset string
}.

Definition b_empty : Builder := {| b_vertices := ∅; b_edges := []; b_seenEdges := ∅ |}.

Definition put_vertex (v : CodeGraphVertex) (b : Builder) : Builder :=
  {| b_vertices := <[vx_VID v := v]> (b_vertices b); b_edges := b_edges b;
     b_seenEdges := b_seenEdges b |}.

Definition symbol_vertex (p : Payload) (symbol : scipSymbolProjection) : CodeGraphVertex :=
  {| vx_VID := codeGraphVID p "symbol" (ss_Symbol symbol);
     vx_Kind := "symbol";
     vx_Properties := scopedProps p
       [("kind", PString "symbol"); ("key", PString (ss_Symbol symbol));
        ("label", PString (nonEmpty (ss_DisplayName symbol) (ss_Symbol symbol)));
        ("symbol", PString (ss_Symbol symbol)); ("symbolKind", PString (ss_Kind symbol));
        ("language", PString (ss_Language symbol)); ("path", PString (ss_FilePath symbol));
        ("evidenceFilePath", PString (ss_FilePath symbol));
        ("startLine", nullableOneBasedLine (ss_StartLine symbol));
        ("endLine", nullableOneBasedLine (ss_EndLine symbol));
        ("confidence", PFloat conf95); ("confidenceTier", PString "EXTRACTED");
        ("source", PString "scip"); ("provenance", PString "scip")] |}.

Definition bare_symbol_vertex (p : Payload) (symbol : string) : CodeGraphVertex :=
  {| vx_VID := codeGraphVID p "symbol" symbol;
     vx_Kind := "symbol";
     vx_Properties := scopedProps p
       [("kind", PString "symbol"); ("key", PString symbol); ("label", PString symbol);
        ("symbol", PString symbol); ("confidence", PFloat conf90);
        ("confidenceTier", PString "EXTRACTED"); ("source", PString "scip");
        ("provenance", PString "scip")] |}.

Definition file_vertex (p : Payload) (path : string) : CodeGraphVertex :=
  {| vx_VID := codeGraphVID p "file" path;
     vx_Kind := "file";
     vx_Properties := scopedProps p
       [("kind", PString "file"); ("key", PString path); ("label", PString path);
        ("path", PString path); ("evidenceFilePath", PString path);
        ("confidence", PFloat conf95); ("confidenceTier", PString "EXTRACTED");
        ("source", PString "scip"); ("provenance", PString "scip")] |}.

(** [if _, ok := seenVertices[vid]; !ok { ... }; return vid] *)
Definition ensure (v : CodeGraphVertex) (b : Builder) : Builder * string :=
  (match b_vertices b !! vx_VID v with Some _ => b | None => put_vertex v b end, vx_VID v).

Definition ensureSymbolVertex (p : Payload) (symbol : string) (b : Builder) : Builder * string :=
  ensure (bare_symbol_vertex p symbol) b.

Definition ensureFileVertex (p : Payload) (path : string) (b : Builder) : Builder * string :=
  ensure (file_vertex p path) b.

Definition edge_key (fromVID toVID kind : string) : string :=
  let zero := String (chr 0) "" in
  fromVID +:+ zero +:+ toVID +:+ zero +:+ kind +:+ zero +:+ "scip".

Definition scip_edge (p : Payload) (fromVID toVID kind context sourceFile : string)
    (startLine endLine : option Z) (confidence : float64) (normalizedKey : string) : CodeGraphEdge :=
  {| ed_FromVID := fromVID; ed_ToVID := toVID; ed_Kind := kind;
     ed_Rank := EdgeRank (fromVID +:+ "->" +:+ toVID +:+ ":" +:+ kind +:+ ":scip");
     ed_Properties := scopedProps p
       [("kind", PString kind); ("normalizedKey", PString normalizedKey);
        ("evidenceFilePath", PString sourceFile); ("startLine", nullableOneBasedLine startLine);
        ("endLine", nullableOneBasedLine endLine); ("confidence", PFloat confidence);
        ("confidenceTier", PString "EXTRACTED"); ("source", PString "scip");
        ("provenance", PString "scip"); ("context", PString context)] |}.

Definition addEdge (p : Payload) (fromVID toVID kind context sourceFile : string)
    (startLine endLine : option Z) (confidence : float64) (normalizedKey : string) (b : Builder)
  : Builder :=
  if (fromVID =s "") || (toVID =s "") || (kind =s "") then b
  else
    let key := edge_key fromVID toVID kind in
    if bool_decide (key ∈ b_seenEdges b) then b
    else {| b_vertices := b_vertices b;
            b_edges := b_edges b ++ [scip_edge p fromVID toVID kind context sourceFile startLine
                                       endLine confidence normalizedKey];
            b_seenEdges := {[ key ]} ∪ b_seenEdges b |}.

Definition add_relationship (p : Payload) (b : Builder) (rel : scipRelationshipProjection) : Builder :=
  let '(b1, fromVID) := ensureSymbolVertex p (sr_SourceSymbol rel) b in
  let '(b2, toVID) := ensureSymbolVertex p (sr_TargetSymbol rel) b1 in
  foldl (fun b item => addEdge p fromVID toVID (rk_kind item) (rk_context item) (sr_SourceFile rel)
           (sr_StartLine rel) (sr_EndLine rel) conf95
           (sr_SourceSymbol rel +:+ "->" +:+ sr_TargetSymbol rel) b)
    b2 (scipRelationKinds rel).

(** The edge of an import, from the file. *)
Definition add_import (p : Payload) (occ : scipOccurrenceProjection) (targetVID : string)
    (b : Builder) : Builder :=
  let sourcePath := TrimSpace (so_FilePath occ) in
  if sourcePath =s "" then b
  else
    let '(b1, fileVID) := ensureFileVertex p sourcePath b in
    addEdge p fileVID targetVID "IMPORTS" "import" sourcePath (so_StartLine occ) (so_EndLine occ)
      conf95 (sourcePath +:+ " imports " +:+ formatSCIPSymbolForEvidence (so_Symbol occ)) b1.

(** The edge of a call or a reference, from the enclosing symbol. *)
Definition add_reference (p : Payload) (occ : scipOccurrenceProjection) (targetVID : string)
    (b : Builder) : Builder :=
  let sourceSymbol := TrimSpace (so_EnclosingSymbol occ) in
  if (sourceSymbol =s "") || (sourceSymbol =s so_Symbol occ) then b
  else
    let '(kind, context) := scipOccurrenceReferenceKind occ in
    let '(b1, sourceVID) := ensureSymbolVertex p sourceSymbol b in
    addEdge p sourceVID targetVID kind context (so_FilePath occ) (so_StartLine occ) (so_EndLine occ)
      conf95 (formatSCIPSymbolForEvidence sourceSymbol +:+ " " +:+ kind +:+ " "
              +:+ formatSCIPSymbolForEvidence (so_Symbol occ)) b1.

Definition add_occurrence (p : Payload) (b : Builder) (occ : scipOccurrenceProjection) : Builder :=
  let '(b1, targetVID) := ensureSymbolVertex p (so_Symbol occ) b in
  let role := ToUpper (TrimSpace (so_Role occ)) in
  if role =s "IMPORT" then add_import p occ targetVID b1
  else if (role =s "REFERENCE") || (role =s "READ") then
    if looksLikeImportOccurrence occ then add_import p occ targetVID b1
    else add_reference p occ targetVID b1
  else b1.

Definition build (p : Payload) (symbols : list scipSymbolProjection)
    (relationships : list scipRelationshipProjection) (occurrences : list scipOccurrenceProjection)
  : Builder :=
  let b1 := foldl (fun b s => put_vertex (symbol_vertex p s) b) b_empty symbols in
  let b2 := foldl (add_relationship p) b1 relationships in
  foldl (add_occurrence p) b2 occurrences.

(** [order] is the order in which the range over the map [seenVertices] runs. *)
Definition buildSCIPSnapshot (order : list CodeGraphVertex -> list CodeGraphVertex) (p : Payload)
    (symbols : list scipSymbolProjection) (relationships : list scipRelationshipProjection)
    (occurrences : list scipOccurrenceProjection) : CodeGraphSnapshot :=
  let b := build p symbols relationships occurrences in
  {| sn_OrgID := pl_OrgID p; sn_WorkspaceID := payload_ws p; sn_RepoID := pl_RepoID p;
     sn_Revision := pl_Revision p; sn_CommitHash := pl_CommitHash p;
     sn_SchemaVersion := defaultSchemaVersion; sn_BuilderVersion := defaultBuilder;
     sn_Vertices := order (map snd (map_to_list (b_vertices b))); sn_Edges := b_edges b;
     sn_Anchors := [] |}.

(** ** Budgets, from the environment *)

Definition scipGraphBatchSize (getenv : string -> string) : Z :=
  let raw := TrimSpace (getenv "CODEINTEL_SCIP_GRAPH_NGQL_BATCH_SIZE") in
  if raw =s "" then defaultSCIPGraphBatch
  else match Atoi raw with
       | Some value =>
           if value <=? 0 then defaultSCIPGraphBatch else if 10000 <? value then 10000 else value
       | None => defaultSCIPGraphBatch
       end.

Definition boundedPositiveEnv (getenv : string -> string) (name : string)
    (fallback minValue maxValue : Z) : Z :=
  let raw := TrimSpace (getenv name) in
  if raw =s "" then fallback
  else match Atoi raw with
       | Some value =>
           if value <=? 0 then fallback
           else if value <? minValue then minValue
           else if maxValue <? value then maxValue
           else value
       | None => fallback
       end.

Definition scipOccurrenceCap (getenv : string -> string) : Z :=
  boundedPositiveEnv getenv "CODEINTEL_SCIP_GRAPH_OCCURRENCE_LIMIT" defaultSCIPOccurrenceCap 1000 250000.

Definition scipSymbolRoleCap (getenv : string -> string) : Z :=
  boundedPositiveEnv getenv "CODEINTEL_SCIP_GRAPH_SYMBOL_ROLE_LIMIT" defaultSCIPSymbolRoleCap 8 2000.

Definition scipFileCap (getenv : string -> string) : Z :=
  boundedPositiveEnv getenv "CODEINTEL_SCIP_GRAPH_FILE_LIMIT" defaultSCIPFileCap 50 20000.

(** ** Properties as columns *)

(** [fmt.Sprint] of a value that is not a string; the projection builds no
    property of a type [POther] stands for. *)
Definition sprint (v : CodeGraphPrimitive) : string :=
  match v with
  | PNil => "<nil>"
  | PBool b => if b then "true" else "false"
  | PString s => s
  | PInt z => Itoa z
  | PFloat FNaN => "NaN"
  | PFloat (FInf negative) => if negative then "-Inf" else "+Inf"
  | PFloat f => formatFloat f
  | POther => ""
  end.

Definition stringProp (props : Props) (key fallback : string) : string :=
  match props !! key with
  | None | Some PNil => fallback
  | Some (PString s) => nonEmpty s fallback
  | Some v => sprint v
  end.

(** [int64(v)] of a finite float64 in range: the digits before the point. *)
Definition float_trunc (negative : bool) (digits : string) (dp : Z) : Z :=
  let k := Z.to_nat dp in
  match NilEmpty.uint_of_string (str_take k digits +:+ zeros (k - String.length digits)) with
  | Some d => if negative then - Z.of_uint d else Z.of_uint d
  | None => 0
  end.

(** The conversion of a float out of range is up to the machine. *)
Definition optionalPropInt (value : CodeGraphPrimitive) : option Z :=
  match value with
  | PInt z => Some z
  | PFloat (FFinite negative digits dp) => Some (float_trunc negative digits dp)
  | PFloat _ => Some (- 2 ^ 63)
  | _ => None
  end.

Definition scipEdgeDedupeKey (fromVID toVID relation : string) (rank : Z) : string :=
  let zero := String (chr 0) "" in
  "scip-edge:" +:+ sha256_hex (fromVID +:+ zero +:+ toVID +:+ zero +:+ relation +:+ zero +:+ Itoa rank).
