(* ===== verification/RepoIndexDB.v ===== *)
(** The state of the repository-index manager
    (src/internal/backend/repoindexmanager): the tables of the subjob store and
    those the manager adds, the file system, the statements sent to the graph
    database; and the monad its operations run in. *)
From Stdlib Require Import Ascii.
From S2P Require Import Prelude GoStd GoStdFacts GoJSON SubjobTypes SubjobStore Planner ManifestDelta FileTree.
(** ** Tables *)

(** "Org", under its key [id]. *)
Record Org : Type := { org_domain : string; org_atomWorkspaceId : option string }.

(** "CodeGraphIndex", under its key [id]; "provider" has one value, NEBULA. *)
Record CodeGraphIndex : Type := {
  gx_orgId : Z;
  gx_repoId : Z;
  gx_workspaceId : string;
  gx_commitHash : string;
  gx_schemaVersion : Z;
  gx_builderVersion : string;
  gx_status : string;
  gx_sourceRevision : option string;
  gx_graphSpace : option string;
  gx_indexRunId : option string;
  gx_vertexCount : Z;
  gx_edgeCount : Z;
  gx_anchorCount : Z;
  gx_linkedEdgeCount : Z;
  gx_errorMessage : option string;
  gx_indexedAt : option Z;
  gx_supersededAt : option Z;
  gx_deleteAfter : option Z;
  gx_updatedAt : Z
}.

(** "CodeGraphRevision", under its key [id]. *)
Record CodeGraphRevision : Type := {
  gr_revision : string;
  gr_workspaceId : string;
  gr_commitHash : string;
  gr_orgId : Z;
  gr_repoId : Z;
  gr_schemaVersion : Z;
  gr_builderVersion : string;
  gr_activatedAt : Z;
  gr_updatedAt : Z;
  gr_codeGraphIndexId : string
}.

(** "RepoIndexManifestFile", under its unique key (manifestId, path). *)
Record ManifestFile : Type := { fl_id : string; fl_row : manifestFileRow }.

Record Tables : Type := {
  t_db : DB;
  t_orgs : gmap Z Org;
  t_files : gmap (string * string) ManifestFile;
  t_graphs : gmap string CodeGraphIndex;
  t_revisions : gmap string CodeGraphRevision
}.

Definition set_db (f : DB -> DB) (t : Tables) : Tables :=
  {| t_db := f (t_db t); t_orgs := t_orgs t; t_files := t_files t; t_graphs := t_graphs t;
     t_revisions := t_revisions t |}.

Definition set_files (f : gmap (string * string) ManifestFile -> gmap (string * string) ManifestFile)
    (t : Tables) : Tables :=
  {| t_db := t_db t; t_orgs := t_orgs t; t_files := f (t_files t); t_graphs := t_graphs t;
     t_revisions := t_revisions t |}.

Definition set_graphs (f : gmap string CodeGraphIndex -> gmap string CodeGraphIndex)
    (g : gmap string CodeGraphRevision -> gmap string CodeGraphRevision) (t : Tables) : Tables :=
  {| t_db := t_db t; t_orgs := t_orgs t; t_files := t_files t; t_graphs := f (t_graphs t);
     t_revisions := g (t_revisions t) |}.

(** ** The outside *)

(** A reference of a git repository as the library lists it: its kind, its short
    name and the hash it points to; [RSymbolic] is a reference to a reference. *)
Inductive RefKind : Type := RBranch | RRemote | RTag | ROtherRef | RSymbolic.

Record GitRef : Type := { ref_kind : RefKind; ref_short : string; ref_hash : string }.

(** What a clone reports. *)
Record CloneResult : Type := { cr_CommitHash : string; cr_Branch : string; cr_WorkTree : string }.

(** Git, by the directory of a repository.  [git_Clone] is the clone of a URL into
    a directory with a depth and a timeout, with the files it puts there;
    [git_OpenHead] the commit and branch of HEAD; [git_tag_commit] the commit an
    annotated tag object points to, if the hash names one; [git_commit] the error
    when a commit does not exist; [git_tree] the files of a commit;
    [git_worktree_add] the files a detached worktree of a commit gets. *)
Record Git : Type := {
  git_Clone : string -> string -> Z -> Z -> result gerror (CloneResult * list (string * FileKind));
  git_OpenHead : string -> result gerror (string * string);
  git_References : string -> result gerror (list GitRef);
  git_tag_commit : string -> string -> option string;
  git_commit : string -> string -> option gerror;
  git_tree : string -> string -> result gerror (list GitFile);
  git_worktree_add : string -> string -> string -> result gerror (list (string * FileKind))
}.

(** What the process does not decide: whether the [n]th call to the database or
    the file system fails (a file that does not exist is not such a failure), the clock and a fresh uuid at that call, the error of
    the context, the environment variables, git, the library functions for URLs
    and globs, and the text form of a nested jsonb value. *)
Record Outside : Type := {
  ou_fault : nat -> option gerror;
  ou_now : nat -> Z;
  ou_uuid : nat -> string;
  ou_cancelled : nat -> option gerror;
  ou_getenv : string -> string;
  ou_git : Git;
  ou_url_Parse : string -> option (string * string);
  ou_glob_Compile : string -> result gerror (string -> bool);
  ou_jsonb_text : json -> string
}.

(** ** The monad *)

Record IndexWorld : Type := {
  iw_tables : Tables;
  iw_fs : FS;
  iw_graph : list string;
  iw_calls : nat
}.

Definition iw_db (w : IndexWorld) : DB := t_db (iw_tables w).

(** A computation of the manager: a new state and a value or an error. *)
Definition IM (A : Type) : Type := IndexWorld -> IndexWorld * result gerror A.

Definition iret {A} (a : A) : IM A := fun w => (w, Ok a).
Definition ierr {A} (e : gerror) : IM A := fun w => (w, Err e).

Definition ibind {A B} (m : IM A) (k : A -> IM B) : IM B :=
  fun w => match m w with (w', Ok a) => k a w' | (w', Err e) => (w', Err e) end.

Notation "'do!' x ':=' e 'in' k" := (ibind e (fun x => k))
  (at level 10, x pattern, e at level 200, k at level 200) : go_scope.

(** [r, err := m()], for code that looks at the error. *)
Definition itry {A} (m : IM A) : IM (result gerror A) :=
  fun w => let '(w', r) := m w in (w', Ok r).

(** [fmt.Errorf("pre%w", err)] around an error of [m]. *)
Definition iwrap {A} (pre : string) (m : IM A) : IM A :=
  fun w => match m w with
           | (w', Err e) => (w', Err (EWrap pre e ""))
           | r => r
           end.

(** The error of an option, [None] being nil. *)
Definition icheck (o : option gerror) : IM unit :=
  match o with None => iret tt | Some e => ierr e end.

Definition ilift {A} (r : result gerror A) : IM A := match r with Ok a => iret a | Err e => ierr e end.

Section Calls.
Context (ou : Outside).

(** One call to the database or the file system: it may fail before it takes
    effect, and it sees the clock. *)
Definition call {A} (f : Z -> IndexWorld -> IndexWorld * result gerror A) : IM A := fun w =>
  let n := iw_calls w in
  let w' := {| iw_tables := iw_tables w; iw_fs := iw_fs w; iw_graph := iw_graph w;
               iw_calls := S n |} in
  match ou_fault ou n with
  | Some e => (w', Err e)
  | None => f (ou_now ou n) w'
  end.

Definition set_tables (t : Tables) (w : IndexWorld) : IndexWorld :=
  {| iw_tables := t; iw_fs := iw_fs w; iw_graph := iw_graph w; iw_calls := iw_calls w |}.

(** A statement: atomic, and without effect when it raises an SQL error. *)
Definition sql {A} (stmt : Z -> Tables -> result gerror (Tables * A)) : IM A :=
  call (fun now w => match stmt now (iw_tables w) with
                     | Ok (t, a) => (set_tables t w, Ok a)
                     | Err e => (w, Err e)
                     end).

Definition set_fs (fs : FS) (w : IndexWorld) : IndexWorld :=
  {| iw_tables := iw_tables w; iw_fs := fs; iw_graph := iw_graph w; iw_calls := iw_calls w |}.

(** A call to the file system that cannot fail by itself. *)
Definition sys {A} (f : FS -> FS * A) : IM A :=
  call (fun _ w => let '(fs, a) := f (iw_fs w) in (set_fs fs w, Ok a)).

(** [ctx.Err()] *)
Definition ctx_err : IM unit := fun w =>
  match ou_cancelled ou (iw_calls w) with Some e => (w, Err e) | None => (w, Ok tt) end.

Definition new_uuid : IM string := fun w => (w, Ok (ou_uuid ou (iw_calls w))).

(** The subjob store on the same database; [UpsertQueued] and [UpsertSkipped] are
    one statement each. *)
Definition in_db {A} (f : option gerror -> Z -> DB -> DB * result gerror A) : IM A := fun w =>
  let n := iw_calls w in
  let '(db, r) := f (ou_fault ou n) (ou_now ou n) (iw_db w) in
  ({| iw_tables := set_db (fun _ => db) (iw_tables w); iw_fs := iw_fs w; iw_graph := iw_graph w;
      iw_calls := S n |}, r).

#[export] Instance world_writer : SubjobWriter IndexWorld := {
  sw_UpsertQueued c := in_db (fun fault now => UpsertQueued fault now now c)
}.
End Calls.

(** ** jsonb *)

Definition json_get (key : string) (members : list (string * json)) : option json :=
  snd <$> List.find (fun m => m.1 =s key) members.

(** [v -> 'key']; [None] is NULL. *)
Definition jsonb_get (v : json) (key : string) : option json :=
  match v with JObj members => json_get key members | _ => None end.

(** [jsonb_set(v, '{key}', x, true)] *)
Definition jsonb_set (v : json) (key : string) (x : json) : result gerror json :=
  match v with
  | JObj members => Ok (JObj (List.filter (fun m => negb (m.1 =s key)) members ++ [(key, x)]))
  | JArr _ => Err (EText "path element at position 1 is not an integer")
  | _ => Err (EText "cannot set path in scalar")
  end.

(** [v - 'key'] *)
Definition jsonb_minus (v : json) (key : string) : result gerror json :=
  match v with
  | JObj members => Ok (JObj (List.filter (fun m => negb (m.1 =s key)) members))
  | JArr l => Ok (JArr (List.filter (fun j => match j with JStr s => negb (s =s key) | _ => true end) l))
  | _ => Err (EText "cannot delete from scalar")
  end.

(** An element as text, [text] for a nested value; [None] is NULL. *)
Definition element_text (text : json -> string) (j : json) : option string :=
  match j with
  | JNull => None
  | JStr s => Some s
  | JNum lit => Some lit
  | JBool b => Some (if b then "true" else "false")
  | JArr _ | JObj _ => Some (text j)
  end.

(** [jsonb_array_elements_text(v)], the rows that are not NULL. *)
Definition jsonb_array_elements_text (text : json -> string) (v : json) : result gerror (list string) :=
  match v with
  | JArr l => Ok (omap (element_text text) l)
  | JObj _ => Err (EText "cannot extract elements from an object")
  | _ => Err (EText "cannot extract elements from a scalar")
  end.

(** [COALESCE(jsonb_agg(...), '[]')] of text rows. *)
Definition jsonb_agg (l : list string) : json := JArr (map JStr l).

Lemma json_get_set key x members :
  json_get key (List.filter (fun m => negb (m.1 =s key)) members ++ [(key, x)]) = Some x.
Proof.
  unfold json_get. induction members as [|[k v] l IH]; simpl; [by rewrite str_eqb_refl|].
  destruct (k =s key) eqn:E; simpl; [done|]. by rewrite E.
Qed.

(** A list of text written under a key is read back. *)
Lemma set_elements text v key l v' :
  jsonb_set v key (jsonb_agg l) = Ok v' ->
  jsonb_array_elements_text text (default (JArr []) (jsonb_get v' key)) = Ok l.
Proof.
  unfold jsonb_set. destruct v as [| | | | |members]; try done. intros H. injection H as <-.
  cbn [jsonb_get]. rewrite json_get_set. unfold jsonb_agg. simpl. f_equal.
  induction l as [|x l IH]; [done|]. cbn. f_equal. exact IH.
Qed.
