(* ===== verification/RepoJobs.v ===== *)
(** The store of the repository-index manager,
    src/internal/backend/repoindexmanager/store.go: the life cycle of a
    "RepoIndexingJob" row, the indexed state of a repository, manifests and their
    files, and the health of the semantic indexes. *)
From Stdlib Require Import Ascii.
From S2P Require Import Prelude GoStd GoStdFacts GoJSON Sha256 SubjobTypes ManifestDelta FileTree Scheduler RepoIndexDB.
Record JobScope : Type := { js_OrgID : Z; js_RepoID : Z; js_Type : string }.

Record RepoIndexScope : Type := {
  rs_OrgID : Z; rs_WorkspaceID : string; rs_DefaultBranch : string; rs_Metadata : json
}.

Record pendingManifestInput : Type := {
  pm_ID : string; pm_JobID : string; pm_OrgID : Z; pm_RepoID : Z; pm_WorkspaceID : string;
  pm_Branch : string; pm_CommitHash : string; pm_FileCount : Z;
  pm_Plan : option deltaReindexPlan; pm_Files : list manifestFileRow
}.

Record semanticIndexHealth : Type := {
  sh_SCIPFound : bool; sh_SCIPSymbolCount : Z; sh_SCIPOccurrenceCount : Z;
  sh_SCIPRelationshipCount : Z;
  sh_GraphFound : bool; sh_GraphAnchorCount : Z; sh_GraphLinkedEdgeCount : Z
}.

(** The sum is one of int32 values. *)
Definition NeedsRepair (h : semanticIndexHealth) : bool :=
  if negb (sh_SCIPFound h)
     || (wrap32 (wrap32 (sh_SCIPSymbolCount h + sh_SCIPOccurrenceCount h)
                 + sh_SCIPRelationshipCount h) =? 0) then true
  else if negb (sh_GraphFound h) || (sh_GraphAnchorCount h =? 0) || (sh_GraphLinkedEdgeCount h =? 0)
  then true
  else false.

Definition ErrJobInTerminalState : gerror :=
  ESentinel "repoindexmanager: job already in terminal state or missing".
Definition ErrRepoNotFound : gerror := ESentinel "repoindexmanager: repo not found".

Definition is_sentinel (s e : gerror) : bool := err_is (err_text s) e.

(** ** Statements on jobs *)

(** [UPDATE "RepoIndexingJob" ... WHERE id = ... AND guard]: the value says
    whether a row was updated. *)
Definition update_job (jobID : string) (guard : Job -> bool) (f : Job -> Job) (t : Tables) : Tables * bool :=
  match db_jobs (t_db t) !! jobID with
  | Some j => if guard j then (set_db (set_jobs (<[jobID := f j]>)) t, true) else (t, false)
  | None => (t, false)
  end.

(** The WHERE clause of the scoped transitions. *)
Definition job_in_scope (t : Tables) (orgID repoID : Z) (ty : JobType) (j : Job) : bool :=
  (job_repoId j =? repoID) && bool_decide (job_type j = ty) && job_is_active j
  && match db_repos (t_db t) !! job_repoId j with
     | Some r => repo_orgId r =? orgID
     | None => false
     end.

Definition start_job (now : Z) (j : Job) : Job :=
  {| job_repoId := job_repoId j; job_type := job_type j; job_status := IN_PROGRESS;
     job_errorMessage := job_errorMessage j; job_metadataRef := job_metadataRef j;
     job_createdAt := job_createdAt j; job_completedAt := job_completedAt j; job_updatedAt := now |}.

Definition complete_job (now : Z) (j : Job) : Job :=
  {| job_repoId := job_repoId j; job_type := job_type j; job_status := COMPLETED;
     job_errorMessage := job_errorMessage j; job_metadataRef := job_metadataRef j;
     job_createdAt := job_createdAt j; job_completedAt := Some now; job_updatedAt := now |}.

Definition end_job_failed (now : Z) (errMsg : string) (j : Job) : Job :=
  {| job_repoId := job_repoId j; job_type := job_type j; job_status := FAILED;
     job_errorMessage := Some errMsg; job_metadataRef := job_metadataRef j;
     job_createdAt := job_createdAt j; job_completedAt := Some now; job_updatedAt := now |}.

(** A scoped transition; an unknown enum label is an SQL error. *)
Definition scoped_stmt (jobID : string) (orgID repoID : Z) (jobType : string) (f : Z -> Job -> Job)
    (now : Z) (t : Tables) : result gerror (Tables * bool) :=
  match job_type_of jobType with
  | None => Err (EText "invalid input value for enum")
  | Some ty => Ok (update_job jobID (job_in_scope t orgID repoID ty) (f now) t)
  end.

(** A repository row changed in place. *)
Definition update_repo (repoID : Z) (guard : Repo -> bool) (f : Repo -> Repo) (t : Tables) : Tables :=
  set_db (set_repos (alter (fun r => if guard r then f r else r) repoID)) t.

Definition set_latest_status (s : option JobStatus) (r : Repo) : Repo :=
  {| repo_orgId := repo_orgId r; repo_name := repo_name r; repo_latestIndexingJobStatus := s;
     repo_cloneUrl := repo_cloneUrl r; repo_codeHostType := repo_codeHostType r;
     repo_defaultBranch := repo_defaultBranch r; repo_metadata := repo_metadata r;
     repo_indexedAt := repo_indexedAt r; repo_indexedCommitHash := repo_indexedCommitHash r;
     repo_updatedAt := repo_updatedAt r |}.

(** The columns the index state consists of. *)
Definition set_indexed (metadata : option json) (indexedAt : option Z) (commit : option string)
    (status : option JobStatus) (now : Z) (r : Repo) : Repo :=
  {| repo_orgId := repo_orgId r; repo_name := repo_name r; repo_latestIndexingJobStatus := status;
     repo_cloneUrl := repo_cloneUrl r; repo_codeHostType := repo_codeHostType r;
     repo_defaultBranch := repo_defaultBranch r; repo_metadata := metadata;
     repo_indexedAt := indexedAt; repo_indexedCommitHash := commit; repo_updatedAt := now |}.

(** ORDER BY "createdAt" DESC, id DESC LIMIT 1 *)
Definition newest_job (repoID : Z) (jobs : gmap string Job) : option (string * Job) :=
  head (sort_stable newer_job (List.filter (fun p => job_repoId p.2 =? repoID) (map_to_list jobs))).

Section Store.
Context (ou : Outside).

Definition FetchJobScope (jobID : string) : IM JobScope :=
  do! r := itry (sql ou (fun _ t =>
    Ok (t, match db_jobs (t_db t) !! jobID with
           | Some j => match db_repos (t_db t) !! job_repoId j with
                       | Some r => Some {| js_OrgID := repo_orgId r; js_RepoID := job_repoId j;
                                           js_Type := job_type_text (job_type j) |}
                       | None => None
                       end
           | None => None
           end))) in
  match r with
  | Ok (Some scope) => iret scope
  | Ok None => ierr ErrJobInTerminalState
  | Err e => ierr (EWrap "FetchJobScope: " e "")
  end.

(** [tag.RowsAffected() == 0] *)
Definition affected (m : IM bool) : IM unit :=
  do! ok := m in if ok then iret tt else ierr ErrJobInTerminalState.

Definition MarkInProgress (jobID : string) : IM unit :=
  affected (iwrap "MarkInProgress: "
    (sql ou (fun now t => Ok (update_job jobID job_is_active (start_job now) t)))).

Definition MarkInProgressScoped (jobID : string) (orgID repoID : Z) (jobType : string) : IM unit :=
  affected (iwrap "MarkInProgressScoped: " (sql ou (scoped_stmt jobID orgID repoID jobType start_job))).

Definition MarkCompleted (jobID : string) : IM unit :=
  do! _ := iwrap "MarkCompleted: "
    (sql ou (fun now t => Ok (update_job jobID (fun _ => true) (complete_job now) t))) in iret tt.

Definition MarkCompletedScoped (jobID : string) (orgID repoID : Z) (jobType : string) : IM unit :=
  affected (iwrap "MarkCompletedScoped: "
    (sql ou (scoped_stmt jobID orgID repoID jobType complete_job))).

Definition MarkFailed (jobID errMsg : string) : IM unit :=
  do! _ := iwrap "MarkFailed: "
    (sql ou (fun now t => Ok (update_job jobID (fun _ => true) (end_job_failed now errMsg) t))) in
  iret tt.

Definition MarkFailedScoped (jobID : string) (orgID repoID : Z) (jobType errMsg : string) : IM unit :=
  affected (iwrap "MarkFailedScoped: "
    (sql ou (scoped_stmt jobID orgID repoID jobType (fun now => end_job_failed now errMsg)))).

Definition RefreshRepoLatestIndexingJobStatus (repoID : Z) : IM unit :=
  iwrap "RefreshRepoLatestIndexingJobStatus: " (sql ou (fun _ t =>
    Ok (match newest_job repoID (db_jobs (t_db t)) with
        | Some (_, j) => update_repo repoID (fun _ => true) (set_latest_status (Some (job_status j))) t
        | None => t
        end, tt))).

Definition InsertPending (jobID : string) (repoID : Z) (jobType : string) : IM unit :=
  if jobID =s "" then ierr (EText "repoindexmanager: InsertPending requires jobID")
  else iwrap "InsertPending: " (sql ou (fun now t =>
    match job_type_of jobType with
    | None => Err (EText "invalid input value for enum")
    | Some ty =>
        if bool_decide (db_jobs (t_db t) !! jobID <> None) then Err (EText "duplicate key")
        else if bool_decide (db_repos (t_db t) !! repoID = None) then Err (EText "foreign key violation")
        else
          let row := {| job_repoId := repoID; job_type := ty; job_status := PENDING;
                        job_errorMessage := None; job_metadataRef := None; job_createdAt := now;
                        job_completedAt := None; job_updatedAt := now |} in
          Ok (set_db (set_jobs (<[jobID := row]>)) t, tt)
    end)).

(** ** Indexed state of a repository *)

Definition RecordSuccessfulIndex (repoID : Z) (commitHash : string) : IM unit :=
  iwrap "RecordSuccessfulIndex: " (sql ou (fun now t =>
    Ok (update_repo repoID (fun _ => true) (fun r =>
          set_indexed (repo_metadata r) (Some now) (Some commitHash)
            (repo_latestIndexingJobStatus r) now r) t, tt))).

(** A manifest that makes a revision usable. *)
Definition usable_manifest (orgID repoID : Z) (workspaceID branch commitHash : string) (m : Manifest)
  : bool :=
  (mf_orgId m =? orgID) && (mf_repoId m =? repoID) && (mf_workspaceId m =s workspaceID)
  && (mf_branch m =s branch) && (mf_commitHash m =s commitHash)
  && bool_decide (mf_status m = ManifestReady) && bool_decide (mf_supersededAt m = None).

(** [COALESCE(metadata->'indexedRevisions', '[]')] as rows of text. *)
Definition indexed_revisions (metadata : option json) : result gerror (list string) :=
  jsonb_array_elements_text (ou_jsonb_text ou)
    (default (JArr []) (jsonb_get (default (JObj []) metadata) "indexedRevisions")).

Definition RecordUsableIndexedRevision (orgID repoID : Z) (workspaceID branch commitHash : string)
  : IM unit :=
  if (orgID <=? 0) || (repoID <=? 0) || (TrimSpace workspaceID =s "") || (TrimSpace branch =s "")
     || (TrimSpace commitHash =s "")
  then ierr (EText "repoindexmanager: invalid indexed revision refresh scope")
  else iwrap "RecordUsableIndexedRevision: " (sql ou (fun now t =>
    match db_repos (t_db t) !! repoID with
    | Some r =>
        if repo_orgId r =? orgID then
          let? old := indexed_revisions (repo_metadata r) in
          let fresh := map mf_branch (List.filter (usable_manifest orgID repoID workspaceID branch
                                                     commitHash) (db_manifests (t_db t))) in
          let merged := SortStrings (dedup_first []
                          (List.filter (fun b => negb (b =s "")) (old ++ fresh))) in
          let? md := jsonb_set (default (JObj []) (repo_metadata r)) "indexedRevisions" (jsonb_agg merged) in
          Ok (update_repo repoID (fun _ => true) (fun r =>
                set_indexed (Some md) (Some now) (Some commitHash)
                  (repo_latestIndexingJobStatus r) now r) t, tt)
        else Ok (t, tt)
    | None => Ok (t, tt)
    end)).

(** The text of the metadata column is decoded again by the caller; the value
    stands for it. *)
Definition FetchRepoIndexScope (repoID : Z) : IM RepoIndexScope :=
  do! r := itry (sql ou (fun _ t =>
    Ok (t, match db_repos (t_db t) !! repoID with
           | Some r =>
               match t_orgs t !! repo_orgId r with
               | Some o =>
                   let d := coalesce "" (repo_defaultBranch r) in
                   Some {| rs_OrgID := repo_orgId r;
                           rs_WorkspaceID := coalesce (org_domain o) (org_atomWorkspaceId o);
                           rs_DefaultBranch := if d =s "" then "main" else d;
                           rs_Metadata := default (JObj []) (repo_metadata r) |}
               | None => None
               end
           | None => None
           end))) in
  match r with
  | Ok (Some scope) => iret scope
  | Ok None => ierr ErrRepoNotFound
  | Err e => ierr (EWrap "FetchRepoIndexScope: " e "")
  end.

(** ** Manifests *)

(** DESC NULLS LAST *)
Definition desc_nulls_last (a b : option Z) : comparison :=
  match a, b with
  | Some x, Some y => Z.compare y x
  | Some _, None => Lt
  | None, Some _ => Gt
  | None, None => Eq
  end.

(** ORDER BY ... DESC NULLS LAST, "updatedAt" DESC, id DESC *)
Definition newer_row (at_ at' : option Z) (updated updated' : Z) (id id' : string) : bool :=
  match desc_nulls_last at_ at' with
  | Lt => true
  | Gt => false
  | Eq => (updated' <? updated) || ((updated =? updated') && str_ltb id' id)
  end.

Definition newer_manifest (a b : Manifest) : bool :=
  newer_row (mf_activatedAt a) (mf_activatedAt b) (mf_updatedAt a) (mf_updatedAt b) (mf_id a) (mf_id b).

Definition ready_manifest (orgID repoID : Z) (workspaceID branch : string) (m : Manifest) : bool :=
  (mf_orgId m =? orgID) && (mf_repoId m =? repoID) && (mf_workspaceId m =s workspaceID)
  && (mf_branch m =s branch) && bool_decide (mf_status m = ManifestReady).

Definition FetchPreviousReadyManifestFiles (orgID repoID : Z) (workspaceID branch : string)
  : IM (list manifestFileRow) :=
  if (orgID <=? 0) || (repoID <=? 0) || (TrimSpace workspaceID =s "") || (TrimSpace branch =s "")
  then ierr (EText "repoindexmanager: invalid previous manifest scope")
  else
    do! found := iwrap "FetchPreviousReadyManifestFiles: " (sql ou (fun _ t =>
      Ok (t, mf_id <$> head (sort_stable newer_manifest
               (List.filter (ready_manifest orgID repoID workspaceID branch) (db_manifests (t_db t))))))) in
    match found with
    | None => iret []
    | Some manifestID =>
        iwrap "FetchPreviousReadyManifestFiles files: " (sql ou (fun _ t =>
          Ok (t, sort_stable (fun a b => str_ltb (fr_Path a) (fr_Path b))
                   (map (fun kv => fl_row kv.2)
                      (List.filter (fun kv => kv.1.1 =s manifestID) (map_to_list (t_files t)))))))
    end.

Definition scip_health (orgID repoID : Z) (branch commitHash : string) (x : CodeIntelIndex) : bool :=
  let k := cix_key x in
  (cii_orgId k =? orgID) && (cii_repoId k =? repoID) && (cii_revision k =s branch)
  && (cii_commitHash k =s commitHash) && (cix_kind x =s "SCIP")
  && bool_decide (cix_status x ∈ ["READY"; "PARTIAL"]).

Definition graph_health (orgID repoID : Z) (workspaceID branch commitHash : string)
    (g : CodeGraphIndex) : bool :=
  (gx_orgId g =? orgID) && (gx_repoId g =? repoID) && (gx_workspaceId g =s workspaceID)
  && bool_decide (gx_sourceRevision g = Some branch) && (gx_commitHash g =s commitHash)
  && (gx_status g =s "READY") && bool_decide (gx_supersededAt g = None)
  && bool_decide (gx_deleteAfter g = None).

Definition FetchSemanticIndexHealth (orgID repoID : Z) (workspaceID branch commitHash : string)
  : IM semanticIndexHealth :=
  if (orgID <=? 0) || (repoID <=? 0) || (TrimSpace workspaceID =s "") || (TrimSpace branch =s "")
     || (TrimSpace commitHash =s "")
  then ierr (EText "repoindexmanager: invalid semantic health scope")
  else iwrap "FetchSemanticIndexHealth: " (sql ou (fun _ t =>
    let scip := head (sort_stable (fun a b =>
                  newer_row (cix_indexedAt a) (cix_indexedAt b) (cix_updatedAt a) (cix_updatedAt b)
                    (cii_id (cix_key a)) (cii_id (cix_key b)))
                  (List.filter (scip_health orgID repoID branch commitHash) (db_indexes (t_db t)))) in
    let graph := head (sort_stable (fun a b =>
                   newer_row (gx_indexedAt a.2) (gx_indexedAt b.2) (gx_updatedAt a.2)
                     (gx_updatedAt b.2) a.1 b.1)
                   (List.filter (fun kv => graph_health orgID repoID workspaceID branch commitHash kv.2)
                      (map_to_list (t_graphs t)))) in
    Ok (t, {| sh_SCIPFound := bool_decide (scip <> None);
              sh_SCIPSymbolCount := coalesce 0 (cix_symbolCount <$> scip);
              sh_SCIPOccurrenceCount := coalesce 0 (cix_occurrenceCount <$> scip);
              sh_SCIPRelationshipCount := coalesce 0 (cix_relationshipCount <$> scip);
              sh_GraphFound := bool_decide (graph <> None);
              sh_GraphAnchorCount := coalesce 0 (gx_anchorCount ∘ snd <$> graph);
              sh_GraphLinkedEdgeCount := coalesce 0 (gx_linkedEdgeCount ∘ snd <$> graph) |}))).

Definition stableManifestFileID (manifestID filePath : string) : string :=
  "rmf_" +:+ String.substring 0 32 (sha256_hex (manifestID +:+ String (chr 0) "" +:+ filePath)).

Definition nullableStringPtr (value : option string) : option string :=
  match value with
  | Some v => if TrimSpace v =s "" then None else Some v
  | None => None
  end.

Definition stored_file (manifestID : string) (file : manifestFileRow) : ManifestFile :=
  {| fl_id := stableManifestFileID manifestID (fr_Path file);
     fl_row := {| fr_Path := fr_Path file; fr_ContentHash := fr_ContentHash file;
                  fr_Language := nullableStringPtr (fr_Language file);
                  fr_ProjectRoot := nullableStringPtr (fr_ProjectRoot file);
                  fr_Generated := fr_Generated file; fr_Vendor := fr_Vendor file;
                  fr_Test := fr_Test file |} |}.

(** One INSERT ... ON CONFLICT ("manifestId", path) DO UPDATE.  An update keeps the
    id; a path twice in one statement, an id used by another row and an unknown
    manifest are SQL errors. *)
Definition insert_files_stmt (manifestID : string) (chunk : list manifestFileRow) (t : Tables)
  : result gerror (Tables * unit) :=
  if negb (bool_decide (NoDup (map fr_Path chunk)))
  then Err (EText "ON CONFLICT DO UPDATE command cannot affect row a second time")
  else if negb (bool_decide (manifestID ∈ map mf_id (db_manifests (t_db t))))
  then Err (EText "foreign key violation")
  else
    let put files file :=
      let? m := files in
      let row := stored_file manifestID file in
      match m !! (manifestID, fr_Path file) with
      | Some old => Ok (<[(manifestID, fr_Path file) := {| fl_id := fl_id old; fl_row := fl_row row |}]> m)
      | None =>
          if bool_decide (fl_id row ∈ map (fun kv => fl_id kv.2) (map_to_list m))
          then Err (EText "duplicate key")
          else Ok (<[(manifestID, fr_Path file) := row]> m)
      end in
    let? files := foldl put (Ok (t_files t)) chunk in
    Ok (set_files (fun _ => files) t, tt).

Definition rowsPerChunk : nat := 1000.

(** The loop; [fuel] bounds the number of chunks. *)
Fixpoint insert_chunks (fuel : nat) (manifestID : string) (files : list manifestFileRow) : IM unit :=
  match fuel, files with
  | S n, _ :: _ =>
      do! _ := iwrap "InsertManifestFiles: "
                 (sql ou (fun _ t => insert_files_stmt manifestID (firstn rowsPerChunk files) t)) in
      insert_chunks n manifestID (skipn rowsPerChunk files)
  | _, _ => iret tt
  end.

Definition InsertManifestFiles (manifestID : string) (files : list manifestFileRow) : IM unit :=
  if TrimSpace manifestID =s "" then ierr (EText "repoindexmanager: manifest id is required")
  else insert_chunks (length files) manifestID files.

(** The counts of [manifestPlanValues]. *)
Definition plan_count (f : deltaReindexPlan -> list string) (plan : option deltaReindexPlan) : Z :=
  match plan with None => 0 | Some p => wrap32 (Z.of_nat (length (f p))) end.

Definition pending_row (now : Z) (i : pendingManifestInput) : Manifest :=
  let p := pm_Plan i in
  {| mf_id := pm_ID i; mf_indexJobId := Some (pm_JobID i); mf_orgId := pm_OrgID i;
     mf_repoId := pm_RepoID i; mf_workspaceId := pm_WorkspaceID i;
     mf_providerConnectionId := None; mf_branch := pm_Branch i;
     mf_commitHash := pm_CommitHash i; mf_status := ManifestPending; mf_fileCount := pm_FileCount i;
     mf_addedFileCount := plan_count dp_AddedFiles p;
     mf_changedFileCount := plan_count dp_ChangedFiles p;
     mf_deletedFileCount := plan_count dp_DeletedFiles p;
     mf_unchangedFileCount := plan_count dp_UnchangedFiles p;
     mf_zoektStrategy := Some (match p with None => "FULL_REPO" | Some p => zp_Strategy (dp_Zoekt p) end);
     mf_scipStrategy := Some (match p with None => "FULL_REPO" | Some p => xp_Strategy (dp_SCIP p) end);
     mf_graphStrategy := Some (match p with None => "FULL_REPO" | Some p => gp_Strategy (dp_Graph p) end);
     mf_semanticStrategy := Some (match p with None => "SKIPPED" | Some p => mp_Strategy (dp_Semantic p) end);
     mf_activatedAt := None; mf_supersededAt := None; mf_failedAt := None;
     mf_errorMessage := None; mf_createdAt := now; mf_updatedAt := now |}.

(** The foreign keys of "RepoIndexManifest". *)
Definition manifest_fk_ok (m : Manifest) (t : Tables) : bool :=
  match db_repos (t_db t) !! mf_repoId m with
  | Some r => (repo_orgId r =? mf_orgId m)
  | None => false
  end
  && bool_decide (t_orgs t !! mf_orgId m <> None)
  && match mf_indexJobId m with
     | Some j => bool_decide (db_jobs (t_db t) !! j <> None)
     | None => true
     end.

Definition insert_manifest_stmt (m : Manifest) (t : Tables) : result gerror (Tables * unit) :=
  if bool_decide (mf_id m ∈ map mf_id (db_manifests (t_db t))) then Err (EText "duplicate key")
  else if negb (manifest_fk_ok m t) then Err (EText "foreign key violation")
  else Ok (set_db (set_manifests (fun l => l ++ [m])) t, tt).

Definition InsertPendingManifest (i : pendingManifestInput) : IM unit :=
  if (pm_ID i =s "") || (pm_JobID i =s "") || (pm_OrgID i <=? 0) || (pm_RepoID i <=? 0)
     || (pm_WorkspaceID i =s "") || (pm_Branch i =s "") || (pm_CommitHash i =s "")
  then ierr (EText "repoindexmanager: invalid pending manifest input")
  else
    do! _ := iwrap "InsertPendingManifest: "
               (sql ou (fun now t => insert_manifest_stmt (pending_row now i) t)) in
    if (0 <? length (pm_Files i))%nat then InsertManifestFiles (pm_ID i) (pm_Files i) else iret tt.
End Store.
