(* ===== verification/RepoTask.v ===== *)
(** Decoding of the tasks of the repository-index and connection-sync queues:
    [Unmarshal] of src/pkg/repoindex/payload.go and
    src/pkg/connectionsync/payload.go, the inverse of what the scheduler writes. *)
From Stdlib Require Import Ascii.
From S2P Require Import Prelude GoStd GoStdFacts GoJSON GoJSONFacts SubjobCodec Dispatcher Scheduler.
Import repoindex connectionsync.

(** [asynq.SkipRetry] *)
Definition SkipRetry : gerror := ESentinel "skip retry for the task".

(** ** repoindex *)

Definition zero_task : TaskPayload :=
  {| tp_Type := ""; tp_JobID := ""; tp_RepoID := 0; tp_OrgID := 0; tp_RepoName := ""; tp_Ref := "" |}.

Definition set_task_field (p : TaskPayload) (key : string) (j : json) : option TaskPayload :=
  let '(Build_TaskPayload ty job repo org name ref) := p in
  if key_matches "type" key then
    (fun v => Build_TaskPayload v job repo org name ref) <$> as_string ty j
  else if key_matches "jobId" key then
    (fun v => Build_TaskPayload ty v repo org name ref) <$> as_string job j
  else if key_matches "repoId" key then
    (fun v => Build_TaskPayload ty job v org name ref) <$> as_int32 repo j
  else if key_matches "orgId" key then
    (fun v => Build_TaskPayload ty job repo v name ref) <$> as_int32 org j
  else if key_matches "repoName" key then
    (fun v => Build_TaskPayload ty job repo org v ref) <$> as_string name j
  else if key_matches "ref" key then
    (fun v => Build_TaskPayload ty job repo org name v) <$> as_string ref j
  else Some p.

(** Members in order, whatever the struct. *)
Fixpoint set_members {A} (set : A -> string -> json -> option A) (p : A) (l : list (string * json))
  : option A :=
  match l with
  | [] => Some p
  | (k, v) :: rest => match set p k v with Some p' => set_members set p' rest | None => None end
  end.

(** [json.Unmarshal] into a struct with zero value [z]. *)
Definition decode_struct {A} (set : A -> string -> json -> option A) (z : A) (raw : string)
  : result gerror A :=
  match json_parse raw with
  | Some (JObj l) => match set_members set z l with Some p => Ok p | None => Err ErrJSON end
  | Some JNull => Ok z
  | _ => Err ErrJSON
  end.

Definition unmarshal_task (raw : string) (allowMissingOrgID : bool) : result gerror TaskPayload :=
  let? p := decode_struct set_task_field zero_task raw in
  if negb (Valid (tp_Type p)) then
    Err (EText ("repoindex: invalid JobType " +:+ quoted (tp_Type p) +:+ " after unmarshal"))
  else if (tp_OrgID p <=? 0) && negb allowMissingOrgID then
    Err (EText "repoindex: orgId is required after unmarshal")
  else Ok p.

Definition UnmarshalTask (raw : string) : result gerror TaskPayload := unmarshal_task raw false.

Definition UnmarshalLegacyForBackfill (raw : string) : result gerror TaskPayload :=
  unmarshal_task raw true.

(** ** connectionsync *)

Definition zero_sync : SyncPayload :=
  {| sp_JobID := ""; sp_ConnectionID := 0; sp_ConnectionName := ""; sp_OrgID := 0 |}.

Definition set_sync_field (p : SyncPayload) (key : string) (j : json) : option SyncPayload :=
  let '(Build_SyncPayload job conn name org) := p in
  if key_matches "jobId" key then (fun v => Build_SyncPayload v conn name org) <$> as_string job j
  else if key_matches "connectionId" key then
    (fun v => Build_SyncPayload job v name org) <$> as_int32 conn j
  else if key_matches "connectionName" key then
    (fun v => Build_SyncPayload job conn v org) <$> as_string name j
  else if key_matches "orgId" key then (fun v => Build_SyncPayload job conn name v) <$> as_int32 org j
  else Some p.

Definition UnmarshalSync (raw : string) : result gerror SyncPayload :=
  decode_struct set_sync_field zero_sync raw.

(** ** Round trips *)

Definition int32 (z : Z) : Prop := - 2 ^ 31 <= z < 2 ^ 31.

(** The values a Go payload with UTF-8 strings has. *)
Definition task_encodable (p : TaskPayload) : Prop :=
  Forall (fun s => valid_utf8 s = true) [tp_Type p; tp_JobID p; tp_RepoName p; tp_Ref p] /\
  int32 (tp_RepoID p) /\ int32 (tp_OrgID p).

Lemma decode_task p :
  task_encodable p -> decode_struct set_task_field zero_task (struct_text (task_fields p)) = Ok p.
Proof.
  intros [Hs [Hr Ho]]. destruct p as [ty job repo org name ref]. simpl in *.
  repeat (apply Forall_cons in Hs as [? Hs]).
  unfold decode_struct. rewrite struct_text_parse.
  - unfold task_fields. apply json_int32_Itoa in Hr, Ho.
    simpl. rewrite Hr. simpl. rewrite Ho. simpl.
    destruct (ref =s "") eqn:E; [|done]. apply str_eqb_spec in E. by subst.
  - unfold task_fields. simpl. done.
  - unfold task_fields. rewrite forallb_app. apply andb_true_iff. split.
    + simpl. by rewrite H, H0, H1.
    + destruct (_ =s ""); simpl; [done|]. by rewrite H2.
Qed.

Lemma UnmarshalTask_Marshal p raw allow :
  task_encodable p -> MarshalTask p = Ok raw -> unmarshal_task raw allow = Ok p.
Proof.
  intros He. unfold MarshalTask, unmarshal_task. destruct (Valid _) eqn:Hv; [|done]. simpl.
  destruct (tp_OrgID p <=? 0) eqn:Ho; [done|]. intros [= <-].
  rewrite decode_task by done. simpl. by rewrite Hv, Ho.
Qed.

Lemma UnmarshalSync_Marshal p raw :
  valid_utf8 (sp_JobID p) = true -> valid_utf8 (sp_ConnectionName p) = true ->
  int32 (sp_ConnectionID p) -> int32 (sp_OrgID p) ->
  MarshalSync p = Ok raw -> UnmarshalSync raw = Ok p.
Proof.
  intros H1 H2 Hc Ho [= <-]. unfold UnmarshalSync, decode_struct.
  destruct p as [job conn name org]. simpl in *. rewrite struct_text_parse.
  - apply json_int32_Itoa in Hc, Ho. simpl. rewrite Hc. simpl. by rewrite Ho.
  - done.
  - simpl. by rewrite H1, H2.
Qed.
