(* ===== verification/CoreDB.v ===== *)
(** The tables behind the graph: what the writers of graph rows
    (src/internal/backend/indexcore, src/internal/backend/codegraphwriter) read and
    write beside the tables of the subjob store, and programs as trees of calls.

    A program makes one call at a time and goes on with its answer, so that the
    statements of a worker, its heartbeat and the other clients of the database can
    be interleaved; [run] runs a program by itself. *)
From Stdlib Require Import Ascii.
From S2P Require Import Prelude GoStd GoStdFacts GoJSON SubjobTypes SubjobStore ManifestDelta FileTree GraphSchema.
From S2P Require Import RepoIndexDB.
(** ** Tables *)

(** "CodeIntelLanguageIndex", under its key [id]; the columns of the toolchain, which
    no statement reads, are left out here. *)
Record LanguageIndex : Type := {
  li_codeIntelIndexId : string; li_language : string; li_projectRoot : string; li_indexer : string;
  li_workerClass : option string; li_status : string; li_artifactPath : option string;
  li_command : option string; li_durationMs : option Z; li_errorMessage : option string; li_updatedAt : Z
}.

(** "CodeIntelSymbol" *)
Record SymbolRow : Type := {
  sy_symbol : string; sy_displayName : string; sy_kind : option string;
  sy_language : option string; sy_documentation : list string; sy_signature : option string;
  sy_filePath : option string; sy_startLine : option Z; sy_startCharacter : option Z;
  sy_endLine : option Z; sy_endCharacter : option Z; sy_enclosingSymbol : option string; sy_orgId : Z; sy_repoId : Z; sy_codeIntelIndexId : string;
  sy_codeIntelLanguageIndexId : option string
}.

(** "CodeIntelRelationship" *)
Record RelationshipRow : Type := {
  rl_sourceSymbol : string; rl_targetSymbol : string; rl_isReference : bool;
  rl_isImplementation : bool; rl_isTypeDefinition : bool; rl_isDefinition : bool;
  rl_orgId : Z; rl_repoId : Z; rl_codeIntelIndexId : string;
  rl_codeIntelLanguageIndexId : option string
}.

(** "CodeIntelOccurrence" *)
Record OccurrenceRow : Type := {
  oc_symbol : string; oc_filePath : string; oc_startLine : Z; oc_startCharacter : Z;
  oc_endLine : Z; oc_endCharacter : Z; oc_role : string; oc_language : option string; oc_syntaxKind : option string; oc_lineContent : option string;
  oc_enclosingSymbol : option string; oc_orgId : Z; oc_repoId : Z; oc_codeIntelIndexId : string;
  oc_codeIntelLanguageIndexId : option string
}.

(** "CodeGraphSemanticFact", under its unique key (graphIndexId, dedupeKey). *)
Record SemanticFact : Type := {
  sf_id : string; sf_externalId : string; sf_kind : string; sf_label : string;
  sf_workspaceId : string; sf_commitHash : string; sf_schemaVersion : Z;
  sf_builderVersion : string; sf_sourceFile : string; sf_startLine : option Z;
  sf_endLine : option Z; sf_evidence : option string; sf_confidenceTier : string;
  sf_confidence : float64; sf_source : string; sf_extractionMethod : string; sf_orgId : Z;
  sf_repoId : Z; sf_updatedAt : Z
}.

(** "CodeGraphSemanticEdge", under its unique key (graphIndexId, dedupeKey). *)
Record SemanticEdge : Type := {
  se_id : string; se_sourceExternalId : string; se_targetExternalId : string; se_relation : string;
  se_workspaceId : string; se_commitHash : string; se_schemaVersion : Z;
  se_builderVersion : string; se_sourceFile : string; se_startLine : option Z;
  se_endLine : option Z; se_evidence : option string; se_rationale : option string;
  se_confidenceTier : string; se_confidence : float64; se_source : string;
  se_extractionMethod : string; se_orgId : Z; se_repoId : Z; se_updatedAt : Z
}.

(** "CodeGraphAnchor", under its unique key (graphIndexId, kind, direction,
    normalizedKey, nodeVid). *)
Record Anchor : Type := {
  ca_id : string; ca_key : string; ca_workspaceId : string; ca_commitHash : string;
  ca_schemaVersion : Z; ca_builderVersion : string; ca_evidenceFilePath : option string;
  ca_startLine : option Z; ca_endLine : option Z; ca_confidence : float64; ca_source : string;
  ca_orgId : Z; ca_repoId : Z; ca_updatedAt : Z
}.

Definition FactTable : Type := gmap (string * string) SemanticFact.
Definition EdgeTable : Type := gmap (string * string) SemanticEdge.
Definition AnchorTable : Type := gmap (string * string * string * string * string) Anchor.

(** The tables outside [DB], and the statements sent to the graph database. *)
Record CoreRest : Type := {
  cr_orgs : gmap Z Org;
  cr_graphs : gmap string CodeGraphIndex;
  cr_revisions : gmap string CodeGraphRevision;
  cr_languages : gmap string LanguageIndex;
  cr_symbols : list SymbolRow;
  cr_relationships : list RelationshipRow;
  cr_occurrences : list OccurrenceRow;
  cr_facts : FactTable;
  cr_edges : EdgeTable;
  cr_anchors : AnchorTable;
  cr_graphlog : list string
}.

Record CoreWorld : Type := { cw_db : DB; cw_rest : CoreRest }.

Definition with_db (f : DB -> DB) (w : CoreWorld) : CoreWorld :=
  {| cw_db := f (cw_db w); cw_rest := cw_rest w |}.

Definition with_rest (f : CoreRest -> CoreRest) (w : CoreWorld) : CoreWorld :=
  {| cw_db := cw_db w; cw_rest := f (cw_rest w) |}.

Definition with_graphs (f : gmap string CodeGraphIndex -> gmap string CodeGraphIndex)
    (r : CoreRest) : CoreRest :=
  {| cr_orgs := cr_orgs r; cr_graphs := f (cr_graphs r); cr_revisions := cr_revisions r;
     cr_languages := cr_languages r; cr_symbols := cr_symbols r;
     cr_relationships := cr_relationships r; cr_occurrences := cr_occurrences r;
     cr_facts := cr_facts r; cr_edges := cr_edges r; cr_anchors := cr_anchors r;
     cr_graphlog := cr_graphlog r |}.

Definition with_revisions (f : gmap string CodeGraphRevision -> gmap string CodeGraphRevision)
    (r : CoreRest) : CoreRest :=
  {| cr_orgs := cr_orgs r; cr_graphs := cr_graphs r; cr_revisions := f (cr_revisions r);
     cr_languages := cr_languages r; cr_symbols := cr_symbols r;
     cr_relationships := cr_relationships r; cr_occurrences := cr_occurrences r;
     cr_facts := cr_facts r; cr_edges := cr_edges r; cr_anchors := cr_anchors r;
     cr_graphlog := cr_graphlog r |}.

Definition with_semantic (ff : FactTable -> FactTable) (fe : EdgeTable -> EdgeTable)
    (fa : AnchorTable -> AnchorTable) (r : CoreRest) : CoreRest :=
  {| cr_orgs := cr_orgs r; cr_graphs := cr_graphs r; cr_revisions := cr_revisions r;
     cr_languages := cr_languages r; cr_symbols := cr_symbols r;
     cr_relationships := cr_relationships r; cr_occurrences := cr_occurrences r;
     cr_facts := ff (cr_facts r); cr_edges := fe (cr_edges r); cr_anchors := fa (cr_anchors r);
     cr_graphlog := cr_graphlog r |}.

Definition with_graphlog (log : list string) (r : CoreRest) : CoreRest :=
  {| cr_orgs := cr_orgs r; cr_graphs := cr_graphs r; cr_revisions := cr_revisions r;
     cr_languages := cr_languages r; cr_symbols := cr_symbols r;
     cr_relationships := cr_relationships r; cr_occurrences := cr_occurrences r;
     cr_facts := cr_facts r; cr_edges := cr_edges r; cr_anchors := cr_anchors r;
     cr_graphlog := log |}.

(** ** Programs *)

(** What a call meets: the driver failure of its [n]th statement, the database's
    clock, fresh identifiers, and what other clients did to the tables outside
    [DB] since the call before. *)
Record CallEnv : Type := {
  ce_fault : nat -> option gerror;
  ce_now : Z;
  ce_id : nat -> string;
  ce_others : CoreRest -> CoreRest
}.

(** [PPanic] is a run-time panic. *)
Inductive prog (A : Type) : Type :=
| PRet (r : result gerror A)
| PPanic
| PCall (B : Type) (f : CallEnv -> CoreWorld -> CoreWorld * result gerror B)
    (k : result gerror B -> prog A).
Arguments PRet {A}. Arguments PPanic {A}. Arguments PCall {A}.

(** Go on with the value or the error. *)
Fixpoint pthen {A B} (m : prog A) (k : result gerror A -> prog B) : prog B :=
  match m with
  | PRet r => k r
  | PPanic => PPanic
  | PCall C f c => PCall C f (fun r => pthen (c r) k)
  end.

Definition pret {A} (a : A) : prog A := PRet (Ok a).
Definition perr {A} (e : gerror) : prog A := PRet (Err e).

Definition pbind {A B} (m : prog A) (k : A -> prog B) : prog B :=
  pthen m (fun r => match r with Ok a => k a | Err e => perr e end).

Notation "'prog!' x ':=' e 'in' k" := (pbind e (fun x => k))
  (at level 10, x pattern, e at level 200, k at level 200) : go_scope.

Definition pwrap {A} (pre : string) (m : prog A) : prog A :=
  pthen m (fun r => match r with Ok a => pret a | Err e => perr (EWrap pre e "") end).

(** [if err := f(x); err != nil { return err }] over a list. *)
Fixpoint pfor {A} (l : list A) (f : A -> prog unit) : prog unit :=
  match l with
  | [] => pret tt
  | x :: l' => prog! _ := f x in pfor l' f
  end.

(** A pointer that is read: nil panics. *)
Definition pderef {A} (o : option A) : prog A :=
  match o with Some a => pret a | None => PPanic end.

(** One statement: atomic, without effect when it fails. *)
Definition stmt_call {A} (stmt : CallEnv -> CoreWorld -> result gerror (CoreWorld * A))
    (ce : CallEnv) (w : CoreWorld) : CoreWorld * result gerror A :=
  match ce_fault ce 0%nat with
  | Some e => (w, Err e)
  | None => match stmt ce w with Ok (w', a) => (w', Ok a) | Err e => (w, Err e) end
  end.

Definition pstmt {A} (stmt : CallEnv -> CoreWorld -> result gerror (CoreWorld * A)) : prog A :=
  PCall A (stmt_call stmt) PRet.

(** ** Transactions *)

(** The statements of a transaction are numbered.  A transaction is one call: it
    takes effect when it commits, and leaves nothing when it does not. *)
Definition TX (A : Type) : Type := nat * CoreWorld -> (nat * CoreWorld) * result gerror A.

Definition tx_bind {A B} (m : TX A) (k : A -> TX B) : TX B :=
  fun s => match m s with (s', Ok a) => k a s' | (s', Err e) => (s', Err e) end.

Notation "'tx!' x ':=' e 'in' k" := (tx_bind e (fun x => k))
  (at level 10, x pattern, e at level 200, k at level 200) : go_scope.

Definition tx_ret {A} (a : A) : TX A := fun s => (s, Ok a).
Definition tx_err {A} (e : gerror) : TX A := fun s => (s, Err e).

Definition tx_stmt {A} (ce : CallEnv) (pre : string)
    (stmt : CoreWorld -> result gerror (CoreWorld * A)) : TX A := fun '(n, w) =>
  match ce_fault ce n with
  | Some e => ((S n, w), Err (EWrap pre e ""))
  | None => match stmt w with
            | Ok (w', a) => ((S n, w'), Ok a)
            | Err e => ((S n, w), Err (EWrap pre e ""))
            end
  end.

Definition tx_call {A} (body : CallEnv -> TX A) (ce : CallEnv) (w : CoreWorld)
  : CoreWorld * result gerror A :=
  match body ce (0%nat, w) with
  | ((_, w'), Ok a) => (w', Ok a)
  | (_, Err e) => (w, Err e)
  end.

Definition ptx {A} (body : CallEnv -> TX A) : prog A := PCall A (tx_call body) PRet.

(** ** Runs *)

(** The outcome of a program: a result, or a panic. *)
Inductive outcome (A : Type) : Type := Done (r : result gerror A) | Panicked.
Arguments Done {A}. Arguments Panicked {A}.

(** A call by itself: the changes of the others, then the call. *)
Definition do_call {B} (ce : CallEnv) (f : CallEnv -> CoreWorld -> CoreWorld * result gerror B)
    (w : CoreWorld) : CoreWorld * result gerror B :=
  f ce (with_rest (ce_others ce) w).

(** A run of a program whose [n]th call meets [env n]. *)
Fixpoint run {A} (env : nat -> CallEnv) (n : nat) (m : prog A) (w : CoreWorld)
  : nat * CoreWorld * outcome A :=
  match m with
  | PRet r => (n, w, Done r)
  | PPanic => (n, w, Panicked)
  | PCall B f k => let '(w', r) := do_call (env n) f w in run env (S n) (k r) w'
  end.

(** ** ON CONFLICT DO UPDATE *)

Definition ErrNoRows : gerror := ESentinel "no rows in result set".

(** [INSERT ... VALUES rows ON CONFLICT (key) DO UPDATE]: [merge] the old row with
    the proposed one; [clash] is a violation of another unique constraint by a row
    under a different key.  A key that is proposed twice is an error. *)
Section Upsert.
Context {K R : Type} `{Countable K} (merge : R -> R -> R) (clash : K -> R -> K -> R -> bool).

Fixpoint upsert_rows (touched : list K) (rows : list (K * R)) (m : gmap K R)
  : result gerror (gmap K R) :=
  match rows with
  | [] => Ok m
  | (k, r) :: rest =>
      if bool_decide (k ∈ touched)
      then Err (EText "ON CONFLICT DO UPDATE command cannot affect row a second time")
      else
        let r' := match m !! k with Some old => merge old r | None => r end in
        if existsb (fun kr => negb (bool_decide (kr.1 = k)) && clash k r' kr.1 kr.2) (map_to_list m)
        then Err (EText "duplicate key value violates unique constraint")
        else upsert_rows (k :: touched) rest (<[k := r']> m)
  end.
End Upsert.

(** ** Sorting *)

(** The first comparison that is not [Eq] decides. *)
Fixpoint lex_lt (cs : list comparison) : bool :=
  match cs with
  | Lt :: _ => true
  | Gt :: _ => false
  | Eq :: cs' => lex_lt cs'
  | [] => false
  end.

(** ASC NULLS LAST *)
Definition asc_nulls_last {A} (cmp : A -> A -> comparison) (a b : option A) : comparison :=
  match a, b with
  | Some x, Some y => cmp x y
  | Some _, None => Lt
  | None, Some _ => Gt
  | None, None => Eq
  end.
