(* ===== verification/Disk.v ===== *)
(** Files with their contents, directories and symbolic links, and the calls of
    packages os and path/filepath on them that the artifact stores make.

    A path names a list of elements below the root; [walk] follows links the way
    the kernel does.  [dk_fault] is a failure of one call on one path that the tree
    does not explain, such as a missing permission. *)
From Stdlib Require Import Ascii.
From S2P Require Import Prelude GoStd GoStdFacts GoText.
Inductive node : Type :=
| NFile (content : string)
| NDir
| NSymlink (target : string)
| NOther.

#[global] Instance node_eq_dec : EqDecision node.
Proof. solve_decision. Defined.

Record Disk : Type := {
  dk_nodes : gmap (list string) node;
  dk_cwd : string;
  dk_fault : string -> string -> option gerror
}.

Definition set_nodes (f : gmap (list string) node -> gmap (list string) node) (d : Disk) : Disk :=
  {| dk_nodes := f (dk_nodes d); dk_cwd := dk_cwd d; dk_fault := dk_fault d |}.

Definition ErrNotExist : gerror := ESentinel "no such file or directory".
Definition ENOTDIR : gerror := ESentinel "not a directory".
Definition ELOOP : gerror := ESentinel "too many levels of symbolic links".
Definition EISDIR : gerror := ESentinel "is a directory".

(** [*fs.PathError] *)
Definition PathError (op path : string) (e : gerror) : gerror := EWrap (op +:+ " " +:+ path +:+ ": ") e "".

Definition node_at (d : Disk) (p : list string) : option node :=
  match p with [] => Some NDir | _ => dk_nodes d !! p end.

(** The place the elements [todo] lead to from the directory [done]; the last one is
    not followed when it is a link and [follow] is false. *)
Fixpoint walk (d : Disk) (links : nat) (follow : bool) {struct links}
  : list string -> list string -> result gerror (list string) :=
  fix go (done todo : list string) {struct todo} : result gerror (list string) :=
    match todo with
    | [] => Ok done
    | e :: rest =>
        if (e =s "") || (e =s ".") then go done rest
        else if e =s ".." then go (removelast done) rest
        else
          let here := done ++ [e] in
          match node_at d here with
          | None => Err ErrNotExist
          | Some (NSymlink target) =>
              match rest, follow with
              | [], false => Ok here
              | _, _ =>
                  match links with
                  | O => Err ELOOP
                  | S links' => walk d links' follow (if rooted target then [] else done)
                                  (SplitByte "/" target ++ rest)
                  end
              end
          | Some NDir => go here rest
          | Some _ => match rest with [] => Ok here | _ => Err ENOTDIR end
          end
    end.

(** The kernel gives up after 40 links, [filepath.EvalSymlinks] after 255. *)
Definition kernel_links : nat := 40.
Definition eval_links : nat := 255.

Definition absolute (d : Disk) (p : string) : string := if rooted p then p else dk_cwd d +:+ "/" +:+ p.

(** The node a path names, for the call [op]. *)
Definition look (op : string) (follow : bool) (d : Disk) (p : string) : result gerror node :=
  match dk_fault d op p with
  | Some e => Err (PathError op p e)
  | None =>
      if p =s "" then Err (PathError op p ErrNotExist)
      else
        match walk d kernel_links follow [] (SplitByte "/" (absolute d p)) with
        | Err e => Err (PathError op p e)
        | Ok at_ => match node_at d at_ with Some n => Ok n | None => Err (PathError op p ErrNotExist) end
        end
  end.

Definition Lstat (d : Disk) (p : string) : result gerror node := look "lstat" false d p.
Definition Stat (d : Disk) (p : string) : result gerror node := look "stat" true d p.

(** [os.Open], then what is read from the file. *)
Definition Open (d : Disk) (p : string) : result gerror node := look "open" true d p.

Definition node_content (op p : string) (n : node) : result gerror string :=
  match n with
  | NFile c => Ok c
  | NDir => Err (PathError op p EISDIR)
  | _ => Ok ""
  end.

Definition ReadFile (d : Disk) (p : string) : result gerror string :=
  let? n := Open d p in node_content "read" p n.

Definition is_symlink (n : node) : bool := match n with NSymlink _ => true | _ => false end.
Definition is_regular (n : node) : bool := match n with NFile _ => true | _ => false end.
Definition is_dir (n : node) : bool := match n with NDir => true | _ => false end.

Definition node_size (n : node) : Z :=
  match n with NFile c => Z.of_nat (String.length c) | NSymlink t => Z.of_nat (String.length t) | _ => 0 end.

(** ** path/filepath *)

Definition Abs (d : Disk) (p : string) : result gerror string :=
  if rooted p then Ok (Clean p)
  else match dk_fault d "getwd" "" with
       | Some e => Err e
       | None => Ok (FilepathJoin [dk_cwd d; p])
       end.

(** Of an absolute path. *)
Definition EvalSymlinks (d : Disk) (p : string) : result gerror string :=
  match dk_fault d "evalsymlinks" p with
  | Some e => Err (PathError "lstat" p e)
  | None =>
      match walk d eval_links true [] (SplitByte "/" p) with
      | Ok at_ => Ok (render_path true at_)
      | Err e => Err (PathError "lstat" p e)
      end
  end.

Fixpoint strip_common (b t : list string) : list string * list string :=
  match b, t with
  | x :: b', y :: t' => if x =s y then strip_common b' t' else (b, t)
  | _, _ => (b, t)
  end.

Definition Rel (base targ : string) : result gerror string :=
  let b := Clean base in
  let t := Clean targ in
  let failed := Err (EText ("Rel: can't make " +:+ targ +:+ " relative to " +:+ base)) in
  if t =s b then Ok "."
  else if negb (Bool.eqb (rooted b) (rooted t)) then failed
  else
    match strip_common (path_elems b) (if t =s "." then ["."] else path_elems t) with
    | ([], rest) => Ok (Join rest "/")
    | (up, rest) =>
        if match up, rest with ".." :: _, _ :: _ => true | _, _ => false end then failed
        else Ok (Join (replicate (length up) ".." ++ rest) "/")
    end.

(** ** Changes *)

(** [os.MkdirAll]: [done] is the directory reached so far. *)
Fixpoint mkdirs (d : Disk) (done todo : list string) : result gerror Disk :=
  match todo with
  | [] => Ok d
  | e :: rest =>
      let here := done ++ [e] in
      match node_at d here with
      | None => mkdirs (set_nodes (<[here := NDir]>) d) here rest
      | Some NDir => mkdirs d here rest
      | Some (NSymlink _) =>
          match walk d kernel_links true done [e] with
          | Ok at_ => match node_at d at_ with Some NDir => mkdirs d at_ rest | _ => Err ENOTDIR end
          | Err e => Err e
          end
      | Some _ => Err ENOTDIR
      end
  end.

Definition MkdirAll (d : Disk) (p : string) : result gerror Disk :=
  match dk_fault d "mkdir" p with
  | Some e => Err (PathError "mkdir" p e)
  | None => match mkdirs d [] (path_elems (absolute d p)) with
            | Ok d' => Ok d'
            | Err e => Err (PathError "mkdir" p e)
            end
  end.

(** The place of a path whose last element need not exist. *)
Definition target_of (d : Disk) (p : string) : result gerror (list string) :=
  let elems := path_elems (absolute d p) in
  let? dir := walk d kernel_links true [] (removelast elems) in
  match node_at d dir, last elems with
  | Some NDir, Some name => Ok (dir ++ [name])
  | _, _ => Err ENOTDIR
  end.

(** [os.Rename] of a file, over a file or a free name. *)
Definition Rename (d : Disk) (old new : string) : result gerror Disk :=
  match dk_fault d "rename" old with
  | Some e => Err (PathError "rename" old e)
  | None =>
      match target_of d old, target_of d new with
      | Ok o, Ok n =>
          match node_at d o, node_at d n with
          | None, _ => Err (PathError "rename" old ErrNotExist)
          | _, Some NDir => Err (PathError "rename" old EISDIR)
          | Some x, _ => Ok (set_nodes (fun m => <[n := x]> (delete o m)) d)
          end
      | Err e, _ => Err (PathError "rename" old e)
      | _, Err e => Err (PathError "rename" old e)
      end
  end.
