(* ===== verification/ScipRows.v ===== *)
(** The rows of a SCIP artifact, src/internal/backend/scipartifact/rows.go: what the
    backend keeps of the documents, symbols, occurrences and relationships an
    indexer reports, with paths taken below the project root, the enclosing
    definition of each occurrence and the text of its line.

    The decoder of the protocol buffer is a parameter of the store; [sort.Slice],
    which need not be stable, is one here. *)
From Stdlib Require Import Ascii.
From S2P Require Import Prelude GoStd GoStdFacts GoText SubjobTypes Disk.
(** ** proto/scip/v1/scip.proto *)

Record Relationship : Type := {
  rp_symbol : string; rp_is_reference : bool; rp_is_implementation : bool;
  rp_is_type_definition : bool; rp_is_definition : bool
}.

(** [si_signature]: the text of the signature document, when there is one. *)
Record SymbolInformation : Type := {
  si_symbol : string; si_documentation : list string; si_relationships : list Relationship;
  si_kind : Z; si_display_name : string; si_signature : option string; si_enclosing_symbol : string
}.

Record Occurrence : Type := {
  oo_range : list Z; oo_symbol : string; oo_symbol_roles : Z; oo_syntax_kind : Z;
  oo_enclosing_range : list Z
}.

Record Document : Type := {
  do_relative_path : string; do_occurrences : list Occurrence; do_symbols : list SymbolInformation;
  do_language : string
}.

Record Index : Type := { ix_documents : list Document; ix_external_symbols : list SymbolInformation }.

(** ** Rows *)

Record NormalizedRange : Type := { StartLine : Z; StartCharacter : Z; EndLine : Z; EndCharacter : Z }.

(** [SymbolRow]; the four positions are set together. *)
Record ScipSymbolRow : Type := {
  ss_Symbol : string; ss_DisplayName : string; ss_Kind : option string; ss_Language : option string;
  ss_Documentation : list string; ss_Signature : option string; ss_FilePath : option string;
  ss_Range : option NormalizedRange; ss_EnclosingSymbol : option string
}.

(** [OccurrenceRow] *)
Record ScipOccurrenceRow : Type := {
  sc_Symbol : string; sc_FilePath : string; sc_Range : NormalizedRange; sc_Role : string;
  sc_Language : option string; sc_SyntaxKind : option string; sc_LineContent : option string;
  sc_EnclosingSymbol : option string
}.

(** [RelationshipRow] *)
Record ScipRelationshipRow : Type := {
  sr_SourceSymbol : string; sr_TargetSymbol : string; sr_IsReference : bool;
  sr_IsImplementation : bool; sr_IsTypeDefinition : bool; sr_IsDefinition : bool
}.

#[global] Instance relationship_row_eq_dec : EqDecision ScipRelationshipRow.
Proof. solve_decision. Defined.

Record Rows : Type := {
  Symbols : list ScipSymbolRow; Occurrences : list ScipOccurrenceRow; Relationships : list ScipRelationshipRow
}.

Record definitionScope : Type := { ds_symbol : string; ds_rng : NormalizedRange }.

Definition ptrIfNotEmpty (value : string) : option string := if value =s "" then None else Some value.

(** ** Ranges *)

Definition normalizeRange (values : list Z) : option NormalizedRange :=
  match values with
  | [a; b; c] => Some {| StartLine := a; StartCharacter := b; EndLine := a; EndCharacter := c |}
  | [a; b; c; d] => Some {| StartLine := a; StartCharacter := b; EndLine := c; EndCharacter := d |}
  | _ => None
  end.

Definition containsRange (outer inner : NormalizedRange) : bool :=
  if (StartLine inner <? StartLine outer) || (EndLine outer <? EndLine inner) then false
  else if (StartLine outer =? StartLine inner) && (StartCharacter inner <? StartCharacter outer) then false
  else if (EndLine outer =? EndLine inner) && (EndCharacter outer <? EndCharacter inner) then false
  else true.

(** In int32. *)
Definition rangeSpan (rng : NormalizedRange) : Z :=
  let span := wrap32 (wrap32 (EndLine rng - StartLine rng) * 100000) in
  let charSpan := wrap32 (EndCharacter rng - StartCharacter rng) in
  wrap32 (span + (if charSpan <? 0 then 0 else charSpan)).

Definition findEnclosingDefinitionSymbol (definitions : list definitionScope) (occurrenceRange : NormalizedRange)
    (occurrenceSymbol : string) : string :=
  match List.find (fun d => negb (ds_symbol d =s occurrenceSymbol) && containsRange (ds_rng d) occurrenceRange)
          definitions with
  | Some d => ds_symbol d
  | None => ""
  end.

(** ** Roles *)

Definition has_role (o : Occurrence) (role : Z) : bool := 0 <? Z.land (oo_symbol_roles o) role.

Definition dedupeRoles (roles : list string) : list string := dedup_first [] roles.

Definition occurrenceRoles (o : Occurrence) : list string :=
  let add (role : Z) (name : string) := if has_role o role then [name] else [] in
  let roles := add 1 "DEFINITION" ++ add 2 "IMPORT" ++ add 4 "WRITE" ++ add 8 "READ"
               ++ add 16 "GENERATED" ++ add 32 "TEST" ++ add 64 "FORWARD_DEFINITION" in
  let hasDefinition := existsb (fun r => (r =s "DEFINITION") || (r =s "FORWARD_DEFINITION")) roles in
  dedupeRoles (if hasDefinition then roles else "REFERENCE" :: roles).

Definition isDefinitionOccurrence (o : Occurrence) : bool := has_role o 1 || has_role o 64.

Fixpoint derive_loop (roles : list string) (hasReference : bool) : bool :=
  match roles with
  | [] => hasReference
  | r :: rest =>
      if r =s "REFERENCE" then derive_loop rest true
      else if (r =s "DEFINITION") || (r =s "FORWARD_DEFINITION") then false
      else derive_loop rest hasReference
  end.

Definition shouldDeriveReferenceRelationship (roles : list string) (enclosingSymbol targetSymbol : string) : bool :=
  if (enclosingSymbol =s "") || (enclosingSymbol =s targetSymbol) then false
  else derive_loop roles false.

(** ** Symbols *)

(** A suffix of a string, split off at the last byte [c]: what precedes the byte, and
    what follows it. *)
Definition cut_last (c : ascii) (s : string) : option (string * string) :=
  match CutByte c (str_rev s) with
  | Some (after, before) => Some (str_rev before, str_rev after)
  | None => None
  end.

Definition backtick_byte : ascii := ascii_of_nat 96.

(** [\(\)\.\([^)]+\)$]: the last closing bracket but one is the one of [()]. *)
Definition scipParameterSymbol (s : string) : bool :=
  HasSuffix s ")" &&
  match cut_last ")" (TrimSuffix s ")") with
  | Some (before, w) => HasSuffix before "(" && HasPrefix w ".(" && (2 <? String.length w)%nat
  | None => false
  end.

Definition is_digit (c : ascii) : bool := (48 <=? nat_of_ascii c)%nat && (nat_of_ascii c <=? 57)%nat.

(** [\d+:$] *)
Definition scipGeneratedPropertySymbol (s : string) : bool :=
  match str_rev s with
  | String c (String d _) => bool_decide (c = ":"%char) && is_digit d
  | _ => false
  end.

(** [\s]: tab, line feed, form feed, carriage return and space. *)
Definition perl_space (c : ascii) : bool := bool_decide (nat_of_ascii c ∈ [9; 10; 12; 13; 32]%nat).

Fixpoint drop_front (f : ascii -> bool) (s : string) : string :=
  match s with String c s' => if f c then drop_front f s' else s | EmptyString => "" end.

(** A quoted name, white space and a slash at the end. *)
Definition scipFileScopeSymbol (s : string) : bool :=
  HasSuffix s "/" &&
  match drop_front perl_space (str_rev (TrimSuffix s "/")) with
  | String c r =>
      bool_decide (c = backtick_byte) &&
      match CutByte backtick_byte r with
      | Some (name, _) => negb (name =s "")
      | None => false
      end
  | EmptyString => false
  end.

Definition isSCIPFileScopeSymbol (symbol : string) : bool :=
  scipFileScopeSymbol symbol || HasSuffix symbol "/".

Definition isSemanticProjectSymbol (symbol : string) : bool :=
  negb (HasPrefix symbol "local ") && negb (scipParameterSymbol symbol)
  && negb (scipGeneratedPropertySymbol symbol) && negb (isSCIPFileScopeSymbol symbol).

(** [strings.FieldsFunc] for a predicate on bytes. *)
Fixpoint fields_func (f : ascii -> bool) (cur : list ascii) (s : string) : list string :=
  let flush := match cur with [] => [] | _ => [String.string_of_list_ascii (rev cur)] end in
  match s with
  | EmptyString => flush
  | String c s' => if f c then flush ++ fields_func f [] s' else fields_func f (c :: cur) s'
  end.

Definition symbol_delimiter (c : ascii) : bool :=
  bool_decide (c ∈ ["/"; "#"; "."; ":"; "!"; "("; ")"; "["; "]"]%char).

Definition displayNameFromSCIPSymbol (symbol : string) : string :=
  let compact := Join (Fields symbol) " " in
  default compact (last (fields_func symbol_delimiter [] compact)).

Definition name_in (names : list (Z * string)) (kind : Z) : string :=
  match List.find (fun p => p.1 =? kind) names with Some p => p.2 | None => "" end.

Definition symbol_kinds : list (Z * string) :=
  [(1, "Array"); (2, "Assertion"); (3, "AssociatedType"); (4, "Attribute"); (5, "Axiom");
   (6, "Boolean"); (7, "Class"); (8, "Constant"); (9, "Constructor"); (10, "DataFamily");
   (11, "Enum"); (12, "EnumMember"); (13, "Event"); (14, "Fact"); (15, "Field"); (16, "File");
   (17, "Function"); (18, "Getter"); (19, "Grammar"); (20, "Instance"); (21, "Interface");
   (22, "Key"); (23, "Lang"); (24, "Lemma"); (25, "Macro"); (26, "Method"); (27, "MethodReceiver");
   (28, "Message"); (29, "Module"); (30, "Namespace"); (31, "Null"); (32, "Number");
   (33, "Object"); (34, "Operator"); (35, "Package"); (36, "PackageObject"); (37, "Parameter");
   (38, "ParameterLabel"); (39, "Pattern"); (40, "Predicate"); (41, "Property"); (42, "Protocol");
   (43, "Quasiquoter"); (44, "SelfParameter"); (45, "Setter"); (46, "Signature");
   (47, "Subscript"); (48, "String"); (49, "Struct"); (50, "Tactic"); (51, "Theorem");
   (52, "ThisParameter"); (53, "Trait"); (54, "Type"); (55, "TypeAlias"); (56, "TypeClass");
   (57, "TypeFamily"); (58, "TypeParameter"); (59, "Union"); (60, "Value"); (61, "Variable");
   (62, "Contract"); (63, "Error"); (64, "Library"); (65, "Modifier"); (66, "AbstractMethod");
   (67, "MethodSpecification"); (68, "ProtocolMethod"); (69, "PureVirtualMethod");
   (70, "TraitMethod"); (71, "TypeClassMethod"); (72, "Accessor"); (73, "Delegate");
   (74, "MethodAlias"); (75, "SingletonClass"); (76, "SingletonMethod"); (77, "StaticDataMember");
   (78, "StaticEvent"); (79, "StaticField"); (80, "StaticMethod"); (81, "StaticProperty");
   (82, "StaticVariable"); (84, "Extension"); (85, "Mixin"); (86, "Concept")].

Definition syntax_kinds : list (Z * string) :=
  [(1, "Comment"); (2, "PunctuationDelimiter"); (3, "PunctuationBracket"); (4, "Keyword");
   (5, "IdentifierOperator"); (6, "Identifier"); (7, "IdentifierBuiltin"); (8, "IdentifierNull");
   (9, "IdentifierConstant"); (10, "IdentifierMutableGlobal"); (11, "IdentifierParameter");
   (12, "IdentifierLocal"); (13, "IdentifierShadowed"); (14, "IdentifierNamespace");
   (15, "IdentifierFunction"); (16, "IdentifierFunctionDefinition"); (17, "IdentifierMacro");
   (18, "IdentifierMacroDefinition"); (19, "IdentifierType"); (20, "IdentifierBuiltinType");
   (21, "IdentifierAttribute"); (22, "RegexEscape"); (23, "RegexRepeated"); (24, "RegexWildcard");
   (25, "RegexDelimiter"); (26, "RegexJoin"); (27, "StringLiteral"); (28, "StringLiteralEscape");
   (29, "StringLiteralSpecial"); (30, "StringLiteralKey"); (31, "CharacterLiteral");
   (32, "NumericLiteral"); (33, "BooleanLiteral"); (34, "Tag"); (35, "TagAttribute");
   (36, "TagDelimiter")].

Definition symbolKindName (kind : Z) : string := name_in symbol_kinds kind.
Definition syntaxKindDisplayName (kind : Z) : string := name_in syntax_kinds kind.
Definition syntaxKindName (o : Occurrence) : option string := ptrIfNotEmpty (syntaxKindDisplayName (oo_syntax_kind o)).

(** ** Paths *)

Definition nul : string := String (ascii_of_nat 0) "".
Definition backslash_str : string := String (ascii_of_nat 92) "".

Fixpoint sanitize_parts (parts : list string) : option (list string) :=
  match parts with
  | [] => Some []
  | part :: rest =>
      if (part =s "") || (part =s ".") then sanitize_parts rest
      else if part =s ".." then None
      else if Contains part nul then None
      else cons part <$> sanitize_parts rest
  end.

(** A drive letter. *)
Definition has_volume (s : string) : bool :=
  match s with String _ (String c _) => bool_decide (c = ":"%char) | _ => false end.

Definition sanitizeRepoRelativePath (value : string) : option string :=
  let value := TrimSpace value in
  if (value =s "") || (value =s ".") then Some ""
  else if Contains value nul || Contains value backslash_str || HasPrefix value "/" then None
  else if has_volume value then None
  else (fun out => Join out "/") <$> sanitize_parts (SplitByte "/" value).

Definition joinProjectPathChecked (projectRoot relativePath : string) : option string :=
  match sanitizeRepoRelativePath projectRoot, sanitizeRepoRelativePath relativePath with
  | Some root, Some rel =>
      Some (if root =s "" then rel else if rel =s "" then root else root +:+ "/" +:+ rel)
  | _, _ => None
  end.

(** ** Lines *)

Definition rune_start (c : ascii) : bool := negb (Nat.land (nat_of_ascii c) 192 =? 128)%nat.

(** [for i > 0 && !utf8.RuneStart(line[i]) { i-- }] *)
Fixpoint back_to_rune (line : string) (i : nat) : nat :=
  match i with
  | O => O
  | S i' => match String.get i line with
            | Some c => if rune_start c then i else back_to_rune line i'
            | None => i
            end
  end.

Definition truncateLineContent (line : string) : string :=
  if (String.length line <=? Z.to_nat 2000)%nat then line
  else str_take (back_to_rune line (Z.to_nat 2000)) line +:+ "...".

(** [strings.ReplaceAll(s, "\r\n", "\n")] *)
Fixpoint unix_lines (s : string) : string :=
  match s with
  | String a s' =>
      match s' with
      | String b t => if bool_decide (a = ascii_of_nat 13) && bool_decide (b = ascii_of_nat 10)
                      then String b (unix_lines t) else String a (unix_lines s')
      | EmptyString => s
      end
  | EmptyString => ""
  end.

Definition newline : ascii := ascii_of_nat 10.

(** [lineContentCache]: [None] under a key is a file that could not be read. *)
Record lineContentCache : Type := {
  lc_root : string; lc_files : gmap string (option (list string)); lc_order : list string
}.

Definition newLineContentCache (d : Disk) (root : string) : lineContentCache :=
  let clean := match Abs d root with
               | Err _ => ""
               | Ok "" => ""
               | Ok abs => match EvalSymlinks d abs with Ok resolved => Clean resolved | Err _ => "" end
               end in
  {| lc_root := clean; lc_files := ∅; lc_order := [] |}.

Definition maxLineFileBytes : Z := 8 * 2 ^ 20.

Definition readLines (d : Disk) (root filePath : string) : option (list string) :=
  match sanitizeRepoRelativePath filePath with
  | None | Some "" => None
  | Some safe =>
      match Abs d (FilepathJoin [root; safe]) with
      | Err _ => None
      | Ok candidate =>
          if negb (HasPrefix candidate (root +:+ "/")) then None
          else match EvalSymlinks d candidate with
               | Err _ => None
               | Ok r =>
                   let resolved := Clean r in
                   if negb (resolved =s candidate) || negb (HasPrefix resolved (root +:+ "/")) then None
                   else match Stat d resolved with
                        | Err _ => None
                        | Ok info =>
                            if negb (is_regular info) || (maxLineFileBytes <? node_size info) then None
                            else match ReadFile d resolved with
                                 | Err _ => None
                                 | Ok content => Some (SplitByte newline (unix_lines content))
                                 end
                        end
               end
      end
  end.

(** The entry of a file, read when it is not there; the oldest of 64 goes. *)
Definition cached_lines (d : Disk) (c : lineContentCache) (filePath : string)
  : lineContentCache * option (list string) :=
  match lc_files c !! filePath with
  | Some lines => (c, lines)
  | None =>
      let '(files, order) :=
        match lc_order c with
        | oldest :: rest => if (64 <=? size (lc_files c))%nat then (delete oldest (lc_files c), rest)
                            else (lc_files c, lc_order c)
        | [] => (lc_files c, lc_order c)
        end in
      let lines := readLines d (lc_root c) filePath in
      ({| lc_root := lc_root c; lc_files := <[filePath := lines]> files; lc_order := order ++ [filePath] |}, lines)
  end.

Definition line_at (lines : list string) (zeroBasedLine : Z) : string :=
  truncateLineContent (default "" (lines !! Z.to_nat zeroBasedLine)).

Definition getLineContent (d : Disk) (c : lineContentCache) (filePath : string) (zeroBasedLine : Z)
  : lineContentCache * option string :=
  if (zeroBasedLine <? 0) || (lc_root c =s "") then (c, None)
  else let '(c', lines) := cached_lines d c filePath in
       (c', (fun l => line_at l zeroBasedLine) <$> lines).

(** ** [RowsFromIndex] *)

Definition boolKey (v : bool) : string := if v then "true" else "false".

Definition relationship_key (row : ScipRelationshipRow) : string :=
  Join [sr_SourceSymbol row; sr_TargetSymbol row; boolKey (sr_IsReference row);
        boolKey (sr_IsImplementation row); boolKey (sr_IsTypeDefinition row); boolKey (sr_IsDefinition row)] nul.

Definition shouldPersistProjectRelationship (row : ScipRelationshipRow) (projectDefinedSymbols : gset string) : bool :=
  if negb (bool_decide (sr_SourceSymbol row ∈ projectDefinedSymbols)) then false
  else if negb (bool_decide (sr_TargetSymbol row ∈ projectDefinedSymbols)) then false
  else isSemanticProjectSymbol (sr_SourceSymbol row) && isSemanticProjectSymbol (sr_TargetSymbol row).

Definition relationship_row (sourceSymbol : string) (r : Relationship) : ScipRelationshipRow :=
  {| sr_SourceSymbol := sourceSymbol; sr_TargetSymbol := rp_symbol r; sr_IsReference := rp_is_reference r;
     sr_IsImplementation := rp_is_implementation r; sr_IsTypeDefinition := rp_is_type_definition r;
     sr_IsDefinition := rp_is_definition r |}.

(** The rows so far and the keys of those that are kept. *)
Definition addRelationshipRows (out : list ScipRelationshipRow * gset string) (projectDefinedSymbols : gset string)
    (sourceSymbol : string) (relationships : list Relationship) : list ScipRelationshipRow * gset string :=
  foldl (fun '(rows, keys) r =>
    let row := relationship_row sourceSymbol r in
    if negb (shouldPersistProjectRelationship row projectDefinedSymbols) then (rows, keys)
    else if bool_decide (relationship_key row ∈ keys) then (rows, keys)
    else (rows ++ [row], {[relationship_key row]} ∪ keys)) out relationships.

Definition definitionOccurrence : Type := Occurrence * Document.

Definition toSymbolRow (symbol : SymbolInformation) (language projectRoot : string)
    (definition : option definitionOccurrence) : ScipSymbolRow :=
  {| ss_Symbol := si_symbol symbol;
     ss_DisplayName := if si_display_name symbol =s "" then displayNameFromSCIPSymbol (si_symbol symbol)
                       else si_display_name symbol;
     ss_Kind := ptrIfNotEmpty (symbolKindName (si_kind symbol)); ss_Language := ptrIfNotEmpty language;
     ss_Documentation := si_documentation symbol;
     ss_Signature := match si_signature symbol with Some text => ptrIfNotEmpty text | None => None end;
     ss_FilePath := match definition with
                    | Some (_, document) => joinProjectPathChecked projectRoot (do_relative_path document)
                    | None => None
                    end;
     ss_Range := match definition with Some (o, _) => normalizeRange (oo_range o) | None => None end;
     ss_EnclosingSymbol := ptrIfNotEmpty (si_enclosing_symbol symbol) |}.

(** What the first loop collects. *)
Record Collected : Type := {
  co_symbols : gset string;
  co_definitions : gmap string definitionOccurrence;
  co_scopes : gmap string (list definitionScope)
}.

Definition scope_range (o : Occurrence) : option NormalizedRange :=
  match normalizeRange (oo_enclosing_range o) with Some r => Some r | None => normalizeRange (oo_range o) end.

Definition collect_occurrence (filePath : string) (document : Document) (c : Collected) (o : Occurrence) : Collected :=
  if (oo_symbol o =s "") || negb (isDefinitionOccurrence o) then c
  else {| co_symbols := co_symbols c;
          co_definitions := <[oo_symbol o := (o, document)]> (co_definitions c);
          co_scopes := match scope_range o with
                       | Some rng => <[filePath := default [] (co_scopes c !! filePath)
                                                   ++ [{| ds_symbol := oo_symbol o; ds_rng := rng |}]]> (co_scopes c)
                       | None => co_scopes c
                       end |}.

Definition collect_document (projectRoot : string) (c : Collected) (document : Document) : Collected :=
  match joinProjectPathChecked projectRoot (do_relative_path document) with
  | None => c
  | Some filePath =>
      foldl (collect_occurrence filePath document)
        {| co_symbols := list_to_set (map si_symbol (do_symbols document)) ∪ co_symbols c;
           co_definitions := co_definitions c; co_scopes := co_scopes c |}
        (do_occurrences document)
  end.

Definition collect (projectRoot : string) (index : Index) : Collected :=
  foldl (collect_document projectRoot) {| co_symbols := ∅; co_definitions := ∅; co_scopes := ∅ |}
    (ix_documents index).

Definition project_defined (c : Collected) : gset string :=
  base.filter (fun s => is_Some (co_definitions c !! s) /\ isSemanticProjectSymbol s = true) (co_symbols c).

(** [sort.Slice] by [rangeSpan]: some order in which the spans do not go down. *)
Class SliceSort : Type := slice_sort : list definitionScope -> list definitionScope.

Record Building : Type := {
  bd_symbols : list ScipSymbolRow; bd_occurrences : list ScipOccurrenceRow;
  bd_relationships : list ScipRelationshipRow * gset string; bd_cache : lineContentCache
}.

Section Rows.
Context `{sorter : SliceSort} (d : Disk) (projectLanguage projectRoot : string) (c : Collected).

Definition sorted_scopes (filePath : string) : list definitionScope :=
  match co_scopes c !! filePath with Some l => slice_sort l | None => [] end.

Definition occurrence_row (filePath language enclosing : string) (rng : NormalizedRange) (o : Occurrence)
    (line : option string) (role : string) : ScipOccurrenceRow :=
  {| sc_Symbol := oo_symbol o; sc_FilePath := filePath; sc_Range := rng; sc_Role := role;
     sc_Language := ptrIfNotEmpty language; sc_SyntaxKind := syntaxKindName o; sc_LineContent := line;
     sc_EnclosingSymbol := ptrIfNotEmpty enclosing |}.

(** One row per role, each with its own look at the cache. *)
Definition add_role (filePath language enclosing : string) (rng : NormalizedRange) (o : Occurrence)
    (b : Building) (role : string) : Building :=
  let '(cache, line) := getLineContent d (bd_cache b) filePath (StartLine rng) in
  {| bd_symbols := bd_symbols b;
     bd_occurrences := bd_occurrences b ++ [occurrence_row filePath language enclosing rng o line role];
     bd_relationships := bd_relationships b; bd_cache := cache |}.

Definition relate (b : Building) (sourceSymbol : string) (relationships : list Relationship) : Building :=
  {| bd_symbols := bd_symbols b; bd_occurrences := bd_occurrences b;
     bd_relationships := addRelationshipRows (bd_relationships b) (project_defined c) sourceSymbol relationships;
     bd_cache := bd_cache b |}.

Definition reference_to (symbol : string) : Relationship :=
  {| rp_symbol := symbol; rp_is_reference := true; rp_is_implementation := false;
     rp_is_type_definition := false; rp_is_definition := false |}.

Definition add_occurrence (filePath language : string) (b : Building) (o : Occurrence) : Building :=
  if oo_symbol o =s "" then b
  else match normalizeRange (oo_range o) with
       | None => b
       | Some rng =>
           let roles := occurrenceRoles o in
           let enclosing := findEnclosingDefinitionSymbol (sorted_scopes filePath) rng (oo_symbol o) in
           let b' := foldl (add_role filePath language enclosing rng o) b roles in
           if shouldDeriveReferenceRelationship roles enclosing (oo_symbol o)
           then relate b' enclosing [reference_to (oo_symbol o)] else b'
       end.

Definition add_symbol (language : string) (definition : option definitionOccurrence) (b : Building)
    (symbol : SymbolInformation) : Building :=
  relate {| bd_symbols := bd_symbols b ++ [toSymbolRow symbol language projectRoot definition];
            bd_occurrences := bd_occurrences b; bd_relationships := bd_relationships b; bd_cache := bd_cache b |}
    (si_symbol symbol) (si_relationships symbol).

Definition add_document (b : Building) (document : Document) : Building :=
  let language := if do_language document =s "" then projectLanguage else do_language document in
  match joinProjectPathChecked projectRoot (do_relative_path document) with
  | None => b
  | Some filePath =>
      foldl (add_occurrence filePath language)
        (foldl (fun b symbol => add_symbol language (co_definitions c !! si_symbol symbol) b symbol) b
           (do_symbols document))
        (do_occurrences document)
  end.

Definition build_rows (cache : lineContentCache) (index : Index) : Building :=
  foldl (add_symbol projectLanguage None)
    (foldl add_document
       {| bd_symbols := []; bd_occurrences := []; bd_relationships := ([], ∅); bd_cache := cache |}
       (ix_documents index))
    (ix_external_symbols index).
End Rows.

Definition RowsFromIndex `{sorter : SliceSort} (d : Disk) (index : Index)
    (projectLanguage projectRoot worktreePath : string) : Rows :=
  let b := build_rows d projectLanguage projectRoot (collect projectRoot index)
             (newLineContentCache d worktreePath) index in
  {| Symbols := bd_symbols b; Occurrences := bd_occurrences b; Relationships := (bd_relationships b).1 |}.

Definition RowsFromArtifactBytes `{sorter : SliceSort} (unmarshal : string -> result gerror Index) (d : Disk)
    (raw projectLanguage projectRoot worktreePath : string) : result gerror Rows :=
  if raw =s "" then Err (EText "empty SCIP artifact")
  else let? index := unmarshal raw in Ok (RowsFromIndex d index projectLanguage projectRoot worktreePath).
