(* ===== verification/ScipRowsFacts.v ===== *)
(** The rows of a SCIP artifact are those of a stateless reference definition, their
    paths stay below the project root, and the enclosing definition of an occurrence
    is the narrowest one. *)
From Stdlib Require Import Ascii.
From S2P Require Import Prelude GoStd GoStdFacts GoText SubjobTypes Disk ScipRows.
(** ** The cache of lines *)

(** Every entry is what a read gives, and the entries are those of the queue. *)
Record cache_ok (d : Disk) (c : lineContentCache) : Prop := {
  ck_entry : forall f l, lc_files c !! f = Some l -> l = readLines d (lc_root c) f;
  ck_order : NoDup (lc_order c);
  ck_dom : forall f, f ∈ lc_order c <-> is_Some (lc_files c !! f);
  ck_size : (size (lc_files c) <= 64)%nat
}.

Lemma new_cache_ok d root : cache_ok d (newLineContentCache d root).
Proof.
  split; simpl; [intros f l; by rewrite lookup_empty|constructor| |rewrite map_size_empty; lia].
  intros f. rewrite lookup_empty. split; [intros H; by apply not_elem_of_nil in H|by intros []].
Qed.

Lemma cache_size d c : cache_ok d c -> size (lc_files c) = length (lc_order c).
Proof.
  intros [_ Ho Hd _]. rewrite <- size_dom. assert (dom (lc_files c) = list_to_set (lc_order c)) as ->.
  { apply set_eq. intros f. by rewrite elem_of_list_to_set, elem_of_dom, Hd. }
  by apply size_list_to_set.
Qed.

Lemma cached_lines_ok d c f : cache_ok d c ->
  (cached_lines d c f).2 = readLines d (lc_root c) f /\ cache_ok d (cached_lines d c f).1 /\
  lc_root (cached_lines d c f).1 = lc_root c.
Proof.
  intros Hc. pose proof (cache_size d c Hc) as Hsz. destruct Hc as [He Ho Hd Hs]. unfold cached_lines.
  destruct (lc_files c !! f) as [lines|] eqn:E; [simpl; split; [by apply He|by split]|].
  assert (Hf : f ∉ lc_order c) by (intros Hin; apply Hd in Hin as [? Hin]; congruence).
  assert (Hgen : forall files order, (forall x l, files !! x = Some l -> lc_files c !! x = Some l) ->
    NoDup order -> (forall x, x ∈ order <-> is_Some (files !! x)) -> f ∉ order -> (size files <= 63)%nat ->
    cache_ok d {| lc_root := lc_root c; lc_files := <[f := readLines d (lc_root c) f]> files; lc_order := order ++ [f] |}).
  { intros files order Hin Hnd Hdom Hnf Hsize. split; simpl.
    - intros x l. destruct (decide (x = f)) as [->|Hne]; [rewrite lookup_insert_eq; congruence|].
      rewrite lookup_insert_ne by done. intros Hx. by apply He, Hin.
    - apply NoDup_app. split; [done|]. split; [|apply NoDup_singleton].
      intros x Hx ->%list_elem_of_singleton. done.
    - intros x. rewrite elem_of_app, list_elem_of_singleton. destruct (decide (x = f)) as [->|Hne].
      + rewrite lookup_insert_eq. split; [eauto|by right].
      + rewrite lookup_insert_ne by done. rewrite <- Hdom. naive_solver.
    - rewrite map_size_insert. destruct (files !! f); simpl; lia. }
  assert (Hall : (size (lc_files c) <= 63)%nat -> cache_ok d {| lc_root := lc_root c;
    lc_files := <[f := readLines d (lc_root c) f]> (lc_files c); lc_order := lc_order c ++ [f] |}).
  { intros Hle. by apply Hgen. }
  destruct (lc_order c) as [|oldest rest] eqn:Eo; [simpl; split; [done|]; split; [apply Hall; simpl in Hsz; lia|done]|].
  destruct (64 <=? size (lc_files c))%nat eqn:E64; cycle 1.
  { simpl. split; [done|]. split; [|done]. apply Hall. apply Nat.leb_gt in E64. lia. }
  simpl. split; [done|]. split; [|done]. apply NoDup_cons in Ho as [Hold Hnd]. apply Hgen.
  - intros x l Hx. apply lookup_delete_Some in Hx. naive_solver.
  - done.
  - intros x. destruct (decide (x = oldest)) as [->|Hne].
    + rewrite lookup_delete_eq. split; [done|by intros []].
    + rewrite lookup_delete_ne by done. rewrite <- Hd, elem_of_cons. naive_solver.
  - intros Hin. apply Hf. by right.
  - assert (is_Some (lc_files c !! oldest)) as [l Hl] by (apply Hd; left). rewrite map_size_delete, Hl. simpl. lia.
Qed.

(** A line without the cache. *)
Definition line_of (d : Disk) (root filePath : string) (zeroBasedLine : Z) : option string :=
  if (zeroBasedLine <? 0) || (root =s "") then None
  else (fun l => line_at l zeroBasedLine) <$> readLines d root filePath.

Lemma getLineContent_ok d c f n : cache_ok d c ->
  (getLineContent d c f n).2 = line_of d (lc_root c) f n /\ cache_ok d (getLineContent d c f n).1 /\
  lc_root (getLineContent d c f n).1 = lc_root c.
Proof.
  intros Hc. unfold getLineContent, line_of. destruct (_ || _); [done|].
  pose proof (cached_lines_ok d c f Hc) as (E & Hok & Hr). destruct (cached_lines d c f) as [c' lines].
  simpl in *. by rewrite E.
Qed.

(** ** The reference *)

(** The first row of each key. *)
Fixpoint first_of_key (seen : gset string) (l : list ScipRelationshipRow) : list ScipRelationshipRow :=
  match l with
  | [] => []
  | row :: l' =>
      if bool_decide (relationship_key row ∈ seen) then first_of_key seen l'
      else row :: first_of_key ({[relationship_key row]} ∪ seen) l'
  end.

Section Reference.
Context `{sorter : SliceSort} (d : Disk) (projectLanguage projectRoot croot : string) (c : Collected).

Definition enclosing_of (filePath : string) (rng : NormalizedRange) (o : Occurrence) : string :=
  findEnclosingDefinitionSymbol (sorted_scopes c filePath) rng (oo_symbol o).

(** An occurrence counts when it has a symbol and a range. *)
Definition occurrence_range (o : Occurrence) : option NormalizedRange :=
  if oo_symbol o =s "" then None else normalizeRange (oo_range o).

Definition occurrence_rows_of (filePath language : string) (o : Occurrence) : list ScipOccurrenceRow :=
  match occurrence_range o with
  | None => []
  | Some rng => map (occurrence_row filePath language (enclosing_of filePath rng o) rng o
                       (line_of d croot filePath (StartLine rng))) (occurrenceRoles o)
  end.

(** The relationship an occurrence stands for. *)
Definition derived_rows (filePath : string) (o : Occurrence) : list ScipRelationshipRow :=
  match occurrence_range o with
  | None => []
  | Some rng =>
      if shouldDeriveReferenceRelationship (occurrenceRoles o) (enclosing_of filePath rng o) (oo_symbol o)
      then [relationship_row (enclosing_of filePath rng o) (reference_to (oo_symbol o))] else []
  end.

Definition declared_rows (symbol : SymbolInformation) : list ScipRelationshipRow :=
  map (relationship_row (si_symbol symbol)) (si_relationships symbol).

Definition language_of (document : Document) : string :=
  if do_language document =s "" then projectLanguage else do_language document.

(** Over the documents with a path below the project root. *)
Definition over_documents {A} (f : string -> Document -> list A) (docs : list Document) : list A :=
  flat_map (fun document => match joinProjectPathChecked projectRoot (do_relative_path document) with
                            | Some filePath => f filePath document
                            | None => []
                            end) docs.

Definition reference_symbols (index : Index) : list ScipSymbolRow :=
  over_documents (fun _ document => map (fun s => toSymbolRow s (language_of document) projectRoot
                                                    (co_definitions c !! si_symbol s)) (do_symbols document))
    (ix_documents index)
  ++ map (fun s => toSymbolRow s projectLanguage projectRoot None) (ix_external_symbols index).

Definition reference_occurrences (index : Index) : list ScipOccurrenceRow :=
  over_documents (fun filePath document => flat_map (occurrence_rows_of filePath (language_of document))
                                             (do_occurrences document)) (ix_documents index).

Definition relationship_candidates (index : Index) : list ScipRelationshipRow :=
  over_documents (fun filePath document => flat_map declared_rows (do_symbols document)
                                           ++ flat_map (derived_rows filePath) (do_occurrences document))
    (ix_documents index)
  ++ flat_map declared_rows (ix_external_symbols index).

Definition reference_relationships (index : Index) : list ScipRelationshipRow :=
  first_of_key ∅ (List.filter (fun row => shouldPersistProjectRelationship row (project_defined c))
                    (relationship_candidates index)).

(** *** The loops *)

Definition add_row (out : list ScipRelationshipRow * gset string) (row : ScipRelationshipRow)
  : list ScipRelationshipRow * gset string :=
  if negb (shouldPersistProjectRelationship row (project_defined c)) then out
  else if bool_decide (relationship_key row ∈ out.2) then out
  else (out.1 ++ [row], {[relationship_key row]} ∪ out.2).

Definition kept (rows : list ScipRelationshipRow) : list ScipRelationshipRow * gset string :=
  foldl add_row ([], ∅) rows.

Lemma addRelationshipRows_fold out source rels :
  addRelationshipRows out (project_defined c) source rels = foldl add_row out (map (relationship_row source) rels).
Proof.
  unfold addRelationshipRows. revert out. induction rels as [|r rels IH]; intros out; simpl; [done|].
  rewrite IH. f_equal. destruct out. unfold add_row. simpl. by repeat case_match.
Qed.

Lemma fold_add_row out rows :
  (foldl add_row out rows).1 = out.1 ++ first_of_key out.2
    (List.filter (fun row => shouldPersistProjectRelationship row (project_defined c)) rows).
Proof.
  revert out. induction rows as [|row rows IH]; intros out; simpl; [by rewrite app_nil_r|].
  rewrite IH. unfold add_row. destruct (shouldPersistProjectRelationship _ _); simpl; [|done].
  case_bool_decide; [done|]. simpl. by rewrite <- app_assoc.
Qed.

(** The state after some symbols, occurrences and candidates. *)
Record state_is (b : Building) (syms : list ScipSymbolRow) (occs : list ScipOccurrenceRow)
    (cands : list ScipRelationshipRow) : Prop := {
  st_symbols : bd_symbols b = syms;
  st_occurrences : bd_occurrences b = occs;
  st_relationships : bd_relationships b = kept cands;
  st_cache : cache_ok d (bd_cache b);
  st_root : lc_root (bd_cache b) = croot
}.

Lemma state_relate b syms occs cands source rels : state_is b syms occs cands ->
  state_is (relate c b source rels) syms occs (cands ++ map (relationship_row source) rels).
Proof.
  intros [H1 H2 H3 H4 H5]. split; simpl; try done. rewrite H3, addRelationshipRows_fold.
  unfold kept. by rewrite foldl_app.
Qed.

Lemma state_symbol b syms occs cands language definition s : state_is b syms occs cands ->
  state_is (add_symbol projectRoot c language definition b s) (syms ++ [toSymbolRow s language projectRoot definition])
    occs (cands ++ declared_rows s).
Proof.
  intros [H1 H2 H3 H4 H5]. apply state_relate. split; simpl; try done. by rewrite H1.
Qed.

Lemma state_symbols language definition l b syms occs cands : state_is b syms occs cands ->
  state_is (foldl (fun b s => add_symbol projectRoot c language (definition s) b s) b l)
    (syms ++ map (fun s => toSymbolRow s language projectRoot (definition s)) l) occs (cands ++ flat_map declared_rows l).
Proof.
  revert b syms cands. induction l as [|s l IH]; intros b syms cands H; simpl; [by rewrite !app_nil_r|].
  rewrite (cons_middle _ syms), (app_assoc cands), !(app_assoc syms). apply IH. by apply state_symbol.
Qed.

Lemma state_roles filePath language enclosing rng o roles b syms occs cands : state_is b syms occs cands ->
  state_is (foldl (add_role d filePath language enclosing rng o) b roles) syms
    (occs ++ map (occurrence_row filePath language enclosing rng o (line_of d croot filePath (StartLine rng))) roles) cands.
Proof.
  revert b occs. induction roles as [|r roles IH]; intros b occs H; simpl; [by rewrite app_nil_r|].
  rewrite (cons_middle _ occs), !(app_assoc occs). apply IH. destruct H as [H1 H2 H3 H4 H5]. unfold add_role.
  pose proof (getLineContent_ok d (bd_cache b) filePath (StartLine rng) H4) as (E & Hok & Hr).
  destruct (getLineContent _ _ _ _) as [cache line]. simpl in *. rewrite H5 in E, Hr.
  split; simpl; [done|by rewrite H2, E|done|done|done].
Qed.

Lemma state_occurrence filePath language o b syms occs cands : state_is b syms occs cands ->
  state_is (add_occurrence d c filePath language b o) syms (occs ++ occurrence_rows_of filePath language o)
    (cands ++ derived_rows filePath o).
Proof.
  intros H. unfold add_occurrence, occurrence_rows_of, derived_rows, occurrence_range.
  destruct (oo_symbol o =s ""); [by rewrite !app_nil_r|].
  destruct (normalizeRange _) as [rng|]; [|by rewrite !app_nil_r]. cbn zeta. fold (enclosing_of filePath rng o).
  apply (state_roles filePath language (enclosing_of filePath rng o) rng o (occurrenceRoles o)) in H.
  destruct (shouldDeriveReferenceRelationship _ _ _); [|by rewrite app_nil_r].
  by apply (state_relate _ _ _ _ (enclosing_of filePath rng o) [reference_to (oo_symbol o)]).
Qed.

Lemma state_occurrences filePath language l b syms occs cands : state_is b syms occs cands ->
  state_is (foldl (add_occurrence d c filePath language) b l) syms
    (occs ++ flat_map (occurrence_rows_of filePath language) l) (cands ++ flat_map (derived_rows filePath) l).
Proof.
  revert b occs cands. induction l as [|o l IH]; intros b occs cands H; simpl; [by rewrite !app_nil_r|].
  rewrite (app_assoc occs), (app_assoc cands). apply IH. by apply state_occurrence.
Qed.

Lemma state_documents docs b syms occs cands : state_is b syms occs cands ->
  state_is (foldl (add_document d projectLanguage projectRoot c) b docs)
    (syms ++ over_documents (fun _ document => map (fun s => toSymbolRow s (language_of document) projectRoot
                                                    (co_definitions c !! si_symbol s)) (do_symbols document)) docs)
    (occs ++ over_documents (fun filePath document => flat_map (occurrence_rows_of filePath (language_of document))
                                             (do_occurrences document)) docs)
    (cands ++ over_documents (fun filePath document => flat_map declared_rows (do_symbols document)
                                           ++ flat_map (derived_rows filePath) (do_occurrences document)) docs).
Proof.
  revert b syms occs cands. induction docs as [|doc docs IH]; intros b syms occs cands H; simpl; [by rewrite !app_nil_r|].
  rewrite (app_assoc syms), (app_assoc occs), (app_assoc cands). apply IH. unfold add_document. cbn zeta.
  fold (language_of doc). destruct (joinProjectPathChecked _ _) as [filePath|]; [|by rewrite !app_nil_r].
  rewrite (app_assoc cands). apply state_occurrences.
  by apply (state_symbols (language_of doc) (fun s => co_definitions c !! si_symbol s)).
Qed.
End Reference.

(** C34: the rows of an artifact are those of the reference definition.  The loops,
    with their cache of 64 files and their set of keys, give exactly: one row per
    symbol of the documents below the project root and per external symbol; one
    row per role of each occurrence that has a symbol and a range, with the line
    of its file read anew and its enclosing definition; and, of the relationships
    that symbols declare and that references imply, in order, the first of each key
    whose two ends the project defines. *)
Theorem rows_reference `{sorter : SliceSort} d index projectLanguage projectRoot worktreePath :
  let c := collect projectRoot index in
  RowsFromIndex d index projectLanguage projectRoot worktreePath
  = {| Symbols := reference_symbols projectLanguage projectRoot c index;
       Occurrences := reference_occurrences d projectLanguage projectRoot
                        (lc_root (newLineContentCache d worktreePath)) c index;
       Relationships := reference_relationships projectRoot c index |}.
Proof.
  cbn zeta. unfold RowsFromIndex, build_rows.
  set (c := collect projectRoot index). set (cache := newLineContentCache d worktreePath).
  assert (H0 : state_is d (lc_root cache) c {| bd_symbols := []; bd_occurrences := []; bd_relationships := ([], ∅);
    bd_cache := cache |} [] [] []) by (split; simpl; try done; apply new_cache_ok).
  apply (state_documents d projectLanguage projectRoot (lc_root cache) c (ix_documents index)) in H0.
  apply (state_symbols d projectRoot (lc_root cache) c projectLanguage (fun _ => None) (ix_external_symbols index)) in H0.
  change (fun b s => add_symbol projectRoot c projectLanguage None b s) with (add_symbol projectRoot c projectLanguage None) in H0.
  destruct H0 as [H1 H2 H3 _ _]. rewrite H1, H2, H3. simpl. unfold kept. by rewrite fold_add_row.
Qed.

(** ** Paths *)

(** Relative, without empty elements, [.] or [..]. *)
Definition safe_path (p : string) : Prop := p = "" \/ Forall plain (SplitByte "/" p).

Lemma sanitize_parts_plain parts out : Forall slash_free parts -> sanitize_parts parts = Some out -> Forall plain out.
Proof.
  revert out. induction parts as [|x parts IH]; intros out Hs; simpl; [by intros [= <-]|].
  apply Forall_cons in Hs as [Hx Hs].
  destruct (x =s "") eqn:E1; [by apply IH|]. destruct (x =s ".") eqn:E2; [by apply IH|]. simpl.
  destruct (x =s "..") eqn:E3; [done|]. destruct (Contains x nul); [done|].
  destruct (sanitize_parts parts) as [l|] eqn:E; [|done]. intros [= <-]. constructor; [|by apply IH].
  rewrite str_eqb_false in E1, E2, E3. by repeat split.
Qed.

Lemma Forall_plain_slash l : Forall plain l -> Forall slash_free l.
Proof. intros H. eapply Forall_impl; [exact H|]. by intros w (_ & _ & _ & Hw). Qed.

Lemma sanitize_safe v p : sanitizeRepoRelativePath v = Some p -> safe_path p.
Proof.
  unfold sanitizeRepoRelativePath. destruct (_ || _); [intros [= <-]; by left|].
  destruct (_ || _); [done|]. destruct (has_volume _); [done|].
  destruct (sanitize_parts _) as [out|] eqn:E; [|done]. intros [= <-].
  apply sanitize_parts_plain in E; [|apply SplitByte_slash_free].
  destruct out as [|x out]; [by left|]. right. rewrite SplitByte_Join; [done|done|by apply Forall_plain_slash].
Qed.

Lemma join_safe root rel p : joinProjectPathChecked root rel = Some p -> safe_path p.
Proof.
  unfold joinProjectPathChecked. destruct (sanitizeRepoRelativePath root) as [r|] eqn:Er; [|done].
  destruct (sanitizeRepoRelativePath rel) as [q|] eqn:Eq; [|done]. apply sanitize_safe in Er, Eq. intros [= <-].
  destruct (r =s "") eqn:E1; [done|]. destruct (q =s "") eqn:E2; [done|]. rewrite str_eqb_false in E1, E2.
  destruct Er as [|Er]; [done|]. destruct Eq as [|Eq]; [done|]. right.
  pose proof (SplitByte_sep r q) as Hs. simpl in Hs. rewrite Hs. by apply Forall_app.
Qed.

(** ** What the project defines *)

(** The symbol is listed in a document below the project root, and a definition of
    it stands in one. *)
Definition defined_in_project (projectRoot : string) (index : Index) (s : string) : Prop :=
  (exists document, document ∈ ix_documents index /\
     is_Some (joinProjectPathChecked projectRoot (do_relative_path document)) /\
     exists info, info ∈ do_symbols document /\ si_symbol info = s) /\
  (exists document o, document ∈ ix_documents index /\
     is_Some (joinProjectPathChecked projectRoot (do_relative_path document)) /\
     o ∈ do_occurrences document /\ oo_symbol o = s /\ isDefinitionOccurrence o = true) /\
  isSemanticProjectSymbol s = true.

Record collected_from (projectRoot : string) (docs : list Document) (c : Collected) : Prop := {
  cf_symbols : forall s, s ∈ co_symbols c -> exists document, document ∈ docs /\
    is_Some (joinProjectPathChecked projectRoot (do_relative_path document)) /\
    exists info, info ∈ do_symbols document /\ si_symbol info = s;
  cf_definitions : forall s o document, co_definitions c !! s = Some (o, document) -> document ∈ docs /\
    is_Some (joinProjectPathChecked projectRoot (do_relative_path document)) /\
    o ∈ do_occurrences document /\ oo_symbol o = s /\ isDefinitionOccurrence o = true
}.

Lemma collect_occurrences_from projectRoot docs document filePath occs c :
  document ∈ docs -> joinProjectPathChecked projectRoot (do_relative_path document) = Some filePath ->
  (forall o, o ∈ occs -> o ∈ do_occurrences document) ->
  collected_from projectRoot docs c ->
  collected_from projectRoot docs (foldl (collect_occurrence filePath document) c occs).
Proof.
  intros Hd Hp. revert c. induction occs as [|o occs IH]; intros c Ho Hc; simpl; [done|].
  apply IH; [intros x Hx; apply Ho; by right|]. unfold collect_occurrence.
  destruct (_ =s _); [done|]. destruct (isDefinitionOccurrence o) eqn:Ed; [|done]. simpl.
  destruct Hc as [C1 C2]. split; simpl; [done|]. intros s o' doc'.
  destruct (decide (s = oo_symbol o)) as [->|Hne].
  - rewrite lookup_insert_eq. intros [= <- <-]. rewrite Hp. repeat split; eauto. apply Ho. left.
  - rewrite lookup_insert_ne by done. apply C2.
Qed.

Lemma collect_from projectRoot index : collected_from projectRoot (ix_documents index) (collect projectRoot index).
Proof.
  unfold collect. set (docs := ix_documents index).
  assert (Hgen : forall l c, (forall x, x ∈ l -> x ∈ docs) -> collected_from projectRoot docs c ->
    collected_from projectRoot docs (foldl (collect_document projectRoot) c l)).
  { induction l as [|doc l IH]; intros c Hl Hc; simpl; [done|].
    assert (Hin : doc ∈ docs) by (apply Hl; left).
    apply IH; [intros x Hx; apply Hl; by right|]. unfold collect_document.
    destruct (joinProjectPathChecked _ _) as [p|] eqn:Ep; [|done].
    apply (collect_occurrences_from _ _ _ _ _ _ Hin Ep); [done|].
    destruct Hc as [C1 C2]. split; simpl; [|done].
    intros s [Hs|Hs]%elem_of_union; [|by apply C1].
    apply elem_of_list_to_set, list_elem_of_In, in_map_iff in Hs as (info & <- & Hi%list_elem_of_In).
    exists doc. rewrite Ep. eauto 6. }
  apply Hgen; [done|]. split; simpl; [set_solver|]. intros s o doc. by rewrite lookup_empty.
Qed.

Lemma project_defined_in projectRoot index s :
  s ∈ project_defined (collect projectRoot index) -> defined_in_project projectRoot index s.
Proof.
  unfold project_defined. rewrite elem_of_filter. intros [[[[o doc] Ho] Hsem] Hs].
  destruct (collect_from projectRoot index) as [C1 C2].
  destruct (C2 _ _ _ Ho) as (H1 & H2 & H3 & H4 & H5). split; [by apply C1|]. split; [eauto 8|done].
Qed.

Lemma first_of_key_elem seen l row : row ∈ first_of_key seen l -> row ∈ l /\ relationship_key row ∉ seen.
Proof.
  revert seen. induction l as [|x l IH]; intros seen; simpl; [intros H; by apply not_elem_of_nil in H|]. case_bool_decide as Hx.
  - intros H%IH. split; [right; apply H|apply H].
  - intros [->|H%IH]%elem_of_cons; [split; [left|done]|]. split; [right; apply H|set_solver].
Qed.

Lemma first_of_key_nodup seen l : NoDup (map relationship_key (first_of_key seen l)).
Proof.
  revert seen. induction l as [|x l IH]; intros seen; simpl; [constructor|]. case_bool_decide; [done|].
  simpl. constructor; [|done]. intros Hin. apply list_elem_of_In, in_map_iff in Hin as (y & Hy & Hin%list_elem_of_In).
  apply first_of_key_elem in Hin as [_ Hin]. set_solver.
Qed.

(** The file a line was read from: regular, below the worktree, and reached without a
    link. *)
Definition line_from (d : Disk) (croot filePath line : string) : Prop :=
  exists path content n, HasPrefix path (croot +:+ "/") = true /\
    (exists r, EvalSymlinks d path = Ok r /\ Clean r = path) /\
    Stat d path = Ok (NFile content) /\ Z.of_nat (String.length content) <= maxLineFileBytes /\
    (exists text, ReadFile d path = Ok text /\ line = line_at (SplitByte newline (unix_lines text)) n).

Lemma line_of_from d croot filePath n line : line_of d croot filePath n = Some line -> line_from d croot filePath line.
Proof.
  unfold line_of. destruct (_ || _); [done|]. destruct (readLines d croot filePath) as [lines|] eqn:E; [|done].
  intros [= <-]. revert E. unfold readLines. destruct (sanitizeRepoRelativePath filePath) as [safe|]; [|done].
  destruct safe as [|a safe]; [done|]. destruct (Abs d _) as [path|]; [|done].
  destruct (HasPrefix path _) eqn:Ep; [|done]. simpl. destruct (EvalSymlinks d path) as [r|] eqn:Ev; [|done].
  destruct (Clean r =s path) eqn:Ec; [|done]. apply str_eqb_spec in Ec. rewrite Ec, Ep. simpl.
  destruct (Stat d path) as [info|] eqn:Es; [|done]. destruct info as [content| | |]; try done. simpl.
  destruct (maxLineFileBytes <? _) eqn:El; [done|]. destruct (ReadFile d path) as [text|] eqn:Er; [|done].
  intros [= <-]. exists path, content, n. apply Z.ltb_ge in El. eauto 10.
Qed.

Lemma elem_over_documents {A} projectRoot (f : string -> Document -> list A) docs x :
  x ∈ over_documents projectRoot f docs -> exists document filePath, document ∈ docs /\
    joinProjectPathChecked projectRoot (do_relative_path document) = Some filePath /\ x ∈ f filePath document.
Proof.
  unfold over_documents. rewrite list_elem_of_In, in_flat_map. intros (doc & Hd%list_elem_of_In & Hx%list_elem_of_In).
  destruct (joinProjectPathChecked _ _) as [p|] eqn:E; [eauto 6|by apply not_elem_of_nil in Hx].
Qed.

Lemma elem_flat_map {A B} (f : A -> list B) l y : y ∈ flat_map f l -> exists x, x ∈ l /\ y ∈ f x.
Proof. rewrite list_elem_of_In, in_flat_map. setoid_rewrite <- list_elem_of_In. done. Qed.

Lemma elem_map {A B} (f : A -> B) l y : y ∈ map f l -> exists x, x ∈ l /\ y = f x.
Proof. rewrite list_elem_of_In, in_map_iff. intros (x & <- & Hx%list_elem_of_In). eauto. Qed.

(** The rows of an artifact are well formed, whatever the artifact holds.  Every
    path is relative and free of [..]; a line comes from a regular file of bounded
    size below the worktree that no link leads to; an occurrence has a symbol; and
    the relationships have distinct keys and both their ends in symbols that
    documents of the project list and define, neither local nor parameters nor
    files. *)
Theorem rows_well_formed `{sorter : SliceSort} d index projectLanguage projectRoot worktreePath :
  let rows := RowsFromIndex d index projectLanguage projectRoot worktreePath in
  let croot := lc_root (newLineContentCache d worktreePath) in
  (forall o, o ∈ Occurrences rows -> safe_path (sc_FilePath o) /\ sc_Symbol o <> "" /\
     forall line, sc_LineContent o = Some line -> line_from d croot (sc_FilePath o) line) /\
  (forall s p, s ∈ Symbols rows -> ss_FilePath s = Some p -> safe_path p) /\
  NoDup (map relationship_key (Relationships rows)) /\
  (forall r, r ∈ Relationships rows -> defined_in_project projectRoot index (sr_SourceSymbol r) /\
     defined_in_project projectRoot index (sr_TargetSymbol r)).
Proof.
  cbn zeta. rewrite rows_reference. cbn [Symbols Occurrences Relationships]. split; [|split; [|split]].
  - intros o Ho. unfold reference_occurrences in Ho. apply elem_over_documents in Ho as (doc & p & _ & Hp & Ho).
    apply elem_flat_map in Ho as (oc & _ & Ho). unfold occurrence_rows_of, occurrence_range in Ho.
    destruct (oo_symbol oc =s "") eqn:Es; [by apply not_elem_of_nil in Ho|].
    destruct (normalizeRange _) as [rng|]; [|by apply not_elem_of_nil in Ho].
    apply elem_map in Ho as (role & _ & ->). simpl. split; [by apply join_safe in Hp|].
    split; [by apply str_eqb_false in Es|]. intros line. apply line_of_from.
  - intros s p Hs Hp. unfold reference_symbols in Hs.
    assert (Hq : exists doc : Document, joinProjectPathChecked projectRoot (do_relative_path doc) = Some p);
      [|destruct Hq as [doc Hq]; by apply join_safe in Hq].
    apply elem_of_app in Hs as [Hs|Hs].
    + apply elem_over_documents in Hs as (doc & q & _ & _ & Hs). apply elem_map in Hs as (info & _ & ->). simpl in Hp.
      destruct (co_definitions _ !! _) as [[o dd]|]; [eauto|done].
    + by apply elem_map in Hs as (info & _ & ->).
  - apply first_of_key_nodup.
  - intros r Hr. apply first_of_key_elem in Hr as [Hr _]. apply elem_of_List_filter in Hr as [_ Hr].
    unfold shouldPersistProjectRelationship in Hr.
    destruct (bool_decide (sr_SourceSymbol r ∈ _)) eqn:E1; [|done]. destruct (bool_decide (sr_TargetSymbol r ∈ _)) eqn:E2; [|done].
    apply bool_decide_eq_true in E1, E2. split; by apply project_defined_in.
Qed.

(** ** The enclosing definition *)

(** What package sort documents of [sort.Slice]. *)
Class SliceSortLaw `{sorter : SliceSort} : Prop := {
  slice_perm : forall l, slice_sort l ≡ₚ l;
  slice_sorted : forall l, StronglySorted (fun a b => rangeSpan (ds_rng a) <= rangeSpan (ds_rng b)) (slice_sort l)
}.

(** Ranges whose span int32 can hold. *)
Definition narrow (r : NormalizedRange) : Prop :=
  StartLine r <= EndLine r <= StartLine r + 21473 /\
  0 <= StartCharacter r < 100000 /\ 0 <= EndCharacter r < 100000.

Definition lines_of (r : NormalizedRange) : Z := EndLine r - StartLine r.

Lemma narrow_span r : narrow r -> 100000 * lines_of r <= rangeSpan r < 100000 * (lines_of r + 1).
Proof.
  intros (H1 & H2 & H3). unfold rangeSpan, lines_of. rewrite !(wrap32_id (EndLine r - StartLine r)) by lia.
  rewrite (wrap32_id (_ * 100000)) by lia. rewrite (wrap32_id (EndCharacter r - StartCharacter r)) by lia.
  destruct (_ <? 0) eqn:E; rewrite wrap32_id by lia; [lia|apply Z.ltb_ge in E; lia].
Qed.

Lemma find_sorted {A} (R : A -> A -> Prop) (f : A -> bool) l x : StronglySorted R l -> (forall a, R a a) ->
  List.find f l = Some x -> x ∈ l /\ f x = true /\ forall y, y ∈ l -> f y = true -> R x y.
Proof.
  intros Hs Hrefl. induction Hs as [|a l Hs IH Ha]; simpl; [done|]. destruct (f a) eqn:E.
  - intros [= <-]. split; [left|]. split; [done|]. intros y [->|Hy]%elem_of_cons _; [done|].
    rewrite Forall_forall in Ha. by apply Ha.
  - intros H. destruct (IH H) as (H1 & H2 & H3). split; [by right|]. split; [done|].
    intros y [->|Hy]%elem_of_cons Hf; [congruence|auto].
Qed.

(** An occurrence is put inside the narrowest definition around it.  Whatever
    order [sort.Slice] gives to equal spans, and as long as every definition of the
    file has at most 21,474 lines of at most 100,000 characters: the enclosing
    definition of an occurrence is another symbol's, its range contains the
    occurrence, and no definition of another symbol that contains the occurrence
    has fewer lines; it is missing only when there is none. *)
Theorem enclosing_narrowest `{law : SliceSortLaw} c filePath scopes rng symbol :
  co_scopes c !! filePath = Some scopes -> Forall (fun s => narrow (ds_rng s) /\ ds_symbol s <> "") scopes ->
  let around s := negb (ds_symbol s =s symbol) && containsRange (ds_rng s) rng in
  let e := findEnclosingDefinitionSymbol (sorted_scopes c filePath) rng symbol in
  (e = "" <-> forall s, s ∈ scopes -> around s = false) /\
  (e <> "" -> exists s, s ∈ scopes /\ ds_symbol s = e /\ around s = true /\
     forall s', s' ∈ scopes -> around s' = true -> lines_of (ds_rng s) <= lines_of (ds_rng s')).
Proof.
  intros Hc Hn. cbn zeta. unfold findEnclosingDefinitionSymbol, sorted_scopes. rewrite Hc.
  pose proof (slice_perm scopes) as Hp. pose proof (slice_sorted scopes) as Hs.
  rewrite Forall_forall in Hn. destruct (List.find _ (slice_sort scopes)) as [s|] eqn:E.
  - apply (find_sorted _ _ _ _ Hs) in E as (Hin & Har & Hmin); [|intros; lia].
    rewrite Hp in Hin. destruct (Hn s Hin) as [Hnar Hne]. split.
    + split; [done|]. intros H. rewrite (H s Hin) in Har. done.
    + intros _. exists s. split; [done|]. split; [done|]. split; [done|]. intros s' Hs' Ha'.
      destruct (Hn s' Hs') as [Hnar' _]. specialize (Hmin s'). rewrite Hp in Hmin.
      apply narrow_span in Hnar, Hnar'. specialize (Hmin Hs' Ha'). lia.
  - split; [|done]. split; [|done]. intros _ s Hin. rewrite <- Hp in Hin.
    apply (find_none _ _ E). by apply list_elem_of_In.
Qed.

(** A definition that is too long comes first.  Its span wraps around in int32:
    in a file with a definition of 21,476 lines, the occurrences inside a method of
    that definition are put inside the definition and not inside the method. *)
Theorem long_definition_wins `{law : SliceSortLaw} c filePath long method rng symbol :
  lines_of (ds_rng long) = 21475 -> 0 <= StartLine (ds_rng long) ->
  StartCharacter (ds_rng long) = 0 -> EndCharacter (ds_rng long) = 0 ->
  narrow (ds_rng method) -> co_scopes c !! filePath = Some [long; method] ->
  ds_symbol long <> symbol -> ds_symbol method <> symbol ->
  containsRange (ds_rng long) rng = true -> containsRange (ds_rng method) rng = true ->
  findEnclosingDefinitionSymbol (sorted_scopes c filePath) rng symbol = ds_symbol long.
Proof.
  unfold lines_of. intros Hl H0 Hsc Hec Hm Hc Hls Hms Hcl Hcm. unfold findEnclosingDefinitionSymbol, sorted_scopes. rewrite Hc.
  assert (Hlong : rangeSpan (ds_rng long) < 0).
  { unfold rangeSpan. rewrite Hl, Hsc, Hec. vm_compute. done. }
  pose proof (narrow_span _ Hm) as Hspan. destruct Hm as (Hm & _). unfold lines_of in Hspan.
  pose proof (slice_perm [long; method]) as Hp. symmetry in Hp. pose proof (slice_sorted [long; method]) as Hs.
  apply Permutation_length_2_inv in Hp as [E|E]; rewrite E in Hs |- *.
  - simpl. apply str_eqb_false in Hls. by rewrite Hls, Hcl.
  - apply StronglySorted_inv in Hs as [_ Hs]. apply Forall_cons in Hs as [Hs _]. lia.
Qed.
