(* ===== verification/ArtifactScope.v ===== *)
(** Where an artifact may lie and what it must hash to: the checks that
    src/internal/backend/astartifact/store.go and
    src/internal/backend/scipartifact/store.go make of the file an executor
    published, before they read it.  The two packages hold the same functions; they
    differ in the name of the package in the messages, the argument [pkg], and in
    the noun of the size limit. *)
From Stdlib Require Import Ascii.
From S2P Require Import Prelude GoStd GoStdFacts GoText Sha256 SubjobTypes SubjobTask Disk.
(** ** Digests *)

Definition lower_hex (c : ascii) : bool :=
  let n := N_of_ascii c in ((48 <=? n) && (n <=? 57) || (97 <=? n) && (n <=? 102))%N.

Definition normalizeSHA256 (value : string) : string :=
  let value := TrimPrefix (TrimSpace (ToLower value)) "sha256:" in
  if negb (String.length value =? 64)%nat then ""
  else if forallb lower_hex (String.list_ascii_of_string value) then value else "".

Definition artifactScopeSegment (value : string) : string := "s-" +:+ str_take 16 (sha256_hex value).

Definition validateArtifactSHA (pkg raw expected : string) : result gerror unit :=
  let expected := normalizeSHA256 expected in
  if expected =s "" then Err (EText (pkg +:+ ": artifact SHA-256 is required"))
  else
    let got := sha256_hex raw in
    if got =s expected then Ok tt
    else Err (EText (pkg +:+ ": artifact SHA-256 mismatch: got " +:+ got +:+ " want " +:+ expected)).

(** ** Scope *)

(** [rel == "." || rel == ".." || strings.HasPrefix(rel, "../")] *)
Definition escapes (rel : string) : bool := (rel =s ".") || (rel =s "..") || HasPrefix rel "../".

(** The five directories of a payload's artifacts. *)
Definition scope_dirs (p : Payload) (ws : string) : list string :=
  [Itoa (pl_OrgID p); Itoa (pl_RepoID p); artifactScopeSegment ws; artifactScopeSegment (pl_Branch p);
   pl_CommitHash p].

Definition parts_in_scope (p : Payload) (ws : string) (parts : list string) : bool :=
  bool_decide (firstn 5 parts = scope_dirs p ws).

Definition validateRootRelativeScope (pkg root path : string) (p : Payload) : result gerror unit :=
  match pl_WorkspaceID p with
  | None => Err (EText (pkg +:+ ": payload workspaceId is required for artifact scope"))
  | Some ws =>
      match Rel root path with
      | Err e => Err (EWrap (pkg +:+ ": artifact scope: ") e "")
      | Ok rel =>
          if escapes rel
          then Err (EText (pkg +:+ ": artifact " +:+ path +:+ " escapes artifact root " +:+ root))
          else
            let parts := SplitByte "/" rel in
            if (length parts <? 5)%nat
            then Err (EText (pkg +:+ ": artifact " +:+ path +:+ " does not include org/repo/workspace/branch/commit scope"))
            else if parts_in_scope p ws parts then Ok tt
            else Err (EText (pkg +:+ ": artifact " +:+ path +:+ " is outside payload scope org=" +:+ Itoa (pl_OrgID p)
                             +:+ " repo=" +:+ Itoa (pl_RepoID p) +:+ " workspace=" +:+ ws +:+ " branch="
                             +:+ pl_Branch p +:+ " commit=" +:+ pl_CommitHash p))
      end
  end.

Definition resolveArtifactRoot (pkg : string) (d : Disk) (root : string) : result gerror string :=
  let root := TrimSpace root in
  if root =s "" then Err (EText (pkg +:+ ": artifact root is required"))
  else match Abs d root with
       | Err e => Err (EWrap (pkg +:+ ": artifact root: ") e "")
       | Ok abs => match EvalSymlinks d abs with
                   | Err e => Err (EWrap (pkg +:+ ": resolve artifact root: ") e "")
                   | Ok resolved => Ok (Clean resolved)
                   end
       end.

Definition validatePublishedArtifactScope (pkg : string) (d : Disk) (root : string) (p : Payload) (path : string)
  : result gerror unit :=
  let path := TrimSpace path in
  if path =s "" then Err (EText (pkg +:+ ": artifactPath is required"))
  else
    let? root := resolveArtifactRoot pkg d root in
    match Abs d path with
    | Err e => Err (EWrap (pkg +:+ ": artifactPath: ") e "")
    | Ok abs0 =>
        let abs := Clean abs0 in
        match Lstat d abs with
        | Err e => Err (EWrap (pkg +:+ ": lstat artifact: ") e "")
        | Ok info =>
            if is_symlink info then Err (EText (pkg +:+ ": artifact " +:+ abs +:+ " is a symlink"))
            else if negb (is_regular info) then Err (EText (pkg +:+ ": artifact " +:+ abs +:+ " is not a regular file"))
            else match EvalSymlinks d abs with
                 | Err e => Err (EWrap (pkg +:+ ": resolve artifact path: ") e "")
                 | Ok resolved => validateRootRelativeScope pkg root (Clean resolved) p
                 end
        end
    end.

(** ** Reading *)

Definition maxIngestBytes : Z := 256 * 2 ^ 20.

(** The file as it was when it was opened; [noun] is the kind of artifact. *)
Definition readArtifactFile (noun : string) (d : Disk) (path : string) : result gerror string :=
  let? info := Open d path in
  if negb (is_regular info) then Err (EText (path +:+ " is not a regular file"))
  else if maxIngestBytes <? node_size info
  then Err (EText (path +:+ " is " +:+ Itoa (node_size info) +:+ " bytes, exceeds " +:+ Itoa maxIngestBytes
                   +:+ " byte " +:+ noun +:+ " artifact limit"))
  else match dk_fault d "read" path with
       | Some e => Err (PathError "read" path e)
       | None =>
           let? raw := node_content "read" path info in
           if maxIngestBytes <? Z.of_nat (String.length raw)
           then Err (EText (path +:+ " exceeds " +:+ Itoa maxIngestBytes +:+ " byte " +:+ noun
                            +:+ " artifact limit while reading"))
           else Ok raw
       end.


(** Where the artifact stores let a file lie: the place a path leads to, relative
    paths, and the isolation of the directories of different messages. *)
#[local] Arguments sha256_hex : simpl never.
#[local] Arguments artifactScopeSegment : simpl never.

(** ** Relative paths *)

Lemma strip_common_spec b t : exists c, b = c ++ (strip_common b t).1 /\ t = c ++ (strip_common b t).2.
Proof.
  revert t. induction b as [|x b IH]; intros t; simpl; [by exists []|].
  destruct t as [|y t]; [by exists []|]. destruct (x =s y) eqn:E; [|by exists []]. apply str_eqb_spec in E as ->.
  destruct (IH t) as (c & H1 & H2). exists (y :: c). simpl. split; congruence.
Qed.

Lemma dotdot_escapes n rest : escapes (Join (replicate (S n) ".." ++ rest) "/") = true.
Proof.
  unfold escapes. change (replicate (S n) ".." ++ rest) with (".." :: (replicate n ".." ++ rest)).
  destruct (replicate n ".." ++ rest) as [|y l]; [done|]. rewrite Join_cons2.
  change (".." +:+ "/" +:+ Join (y :: l) "/") with ("../" +:+ Join (y :: l) "/").
  by rewrite HasPrefix_app, orb_true_r.
Qed.

Lemma path_elems_plain p : rooted p = true -> Forall plain (path_elems p).
Proof.
  intros Hr. destruct (path_elems_shape p) as (k & l & -> & Hl & Hk). by rewrite Hk.
Qed.

(** A relative path that does not escape appends its elements. *)
Lemma Rel_below base targ rel : rooted base = true -> rooted targ = true -> Rel base targ = Ok rel ->
  escapes rel = false -> rel <> "" -> path_elems targ = path_elems base ++ SplitByte "/" rel.
Proof.
  intros Hb Ht. unfold Rel. cbn zeta.
  assert (Hnb : base <> "") by (by intros ->). assert (Hnt : targ <> "") by (by intros ->).
  destruct (Clean_elems base Hnb) as [Hrb Heb], (Clean_elems targ Hnt) as [Hrt Het].
  destruct (Clean targ =s Clean base); [by intros [= <-]|].
  rewrite Hrb, Hrt, Hb, Ht. simpl. destruct (Clean targ =s ".") eqn:Ed.
  { apply str_eqb_spec in Ed. rewrite Ed in Hrt. by rewrite Ht in Hrt. }
  rewrite Heb, Het. destruct (strip_common_spec (path_elems base) (path_elems targ)) as (c & H1 & H2).
  destruct (strip_common _ _) as [up rest] eqn:Es. simpl in H1, H2. destruct up as [|u up].
  - intros [= <-] _ Hne. rewrite app_nil_r in H1. subst c. rewrite H2. f_equal.
    destruct rest as [|x rest]; [done|]. symmetry. apply SplitByte_Join; [done|].
    pose proof (path_elems_plain targ Ht) as Hp. rewrite H2, Forall_app in Hp. destruct Hp as [_ Hp].
    eapply Forall_impl; [exact Hp|]. by intros ? (_ & _ & _ & ?).
  - destruct (match u :: up, rest with ".." :: _, _ :: _ => true | _, _ => false end); [done|].
    intros H. assert (rel = Join (replicate (S (length up)) ".." ++ rest) "/") as -> by (by injection H). by rewrite dotdot_escapes.
Qed.

(** ** The place a path leads to *)

Lemma walk_unfold d links follow done todo :
  walk d links follow done todo =
  match todo with
  | [] => Ok done
  | e :: rest =>
      if (e =s "") || (e =s ".") then walk d links follow done rest
      else if e =s ".." then walk d links follow (removelast done) rest
      else
        let here := done ++ [e] in
        match node_at d here with
        | None => Err ErrNotExist
        | Some (NSymlink target) =>
            match rest, follow with
            | [], false => Ok here
            | _, _ =>
                match links with
                | O => Err ELOOP
                | S links' => walk d links' follow (if rooted target then [] else done) (SplitByte "/" target ++ rest)
                end
            end
        | Some NDir => walk d links follow here rest
        | Some _ => match rest with [] => Ok here | _ => Err ENOTDIR end
        end
  end.
Proof. destruct links, todo; reflexivity. Qed.

(** More links never change an answer. *)
Lemma walk_links d links links' follow todo dir place : (links <= links')%nat ->
  walk d links follow dir todo = Ok place -> walk d links' follow dir todo = Ok place.
Proof.
  revert links' dir todo. induction links as [|n IHn]; intros links' dir todo Hle; revert dir;
    induction todo as [|e rest IH]; intros dir.
  1, 3: by rewrite !walk_unfold.
  - rewrite (walk_unfold d 0 follow dir (e :: rest)), (walk_unfold d links' follow dir (e :: rest)).
    destruct (_ || _); [apply IH|]. destruct (e =s ".."); [apply IH|]. cbn zeta.
    destruct (node_at d (dir ++ [e])) as [[]|]; try done; [apply IH|]. by destruct rest, follow.
  - rewrite (walk_unfold d (S n) follow dir (e :: rest)), (walk_unfold d links' follow dir (e :: rest)).
    destruct (_ || _); [apply IH|]. destruct (e =s ".."); [apply IH|]. cbn zeta.
    destruct (node_at d (dir ++ [e])) as [[]|]; try done; [apply IH|].
    destruct links' as [|m]; [lia|]. destruct rest, follow; try done; apply IHn; lia.
Qed.

(** Following the last element changes nothing when it is no link. *)
Lemma walk_follow d links todo dir place n : node_at d place = Some n -> is_symlink n = false ->
  walk d links false dir todo = Ok place -> walk d links true dir todo = Ok place.
Proof.
  intros Hn Hs. revert dir todo. induction links as [|k IHk]; intros dir todo; revert dir;
    induction todo as [|e rest IH]; intros dir.
  1, 3: by rewrite !walk_unfold.
  - rewrite (walk_unfold d 0 false dir (e :: rest)), (walk_unfold d 0 true dir (e :: rest)).
    destruct (_ || _); [apply IH|]. destruct (e =s ".."); [apply IH|]. cbn zeta.
    destruct (node_at d (dir ++ [e])) as [[]|] eqn:E; try done; [apply IH|].
    destruct rest; [|done]. intros [= <-]. rewrite Hn in E. by injection E as ->.
  - rewrite (walk_unfold d (S k) false dir (e :: rest)), (walk_unfold d (S k) true dir (e :: rest)).
    destruct (_ || _); [apply IH|]. destruct (e =s ".."); [apply IH|]. cbn zeta.
    destruct (node_at d (dir ++ [e])) as [[]|] eqn:E; try done; [apply IH|].
    destruct rest; [|apply IHk]. intros [= <-]. rewrite Hn in E. by injection E as ->.
Qed.

(** A place: plain elements, each but the last a directory. *)
Definition real (d : Disk) (place : list string) : Prop :=
  Forall plain place /\ forall k, (k < length place)%nat -> node_at d (take k place) = Some NDir.

Definition real_dir (d : Disk) (place : list string) : Prop := real d place /\ node_at d place = Some NDir.

Lemma real_dir_nil d : real_dir d [].
Proof. split; [|done]. split; [constructor|]. simpl. lia. Qed.

Lemma real_snoc d dir e : real_dir d dir -> plain e -> real d (dir ++ [e]).
Proof.
  intros [[Hp Hk] Hd] He. split; [apply Forall_app; auto|]. intros k. rewrite length_app. simpl. intros Hlt.
  destruct (decide (k = length dir)) as [->|]; [by rewrite take_app_length|]. rewrite take_app_le by lia. apply Hk. lia.
Qed.

Lemma real_removelast d dir : real_dir d dir -> real_dir d (removelast dir).
Proof.
  intros [[Hp Hk] Hd]. destruct (decide (dir = [])) as [->|Hne]; [apply real_dir_nil|].
  rewrite (app_removelast_last "" Hne) in Hp, Hk. set (l := removelast dir) in *. set (e := List.last dir "") in *.
  apply Forall_app in Hp as [Hp _]. rewrite length_app in Hk. split; [split; [done|]|].
  - intros k Hlt. specialize (Hk k). simpl in Hk. rewrite take_app_le in Hk by lia. apply Hk. lia.
  - specialize (Hk (length l)). rewrite take_app_length in Hk. apply Hk. simpl. lia.
Qed.

(** A walk ends at a place; when it follows links, not at a link. *)
Lemma walk_real d links follow todo dir place : Forall slash_free todo -> real_dir d dir ->
  walk d links follow dir todo = Ok place ->
  real d place /\ exists n, node_at d place = Some n /\ (follow = true -> is_symlink n = false).
Proof.
  revert todo dir. induction links as [|k IHk]; intros todo dir Hf; revert dir;
    (induction Hf as [|e rest He Hf IH]; intros dir Hd; rewrite walk_unfold;
     [intros [= <-]; split; [apply Hd|]; exists NDir; split; [apply Hd|done]|]);
    (destruct ((e =s "") || _) eqn:E1; [by apply IH|]); (destruct (e =s "..") eqn:E2; [by apply IH, real_removelast|]);
    cbn zeta; apply orb_false_iff in E1 as [E1 E1']; apply str_eqb_false in E1, E1', E2;
    (assert (Hpl : plain e) by done); pose proof (real_snoc d dir e Hd Hpl) as Hr;
    destruct (node_at d (dir ++ [e])) as [[]|] eqn:E; try done;
    try (by destruct rest; [intros [= <-]; split; [done|]; eexists; split; [exact E|done]|]);
    try (by apply IH; split).
  - destruct rest, follow; try done. intros [= <-]. split; [done|]. by eexists.
  - assert (Hd' : real_dir d (if rooted target then [] else dir)) by (destruct (rooted target); [apply real_dir_nil|done]).
    assert (Hs : Forall slash_free (SplitByte "/" target ++ rest)) by (apply Forall_app; split; [apply SplitByte_slash_free|done]).
    destruct rest, follow; try (by apply IHk). intros [= <-]. split; [done|]. by eexists.
Qed.

Lemma render_place place : Forall plain place ->
  rooted (render_path true place) = true /\ path_elems (render_path true place) = place /\
  Clean (render_path true place) = render_path true place.
Proof.
  intros Hp. destruct (render_path_elems true 0 place Hp) as [Hr He]; [done|].
  change (replicate 0 ".." ++ place) with place in Hr, He. split; [done|]. split; [done|]. rewrite Clean_render by (apply render_path_nonempty; by apply (shape_nonempty 0)).
  by rewrite Hr, He.
Qed.

Lemma EvalSymlinks_place d p q : EvalSymlinks d p = Ok q ->
  exists place n, walk d eval_links true [] (SplitByte "/" p) = Ok place /\ real d place /\
    node_at d place = Some n /\ is_symlink n = false /\ q = render_path true place /\ Clean q = q /\
    rooted q = true /\ path_elems q = place.
Proof.
  unfold EvalSymlinks. destruct (dk_fault _ _ _); [done|]. destruct (walk _ _ _ _ _) as [place|] eqn:E; [|done].
  intros [= <-]. destruct (walk_real _ _ _ _ _ _ (SplitByte_slash_free p) (real_dir_nil d) E) as [Hr (n & Hn & Hs)].
  destruct (render_place place (proj1 Hr)) as (H1 & H2 & H3). exists place, n. auto 10.
Qed.

Lemma look_Ok op follow d p n : look op follow d p = Ok n ->
  exists place, walk d kernel_links follow [] (SplitByte "/" (absolute d p)) = Ok place /\ node_at d place = Some n.
Proof.
  unfold look. destruct (dk_fault _ _ _); [done|]. destruct (p =s ""); [done|]. destruct (walk _ _ _ _ _) as [place|]; [|done].
  destruct (node_at d place) eqn:E; [|done]. intros [= <-]. eauto.
Qed.

Lemma Abs_rooted d p q : HasPrefix (dk_cwd d) "/" = true -> Abs d p = Ok q -> rooted q = true.
Proof.
  intros Hc. unfold Abs. destruct (rooted p) eqn:E.
  - intros [= <-]. destruct (decide (p = "")) as [->|Hp]; [done|]. by rewrite (proj1 (Clean_elems p Hp)).
  - destruct (dk_fault _ _ _); [done|]. intros Hq.
    destruct (dk_cwd d =s "") eqn:Ed; [by apply str_eqb_spec in Ed; rewrite Ed in Hc|].
    unfold FilepathJoin in Hq. rewrite Ed in Hq.
    assert (q = Clean (Join [dk_cwd d; p] "/")) as -> by (by injection Hq).
    assert (Hne : Join [dk_cwd d; p] "/" <> "") by (destruct (dk_cwd d); [done|]; done).
    rewrite (proj1 (Clean_elems _ Hne)). change (Join [dk_cwd d; p] "/") with (dk_cwd d +:+ "/" +:+ p).
    rewrite rooted_app; [done|]. by apply str_eqb_false in Ed.
Qed.

Lemma resolveArtifactRoot_Ok pkg d root r : resolveArtifactRoot pkg d root = Ok r ->
  rooted r = true /\ real d (path_elems r) /\ r = render_path true (path_elems r).
Proof.
  unfold resolveArtifactRoot. destruct (_ =s ""); [done|]. destruct (Abs _ _); [|done].
  destruct (EvalSymlinks d _) as [q|] eqn:E; [|done]. intros [= <-].
  apply EvalSymlinks_place in E as (place & n & _ & Hr & _ & _ & -> & -> & Hro & ->). auto.
Qed.

(** A path in the scope of a message: its five directories stand below the root. *)
Lemma scope_elems pkg root path p : rooted root = true -> rooted path = true ->
  validateRootRelativeScope pkg root path p = Ok tt ->
  exists ws rest, pl_WorkspaceID p = Some ws /\ path_elems path = path_elems root ++ scope_dirs p ws ++ rest.
Proof.
  intros Hr Hp. unfold validateRootRelativeScope. destruct (pl_WorkspaceID p) as [ws|]; [|done].
  destruct (Rel root path) as [rel|] eqn:E; [|done]. destruct (escapes rel) eqn:Ee; [done|]. cbn zeta.
  destruct (_ <? _)%nat eqn:El; [done|]. destruct (parts_in_scope _ _ _) eqn:Es; [|done]. intros _.
  apply bool_decide_eq_true in Es. exists ws, (skipn 5 (SplitByte "/" rel)). split; [done|].
  rewrite <- Es, firstn_skipn. apply (Rel_below _ _ _ Hr Hp E Ee). intros ->. done.
Qed.

(** A regular file that the links lead to: the kernel finds it too. *)
Lemma regular_place d abs info q : rooted abs = true -> Lstat d abs = Ok info -> is_regular info = true ->
  EvalSymlinks d abs = Ok q ->
  exists place content, q = render_path true place /\ Clean q = q /\ rooted q = true /\ path_elems q = place /\
    real d place /\ node_at d place = Some (NFile content) /\ info = NFile content /\
    walk d kernel_links true [] (SplitByte "/" abs) = Ok place.
Proof.
  intros Hra El Eg Ee. apply EvalSymlinks_place in Ee as (place & n & Hw & Hreal & Hn & _ & Hq & Hcl & Hrq & Heq).
  unfold Lstat in El. apply look_Ok in El as (p2 & Hw2 & Hn2). unfold absolute in Hw2. rewrite Hra in Hw2.
  assert (Es : is_symlink info = false) by (by destruct info).
  eapply walk_follow in Hw2; [|exact Hn2|exact Es]. pose proof Hw2 as Hw3.
  apply (walk_links _ _ eval_links) in Hw2; [|unfold kernel_links, eval_links; lia].
  rewrite Hw in Hw2. injection Hw2 as <-. destruct info as [content| | |]; try done. exists place, content. done.
Qed.

(** The file the scope check accepted. *)
Lemma published_place pkg d root p path : HasPrefix (dk_cwd d) "/" = true ->
  validatePublishedArtifactScope pkg d root p path = Ok tt ->
  exists r abs0 ws rest content, resolveArtifactRoot pkg d root = Ok r /\ Abs d (TrimSpace path) = Ok abs0 /\
    pl_WorkspaceID p = Some ws /\ let place := path_elems r ++ scope_dirs p ws ++ rest in
    real d place /\ node_at d place = Some (NFile content) /\
    walk d kernel_links true [] (SplitByte "/" (Clean abs0)) = Ok place.
Proof.
  intros Hc. unfold validatePublishedArtifactScope. cbn zeta. destruct (TrimSpace path =s ""); [done|].
  destruct (resolveArtifactRoot pkg d root) as [r|] eqn:Er; [|done]. cbn [rbind].
  destruct (Abs d (TrimSpace path)) as [abs0|] eqn:Ea; [|done].
  destruct (Lstat d (Clean abs0)) as [info|] eqn:El; [|done]. destruct (is_symlink info) eqn:Es; [done|].
  destruct (is_regular info) eqn:Eg; [|done]. cbn [negb].
  destruct (EvalSymlinks d (Clean abs0)) as [q|] eqn:Ee; [|done].
  assert (Hra : rooted (Clean abs0) = true).
  { apply Abs_rooted in Ea; [|done]. destruct (decide (abs0 = "")) as [->|Hne]; [done|]. by rewrite (proj1 (Clean_elems _ Hne)). }
  destruct (regular_place d _ info q Hra El Eg Ee) as (place & content & _ & Hcl & Hrq & Heq & Hreal & Hn & _ & Hw).
  rewrite Hcl. intros H. apply resolveArtifactRoot_Ok in Er as (Hrr & _ & _).
  apply scope_elems in H as (ws & rest & Hws & Hel); [|done|done]. rewrite Heq in Hel. subst place.
  exists r, abs0, ws, rest, content. split; [done|]. split; [done|]. split; [done|]. cbn zeta. by rewrite <- Hel.
Qed.

