(* ===== verification/ArtifactValidator.v ===== *)
(** The validator of executor artifacts,
    src/internal/backend/indexexecutor/artifact_validator.go: it checks the file an
    executor left, moves it to its final place and checks it again.

    [others i] is what other processes do to the files before the [i]th step; a read
    that the context ends is a failure of [dk_fault]. *)
From Stdlib Require Import Ascii.
From S2P Require Import Prelude GoStd GoStdFacts GoText Sha256 SubjobTypes SubjobTask Executor Disk ArtifactScope.
Definition maxArtifactBytes : Z := 256 * 2 ^ 20.

(** [errors.Is(err, os.ErrNotExist)] *)
Definition is_not_exist (e : gerror) : bool := err_is (err_text ErrNotExist) e.

Definition NewFilesystemArtifactValidator (d : Disk) (root : string) : Disk * result gerror string :=
  let root := TrimSpace root in
  if root =s "" then (d, Err (EText "indexexecutor: artifact root is required"))
  else match Abs d root with
       | Err e => (d, Err (EWrap "indexexecutor: artifact root: " e ""))
       | Ok abs =>
           match MkdirAll d abs with
           | Err e => (d, Err (EWrap "indexexecutor: create artifact root: " e ""))
           | Ok d' => (d', match EvalSymlinks d' abs with
                           | Err e => Err (EWrap "indexexecutor: resolve artifact root: " e "")
                           | Ok resolved => Ok (Clean resolved)
                           end)
           end
       end.

Definition too_big (what path : string) (info : node) (noun : string) : gerror :=
  EText (what +:+ path +:+ " is " +:+ Itoa (node_size info) +:+ " bytes, exceeds " +:+ Itoa maxArtifactBytes +:+ noun).

Definition canonicalExistingPath (d : Disk) (raw : string) : result gerror string :=
  if TrimSpace raw =s "" then Err (EText "path is required")
  else
    let? abs0 := Abs d raw in
    let abs := Clean abs0 in
    let? info := Lstat d abs in
    if is_symlink info then Err (EText (abs +:+ " is a symlink"))
    else if negb (is_regular info) then Err (EText (abs +:+ " is not a regular file"))
    else if maxArtifactBytes <? node_size info then Err (too_big "" abs info " byte artifact limit")
    else let? resolved := EvalSymlinks d abs in Ok (Clean resolved).

(** The loop up to the nearest directory; [missing] has the elements below [current],
    the first one first.  Each round takes an element off [current]. *)
Fixpoint nearest_dir (fuel : nat) (d : Disk) (abs current : string) (missing : list string) : result gerror string :=
  match fuel with
  | O => Err (EText "out of fuel")
  | S fuel' =>
      match Lstat d current with
      | Ok info =>
          if is_symlink info then Err (EText (current +:+ " is a symlink"))
          else if negb (is_dir info) then Err (EText (current +:+ " is not a directory"))
          else
            let? resolved := EvalSymlinks d current in
            Ok (Clean (foldl (fun r e => FilepathJoin [r; e]) resolved missing))
      | Err e =>
          if negb (is_not_exist e) then Err e
          else
            let parent := path_Dir current in
            if parent =s current then Err (EText ("no existing parent for " +:+ abs))
            else nearest_dir fuel' d abs parent (path_Base current :: missing)
      end
  end.

Definition parent_or_file (d : Disk) (abs : string) : result gerror string :=
  nearest_dir (S (length (path_elems abs))) d abs abs [].

Definition canonicalTargetPath (d : Disk) (raw : string) : result gerror string :=
  if TrimSpace raw =s "" then Err (EText "path is required")
  else
    let? abs0 := Abs d raw in
    let abs := Clean abs0 in
    match Lstat d abs with
    | Ok info =>
        if is_symlink info then Err (EText (abs +:+ " is a symlink"))
        else if is_dir info then Err (EText (abs +:+ " is a directory"))
        else if negb (is_regular info) then Err (EText (abs +:+ " is not a regular file"))
        else if maxArtifactBytes <? node_size info then Err (too_big "" abs info " byte artifact limit")
        else match EvalSymlinks d abs with
             | Ok resolved => Ok (Clean resolved)
             | Err _ => parent_or_file d abs
             end
    | Err e => if is_not_exist e then parent_or_file d abs else Err e
    end.

Definition validateScopedPathLexical (d : Disk) (root : string) (p : Payload) (raw : string) : result gerror string :=
  match pl_WorkspaceID p with
  | None => Err (EText "payload workspaceId and branch are required for artifact scope")
  | Some ws =>
      if (TrimSpace ws =s "") || (TrimSpace (pl_Branch p) =s "")
      then Err (EText "payload workspaceId and branch are required for artifact scope")
      else if TrimSpace raw =s "" then Err (EText "path is required")
      else
        let? abs0 := Abs d raw in
        let abs := Clean abs0 in
        let? rel := Rel root abs in
        if escapes rel then Err (EText (abs +:+ " escapes artifact root " +:+ root))
        else
          let parts := SplitByte "/" rel in
          if (length parts <? 5)%nat
          then Err (EText (abs +:+ " does not include org/repo/workspace/branch/commit scope"))
          else if parts_in_scope p ws parts then Ok abs
          else Err (EText (abs +:+ " is outside payload scope org=" +:+ Itoa (pl_OrgID p) +:+ " repo="
                           +:+ Itoa (pl_RepoID p) +:+ " workspace=" +:+ ws +:+ " branch=" +:+ pl_Branch p
                           +:+ " commit=" +:+ pl_CommitHash p))
  end.

Definition validateScopedExistingPath (d : Disk) (root : string) (p : Payload) (raw : string) : result gerror string :=
  let? abs := canonicalExistingPath d raw in
  let? _ := validateScopedPathLexical d root p abs in
  Ok abs.

Definition validateScopedTargetPath (d : Disk) (root : string) (p : Payload) (raw : string) : result gerror string :=
  let? abs := canonicalTargetPath d raw in
  let? _ := validateScopedPathLexical d root p abs in
  Ok abs.

(** The loop over the elements below the root. *)
Fixpoint parents_safe (d : Disk) (current : string) (parts : list string) : result gerror unit :=
  match parts with
  | [] => Ok tt
  | part :: rest =>
      if (part =s "") || (part =s ".") then parents_safe d current rest
      else
        let current := FilepathJoin [current; part] in
        match Lstat d current with
        | Err e => if is_not_exist e then Ok tt else Err e
        | Ok info =>
            if is_symlink info then Err (EText (current +:+ " is a symlink"))
            else if negb (is_dir info) then Err (EText (current +:+ " is not a directory"))
            else parents_safe d current rest
        end
  end.

Definition ensureParentSafe (d : Disk) (root dir0 : string) : result gerror unit :=
  let dir := Clean dir0 in
  let? rel := Rel root dir in
  if rel =s "." then Ok tt
  else if (rel =s "..") || HasPrefix rel "../"
  then Err (EText (dir +:+ " escapes artifact root " +:+ root))
  else parents_safe d root (SplitByte "/" rel).

Definition sha256File (d : Disk) (path : string) : result gerror string :=
  match Lstat d path with
  | Err e => Err (EWrap "lstat artifact: " e "")
  | Ok info =>
      if is_symlink info then Err (EText ("artifact " +:+ path +:+ " is a symlink"))
      else if negb (is_regular info) then Err (EText ("artifact " +:+ path +:+ " is not a regular file"))
      else if maxArtifactBytes <? node_size info then Err (too_big "artifact " path info " byte limit")
      else match Open d path with
           | Err e => Err (EWrap "open artifact: " e "")
           | Ok f => match dk_fault d "read" path with
                     | Some e => Err (EWrap "hash artifact: " e "")
                     | None => match node_content "read" path f with
                               | Err e => Err (EWrap "hash artifact: " e "")
                               | Ok content => Ok (sha256_hex content)
                               end
                     end
           end
  end.

(** The steps that change files, once the digest is right. *)
Definition publish_file (others : nat -> Disk -> Disk) (d : Disk) (root tempPath finalPath gotSHA : string) (r : Result)
  : Disk * result gerror Result :=
  let d4 := others 3%nat d in
  match ensureParentSafe d4 root (path_Dir finalPath) with
  | Err e => (d4, Err e)
  | Ok _ =>
      let d5 := others 4%nat d4 in
      match MkdirAll d5 (path_Dir finalPath) with
      | Err e => (d5, Err (EWrap "mkdir final artifact dir: " e ""))
      | Ok d5' =>
          let d6 := others 5%nat d5' in
          match Rename d6 tempPath finalPath with
          | Err e => (d6, Err (EWrap "publish artifact: " e ""))
          | Ok d6' =>
              let d7 := others 6%nat d6' in
              match sha256File d7 finalPath with
              | Err e => (d7, Err e)
              | Ok gotFinalSHA =>
                  if negb (gotFinalSHA =s gotSHA)
                  then (d7, Err (EText ("published artifact SHA-256 changed: got " +:+ gotFinalSHA +:+ " want " +:+ gotSHA)))
                  else (d7, Ok {| res_ArtifactTempPath := tempPath; res_ArtifactPath := finalPath;
                                  res_ArtifactSHA256 := "sha256:" +:+ gotSHA; res_Metadata := res_Metadata r |})
              end
          end
      end
  end.

(** [ctx] is the error of the context, if it has ended. *)
Definition ValidateAndPublish (others : nat -> Disk -> Disk) (d : Disk) (root : string) (ctx : option gerror)
    (p : Payload) (r : Result) : Disk * result gerror Result :=
  if root =s "" then (d, Err (EText "artifact validator is not configured"))
  else match ctx with
  | Some e => (d, Err e)
  | None =>
      if negb (hasCompleteArtifact r) then (d, Err (EText "executor returned incomplete artifact metadata"))
      else
        let d1 := others 0%nat d in
        match validateScopedExistingPath d1 root p (res_ArtifactTempPath r) with
        | Err e => (d1, Err (EWrap "temp artifact path: " e ""))
        | Ok tempPath =>
            let d2 := others 1%nat d1 in
            match validateScopedTargetPath d2 root p (res_ArtifactPath r) with
            | Err e => (d2, Err (EWrap "final artifact path: " e ""))
            | Ok finalPath =>
                if tempPath =s finalPath then (d2, Err (EText "temp and final artifact paths must be different"))
                else
                  let d3 := others 2%nat d2 in
                  match sha256File d3 tempPath with
                  | Err e => (d3, Err e)
                  | Ok gotSHA =>
                      let wantSHA := normalizeSHA256 (res_ArtifactSHA256 r) in
                      if wantSHA =s "" then (d3, Err (EText "artifact SHA-256 is required"))
                      else if negb (gotSHA =s wantSHA)
                      then (d3, Err (EText ("artifact SHA-256 mismatch: got " +:+ gotSHA +:+ " want " +:+ wantSHA)))
                      else publish_file others d3 root tempPath finalPath gotSHA r
                  end
            end
        end
  end.
