(* ===== verification/ArtifactValidatorFacts.v ===== *)
(** What the validator publishes is what the stores accept: the file keeps its
    contents, lies in the message's directories, and passes every check that an
    artifact store makes of it. *)
From Stdlib Require Import Ascii.
From S2P Require Import Prelude GoStd GoStdFacts GoText Sha256 SubjobTypes SubjobTask Executor GraphStoreFacts Disk.
From S2P Require Import ArtifactScope ArtifactValidator.
#[local] Arguments sha256_hex : simpl never.
#[local] Arguments artifactScopeSegment : simpl never.

(** ** Paths of places *)

Lemma SplitByte_render l : Forall plain l -> l <> [] -> SplitByte "/" (render_path true l) = "" :: l.
Proof.
  intros Hp Hne. unfold render_path. change (SplitByte "/" ("/" +:+ Join l "/")) with ("" :: SplitByte "/" (Join l "/")).
  rewrite SplitByte_Join; [done|done|]. eapply Forall_impl; [exact Hp|]. by intros ? (_ & _ & _ & ?).
Qed.

Lemma Dir_render l x : Forall plain (l ++ [x]) -> path_Dir (render_path true (l ++ [x])) = render_path true l.
Proof.
  intros Hp. unfold path_Dir, path_Split. cbn zeta. rewrite SplitByte_render by (done || by destruct l). cbn [fst].
  rewrite app_comm_cons, removelast_last. apply Forall_app in Hp as [Hp _].
  assert (Hj : rooted (Join ("" :: l) "/" +:+ "/") = true /\ path_elems (Join ("" :: l) "/" +:+ "/") = l).
  { destruct l as [|y l]; [by vm_compute|]. rewrite Join_cons2.
    assert (E : ("" +:+ "/" +:+ Join (y :: l) "/") +:+ "/" = render_path true (y :: l) +:+ "/" +:+ "") by done.
    rewrite E. destruct (render_place (y :: l) Hp) as (Hr & He & _). split.
    - rewrite rooted_app; [done|]. by intros E'; rewrite E' in Hr.
    - unfold path_elems in *. rewrite rooted_app by (intros E'; by rewrite E' in Hr). rewrite SplitByte_sep, Hr in *.
      unfold clean_elems in *. rewrite foldl_app. simpl. done. }
  destruct Hj as [Hr He]. rewrite Clean_render by (intros E; by rewrite E in Hr). by rewrite Hr, He.
Qed.

(** Joins of a rooted path stay rooted. *)
Lemma FilepathJoin_rooted p e : rooted p = true -> rooted (FilepathJoin [p; e]) = true.
Proof.
  intros Hr. assert (Hp : p <> "") by (by intros ->). unfold FilepathJoin. rewrite (proj2 (str_eqb_false p "") Hp).
  change (Join [p; e] "/") with (p +:+ "/" +:+ e).
  assert (Hj : p +:+ "/" +:+ e <> "") by (by destruct p). rewrite (proj1 (Clean_elems _ Hj)). by rewrite rooted_app.
Qed.

Lemma Clean_rooted p : rooted p = true -> rooted (Clean p) = true /\ Clean p = render_path true (path_elems (Clean p)).
Proof.
  intros Hr. assert (Hp : p <> "") by (by intros ->). destruct (Clean_elems p Hp) as [H1 H2].
  split; [congruence|]. rewrite H2, (Clean_render p Hp). congruence.
Qed.

Lemma Join_render l x : Forall plain (l ++ [x]) -> FilepathJoin [render_path true l; x] = render_path true (l ++ [x]).
Proof.
  intros Hp. apply Forall_app in Hp as [Hl Hx]. apply Forall_inv in Hx.
  destruct (render_place l Hl) as (Hr & He & _). 
  assert (Hne : render_path true l <> "") by (intros E; by rewrite E in Hr). rewrite FilepathJoin2 by done. by rewrite Hr, He.
Qed.

Lemma strip_common_app b t : strip_common b (b ++ t) = ([], t).
Proof. induction b as [|x b IH]; [done|]. simpl. by rewrite str_eqb_refl. Qed.

(** The path from a directory down to a place below it. *)
Lemma Rel_render b t : Forall plain (b ++ t) -> t <> [] -> Rel (render_path true b) (render_path true (b ++ t)) = Ok (Join t "/").
Proof.
  intros Hp Hne. pose proof Hp as [Hb _]%Forall_app. destruct (render_place _ Hp) as (Hr & He & Hc), (render_place _ Hb) as (Hrb & Heb & Hcb).
  unfold Rel. cbn zeta. rewrite Hc, Hcb, Hr, Hrb, He, Heb. destruct (_ =s render_path true b) eqn:E.
  { apply str_eqb_spec in E. rewrite E, Heb in He. rewrite <- (app_nil_r b) in He at 1. by apply app_inv_head in He. }
  cbn [Bool.eqb negb]. destruct (_ =s ".") eqn:E2; [by apply str_eqb_spec in E2; rewrite E2 in Hr|]. by rewrite strip_common_app.
Qed.

(** ** Walks along directories *)

Lemma plain_tests e : plain e -> ((e =s "") || (e =s ".")) = false /\ (e =s "..") = false.
Proof.
  intros (H1 & H2 & H3 & _). apply str_eqb_false in H1, H2, H3. by rewrite H1, H2, H3.
Qed.

Lemma real_app_dir d at_ e rest : real d (at_ ++ e :: rest) -> rest <> [] -> node_at d (at_ ++ [e]) = Some NDir.
Proof.
  intros [_ Hk] Hne. specialize (Hk (length (at_ ++ [e]))).
  replace (at_ ++ e :: rest) with ((at_ ++ [e]) ++ rest) in Hk by (by rewrite <- app_assoc).
  rewrite take_app_length in Hk. apply Hk. rewrite !length_app. destruct rest; [done|]. simpl. lia.
Qed.

Lemma walk_down d links follow at_ l : real d (at_ ++ l) ->
  walk d links follow at_ l =
  match l with [] => Ok at_ | _ =>
    match node_at d (at_ ++ l) with
    | None => Err ErrNotExist
    | Some (NSymlink _) => walk d links follow (removelast (at_ ++ l)) [List.last l ""]
    | Some _ => Ok (at_ ++ l)
    end
  end.
Proof.
  revert at_. induction l as [|e rest IH]; intros at_ Hr; rewrite walk_unfold; [done|].
  assert (Hpe : plain e) by (destruct Hr as [Hp _]; by apply Forall_app in Hp as [_ [? _]%Forall_cons]).
  destruct (plain_tests e Hpe) as [E1 E2]. rewrite E1, E2. cbn zeta. destruct rest as [|x rest].
  - destruct (node_at d (at_ ++ [e])) as [[]|] eqn:E; try done.
    + by rewrite walk_unfold.
    + rewrite removelast_last. cbn [List.last]. rewrite (walk_unfold d links follow at_ [e]), E1, E2. cbn zeta. by rewrite E.
  - rewrite (real_app_dir d at_ e (x :: rest) Hr) by done. rewrite IH by (by rewrite <- app_assoc).
    by rewrite <- app_assoc.
Qed.

(** The path of a place leads there, unless it is a link that is followed. *)
Lemma walk_place d links follow place n : real d place -> node_at d place = Some n ->
  follow = false \/ is_symlink n = false ->
  walk d links follow [] (SplitByte "/" (render_path true place)) = Ok place.
Proof.
  intros Hr Hn Hs. destruct place as [|e rest] eqn:Ep.
  { change (SplitByte "/" (render_path true [])) with [""; ""]. by rewrite !walk_unfold. }
  rewrite SplitByte_render by (done || apply Hr). rewrite walk_unfold. cbn [orb str_eqb].
  rewrite <- Ep in *. change (("" =s "") || ("" =s ".")) with true. cbn iota.
  rewrite walk_down by done. rewrite Ep at 1. cbn [app] in *. rewrite Hn. destruct n as [| |target|]; try done.
  destruct Hs as [->|?]; [|done]. assert (Hne : place <> []) by (by subst).
  pose proof (app_removelast_last "" Hne) as Epl. rewrite walk_unfold.
  assert (Hpl : plain (List.last place "")).
  { destruct Hr as [Hp _]. rewrite Epl in Hp. by apply Forall_app in Hp as [_ ?%Forall_inv]. }
  destruct (plain_tests _ Hpl) as [-> ->]. cbn zeta. by rewrite <- Epl, Hn.
Qed.

Lemma walk_gone d links follow place : real d place -> node_at d place = None ->
  walk d links follow [] (SplitByte "/" (render_path true place)) = Err ErrNotExist.
Proof.
  intros Hr Hn. destruct place as [|e rest] eqn:Ep; [done|]. rewrite SplitByte_render by (done || apply Hr).
  rewrite walk_unfold. change (("" =s "") || ("" =s ".")) with true. cbn iota. rewrite walk_down by done. cbn [app]. by rewrite Hn.
Qed.

(** Calls that fail for no other reason than the files. *)
Definition faultless (d : Disk) : Prop := forall op p, dk_fault d op p = None.

Lemma look_place op follow d place : faultless d -> real d place ->
  (follow = false \/ forall n, node_at d place = Some n -> is_symlink n = false) ->
  look op follow d (render_path true place) =
  match node_at d place with
  | Some n => Ok n
  | None => Err (PathError op (render_path true place) ErrNotExist)
  end.
Proof.
  intros Hf Hr Hs. unfold look, absolute. rewrite Hf. destruct (render_place place (proj1 Hr)) as (Hro & _ & _). rewrite Hro.
  destruct (_ =s "") eqn:E; [by apply str_eqb_spec in E; rewrite E in Hro|].
  destruct (node_at d place) as [n|] eqn:En; [|by rewrite walk_gone].
  rewrite (walk_place d _ follow place n); [by rewrite En|done|done|]. destruct Hs as [?|Hs]; auto.
Qed.

Lemma EvalSymlinks_at d place n : faultless d -> real d place -> node_at d place = Some n -> is_symlink n = false ->
  EvalSymlinks d (render_path true place) = Ok (render_path true place).
Proof. intros Hf Hr Hn Hs. unfold EvalSymlinks. rewrite Hf. by rewrite (walk_place d _ true place n) by auto. Qed.

(** ** The directories of the final path *)

(** What is in a directory is below a directory. *)
Definition disk_ok (d : Disk) : Prop :=
  forall dir e n, node_at d (dir ++ [e]) = Some n -> node_at d dir = Some NDir.

(** Down from a directory, no element is anything but a directory before the first
    one that is missing. *)
Fixpoint opened (d : Disk) (dir parts : list string) : Prop :=
  match parts with
  | [] => True
  | e :: rest =>
      match node_at d (dir ++ [e]) with
      | None => True
      | Some NDir => opened d (dir ++ [e]) rest
      | Some _ => False
      end
  end.

Lemma parents_opened d parts dir : faultless d -> Forall plain parts -> real_dir d dir ->
  parents_safe d (render_path true dir) parts = Ok tt -> opened d dir parts.
Proof.
  intros Hf Hp. revert dir. induction Hp as [|e rest He Hp IH]; intros dir Hd; [done|]. cbn [parents_safe opened].
  destruct (plain_tests e He) as [-> _]. cbn zeta. pose proof (real_snoc d dir e Hd He) as Hr.
  rewrite Join_render by apply Hr. unfold Lstat. rewrite look_place by auto.
  destruct (node_at d (dir ++ [e])) as [[]|] eqn:E; try done. apply IH. by split.
Qed.

Lemma node_at_insert d here n p : here <> [] ->
  node_at (set_nodes (<[here := n]>) d) p = if bool_decide (p = here) then Some n else node_at d p.
Proof.
  intros Hne. case_bool_decide as E.
  - subst. destruct here; [done|]. cbn. by rewrite lookup_insert_eq.
  - destruct p; [done|]. cbn. by rewrite lookup_insert_ne.
Qed.

Lemma snoc_ne {A} (l : list A) x : l ++ [x] <> [].
Proof. by destruct l. Qed.

(** [d'] is [d] with more directories. *)
Definition grown (d d' : Disk) : Prop :=
  dk_cwd d' = dk_cwd d /\ dk_fault d' = dk_fault d /\
  forall p, node_at d' p = node_at d p \/ (node_at d p = None /\ node_at d' p = Some NDir).

Lemma grown_refl d : grown d d.
Proof. split_and!; auto. Qed.

Lemma grown_trans d d' d'' : grown d d' -> grown d' d'' -> grown d d''.
Proof.
  intros (H1 & H2 & H3) (H4 & H5 & H6). split_and!; [congruence|congruence|]. intros p.
  destruct (H3 p) as [E|[E E']], (H6 p) as [F|[F F']]; try rewrite E in F; try rewrite E' in F; auto; congruence.
Qed.

Lemma grown_kept d d' p n : grown d d' -> node_at d p = Some n -> node_at d' p = Some n.
Proof. intros (_ & _ & H) E. destruct (H p) as [->|[E' _]]; congruence. Qed.

Lemma grown_real d d' p : grown d d' -> real d p -> real d' p.
Proof. intros Hg [Hp Hk]. split; [done|]. intros k Hlt. eapply grown_kept; [done|]. by apply Hk. Qed.

Lemma mkdirs_opened parts d dir d' : disk_ok d -> Forall plain parts -> real_dir d dir -> opened d dir parts ->
  mkdirs d dir parts = Ok d' -> grown d d' /\ real_dir d' (dir ++ parts).
Proof.
  intros Hok Hp. revert d dir Hok. induction Hp as [|e rest He Hp IH]; intros d dir Hok Hd Ho; cbn [mkdirs opened] in *.
  { intros [= <-]. rewrite app_nil_r. split; [apply grown_refl|done]. }
  pose proof (real_snoc d dir e Hd He) as Hr.
  destruct (node_at d (dir ++ [e])) as [[]|] eqn:E; try done; rewrite (cons_middle e dir rest), app_assoc.
  { apply IH; [done|by split|done]. }
  set (d1 := set_nodes _ d). pose proof (node_at_insert d (dir ++ [e]) NDir) as Hi. fold d1 in Hi.
  assert (Hg : grown d d1).
  { split_and!; [done|done|]. intros p. rewrite Hi by apply snoc_ne. case_bool_decide; subst; auto. }
  assert (Hok1 : disk_ok d1).
  { intros q x n. rewrite !Hi by apply snoc_ne. case_bool_decide as E1; case_bool_decide as E2; try done; [|by apply Hok].
    intros _. apply app_inj_tail in E1 as [-> ->]. apply Hd. }
  assert (Hn : node_at d1 (dir ++ [e]) = Some NDir) by (rewrite Hi by apply snoc_ne; by rewrite bool_decide_true).
  intros Hm. apply IH in Hm as [Hg' Hr']; [|done|..].
  - split; [by eapply grown_trans|done].
  - split; [by eapply grown_real|done].
  - destruct rest as [|x rest]; [done|]. cbn [opened]. rewrite Hi by apply snoc_ne. rewrite bool_decide_false.
    + destruct (node_at d ((dir ++ [e]) ++ [x])) eqn:Ex; [|done]. apply Hok in Ex. congruence.
    + intros Ee. apply (f_equal length) in Ee. rewrite !length_app in Ee. simpl in Ee. lia.
Qed.

Lemma opened_from_root d dir parts : real_dir d dir -> opened d dir parts -> opened d [] (dir ++ parts).
Proof.
  intros Hd Ho. destruct Hd as [[_ Hk] Hd].
  assert (Hall : forall k, (k <= length dir)%nat -> opened d (take k dir) (drop k dir ++ parts)); [|by apply (Hall 0%nat); lia].
  intros k Hle. remember (length dir - k)%nat as m eqn:Em. revert k Hle Em. induction m as [|m IH]; intros k Hle Em.
  { assert (k = length dir) as -> by lia. by rewrite firstn_all, drop_all. }
  destruct (drop k dir) as [|e rest] eqn:Ed; [apply (f_equal length) in Ed; rewrite length_drop in Ed; simpl in Ed; lia|].
  assert (Hlk : dir !! k = Some e) by (rewrite <- (Nat.add_0_r k), <- lookup_drop, Ed; done).
  assert (Et : take k dir ++ [e] = take (S k) dir) by (symmetry; by apply take_S_r).
  cbn [app opened]. rewrite Et. assert (Hn : node_at d (take (S k) dir) = Some NDir).
  { destruct (decide (S k = length dir)) as [->|]; [by rewrite firstn_all|]. apply Hk. lia. }
  rewrite Hn. specialize (IH (S k) ltac:(lia) ltac:(lia)). replace (drop (S k) dir) with rest in IH; [done|].
  by apply (f_equal (drop 1)) in Ed; rewrite drop_drop, Nat.add_comm in Ed.
Qed.

(** ** The checks of the two paths *)

Lemma existing_place d raw q : HasPrefix (dk_cwd d) "/" = true -> canonicalExistingPath d raw = Ok q ->
  exists place content, q = render_path true place /\ real d place /\ node_at d place = Some (NFile content) /\
    (Z.of_nat (String.length content) <= maxArtifactBytes)%Z.
Proof.
  intros Hc. unfold canonicalExistingPath. destruct (_ =s ""); [done|]. destruct (Abs d raw) as [abs0|] eqn:Ea; [|done].
  cbn [rbind]. cbn zeta. apply Abs_rooted in Ea; [|done]. apply Clean_rooted in Ea as [Hr _].
  destruct (Lstat d _) as [info|] eqn:El; [|done]. cbn [rbind]. destruct (is_symlink info); [done|].
  destruct (is_regular info) eqn:Eg; [|done]. cbn [negb]. destruct (_ <? _)%Z eqn:Ez; [done|].
  destruct (EvalSymlinks d _) as [q'|] eqn:Ee; [|done]. cbn [rbind]. intros [= <-].
  destruct (regular_place d _ info q' Hr El Eg Ee) as (place & content & -> & -> & _ & _ & Hreal & Hn & -> & _).
  exists place, content. apply Z.ltb_ge in Ez. done.
Qed.

Lemma joins_rooted l p : rooted p = true -> rooted (foldl (fun r e => FilepathJoin [r; e]) p l) = true.
Proof. revert p. induction l as [|e l IH]; intros p Hp; [done|]. cbn [foldl]. by apply IH, FilepathJoin_rooted. Qed.

Lemma nearest_dir_path fuel d abs current missing q : nearest_dir fuel d abs current missing = Ok q ->
  rooted q = true /\ q = render_path true (path_elems q).
Proof.
  revert current missing. induction fuel as [|fuel IH]; intros current missing; [done|]. cbn [nearest_dir].
  destruct (Lstat d current) as [info|e].
  - destruct (is_symlink info); [done|]. destruct (negb _); [done|]. destruct (EvalSymlinks d current) as [res|] eqn:E; [|done].
    cbn [rbind]. intros Hq. assert (q = Clean (foldl (fun r e => FilepathJoin [r; e]) res missing)) as -> by congruence.
    apply Clean_rooted, joins_rooted. apply EvalSymlinks_place in E as (? & ? & _ & _ & _ & _ & _ & _ & Hr & _). done.
  - destruct (negb _); [done|]. cbn zeta. destruct (_ =s current); [done|]. apply IH.
Qed.

Lemma look_Err op follow d p e : look op follow d p = Err e -> exists e', e = PathError op p e'.
Proof.
  unfold look. destruct (dk_fault d op p); [intros [= <-]; eauto|]. destruct (p =s ""); [intros [= <-]; eauto|].
  destruct (walk _ _ _ _ _) as [at_|]; [|intros [= <-]; eauto]. destruct (node_at d at_); [done|]. intros [= <-]; eauto.
Qed.

(** The fuel of the loop is enough: each round takes an element off the path. *)
Lemma nearest_dir_fuel fuel d abs l missing : Forall plain l -> (length l < fuel)%nat ->
  nearest_dir fuel d abs (render_path true l) missing <> Err (EText "out of fuel").
Proof.
  revert l missing. induction fuel as [|fuel IH]; intros l missing Hp Hlt; [lia|]. cbn [nearest_dir].
  destruct (Lstat d _) as [info|e] eqn:El.
  - destruct (is_symlink info); [done|]. destruct (negb _); [done|]. unfold EvalSymlinks. destruct (dk_fault _ _ _); [done|].
    destruct (walk _ _ _ _ _); [|done]. cbn [rbind]. congruence.
  - apply look_Err in El as [e' ->]. destruct (negb _); [done|]. cbn zeta. destruct l as [|x l _] using rev_ind; [done|].
    rewrite Dir_render by done. destruct (_ =s _); [done|]. apply IH; [by apply Forall_app in Hp as [? _]|].
    rewrite length_app in Hlt. simpl in Hlt. lia.
Qed.

Lemma target_path d raw q : canonicalTargetPath d raw = Ok q -> rooted q = true /\ q = render_path true (path_elems q).
Proof.
  unfold canonicalTargetPath. destruct (_ =s ""); [done|]. destruct (Abs d raw) as [abs0|]; [|done]. cbn [rbind]. cbn zeta.
  destruct (Lstat d _) as [info|e]; [|destruct (is_not_exist e); [apply nearest_dir_path|done]].
  repeat (destruct (_ : bool); [done|]). destruct (EvalSymlinks d _) as [res|] eqn:E; [|apply nearest_dir_path].
  intros [= <-]. apply EvalSymlinks_place in E as (? & ? & _ & _ & _ & _ & -> & Hcl & Hr & He). rewrite Hcl. split; [done|]. by rewrite He.
Qed.

Lemma rooted_Abs d q : rooted q = true -> Abs d q = Ok (Clean q).
Proof. unfold Abs. by intros ->. Qed.

(** The validator's lexical check is the stores' check of the scope. *)
Lemma lexical_scope pkg d root p q place : Forall plain place -> q = render_path true place ->
  validateScopedPathLexical d root p q = Ok q -> validateRootRelativeScope pkg root q p = Ok tt.
Proof.
  intros Hp ->. destruct (render_place place Hp) as (Hr & _ & Hc).
  unfold validateScopedPathLexical, validateRootRelativeScope. destruct (pl_WorkspaceID p) as [ws|]; [|done].
  destruct (_ || _); [done|]. destruct (_ =s ""); [done|]. rewrite rooted_Abs by done. cbn [rbind]. cbn zeta. rewrite !Hc.
  destruct (Rel root _) as [rel|]; [|done]. cbn [rbind]. destruct (escapes rel); [done|].
  destruct (_ <? _)%nat; [done|]. by destruct (parts_in_scope _ _ _).
Qed.

Lemma lexical_same d root p q x : rooted q = true -> Clean q = q -> validateScopedPathLexical d root p q = Ok x -> x = q.
Proof.
  intros Hr Hc. unfold validateScopedPathLexical. destruct (pl_WorkspaceID p); [|done]. destruct (_ || _); [done|].
  destruct (_ =s ""); [done|]. rewrite rooted_Abs by done. cbn [rbind]. cbn zeta. rewrite !Hc.
  destruct (Rel root q); [|done]. cbn [rbind]. destruct (escapes _); [done|]. destruct (_ <? _)%nat; [done|].
  destruct (parts_in_scope _ _ _); [|done]. by intros [= <-].
Qed.

Lemma sha256File_at d place content h : faultless d -> real d place -> node_at d place = Some (NFile content) ->
  sha256File d (render_path true place) = Ok h -> h = sha256_hex content.
Proof.
  intros Hf Hr Hn. unfold sha256File, Lstat, Open. rewrite look_place, Hn by auto. cbn [is_symlink is_regular negb].
  destruct (_ <? _)%Z; [done|]. rewrite look_place, Hn, Hf; [|done|done|right; intros n; rewrite Hn; by intros [= <-]]. cbn [node_content]. by intros [= <-].
Qed.

Lemma target_at d dir x : real_dir d dir -> plain x -> target_of d (render_path true (dir ++ [x])) = Ok (dir ++ [x]).
Proof.
  intros Hd Hx. assert (Hp : Forall plain (dir ++ [x])) by (apply Forall_app; split; [apply Hd|by constructor]).
  destruct (render_place _ Hp) as (Hr & He & _). unfold target_of, absolute. rewrite Hr, He. cbn zeta. rewrite removelast_last, last_snoc.
  rewrite walk_down by apply Hd. cbn [app]. destruct dir as [|y dir]; [done|]. by rewrite (proj2 Hd); cbn [rbind]; rewrite (proj2 Hd).
Qed.

(** ** The digest *)

(** Visible bytes that are their own lower case. *)
Definition low (c : ascii) : bool := GraphStoreFacts.visible c && bool_decide (ascii_lower c = c).

Lemma lower_hex_low c : lower_hex c = true -> low c = true.
Proof. destruct c as [[] [] [] [] [] [] [] []]; vm_compute; done. Qed.

Lemma low_lower s : forallb low (String.list_ascii_of_string s) = true -> ToLower s = s.
Proof.
  unfold ToLower. induction s as [|c s IH]; [done|]. cbn [String.list_ascii_of_string forallb String.length lower_fuel].
  intros [Hc Hs]%andb_true_iff. unfold low in Hc. apply andb_true_iff in Hc as [Hv Hl%bool_decide_eq_true].
  assert (Hp : forall x y, GraphStoreFacts.visible x = false -> HasPrefix (String c s) (String x y) = false).
  { intros x y Hx. destruct (HasPrefix _ _) eqn:E; [|done]. apply HasPrefix_spec in E as [r [= -> _]]. congruence. }
  change (bytes [226; 132; 170]%nat) with (String (byte_of 226) (bytes [132; 170]%nat)).
  change (bytes [196; 176]%nat) with (String (byte_of 196) (bytes [176]%nat)).
  rewrite !Hp by reflexivity. by rewrite Hl, IH.
Qed.

Lemma low_tight s : s <> "" -> forallb low (String.list_ascii_of_string s) = true -> tight s = true.
Proof.
  intros Hne Hs. assert (Hh : forall t, t <> "" -> forallb low (String.list_ascii_of_string t) = true -> head_visible t = true).
  { intros [|c t]; [done|]. cbn. by intros _ [[? _]%andb_true_iff _]%andb_true_iff. }
  unfold tight. rewrite (Hh s) by done. apply Hh.
  - intros E. apply (f_equal String.length) in E. rewrite str_rev_length in E. by destruct s.
  - unfold str_rev. rewrite String.list_ascii_of_string_of_list_ascii. rewrite forallb_forall in *. intros c Hc. apply Hs. by apply in_rev.
Qed.

(** The digest that is passed on is the one that was announced. *)
Lemma normalize_digest x : normalizeSHA256 x <> "" -> normalizeSHA256 ("sha256:" +:+ normalizeSHA256 x) = normalizeSHA256 x.
Proof.
  intros Hne. remember (normalizeSHA256 x) as h eqn:Eh.
  assert (Hh : (String.length h =? 64)%nat = true /\ forallb lower_hex (String.list_ascii_of_string h) = true).
  { subst h. unfold normalizeSHA256 in *. cbn zeta in *. destruct (negb _) eqn:E; [done|]. destruct (forallb _ _) eqn:E2; [|done].
    by apply negb_false_iff in E. }
  destruct Hh as [Hl Hx].
  assert (Hlow : forallb low (String.list_ascii_of_string ("sha256:" +:+ h)) = true).
  { rewrite list_of_str_app, forallb_app. apply andb_true_iff. split; [by vm_compute|].
    rewrite forallb_forall in *. intros c Hc. by apply lower_hex_low, Hx. }
  unfold normalizeSHA256. cbn zeta. rewrite low_lower, tight_TrimSpace, TrimPrefix_app, Hl, Hx by (done || by apply low_tight). done.
Qed.

(** ** Publication *)

Lemma node_at_moved d o n x p : o <> [] -> n <> [] ->
  node_at (set_nodes (fun m => <[n := x]> (delete o m)) d) p =
  if bool_decide (p = n) then Some x else if bool_decide (p = o) then None else node_at d p.
Proof.
  intros Ho Hn. destruct p as [|y p]; [rewrite !bool_decide_false by congruence; done|]. cbn. repeat case_bool_decide; subst.
  - by rewrite lookup_insert_eq.
  - by rewrite lookup_insert_ne, lookup_delete_eq.
  - by rewrite lookup_insert_ne, lookup_delete_ne.
Qed.

(** What publication leaves: the file in its new place, and new directories. *)
Definition moved (d : Disk) (old new : list string) (content : string) (d' : Disk) : Prop :=
  dk_cwd d' = dk_cwd d /\ faultless d' /\ real d' new /\ node_at d' new = Some (NFile content) /\ node_at d' old = None /\
  forall q, q <> old -> q <> new -> node_at d' q = node_at d q \/ (node_at d q = None /\ node_at d' q = Some NDir).

Lemma real_parent d dir e : real d (dir ++ [e]) -> real_dir d dir.
Proof.
  intros [Hp Hk]. apply Forall_app in Hp as [Hp _]. rewrite length_app in Hk. simpl in Hk. split; [split; [done|]|].
  - intros k Hlt. specialize (Hk k). rewrite take_app_le in Hk by lia. apply Hk. lia.
  - specialize (Hk (length dir)). rewrite take_app_length in Hk. apply Hk. lia.
Qed.

Lemma rename_moved d d5 told tnew x old content d' : faultless d -> grown d d5 ->
  real d old -> node_at d old = Some (NFile content) -> old = told ++ [x] ->
  real_dir d5 (removelast tnew) -> Forall plain tnew -> tnew <> [] -> old <> tnew ->
  Rename d5 (render_path true old) (render_path true tnew) = Ok d' -> moved d old tnew content d'.
Proof.
  intros Hf Hg Ho Hn Ex Hd Hp Hne Hdiff. rewrite (app_removelast_last "" Hne) in Hp. set (dir := removelast tnew) in *.
  set (y := List.last tnew "") in *. assert (Et : tnew = dir ++ [y]) by apply (app_removelast_last "" Hne).
  assert (Hy : plain y) by (by apply Forall_app in Hp as [_ ?%Forall_inv]).
  pose proof (grown_real _ _ _ Hg Ho) as Ho5. pose proof (grown_kept _ _ _ _ Hg Hn) as Hn5.
  assert (Hx : plain x) by (destruct Ho as [Hop _]; rewrite Ex in Hop; by apply Forall_app in Hop as [_ ?%Forall_inv]).
  unfold Rename. destruct Hg as (Hg1 & Hg2 & Hg3). rewrite Hg2, Hf.
  assert (Eto : target_of d5 (render_path true old) = Ok old) by (rewrite Ex in *; apply target_at; [by eapply real_parent|done]).
  assert (Etn : target_of d5 (render_path true tnew) = Ok tnew) by (rewrite Et; by apply target_at).
  rewrite Eto, Etn, Hn5. assert (Hone : old <> []) by (rewrite Ex; apply snoc_ne). intros H.
  assert (d' = set_nodes (fun m => <[tnew := NFile content]> (delete old m)) d5) as ->.
  { destruct (node_at d5 tnew) as [[]|]; congruence. }
  pose proof (fun p => node_at_moved d5 old tnew (NFile content) p Hone Hne) as Hm.
  pose proof (proj2 (real_snoc d5 dir y Hd Hy)) as Hk5. rewrite <- Et in Hk5.
  split; [done|]. split; [intros op q; cbn; by rewrite Hg2|]. split_and!.
  - split; [by rewrite Et|]. intros k Hk. rewrite Hm, !bool_decide_false; [by apply Hk5|intros E..].
    + specialize (Hk5 k Hk). congruence.
    + apply (f_equal length) in E. rewrite length_take in E. lia.
  - by rewrite Hm, bool_decide_true.
  - by rewrite Hm, bool_decide_false, bool_decide_true by done.
  - intros q Hq1 Hq2. rewrite Hm, !bool_decide_false by done. apply Hg3.
Qed.

Definition quiet : nat -> Disk -> Disk := fun _ d => d.

Lemma publish_moved d rp old t content got r d' r' : faultless d -> disk_ok d -> real_dir d rp ->
  real d old -> node_at d old = Some (NFile content) -> Forall plain (rp ++ t) -> (1 < length t)%nat -> old <> rp ++ t ->
  publish_file quiet d (render_path true rp) (render_path true old) (render_path true (rp ++ t)) got r = (d', Ok r') ->
  moved d old (rp ++ t) content d' /\ sha256_hex content = got /\
  r' = {| res_ArtifactTempPath := render_path true old; res_ArtifactPath := render_path true (rp ++ t);
          res_ArtifactSHA256 := "sha256:" +:+ got; res_Metadata := res_Metadata r |}.
Proof.
  intros Hf Hok Hrp Ho Hn Hp Hlen Hdiff. assert (Hne : t <> []) by (intros ->; simpl in Hlen; lia).
  pose proof (app_removelast_last "" Hne) as Et. set (t0 := removelast t) in *. set (y := List.last t "") in *.
  assert (Ht0 : t0 <> []) by (intros E; rewrite E in Et; rewrite Et in Hlen; simpl in Hlen; lia).
  assert (Ea : rp ++ t = (rp ++ t0) ++ [y]) by (by rewrite <- app_assoc, <- Et).
  assert (Hp0 : Forall plain (rp ++ t0)) by (rewrite Ea in Hp; by apply Forall_app in Hp as [? _]).
  assert (Hdir : path_Dir (render_path true (rp ++ t)) = render_path true (rp ++ t0)).
  { rewrite Ea. apply Dir_render. by rewrite <- Ea. }
  unfold publish_file, quiet. cbn zeta. rewrite Hdir.
  destruct (ensureParentSafe _ _ _) as [[]|] eqn:Es; [|done]. unfold MkdirAll. rewrite Hf.
  destruct (render_place _ Hp0) as (Hr0 & He0 & Hc0). unfold absolute. rewrite Hr0, He0.
  unfold ensureParentSafe in Es. cbn zeta in Es. rewrite Hc0, Rel_render in Es by done. cbn [rbind] in Es.
  assert (Hsp : SplitByte "/" (Join t0 "/") = t0).
  { apply SplitByte_Join; [done|]. apply Forall_app in Hp0 as [_ Hp0]. eapply Forall_impl; [exact Hp0|]. by intros ? (_ & _ & _ & ?). }
  assert (Hopen : opened d rp t0).
  { rewrite Hsp in Es. destruct (_ =s ".") eqn:E1.
    - apply str_eqb_spec in E1. rewrite E1 in Hsp. change (SplitByte "/" ".") with ["."] in Hsp. rewrite <- Hsp in Hp0.
      by apply Forall_app in Hp0 as [_ (_ & ? & _)%Forall_inv].
    - destruct (_ || _); [done|]. apply parents_opened in Es; [done..|by apply Forall_app in Hp0 as [_ ?]|done]. }
  destruct (mkdirs d [] (rp ++ t0)) as [d5|] eqn:Em; [|done].
  apply mkdirs_opened in Em as [Hg Hd5]; [|done|done|apply real_dir_nil|by apply opened_from_root].
  cbn [app] in Hd5. destruct (Rename d5 _ _) as [d6|] eqn:Er; [|done].
  assert (Hold : old <> []) by (by intros ->).
  assert (Hmv : moved d old (rp ++ t) content d6).
  { eapply (rename_moved d d5 (removelast old) (rp ++ t) (List.last old "")); try done.
    - by apply app_removelast_last.
    - by rewrite Ea, removelast_last.
    - rewrite Ea. apply snoc_ne. }
  pose proof Hmv as (_ & Hf6 & Hr6 & Hn6 & _).
  destruct (sha256File d6 _) as [g|] eqn:Eg; [|done]. apply (sha256File_at d6 _ content) in Eg; [|done..]. subst g.
  destruct (_ =s got) eqn:E; [|done]. apply str_eqb_spec in E. cbn [negb]. intros [= <- <-]. done.
Qed.

(** The two paths of a publication, in the scope of the message. *)
Lemma scoped_place pkg d rp p q : real_dir d rp -> rooted q = true -> q = render_path true (path_elems q) ->
  Forall plain (path_elems q) -> forall x, validateScopedPathLexical d (render_path true rp) p q = Ok x ->
  validateRootRelativeScope pkg (render_path true rp) q p = Ok tt /\
  exists t, q = render_path true (rp ++ t) /\ Forall plain (rp ++ t) /\ (1 < length t)%nat.
Proof.
  intros Hrp Hr Hq Hp x Hx. destruct (render_place _ Hp) as (_ & _ & Hc). rewrite <- Hq in Hc.
  rewrite (lexical_same _ _ _ _ _ Hr Hc Hx) in Hx. pose proof (lexical_scope pkg _ _ _ _ _ Hp Hq Hx) as Hs. split; [done|].
  destruct (render_place rp (proj1 (proj1 Hrp))) as (Hrr & Her & _).
  destruct (scope_elems pkg _ _ _ Hrr Hr Hs) as (ws & rest & _ & He). rewrite Her in He.
  exists (scope_dirs p ws ++ rest). rewrite <- He. split_and!; [done|done|]. rewrite length_app. cbn [scope_dirs length]. lia.
Qed.

(** The root stays a directory when a file is moved below it. *)
Lemma root_stays d d' rp old t content n : real_dir d rp -> node_at d old = Some (NFile n) -> t <> [] ->
  moved d old (rp ++ t) content d' -> real_dir d' rp.
Proof.
  intros Hrp Hold Ht (_ & _ & _ & _ & _ & Hrest).
  assert (Hkeep : forall q, node_at d q = Some NDir -> (length q <= length rp)%nat -> node_at d' q = Some NDir).
  { intros q Hq Hl. destruct (Hrest q) as [->|[? _]]; [congruence| |done|congruence].
    intros ->. rewrite length_app in Hl. destruct t; [done|]. simpl in Hl. lia. }
  destruct Hrp as [[Hp Hk] Hd]. split; [split; [done|]|by apply Hkeep].
  intros k Hlt. apply Hkeep; [by apply Hk|]. rewrite length_take. lia.
Qed.

(** A store accepts a file that was moved to its place. *)
Lemma store_accepts pkg noun d rp t content p : faultless d -> real_dir d rp -> real d (rp ++ t) ->
  node_at d (rp ++ t) = Some (NFile content) -> (Z.of_nat (String.length content) <= maxIngestBytes)%Z ->
  TrimSpace (render_path true rp) = render_path true rp -> TrimSpace (render_path true (rp ++ t)) = render_path true (rp ++ t) ->
  validateRootRelativeScope pkg (render_path true rp) (render_path true (rp ++ t)) p = Ok tt ->
  validatePublishedArtifactScope pkg d (render_path true rp) p (render_path true (rp ++ t)) = Ok tt /\
  readArtifactFile noun d (render_path true (rp ++ t)) = Ok content.
Proof.
  intros Hf Hrp Hr Hn Hsz Ht1 Ht2 Hs. pose proof Hsz as Hsz'%Z.ltb_ge.
  destruct (render_place rp (proj1 (proj1 Hrp))) as (Hrr & _ & Hcr), (render_place _ (proj1 Hr)) as (Hrn & _ & Hcn).
  assert (Hl : forall op follow, look op follow d (render_path true (rp ++ t)) = Ok (NFile content)).
  { intros op follow. rewrite look_place, Hn by (try done; right; intros n; rewrite Hn; by intros [= <-]). done. }
  split.
  - unfold validatePublishedArtifactScope, resolveArtifactRoot. cbn zeta. rewrite Ht1, Ht2.
    destruct (render_path true (rp ++ t) =s "") eqn:E1; [by apply str_eqb_spec in E1; rewrite E1 in Hrn|].
    destruct (render_path true rp =s "") eqn:E2; [by apply str_eqb_spec in E2; rewrite E2 in Hrr|].
    rewrite !rooted_Abs, Hcr, Hcn by done. rewrite (EvalSymlinks_at d rp NDir) by (done || apply Hrp). cbn [rbind].
    rewrite Hcr, Hcn. unfold Lstat. rewrite Hl. cbn [is_symlink is_regular negb].
    rewrite (EvalSymlinks_at d (rp ++ t) (NFile content)) by done. by rewrite Hcn.
  - unfold readArtifactFile, Open. rewrite Hl. cbn [rbind is_regular negb node_size]. rewrite Hsz', Hf. cbn [node_content rbind]. by rewrite Hsz'.
Qed.

