(* ===== verification/IndexCore.v ===== *)
(** The worker of the core layers, src/internal/backend/indexcore/handler.go: the
    merge of SCIP evidence into the graph snapshot of a commit, the activation of
    an indexed revision, and the completion of the job, under the lease of a
    subjob.  The statements are functions on [CoreWorld]; the work of a subjob is a
    program, and [Handle] runs it beside the heartbeat of [Executor.withHeartbeat],
    whose code this package repeats. *)
From Stdlib Require Import Ascii.
From S2P Require Import Prelude GoStd GoStdFacts GoJSON GoText Sha256 SubjobTypes SubjobStore SubjobTask SubjobSystem.
From S2P Require Import ManifestDelta Executor Scheduler GraphSchema GraphStore ScipProjection RepoIndexDB RepoJobs.
From S2P Require Import CoreDB.
Definition scipPostgresBatchSize : Z := 500.

(** ** Configuration *)

Definition graphWriter : Type :=
  RenderedStatementWrite -> GM (CodeGraphWriteResult * option gerror).

(** [ch_lease] holds the lease settings; [ch_graph] is nil without a graph writer;
    [ch_canQuery] says that the database has the method Query; [ch_order] is the
    order of a range over a map and [ch_jsonb_text] the text of a nested jsonb
    value. *)
Record CoreHandler : Type := {
  ch_lease : Handler;
  ch_graph : option graphWriter;
  ch_getenv : string -> string;
  ch_canQuery : bool;
  ch_order : list CodeGraphVertex -> list CodeGraphVertex;
  ch_jsonb_text : json -> string
}.

Definition NewHandler (hasDB hasStore : bool) (hostname nonce : string) (LeaseDuration
    HeartbeatInterval : Z) (LeaseOwner : string) : result gerror Handler :=
  if negb hasDB then Err (EText "indexcore: database is required")
  else if negb hasStore then Err (EText "indexcore: store is required")
  else
    let leaseDuration := if LeaseDuration <=? 0 then defaultLeaseDuration else LeaseDuration in
    let heartbeatInterval :=
      if HeartbeatInterval <=? 0 then defaultHeartbeatInterval else HeartbeatInterval in
    if leaseDuration <=? heartbeatInterval
    then Err (EText "indexcore: heartbeat interval must be shorter than lease duration")
    else Ok {| h_leaseDuration := leaseDuration; h_heartbeatInterval := heartbeatInterval;
               h_leaseOwner := if LeaseOwner =s "" then "index-core-" +:+ hostname +:+ "-" +:+ nonce
                               else LeaseOwner |}.

(** ** Graph snapshots of a revision *)

(** The scope columns of the queries on "CodeGraphIndex". *)
Definition graph_in_scope (p : Payload) (ws : string) (g : CodeGraphIndex) : bool :=
  (gx_orgId g =? pl_OrgID p) && (gx_repoId g =? pl_RepoID p) && (gx_workspaceId g =s ws)
  && bool_decide (gx_sourceRevision g = Some (pl_Revision p))
  && (gx_commitHash g =s pl_CommitHash p) && (gx_schemaVersion g =? defaultSchemaVersion)
  && (gx_builderVersion g =s defaultBuilder).

(** ORDER BY "updatedAt" DESC, id DESC *)
Definition newer_graph (a b : string * CodeGraphIndex) : bool :=
  lex_lt [Z.compare (gx_updatedAt b.2) (gx_updatedAt a.2); String.compare b.1 a.1].

(** CASE status WHEN 'PARTIAL' THEN 0 WHEN 'READY' THEN 1 ELSE 2 END *)
Definition merge_rank (g : CodeGraphIndex) : Z :=
  if gx_status g =s "PARTIAL" then 0 else if gx_status g =s "READY" then 1 else 2.

Definition merge_order (a b : string * CodeGraphIndex) : bool :=
  lex_lt [Z.compare (merge_rank a.2) (merge_rank b.2);
          Z.compare (gx_updatedAt b.2) (gx_updatedAt a.2); String.compare b.1 a.1].

Definition graphs_where (f : CodeGraphIndex -> bool) (w : CoreWorld) : list (string * CodeGraphIndex) :=
  List.filter (fun kv => f kv.2) (map_to_list (cr_graphs (cw_rest w))).

Definition resolvePartialGraphIndex (p : Payload) (ws : string) : prog string :=
  pwrap "resolve graph snapshot for merge: " (pstmt (fun _ w =>
    match head (sort_stable merge_order (graphs_where (fun g => graph_in_scope p ws g
                  && bool_decide (gx_status g ∈ ["PARTIAL"; "READY"])) w)) with
    | Some kv => Ok (w, kv.1)
    | None => Err ErrNoRows
    end)).

(** The subjobs of the revision that still have to end before the layers above
    them: [layers] selects those that count. *)
Definition blocking_subjobs (p : Payload) (ws : string) (layers : string -> bool) (db : DB)
  : list SubjobRow :=
  List.filter (fun dep =>
      let s := sj_scope dep.2 in
      (sc_repoIndexingJobId s =s pl_RepoIndexingJobID p) && (sc_workspaceId s =s ws)
      && (sc_repoId s =? pl_RepoID p) && (sc_branch s =s pl_Branch p)
      && (sc_revision s =s pl_Revision p) && (sc_commitHash s =s pl_CommitHash p)
      && layers (sc_layer s) && unfinished dep.2 && negb (scip_gave_up dep.2))
    (map_to_list (db_subjobs db)).

Definition merge_layers (layer : string) : bool :=
  (layer =s LayerASTTreeSitter) || (layer =s LayerSCIP).

Definition merge_unblocked (p : Payload) (ws : string) (db : DB) : bool :=
  bool_decide (blocking_subjobs p ws merge_layers db = []).

Definition graphSnapshotAlreadyReady (p : Payload) (ws : string) : prog bool :=
  pwrap "check ready graph snapshot: " (pstmt (fun _ w =>
    Ok (w, bool_decide (graphs_where (fun g => graph_in_scope p ws g && (gx_status g =s "READY")) w <> [])
           && merge_unblocked p ws (cw_db w)))).

(** The conflict target of "CodeGraphIndex". *)
Definition graph_key (g : CodeGraphIndex) : Z * string * string * Z * string :=
  (gx_repoId g, gx_workspaceId g, gx_commitHash g, gx_schemaVersion g, gx_builderVersion g).

(** The foreign keys on "Org" and "Repo". *)
Definition repo_fk_ok (orgId repoId : Z) (w : CoreWorld) : bool :=
  bool_decide (cr_orgs (cw_rest w) !! orgId <> None)
  && bool_decide (db_repos (cw_db w) !! repoId <> None).

(** [INSERT INTO "CodeGraphIndex" ... ON CONFLICT (key) DO UPDATE ... RETURNING];
    the value is the stored row. *)
Definition upsert_graph (id : string) (row : CodeGraphIndex)
    (merge : CodeGraphIndex -> CodeGraphIndex) (w : CoreWorld)
  : result gerror (CoreWorld * (string * CodeGraphIndex)) :=
  match head (graphs_where (fun g => bool_decide (graph_key g = graph_key row)) w) with
  | Some (old_id, old) =>
      Ok (with_rest (with_graphs (<[old_id := merge old]>)) w, (old_id, merge old))
  | None =>
      if negb (repo_fk_ok (gx_orgId row) (gx_repoId row) w)
      then Err (EText "insert violates foreign key constraint")
      else if bool_decide (cr_graphs (cw_rest w) !! id <> None)
      then Err (EText "duplicate key value violates unique constraint")
      else Ok (with_rest (with_graphs (<[id := row]>)) w, (id, row))
  end.

(** A fresh row of "CodeGraphIndex". *)
Definition new_graph (status : string) (now : Z) (orgId repoId : Z) (ws revision commitHash runId : string)
    (schemaVersion : Z) (builderVersion : string) : CodeGraphIndex :=
  {| gx_orgId := orgId; gx_repoId := repoId; gx_workspaceId := ws; gx_commitHash := commitHash;
     gx_schemaVersion := schemaVersion; gx_builderVersion := builderVersion; gx_status := status;
     gx_sourceRevision := Some revision; gx_graphSpace := Some SpaceName;
     gx_indexRunId := Some runId; gx_vertexCount := 0; gx_edgeCount := 0; gx_anchorCount := 0;
     gx_linkedEdgeCount := 0; gx_errorMessage := None; gx_indexedAt := None;
     gx_supersededAt := None; gx_deleteAfter := None; gx_updatedAt := now |}.

(** DO UPDATE SET of the SCIP-only snapshot: READY stays READY. *)
Definition scip_only_merge (now : Z) (p : Payload) (g : CodeGraphIndex) : CodeGraphIndex :=
  {| gx_orgId := gx_orgId g; gx_repoId := gx_repoId g; gx_workspaceId := gx_workspaceId g;
     gx_commitHash := gx_commitHash g; gx_schemaVersion := gx_schemaVersion g;
     gx_builderVersion := gx_builderVersion g;
     gx_status := if gx_status g =s "READY" then gx_status g else "PARTIAL";
     gx_sourceRevision := Some (pl_Revision p); gx_graphSpace := Some SpaceName;
     gx_indexRunId := Some (pl_RepoIndexingJobID p); gx_vertexCount := gx_vertexCount g;
     gx_edgeCount := gx_edgeCount g; gx_anchorCount := gx_anchorCount g;
     gx_linkedEdgeCount := gx_linkedEdgeCount g; gx_errorMessage := None;
     gx_indexedAt := gx_indexedAt g; gx_supersededAt := gx_supersededAt g;
     gx_deleteAfter := gx_deleteAfter g; gx_updatedAt := now |}.

Definition createPartialGraphIndexForSCIPOnly (p : Payload) : prog string :=
  match pl_WorkspaceID p with
  | None => perr (EText "indexcore: workspaceId is required for SCIP-only graph merge")
  | Some ws =>
      pwrap "create SCIP-only graph snapshot: " (pstmt (fun ce w =>
        let row := new_graph "PARTIAL" (ce_now ce) (pl_OrgID p) (pl_RepoID p) ws (pl_Revision p)
                     (pl_CommitHash p) (pl_RepoIndexingJobID p) defaultSchemaVersion defaultBuilder in
        let? wr := upsert_graph (ce_id ce 0) row (scip_only_merge (ce_now ce) p) w in
        Ok (wr.1, wr.2.1)))
  end.

(** ** SCIP rows of a revision *)

(** The joins on "CodeIntelIndex" and "CodeIntelLanguageIndex" and their part of
    the WHERE clause, for a child row with these columns; both joins are on keys,
    so that a child row appears at most once. *)
Definition scip_child (p : Payload) (ws : string) (w : CoreWorld) (orgId repoId : Z)
    (indexId : string) (languageId : option string) : bool :=
  existsb (fun x =>
      let k := cix_key x in
      (cii_id k =s indexId) && (cii_orgId k =? orgId) && (cii_repoId k =? repoId)
      && (cii_orgId k =? pl_OrgID p) && (cii_repoId k =? pl_RepoID p) && (cix_workspaceId x =s ws)
      && (cix_branch x =s pl_Branch p) && (cii_revision k =s pl_Revision p)
      && (cii_commitHash k =s pl_CommitHash p) && (cix_kind x =s "SCIP")
      && bool_decide (cix_status x ∈ ["READY"; "PARTIAL"])) (db_indexes (cw_db w))
  && match languageId with
     | Some l => match cr_languages (cw_rest w) !! l with
                 | Some li => (li_codeIntelIndexId li =s indexId) && (li_status li =s "READY")
                 | None => false
                 end
     | None => false
     end.

Definition symbol_lt (a b : SymbolRow) : bool :=
  lex_lt [asc_nulls_last String.compare (sy_filePath a) (sy_filePath b);
          asc_nulls_last Z.compare (sy_startLine a) (sy_startLine b);
          String.compare (sy_symbol a) (sy_symbol b)].

Definition symbol_projection (s : SymbolRow) : scipSymbolProjection :=
  {| ss_Symbol := sy_symbol s; ss_DisplayName := sy_displayName s;
     ss_Kind := coalesce "" (sy_kind s); ss_Language := coalesce "" (sy_language s);
     ss_FilePath := coalesce "" (sy_filePath s); ss_StartLine := sy_startLine s;
     ss_EndLine := sy_endLine s |}.

Definition symbol_rows (p : Payload) (ws : string) (w : CoreWorld) : list scipSymbolProjection :=
  map symbol_projection (sort_stable symbol_lt
    (List.filter (fun s => scip_child p ws w (sy_orgId s) (sy_repoId s) (sy_codeIntelIndexId s)
                             (sy_codeIntelLanguageIndexId s)) (cr_symbols (cw_rest w)))).

Definition relationship_lt (a b : scipRelationshipProjection) : bool :=
  lex_lt [String.compare (sr_SourceSymbol a) (sr_SourceSymbol b);
          String.compare (sr_TargetSymbol a) (sr_TargetSymbol b)].

(** One row per definition of the source symbol in the same index, or one without a
    place. *)
Definition relationship_projections (w : CoreWorld) (r : RelationshipRow)
  : list scipRelationshipProjection :=
  let row file startLine endLine :=
    {| sr_SourceSymbol := rl_sourceSymbol r; sr_TargetSymbol := rl_targetSymbol r;
       sr_IsReference := rl_isReference r; sr_IsImplementation := rl_isImplementation r;
       sr_IsTypeDefinition := rl_isTypeDefinition r; sr_IsDefinition := rl_isDefinition r;
       sr_SourceFile := coalesce "" file; sr_StartLine := startLine; sr_EndLine := endLine |} in
  match List.filter (fun s => (sy_codeIntelIndexId s =s rl_codeIntelIndexId r)
                              && (sy_symbol s =s rl_sourceSymbol r)) (cr_symbols (cw_rest w)) with
  | [] => [row None None None]
  | srcs => map (fun s => row (sy_filePath s) (sy_startLine s) (sy_endLine s)) srcs
  end.

Definition relationship_rows (p : Payload) (ws : string) (w : CoreWorld)
  : list scipRelationshipProjection :=
  sort_stable relationship_lt (concat (map (relationship_projections w)
    (List.filter (fun r => scip_child p ws w (rl_orgId r) (rl_repoId r) (rl_codeIntelIndexId r)
                             (rl_codeIntelLanguageIndexId r)) (cr_relationships (cw_rest w))))).

(** The WHERE clause both parts of the occurrence query share. *)
Definition occurrence_wanted (p : Payload) (ws : string) (w : CoreWorld) (o : OccurrenceRow) : bool :=
  scip_child p ws w (oc_orgId o) (oc_repoId o) (oc_codeIntelIndexId o)
    (oc_codeIntelLanguageIndexId o)
  && bool_decide (oc_role o ∈ ["REFERENCE"; "IMPORT"; "READ"]) && negb (oc_symbol o =s "")
  && ((oc_role o =s "IMPORT") || negb (coalesce "" (oc_enclosingSymbol o) =s "")).

Definition role_rank (role : string) : Z :=
  if role =s "IMPORT" then 0 else if role =s "REFERENCE" then 1 else 2.

Definition occurrence_lt (a b : OccurrenceRow) : bool :=
  lex_lt [Z.compare (role_rank (oc_role a)) (role_rank (oc_role b));
          String.compare (oc_filePath a) (oc_filePath b);
          Z.compare (oc_startLine a) (oc_startLine b);
          Z.compare (oc_startCharacter a) (oc_startCharacter b);
          String.compare (oc_symbol a) (oc_symbol b); String.compare (oc_role a) (oc_role b)].

Definition occurrence_projection (o : OccurrenceRow) : scipOccurrenceProjection :=
  {| so_Symbol := oc_symbol o; so_FilePath := oc_filePath o; so_StartLine := Some (oc_startLine o);
     so_EndLine := Some (oc_endLine o); so_Role := oc_role o;
     so_SyntaxKind := coalesce "" (oc_syntaxKind o);
     so_LineContent := coalesce "" (oc_lineContent o);
     so_EnclosingSymbol := coalesce "" (oc_enclosingSymbol o) |}.

Definition candidate_files (wanted : list OccurrenceRow) (fileCap : Z) : list string :=
  firstn (Z.to_nat fileCap) (SortStrings (dedup_first [] (map oc_filePath wanted))).

Definition occurrence_rows (p : Payload) (ws : string) (cap fileCap : Z) (w : CoreWorld)
  : list scipOccurrenceProjection :=
  let wanted := List.filter (occurrence_wanted p ws w) (cr_occurrences (cw_rest w)) in
  let files := candidate_files wanted fileCap in
  map occurrence_projection (firstn (Z.to_nat cap) (sort_stable occurrence_lt
    (List.filter (fun o => bool_decide (oc_filePath o ∈ files)) wanted))).

(** A query: the statement itself may fail, or the reading of its rows. *)
Definition dbQuery {A} (h : CoreHandler) (label : string) (rows : CoreWorld -> A) : prog A :=
  if negb (ch_canQuery h) then perr (EText "indexcore: database does not support Query")
  else PCall A (fun ce w =>
    match ce_fault ce 0%nat with
    | Some e => (w, Err (EWrap "query SCIP graph projection: " e ""))
    | None => match ce_fault ce 1%nat with
              | Some e => (w, Err (EWrap (label +:+ " projection rows: ") e ""))
              | None => (w, Ok (rows w))
              end
    end) PRet.

Definition ProjectionRows : Type :=
  (list scipSymbolProjection * list scipRelationshipProjection * list scipOccurrenceProjection)%type.

Definition loadSCIPProjectionRows (h : CoreHandler) (p : Payload) : prog ProjectionRows :=
  prog! ws := pderef (pl_WorkspaceID p) in
  prog! symbols := dbQuery h "SCIP symbol" (symbol_rows p ws) in
  prog! relationships := dbQuery h "SCIP relationship" (relationship_rows p ws) in
  prog! occurrences := dbQuery h "SCIP occurrence"
    (occurrence_rows p ws (scipOccurrenceCap (ch_getenv h)) (scipFileCap (ch_getenv h))) in
  pret (symbols, relationships, occurrences).

(** ** Semantic rows *)

(** The foreign key of a semantic row on its graph snapshot, all eight columns. *)
Definition graph_fk_ok (graphIndexID : string) (orgId repoId : Z) (commitHash : string)
    (schemaVersion : Z) (builderVersion ws : string) (w : CoreWorld) : bool :=
  match cr_graphs (cw_rest w) !! graphIndexID with
  | Some g => (gx_orgId g =? orgId) && (gx_repoId g =? repoId) && (gx_commitHash g =s commitHash)
              && (gx_schemaVersion g =? schemaVersion) && (gx_builderVersion g =s builderVersion)
              && (gx_workspaceId g =s ws)
  | None => false
  end.

(** The unique columns beside the key: the identifier of the row, and the vertex
    within a graph snapshot. *)
Definition fact_clash (k : string * string) (a : SemanticFact) (k' : string * string)
    (b : SemanticFact) : bool :=
  (sf_id a =s sf_id b) || (k.1 =s k'.1) && (sf_externalId a =s sf_externalId b).

(** For an edge: its ends, relation and place, where NULLs are distinct. *)
Definition edge_clash (k : string * string) (a : SemanticEdge) (k' : string * string)
    (b : SemanticEdge) : bool :=
  let same x y := match x, y with Some i, Some j => i =? j | _, _ => false end in
  (se_id a =s se_id b)
  || (k.1 =s k'.1) && (se_sourceExternalId a =s se_sourceExternalId b)
     && (se_targetExternalId a =s se_targetExternalId b) && (se_relation a =s se_relation b)
     && (se_sourceFile a =s se_sourceFile b) && same (se_startLine a) (se_startLine b)
     && same (se_endLine a) (se_endLine b).

Definition fact_merge (old new : SemanticFact) : SemanticFact :=
  {| sf_id := sf_id old; sf_externalId := sf_externalId old; sf_kind := sf_kind new;
     sf_label := sf_label new; sf_workspaceId := sf_workspaceId old;
     sf_commitHash := sf_commitHash old; sf_schemaVersion := sf_schemaVersion old;
     sf_builderVersion := sf_builderVersion old; sf_sourceFile := sf_sourceFile new;
     sf_startLine := sf_startLine new; sf_endLine := sf_endLine new;
     sf_evidence := sf_evidence new; sf_confidenceTier := sf_confidenceTier new;
     sf_confidence := sf_confidence new; sf_source := sf_source new;
     sf_extractionMethod := sf_extractionMethod old; sf_orgId := sf_orgId old;
     sf_repoId := sf_repoId old; sf_updatedAt := sf_updatedAt new |}.

(** [rationale] is in the SET clause of the SCIP projection only. *)
Definition edge_merge (with_rationale : bool) (old new : SemanticEdge) : SemanticEdge :=
  {| se_id := se_id old; se_sourceExternalId := se_sourceExternalId old;
     se_targetExternalId := se_targetExternalId old; se_relation := se_relation new;
     se_workspaceId := se_workspaceId old; se_commitHash := se_commitHash old;
     se_schemaVersion := se_schemaVersion old; se_builderVersion := se_builderVersion old;
     se_sourceFile := se_sourceFile new; se_startLine := se_startLine new;
     se_endLine := se_endLine new; se_evidence := se_evidence new;
     se_rationale := if with_rationale then se_rationale new else se_rationale old;
     se_confidenceTier := se_confidenceTier new; se_confidence := se_confidence new;
     se_source := se_source new; se_extractionMethod := se_extractionMethod old;
     se_orgId := se_orgId old; se_repoId := se_repoId old; se_updatedAt := se_updatedAt new |}.

(** The row of a vertex, the [i]th of its batch. *)
Definition scip_fact (p : Payload) (graphIndexID : string) (now : Z) (id : string)
    (v : CodeGraphVertex) : (string * string) * SemanticFact :=
  let props := vx_Properties v in
  ((graphIndexID, "scip-node:" +:+ vx_VID v),
   {| sf_id := id; sf_externalId := vx_VID v; sf_kind := stringProp props "kind" (vx_Kind v);
      sf_label := stringProp props "label" (vx_VID v); sf_workspaceId := payload_ws p;
      sf_commitHash := pl_CommitHash p; sf_schemaVersion := defaultSchemaVersion;
      sf_builderVersion := defaultBuilder;
      sf_sourceFile := stringProp props "evidenceFilePath" (stringProp props "path" "");
      sf_startLine := optionalPropInt (prop_of props "startLine");
      sf_endLine := optionalPropInt (prop_of props "endLine");
      sf_evidence := Some (stringProp props "label" (vx_VID v)); sf_confidenceTier := "EXTRACTED";
      sf_confidence := conf95; sf_source := "scip"; sf_extractionMethod := "scip-projection";
      sf_orgId := pl_OrgID p; sf_repoId := pl_RepoID p; sf_updatedAt := now |}).

Definition scip_edge_row (p : Payload) (graphIndexID : string) (now : Z) (id : string)
    (e : CodeGraphEdge) : (string * string) * SemanticEdge :=
  let props := ed_Properties e in
  ((graphIndexID, scipEdgeDedupeKey (ed_FromVID e) (ed_ToVID e) (ed_Kind e) (ed_Rank e)),
   {| se_id := id; se_sourceExternalId := ed_FromVID e; se_targetExternalId := ed_ToVID e;
      se_relation := ed_Kind e; se_workspaceId := payload_ws p; se_commitHash := pl_CommitHash p;
      se_schemaVersion := defaultSchemaVersion; se_builderVersion := defaultBuilder;
      se_sourceFile := stringProp props "evidenceFilePath" "";
      se_startLine := optionalPropInt (prop_of props "startLine");
      se_endLine := optionalPropInt (prop_of props "endLine");
      se_evidence := Some (stringProp props "normalizedKey" "");
      se_rationale := Some (stringProp props "context" ""); se_confidenceTier := "EXTRACTED";
      se_confidence := conf95; se_source := "scip"; se_extractionMethod := "scip-projection";
      se_orgId := pl_OrgID p; se_repoId := pl_RepoID p; se_updatedAt := now |}).

(** The columns [startLine] and [endLine] are 32 bits wide. *)
Definition int4_ok (v : option Z) : bool :=
  match v with Some z => (- 2 ^ 31 <=? z) && (z <? 2 ^ 31) | None => true end.

(** The statement of a batch of rows of one scope. *)
Definition insert_facts (graphIndexID : string) (rows : list ((string * string) * SemanticFact))
    (w : CoreWorld) : result gerror (CoreWorld * unit) :=
  if negb (forallb (fun kr => graph_fk_ok graphIndexID (sf_orgId kr.2) (sf_repoId kr.2)
                                (sf_commitHash kr.2) (sf_schemaVersion kr.2)
                                (sf_builderVersion kr.2) (sf_workspaceId kr.2) w) rows)
  then Err (EText "insert violates foreign key constraint")
  else if negb (forallb (fun kr => int4_ok (sf_startLine kr.2) && int4_ok (sf_endLine kr.2)) rows)
  then Err (EText "integer out of range")
  else
    let? m := upsert_rows fact_merge fact_clash [] rows (cr_facts (cw_rest w)) in
    Ok (with_rest (with_semantic (fun _ => m) id id) w, tt).

Definition insert_edges (with_rationale : bool) (graphIndexID : string)
    (rows : list ((string * string) * SemanticEdge)) (w : CoreWorld)
  : result gerror (CoreWorld * unit) :=
  if negb (forallb (fun kr => graph_fk_ok graphIndexID (se_orgId kr.2) (se_repoId kr.2)
                                (se_commitHash kr.2) (se_schemaVersion kr.2)
                                (se_builderVersion kr.2) (se_workspaceId kr.2) w) rows)
  then Err (EText "insert violates foreign key constraint")
  else if negb (forallb (fun kr => int4_ok (se_startLine kr.2) && int4_ok (se_endLine kr.2)) rows)
  then Err (EText "integer out of range")
  else
    let? m := upsert_rows (edge_merge with_rationale) edge_clash [] rows (cr_edges (cw_rest w)) in
    Ok (with_rest (with_semantic id (fun _ => m) id) w, tt).

Definition insertSCIPSemanticFactBatch (graphIndexID : string) (p : Payload)
    (vertices : list CodeGraphVertex) : prog unit :=
  match vertices with
  | [] => pret tt
  | _ => pwrap "insert SCIP semantic fact batch: " (pstmt (fun ce w =>
      insert_facts graphIndexID
        (imap (fun i v => scip_fact p graphIndexID (ce_now ce) (ce_id ce i) v) vertices) w))
  end.

Definition insertSCIPSemanticFacts (graphIndexID : string) (p : Payload)
    (vertices : list CodeGraphVertex) : prog unit :=
  pfor (chunkArray vertices scipPostgresBatchSize) (insertSCIPSemanticFactBatch graphIndexID p).

Definition insertSCIPSemanticEdgeBatch (graphIndexID : string) (p : Payload)
    (edges : list CodeGraphEdge) : prog unit :=
  match edges with
  | [] => pret tt
  | _ => pwrap "insert SCIP semantic edge batch: " (pstmt (fun ce w =>
      insert_edges true graphIndexID
        (imap (fun i e => scip_edge_row p graphIndexID (ce_now ce) (ce_id ce i) e) edges) w))
  end.

Definition insertSCIPSemanticEdges (graphIndexID : string) (p : Payload)
    (edges : list CodeGraphEdge) : prog unit :=
  pfor (chunkArray edges scipPostgresBatchSize) (insertSCIPSemanticEdgeBatch graphIndexID p).

Definition insertSCIPSemanticFact (graphIndexID : string) (p : Payload) (v : CodeGraphVertex)
  : prog unit :=
  pwrap "insert SCIP semantic fact: " (pstmt (fun ce w =>
    insert_facts graphIndexID [scip_fact p graphIndexID (ce_now ce) (ce_id ce 0) v] w)).

Definition insertSCIPSemanticEdge (graphIndexID : string) (p : Payload) (e : CodeGraphEdge)
  : prog unit :=
  pwrap "insert SCIP semantic edge: " (pstmt (fun ce w =>
    insert_edges true graphIndexID [scip_edge_row p graphIndexID (ce_now ce) (ce_id ce 0) e] w)).

(** ** The graph database *)

Definition scip_write (p : Payload) (snapshot : CodeGraphSnapshot) (batchSize : Z)
  : RenderedStatementWrite :=
  {| rw_OrgID := pl_OrgID p; rw_WorkspaceID := payload_ws p; rw_RepoID := pl_RepoID p;
     rw_Revision := pl_Revision p; rw_CommitHash := pl_CommitHash p;
     rw_SchemaVersion := defaultSchemaVersion; rw_BuilderVersion := defaultBuilder;
     rw_Source := "scip";
     rw_Statements := RenderSnapshotStatementsWithBatchSize snapshot batchSize |}.

Definition status_text (s : CodeGraphWriteStatus) : string :=
  match s with
  | WriteStatusReady => "READY" | WriteStatusSkipped => "SKIPPED" | WriteStatusFailed => "FAILED"
  end.

(** A call of the graph writer. *)
Definition graph_call (graph : graphWriter) (input : RenderedStatementWrite)
  : prog (CodeGraphWriteResult * option gerror) :=
  PCall _ (fun _ w =>
    let '(res, log) := graph input (cr_graphlog (cw_rest w)) in
    (with_rest (with_graphlog log) w, Ok res)) PRet.

Definition empty_snapshot (snapshot : CodeGraphSnapshot) : bool :=
  match sn_Vertices snapshot, sn_Edges snapshot with [], [] => true | _, _ => false end.

Definition writeSCIPSnapshotChunkToGraph (h : CoreHandler) (graph : graphWriter) (p : Payload)
    (snapshot : CodeGraphSnapshot) : prog unit :=
  if empty_snapshot snapshot then pret tt
  else
    prog! (result, err) := graph_call graph
      (scip_write p snapshot (scipGraphBatchSize (ch_getenv h))) in
    match err with
    | Some e => perr (EWrap "write SCIP semantic graph to Nebula: " e "")
    | None =>
        match wr_Status result with
        | WriteStatusReady => pret tt
        | s => perr (EText ("write SCIP semantic graph to Nebula status=" +:+ status_text s
                            +:+ ": " +:+ wr_ErrorMessage result))
        end
    end.

Definition with_rows (snapshot : CodeGraphSnapshot) (vs : list CodeGraphVertex)
    (es : list CodeGraphEdge) : CodeGraphSnapshot :=
  {| sn_OrgID := sn_OrgID snapshot; sn_WorkspaceID := sn_WorkspaceID snapshot;
     sn_RepoID := sn_RepoID snapshot; sn_Revision := sn_Revision snapshot;
     sn_CommitHash := sn_CommitHash snapshot; sn_SchemaVersion := sn_SchemaVersion snapshot;
     sn_BuilderVersion := sn_BuilderVersion snapshot; sn_Vertices := vs; sn_Edges := es;
     sn_Anchors := sn_Anchors snapshot |}.

(** All vertices before the first edge. *)
Definition writeSCIPSnapshotToGraph (h : CoreHandler) (graph : graphWriter) (p : Payload)
    (snapshot : CodeGraphSnapshot) : prog unit :=
  let batchSize := scipGraphBatchSize (ch_getenv h) in
  prog! _ := pfor (chunkArray (sn_Vertices snapshot) batchSize) (fun vs =>
    writeSCIPSnapshotChunkToGraph h graph p (with_rows snapshot vs [])) in
  pfor (chunkArray (sn_Edges snapshot) batchSize) (fun es =>
    writeSCIPSnapshotChunkToGraph h graph p (with_rows snapshot [] es)).

(** ** Merge *)

Definition no_rows (rows : ProjectionRows) : bool :=
  match rows with ([], [], []) => true | _ => false end.

(** The graph database first, then the two tables. *)
Definition store_snapshot (h : CoreHandler) (graphIndexID : string) (p : Payload)
    (snapshot : CodeGraphSnapshot) : prog unit :=
  if empty_snapshot snapshot then pret tt
  else
    prog! _ := match ch_graph h with
               | Some graph => writeSCIPSnapshotToGraph h graph p snapshot
               | None => pret tt
               end in
    prog! _ := insertSCIPSemanticFacts graphIndexID p (sn_Vertices snapshot) in
    insertSCIPSemanticEdges graphIndexID p (sn_Edges snapshot).

(** The first vertex of a snapshot slices the commit hash, which panics when it has
    fewer than twelve bytes. *)
Definition projectSCIPSemanticGraphRows (h : CoreHandler) (graphIndexID : string) (p : Payload)
    (rows : ProjectionRows) : prog unit :=
  match pl_WorkspaceID p with
  | None => perr (EText "indexcore: workspaceId is required for SCIP graph projection")
  | Some _ =>
      if no_rows rows then pret tt
      else if (String.length (pl_CommitHash p) <? 12)%nat then PPanic
      else store_snapshot h graphIndexID p
             (buildSCIPSnapshot (ch_order h) p rows.1.1 rows.1.2 rows.2)
  end.

Definition projectSCIPSemanticGraph (h : CoreHandler) (graphIndexID : string) (p : Payload)
  : prog unit :=
  match pl_WorkspaceID p with
  | None => perr (EText "indexcore: workspaceId is required for SCIP graph projection")
  | Some _ =>
      prog! rows := loadSCIPProjectionRows h p in
      projectSCIPSemanticGraphRows h graphIndexID p rows
  end.

Definition set_graph_status (status : string) (indexedAt : option Z) (now : Z) (g : CodeGraphIndex)
  : CodeGraphIndex :=
  {| gx_orgId := gx_orgId g; gx_repoId := gx_repoId g; gx_workspaceId := gx_workspaceId g;
     gx_commitHash := gx_commitHash g; gx_schemaVersion := gx_schemaVersion g;
     gx_builderVersion := gx_builderVersion g; gx_status := status;
     gx_sourceRevision := gx_sourceRevision g; gx_graphSpace := gx_graphSpace g;
     gx_indexRunId := gx_indexRunId g; gx_vertexCount := gx_vertexCount g;
     gx_edgeCount := gx_edgeCount g; gx_anchorCount := gx_anchorCount g;
     gx_linkedEdgeCount := gx_linkedEdgeCount g; gx_errorMessage := None;
     gx_indexedAt := indexedAt; gx_supersededAt := gx_supersededAt g;
     gx_deleteAfter := gx_deleteAfter g; gx_updatedAt := now |}.

(** The newest PARTIAL snapshot of the scope, unless a subjob below still runs; the
    value is [RowsAffected() == 1]. *)
Definition promote_stmt (p : Payload) (ws : string) (now : Z) (w : CoreWorld)
  : result gerror (CoreWorld * bool) :=
  match head (sort_stable newer_graph (graphs_where (fun g => graph_in_scope p ws g
                && (gx_status g =s "PARTIAL")) w)) with
  | Some (id, g) =>
      if merge_unblocked p ws (cw_db w)
      then Ok (with_rest (with_graphs (<[id := set_graph_status "READY" (Some now) now g]>)) w, true)
      else Ok (w, false)
  | None => Ok (w, false)
  end.

Definition promote (p : Payload) (ws : string) : prog unit :=
  prog! promoted := pwrap "promote partial graph: "
    (pstmt (fun ce w => promote_stmt p ws (ce_now ce) w)) in
  if promoted then pret tt
  else
    prog! ready := graphSnapshotAlreadyReady p ws in
    if (ready : bool) then pret tt
    else perr (EText "indexcore: no completed PARTIAL graph snapshot available to merge").

Definition mergeGraph (h : CoreHandler) (p : Payload) : prog unit :=
  prog! ws := pderef (pl_WorkspaceID p) in
  pthen (resolvePartialGraphIndex p ws) (fun r =>
    match r with
    | Ok graphIndexID =>
        prog! _ := projectSCIPSemanticGraph h graphIndexID p in promote p ws
    | Err e =>
        if negb (err_is (err_text ErrNoRows) e) then perr e
        else
          prog! rows := loadSCIPProjectionRows h p in
          if no_rows rows then pret tt
          else
            prog! graphIndexID := createPartialGraphIndexForSCIPOnly p in
            prog! _ := projectSCIPSemanticGraphRows h graphIndexID p rows in
            promote p ws
    end).
