(* ===== verification/ScipProjectionFacts.v ===== *)
(** The snapshot of SCIP evidence is a graph, and one the graph writer accepts:
    every edge joins two vertices of the snapshot, no vertex and no edge is listed
    twice, and any part of it, rendered, passes the validation of [GraphStore]. *)
From Stdlib Require Import Ascii.
From S2P Require Import Prelude GoStd GoStdFacts GoJSON GoJSONFacts GoText Sha256 SubjobTypes SubjobTask GraphSchema.
From S2P Require Import GraphStore GraphStoreFacts GraphScope ScipProjection RepoIndexDB RepoJobs CoreDB IndexCore.
(** ** Text of symbols *)

Lemma string_of_list_app l1 l2 : String.string_of_list_ascii (l1 ++ l2)
  = String.string_of_list_ascii l1 +:+ String.string_of_list_ascii l2.
Proof. induction l1; simpl; [done|]. by rewrite IHl1. Qed.

Lemma drop_while_split f l : exists a, l = a ++ drop_while f l /\ Forall (fun c => f c = true) a.
Proof.
  induction l as [|c l IH]; simpl; [by exists []|]. destruct (f c) eqn:E; [|by exists []].
  destruct IH as (a & Ha & Hf). exists (c :: a). simpl. rewrite <- Ha. split; [done|by constructor].
Qed.

Lemma take_while_split f l : exists b, l = take_while f l ++ b /\
  match b with c :: _ => f c = false | [] => True end.
Proof.
  induction l as [|c l IH]; simpl; [by exists []|]. destruct (f c) eqn:E; [|by exists (c :: l)].
  destruct IH as (b & Hb & Hf). exists b. simpl. by rewrite <- Hb.
Qed.

Lemma suffix_ascii c : descriptor_suffix c = true -> (code c <? 128) = true.
Proof.
  unfold descriptor_suffix. rewrite bool_decide_eq_true. intros H.
  repeat (apply elem_of_cons in H as [->|H]; [done|]). by apply not_elem_of_nil in H.
Qed.

Lemma separator_ascii c : symbol_separator c = true -> (code c <? 128) = true.
Proof.
  unfold symbol_separator. rewrite bool_decide_eq_true. intros H.
  repeat (apply elem_of_cons in H as [->|H]; [done|]). by apply not_elem_of_nil in H.
Qed.

(** A cut in front of an ASCII byte, or behind one. *)
Lemma utf8_before s c t : utf8 (s +:+ String c t) -> (code c <? 128) = true -> utf8 s.
Proof. intros H Hc. apply utf8_cut in H as [H _]; [done|]. by apply ascii_starts. Qed.

Lemma utf8_after s c t : utf8 (s +:+ String c t) -> (code c <? 128) = true -> utf8 t.
Proof.
  intros H Hc. apply utf8_cut in H as [_ H]; [|by apply ascii_starts].
  inversion H as [|x w r Ht Hr]; subst. rewrite take_rune_ascii in Ht by done. by injection Ht as _ <-.
Qed.

Lemma display_name_utf8 symbol : utf8 symbol -> utf8 (scipDisplayNameFromSymbol symbol).
Proof.
  intros H%TrimSpace_utf8. unfold scipDisplayNameFromSymbol. revert H. generalize (TrimSpace symbol) as s.
  intros s Hs. set (l := rev (String.list_ascii_of_string s)).
  destruct (drop_while_split descriptor_suffix l) as (a & Ha & Hfa).
  set (m := drop_while descriptor_suffix l) in *.
  destruct (take_while_split (fun c => negb (symbol_separator c)) m) as (b & Hb & Hfb).
  set (n := take_while _ m) in *.
  assert (E : s = String.string_of_list_ascii (rev b) +:+ String.string_of_list_ascii (rev n)
                  +:+ String.string_of_list_ascii (rev a)).
  { rewrite <- (String.string_of_list_ascii_of_string s), <- !string_of_list_app. f_equal.
    rewrite <- (rev_involutive (String.list_ascii_of_string s)). fold l. rewrite Ha, Hb, !rev_app_distr. by rewrite app_assoc. }
  rewrite E, <- str_app_assoc in Hs.
  assert (Hbn : utf8 (String.string_of_list_ascii (rev b) +:+ String.string_of_list_ascii (rev n))).
  { apply Forall_rev in Hfa. destruct (rev a) as [|c a']; [by rewrite str_app_nil_r in Hs|].
    apply Forall_cons in Hfa as [Hc _]. by eapply utf8_before, suffix_ascii. }
  destruct b as [|c b]; [done|]. apply negb_false_iff, separator_ascii in Hfb. simpl in Hbn.
  rewrite string_of_list_app, str_app_assoc in Hbn. simpl in Hbn. by eapply utf8_after.
Qed.

Lemma CutByte_split c s w t : CutByte c s = Some (w, t) -> s = w +:+ String c t.
Proof.
  revert w. induction s as [|d s IH]; intros w; simpl; [done|]. destruct (bool_decide _) eqn:E.
  - apply bool_decide_eq_true in E. subst. by intros [= <- <-].
  - destruct (CutByte c s) as [[w' t']|]; [|done]. intros [= <- <-]. simpl. f_equal. by apply IH.
Qed.

Lemma backtick_ascii : (code backtick <? 128) = true.
Proof. done. Qed.

Lemma code_backtick c : (code c =? 96) = true -> c = backtick.
Proof. by destruct c as [[] [] [] [] [] [] [] []]. Qed.

Lemma quoted_match_utf8 pre s w : quoted_match s = Some w -> utf8 (pre +:+ s) -> utf8 w.
Proof.
  revert pre. induction s as [|c s IH]; intros pre; simpl; [done|].
  assert (Hpre : pre +:+ String c s = (pre +:+ String c "") +:+ s) by (by rewrite str_app_assoc).
  destruct (code c =? 96) eqn:Ec; [|rewrite Hpre; apply IH].
  destruct (CutByte backtick s) as [[x t]|] eqn:Ex; [|done].
  destruct (x =s ""); [rewrite Hpre; apply IH|]. intros [= <-] Hu.
  apply code_backtick in Ec. subst c. apply utf8_after in Hu; [|done].
  apply CutByte_split in Ex. subst s. by eapply utf8_before.
Qed.

Lemma SplitByte_last sep s w ws : SplitByte sep s = w :: ws ->
  match ws with [] => s = w | _ => exists p, s = p +:+ String sep (List.last ws "") end.
Proof.
  revert w ws. induction s as [|c s IH]; intros w ws; simpl; [by intros [= <- <-]|].
  pose proof (SplitByte_nonempty sep s) as Hne. destruct (SplitByte sep s) as [|x xs]; [done|]. specialize (IH x xs eq_refl). destruct (bool_decide (c = sep)) eqn:E.
  - apply bool_decide_eq_true in E. subst c. intros [= <- <-]. destruct xs as [|y ys].
    + subst. by exists "".
    + destruct IH as [p ->]. exists (String sep p). by destruct ys.
  - intros [= <- <-]. destruct xs as [|y ys]; [by subst|]. destruct IH as [p ->]. by exists (String c p).
Qed.

Lemma after_last_utf8 s : utf8 s -> utf8 (after_last_backtick s).
Proof.
  unfold after_last_backtick. intros Hs. pose proof (SplitByte_nonempty backtick s) as Hne.
  destruct (SplitByte backtick s) as [|w ws] eqn:E; [done|]. apply SplitByte_last in E.
  destruct ws as [|x xs]; [by subst|]. destruct E as [p E]. rewrite E in Hs.
  by eapply utf8_after.
Qed.

Lemma evidence_utf8 symbol : utf8 symbol -> utf8 (formatSCIPSymbolForEvidence symbol).
Proof.
  intros H. unfold formatSCIPSymbolForEvidence. apply TrimSpace_utf8 in H.
  destruct (_ =s ""); [constructor|].
  destruct (quoted_match (TrimSpace symbol)) as [w|] eqn:E; [|by apply display_name_utf8].
  apply (quoted_match_utf8 "") in E; [|done]. destruct (_ && _); [|done].
  apply utf8_app; [done|]. by apply TrimSpace_utf8, after_last_utf8.
Qed.

(** ** Properties *)

Definition put_prop (out : gmap string CodeGraphPrimitive) (kv : string * CodeGraphPrimitive)
  : gmap string CodeGraphPrimitive :=
  if dropped_value kv.2 then out else <[kv.1 := kv.2]> out.

Lemma scopedProps_fold p props : scopedProps p props = foldl put_prop (list_to_map (scope_props p)) props.
Proof. done. Qed.

Lemma put_props_other l m k : k ∉ map fst l -> foldl put_prop m l !! k = m !! k.
Proof.
  revert m. induction l as [|[k' v] l IH]; intros m Hk; simpl in *; [done|].
  apply not_elem_of_cons in Hk as [Hne Hk]. rewrite IH by done. unfold put_prop. simpl.
  destruct (dropped_value v); [done|]. by rewrite lookup_insert_ne.
Qed.

Lemma put_props_own l m k v : NoDup (map fst l) -> (k, v) ∈ l -> dropped_value v = false ->
  foldl put_prop m l !! k = Some v.
Proof.
  revert m. induction l as [|[k' v'] l IH]; intros m Hnd Hin Hd; simpl in *; [by apply not_elem_of_nil in Hin|].
  apply NoDup_cons in Hnd as [Hni Hnd]. apply elem_of_cons in Hin as [[= <- <-]|Hin]; [|by apply IH].
  rewrite put_props_other by done. unfold put_prop. simpl. by rewrite Hd, lookup_insert_eq.
Qed.

Lemma put_props_prim l m : map_Forall (fun _ v => prim_ok v) m -> Forall (fun kv => prim_ok kv.2) l ->
  map_Forall (fun _ v => prim_ok v) (foldl put_prop m l).
Proof.
  revert m. induction l as [|[k v] l IH]; intros m Hm Hl; simpl; [done|].
  apply Forall_cons in Hl as [Hv Hl]. apply IH; [|done]. unfold put_prop. simpl.
  destruct (dropped_value v); [done|]. by apply map_Forall_insert_2.
Qed.

(** ** Rows of a scope *)

(** A message for the payload. *)
Definition for_payload (p : Payload) (input : RenderedStatementWrite) : Prop :=
  rw_OrgID input = pl_OrgID p /\ rw_WorkspaceID input = payload_ws p /\ rw_RepoID input = pl_RepoID p /\
  rw_Revision input = pl_Revision p /\ rw_CommitHash input = pl_CommitHash p /\
  rw_SchemaVersion input = defaultSchemaVersion /\ rw_BuilderVersion input = defaultBuilder.

(** What [Unmarshal] and the database's text type guarantee of a payload. *)
Record payload_text (p : Payload) : Prop := {
  pt_commit : commitHashPattern (pl_CommitHash p) = true;
  pt_workspace : utf8 (payload_ws p);
  pt_revision : utf8 (pl_Revision p)
}.

Lemma hex_utf8 s : all_bytes is_hex s = true -> utf8 s.
Proof.
  intros H. apply ascii_utf8. eapply (all_bytes_impl is_hex (fun c => code c <? 128)); [|done].
  intros c. destruct c as [[] [] [] [] [] [] [] []]; done.
Qed.

Lemma commit_utf8 s : commitHashPattern s = true -> utf8 s.
Proof. intros [_ H]%andb_true_iff. by apply hex_utf8. Qed.

Lemma lower_hex_utf8 s : all_bytes lower_hex_byte s = true -> utf8 s.
Proof.
  intros H. apply ascii_utf8. eapply (all_bytes_impl lower_hex_byte (fun c => code c <? 128)); [|done].
  intros c. destruct c as [[] [] [] [] [] [] [] []]; done.
Qed.

Lemma Itoa_utf8 z : utf8 (Itoa z).
Proof.
  apply ascii_utf8, forallb_forall. intros c Hc. pose proof (Itoa_bytes z) as H.
  rewrite Forall_forall in H. apply list_elem_of_In, H in Hc.
  unfold itoa_bytes in Hc. repeat (apply elem_of_cons in Hc as [->|Hc]; [done|]). by apply not_elem_of_nil in Hc.
Qed.

Lemma sha256_hex_length s : String.length (sha256_hex s) = 64%nat.
Proof.
  unfold sha256_hex. pose proof (length_sha256_words (map code (String.list_ascii_of_string s))) as H.
  assert (Hj : forall ws, String.length (Join (map hex8 ws) "") = (8 * length ws)%nat).
  { induction ws as [|w [|w' ws] IH]; [done|done|]. cbn [map] in *. rewrite Join_cons2, !str_length_app, IH. simpl. lia. }
  by rewrite Hj, H.
Qed.

Lemma str_take_length n s : (n <= String.length s)%nat -> String.length (str_take n s) = n.
Proof. revert n. induction s as [|c s IH]; intros [|n] H; simpl in *; try lia. by rewrite IH by lia. Qed.

Lemma hashParts_agree parts n : (n <= 64)%nat ->
  GraphStore.hashParts parts (Z.of_nat n) = ScipProjection.hashParts parts n.
Proof.
  intros Hn. unfold GraphStore.hashParts, ScipProjection.hashParts. fold zero_byte.
  rewrite sha256_hex_length. rewrite (proj2 (Z.ltb_ge (Z.of_nat n) 0)) by lia.
  rewrite (proj2 (Z.ltb_ge (Z.of_nat 64) (Z.of_nat n))) by lia. by rewrite Nat2Z.id.
Qed.

Lemma hash_lower parts n : all_bytes lower_hex_byte (ScipProjection.hashParts parts n) = true.
Proof. apply all_bytes_str_take, sha256_hex_lower. Qed.

Lemma vid_scoped p input kind key : for_payload p input -> colon_free kind ->
  scoped_vid input kind (codeGraphVID p kind key).
Proof.
  intros (Eo & Ew & Er & Erev & Ec & Es & Eb) Hk. unfold scoped_vid, codeGraphVID. cbn zeta.
  set (k := ScipProjection.hashParts _ 32). exists k. split; [|split; [done|split]].
  - unfold vid_prefix. rewrite Eo, Ew, Er, Ec, Es, Eb.
    change 8 with (Z.of_nat 8). rewrite !hashParts_agree by lia.
    generalize (ScipProjection.hashParts [defaultBuilder] 8), (ScipProjection.hashParts [payload_ws p] 8), k.
    intros hb hw hk.
    unfold Join. cbn [String.concat]. rewrite !str_app_assoc. reflexivity.
  - apply str_take_length. rewrite sha256_hex_length. lia.
  - unfold isLowerHex. apply andb_true_iff. split; [|apply hash_lower].
    apply negb_true_iff, str_eqb_false. intros E. apply (f_equal String.length) in E.
    unfold k, ScipProjection.hashParts in E. rewrite str_take_length in E; [done|]. rewrite sha256_hex_length. lia.
Qed.

Lemma vid_utf8 p kind key : commitHashPattern (pl_CommitHash p) = true -> utf8 kind ->
  utf8 (codeGraphVID p kind key).
Proof.
  intros Hc Hk. unfold codeGraphVID. cbn zeta.
  assert (Hh : forall parts n, utf8 (ScipProjection.hashParts parts n)) by (intros; apply lower_hex_utf8, hash_lower).
  assert (Ht : utf8 (str_take 12 (pl_CommitHash p))).
  { apply hex_utf8, all_bytes_str_take. by apply andb_true_iff in Hc as [_ Hc]. }
  pose proof (Hh [defaultBuilder] 8%nat) as Hb. pose proof (Hh [payload_ws p] 8%nat) as Hw.
  match goal with |- context [ScipProjection.hashParts ?l 32] => pose proof (Hh l 32%nat) as Hkey; revert Hkey end.
  revert Hb Hw Ht. clear Hh Hc. generalize (ScipProjection.hashParts [defaultBuilder] 8),
    (ScipProjection.hashParts [payload_ws p] 8), (str_take 12 (pl_CommitHash p)).
  match goal with |- context [ScipProjection.hashParts ?l 32] => generalize (ScipProjection.hashParts l 32) end.
  intros hk hb hw hc Hb Hw Ht Hkey.
  repeat apply utf8_app; try apply Itoa_utf8; try done; by apply ascii_utf8.
Qed.

Section Scope.
Context (p : Payload) (input : RenderedStatementWrite).
Context (Hp : payload_text p) (Hin : for_payload p input).

Definition scope_keys : list string := map fst (scope_props p).

Lemma scope_prims_payload : scope_prims input = scope_props p.
Proof.
  destruct Hin as (Eo & Ew & Er & Erev & Ec & Es & Eb). unfold scope_prims, scope_props.
  by rewrite Eo, Ew, Er, Erev, Ec, Es, Eb.
Qed.

Lemma scoped_has_scope props : Forall (fun k => k ∉ scope_keys) (map fst props) ->
  has_scope input (scopedProps p props).
Proof.
  intros Hk. unfold has_scope. rewrite scope_prims_payload. apply Forall_forall. intros [k v] Hkv.
  unfold prop_of. rewrite scopedProps_fold, put_props_other.
  - erewrite elem_of_list_to_map_1; [done| |exact Hkv].
    apply (bool_decide_unpack _). vm_compute. exact I.
  - intros Hx. rewrite Forall_forall in Hk. apply (Hk k Hx). unfold scope_keys.
    apply list_elem_of_In, in_map_iff. exists (k, v). split; [done|by apply list_elem_of_In].
Qed.

Lemma scoped_prim props : Forall (fun kv => prim_ok kv.2) props ->
  forall k, prim_ok (prop_of (scopedProps p props) k).
Proof.
  intros Hl k. unfold prop_of. destruct (scopedProps p props !! k) as [v|] eqn:E; [|exact I].
  simpl. revert E. rewrite scopedProps_fold. apply put_props_prim; [|done]. clear k v props Hl.
  destruct Hp as [Hc Hw Hr]. apply valid_utf8_spec in Hw, Hr. apply commit_utf8, valid_utf8_spec in Hc.
  unfold scope_props. simpl. repeat apply map_Forall_insert_2; done.
Qed.

Lemma scoped_own props k v : NoDup (map fst props) -> (k, v) ∈ props -> dropped_value v = false ->
  prop_of (scopedProps p props) k = v.
Proof. intros Hn Hi Hd. unfold prop_of. by rewrite scopedProps_fold, (put_props_own _ _ k v Hn Hi Hd). Qed.

Lemma line_prim v : prim_ok (nullableOneBasedLine v).
Proof. by destruct v. Qed.

Lemma string_prim s : utf8 s -> prim_ok (PString s).
Proof. apply valid_utf8_spec. Qed.

Lemma ascii_prim s : valid_utf8 s = true -> prim_ok (PString s).
Proof. done. Qed.

Lemma conf_prim : prim_ok (PFloat conf95) /\ prim_ok (PFloat conf90).
Proof. done. Qed.

(** *** Vertices *)

(** A vertex literal of the projection. *)
Lemma made_vertex_ok kind key props :
  colon_free kind -> kind <> "" -> utf8 kind ->
  Forall (fun k => k ∉ scope_keys) (map fst props) -> NoDup (map fst props) ->
  Forall (fun kv => prim_ok kv.2) props -> ("kind", PString kind) ∈ props ->
  vertex_ok input {| vx_VID := codeGraphVID p kind key; vx_Kind := kind; vx_Properties := scopedProps p props |}.
Proof.
  intros Hf Hne Hu Hk Hnd Hl Hkind. split; simpl.
  - apply valid_utf8_spec, vid_utf8; [apply Hp|done].
  - by apply scoped_prim.
  - by apply scoped_has_scope.
  - exists kind. split; [|split; [done|by apply vid_scoped]].
    apply scoped_own; [done|done|]. simpl. by apply str_eqb_false.
Qed.

Ltac literal_keys := apply (bool_decide_unpack _); vm_compute; exact I.
Ltac literal_props :=
  repeat (apply Forall_cons; split;
    [first [by apply string_prim | apply line_prim | done | by apply ascii_prim]|]); constructor.

Lemma symbol_free : colon_free "symbol" /\ colon_free "file".
Proof. split; literal_keys. Qed.

Lemma symbol_utf8_kind : utf8 "symbol" /\ utf8 "file".
Proof. split; by apply ascii_utf8. Qed.

Definition symbol_text (s : scipSymbolProjection) : Prop :=
  utf8 (ss_Symbol s) /\ utf8 (ss_DisplayName s) /\ utf8 (ss_Kind s) /\ utf8 (ss_Language s) /\
  utf8 (ss_FilePath s).

Lemma symbol_vertex_ok s : symbol_text s -> vertex_ok input (symbol_vertex p s).
Proof.
  intros (H1 & H2 & H3 & H4 & H5). apply made_vertex_ok; try apply symbol_free; try apply symbol_utf8_kind; try done.
  - literal_keys.
  - literal_keys.
  - assert (utf8 (nonEmpty (ss_DisplayName s) (ss_Symbol s))) by (unfold nonEmpty; by destruct (_ =s _)).
    literal_props.
  - left.
Qed.

Lemma bare_symbol_ok s : utf8 s -> vertex_ok input (bare_symbol_vertex p s).
Proof.
  intros H. apply made_vertex_ok; try apply symbol_free; try apply symbol_utf8_kind; try done.
  - literal_keys.
  - literal_keys.
  - literal_props.
  - left.
Qed.

Lemma file_vertex_ok path : utf8 path -> vertex_ok input (file_vertex p path).
Proof.
  intros H. apply made_vertex_ok; try apply symbol_free; try apply symbol_utf8_kind; try done.
  - literal_keys.
  - literal_keys.
  - literal_props.
  - left.
Qed.

(** *** Edges *)

(** An id the projection made. *)
Definition made_vid (vid : string) : Prop := exists kind key, (kind = "symbol" \/ kind = "file") /\
  vid = codeGraphVID p kind key.

Lemma made_vid_ok vid : made_vid vid -> valid_utf8 vid = true /\ exists kind, kind <> "" /\ scoped_vid input kind vid.
Proof.
  intros (kind & key & Hk & ->). split.
  - apply valid_utf8_spec, vid_utf8; [apply Hp|]. by destruct Hk as [->| ->]; apply symbol_utf8_kind.
  - exists kind. split; [by destruct Hk as [->| ->]|]. apply vid_scoped; [done|].
    by destruct Hk as [->| ->]; apply symbol_free.
Qed.

Lemma scip_edge_ok from to kind context file l1 l2 conf key :
  made_vid from -> made_vid to -> kind <> "" -> utf8 kind -> utf8 context -> utf8 file -> utf8 key ->
  conf = conf95 \/ conf = conf90 ->
  edge_ok input (scip_edge p from to kind context file l1 l2 conf key).
Proof.
  intros [Hf1 Hf2]%made_vid_ok [Ht1 Ht2]%made_vid_ok Hne Hk Hc Hfile Hkey Hconf. unfold scip_edge.
  assert (Hl : Forall (fun kv : string * CodeGraphPrimitive => prim_ok kv.2)
    [("kind", PString kind); ("normalizedKey", PString key); ("evidenceFilePath", PString file);
     ("startLine", nullableOneBasedLine l1); ("endLine", nullableOneBasedLine l2); ("confidence", PFloat conf);
     ("confidenceTier", PString "EXTRACTED"); ("source", PString "scip"); ("provenance", PString "scip");
     ("context", PString context)]).
  { assert (prim_ok (PFloat conf)) by (destruct Hconf as [->| ->]; apply conf_prim). literal_props. }
  split; simpl; [done|done|by apply scoped_prim|apply scoped_has_scope; literal_keys|done|done|].
  exists kind, "scip". split; [|split; [|done]].
  - apply scoped_own; [literal_keys|left|]. simpl. by apply str_eqb_false.
  - apply scoped_own; [literal_keys|do 7 right; left|done].
Qed.
End Scope.

(** ** The builder *)

Definition edge_id (e : CodeGraphEdge) : string * string * string := (ed_FromVID e, ed_ToVID e, ed_Kind e).

Definition id_key (t : string * string * string) : string := edge_key t.1.1 t.1.2 t.2.

Section Build.
Context (p : Payload) (input : RenderedStatementWrite).
Context (Hp : payload_text p) (Hin : for_payload p input).

Record built (b : Builder) : Prop := {
  bt_vertices : forall vid v, b_vertices b !! vid = Some v ->
    vx_VID v = vid /\ made_vid p vid /\ vertex_ok input v;
  bt_edges : Forall (fun e => edge_ok input e /\ is_Some (b_vertices b !! ed_FromVID e) /\
                              is_Some (b_vertices b !! ed_ToVID e)) (b_edges b);
  bt_once : NoDup (map id_key (map edge_id (b_edges b)));
  bt_seen : forall k, k ∈ b_seenEdges b <-> k ∈ map id_key (map edge_id (b_edges b))
}.

Lemma built_empty : built b_empty.
Proof.
  split; simpl; [done|constructor|constructor|]. intros k. split; intros H; [by apply not_elem_of_empty in H|].
  by apply not_elem_of_nil in H.
Qed.

Lemma built_put v b : vertex_ok input v -> made_vid p (vx_VID v) -> built b -> built (put_vertex v b).
Proof.
  intros Hv Hm [B1 B2 B3 B4]. split; simpl; [|..|done|done].
  - intros vid x. destruct (decide (vid = vx_VID v)) as [->|Hne].
    + rewrite lookup_insert_eq. by intros [= <-].
    + rewrite lookup_insert_ne by done. apply B1.
  - eapply Forall_impl; [exact B2|]. intros e (He & H1 & H2).
    assert (Hi : forall k, is_Some (b_vertices b !! k) -> is_Some (<[vx_VID v := v]> (b_vertices b) !! k)).
    { intros k [x Hx]. destruct (decide (k = vx_VID v)) as [->|Hne]; [by rewrite lookup_insert_eq|].
      rewrite lookup_insert_ne by done. by exists x. }
    auto.
Qed.

Lemma built_ensure v b b' vid : vertex_ok input v -> made_vid p (vx_VID v) -> built b ->
  ensure v b = (b', vid) ->
  built b' /\ made_vid p vid /\ is_Some (b_vertices b' !! vid) /\
  (forall k, is_Some (b_vertices b !! k) -> is_Some (b_vertices b' !! k)).
Proof.
  intros Hv Hm Hb. unfold ensure. destruct (b_vertices b !! vx_VID v) as [x|] eqn:E; intros [= <- <-].
  - split; [done|]. split; [done|]. split; [by exists x|done].
  - split; [by apply built_put|]. split; [done|]. unfold put_vertex. simpl. rewrite lookup_insert_eq.
    split; [done|]. intros k [x Hx]. destruct (decide (k = vx_VID v)) as [->|Hne]; [by rewrite lookup_insert_eq|].
    rewrite lookup_insert_ne by done. by exists x.
Qed.

Lemma built_symbol s b b' vid : utf8 s -> built b -> ensureSymbolVertex p s b = (b', vid) ->
  built b' /\ made_vid p vid /\ is_Some (b_vertices b' !! vid) /\
  (forall k, is_Some (b_vertices b !! k) -> is_Some (b_vertices b' !! k)).
Proof. intros Hs. apply built_ensure; [by apply bare_symbol_ok|]. exists "symbol", s. auto. Qed.

Lemma built_file s b b' vid : utf8 s -> built b -> ensureFileVertex p s b = (b', vid) ->
  built b' /\ made_vid p vid /\ is_Some (b_vertices b' !! vid) /\
  (forall k, is_Some (b_vertices b !! k) -> is_Some (b_vertices b' !! k)).
Proof. intros Hs. apply built_ensure; [by apply file_vertex_ok|]. exists "file", s. auto. Qed.

Lemma built_edge from to kind context file l1 l2 key b :
  made_vid p from -> made_vid p to -> is_Some (b_vertices b !! from) -> is_Some (b_vertices b !! to) ->
  utf8 kind -> utf8 context -> utf8 file -> utf8 key -> built b ->
  built (addEdge p from to kind context file l1 l2 conf95 key b) /\
  b_vertices (addEdge p from to kind context file l1 l2 conf95 key b) = b_vertices b.
Proof.
  intros Hf Ht Hf' Ht' Hk Hc Hfile Hkey Hb. unfold addEdge.
  destruct ((from =s "") || (to =s "") || (kind =s "")) eqn:E; [done|]. cbn zeta.
  apply orb_false_iff in E as [_ Hne%str_eqb_false].
  destruct (bool_decide _) eqn:Es; [done|]. apply bool_decide_eq_false in Es. split; [|done].
  destruct Hb as [B1 B2 B3 B4]. split; simpl; [done|..].
  - apply Forall_app. split; [done|]. constructor; [|constructor]. simpl. split; [|done].
    apply scip_edge_ok; auto.
  - rewrite !map_app. simpl. apply NoDup_app. split; [done|]. split.
    + intros k Hk' Hx. apply list_elem_of_singleton in Hx. subst k. by apply Es, B4.
    + apply NoDup_singleton.
  - intros k. rewrite elem_of_union, B4, !map_app, elem_of_app, elem_of_singleton. simpl.
    rewrite list_elem_of_singleton. unfold id_key. simpl. tauto.
Qed.

(** Texts of the rows. *)
Definition relation_text (r : scipRelationshipProjection) : Prop :=
  utf8 (sr_SourceSymbol r) /\ utf8 (sr_TargetSymbol r) /\ utf8 (sr_SourceFile r).

Definition occurrence_text (o : scipOccurrenceProjection) : Prop :=
  utf8 (so_Symbol o) /\ utf8 (so_FilePath o) /\ utf8 (so_EnclosingSymbol o).

Lemma relation_kinds_text rel : Forall (fun k => utf8 (rk_kind k) /\ utf8 (rk_context k)) (scipRelationKinds rel).
Proof.
  unfold scipRelationKinds. repeat (apply Forall_app; split); destruct (_ : bool);
    repeat constructor; by apply ascii_utf8.
Qed.

Lemma built_relationship rel b : relation_text rel -> built b -> built (add_relationship p b rel).
Proof.
  intros (H1 & H2 & H3) Hb. unfold add_relationship.
  destruct (ensureSymbolVertex p (sr_SourceSymbol rel) b) as [b1 from] eqn:E1.
  destruct (built_symbol _ _ _ _ H1 Hb E1) as (Hb1 & Hf & Hf' & _).
  destruct (ensureSymbolVertex p (sr_TargetSymbol rel) b1) as [b2 to] eqn:E2.
  destruct (built_symbol _ _ _ _ H2 Hb1 E2) as (Hb2 & Ht & Ht' & Hmono). apply Hmono in Hf'.
  assert (Hkey : utf8 (sr_SourceSymbol rel +:+ "->" +:+ sr_TargetSymbol rel)).
  { apply utf8_app; [done|]. apply utf8_app; [by apply ascii_utf8|done]. }
  revert Hkey. generalize (sr_SourceSymbol rel +:+ "->" +:+ sr_TargetSymbol rel). intros key Hkey.
  clear E1 E2 Hb1 Hmono. pose proof (relation_kinds_text rel) as Hk. revert b2 Hb2 Hf' Ht'.
  induction Hk as [|k ks [Hk1 Hk2] _ IH]; intros b2 Hb2 Hf' Ht'; simpl; [done|].
  destruct (built_edge from to (rk_kind k) (rk_context k) (sr_SourceFile rel) (sr_StartLine rel)
    (sr_EndLine rel) key b2) as [Hb3 Ev]; try done.
  apply IH; [done|by rewrite Ev..].
Qed.

Lemma built_import occ target b : occurrence_text occ -> made_vid p target ->
  is_Some (b_vertices b !! target) -> built b -> built (add_import p occ target b).
Proof.
  intros (H1 & H2 & H3) Ht Ht' Hb. unfold add_import. cbn zeta. apply TrimSpace_utf8 in H2.
  destruct (_ =s ""); [done|]. destruct (ensureFileVertex p _ b) as [b1 file] eqn:E.
  destruct (built_file _ _ _ _ H2 Hb E) as (Hb1 & Hf & Hf' & Hmono).
  apply built_edge; auto; try (by apply ascii_utf8).
  apply utf8_app; [done|]. apply utf8_app; [by apply ascii_utf8|by apply evidence_utf8].
Qed.

Lemma reference_kind_text occ : utf8 (scipOccurrenceReferenceKind occ).1 /\ utf8 (scipOccurrenceReferenceKind occ).2.
Proof. unfold scipOccurrenceReferenceKind. cbn zeta. destruct (_ || _); split; by apply ascii_utf8. Qed.

Lemma built_reference occ target b : occurrence_text occ -> made_vid p target ->
  is_Some (b_vertices b !! target) -> built b -> built (add_reference p occ target b).
Proof.
  intros (H1 & H2 & H3) Ht Ht' Hb. unfold add_reference. cbn zeta. apply TrimSpace_utf8 in H3.
  destruct (_ || _); [done|]. pose proof (reference_kind_text occ) as [Hk Hc].
  destruct (scipOccurrenceReferenceKind occ) as [kind context]. simpl in Hk, Hc.
  destruct (ensureSymbolVertex p _ b) as [b1 src] eqn:E.
  destruct (built_symbol _ _ _ _ H3 Hb E) as (Hb1 & Hf & Hf' & Hmono).
  apply built_edge; auto. apply utf8_app; [by apply evidence_utf8|].
  apply utf8_app; [by apply ascii_utf8|]. apply utf8_app; [done|].
  apply utf8_app; [by apply ascii_utf8|by apply evidence_utf8].
Qed.

Lemma built_occurrence occ b : occurrence_text occ -> built b -> built (add_occurrence p b occ).
Proof.
  intros Ho Hb. unfold add_occurrence.
  destruct (ensureSymbolVertex p (so_Symbol occ) b) as [b1 target] eqn:E.
  destruct (built_symbol _ _ _ _ (proj1 Ho) Hb E) as (Hb1 & Ht & Ht' & _). cbn zeta.
  destruct (_ =s _); [by apply built_import|]. destruct (_ || _); [|done].
  destruct (looksLikeImportOccurrence occ); [by apply built_import|by apply built_reference].
Qed.

Lemma built_fold {X} (f : Builder -> X -> Builder) (ok : X -> Prop) l b :
  (forall b x, ok x -> built b -> built (f b x)) -> Forall ok l -> built b -> built (foldl f b l).
Proof. intros Hf Hl. revert b. induction Hl; intros b Hb; simpl; auto. Qed.

Lemma built_build symbols relationships occurrences :
  Forall symbol_text symbols -> Forall relation_text relationships -> Forall occurrence_text occurrences ->
  built (build p symbols relationships occurrences).
Proof.
  intros Hs Hr Ho. unfold build.
  apply (built_fold _ occurrence_text); [intros; by apply built_occurrence|done|].
  apply (built_fold _ relation_text); [intros; by apply built_relationship|done|].
  apply (built_fold _ symbol_text); [|done|apply built_empty].
  intros b x Hx Hb. apply built_put; [by apply symbol_vertex_ok| |done]. exists "symbol", (ss_Symbol x). auto.
Qed.
End Build.

(** C19: the SCIP evidence of a revision becomes a graph, and one that the graph
    writer takes.  For every message the worker accepts with a visible workspace
    and revision, and rows of UTF-8 text, as the database keeps it: no two vertices
    of the snapshot share an id, every edge joins two vertices of the snapshot, and
    no two edges agree in source, target and kind.  And whatever part of it a batch
    takes, the statements rendered for it pass the writer's validation with the
    right counts: the validation can refuse no merge. *)
Theorem scip_snapshot_accepted order p symbols relationships occurrences vs es batchSize :
  0 < pl_OrgID p -> 0 < pl_RepoID p -> payload_text p ->
  TrimSpace (payload_ws p) <> "" -> TrimSpace (pl_Revision p) <> "" ->
  (forall l, order l ≡ₚ l) ->
  Forall symbol_text symbols -> Forall relation_text relationships -> Forall occurrence_text occurrences ->
  let s := buildSCIPSnapshot order p symbols relationships occurrences in
  NoDup (map vx_VID (sn_Vertices s)) /\ NoDup (map edge_id (sn_Edges s)) /\
  Forall (fun e => ed_FromVID e ∈ map vx_VID (sn_Vertices s) /\ ed_ToVID e ∈ map vx_VID (sn_Vertices s))
    (sn_Edges s) /\
  (vs ⊆ sn_Vertices s -> es ⊆ sn_Edges s ->
   ValidateRenderedStatementWrite (scip_write p (with_rows s vs es) batchSize)
   = Ok (Z.of_nat (length vs), Z.of_nat (length es))).
Proof.
  intros Ho Hr Hp Hw Hrev Hord Hs Hrel Hocc s.
  set (input := scip_write p (with_rows s vs es) batchSize).
  assert (Hin : for_payload p input) by (by repeat split).
  pose proof (built_build p input Hp Hin _ _ _ Hs Hrel Hocc) as [B1 B2 B3 B4].
  set (b := build p symbols relationships occurrences) in *.
  assert (Hperm : sn_Vertices s ≡ₚ map snd (map_to_list (b_vertices b))) by apply Hord.
  assert (Hvid : map vx_VID (map snd (map_to_list (b_vertices b))) = map fst (map_to_list (b_vertices b))).
  { rewrite map_map. apply map_ext_in. intros [k v] Hkv%list_elem_of_In%elem_of_map_to_list. by apply B1. }
  assert (Hvids : map vx_VID (sn_Vertices s) ≡ₚ map fst (map_to_list (b_vertices b))).
  { rewrite <- Hvid. by apply Permutation_map. }
  assert (Hmem : forall k, is_Some (b_vertices b !! k) -> k ∈ map vx_VID (sn_Vertices s)).
  { intros k [v Hk]. rewrite Hvids. apply list_elem_of_In, in_map_iff. exists (k, v). split; [done|].
    by apply list_elem_of_In, elem_of_map_to_list. }
  split; [rewrite Hvids; apply NoDup_fst_map_to_list|]. split; [by eapply NoDup_fmap_1|].
  split; [eapply Forall_impl; [exact B2|]; intros e (_ & ? & ?); auto|].
  intros Hvs Hes. destruct (rendered_roundtrip input (with_rows s vs es) batchSize) as [Hv _]; [done| | |  |done].
  - unfold validateRenderedScope. simpl. rewrite (proj2 (Z.leb_gt (pl_OrgID p) 0)), (proj2 (Z.leb_gt (pl_RepoID p) 0)) by done.
    apply str_eqb_false in Hw, Hrev. rewrite Hw, Hrev, (pt_commit _ Hp). done.
  - apply Forall_forall. intros v Hv. apply Hvs in Hv. rewrite Hperm in Hv.
    apply list_elem_of_In, in_map_iff in Hv as ([k x] & <- & Hx%list_elem_of_In%elem_of_map_to_list). by apply B1 in Hx as (_ & _ & ?).
  - apply Forall_forall. intros e He. apply Hes in He. rewrite Forall_forall in B2. by apply B2.
Qed.
