(* ===== verification/CoreActivate.v ===== *)
(** The activation of an indexed revision, the completion of its job, and the
    handler of the core subjobs, the rest of
    src/internal/backend/indexcore/handler.go. *)
From Stdlib Require Import Ascii.
From S2P Require Import Prelude GoStd GoStdFacts GoJSON GoText SubjobTypes SubjobStore SubjobTask SubjobCodec.
From S2P Require Import SubjobSystem SubjobInvariants SubjobFacts ManifestDelta Executor Scheduler GraphSchema.
From S2P Require Import GraphStore ScipProjection RepoIndexDB RepoJobs CoreDB IndexCore.
(** ** Statements of the activation *)

(** [SELECT 1 ... FOR UPDATE]; the lock is held to the end of the transaction. *)
Definition lock_repo (p : Payload) (w : CoreWorld) : result gerror (CoreWorld * unit) :=
  match db_repos (cw_db w) !! pl_RepoID p with
  | Some r => if repo_orgId r =? pl_OrgID p then Ok (w, tt) else Err ErrNoRows
  | None => Err ErrNoRows
  end.

Definition pending_of (p : Payload) (ws : string) (m : Manifest) : bool :=
  bool_decide (mf_indexJobId m = Some (pl_RepoIndexingJobID p)) && (mf_orgId m =? pl_OrgID p)
  && (mf_repoId m =? pl_RepoID p) && (mf_workspaceId m =s ws) && (mf_branch m =s pl_Branch p)
  && (mf_commitHash m =s pl_CommitHash p) && bool_decide (mf_status m = ManifestPending).

(** ORDER BY "createdAt" DESC, id DESC *)
Definition newer_pending (a b : Manifest) : bool :=
  lex_lt [Z.compare (mf_createdAt b) (mf_createdAt a); String.compare (mf_id b) (mf_id a)].

Definition pending_manifest (p : Payload) (ws : string) (w : CoreWorld)
  : result gerror (CoreWorld * Manifest) :=
  match head (sort_stable newer_pending (List.filter (pending_of p ws) (db_manifests (cw_db w)))) with
  | Some m => Ok (w, m)
  | None => Err ErrNoRows
  end.

Definition ready_graph (p : Payload) (ws : string) (w : CoreWorld)
  : result gerror (CoreWorld * string) :=
  match head (sort_stable newer_graph (graphs_where (fun g => graph_in_scope p ws g
                && (gx_status g =s "READY")) w)) with
  | Some kv => Ok (w, kv.1)
  | None => Err ErrNoRows
  end.

(** Every layer of the revision but ACTIVATE itself. *)
Definition activate_layers (layer : string) : bool := negb (layer =s LayerActivate).

Definition blocked_count (p : Payload) (ws : string) (w : CoreWorld) : result gerror (CoreWorld * Z) :=
  Ok (w, Z.of_nat (length (blocking_subjobs p ws activate_layers (cw_db w)))).

(** The manifests of the branch: same repository, workspace, provider connection and
    branch. *)
Definition branch_manifest (p : Payload) (ws : string) (provider : option string) (m : Manifest) : bool :=
  (mf_orgId m =? pl_OrgID p) && (mf_repoId m =? pl_RepoID p) && (mf_workspaceId m =s ws)
  && bool_decide (mf_providerConnectionId m = provider) && (mf_branch m =s pl_Branch p).

(** The columns of a manifest the activation sets. *)
Definition set_manifest (status : ManifestStatus) (activatedAt supersededAt failedAt : option Z)
    (errorMessage : option string) (now : Z) (m : Manifest) : Manifest :=
  {| mf_id := mf_id m; mf_indexJobId := mf_indexJobId m; mf_orgId := mf_orgId m;
     mf_repoId := mf_repoId m; mf_workspaceId := mf_workspaceId m;
     mf_providerConnectionId := mf_providerConnectionId m; mf_branch := mf_branch m;
     mf_commitHash := mf_commitHash m; mf_status := status; mf_fileCount := mf_fileCount m;
     mf_addedFileCount := mf_addedFileCount m; mf_changedFileCount := mf_changedFileCount m;
     mf_deletedFileCount := mf_deletedFileCount m; mf_unchangedFileCount := mf_unchangedFileCount m;
     mf_zoektStrategy := mf_zoektStrategy m; mf_scipStrategy := mf_scipStrategy m;
     mf_graphStrategy := mf_graphStrategy m; mf_semanticStrategy := mf_semanticStrategy m;
     mf_activatedAt := activatedAt; mf_supersededAt := supersededAt; mf_failedAt := failedAt;
     mf_errorMessage := errorMessage; mf_createdAt := mf_createdAt m; mf_updatedAt := now |}.

Definition supersede (now : Z) (errorMessage : option string) (m : Manifest) : Manifest :=
  set_manifest ManifestSuperseded (mf_activatedAt m) (Some now) (mf_failedAt m) errorMessage now m.

Definition update_manifests (guard : Manifest -> bool) (f : Manifest -> Manifest) (w : CoreWorld)
  : result gerror (CoreWorld * unit) :=
  Ok (with_db (set_manifests (map (fun m => if guard m then f m else m))) w, tt).

Definition supersede_ready (p : Payload) (ws manifestID : string) (provider : option string) (now : Z)
    (w : CoreWorld) : result gerror (CoreWorld * unit) :=
  update_manifests (fun m => negb (mf_id m =s manifestID) && branch_manifest p ws provider m
                             && bool_decide (mf_status m = ManifestReady))
    (fun m => supersede now (mf_errorMessage m) m) w.

Definition stale_message : string :=
  "Superseded by a newer activated index manifest for the same branch.".

(** The "createdAt" of the row of [current_manifest]. *)
Definition current_createdAt (p : Payload) (ws manifestID : string) (provider : option string)
    (w : CoreWorld) : option Z :=
  mf_createdAt <$> List.find (fun m => (mf_id m =s manifestID) && branch_manifest p ws provider m)
                     (db_manifests (cw_db w)).

Definition supersede_stale (p : Payload) (ws manifestID : string) (provider : option string) (now : Z)
    (w : CoreWorld) : result gerror (CoreWorld * unit) :=
  match current_createdAt p ws manifestID provider w with
  | None => Ok (w, tt)
  | Some created =>
      update_manifests (fun m => negb (mf_id m =s manifestID) && branch_manifest p ws provider m
                                 && bool_decide (mf_status m = ManifestPending)
                                 && (mf_createdAt m <=? created))
        (fun m => supersede now (Some (coalesce stale_message (mf_errorMessage m))) m) w
  end.

Definition activate_manifest (manifestID : string) (now : Z) (w : CoreWorld)
  : result gerror (CoreWorld * unit) :=
  update_manifests (fun m => (mf_id m =s manifestID) && bool_decide (mf_status m = ManifestPending))
    (fun m => set_manifest ManifestReady (Some now) (mf_supersededAt m) None None now m) w.

(** The conflict target of "CodeGraphRevision". *)
Definition revision_key (r : CodeGraphRevision) : Z * string * string * Z * string :=
  (gr_repoId r, gr_workspaceId r, gr_revision r, gr_schemaVersion r, gr_builderVersion r).

Definition revision_fk_ok (r : CodeGraphRevision) (w : CoreWorld) : bool :=
  graph_fk_ok (gr_codeGraphIndexId r) (gr_orgId r) (gr_repoId r) (gr_commitHash r)
    (gr_schemaVersion r) (gr_builderVersion r) (gr_workspaceId r) w.

Definition revision_merge (old new : CodeGraphRevision) : CodeGraphRevision :=
  {| gr_revision := gr_revision old; gr_workspaceId := gr_workspaceId old;
     gr_commitHash := gr_commitHash new; gr_orgId := gr_orgId old; gr_repoId := gr_repoId old;
     gr_schemaVersion := gr_schemaVersion old; gr_builderVersion := gr_builderVersion old;
     gr_activatedAt := gr_activatedAt new; gr_updatedAt := gr_updatedAt new;
     gr_codeGraphIndexId := gr_codeGraphIndexId new |}.

Definition upsert_revision (id : string) (row : CodeGraphRevision) (w : CoreWorld)
  : result gerror (CoreWorld * unit) :=
  let revisions := cr_revisions (cw_rest w) in
  let put k r :=
    if negb (revision_fk_ok r w) then Err (EText "insert violates foreign key constraint")
    else Ok (with_rest (with_revisions (<[k := r]>)) w, tt) in
  match head (List.filter (fun kv => bool_decide (revision_key kv.2 = revision_key row))
                (map_to_list revisions)) with
  | Some (old_id, old) => put old_id (revision_merge old row)
  | None => if bool_decide (revisions !! id <> None)
            then Err (EText "duplicate key value violates unique constraint") else put id row
  end.

Definition activated_revision (p : Payload) (ws graphIndexID : string) (now : Z) : CodeGraphRevision :=
  {| gr_revision := pl_Revision p; gr_workspaceId := ws; gr_commitHash := pl_CommitHash p;
     gr_orgId := pl_OrgID p; gr_repoId := pl_RepoID p; gr_schemaVersion := defaultSchemaVersion;
     gr_builderVersion := defaultBuilder; gr_activatedAt := now; gr_updatedAt := now;
     gr_codeGraphIndexId := graphIndexID |}.

Definition ready_branches (p : Payload) (ws : string) (db : DB) : list string :=
  map mf_branch (List.filter (fun m => (mf_orgId m =? pl_OrgID p) && (mf_repoId m =? pl_RepoID p)
                                       && (mf_workspaceId m =s ws)
                                       && bool_decide (mf_status m = ManifestReady)) (db_manifests db)).

Definition record_indexed (h : CoreHandler) (p : Payload) (ws : string) (now : Z) (w : CoreWorld)
  : result gerror (CoreWorld * unit) :=
  match db_repos (cw_db w) !! pl_RepoID p with
  | Some r =>
      if repo_orgId r =? pl_OrgID p then
        let md := default (JObj []) (repo_metadata r) in
        let? old := jsonb_array_elements_text (ch_jsonb_text h)
                      (default (JArr []) (jsonb_get md "indexedRevisions")) in
        let merged := SortStrings (dedup_first [] (List.filter (fun b => negb (b =s ""))
                        (old ++ ready_branches p ws (cw_db w)))) in
        let? md' := jsonb_set md "indexedRevisions" (jsonb_agg merged) in
        Ok (with_db (set_repos (<[pl_RepoID p := set_indexed (Some md') (Some now)
              (Some (pl_CommitHash p)) (repo_latestIndexingJobStatus r) now r]>)) w, tt)
      else Ok (w, tt)
  | None => Ok (w, tt)
  end.

(** ** [activate] *)

Definition activate_body (h : CoreHandler) (p : Payload) (ws : string) (ce : CallEnv) : TX unit :=
  let now := ce_now ce in
  tx! _ := tx_stmt ce "begin activation: " (fun w => Ok (w, tt)) in
  tx! _ := tx_stmt ce "lock repo indexed metadata: " (lock_repo p) in
  tx! manifest := tx_stmt ce "resolve pending manifest: " (pending_manifest p ws) in
  tx! graphIndexID := tx_stmt ce "resolve ready graph snapshot: " (ready_graph p ws) in
  tx! blocked := tx_stmt ce "check activation dependencies: " (blocked_count p ws) in
  if negb (blocked =? 0)
  then tx_err (EText ("indexcore: activation blocked by " +:+ Itoa blocked +:+ " unfinished subjobs"))
  else
    let manifestID := mf_id manifest in
    let provider := mf_providerConnectionId manifest in
    tx! _ := tx_stmt ce "supersede previous manifests: "
               (supersede_ready p ws manifestID provider now) in
    tx! _ := tx_stmt ce "supersede stale pending manifests: "
               (supersede_stale p ws manifestID provider now) in
    tx! _ := tx_stmt ce "activate manifest: " (activate_manifest manifestID now) in
    tx! _ := tx_stmt ce "activate graph revision: "
               (upsert_revision (ce_id ce 0) (activated_revision p ws graphIndexID now)) in
    tx! _ := tx_stmt ce "update repo indexed metadata: " (record_indexed h p ws now) in
    tx_stmt ce "commit activation: " (fun w => Ok (w, tt)).

Definition activate (h : CoreHandler) (p : Payload) : prog unit :=
  prog! ws := pderef (pl_WorkspaceID p) in
  ptx (activate_body h p ws).

Definition execute (h : CoreHandler) (p : Payload) : prog unit :=
  if pl_Layer p =s LayerGraphMerge then mergeGraph h p
  else if pl_Layer p =s LayerActivate then activate h p
  else perr (EText ("unsupported layer " +:+ pl_Layer p)).

(** ** Completion of the job *)

Definition job_done (db : DB) (jobID : string) : bool :=
  negb (existsb (fun s => (sc_repoIndexingJobId (sj_scope s.2) =s jobID) && unfinished s.2
                          && negb (scip_gave_up s.2)) (map_to_list (db_subjobs db))).

Definition complete_stmt (p : Payload) (now : Z) (db : DB) : DB :=
  match db_jobs db !! pl_RepoIndexingJobID p with
  | Some j =>
      if (job_repoId j =? pl_RepoID p) && bool_decide (job_type j = INDEX)
         && bool_decide (job_status j = IN_PROGRESS) && job_done db (pl_RepoIndexingJobID p)
      then set_jobs (<[pl_RepoIndexingJobID p := complete_job now j]>) db else db
  | None => db
  end.

Definition refresh_stmt (p : Payload) (db : DB) : DB :=
  match newest_job (pl_RepoID p) (db_jobs db) with
  | Some (_, j) =>
      set_repos (alter (fun r => if repo_orgId r =? pl_OrgID p
                                 then set_latest_status (Some (job_status j)) r else r)
                   (pl_RepoID p)) db
  | None => db
  end.

Definition completeJobIfReady (p : Payload) : prog unit :=
  prog! _ := pwrap "complete index job: "
    (pstmt (fun ce w => Ok (with_db (complete_stmt p (ce_now ce)) w, tt))) in
  pwrap "refresh repo latest indexing job status: "
    (pstmt (fun _ w => Ok (with_db (refresh_stmt p) w, tt))).

(** ** The work goroutine *)

(** What is left of the program, and the tables outside [DB]. *)
Record core_work : Type := { ck_prog : prog unit; ck_rest : CoreRest }.

(** One call of the program. *)
Definition core_step (ce : CallEnv) (k : core_work) (db : DB) : DB * core_work * list hcall :=
  match ck_prog k with
  | PCall B f c =>
      let '(w', r) := do_call ce f {| cw_db := db; cw_rest := ck_rest k |} in
      (cw_db w', {| ck_prog := c r; ck_rest := cw_rest w' |},
       match c r with PRet (Ok _) => [HExecuted None] | PRet (Err e) => [HExecuted (Some e)] | _ => [] end)
  | _ => (db, k, [])
  end.

(** A panic ends the process: it never reports. *)
Definition core_done (k : core_work) : option (option gerror) :=
  match ck_prog k with
  | PRet (Ok _) => Some None
  | PRet (Err e) => Some (Some e)
  | _ => None
  end.

(** [withHeartbeat] of this package: the code of the executor's, around this work. *)
Definition core_withHeartbeat (h : Handler) (subjobID attemptID : string) (sc : wh_script CallEnv)
    (k : core_work) (db : DB) (log : list hcall) : option (DB * core_work * list hcall * option gerror) :=
  withHeartbeat core_step core_done h subjobID attemptID sc k db log.

(** ** [Handle] *)

(** What a run meets: as for the executor, and the calls of [completeJobIfReady]. *)
Record core_script : Type := {
  cs_nonce : string;
  cs_claim_clock : Z;
  cs_claim_fault : option gerror;
  cs_claim_dbnow : Z;
  cs_run : wh_script CallEnv;
  cs_mark : mark_env;
  cs_complete : nat -> CallEnv;
  cs_env1 : list op;
  cs_env2 : list op;
  cs_env3 : list op;
  cs_env4 : list op
}.

Definition core_markFailed (h : Handler) (subjobID attemptID message : string) (e : mark_env)
    (db : DB) (log : list hcall) : DB * list hcall * option gerror :=
  let '(db', r) := SubjobStore.MarkFailed (me_fault1 e) (me_fault2 e) (me_now1 e) (me_now2 e)
                     subjobID (h_leaseOwner h) attemptID "CORE_SUBJOB_FAILED" message db in
  (db', log ++ [HFailed "CORE_SUBJOB_FAILED" (is_true r)],
   match r with
   | Err err => Some (EWrap ("mark core subjob " +:+ subjobID +:+ " failed: ") err "")
   | Ok false => Some (EText ("mark core subjob " +:+ subjobID +:+ " failed: lease lost"))
   | Ok true => None
   end).

(** The part after a won claim. *)
Definition core_claimed (h : CoreHandler) (p : Payload) (attemptID : string) (sc : core_script)
    (w : CoreWorld) (log : list hcall) : option (CoreWorld * list hcall * option gerror) :=
  let id := pl_SubjobID p in
  let lease := ch_lease h in
  match core_withHeartbeat lease id attemptID (cs_run sc)
          {| ck_prog := execute h p; ck_rest := cw_rest w |}
          (run_ops (cs_env2 sc) (cw_db w)) log with
  | None => None
  | Some (db1, k, log1, Some err) =>
      let '(db2, log2, e) := core_markFailed lease id attemptID (err_text err) (cs_mark sc)
                               (run_ops (cs_env3 sc) db1) log1 in
      Some ({| cw_db := db2; cw_rest := ck_rest k |}, log2, e)
  | Some (db1, k, log1, None) =>
      let '(db2, r) := MarkSucceeded (me_fault1 (cs_mark sc)) (me_now1 (cs_mark sc)) id
                         (h_leaseOwner lease) attemptID (run_ops (cs_env3 sc) db1) in
      let log2 := log1 ++ [HSucceeded (is_true r)] in
      let w2 := {| cw_db := db2; cw_rest := ck_rest k |} in
      match r with
      | Err e => Some (w2, log2, Some (EWrap ("mark core subjob " +:+ id +:+ " succeeded: ") e ""))
      | Ok false => Some (w2, log2, Some (EText ("mark core subjob " +:+ id +:+ " succeeded: lease lost")))
      | Ok true =>
          if pl_Layer p =s LayerActivate then
            match run (cs_complete sc) 0 (completeJobIfReady p)
                    {| cw_db := run_ops (cs_env4 sc) db2; cw_rest := ck_rest k |} with
            | (_, w3, Done (Err e)) => Some (w3, log2, Some e)
            | (_, w3, Done (Ok _)) => Some (w3, log2, None)
            | (_, w3, Panicked) => None
            end
          else Some (w2, log2, None)
      end
  end.

Definition Handle (h : CoreHandler) (task_type task_payload : string) (sc : core_script) (w : CoreWorld)
  : option (CoreWorld * list hcall * option gerror) :=
  match Unmarshal task_payload with
  | Err _ => Some (w, [], None)
  | Ok p =>
      if negb (task_type =s pl_QueueName p) then Some (w, [], None)
      else if negb (pl_Layer p =s LayerGraphMerge) && negb (pl_Layer p =s LayerActivate)
      then Some (w, [], Some (EText ("indexcore: unsupported core layer " +:+ pl_Layer p)))
      else
        let attemptID := generatedAttemptID (pl_SubjobID p) (pl_Attempt p) (cs_nonce sc) in
        let '(db1, r) := ClaimScoped (cs_claim_fault sc) (cs_claim_dbnow sc) (toClaimScope p)
                           (h_leaseOwner (ch_lease h)) attemptID
                           (cs_claim_clock sc + h_leaseDuration (ch_lease h))
                           (run_ops (cs_env1 sc) (cw_db w)) in
        let w1 := {| cw_db := db1; cw_rest := cw_rest w |} in
        match r with
        | Err e => Some (w1, [HClaim false],
                         Some (EWrap ("claim core subjob " +:+ pl_SubjobID p +:+ ": ") e ""))
        | Ok false => Some (w1, [HClaim false], None)
        | Ok true => core_claimed h p attemptID sc w1 [HClaim true]
        end
  end.
