(* ===== verification/CodeGraphWriter.v ===== *)
(** The writer of rendered graphs, src/internal/backend/codegraphwriter/handler.go:
    it takes the statements the Rust indexer rendered for a commit, writes them to
    the graph database and keeps the row of the snapshot, its anchors and its
    semantic rows in step.  [WritePendingPayload] serves the AST layer of a split
    index and leaves the snapshot PARTIAL for the merge of [IndexCore]; [Handle]
    serves the queue and makes it READY itself. *)
From Stdlib Require Import Ascii.
From S2P Require Import Prelude GoStd GoStdFacts GoJSON GoText Sha256 SubjobTypes SubjobStore SubjobTask SubjobCodec.
From S2P Require Import ManifestDelta Executor Scheduler GraphSchema GraphStore ScipProjection RepoIndexDB RepoJobs.
From S2P Require Import RepoTask CoreDB IndexCore CoreActivate.
Definition maxPostgresInt : Z := 2 ^ 31 - 1.
Definition maxPayloadBytes : Z := 16 * 2 ^ 20.
Definition maxStatementCount : Z := 20000.
Definition maxStatementBytes : Z := 2 ^ 20.
Definition semanticRowBatchSize : Z := 500.

Definition errStaleManifest : gerror := ESentinel "codegraphwriter: manifest is no longer active".

(** The conversions between text and float64: [strconv.ParseFloat(s, 64)], [None]
    for an error, and fmt's %f. *)
Record FloatText : Type := { ft_parse : string -> option float64; ft_fixed : float64 -> string }.

(** ** Payload *)

Record PayloadAnchor : Type := {
  pa_Kind : string; pa_Direction : string; pa_Key : string; pa_NormalizedKey : string;
  pa_NodeVID : string; pa_EvidenceFilePath : option string; pa_StartLine : option Z;
  pa_EndLine : option Z; pa_Confidence : float64; pa_ConfidenceTier : string; pa_Source : string
}.

(** [Payload] *)
Record GraphPayload : Type := {
  gp_OrgID : Z; gp_WorkspaceID : string; gp_RepoID : Z; gp_Branch : string; gp_Revision : string;
  gp_CommitHash : string; gp_SchemaVersion : Z; gp_BuilderVersion : string; gp_IndexJobID : string;
  gp_ManifestID : string; gp_ProviderConnectionID : option string; gp_Source : string;
  gp_Statements : list string; gp_Anchors : list PayloadAnchor
}.

(** [Handler]; [gh_db] says that the database is not nil. *)
Record GraphHandler : Type := { gh_db : bool; gh_graph : option graphWriter; gh_float : FloatText }.

Record writeOptions : Type := {
  wo_AllowPendingManifest : bool; wo_ActivateRevision : bool; wo_PartialOnly : bool
}.

(** [skipRetry], on the error its format makes of its arguments. *)
Definition skipRetry (e : gerror) : gerror := EWrap (err_text e +:+ ": ") SkipRetry "".

(** ** Decoding *)

(** A number for an [int64] field. *)
Definition json_int64 (lit : string) : option Z :=
  match DecimalString.NilZero.int_of_string lit with
  | Some d =>
      let z := Z.of_int d in
      if (- 2 ^ 63 <=? z) && (z <? 2 ^ 63) then Some z else None
  | None => None
  end.

Definition as_int64 (old : Z) (j : json) : option Z :=
  match j with JNum lit => json_int64 lit | JNull => Some old | _ => None end.

(** A pointer: null is nil, a value goes through the pointer there was, or a new
    one. *)
Definition as_pointer {A} (zero : A) (as_value : A -> json -> option A) (old : option A) (j : json)
  : option (option A) :=
  match j with
  | JNull => Some None
  | _ => Some <$> as_value (default zero old) j
  end.

(** A slice: element [i] is decoded into the element [i] there was, or a new one. *)
Fixpoint as_elements {A} (zero : A) (as_value : A -> json -> option A) (old : list A) (js : list json)
  : option (list A) :=
  match js with
  | [] => Some []
  | j :: js' =>
      match as_value (default zero (head old)) j, as_elements zero as_value (tail old) js' with
      | Some a, Some l => Some (a :: l)
      | _, _ => None
      end
  end.

Definition as_slice {A} (zero : A) (as_value : A -> json -> option A) (old : list A) (j : json)
  : option (list A) :=
  match j with
  | JNull => Some []
  | JArr js => as_elements zero as_value old js
  | _ => None
  end.

Definition as_struct {A} (set : A -> string -> json -> option A) (old : A) (j : json) : option A :=
  match j with JObj l => set_members set old l | JNull => Some old | _ => None end.

Definition fzero : float64 := FFinite false "" 0.

Definition zero_anchor : PayloadAnchor :=
  {| pa_Kind := ""; pa_Direction := ""; pa_Key := ""; pa_NormalizedKey := ""; pa_NodeVID := "";
     pa_EvidenceFilePath := None; pa_StartLine := None; pa_EndLine := None; pa_Confidence := fzero;
     pa_ConfidenceTier := ""; pa_Source := "" |}.

Definition zero_graph_payload : GraphPayload :=
  {| gp_OrgID := 0; gp_WorkspaceID := ""; gp_RepoID := 0; gp_Branch := ""; gp_Revision := "";
     gp_CommitHash := ""; gp_SchemaVersion := 0; gp_BuilderVersion := ""; gp_IndexJobID := "";
     gp_ManifestID := ""; gp_ProviderConnectionID := None; gp_Source := ""; gp_Statements := [];
     gp_Anchors := [] |}.

Section Decode.
Context (ft : FloatText).

Definition as_float64 (old : float64) (j : json) : option float64 :=
  match j with JNum lit => ft_parse ft lit | JNull => Some old | _ => None end.

Definition set_anchor_field (a : PayloadAnchor) (key : string) (j : json) : option PayloadAnchor :=
  let '(Build_PayloadAnchor kd di ke nk vid ev sl el co ct so) := a in
  if key_matches "kind" key then (fun v => Build_PayloadAnchor v di ke nk vid ev sl el co ct so) <$> as_string kd j
  else if key_matches "direction" key then (fun v => Build_PayloadAnchor kd v ke nk vid ev sl el co ct so) <$> as_string di j
  else if key_matches "key" key then (fun v => Build_PayloadAnchor kd di v nk vid ev sl el co ct so) <$> as_string ke j
  else if key_matches "normalizedKey" key then (fun v => Build_PayloadAnchor kd di ke v vid ev sl el co ct so) <$> as_string nk j
  else if key_matches "nodeVid" key then (fun v => Build_PayloadAnchor kd di ke nk v ev sl el co ct so) <$> as_string vid j
  else if key_matches "evidenceFilePath" key then
    (fun v => Build_PayloadAnchor kd di ke nk vid v sl el co ct so) <$> as_pointer "" as_string ev j
  else if key_matches "startLine" key then
    (fun v => Build_PayloadAnchor kd di ke nk vid ev v el co ct so) <$> as_pointer 0 as_int64 sl j
  else if key_matches "endLine" key then
    (fun v => Build_PayloadAnchor kd di ke nk vid ev sl v co ct so) <$> as_pointer 0 as_int64 el j
  else if key_matches "confidence" key then (fun v => Build_PayloadAnchor kd di ke nk vid ev sl el v ct so) <$> as_float64 co j
  else if key_matches "confidenceTier" key then (fun v => Build_PayloadAnchor kd di ke nk vid ev sl el co v so) <$> as_string ct j
  else if key_matches "source" key then (fun v => Build_PayloadAnchor kd di ke nk vid ev sl el co ct v) <$> as_string so j
  else Some a.

Definition set_graph_field (p : GraphPayload) (key : string) (j : json) : option GraphPayload :=
  let '(Build_GraphPayload og ws rp br rv ch sv bv ij mi pc so st an) := p in
  if key_matches "orgId" key then (fun v => Build_GraphPayload v ws rp br rv ch sv bv ij mi pc so st an) <$> as_int64 og j
  else if key_matches "workspaceId" key then (fun v => Build_GraphPayload og v rp br rv ch sv bv ij mi pc so st an) <$> as_string ws j
  else if key_matches "repoId" key then (fun v => Build_GraphPayload og ws v br rv ch sv bv ij mi pc so st an) <$> as_int64 rp j
  else if key_matches "branch" key then (fun v => Build_GraphPayload og ws rp v rv ch sv bv ij mi pc so st an) <$> as_string br j
  else if key_matches "revision" key then (fun v => Build_GraphPayload og ws rp br v ch sv bv ij mi pc so st an) <$> as_string rv j
  else if key_matches "commitHash" key then (fun v => Build_GraphPayload og ws rp br rv v sv bv ij mi pc so st an) <$> as_string ch j
  else if key_matches "schemaVersion" key then (fun v => Build_GraphPayload og ws rp br rv ch v bv ij mi pc so st an) <$> as_int64 sv j
  else if key_matches "builderVersion" key then (fun v => Build_GraphPayload og ws rp br rv ch sv v ij mi pc so st an) <$> as_string bv j
  else if key_matches "indexJobId" key then (fun v => Build_GraphPayload og ws rp br rv ch sv bv v mi pc so st an) <$> as_string ij j
  else if key_matches "manifestId" key then (fun v => Build_GraphPayload og ws rp br rv ch sv bv ij v pc so st an) <$> as_string mi j
  else if key_matches "providerConnectionId" key then
    (fun v => Build_GraphPayload og ws rp br rv ch sv bv ij mi v so st an) <$> as_pointer "" as_string pc j
  else if key_matches "source" key then (fun v => Build_GraphPayload og ws rp br rv ch sv bv ij mi pc v st an) <$> as_string so j
  else if key_matches "statements" key then
    (fun v => Build_GraphPayload og ws rp br rv ch sv bv ij mi pc so v an) <$> as_slice "" as_string st j
  else if key_matches "anchors" key then
    (fun v => Build_GraphPayload og ws rp br rv ch sv bv ij mi pc so st v)
    <$> as_slice zero_anchor (as_struct set_anchor_field) an j
  else Some p.

Definition UnmarshalPayload (raw : string) : result gerror GraphPayload :=
  if maxPayloadBytes <? Z.of_nat (String.length raw)
  then Err (EText ("payload size " +:+ Itoa (Z.of_nat (String.length raw)) +:+ " exceeds "
                   +:+ Itoa maxPayloadBytes +:+ " bytes"))
  else decode_struct set_graph_field zero_graph_payload raw.
End Decode.

(** ** Validation *)

(** [c < 0] and [1 < c]. *)
Definition float_negative (c : float64) : bool :=
  match c with
  | FNaN => false
  | FInf negative => negative
  | FFinite negative digits _ => negative && negb (digits =s "")
  end.

Definition float_above_one (c : float64) : bool :=
  match c with
  | FNaN => false
  | FInf negative => negb negative
  | FFinite negative digits dp =>
      negb negative && negb (digits =s "") && ((1 <? dp) || (dp =? 1) && negb (digits =s "1"))
  end.

Definition valid_direction (direction : string) : bool :=
  bool_decide (ToUpper (TrimSpace direction) ∈ ["PROVIDES"; "CONSUMES"; "REFERENCES"]).

Definition Anchor_Validate (ft : FloatText) (a : PayloadAnchor) : option gerror :=
  if TrimSpace (pa_Kind a) =s "" then Some (EText "kind is required")
  else if negb (valid_direction (pa_Direction a))
  then Some (EText ("invalid direction " +:+ quoted (pa_Direction a)))
  else if TrimSpace (pa_Key a) =s "" then Some (EText "key is required")
  else if TrimSpace (pa_NormalizedKey a) =s "" then Some (EText "normalizedKey is required")
  else if TrimSpace (pa_NodeVID a) =s "" then Some (EText "nodeVid is required")
  else if TrimSpace (pa_Source a) =s "" then Some (EText "source is required")
  else if TrimSpace (pa_ConfidenceTier a) =s "" then Some (EText "confidenceTier is required")
  else if float_negative (pa_Confidence a) || float_above_one (pa_Confidence a)
  then Some (EText ("confidence " +:+ ft_fixed ft (pa_Confidence a) +:+ " is outside 0..1"))
  else None.

Definition anchorBelongsToPayloadScope (a : PayloadAnchor) (p : GraphPayload) : bool :=
  HasPrefix (pa_NodeVID a) ("cg:o" +:+ Itoa (gp_OrgID p) +:+ ":")
  && Contains (pa_NodeVID a) (":r" +:+ Itoa (gp_RepoID p) +:+ ":").

Definition isHexCommit (s : string) : bool :=
  (String.length s =? 40)%nat && forallb is_hex (String.list_ascii_of_string s).

(** [for i, x := range l { if err := f(i, x); err != nil { return err } }] *)
Fixpoint first_error_at {A} (f : Z -> A -> option gerror) (i : Z) (l : list A) : option gerror :=
  match l with
  | [] => None
  | x :: l' => match f i x with Some e => Some e | None => first_error_at f (i + 1) l' end
  end.

Definition statement_error (i : Z) (stmt : string) : option gerror :=
  if maxStatementBytes <? Z.of_nat (String.length stmt)
  then Some (EText ("statement " +:+ Itoa i +:+ " size " +:+ Itoa (Z.of_nat (String.length stmt))
                    +:+ " exceeds " +:+ Itoa maxStatementBytes +:+ " bytes"))
  else None.

Definition anchor_error (ft : FloatText) (p : GraphPayload) (i : Z) (a : PayloadAnchor) : option gerror :=
  match Anchor_Validate ft a with
  | Some e => Some (EWrap ("anchor " +:+ Itoa i +:+ ": ") e "")
  | None => if negb (anchorBelongsToPayloadScope a p)
            then Some (EText ("anchor " +:+ Itoa i +:+ ": nodeVid is outside payload org/repo scope"))
            else None
  end.

(** The receiver is a value: the branch it fills in is lost, and [manifestBranch]
    fills it in again where it is used. *)
Definition GraphPayload_Validate (ft : FloatText) (p : GraphPayload) : option gerror :=
  if (gp_OrgID p <=? 0) || (maxPostgresInt <? gp_OrgID p)
  then Some (EText ("invalid orgId " +:+ Itoa (gp_OrgID p)))
  else if (gp_RepoID p <=? 0) || (maxPostgresInt <? gp_RepoID p)
  then Some (EText ("invalid repoId " +:+ Itoa (gp_RepoID p)))
  else if TrimSpace (gp_WorkspaceID p) =s "" then Some (EText "workspaceId is required")
  else if TrimSpace (gp_Revision p) =s "" then Some (EText "revision is required")
  else if negb (isHexCommit (gp_CommitHash p))
  then Some (EText "commitHash must be a 40-character SHA")
  else if (gp_SchemaVersion p <=? 0) || (maxPostgresInt <? gp_SchemaVersion p)
  then Some (EText ("invalid schemaVersion " +:+ Itoa (gp_SchemaVersion p)))
  else if TrimSpace (gp_BuilderVersion p) =s "" then Some (EText "builderVersion is required")
  else if TrimSpace (gp_IndexJobID p) =s "" then Some (EText "indexJobId is required")
  else if TrimSpace (gp_ManifestID p) =s "" then Some (EText "manifestId is required")
  else if match gp_ProviderConnectionID p with Some c => TrimSpace c =s "" | None => false end
  then Some (EText "providerConnectionId must be non-empty when present")
  else if TrimSpace (gp_Source p) =s "" then Some (EText "source is required")
  else if (length (gp_Statements p) =? 0)%nat then Some (EText "statements are required")
  else if maxStatementCount <? Z.of_nat (length (gp_Statements p))
  then Some (EText ("statement count " +:+ Itoa (Z.of_nat (length (gp_Statements p)))
                    +:+ " exceeds " +:+ Itoa maxStatementCount))
  else match first_error_at statement_error 0 (gp_Statements p) with
       | Some e => Some e
       | None => first_error_at (anchor_error ft p) 0 (gp_Anchors p)
       end.

Definition renderedInputFromPayload (p : GraphPayload) : RenderedStatementWrite :=
  {| rw_OrgID := gp_OrgID p; rw_WorkspaceID := gp_WorkspaceID p; rw_RepoID := gp_RepoID p;
     rw_Revision := gp_Revision p; rw_CommitHash := gp_CommitHash p;
     rw_SchemaVersion := gp_SchemaVersion p; rw_BuilderVersion := gp_BuilderVersion p;
     rw_Source := gp_Source p; rw_Statements := gp_Statements p |}.

Definition manifestBranch (p : GraphPayload) : string :=
  if TrimSpace (gp_Branch p) =s "" then gp_Revision p else gp_Branch p.

(** ** Rows *)

Definition nullableString (value : string) : option string :=
  if TrimSpace value =s "" then None else Some value.

Definition nullableStringPtr (value : option string) : option string :=
  match value with Some v => nullableString v | None => None end.

Definition in_int32 (z : Z) : bool := (- 2 ^ 31 <=? z) && (z <? 2 ^ 31).

Definition optionalInt (value : string) : option Z :=
  if TrimSpace value =s "" then None
  else match ParseInt64 (TrimSpace value) with
       | Some i => if in_int32 i then Some i else None
       | None => None
       end.

Definition optionalInt64 (value : option Z) : option Z :=
  match value with
  | None => None
  | Some v => if (2 ^ 31 - 1 <? v) || (v <? - (2 ^ 31 - 1) - 1) then None else Some v
  end.

Definition fone : float64 := FFinite false "1" 1.

Definition parseConfidence (ft : FloatText) (value : string) : float64 :=
  if TrimSpace value =s "" then fone
  else match ft_parse ft (TrimSpace value) with Some f => f | None => fone end.

Definition normalizeConfidenceTier (value : string) : string :=
  let tier := ToUpper (TrimSpace value) in
  if bool_decide (tier ∈ ["EXTRACTED"; "INFERRED"; "AMBIGUOUS"]) then tier else "INFERRED".

Definition renderedEdgeDedupeKey (fromVID toVID relation rank : string) : string :=
  let zero := String (chr 0) "" in
  "rendered-edge:" +:+ sha256_hex (fromVID +:+ zero +:+ toVID +:+ zero +:+ relation +:+ zero +:+ rank).

(** [row.Props[key]] *)
Definition rprop (props : gmap string string) (key : string) : string := default "" (props !! key).

Definition countRenderedAnchorLinks (edges : list RenderedEdgeRow) (anchors : list PayloadAnchor) : Z :=
  let anchoredVIDs := List.filter (fun vid => negb (vid =s "")) (map (fun a => TrimSpace (pa_NodeVID a)) anchors) in
  Z.of_nat (length (List.filter (fun edge =>
    EqualFold (TrimSpace (rprop (re_Props edge) "source")) "anchor-linker"
    || bool_decide (re_FromVID edge ∈ anchoredVIDs) || bool_decide (re_ToVID edge ∈ anchoredVIDs)) edges)).

(** The columns of the three INSERT statements; [int32(x)] of the payload's numbers
    is the number, which [Validate] has bounded. *)
Definition anchor_row (p : GraphPayload) (graphIndexID : string) (now : Z) (id : string) (a : PayloadAnchor)
  : (string * string * string * string * string) * Anchor :=
  ((graphIndexID, pa_Kind a, ToUpper (TrimSpace (pa_Direction a)), pa_NormalizedKey a, pa_NodeVID a),
   {| ca_id := id; ca_key := pa_Key a; ca_workspaceId := gp_WorkspaceID p;
      ca_commitHash := gp_CommitHash p; ca_schemaVersion := gp_SchemaVersion p;
      ca_builderVersion := gp_BuilderVersion p;
      ca_evidenceFilePath := nullableStringPtr (pa_EvidenceFilePath a);
      ca_startLine := optionalInt64 (pa_StartLine a); ca_endLine := optionalInt64 (pa_EndLine a);
      ca_confidence := pa_Confidence a; ca_source := pa_Source a; ca_orgId := gp_OrgID p;
      ca_repoId := gp_RepoID p; ca_updatedAt := now |}).

Definition anchor_merge (old new : Anchor) : Anchor :=
  {| ca_id := ca_id old; ca_key := ca_key new; ca_workspaceId := ca_workspaceId old;
     ca_commitHash := ca_commitHash old; ca_schemaVersion := ca_schemaVersion old;
     ca_builderVersion := ca_builderVersion old; ca_evidenceFilePath := ca_evidenceFilePath new;
     ca_startLine := ca_startLine new; ca_endLine := ca_endLine new;
     ca_confidence := ca_confidence new; ca_source := ca_source new; ca_orgId := ca_orgId old;
     ca_repoId := ca_repoId old; ca_updatedAt := ca_updatedAt new |}.

Definition fact_row (ft : FloatText) (p : GraphPayload) (graphIndexID : string) (now : Z) (id : string)
    (row : RenderedVertexRow) : (string * string) * SemanticFact :=
  let props := rv_Props row in
  let label := nonEmpty (rprop props "label") (nonEmpty (rprop props "key") (rv_VID row)) in
  ((graphIndexID, "rendered-node:" +:+ rv_VID row),
   {| sf_id := id; sf_externalId := rv_VID row; sf_kind := nonEmpty (rprop props "kind") "node";
      sf_label := label; sf_workspaceId := gp_WorkspaceID p; sf_commitHash := gp_CommitHash p;
      sf_schemaVersion := gp_SchemaVersion p; sf_builderVersion := gp_BuilderVersion p;
      sf_sourceFile := nonEmpty (rprop props "path") (rprop props "evidenceFilePath");
      sf_startLine := optionalInt (rprop props "startLine");
      sf_endLine := optionalInt (rprop props "endLine"); sf_evidence := Some label;
      sf_confidenceTier := normalizeConfidenceTier (rprop props "confidenceTier");
      sf_confidence := parseConfidence ft (rprop props "confidence");
      sf_source := nonEmpty (rprop props "source") (gp_Source p);
      sf_extractionMethod := "rendered-ngql"; sf_orgId := gp_OrgID p; sf_repoId := gp_RepoID p;
      sf_updatedAt := now |}).

Definition edge_row (ft : FloatText) (p : GraphPayload) (graphIndexID : string) (now : Z) (id : string)
    (row : RenderedEdgeRow) : (string * string) * SemanticEdge :=
  let props := re_Props row in
  let relation := nonEmpty (rprop props "kind") "RELATES_TO" in
  ((graphIndexID, renderedEdgeDedupeKey (re_FromVID row) (re_ToVID row) relation (re_Rank row)),
   {| se_id := id; se_sourceExternalId := re_FromVID row; se_targetExternalId := re_ToVID row;
      se_relation := relation; se_workspaceId := gp_WorkspaceID p; se_commitHash := gp_CommitHash p;
      se_schemaVersion := gp_SchemaVersion p; se_builderVersion := gp_BuilderVersion p;
      se_sourceFile := rprop props "evidenceFilePath";
      se_startLine := optionalInt (rprop props "startLine");
      se_endLine := optionalInt (rprop props "endLine");
      se_evidence := nullableString (rprop props "normalizedKey"); se_rationale := None;
      se_confidenceTier := normalizeConfidenceTier (rprop props "confidenceTier");
      se_confidence := parseConfidence ft (rprop props "confidence");
      se_source := nonEmpty (rprop props "source") (gp_Source p);
      se_extractionMethod := "rendered-ngql"; se_orgId := gp_OrgID p; se_repoId := gp_RepoID p;
      se_updatedAt := now |}).

(** ** Statements on the rows of a snapshot *)

(** WHERE "graphIndexId" = $1 AND "orgId" = $2 AND "repoId" = $3 *)
Definition delete_anchors (graphIndexID : string) (p : GraphPayload) (w : CoreWorld)
  : result gerror (CoreWorld * unit) :=
  Ok (with_rest (with_semantic id id (base.filter (fun kv =>
        ~ (kv.1.1.1.1.1 = graphIndexID /\ ca_orgId kv.2 = gp_OrgID p /\ ca_repoId kv.2 = gp_RepoID p)))) w, tt).

Definition delete_edges (graphIndexID : string) (p : GraphPayload) (w : CoreWorld)
  : result gerror (CoreWorld * unit) :=
  Ok (with_rest (with_semantic id (base.filter (fun kv =>
        ~ (kv.1.1 = graphIndexID /\ se_orgId kv.2 = gp_OrgID p /\ se_repoId kv.2 = gp_RepoID p))) id) w, tt).

Definition delete_facts (graphIndexID : string) (p : GraphPayload) (w : CoreWorld)
  : result gerror (CoreWorld * unit) :=
  Ok (with_rest (with_semantic (base.filter (fun kv =>
        ~ (kv.1.1 = graphIndexID /\ sf_orgId kv.2 = gp_OrgID p /\ sf_repoId kv.2 = gp_RepoID p))) id id) w, tt).

Definition anchor_clash (k : string * string * string * string * string) (a : Anchor)
    (k' : string * string * string * string * string) (b : Anchor) : bool := ca_id a =s ca_id b.

Definition insert_anchors (graphIndexID : string)
    (rows : list ((string * string * string * string * string) * Anchor)) (w : CoreWorld)
  : result gerror (CoreWorld * unit) :=
  if negb (forallb (fun kr => graph_fk_ok graphIndexID (ca_orgId kr.2) (ca_repoId kr.2)
                                (ca_commitHash kr.2) (ca_schemaVersion kr.2)
                                (ca_builderVersion kr.2) (ca_workspaceId kr.2) w) rows)
  then Err (EText "insert violates foreign key constraint")
  else
    let? m := upsert_rows anchor_merge anchor_clash [] rows (cr_anchors (cw_rest w)) in
    Ok (with_rest (with_semantic id id (fun _ => m)) w, tt).

Definition insertRenderedAnchors (graphIndexID : string) (p : GraphPayload) (anchors : list PayloadAnchor)
  : prog unit :=
  match anchors with
  | [] => pret tt
  | _ => pstmt (fun ce w => insert_anchors graphIndexID
           (imap (fun i a => anchor_row p graphIndexID (ce_now ce) (ce_id ce i) a) anchors) w)
  end.

Definition insertRenderedSemanticFacts (ft : FloatText) (graphIndexID : string) (p : GraphPayload)
    (rows : list RenderedVertexRow) : prog unit :=
  match rows with
  | [] => pret tt
  | _ => pstmt (fun ce w => insert_facts graphIndexID
           (imap (fun i r => fact_row ft p graphIndexID (ce_now ce) (ce_id ce i) r) rows) w)
  end.

Definition insertRenderedSemanticEdges (ft : FloatText) (graphIndexID : string) (p : GraphPayload)
    (rows : list RenderedEdgeRow) : prog unit :=
  match rows with
  | [] => pret tt
  | _ => pstmt (fun ce w => insert_edges false graphIndexID
           (imap (fun i r => edge_row ft p graphIndexID (ce_now ce) (ce_id ce i) r) rows) w)
  end.

(** [renderedPersistenceSummary]: anchors and linked edges. *)
Definition persistRenderedSemanticRows (ft : FloatText) (graphIndexID : string) (p : GraphPayload)
    (input : RenderedStatementWrite) : prog (Z * Z) :=
  match ExtractRenderedRows input with
  | Err e => perr e
  | Ok (vertices, edges) =>
      prog! _ := pstmt (fun _ w => delete_anchors graphIndexID p w) in
      prog! _ := pstmt (fun _ w => delete_edges graphIndexID p w) in
      prog! _ := pstmt (fun _ w => delete_facts graphIndexID p w) in
      prog! _ := pfor (chunkArray (gp_Anchors p) semanticRowBatchSize) (insertRenderedAnchors graphIndexID p) in
      prog! _ := pfor (chunkArray vertices semanticRowBatchSize) (insertRenderedSemanticFacts ft graphIndexID p) in
      prog! _ := pfor (chunkArray edges semanticRowBatchSize) (insertRenderedSemanticEdges ft graphIndexID p) in
      pret (Z.of_nat (length (gp_Anchors p)), countRenderedAnchorLinks edges (gp_Anchors p))
  end.

(** ** The scope and the manifest *)

Definition org_workspace (o : Org) : string := default (org_domain o) (org_atomWorkspaceId o).

Definition resolveScope (p : GraphPayload) : prog string :=
  pstmt (fun _ w =>
    match db_repos (cw_db w) !! gp_RepoID p with
    | Some r => if repo_orgId r =? gp_OrgID p
                then match cr_orgs (cw_rest w) !! gp_OrgID p with
                     | Some o => Ok (w, org_workspace o)
                     | None => Err ErrNoRows
                     end
                else Err ErrNoRows
    | None => Err ErrNoRows
    end).

(** The WHERE clause on "RepoIndexManifest". *)
Definition payload_manifest (p : GraphPayload) (x : Manifest) : bool :=
  (mf_orgId x =? gp_OrgID p) && (mf_repoId x =? gp_RepoID p) && (mf_workspaceId x =s gp_WorkspaceID p)
  && (mf_branch x =s manifestBranch p) && (mf_commitHash x =s gp_CommitHash p)
  && (mf_id x =s gp_ManifestID p) && bool_decide (mf_indexJobId x = Some (gp_IndexJobID p))
  && bool_decide (mf_providerConnectionId x = gp_ProviderConnectionID p).

(** The row's [id] is the primary key: at most one matches. *)
Definition manifestStatus (p : GraphPayload) : prog ManifestStatus :=
  pstmt (fun _ w =>
    match List.find (payload_manifest p) (db_manifests (cw_db w)) with
    | Some x => Ok (w, mf_status x)
    | None => Err ErrNoRows
    end).

(** ** The row of the snapshot *)

Definition settled (g : CodeGraphIndex) : bool := bool_decide (gx_status g ∈ ["READY"; "SKIPPED"]).

(** The DO UPDATE of [markBuilding]. *)
Definition building_merge (p : GraphPayload) (now : Z) (g : CodeGraphIndex) : CodeGraphIndex :=
  if settled g then g
  else {| gx_orgId := gx_orgId g; gx_repoId := gx_repoId g; gx_workspaceId := gx_workspaceId g;
          gx_commitHash := gx_commitHash g; gx_schemaVersion := gx_schemaVersion g;
          gx_builderVersion := gx_builderVersion g; gx_status := "BUILDING";
          gx_sourceRevision := Some (gp_Revision p); gx_graphSpace := Some SpaceName;
          gx_indexRunId := Some (gp_IndexJobID p); gx_vertexCount := 0; gx_edgeCount := 0;
          gx_anchorCount := 0; gx_linkedEdgeCount := 0; gx_errorMessage := None;
          gx_indexedAt := None; gx_supersededAt := gx_supersededAt g;
          gx_deleteAfter := gx_deleteAfter g; gx_updatedAt := now |}.

(** The id and status of the row. *)
Definition markBuilding (p : GraphPayload) : prog (string * string) :=
  pstmt (fun ce w =>
    let row := new_graph "BUILDING" (ce_now ce) (gp_OrgID p) (gp_RepoID p) (gp_WorkspaceID p)
                 (gp_Revision p) (gp_CommitHash p) (gp_IndexJobID p) (gp_SchemaVersion p)
                 (gp_BuilderVersion p) in
    let? wr := upsert_graph (ce_id ce 0) row (building_merge p (ce_now ce)) w in
    Ok (wr.1, (wr.2.1, gx_status wr.2.2))).

(** UPDATE ... WHERE id = $1 AND "orgId" = $2 AND "repoId" = $3 *)
Definition update_graph (graphIndexID : string) (p : GraphPayload) (guard : CodeGraphIndex -> bool)
    (f : CodeGraphIndex -> CodeGraphIndex) (w : CoreWorld) : result gerror (CoreWorld * unit) :=
  Ok (with_rest (with_graphs (alter (fun g =>
        if (gx_orgId g =? gp_OrgID p) && (gx_repoId g =? gp_RepoID p) && guard g then f g else g)
        graphIndexID)) w, tt).

(** The columns the four updates set; [graphSpace] is set by two of them. *)
Definition mark_graph (status : string) (space : bool) (vertices edges anchors linked : Z)
    (indexedAt : option Z) (errorMessage : option string) (now : Z) (g : CodeGraphIndex) : CodeGraphIndex :=
  {| gx_orgId := gx_orgId g; gx_repoId := gx_repoId g; gx_workspaceId := gx_workspaceId g;
     gx_commitHash := gx_commitHash g; gx_schemaVersion := gx_schemaVersion g;
     gx_builderVersion := gx_builderVersion g; gx_status := status;
     gx_sourceRevision := gx_sourceRevision g;
     gx_graphSpace := if space then Some SpaceName else gx_graphSpace g;
     gx_indexRunId := gx_indexRunId g; gx_vertexCount := vertices; gx_edgeCount := edges;
     gx_anchorCount := anchors; gx_linkedEdgeCount := linked; gx_errorMessage := errorMessage;
     gx_indexedAt := indexedAt; gx_supersededAt := gx_supersededAt g;
     gx_deleteAfter := gx_deleteAfter g; gx_updatedAt := now |}.

Definition countToPostgresInt (name : string) (value : Z) : result gerror Z :=
  if (value <? 0) || (maxPostgresInt <? value)
  then Err (EText (name +:+ "=" +:+ Itoa value +:+ " outside Postgres INTEGER range"))
  else Ok value.

(** The four counts of [markReady] and [markPartial]. *)
Definition result_counts (r : CodeGraphWriteResult) : result gerror (Z * Z * Z * Z) :=
  let? vertexCount := countToPostgresInt "vertexCount" (wr_VertexCount r) in
  let? edgeCount := countToPostgresInt "edgeCount" (wr_EdgeCount r) in
  let? anchorCount := countToPostgresInt "anchorCount" (wr_AnchorCount r) in
  let? linkedEdgeCount := countToPostgresInt "linkedEdgeCount" (wr_LinkedEdgeCount r) in
  Ok (vertexCount, edgeCount, anchorCount, linkedEdgeCount).

Definition markReady (graphIndexID : string) (p : GraphPayload) (r : CodeGraphWriteResult) : prog unit :=
  match result_counts r with
  | Err e => perr e
  | Ok (v, e, a, l) => pstmt (fun ce w => update_graph graphIndexID p (fun _ => true)
                         (mark_graph "READY" true v e a l (Some (ce_now ce)) None (ce_now ce)) w)
  end.

Definition markPartial (graphIndexID : string) (p : GraphPayload) (r : CodeGraphWriteResult) : prog unit :=
  match result_counts r with
  | Err e => perr e
  | Ok (v, e, a, l) => pstmt (fun ce w => update_graph graphIndexID p (fun _ => true)
                         (mark_graph "PARTIAL" true v e a l None None (ce_now ce)) w)
  end.

Definition markSkipped (graphIndexID : string) (p : GraphPayload) (reason : string) : prog unit :=
  pstmt (fun ce w => update_graph graphIndexID p (fun _ => true)
    (mark_graph "SKIPPED" false 0 0 0 0 (Some (ce_now ce)) (Some reason) (ce_now ce)) w).

Definition markFailed (graphIndexID : string) (p : GraphPayload) (reason : string) : prog unit :=
  pstmt (fun ce w => update_graph graphIndexID p (fun g => negb (settled g))
    (mark_graph "FAILED" false 0 0 0 0 (Some (ce_now ce)) (Some reason) (ce_now ce)) w).

(** The counts of [repairReadyGraphCounts]. *)
Definition snapshot_anchors (graphIndexID : string) (p : GraphPayload) (w : CoreWorld)
  : list ((string * string * string * string * string) * Anchor) :=
  List.filter (fun kv => (kv.1.1.1.1.1 =s graphIndexID) && (ca_orgId kv.2 =? gp_OrgID p)
                         && (ca_repoId kv.2 =? gp_RepoID p)) (map_to_list (cr_anchors (cw_rest w))).

Definition snapshot_links (graphIndexID : string) (p : GraphPayload) (w : CoreWorld)
  : list ((string * string) * SemanticEdge) :=
  List.filter (fun kv => (kv.1.1 =s graphIndexID) && (se_orgId kv.2 =? gp_OrgID p)
      && (se_repoId kv.2 =? gp_RepoID p)
      && ((ToLower (se_source kv.2) =s "anchor-linker")
          || existsb (fun a => (a.1.2 =s se_sourceExternalId kv.2) || (a.1.2 =s se_targetExternalId kv.2))
               (snapshot_anchors graphIndexID p w)))
    (map_to_list (cr_edges (cw_rest w))).

Definition set_link_counts (anchors linked now : Z) (g : CodeGraphIndex) : CodeGraphIndex :=
  {| gx_orgId := gx_orgId g; gx_repoId := gx_repoId g; gx_workspaceId := gx_workspaceId g;
     gx_commitHash := gx_commitHash g; gx_schemaVersion := gx_schemaVersion g;
     gx_builderVersion := gx_builderVersion g; gx_status := gx_status g;
     gx_sourceRevision := gx_sourceRevision g; gx_graphSpace := gx_graphSpace g;
     gx_indexRunId := gx_indexRunId g; gx_vertexCount := gx_vertexCount g;
     gx_edgeCount := gx_edgeCount g; gx_anchorCount := anchors; gx_linkedEdgeCount := linked;
     gx_errorMessage := gx_errorMessage g; gx_indexedAt := gx_indexedAt g;
     gx_supersededAt := gx_supersededAt g; gx_deleteAfter := gx_deleteAfter g; gx_updatedAt := now |}.

Definition repairReadyGraphCounts (graphIndexID : string) (p : GraphPayload) : prog unit :=
  pstmt (fun ce w =>
    let anchors := Z.of_nat (length (snapshot_anchors graphIndexID p w)) in
    let linked := Z.of_nat (length (snapshot_links graphIndexID p w)) in
    update_graph graphIndexID p (fun g => (gx_status g =s "READY")
        && (negb (gx_anchorCount g =? anchors) || negb (gx_linkedEdgeCount g =? linked)))
      (set_link_counts anchors linked (ce_now ce)) w).

(** ** The revision *)

Definition payload_revision (p : GraphPayload) (graphIndexID : string) (now : Z) : CodeGraphRevision :=
  {| gr_revision := gp_Revision p; gr_workspaceId := gp_WorkspaceID p; gr_commitHash := gp_CommitHash p;
     gr_orgId := gp_OrgID p; gr_repoId := gp_RepoID p; gr_schemaVersion := gp_SchemaVersion p;
     gr_builderVersion := gp_BuilderVersion p; gr_activatedAt := now; gr_updatedAt := now;
     gr_codeGraphIndexId := graphIndexID |}.

Definition upsertRevisionIfManifestReady (graphIndexID : string) (p : GraphPayload) : prog unit :=
  prog! affected := pstmt (fun ce w =>
    if existsb (fun x => payload_manifest p x && bool_decide (mf_status x = ManifestReady))
         (db_manifests (cw_db w))
    then let? wr := upsert_revision (ce_id ce 0) (payload_revision p graphIndexID (ce_now ce)) w in
         Ok (wr.1, true)
    else Ok (w, false)) in
  if (affected : bool) then pret tt else perr errStaleManifest.

(** ** [writePayload] *)

(** What the status of the manifest says of the write: [None] goes on. *)
Definition manifest_refusal (opts : writeOptions) (p : GraphPayload) (status : ManifestStatus)
  : option gerror :=
  let stale s := Some (skipRetry (EText ("manifest validation: manifest is " +:+ s
                         +:+ "; stale graph write will not be applied"))) in
  match status with
  | ManifestReady => None
  | ManifestPending =>
      if wo_AllowPendingManifest opts then None
      else Some (EText ("manifest " +:+ gp_Revision p +:+ "/" +:+ gp_CommitHash p
                        +:+ " is still PENDING; retry graph write later"))
  | ManifestSuperseded => stale "SUPERSEDED"
  | ManifestFailed => stale "FAILED"
  end.

(** [_ = h.markFailed(...)], then the error. *)
Definition fail_graph {A} (graphIndexID : string) (p : GraphPayload) (reason : string) (e : gerror) : prog A :=
  pthen (markFailed graphIndexID p reason) (fun _ => perr e).

(** The activation of the revision; a stale manifest is not an error. *)
Definition activate_graph (graphIndexID : string) (p : GraphPayload) (k : prog unit) : prog unit :=
  pthen (upsertRevisionIfManifestReady graphIndexID p) (fun r =>
    match r with
    | Ok _ => k
    | Err e => if err_is (err_text errStaleManifest) e then pret tt
               else perr (EWrap "upsert graph revision: " e "")
    end).

(** The snapshot was READY before: a duplicate delivery. *)
Definition duplicate_ready (graphIndexID : string) (p : GraphPayload) (opts : writeOptions) : prog unit :=
  let repair := pwrap "repair READY graph metadata: " (repairReadyGraphCounts graphIndexID p) in
  if wo_ActivateRevision opts then activate_graph graphIndexID p repair else repair.

Definition set_result_counts (anchors linked : Z) (r : CodeGraphWriteResult) : CodeGraphWriteResult :=
  {| wr_Status := wr_Status r; wr_VertexCount := wr_VertexCount r; wr_EdgeCount := wr_EdgeCount r;
     wr_AnchorCount := anchors; wr_LinkedEdgeCount := linked; wr_ErrorMessage := wr_ErrorMessage r |}.

(** The statements were written. *)
Definition finish_write (ft : FloatText) (graphIndexID : string) (p : GraphPayload) (opts : writeOptions)
    (r : CodeGraphWriteResult) : prog unit :=
  pthen (persistRenderedSemanticRows ft graphIndexID p (renderedInputFromPayload p)) (fun summary =>
    match summary with
    | Err e => fail_graph graphIndexID p (err_text e) (EWrap "persist rendered graph semantic rows: " e "")
    | Ok (anchors, linked) =>
        let r' := set_result_counts anchors linked r in
        if wo_PartialOnly opts then pwrap "mark graph PARTIAL: " (markPartial graphIndexID p r')
        else
          prog! _ := pwrap "mark graph READY: " (markReady graphIndexID p r') in
          if wo_ActivateRevision opts then activate_graph graphIndexID p (pret tt) else pret tt
    end).

Definition write_graph (ft : FloatText) (graph : graphWriter) (graphIndexID : string) (p : GraphPayload)
    (opts : writeOptions) : prog unit :=
  prog! (r, err) := graph_call graph (renderedInputFromPayload p) in
  match err with
  | Some e =>
      fail_graph graphIndexID p (err_text e)
        (if err_is ErrRenderedStatementValidation e
         then skipRetry (EWrap "rendered statement validation: " e "")
         else EWrap "write rendered graph: " e "")
  | None =>
      match wr_Status r with
      | WriteStatusReady => finish_write ft graphIndexID p opts r
      | WriteStatusSkipped =>
          pwrap "mark graph SKIPPED: " (markSkipped graphIndexID p (wr_ErrorMessage r))
      | WriteStatusFailed =>
          fail_graph graphIndexID p (wr_ErrorMessage r)
            (EText ("write rendered graph failed: " +:+ wr_ErrorMessage r))
      end
  end.

(** The switch on the status [markBuilding] returns. *)
Definition build_graph (ft : FloatText) (graph : graphWriter) (p : GraphPayload) (opts : writeOptions)
    (graphIndexID status : string) : prog unit :=
  if bool_decide (status ∈ ["BUILDING"; "PARTIAL"]) then write_graph ft graph graphIndexID p opts
  else if status =s "READY" then duplicate_ready graphIndexID p opts
  else if status =s "SKIPPED" then pret tt
  else perr (skipRetry (EText ("mark graph BUILDING returned unsupported status " +:+ quoted status))).

Definition no_rows_error (e : gerror) : bool := err_is (err_text ErrNoRows) e.

Definition checked_write (ft : FloatText) (graph : graphWriter) (p : GraphPayload) (opts : writeOptions)
  : prog unit :=
  pthen (resolveScope p) (fun scope =>
    match scope with
    | Err e =>
        perr (if no_rows_error e
              then skipRetry (EText ("scope validation: repo " +:+ Itoa (gp_RepoID p)
                     +:+ " does not belong to org " +:+ Itoa (gp_OrgID p)))
              else EWrap "scope validation: " e "")
    | Ok workspaceID =>
        if negb (workspaceID =s gp_WorkspaceID p)
        then perr (skipRetry (EText ("scope validation: workspaceId " +:+ quoted (gp_WorkspaceID p)
               +:+ " does not match org-resolved workspaceId " +:+ quoted workspaceID)))
        else
          pthen (manifestStatus p) (fun ms =>
            match ms with
            | Err e =>
                perr (if no_rows_error e
                      then skipRetry (EText ("manifest validation: no manifest for repo="
                             +:+ Itoa (gp_RepoID p) +:+ " revision=" +:+ quoted (gp_Revision p)
                             +:+ " commit=" +:+ gp_CommitHash p))
                      else EWrap "manifest validation: " e "")
            | Ok status =>
                match manifest_refusal opts p status with
                | Some e => perr e
                | None =>
                    prog! (graphIndexID, st) := pwrap "mark graph BUILDING: " (markBuilding p) in
                    build_graph ft graph p opts graphIndexID st
                end
            end)
    end).

Definition writePayload (h : GraphHandler) (p : GraphPayload) (opts : writeOptions) : prog unit :=
  match gh_db h, gh_graph h with
  | true, Some graph =>
      match GraphPayload_Validate (gh_float h) p with
      | Some e => perr (skipRetry (EWrap "payload validation: " e ""))
      | None =>
          match ValidateRenderedStatementWrite (renderedInputFromPayload p) with
          | Err e => perr (skipRetry (EWrap "rendered statement validation: " e ""))
          | Ok _ => checked_write (gh_float h) graph p opts
          end
      end
  | _, _ => perr (EText "codegraphwriter: handler not configured")
  end.

Definition WritePendingPayload (h : GraphHandler) (p : GraphPayload) : prog unit :=
  writePayload h p {| wo_AllowPendingManifest := true; wo_ActivateRevision := false; wo_PartialOnly := true |}.

(** [Handle] of the queue. *)
Definition graph_Handle (h : GraphHandler) (raw : string) : prog unit :=
  match gh_db h, gh_graph h with
  | true, Some _ =>
      match UnmarshalPayload (gh_float h) raw with
      | Err e => perr (skipRetry (EWrap "payload decode: " e ""))
      | Ok p => writePayload h p {| wo_AllowPendingManifest := false; wo_ActivateRevision := true;
                                    wo_PartialOnly := false |}
      end
  | _, _ => perr (EText "codegraphwriter: handler not configured")
  end.
