(* ===== verification/ArtifactStores.v ===== *)
(** The stores of the AST and Zoekt artifacts and the router in front of the stores:
    src/internal/backend/astartifact/store.go,
    src/internal/backend/zoektartifact/store.go and
    src/internal/backend/indexartifacts/router.go.

    An ingestion is a program over the tables; the file system it reads is fixed
    while it runs. *)
From Stdlib Require Import Ascii.
From S2P Require Import Prelude GoStd GoStdFacts GoJSON GoText Sha256 SubjobTypes SubjobStore SubjobTask SubjobCodec.
From S2P Require Import Executor RepoPaths RepoTask CoreDB Disk ArtifactScope IndexCore CoreActivate CodeGraphWriter.
(** ** Leases *)

Definition LeaseCheck : Type :=
  option gerror -> Z -> Payload -> string -> string -> string -> string -> DB -> DB * result gerror unit.

(** [validateLiveSubjobLease] as a statement of a transaction. *)
Definition lease_tx (check : LeaseCheck) (ce : CallEnv) (p : Payload) (r : Result) (leaseOwner attemptID : string)
  : TX unit := fun '(n, w) =>
  let '(db', a) := check (ce_fault ce n) (ce_now ce) p (res_ArtifactPath r) (res_ArtifactSHA256 r)
                     leaseOwner attemptID (cw_db w) in
  ((S n, with_db (fun _ => db') w), a).

Definition tx_mark (ce : CallEnv) (label : string) : TX unit := tx_stmt ce label (fun w => Ok (w, tt)).

Definition precheck_body (noun : string) (check : LeaseCheck) (p : Payload) (r : Result)
    (leaseOwner attemptID : string) (ce : CallEnv) : TX unit :=
  tx! _ := tx_mark ce ("begin " +:+ noun +:+ " artifact ingest precheck: ") in
  tx! _ := lease_tx check ce p r leaseOwner attemptID in
  tx_mark ce ("commit " +:+ noun +:+ " artifact ingest precheck: ").

(** [validateLiveSubjobLeasePrecheck] *)
Definition lease_precheck (noun : string) (check : LeaseCheck) (p : Payload) (r : Result)
    (leaseOwner attemptID : string) : prog unit :=
  ptx (precheck_body noun check p r leaseOwner attemptID).

(** A value or an error computed without a call. *)
Definition plift {A} (r : result gerror A) : prog A := PRet r.

(** [fmt.Errorf(pre + "%w", err)] *)
Definition with_prefix {A} (pre : string) (r : result gerror A) : result gerror A :=
  match r with Ok a => Ok a | Err e => Err (EWrap pre e "") end.

Definition blank (s : string) : bool := TrimSpace s =s "".

Module Ast.
Definition ErrUnsupportedLayer : gerror := ESentinel "astartifact: unsupported artifact layer".

(** [st_db] says that the database is not nil. *)
Record Store : Type := { st_db : bool; st_artifactRoot : string; st_writer : option GraphHandler }.

Definition NewStore (d : Disk) (db : bool) (writer : GraphHandler) (artifactRoot : string) : result gerror Store :=
  let? resolvedRoot := resolveArtifactRoot "astartifact" d artifactRoot in
  Ok {| st_db := db; st_artifactRoot := resolvedRoot; st_writer := Some writer |}.

Definition validateLiveSubjobLeasePrecheck : Payload -> Result -> string -> string -> prog unit :=
  lease_precheck "AST" ast_validateLiveSubjobLease.

(** The payload with the fields the artifact may leave out. *)
Definition complete_payload (g : GraphPayload) (p : Payload) : GraphPayload :=
  let '(Build_GraphPayload og ws rp _ rv ch sv bv _ mi pc so st an) := g in
  Build_GraphPayload og ws rp (pl_Branch p) rv ch sv bv (pl_RepoIndexingJobID p) mi pc
    (if blank so then "syntactic-ast" else so) st an.

Definition decodeGraphPayload (ft : FloatText) (raw : string) (p : Payload) : result gerror GraphPayload :=
  let mismatch field rest := Err (EText ("astartifact: " +:+ field +:+ " mismatch: artifact=" +:+ rest)) in
  match decode_struct (set_graph_field ft) zero_graph_payload raw with
  | Err e => Err (EWrap "astartifact: decode graph payload: " e "")
  | Ok g =>
      if negb (gp_OrgID g =? pl_OrgID p)
      then mismatch "orgId" (Itoa (gp_OrgID g) +:+ " payload=" +:+ Itoa (pl_OrgID p))
      else if negb (gp_RepoID g =? pl_RepoID p)
      then mismatch "repoId" (Itoa (gp_RepoID g) +:+ " payload=" +:+ Itoa (pl_RepoID p))
      else if negb (bool_decide (pl_WorkspaceID p = Some (gp_WorkspaceID g)))
      then mismatch "workspaceId" (quoted (gp_WorkspaceID g))
      else if negb (gp_Branch g =s "") && negb (gp_Branch g =s pl_Branch p)
      then mismatch "branch" (quoted (gp_Branch g) +:+ " payload=" +:+ quoted (pl_Branch p))
      else if negb (gp_Revision g =s pl_Revision p)
      then mismatch "revision" (quoted (gp_Revision g) +:+ " payload=" +:+ quoted (pl_Revision p))
      else if negb (gp_CommitHash g =s pl_CommitHash p)
      then mismatch "commitHash" (quoted (gp_CommitHash g) +:+ " payload=" +:+ quoted (pl_CommitHash p))
      else if negb (gp_IndexJobID g =s "") && negb (gp_IndexJobID g =s pl_RepoIndexingJobID p)
      then mismatch "indexJobId" (quoted (gp_IndexJobID g) +:+ " payload=" +:+ quoted (pl_RepoIndexingJobID p))
      else Ok (complete_payload g p)
  end.

(** A workspace that is nil is NULL, which equals nothing. *)
Definition resolvePendingManifest (p : Payload) : prog Manifest :=
  pwrap "astartifact: resolve pending manifest: " (pstmt (fun _ w =>
    match pl_WorkspaceID p with Some ws => pending_manifest p ws w | None => Err ErrNoRows end)).

Definition with_manifest (g : GraphPayload) (m : Manifest) : GraphPayload :=
  let '(Build_GraphPayload og ws rp br rv ch sv bv ij _ _ so st an) := g in
  Build_GraphPayload og ws rp br rv ch sv bv ij (mf_id m) (mf_providerConnectionId m) so st an.

(** What [Ingest] refuses before it asks the database. *)
Definition request_error (p : Payload) (r : Result) (leaseOwner attemptID : string) : option gerror :=
  match Validate p with
  | Some e => Some (EWrap "astartifact: payload: " e "")
  | None =>
      if blank leaseOwner || blank attemptID then Some (EText "astartifact: leaseOwner and attemptID are required")
      else if negb (pl_Layer p =s LayerASTTreeSitter) then Some ErrUnsupportedLayer
      else if negb (bool_decide (pl_Language p = None)) || negb (bool_decide (pl_ProjectRoot p = None))
              || negb (bool_decide (pl_Indexer p = None))
      then Some (EText "astartifact: AST/tree-sitter payload must not carry SCIP language/project/indexer scope")
      else if blank (res_ArtifactPath r) then Some (EText "astartifact: artifactPath is required")
      else None
  end.

(** The file checked, read and decoded. *)
Definition load_artifact (d : Disk) (s : Store) (ft : FloatText) (p : Payload) (r : Result)
  : result gerror GraphPayload :=
  let? _ := validatePublishedArtifactScope "astartifact" d (st_artifactRoot s) p (res_ArtifactPath r) in
  let? raw := with_prefix "read AST graph artifact: " (readArtifactFile "AST graph" d (res_ArtifactPath r)) in
  let? _ := validateArtifactSHA "astartifact" raw (res_ArtifactSHA256 r) in
  decodeGraphPayload ft raw p.

Definition Ingest (d : Disk) (s : Store) (p : Payload) (r : Result) (leaseOwner attemptID : string) : prog unit :=
  match st_db s, st_writer s with
  | true, Some writer =>
      match request_error p r leaseOwner attemptID with
      | Some e => perr e
      | None =>
          prog! _ := validateLiveSubjobLeasePrecheck p r leaseOwner attemptID in
          prog! g := plift (load_artifact d s (gh_float writer) p r) in
          prog! manifest := resolvePendingManifest p in
          if negb (gp_ManifestID g =s "") && negb (gp_ManifestID g =s mf_id manifest)
          then perr (EText ("astartifact: artifact manifestId " +:+ quoted (gp_ManifestID g)
                            +:+ " does not match pending manifest " +:+ quoted (mf_id manifest)))
          else
            prog! _ := validateLiveSubjobLeasePrecheck p r leaseOwner attemptID in
            pwrap "write AST graph artifact: " (WritePendingPayload writer (with_manifest g manifest))
      end
  | _, _ => perr (EText "astartifact: store is not configured")
  end.
End Ast.

Module Zoekt.
Record zoektShardArtifact : Type := { zs_Path : string; zs_SHA256 : string; zs_SizeBytes : Z }.

Record zoektArtifact : Type := {
  za_OrgID : Z; za_WorkspaceID : string; za_RepoID : Z; za_Branch : string; za_Revision : string;
  za_CommitHash : string; za_IndexJobID : string; za_IndexDir : string; za_ShardPrefix : string;
  za_Shards : list zoektShardArtifact; za_Stdout : string; za_Stderr : string
}.

Record Store : Type := { st_db : bool; st_pathsCfg : RepoPaths.Config; st_artifactRoot : string }.

Definition NewStore (d : Disk) (db : bool) (pathsCfg : RepoPaths.Config) (artifactRoot : string) : result gerror Store :=
  if negb db then Err (EText "zoektartifact: database is required")
  else
    let? resolvedRoot := resolveArtifactRoot "zoektartifact" d artifactRoot in
    Ok {| st_db := db; st_pathsCfg := pathsCfg; st_artifactRoot := resolvedRoot |}.

(** ** Decoding *)

Definition zero_shard : zoektShardArtifact := {| zs_Path := ""; zs_SHA256 := ""; zs_SizeBytes := 0 |}.

Definition set_shard_field (s : zoektShardArtifact) (key : string) (j : json) : option zoektShardArtifact :=
  let '(Build_zoektShardArtifact pa sh si) := s in
  if key_matches "path" key then (fun v => Build_zoektShardArtifact v sh si) <$> as_string pa j
  else if key_matches "sha256" key then (fun v => Build_zoektShardArtifact pa v si) <$> as_string sh j
  else if key_matches "sizeBytes" key then (fun v => Build_zoektShardArtifact pa sh v) <$> as_int64 si j
  else Some s.

Definition zero_artifact : zoektArtifact :=
  {| za_OrgID := 0; za_WorkspaceID := ""; za_RepoID := 0; za_Branch := ""; za_Revision := "";
     za_CommitHash := ""; za_IndexJobID := ""; za_IndexDir := ""; za_ShardPrefix := ""; za_Shards := [];
     za_Stdout := ""; za_Stderr := "" |}.

Definition set_artifact_field (a : zoektArtifact) (key : string) (j : json) : option zoektArtifact :=
  let '(Build_zoektArtifact og ws rp br rv ch ij dir pre sh out er) := a in
  if key_matches "orgId" key then (fun v => Build_zoektArtifact v ws rp br rv ch ij dir pre sh out er) <$> as_int32 og j
  else if key_matches "workspaceId" key then (fun v => Build_zoektArtifact og v rp br rv ch ij dir pre sh out er) <$> as_string ws j
  else if key_matches "repoId" key then (fun v => Build_zoektArtifact og ws v br rv ch ij dir pre sh out er) <$> as_int32 rp j
  else if key_matches "branch" key then (fun v => Build_zoektArtifact og ws rp v rv ch ij dir pre sh out er) <$> as_string br j
  else if key_matches "revision" key then (fun v => Build_zoektArtifact og ws rp br v ch ij dir pre sh out er) <$> as_string rv j
  else if key_matches "commitHash" key then (fun v => Build_zoektArtifact og ws rp br rv v ij dir pre sh out er) <$> as_string ch j
  else if key_matches "indexJobId" key then (fun v => Build_zoektArtifact og ws rp br rv ch v dir pre sh out er) <$> as_string ij j
  else if key_matches "indexDir" key then (fun v => Build_zoektArtifact og ws rp br rv ch ij v pre sh out er) <$> as_string dir j
  else if key_matches "shardPrefix" key then (fun v => Build_zoektArtifact og ws rp br rv ch ij dir v sh out er) <$> as_string pre j
  else if key_matches "shards" key then
    (fun v => Build_zoektArtifact og ws rp br rv ch ij dir pre v out er) <$> as_slice zero_shard (as_struct set_shard_field) sh j
  else if key_matches "stdout" key then (fun v => Build_zoektArtifact og ws rp br rv ch ij dir pre sh v er) <$> as_string out j
  else if key_matches "stderr" key then (fun v => Build_zoektArtifact og ws rp br rv ch ij dir pre sh out v) <$> as_string er j
  else Some a.

(** ** Checks *)

Definition validatePublishedArtifactScope (d : Disk) (root : string) (p : Payload) (raw : string) : result gerror unit :=
  match pl_WorkspaceID p with
  | None => Err (EText "zoektartifact: payload workspaceId and branch are required for artifact scope")
  | Some ws =>
      if blank ws || blank (pl_Branch p)
      then Err (EText "zoektartifact: payload workspaceId and branch are required for artifact scope")
      else
        let? abs0 := Abs d raw in
        let abs1 := Clean abs0 in
        let abs := match EvalSymlinks d abs1 with Ok resolved => Clean resolved | Err _ => abs1 end in
        let? rel := Rel root abs in
        if escapes rel then Err (EText ("zoektartifact: artifact " +:+ abs +:+ " escapes root " +:+ root))
        else
          let parts := SplitByte "/" rel in
          if (length parts <? 5)%nat
          then Err (EText ("zoektartifact: artifact " +:+ abs +:+ " does not include org/repo/workspace/branch/commit scope"))
          else if parts_in_scope p ws parts then Ok tt
          else Err (EText ("zoektartifact: artifact " +:+ abs +:+ " is outside payload scope"))
  end.

Definition validateArtifactScope (p : Payload) (a : zoektArtifact) : result gerror unit :=
  match pl_WorkspaceID p with
  | None => Err (EText "zoektartifact: workspaceId is required")
  | Some ws =>
      if negb (za_OrgID a =? pl_OrgID p) || negb (za_WorkspaceID a =s ws) || negb (za_RepoID a =? pl_RepoID p)
         || negb (za_Branch a =s pl_Branch p) || negb (za_Revision a =s pl_Revision p)
         || negb (za_CommitHash a =s pl_CommitHash p) || negb (za_IndexJobID a =s pl_RepoIndexingJobID p)
      then Err (EText ("zoektartifact: artifact scope mismatch for subjob " +:+ pl_SubjobID p))
      else
        let wantPrefix := ShardPrefix (pl_OrgID p) (pl_RepoID p) in
        if negb (za_ShardPrefix a =s wantPrefix) && negb (HasPrefix (za_ShardPrefix a) (wantPrefix +:+ "_"))
        then Err (EText ("zoektartifact: shardPrefix mismatch: got " +:+ quoted (za_ShardPrefix a) +:+ " want "
                         +:+ quoted wantPrefix +:+ " or " +:+ quoted (wantPrefix +:+ "_") +:+ "-prefixed branch shard"))
        else match za_Shards a with
             | [] => Err (EText "zoektartifact: no Zoekt shard files were recorded")
             | _ => Ok tt
             end
  end.

(** A read that fails is the file's or the context's. *)
Definition sha256File (d : Disk) (path : string) : result gerror string :=
  match Lstat d path with
  | Err e => Err (EWrap "zoektartifact: lstat shard: " e "")
  | Ok info =>
      if is_symlink info then Err (EText ("zoektartifact: shard " +:+ path +:+ " is a symlink"))
      else if negb (is_regular info) then Err (EText ("zoektartifact: shard " +:+ path +:+ " is not a regular file"))
      else match Open d path with
           | Err e => Err (EWrap "zoektartifact: open shard: " e "")
           | Ok f => match dk_fault d "read" path with
                     | Some e => Err (EWrap "zoektartifact: hash shard: " e "")
                     | None => match node_content "read" path f with
                               | Err e => Err (EWrap "zoektartifact: hash shard: " e "")
                               | Ok content => Ok (sha256_hex content)
                               end
                     end
           end
  end.

Definition validate_shard (d : Disk) (expectedDirAbs shardPrefix : string) (shard : zoektShardArtifact)
  : result gerror unit :=
  if blank (zs_Path shard) then Err (EText "zoektartifact: shard path is required")
  else
    let? pathAbs0 := with_prefix "zoektartifact: resolve shard path: " (Abs d (zs_Path shard)) in
    let pathAbs := Clean pathAbs0 in
    let? rel := with_prefix "zoektartifact: shard relative path: " (Rel expectedDirAbs pathAbs) in
    if escapes rel || Contains rel "/"
    then Err (EText ("zoektartifact: shard " +:+ pathAbs +:+ " escapes expected index dir " +:+ expectedDirAbs))
    else
      let name := path_Base pathAbs in
      if negb (HasPrefix name shardPrefix) || negb (HasSuffix name ".zoekt")
      then Err (EText ("zoektartifact: shard " +:+ name +:+ " does not match prefix " +:+ quoted shardPrefix +:+ " and .zoekt suffix"))
      else
        let? info := with_prefix ("zoektartifact: stat shard " +:+ pathAbs +:+ ": ") (Lstat d pathAbs) in
        if is_symlink info || negb (is_regular info)
        then Err (EText ("zoektartifact: shard " +:+ pathAbs +:+ " is not a regular file"))
        else if (0 <? zs_SizeBytes shard) && negb (zs_SizeBytes shard =? node_size info)
        then Err (EText ("zoektartifact: shard " +:+ pathAbs +:+ " size mismatch: got " +:+ Itoa (node_size info)
                         +:+ " want " +:+ Itoa (zs_SizeBytes shard)))
        else
          let? gotSHA := sha256File d pathAbs in
          if gotSHA =s normalizeSHA256 (zs_SHA256 shard) then Ok tt
          else Err (EText ("zoektartifact: shard " +:+ pathAbs +:+ " SHA-256 mismatch")).

Fixpoint validate_shards (d : Disk) (expectedDirAbs shardPrefix : string) (shards : list zoektShardArtifact)
  : result gerror unit :=
  match shards with
  | [] => Ok tt
  | shard :: rest =>
      let? _ := validate_shard d expectedDirAbs shardPrefix shard in validate_shards d expectedDirAbs shardPrefix rest
  end.

Definition index_dir (s : Store) (p : Payload) : string :=
  ZoektIndexPath (st_pathsCfg s) 
    {| rp_OrgID := pl_OrgID p; rp_RepoID := pl_RepoID p; rp_CloneURL := ""; rp_CodeHostType := "" |}.

Definition validateShardSet (d : Disk) (s : Store) (p : Payload) (a : zoektArtifact) : result gerror unit :=
  let? expected0 := with_prefix "zoektartifact: resolve expected index dir: " (Abs d (index_dir s p)) in
  let expectedDirAbs := Clean expected0 in
  let? artifactDirAbs := with_prefix "zoektartifact: resolve artifact index dir: " (Abs d (za_IndexDir a)) in
  if negb (Clean artifactDirAbs =s expectedDirAbs)
  then Err (EText ("zoektartifact: indexDir mismatch: got " +:+ Clean artifactDirAbs +:+ " want " +:+ expectedDirAbs))
  else validate_shards d expectedDirAbs (za_ShardPrefix a) (za_Shards a).

(** ** The manifest *)

Definition zoektDeltaFallbackLogged (output : string) : bool :=
  Contains output "delta build: falling back to normal build".

Definition line_feed : string := String (ascii_of_nat 10) "".

Definition rewrite_strategy (now : Z) (m : Manifest) : Manifest :=
  {| mf_id := mf_id m; mf_indexJobId := mf_indexJobId m; mf_orgId := mf_orgId m; mf_repoId := mf_repoId m;
     mf_workspaceId := mf_workspaceId m; mf_providerConnectionId := mf_providerConnectionId m;
     mf_branch := mf_branch m; mf_commitHash := mf_commitHash m; mf_status := mf_status m;
     mf_fileCount := mf_fileCount m; mf_addedFileCount := mf_addedFileCount m;
     mf_changedFileCount := mf_changedFileCount m; mf_deletedFileCount := mf_deletedFileCount m;
     mf_unchangedFileCount := mf_unchangedFileCount m; mf_zoektStrategy := Some "FULL_REPO_REWRITE";
     mf_scipStrategy := mf_scipStrategy m; mf_graphStrategy := mf_graphStrategy m;
     mf_semanticStrategy := mf_semanticStrategy m; mf_activatedAt := mf_activatedAt m;
     mf_supersededAt := mf_supersededAt m; mf_failedAt := mf_failedAt m;
     mf_errorMessage := mf_errorMessage m; mf_createdAt := mf_createdAt m; mf_updatedAt := now |}.

Definition delta_manifest (p : Payload) (m : Manifest) : bool :=
  match pl_WorkspaceID p with
  | Some ws => pending_of p ws m && bool_decide (mf_zoektStrategy m = Some "DELTA_FILES")
  | None => false
  end.

Definition reconcileManifestStrategy (p : Payload) (a : zoektArtifact) : prog unit :=
  if negb (zoektDeltaFallbackLogged (za_Stdout a +:+ line_feed +:+ za_Stderr a)) then pret tt
  else pwrap "zoektartifact: reconcile delta fallback: " (pstmt (fun ce w =>
         update_manifests (delta_manifest p) (rewrite_strategy (ce_now ce)) w)).

(** ** [Ingest] *)

Definition validateLiveSubjobLease (p : Payload) (r : Result) (leaseOwner attemptID : string) : prog unit :=
  PCall unit (fun ce w =>
    let '(db', a) := zoekt_validateLiveSubjobLease (ce_fault ce 0%nat) (ce_now ce) p (res_ArtifactPath r)
                       (res_ArtifactSHA256 r) leaseOwner attemptID (cw_db w) in
    (with_db (fun _ => db') w, a)) PRet.

Definition request_error (p : Payload) (r : Result) (leaseOwner attemptID : string) : option gerror :=
  match Validate p with
  | Some e => Some (EWrap "zoektartifact: payload: " e "")
  | None =>
      if negb (pl_Layer p =s LayerZoekt) then Some (EText ("zoektartifact: unsupported artifact layer " +:+ pl_Layer p))
      else if negb (bool_decide (pl_Language p = None)) || negb (bool_decide (pl_ProjectRoot p = None))
              || negb (bool_decide (pl_Indexer p = None))
      then Some (EText "zoektartifact: ZOEKT payload must not carry SCIP language/project/indexer scope")
      else if blank leaseOwner || blank attemptID
      then Some (EText "zoektartifact: leaseOwner and attemptID are required")
      else if blank (res_ArtifactPath r) then Some (EText "zoektartifact: artifactPath is required")
      else None
  end.

(** [os.ReadFile], with a read that may fail. *)
Definition read_artifact (d : Disk) (path : string) : result gerror string :=
  match dk_fault d "read" path with
  | Some e => Err (PathError "read" path e)
  | None => ReadFile d path
  end.

(** [got] is compared after [want] was found to be a digest. *)
Definition load_artifact (d : Disk) (s : Store) (p : Payload) (r : Result) : result gerror zoektArtifact :=
  let? raw := with_prefix "zoektartifact: read artifact: " (read_artifact d (res_ArtifactPath r)) in
  let? _ := validateArtifactSHA "zoektartifact" raw (res_ArtifactSHA256 r) in
  let? a := with_prefix "zoektartifact: decode artifact: " (decode_struct set_artifact_field zero_artifact raw) in
  let? _ := validateArtifactScope p a in
  let? _ := validateShardSet d s p a in
  Ok a.

Definition Ingest (d : Disk) (s : Store) (p : Payload) (r : Result) (leaseOwner attemptID : string) : prog unit :=
  if negb (st_db s) then perr (EText "zoektartifact: store is not configured")
  else match request_error p r leaseOwner attemptID with
       | Some e => perr e
       | None =>
           prog! _ := plift (validatePublishedArtifactScope d (st_artifactRoot s) p (res_ArtifactPath r)) in
           prog! _ := validateLiveSubjobLease p r leaseOwner attemptID in
           prog! a := plift (load_artifact d s p r) in
           reconcileManifestStrategy p a
       end.
End Zoekt.

Module Router.
(** What a store offers the router. *)
Definition Ingestor : Type := Payload -> Result -> string -> string -> prog unit.

Definition Router : Type := gmap string Ingestor.

(** A route whose store is nil is left out. *)
Definition NewRouter (routes : gmap string (option Ingestor)) : Router := omap id routes.

Definition Ingest (r : option Router) (p : Payload) (result : Result) (leaseOwner attemptID : string) : prog unit :=
  let routes := default ∅ r in
  if bool_decide (routes = ∅) then perr (EText "indexartifacts: no artifact routes configured")
  else match routes !! pl_Layer p with
       | None => perr (EText ("indexartifacts: unsupported artifact layer " +:+ pl_Layer p))
       | Some ingest => ingest p result leaseOwner attemptID
       end.
End Router.
