(* ===== verification/ScipStore.v ===== *)
(** The store of SCIP artifacts, src/internal/backend/scipartifact/store.go: one
    transaction that replaces the rows of one language, project and indexer of a
    revision by the rows of the artifact and brings the index row up to date.

    Rows of symbols, occurrences and relationships are kept without their ids. *)
From Stdlib Require Import Ascii.
From S2P Require Import Prelude GoStd GoStdFacts GoJSON GoText SubjobTypes SubjobStore SubjobTask Executor RepoPaths.
From S2P Require Import GraphSchema CoreDB Disk ScipRows ArtifactScope ArtifactStores.
Definition ErrUnsupportedLayer : gerror := ESentinel "scipartifact: unsupported artifact layer".

(** The decoder of the protocol buffer is part of the store. *)
Record Store : Type := {
  st_db : bool; st_paths : RepoPaths.Config; st_artifactRoot : string;
  st_unmarshal : string -> result gerror Index
}.

Definition NewStore (d : Disk) (db : bool) (paths : RepoPaths.Config) (unmarshal : string -> result gerror Index)
    (artifactRoot : string) : result gerror Store :=
  let? resolvedRoot := resolveArtifactRoot "scipartifact" d artifactRoot in
  Ok {| st_db := db; st_paths := paths; st_artifactRoot := resolvedRoot; st_unmarshal := unmarshal |}.

Definition validateLiveSubjobLeasePrecheck : Payload -> Result -> string -> string -> prog unit :=
  lease_precheck "SCIP" scip_validateLiveSubjobLease.

Definition validateSemanticRows (rows : Rows) (artifactPath : string) : result gerror unit :=
  match Symbols rows, Occurrences rows, Relationships rows with
  | [], [], [] => Err (EText ("scipartifact: artifact " +:+ artifactPath
                    +:+ " has no semantic rows: 0 symbols, 0 occurrences, 0 relationships"))
  | _, _, _ => Ok tt
  end.

Definition commandFromPayload (p : Payload) : option string :=
  match pl_Indexer p, pl_ProjectRoot p with
  | Some indexer, Some projectRoot =>
      let root := TrimSpace projectRoot in
      Some (TrimSpace indexer +:+ if root =s "" then "" else " --project-root " +:+ root)
  | _, _ => None
  end.

Definition metadataInt32 (values : gmap string string) (key : string) : option Z :=
  let raw := TrimSpace (default "" (values !! key)) in
  if raw =s "" then None
  else match ParseInt64 raw with
       | Some n => if (- 2 ^ 31 <=? n) && (n <? 2 ^ 31) then Some n else None
       | None => None
       end.

(** [chunkSymbols], [chunkOccurrences] and [chunkRelationships] *)
Definition chunk_rows {A} (rows : list A) (size : Z) : list (list A) :=
  chunks (length rows) (Z.to_nat (if size <=? 0 then 1 else size)) rows.

Fixpoint tx_for {A} (l : list A) (f : A -> TX unit) : TX unit :=
  match l with
  | [] => tx_ret tt
  | x :: l' => tx! _ := f x in tx_for l' f
  end.

(** ** The index row *)

Definition duplicate_key : gerror := EText "duplicate key value violates unique constraint".

(** The unique key (orgId, repoId, workspaceId, branch, revision, commitHash, kind). *)
Definition same_index (p : Payload) (ws : string) (x : CodeIntelIndex) : bool :=
  (cii_orgId (cix_key x) =? pl_OrgID p) && (cii_repoId (cix_key x) =? pl_RepoID p) && (cix_workspaceId x =s ws)
  && (cix_branch x =s pl_Branch p) && (cii_revision (cix_key x) =s pl_Revision p)
  && (cii_commitHash (cix_key x) =s pl_CommitHash p) && (cix_kind x =s "SCIP").

Definition new_index (id : string) (p : Payload) (ws artifactRoot : string) (now : Z) : CodeIntelIndex :=
  {| cix_key := {| cii_id := id; cii_orgId := pl_OrgID p; cii_repoId := pl_RepoID p;
                   cii_revision := pl_Revision p; cii_commitHash := pl_CommitHash p |};
     cix_workspaceId := ws; cix_branch := pl_Branch p; cix_kind := "SCIP"; cix_status := "INDEXING";
     cix_artifactRoot := Some artifactRoot; cix_languageCount := 0; cix_symbolCount := 0;
     cix_occurrenceCount := 0; cix_relationshipCount := 0; cix_errorMessage := None; cix_indexedAt := None;
     cix_updatedAt := now |}.

Definition reopen_index (artifactRoot : string) (now : Z) (x : CodeIntelIndex) : CodeIntelIndex :=
  let ready := cix_status x =s "READY" in
  {| cix_key := cix_key x; cix_workspaceId := cix_workspaceId x; cix_branch := cix_branch x;
     cix_kind := cix_kind x; cix_status := if ready then "INDEXING" else cix_status x;
     cix_artifactRoot := Some artifactRoot; cix_languageCount := cix_languageCount x;
     cix_symbolCount := cix_symbolCount x; cix_occurrenceCount := cix_occurrenceCount x;
     cix_relationshipCount := cix_relationshipCount x; cix_errorMessage := None;
     cix_indexedAt := if ready then None else cix_indexedAt x; cix_updatedAt := now |}.

Definition upsertCodeIntelIndex (id artifactRoot : string) (p : Payload) (ws : string) (now : Z) (w : CoreWorld)
  : result gerror (CoreWorld * string) :=
  match List.find (same_index p ws) (db_indexes (cw_db w)) with
  | Some x =>
      Ok (with_db (set_indexes (map (fun y => if same_index p ws y then reopen_index artifactRoot now y else y))) w,
          cii_id (cix_key x))
  | None =>
      if existsb (fun x => cii_id (cix_key x) =s id) (db_indexes (cw_db w)) then Err duplicate_key
      else Ok (with_db (set_indexes (fun l => l ++ [new_index id p ws artifactRoot now])) w, id)
  end.

(** ** The rows of a language *)

Definition with_scip (fl : gmap string LanguageIndex -> gmap string LanguageIndex)
    (fs : list SymbolRow -> list SymbolRow) (fr : list RelationshipRow -> list RelationshipRow)
    (fo : list OccurrenceRow -> list OccurrenceRow) (r : CoreRest) : CoreRest :=
  {| cr_orgs := cr_orgs r; cr_graphs := cr_graphs r; cr_revisions := cr_revisions r;
     cr_languages := fl (cr_languages r); cr_symbols := fs (cr_symbols r);
     cr_relationships := fr (cr_relationships r); cr_occurrences := fo (cr_occurrences r);
     cr_facts := cr_facts r; cr_edges := cr_edges r; cr_anchors := cr_anchors r;
     cr_graphlog := cr_graphlog r |}.

Definition with_languages f := with_scip f id id id.
Definition with_symbols f := with_scip id f id id.
Definition with_relationships f := with_scip id id f id.
Definition with_occurrences f := with_scip id id id f.

(** The SCIP subjobs of the payload's job and revision. *)
Definition scip_subjobs (p : Payload) (ws : string) (db : DB) : list Subjob :=
  List.filter (fun r =>
      let s := sj_scope r in
      (sc_repoIndexingJobId s =s pl_RepoIndexingJobID p) && (sc_orgId s =? pl_OrgID p)
      && (sc_workspaceId s =s ws) && (sc_repoId s =? pl_RepoID p) && (sc_branch s =s pl_Branch p)
      && (sc_revision s =s pl_Revision p) && (sc_commitHash s =s pl_CommitHash p) && (sc_layer s =s LayerSCIP))
    (map snd (map_to_list (db_subjobs db))).

Definition subjob_of_language (li : LanguageIndex) (r : Subjob) : bool :=
  let s := sj_scope r in
  (coalesce "" (sc_language s) =s li_language li) && (coalesce "" (sc_projectRoot s) =s li_projectRoot li)
  && (coalesce "" (sc_indexer s) =s li_indexer li).

(** A language of the index for which the job has no subjob. *)
Definition stale_language (p : Payload) (ws indexID : string) (db : DB) (li : LanguageIndex) : bool :=
  (li_codeIntelIndexId li =s indexID) && negb (existsb (subjob_of_language li) (scip_subjobs p ws db)).

(** [USING stale WHERE "codeIntelLanguageIndexId" = stale.id] *)
Definition stale_child (p : Payload) (ws indexID : string) (w : CoreWorld) (languageId : option string) : bool :=
  match languageId with
  | Some l => match cr_languages (cw_rest w) !! l with
              | Some li => stale_language p ws indexID (cw_db w) li
              | None => false
              end
  | None => false
  end.

Definition deleteStaleLanguageIndexes (ce : CallEnv) (indexID : string) (p : Payload) (ws : string) : TX unit :=
  let label := "delete stale language indexes: " in
  tx! _ := tx_stmt ce label (fun w => Ok (with_rest (with_relationships (List.filter (fun r =>
             negb (stale_child p ws indexID w (rl_codeIntelLanguageIndexId r))))) w, tt)) in
  tx! _ := tx_stmt ce label (fun w => Ok (with_rest (with_occurrences (List.filter (fun r =>
             negb (stale_child p ws indexID w (oc_codeIntelLanguageIndexId r))))) w, tt)) in
  tx! _ := tx_stmt ce label (fun w => Ok (with_rest (with_symbols (List.filter (fun r =>
             negb (stale_child p ws indexID w (sy_codeIntelLanguageIndexId r))))) w, tt)) in
  tx_stmt ce label (fun w => Ok (with_rest (with_languages (base.filter (fun kv =>
             stale_language p ws indexID (cw_db w) kv.2 = false))) w, tt)).

Definition same_language (indexID language projectRoot indexer : string) (li : LanguageIndex) : bool :=
  (li_codeIntelIndexId li =s indexID) && (li_language li =s language) && (li_projectRoot li =s projectRoot)
  && (li_indexer li =s indexer).

(** The row of the language, being indexed. *)
Definition language_row (indexID language projectRoot indexer : string) (p : Payload) (r : Result) (now : Z)
  : LanguageIndex :=
  {| li_codeIntelIndexId := indexID; li_language := language; li_projectRoot := projectRoot; li_indexer := indexer;
     li_workerClass := Some (pl_WorkerClass p); li_status := "INDEXING"; li_artifactPath := Some (res_ArtifactPath r);
     li_command := commandFromPayload p; li_durationMs := metadataInt32 (res_Metadata r) "durationMs";
     li_errorMessage := None; li_updatedAt := now |}.

(** An old row keeps its id and its key; all other columns of the model are set. *)
Definition upsertLanguageIndex (id indexID language projectRoot indexer : string) (p : Payload) (r : Result) (now : Z)
    (w : CoreWorld) : result gerror (CoreWorld * string) :=
  let row := language_row indexID language projectRoot indexer p r now in
  match List.find (fun kv => same_language indexID language projectRoot indexer kv.2)
          (map_to_list (cr_languages (cw_rest w))) with
  | Some (lid, _) => Ok (with_rest (with_languages (<[lid := row]>)) w, lid)
  | None =>
      match cr_languages (cw_rest w) !! id with
      | Some _ => Err duplicate_key
      | None => Ok (with_rest (with_languages (<[id := row]>)) w, id)
      end
  end.

Definition deleteLanguageRows (ce : CallEnv) (languageIndexID : string) : TX unit :=
  let label := "delete previous language rows: " in
  let other (l : option string) := negb (bool_decide (l = Some languageIndexID)) in
  tx! _ := tx_stmt ce label (fun w => Ok (with_rest (with_relationships (List.filter (fun r =>
             other (rl_codeIntelLanguageIndexId r)))) w, tt)) in
  tx! _ := tx_stmt ce label (fun w => Ok (with_rest (with_occurrences (List.filter (fun r =>
             other (oc_codeIntelLanguageIndexId r)))) w, tt)) in
  tx_stmt ce label (fun w => Ok (with_rest (with_symbols (List.filter (fun r =>
             other (sy_codeIntelLanguageIndexId r)))) w, tt)).

(** ** Inserts *)

Definition symbol_row (p : Payload) (indexID languageIndexID : string) (s : ScipSymbolRow) : SymbolRow :=
  {| sy_symbol := ss_Symbol s; sy_displayName := ss_DisplayName s; sy_kind := ss_Kind s; sy_language := ss_Language s;
     sy_documentation := ss_Documentation s; sy_signature := ss_Signature s; sy_filePath := ss_FilePath s;
     sy_startLine := StartLine <$> ss_Range s; sy_startCharacter := StartCharacter <$> ss_Range s;
     sy_endLine := EndLine <$> ss_Range s; sy_endCharacter := EndCharacter <$> ss_Range s;
     sy_enclosingSymbol := ss_EnclosingSymbol s; sy_orgId := pl_OrgID p; sy_repoId := pl_RepoID p;
     sy_codeIntelIndexId := indexID; sy_codeIntelLanguageIndexId := Some languageIndexID |}.

Definition scip_occurrence_row (p : Payload) (indexID languageIndexID : string) (o : ScipOccurrenceRow) : OccurrenceRow :=
  {| oc_symbol := sc_Symbol o; oc_filePath := sc_FilePath o; oc_startLine := StartLine (sc_Range o);
     oc_startCharacter := StartCharacter (sc_Range o); oc_endLine := EndLine (sc_Range o);
     oc_endCharacter := EndCharacter (sc_Range o); oc_role := sc_Role o; oc_language := sc_Language o;
     oc_syntaxKind := sc_SyntaxKind o; oc_lineContent := sc_LineContent o; oc_enclosingSymbol := sc_EnclosingSymbol o;
     oc_orgId := pl_OrgID p; oc_repoId := pl_RepoID p; oc_codeIntelIndexId := indexID;
     oc_codeIntelLanguageIndexId := Some languageIndexID |}.

Definition scip_relationship_row (p : Payload) (indexID languageIndexID : string) (r : ScipRelationshipRow)
  : RelationshipRow :=
  {| rl_sourceSymbol := sr_SourceSymbol r; rl_targetSymbol := sr_TargetSymbol r; rl_isReference := sr_IsReference r;
     rl_isImplementation := sr_IsImplementation r; rl_isTypeDefinition := sr_IsTypeDefinition r;
     rl_isDefinition := sr_IsDefinition r; rl_orgId := pl_OrgID p; rl_repoId := pl_RepoID p;
     rl_codeIntelIndexId := indexID; rl_codeIntelLanguageIndexId := Some languageIndexID |}.

(** ON CONFLICT DO NOTHING: [same] compares the columns of the key. *)
Definition insert_new {A} (same : A -> A -> bool) (table rows : list A) : list A :=
  foldl (fun t r => if existsb (same r) t then t else t ++ [r]) table rows.

Definition symbol_key_eq (a b : SymbolRow) : bool :=
  (sy_codeIntelIndexId a =s sy_codeIntelIndexId b) && (sy_symbol a =s sy_symbol b).

Definition relationship_key_eq (a b : RelationshipRow) : bool :=
  (rl_codeIntelIndexId a =s rl_codeIntelIndexId b) && (rl_sourceSymbol a =s rl_sourceSymbol b)
  && (rl_targetSymbol a =s rl_targetSymbol b) && Bool.eqb (rl_isReference a) (rl_isReference b)
  && Bool.eqb (rl_isImplementation a) (rl_isImplementation b)
  && Bool.eqb (rl_isTypeDefinition a) (rl_isTypeDefinition b) && Bool.eqb (rl_isDefinition a) (rl_isDefinition b).

Definition bulkInsertSymbols (ce : CallEnv) (p : Payload) (indexID languageIndexID : string) (rows : list ScipSymbolRow)
  : TX unit :=
  tx_for (chunk_rows rows (60000 / 17)) (fun chunk => tx_stmt ce "insert CodeIntelSymbol: " (fun w =>
    Ok (with_rest (with_symbols (fun t =>
          insert_new symbol_key_eq t (map (symbol_row p indexID languageIndexID) chunk))) w, tt))).

Definition bulkInsertOccurrences (ce : CallEnv) (p : Payload) (indexID languageIndexID : string)
    (rows : list ScipOccurrenceRow) : TX unit :=
  tx_for (chunk_rows rows (60000 / 16)) (fun chunk => tx_stmt ce "insert CodeIntelOccurrence: " (fun w =>
    Ok (with_rest (with_occurrences (fun t => t ++ map (scip_occurrence_row p indexID languageIndexID) chunk)) w, tt))).

Definition bulkInsertRelationships (ce : CallEnv) (p : Payload) (indexID languageIndexID : string)
    (rows : list ScipRelationshipRow) : TX unit :=
  tx_for (chunk_rows rows (60000 / 11)) (fun chunk => tx_stmt ce "insert CodeIntelRelationship: " (fun w =>
    Ok (with_rest (with_relationships (fun t =>
          insert_new relationship_key_eq t (map (scip_relationship_row p indexID languageIndexID) chunk))) w, tt))).

(** ** Status and counts *)

Definition ready_language (now : Z) (li : LanguageIndex) : LanguageIndex :=
  {| li_codeIntelIndexId := li_codeIntelIndexId li; li_language := li_language li; li_projectRoot := li_projectRoot li;
     li_indexer := li_indexer li; li_workerClass := li_workerClass li; li_status := "READY";
     li_artifactPath := li_artifactPath li; li_command := li_command li; li_durationMs := li_durationMs li;
     li_errorMessage := None; li_updatedAt := now |}.

Definition markLanguageReady (ce : CallEnv) (languageIndexID : string) : TX unit :=
  tx_stmt ce "mark CodeIntelLanguageIndex READY: " (fun w =>
    Ok (with_rest (with_languages (alter (ready_language (ce_now ce)) languageIndexID)) w, tt)).

Definition languages_of (indexID : string) (w : CoreWorld) : list LanguageIndex :=
  List.filter (fun li => li_codeIntelIndexId li =s indexID) (map snd (map_to_list (cr_languages (cw_rest w)))).

Definition has_status (status : string) (li : LanguageIndex) : bool := li_status li =s status.

(** [::int] *)
Definition sql_int (n : nat) : result gerror Z :=
  if Z.of_nat n <? 2 ^ 31 then Ok (Z.of_nat n) else Err (EText "integer out of range").

Record Counts : Type := {
  ct_language : Z; ct_symbol : Z; ct_occurrence : Z; ct_relationship : Z;
  ct_has_failed_subjob : bool; ct_has_skipped_subjob : bool; ct_has_unready : bool; ct_has_ready : bool;
  ct_has_failed : bool
}.

Definition scip_counts (indexID : string) (p : Payload) (ws : string) (w : CoreWorld) : result gerror Counts :=
  let languages := languages_of indexID w in
  let ready := List.filter (has_status "READY") languages in
  let subjobs := scip_subjobs p ws (cw_db w) in
  let? languageCount := sql_int (length (remove_dups (map li_language ready))) in
  let? symbolCount := sql_int (length (List.filter (fun s => sy_codeIntelIndexId s =s indexID) (cr_symbols (cw_rest w)))) in
  let? occurrenceCount :=
    sql_int (length (List.filter (fun o => oc_codeIntelIndexId o =s indexID) (cr_occurrences (cw_rest w)))) in
  let? relationshipCount :=
    sql_int (length (List.filter (fun r => rl_codeIntelIndexId r =s indexID) (cr_relationships (cw_rest w)))) in
  Ok {| ct_language := languageCount; ct_symbol := symbolCount; ct_occurrence := occurrenceCount;
        ct_relationship := relationshipCount;
        ct_has_failed_subjob := existsb (fun r => bool_decide (sj_status r = StatusFailed)) subjobs;
        ct_has_skipped_subjob := existsb (fun r => bool_decide (sj_status r = StatusSkipped)) subjobs;
        ct_has_unready := existsb (fun r => negb (bool_decide (sj_status r = StatusSkipped))
                                            && negb (existsb (fun li => subjob_of_language li r) ready)) subjobs;
        ct_has_ready := existsb (has_status "READY") languages;
        ct_has_failed := existsb (has_status "FAILED") languages |}.

Definition refreshed_status (c : Counts) (old : string) : string :=
  if (ct_has_failed c || ct_has_failed_subjob c || ct_has_skipped_subjob c) && ct_has_ready c then "PARTIAL"
  else if ct_has_unready c then "INDEXING"
  else if ct_has_ready c then "READY"
  else old.

Definition refresh_index (c : Counts) (now : Z) (x : CodeIntelIndex) : CodeIntelIndex :=
  let complete := negb (ct_has_unready c) && ct_has_ready c in
  {| cix_key := cix_key x; cix_workspaceId := cix_workspaceId x; cix_branch := cix_branch x;
     cix_kind := cix_kind x; cix_status := refreshed_status c (cix_status x);
     cix_artifactRoot := cix_artifactRoot x; cix_languageCount := ct_language c; cix_symbolCount := ct_symbol c;
     cix_occurrenceCount := ct_occurrence c; cix_relationshipCount := ct_relationship c;
     cix_errorMessage := if complete then None else cix_errorMessage x;
     cix_indexedAt := if complete then Some (coalesce now (cix_indexedAt x)) else cix_indexedAt x;
     cix_updatedAt := now |}.

Definition refreshCodeIntelIndexCounts (ce : CallEnv) (indexID : string) (p : Payload) (ws : string) : TX unit :=
  tx_stmt ce "refresh CodeIntelIndex counts: " (fun w =>
    let? c := scip_counts indexID p ws w in
    Ok (with_db (set_indexes (map (fun x =>
          if cii_id (cix_key x) =s indexID then refresh_index c (ce_now ce) x else x))) w, tt)).

(** ** [Ingest] *)

Definition ingest_body (s : Store) (p : Payload) (ws language projectRoot indexer : string) (r : Result)
    (leaseOwner attemptID : string) (rows : Rows) (ce : CallEnv) : TX unit :=
  let now := ce_now ce in
  tx! _ := tx_mark ce "begin SCIP artifact ingest: " in
  tx! _ := lease_tx scip_validateLiveSubjobLease ce p r leaseOwner attemptID in
  tx! indexID := tx_stmt ce "upsert CodeIntelIndex: " (upsertCodeIntelIndex (ce_id ce 0) (st_artifactRoot s) p ws now) in
  tx! _ := deleteStaleLanguageIndexes ce indexID p ws in
  tx! languageIndexID := tx_stmt ce "upsert CodeIntelLanguageIndex: "
                           (upsertLanguageIndex (ce_id ce 1) indexID language projectRoot indexer p r now) in
  tx! _ := deleteLanguageRows ce languageIndexID in
  tx! _ := bulkInsertSymbols ce p indexID languageIndexID (Symbols rows) in
  tx! _ := bulkInsertOccurrences ce p indexID languageIndexID (Occurrences rows) in
  tx! _ := bulkInsertRelationships ce p indexID languageIndexID (Relationships rows) in
  tx! _ := markLanguageReady ce languageIndexID in
  tx! _ := refreshCodeIntelIndexCounts ce indexID p ws in
  tx_mark ce "commit SCIP artifact ingest: ".

(** What [Ingest] refuses before it asks the database, or the scope of the project. *)
Definition request_scope (p : Payload) (r : Result) (leaseOwner attemptID : string)
  : result gerror (string * string * string) :=
  match Validate p with
  | Some e => Err (EWrap "scipartifact: payload: " e "")
  | None =>
      if blank leaseOwner || blank attemptID then Err (EText "scipartifact: leaseOwner and attemptID are required")
      else if negb (pl_Layer p =s LayerSCIP) then Err ErrUnsupportedLayer
      else if blank (coalesce "" (pl_Language p)) then Err (EText "scipartifact: SCIP language is required")
      else match pl_ProjectRoot p with
           | None => Err (EText "scipartifact: SCIP projectRoot is required")
           | Some projectRoot =>
               if blank (coalesce "" (pl_Indexer p)) then Err (EText "scipartifact: SCIP indexer is required")
               else if blank (res_ArtifactPath r) then Err (EText "scipartifact: artifactPath is required")
               else Ok (coalesce "" (pl_Language p), projectRoot, coalesce "" (pl_Indexer p))
           end
  end.

Section Ingest.
Context `{sorter : SliceSort} (d : Disk) (s : Store) (p : Payload) (r : Result).

(** The file checked, read and turned into rows. *)
Definition load_rows (language projectRoot : string) : result gerror Rows :=
  let? _ := validatePublishedArtifactScope "scipartifact" d (st_artifactRoot s) p (res_ArtifactPath r) in
  let? raw := with_prefix "read SCIP artifact: " (readArtifactFile "SCIP" d (res_ArtifactPath r)) in
  let? _ := validateArtifactSHA "scipartifact" raw (res_ArtifactSHA256 r) in
  let worktree := RevisionSnapshotPath (st_paths s) (pl_OrgID p) (pl_RepoID p) (pl_CommitHash p) in
  let? rows := with_prefix "parse SCIP artifact: "
                 (RowsFromArtifactBytes (st_unmarshal s) d raw language projectRoot worktree) in
  let? _ := validateSemanticRows rows (res_ArtifactPath r) in
  Ok rows.

Definition Ingest (leaseOwner attemptID : string) : prog unit :=
  if negb (st_db s) then perr (EText "scipartifact: store is not configured")
  else
    prog! (language, projectRoot, indexer) := plift (request_scope p r leaseOwner attemptID) in
    prog! _ := validateLiveSubjobLeasePrecheck p r leaseOwner attemptID in
    prog! rows := plift (load_rows language projectRoot) in
    prog! ws := pderef (pl_WorkspaceID p) in
    ptx (ingest_body s p ws language projectRoot indexer r leaseOwner attemptID rows).
End Ingest.
