(* ===== verification/CoreFacts.v ===== *)
(** Reasoning about programs: the law of sequencing, relations every call keeps,
    absence of panics; the effect of the core worker on the subjob table, and of a
    merge on the snapshots. *)
From Stdlib Require Import Ascii.
From S2P Require Import Prelude GoStd GoStdFacts GoJSON GoText SubjobTypes SubjobStore SubjobTask SubjobCodec.
From S2P Require Import SubjobSystem SubjobInvariants SubjobFacts ManifestDelta Executor ExecutorFacts Scheduler.
From S2P Require Import GraphSchema GraphStore ScipProjection RepoIndexDB RepoJobs CoreDB IndexCore CoreActivate.
Lemma with_rest_id w : with_rest id w = w.
Proof. by destruct w. Qed.

(** ** Sequencing *)

Lemma run_then {A B} env n (m : prog A) (k : result gerror A -> prog B) w :
  run env n (pthen m k) w
  = match run env n m w with
    | (n', w', Done r) => run env n' (k r) w'
    | (n', w', Panicked) => (n', w', Panicked)
    end.
Proof.
  revert n w. induction m as [r| |C f c IH]; intros n w; simpl; [done|done|].
  destruct (do_call (env n) f w) as [w' r]. apply IH.
Qed.

Lemma run_bind {A B} env n (m : prog A) (k : A -> prog B) w :
  run env n (pbind m k) w
  = match run env n m w with
    | (n', w', Done (Ok a)) => run env n' (k a) w'
    | (n', w', Done (Err e)) => (n', w', Done (Err e))
    | (n', w', Panicked) => (n', w', Panicked)
    end.
Proof. unfold pbind. rewrite run_then. by destruct (run env n m w) as [[n' w'] [[a|e]|]]. Qed.

Lemma run_wrap {A} env n pre (m : prog A) w :
  run env n (pwrap pre m) w
  = match run env n m w with
    | (n', w', Done (Err e)) => (n', w', Done (Err (EWrap pre e "")))
    | o => o
    end.
Proof. unfold pwrap. rewrite run_then. by destruct (run env n m w) as [[n' w'] [[a|e]|]]. Qed.

Lemma run_stmt {A} env n (stmt : CallEnv -> CoreWorld -> result gerror (CoreWorld * A)) w :
  run env n (pstmt stmt) w
  = (S n, (do_call (env n) (stmt_call stmt) w).1, Done (do_call (env n) (stmt_call stmt) w).2).
Proof. unfold pstmt. simpl. by destruct (do_call _ _ _). Qed.

Lemma run_tx {A} env n (body : CallEnv -> TX A) w :
  run env n (ptx body) w
  = (S n, (do_call (env n) (tx_call body) w).1, Done (do_call (env n) (tx_call body) w).2).
Proof. unfold ptx. simpl. by destruct (do_call _ _ _). Qed.

(** ** What every call of a program satisfies *)

Section Calls.
(** [R w w']: a call started in [w] and ended in [w']. *)
Context (R : CoreWorld -> CoreWorld -> Prop) `{!PreOrder R}.

Fixpoint calls {A} (m : prog A) : Prop :=
  match m with
  | PRet _ => True
  | PPanic => True
  | PCall B f k => (forall ce w, R w (f ce w).1) /\ forall r, calls (k r)
  end.

Lemma calls_then {A B} (m : prog A) (k : result gerror A -> prog B) :
  calls m -> (forall r, calls (k r)) -> calls (pthen m k).
Proof. induction m as [r| |C f c IH]; simpl; [done|done|]. intros [Hf Hc] Hk. split; auto. Qed.

Lemma calls_bind {A B} (m : prog A) (k : A -> prog B) :
  calls m -> (forall a, calls (k a)) -> calls (pbind m k).
Proof. intros Hm Hk. apply calls_then; [done|]. by intros []. Qed.

Lemma calls_wrap {A} pre (m : prog A) : calls m -> calls (pwrap pre m).
Proof. intros Hm. apply calls_then; [done|]. by intros []. Qed.

Lemma calls_for {A} (l : list A) f : (forall x, calls (f x)) -> calls (pfor l f).
Proof. intros Hf. induction l; simpl; [done|]. by apply calls_bind. Qed.

Lemma calls_deref {A} (o : option A) : calls (pderef o).
Proof. by destruct o. Qed.

Lemma calls_stmt {A} (stmt : CallEnv -> CoreWorld -> result gerror (CoreWorld * A)) :
  (forall ce w w' a, stmt ce w = Ok (w', a) -> R w w') -> calls (pstmt stmt).
Proof.
  intros Hs. split; [|done]. intros ce w. unfold stmt_call. destruct (ce_fault ce 0%nat).
  - simpl. reflexivity.
  - destruct (stmt ce w) as [[w' a]|e] eqn:E; simpl; [by eapply Hs|reflexivity].
Qed.

Lemma calls_call {A} (f : CallEnv -> CoreWorld -> CoreWorld * result gerror A) :
  (forall ce w, R w (f ce w).1) -> calls (PCall A f PRet).
Proof. intros Hf. by split. Qed.

(** A transaction keeps what each of its statements keeps. *)
Definition tx_keeps {A} (m : TX A) : Prop :=
  forall n w n' w' r, m (n, w) = ((n', w'), r) -> R w w'.

Lemma tx_keeps_bind {A B} (m : TX A) (k : A -> TX B) :
  tx_keeps m -> (forall a, tx_keeps (k a)) -> tx_keeps (tx_bind m k).
Proof.
  intros Hm Hk n w n' w' r. unfold tx_bind. destruct (m (n, w)) as [[n1 w1] [a|e]] eqn:E.
  - intros H. etrans; [by eapply Hm|by eapply Hk].
  - intros [= <- <- _]. by eapply Hm.
Qed.

Lemma tx_keeps_err {A} e : tx_keeps (tx_err (A := A) e).
Proof. intros n w n' w' r [= <- <- _]. reflexivity. Qed.

Lemma tx_keeps_stmt {A} ce pre (stmt : CoreWorld -> result gerror (CoreWorld * A)) :
  (forall w w' a, stmt w = Ok (w', a) -> R w w') -> tx_keeps (tx_stmt ce pre stmt).
Proof.
  intros Hs n w n' w' r. unfold tx_stmt. destruct (ce_fault ce n); [by intros [= <- <- _]|].
  destruct (stmt w) as [[w1 a]|e] eqn:E; intros [= <- <- _]; [by eapply Hs|reflexivity].
Qed.

Lemma calls_tx {A} (body : CallEnv -> TX A) : (forall ce, tx_keeps (body ce)) -> calls (ptx body).
Proof.
  intros Hb. split; [|done]. intros ce w. unfold tx_call.
  destruct (body ce (0%nat, w)) as [[n' w'] [a|e]] eqn:E; simpl; [by eapply Hb|reflexivity].
Qed.

(** Run by itself, a program keeps what its calls and the other clients keep. *)
Lemma run_calls_keep {A} env n (m : prog A) w n' w' o :
  (forall i w, R w (with_rest (ce_others (env i)) w)) -> calls m ->
  run env n m w = (n', w', o) -> R w w'.
Proof.
  intros Ho. revert n w. induction m as [r| |B f c IH]; intros n w Hm; simpl.
  - by intros [= _ <- _].
  - by intros [= _ <- _].
  - destruct Hm as [Hf Hc]. unfold do_call. pose proof (Hf (env n) (with_rest (ce_others (env n)) w)) as H1.
    destruct (f (env n) _) as [w1 r]. intros H. etrans; [apply (Ho n)|]. etrans; [exact H1|].
    by eapply (IH r (S n) w1 (Hc r)).
Qed.
End Calls.

Lemma calls_impl (R R' : CoreWorld -> CoreWorld -> Prop) {A} (m : prog A) :
  (forall w w', R w w' -> R' w w') -> calls R m -> calls R' m.
Proof. intros Hi. induction m as [r| |B f c IH]; simpl; [done|done|]. intros [Hf Hc]. split; auto. Qed.

Create HintDb calls.
#[export] Hint Resolve calls_bind calls_wrap calls_for calls_deref tx_keeps_bind tx_keeps_err : calls.

(** ** Panics *)

(** No answer of the calls leads to a panic. *)
Fixpoint no_panic {A} (m : prog A) : Prop :=
  match m with
  | PRet _ => True
  | PPanic => False
  | PCall B f k => forall r, no_panic (k r)
  end.

Lemma no_panic_then {A B} (m : prog A) (k : result gerror A -> prog B) :
  no_panic m -> (forall r, no_panic (k r)) -> no_panic (pthen m k).
Proof. induction m as [r| |C f c IH]; simpl; auto. Qed.

Lemma no_panic_bind {A B} (m : prog A) (k : A -> prog B) :
  no_panic m -> (forall a, no_panic (k a)) -> no_panic (pbind m k).
Proof. intros Hm Hk. apply no_panic_then; [done|]. by intros []. Qed.

Lemma no_panic_wrap {A} pre (m : prog A) : no_panic m -> no_panic (pwrap pre m).
Proof. intros Hm. apply no_panic_then; [done|]. by intros []. Qed.

Lemma no_panic_for {A} (l : list A) f : (forall x, no_panic (f x)) -> no_panic (pfor l f).
Proof. intros Hf. induction l; simpl; [done|]. by apply no_panic_bind. Qed.

#[export] Hint Resolve no_panic_bind no_panic_wrap no_panic_for : calls.

Lemma run_no_panic {A} env n (m : prog A) w : no_panic m -> exists n' w' r, run env n m w = (n', w', Done r).
Proof.
  revert n w. induction m as [r| |B f c IH]; intros n w Hm; simpl; [eauto|done|].
  destruct (do_call _ _ _) as [w' r]. apply IH, Hm.
Qed.

(** ** The subjob table *)

(** The statements of the core worker leave the subjob rows and the dispatch lock
    alone. *)
Definition subjobs_kept (w w' : CoreWorld) : Prop :=
  db_subjobs (cw_db w') = db_subjobs (cw_db w) /\ db_lock (cw_db w') = db_lock (cw_db w).

#[global] Instance subjobs_kept_preorder : PreOrder subjobs_kept.
Proof. split; [done|]. intros a b c [? ?] [? ?]. split; by etrans. Qed.

(** Relations on [DB] alone, kept by every statement on the other tables. *)
Definition db_same (w w' : CoreWorld) : Prop := cw_db w' = cw_db w.

#[global] Instance db_same_preorder : PreOrder db_same.
Proof. split; [done|]. intros a b c H1 H2. unfold db_same in *. congruence. Qed.

Lemma db_same_kept w w' : db_same w w' -> subjobs_kept w w'.
Proof. unfold db_same. intros E. split; by rewrite E. Qed.

(** A statement that changes nothing, or only tables outside [DB]. *)
Ltac same_db :=
  intros; repeat match goal with
  | H : context [match ?x with _ => _ end] |- _ => destruct x eqn:?; try discriminate H
  end; simplify_eq; try done.

Lemma calls_query R `{!PreOrder R} {A} h label (rows : CoreWorld -> A) : calls R (dbQuery h label rows).
Proof.
  unfold dbQuery. destruct (negb _); [done|]. apply calls_call. intros ce w.
  destruct (ce_fault ce 0%nat); [simpl; reflexivity|].
  destruct (ce_fault ce 1%nat); simpl; reflexivity.
Qed.

Lemma calls_read R `{!PreOrder R} {A} pre (read : CoreWorld -> result gerror A) :
  calls R (pwrap pre (pstmt (fun _ w => match read w with Ok a => Ok (w, a) | Err e => Err e end))).
Proof. apply calls_wrap, calls_stmt; [apply _|]. intros ce w w' a. destruct (read w); intros [= <- _]. reflexivity. Qed.

Lemma calls_resolve R `{!PreOrder R} p ws : calls R (resolvePartialGraphIndex p ws).
Proof.
  apply calls_wrap, calls_stmt; [apply _|]. intros ce w w' a. destruct (head _); intros [= <- _]. reflexivity.
Qed.

Lemma calls_already R `{!PreOrder R} p ws : calls R (graphSnapshotAlreadyReady p ws).
Proof. apply calls_wrap, calls_stmt; [apply _|]. intros ce w w' a [= <- _]. reflexivity. Qed.

Lemma calls_load R `{!PreOrder R} h p : calls R (loadSCIPProjectionRows h p).
Proof.
  unfold loadSCIPProjectionRows. apply calls_bind; [apply calls_deref|]. intros ws.
  repeat (apply calls_bind; [by apply calls_query|]; intros). done.
Qed.

#[export] Hint Resolve calls_resolve calls_already calls_load : calls.

Lemma upsert_graph_db id row merge w w' a : upsert_graph id row merge w = Ok (w', a) -> db_same w w'.
Proof. unfold upsert_graph. same_db. Qed.

Lemma insert_facts_db gid rows w w' a : insert_facts gid rows w = Ok (w', a) -> db_same w w'.
Proof. unfold insert_facts. destruct (negb _); [done|]. destruct (negb _); [done|].
  destruct (upsert_rows _ _ _ _ _); [|done]. by intros [= <- _]. Qed.

Lemma insert_edges_db b gid rows w w' a : insert_edges b gid rows w = Ok (w', a) -> db_same w w'.
Proof. unfold insert_edges. destruct (negb _); [done|]. destruct (negb _); [done|].
  destruct (upsert_rows _ _ _ _ _); [|done]. by intros [= <- _]. Qed.

Lemma calls_facts gid p vs : calls db_same (insertSCIPSemanticFacts gid p vs).
Proof.
  apply calls_for. intros batch. destruct batch; [done|].
  apply calls_wrap, calls_stmt; [apply _|]. intros ce w w' a. apply insert_facts_db.
Qed.

Lemma calls_edges gid p es : calls db_same (insertSCIPSemanticEdges gid p es).
Proof.
  apply calls_for. intros batch. destruct batch; [done|].
  apply calls_wrap, calls_stmt; [apply _|]. intros ce w w' a. apply insert_edges_db.
Qed.

Lemma calls_graph graph input : calls db_same (graph_call graph input).
Proof.
  apply calls_call. intros ce w. by destruct (graph input _).
Qed.

Lemma calls_chunk h graph p s : calls db_same (writeSCIPSnapshotChunkToGraph h graph p s).
Proof.
  unfold writeSCIPSnapshotChunkToGraph. destruct (empty_snapshot s); [done|].
  apply calls_bind; [apply calls_graph|]. intros [res [e|]]; [done|]. by destruct (wr_Status res).
Qed.

Lemma calls_project_rows h gid p rows : calls db_same (projectSCIPSemanticGraphRows h gid p rows).
Proof.
  unfold projectSCIPSemanticGraphRows. destruct (pl_WorkspaceID p); [|done].
  destruct (no_rows rows); [done|]. destruct (_ <? _)%nat; [done|].
  unfold store_snapshot. destruct (empty_snapshot _); [done|]. apply calls_bind.
  - destruct (ch_graph h); [|done]. unfold writeSCIPSnapshotToGraph.
    apply calls_bind; intros; apply calls_for; intros; apply calls_chunk.
  - intros _. apply calls_bind; [apply calls_facts|]. intros _. apply calls_edges.
Qed.

Lemma promote_stmt_db p ws now w w' a : promote_stmt p ws now w = Ok (w', a) -> db_same w w'.
Proof. unfold promote_stmt. destruct (head _) as [[]|]; [|by intros [= <- _]]. destruct (merge_unblocked _ _ _); by intros [= <- _]. Qed.

Lemma calls_promote p ws : calls db_same (promote p ws).
Proof.
  unfold promote. apply calls_bind.
  - apply calls_wrap, calls_stmt; [apply _|]. intros ce w w' a. apply promote_stmt_db.
  - intros []; [done|]. apply calls_bind; [by apply calls_already; apply _|]. by intros [].
Qed.

Lemma calls_create p : calls db_same (createPartialGraphIndexForSCIPOnly p).
Proof.
  unfold createPartialGraphIndexForSCIPOnly. destruct (pl_WorkspaceID p); [|done].
  apply calls_wrap, calls_stmt; [apply _|]. intros ce w w' a. cbn zeta.
  destruct (upsert_graph _ _ _ w) as [[w1 r]|] eqn:E; [|done]. cbn [rbind]. intros [= <- _].
  by eapply upsert_graph_db.
Qed.

Lemma calls_merge h p : calls db_same (mergeGraph h p).
Proof.
  unfold mergeGraph. apply calls_bind; [apply calls_deref|]. intros ws.
  apply calls_then; [apply calls_resolve; apply _|]. intros [gid|e].
  - apply calls_bind; [|intros; apply calls_promote].
    unfold projectSCIPSemanticGraph. destruct (pl_WorkspaceID p); [|done].
    apply calls_bind; [apply calls_load; apply _|]. apply calls_project_rows.
  - destruct (negb _); [done|]. apply calls_bind; [apply calls_load; apply _|]. intros rows.
    destruct (no_rows rows); [done|]. apply calls_bind; [apply calls_create|]. intros gid.
    apply calls_bind; [apply calls_project_rows|]. intros _. apply calls_promote.
Qed.

(** ** The activation keeps the subjob table *)

Lemma update_manifests_kept guard f w w' a : update_manifests guard f w = Ok (w', a) -> subjobs_kept w w'.
Proof. by intros [= <- _]. Qed.

Lemma upsert_revision_db id row w w' a : upsert_revision id row w = Ok (w', a) -> db_same w w'.
Proof. unfold upsert_revision. cbn zeta. same_db. Qed.

Lemma record_indexed_kept h p ws now w w' a : record_indexed h p ws now w = Ok (w', a) -> subjobs_kept w w'.
Proof.
  unfold record_indexed. destruct (db_repos _ !! _) as [r|]; [|by intros [= <- _]].
  destruct (_ =? _); [|by intros [= <- _]]. cbn zeta.
  destruct (jsonb_array_elements_text _ _); [|done]. cbn [rbind].
  destruct (jsonb_set _ _ _); [|done]. cbn [rbind]. by intros [= <- _].
Qed.

Lemma activate_body_kept h p ws ce : tx_keeps subjobs_kept (activate_body h p ws ce).
Proof.
  unfold activate_body. cbn zeta.
  assert (Hread : forall A pre (f : CoreWorld -> result gerror (CoreWorld * A)),
    (forall w w' a, f w = Ok (w', a) -> w' = w) -> tx_keeps subjobs_kept (tx_stmt ce pre f)).
  { intros A pre f Hf. apply tx_keeps_stmt; [apply _|]. by intros w w' a ->%Hf. }
  repeat (apply tx_keeps_bind; [apply _|apply Hread; unfold lock_repo, pending_manifest, ready_graph,
    blocked_count; same_db|intros ?]).
  destruct (negb _); [apply tx_keeps_err; apply _|].
  apply tx_keeps_bind; [apply _|apply tx_keeps_stmt; [apply _|]; intros w w' u; apply update_manifests_kept|intros _].
  apply tx_keeps_bind; [apply _|apply tx_keeps_stmt; [apply _|]; intros w w' u; unfold supersede_stale; destruct (current_createdAt _ _ _ _ _);
    [apply update_manifests_kept|by intros [= <- _]]|intros _].
  apply tx_keeps_bind; [apply _|apply tx_keeps_stmt; [apply _|]; intros w w' u; apply update_manifests_kept|intros _].
  apply tx_keeps_bind; [apply _|apply tx_keeps_stmt; [apply _|]; intros w w' u H; by eapply db_same_kept, upsert_revision_db|intros _].
  apply tx_keeps_bind; [apply _|apply tx_keeps_stmt; [apply _|]; apply record_indexed_kept|intros _].
  apply Hread. same_db.
Qed.

Lemma calls_execute h p : calls subjobs_kept (execute h p).
Proof.
  unfold execute. destruct (_ =s _).
  { eapply calls_impl; [apply db_same_kept|apply calls_merge]. }
  destruct (_ =s _); [|done]. unfold activate. apply calls_bind; [apply calls_deref|]. intros ws.
  apply calls_tx; [apply _|]. apply activate_body_kept.
Qed.

Lemma calls_complete p : calls subjobs_kept (completeJobIfReady p).
Proof.
  unfold completeJobIfReady. apply calls_bind; [|intros _];
    (apply calls_wrap, calls_stmt; [apply _|]); intros ce w w' a [= <- _]; split; simpl;
    unfold complete_stmt, refresh_stmt; by repeat case_match.
Qed.


(** What a merge does to the graph snapshots: a READY snapshot stays READY, and a
    merge that reports success leaves a READY snapshot of its revision with nothing
    below it unfinished, unless there was no evidence to merge at all. *)
(** ** Rows of a query on graph snapshots *)

Lemma graphs_where_elem f w id g :
  (id, g) ∈ graphs_where f w <-> cr_graphs (cw_rest w) !! id = Some g /\ f g = true.
Proof.
  unfold graphs_where. rewrite list_elem_of_In, filter_In, <- list_elem_of_In, elem_of_map_to_list. done.
Qed.

Lemma graphs_where_head f lt w kv :
  head (sort_stable lt (graphs_where f w)) = Some kv ->
  cr_graphs (cw_rest w) !! kv.1 = Some kv.2 /\ f kv.2 = true.
Proof.
  intros H. apply graphs_where_elem. rewrite <- surjective_pairing.
  rewrite <- (sort_stable_perm lt (graphs_where f w)).
  destruct (sort_stable lt _) as [|x l]; [done|]. injection H as <-. apply list_elem_of_here.
Qed.

(** ** READY snapshots *)

(** A READY snapshot stays, under its key. *)
Definition ready_kept (w w' : CoreWorld) : Prop :=
  forall id g, cr_graphs (cw_rest w) !! id = Some g -> gx_status g = "READY" ->
    exists g', cr_graphs (cw_rest w') !! id = Some g' /\ gx_status g' = "READY" /\
      graph_key g' = graph_key g.

#[global] Instance ready_kept_preorder : PreOrder ready_kept.
Proof.
  split; [by intros w id g Hg Hs; eauto|]. intros a b c H1 H2 id g Hg Hs.
  destruct (H1 id g Hg Hs) as (g1 & Hg1 & Hs1 & Hk1). destruct (H2 id g1 Hg1 Hs1) as (g2 & ? & ? & Hk2).
  exists g2. by rewrite Hk2.
Qed.

Lemma ready_kept_same w w' : cr_graphs (cw_rest w') = cr_graphs (cw_rest w) -> ready_kept w w'.
Proof. intros E id g. rewrite E. eauto. Qed.

(** One row is written: a fresh one, or one that keeps its key and does not lose
    READY. *)
Lemma ready_kept_insert id g w :
  (forall old, cr_graphs (cw_rest w) !! id = Some old -> gx_status old = "READY" ->
     gx_status g = "READY" /\ graph_key g = graph_key old) ->
  ready_kept w (with_rest (with_graphs (<[id := g]>)) w).
Proof.
  intros H i x Hx Hs. simpl. destruct (decide (i = id)) as [->|Hne].
  - rewrite lookup_insert_eq. destruct (H x Hx Hs). eauto.
  - rewrite lookup_insert_ne by done. eauto.
Qed.

Lemma upsert_graph_ready id row merge w w' a :
  (forall g, gx_status g = "READY" -> gx_status (merge g) = "READY" /\ graph_key (merge g) = graph_key g) ->
  upsert_graph id row merge w = Ok (w', a) -> ready_kept w w'.
Proof.
  intros Hm. unfold upsert_graph. destruct (head _) as [[old_id old]|] eqn:E.
  - intros [= <- _]. apply ready_kept_insert. intros g Hg Hs.
    assert (Hin : (old_id, old) ∈ graphs_where (fun g => bool_decide (graph_key g = graph_key row)) w).
    { destruct (graphs_where _ w); [done|]. injection E as ->. apply list_elem_of_here. }
    apply graphs_where_elem in Hin as [Hold _]. simplify_eq. by apply Hm.
  - destruct (negb _); [done|]. destruct (bool_decide _) eqn:Ed; [done|]. intros [= <- _].
    apply bool_decide_eq_false in Ed. apply ready_kept_insert. intros g Hg. destruct Ed. congruence.
Qed.

Lemma promote_ready p ws now w w' a : promote_stmt p ws now w = Ok (w', a) -> ready_kept w w'.
Proof.
  unfold promote_stmt. destruct (head _) as [[id g]|] eqn:E; [|by intros [= <- _]].
  destruct (merge_unblocked _ _ _); [|by intros [= <- _]]. intros [= <- _].
  apply graphs_where_head in E as [Hg _]. simpl in Hg. apply ready_kept_insert.
  intros old Hold Hs. by simplify_eq.
Qed.

Lemma insert_facts_graphs gid rows w w' a : insert_facts gid rows w = Ok (w', a) -> ready_kept w w'.
Proof.
  intros H. apply ready_kept_same. revert H. unfold insert_facts. do 2 (destruct (negb _); [done|]).
  destruct (upsert_rows _ _ _ _ _); [|done]. by intros [= <- _].
Qed.

Lemma insert_edges_graphs b gid rows w w' a : insert_edges b gid rows w = Ok (w', a) -> ready_kept w w'.
Proof.
  intros H. apply ready_kept_same. revert H. unfold insert_edges. do 2 (destruct (negb _); [done|]).
  destruct (upsert_rows _ _ _ _ _); [|done]. by intros [= <- _].
Qed.

Lemma calls_project_ready h gid p rows : calls ready_kept (projectSCIPSemanticGraphRows h gid p rows).
Proof.
  unfold projectSCIPSemanticGraphRows. destruct (pl_WorkspaceID p) as [ws|]; [|done].
  destruct (no_rows rows); [done|]. destruct (_ <? _)%nat; [done|].
  unfold store_snapshot. destruct (empty_snapshot _); [done|]. apply calls_bind.
  - destruct (ch_graph h) as [graph|]; [|done]. unfold writeSCIPSnapshotToGraph.
    assert (Hc : forall s, calls ready_kept (writeSCIPSnapshotChunkToGraph h graph p s)).
    { intros s. unfold writeSCIPSnapshotChunkToGraph. destruct (empty_snapshot s); [done|].
      apply calls_bind; [|intros [res [e|]]; [done|]; by destruct (wr_Status res)].
      apply calls_call. intros ce w. destruct (graph _ _). by apply ready_kept_same. }
    apply calls_bind; intros; apply calls_for; intros; apply Hc.
  - intros _. apply calls_bind; [|intros _]; apply calls_for; intros [|x batch]; try done;
      (apply calls_wrap, calls_stmt; [apply _|]); intros ce w w' a;
      [apply insert_facts_graphs|apply insert_edges_graphs].
Qed.

Lemma calls_create_ready p : calls ready_kept (createPartialGraphIndexForSCIPOnly p).
Proof.
  unfold createPartialGraphIndexForSCIPOnly. destruct (pl_WorkspaceID p); [|done].
  apply calls_wrap, calls_stmt; [apply _|]. intros ce w w' a. cbn zeta.
  destruct (upsert_graph _ _ _ w) as [[w1 r]|] eqn:E; [|done]. cbn [rbind]. intros [= <- _].
  eapply upsert_graph_ready; [|exact E]. intros g Hg. unfold scip_only_merge. simpl. by rewrite Hg.
Qed.

Lemma calls_promote_ready p ws : calls ready_kept (promote p ws).
Proof.
  unfold promote. apply calls_bind.
  - apply calls_wrap, calls_stmt; [apply _|]. intros ce w w' a. apply promote_ready.
  - intros []; [done|]. apply calls_bind; [by apply calls_already; apply _|]. by intros [].
Qed.

Lemma calls_merge_ready h p : calls ready_kept (mergeGraph h p).
Proof.
  unfold mergeGraph. apply calls_bind; [apply calls_deref|]. intros ws.
  apply calls_then; [apply calls_resolve; apply _|]. intros [gid|e].
  - apply calls_bind; [|intros; apply calls_promote_ready].
    unfold projectSCIPSemanticGraph. destruct (pl_WorkspaceID p); [|done].
    apply calls_bind; [apply calls_load; apply _|]. apply calls_project_ready.
  - destruct (negb _); [done|]. apply calls_bind; [apply calls_load; apply _|]. intros rows.
    destruct (no_rows rows); [done|]. apply calls_bind; [apply calls_create_ready|]. intros gid.
    apply calls_bind; [apply calls_project_ready|]. intros _. apply calls_promote_ready.
Qed.

(** ** What success means *)

(** A READY snapshot of the revision, and no AST or SCIP subjob below unfinished. *)
Definition merged (p : Payload) (ws : string) (w : CoreWorld) : Prop :=
  (exists id g, cr_graphs (cw_rest w) !! id = Some g /\ graph_in_scope p ws g = true /\
     gx_status g = "READY") /\
  merge_unblocked p ws (cw_db w) = true.

Lemma promote_Ok p ws env n w n' w' u :
  run env n (promote p ws) w = (n', w', Done (Ok u)) -> merged p ws w'.
Proof.
  unfold promote. rewrite run_bind, run_wrap, run_stmt.
  unfold do_call, stmt_call. set (w0 := with_rest _ w).
  destruct (ce_fault (env n) 0); [done|].
  destruct (promote_stmt p ws (ce_now (env n)) w0) as [[w1 b]|e] eqn:E; [|done]. cbn [fst snd].
  destruct b.
  - intros [= _ <- _]. revert E. unfold promote_stmt. destruct (head _) as [[id g]|] eqn:Eh; [|done].
    destruct (merge_unblocked p ws (cw_db w0)) eqn:Eu; [|done]. intros [= <-].
    apply graphs_where_head in Eh as [Hg [Hs _]%andb_true_iff]. split; [|done].
    exists id, (set_graph_status "READY" (Some (ce_now (env n))) (ce_now (env n)) g). simpl.
    by rewrite lookup_insert_eq.
  - rewrite run_bind. unfold graphSnapshotAlreadyReady. rewrite run_wrap, run_stmt.
    unfold do_call, stmt_call. set (w2 := with_rest _ w1). destruct (ce_fault (env (S n)) 0); [done|]. cbn [fst snd].
    destruct (bool_decide _ && merge_unblocked p ws (cw_db w2)) eqn:Eb; [|done]. intros [= _ <- _].
    apply andb_true_iff in Eb as [Eb Eu]. split; [|done]. apply bool_decide_eq_true in Eb.
    destruct (graphs_where _ w2) as [|[id g] l] eqn:Eg; [done|].
    assert (Hin : (id, g) ∈ graphs_where (fun g => graph_in_scope p ws g && (gx_status g =s "READY")) w2)
      by (rewrite Eg; apply list_elem_of_here).
    apply graphs_where_elem in Hin as [Hg [Hs Hr%str_eqb_spec]%andb_true_iff]. eauto.
Qed.

(** The SCIP rows of the revision. *)
Definition scip_rows (h : CoreHandler) (p : Payload) (ws : string) (w : CoreWorld) : ProjectionRows :=
  (symbol_rows p ws w, relationship_rows p ws w,
   occurrence_rows p ws (scipOccurrenceCap (ch_getenv h)) (scipFileCap (ch_getenv h)) w).

Section Alone.
Context (env : nat -> CallEnv) (alone : forall i, ce_others (env i) = id).

Lemma query_Ok {A} h label (rows : CoreWorld -> A) n w n' w' a :
  run env n (dbQuery h label rows) w = (n', w', Done (Ok a)) -> w' = w /\ a = rows w.
Proof.
  unfold dbQuery. destruct (negb _); [done|]. simpl. unfold do_call. rewrite alone, with_rest_id.
  destruct (ce_fault _ _); [done|]. destruct (ce_fault _ _); [done|]. by intros [= _ <- <-].
Qed.

Lemma load_Ok h p ws n w n' w' rows :
  pl_WorkspaceID p = Some ws ->
  run env n (loadSCIPProjectionRows h p) w = (n', w', Done (Ok rows)) ->
  w' = w /\ rows = scip_rows h p ws w.
Proof.
  intros Hws. unfold loadSCIPProjectionRows. rewrite Hws, !run_bind. cbn [pderef pret run].
  rewrite run_bind. destruct (run _ _ (dbQuery _ _ (symbol_rows _ _)) _) as [[n1 w1] [[s|]|]] eqn:E1; [|done..].
  rewrite run_bind. destruct (run _ _ (dbQuery _ _ (relationship_rows _ _)) _) as [[n2 w2] [[r|]|]] eqn:E2; [|done..].
  rewrite run_bind. destruct (run _ _ (dbQuery _ _ (occurrence_rows _ _ _ _)) _) as [[n3 w3] [[o|]|]] eqn:E3; [|done..].
  apply query_Ok in E1 as [-> ->], E2 as [-> ->], E3 as [-> ->]. simpl. by intros [= _ <- <-].
Qed.

Lemma resolve_Err p ws n w n' w' e :
  run env n (resolvePartialGraphIndex p ws) w = (n', w', Done (Err e)) ->
  w' = w /\ (err_is (err_text ErrNoRows) e = true -> (forall i, ce_fault (env i) 0%nat = None) ->
    graphs_where (fun g => graph_in_scope p ws g && bool_decide (gx_status g ∈ ["PARTIAL"; "READY"])) w = []).
Proof.
  unfold resolvePartialGraphIndex. rewrite run_wrap, run_stmt. unfold do_call, stmt_call.
  rewrite alone, with_rest_id. destruct (ce_fault (env n) 0) eqn:Ef.
  { simpl. intros [= _ <- <-]. split; [done|]. intros _ H. by rewrite H in Ef. }
  destruct (head _) as [kv|] eqn:Eh; [done|]. intros [= _ <- <-]. split; [done|]. intros _ _.
  pose proof (sort_stable_perm merge_order (graphs_where (fun g => graph_in_scope p ws g
    && bool_decide (gx_status g ∈ ["PARTIAL"; "READY"])) w)) as Hp.
  destruct (sort_stable _ _); [by apply Permutation_nil in Hp|done].
Qed.
End Alone.

Lemma no_rows_nil rows : no_rows rows = true <-> rows = ([], [], []).
Proof. destruct rows as [[[] []] []]; simpl; split; intros H; congruence. Qed.

Lemma merge_eq h p ws : pl_WorkspaceID p = Some ws ->
  mergeGraph h p = pthen (resolvePartialGraphIndex p ws) (fun r => match r with
    | Ok gid => prog! _ := projectSCIPSemanticGraph h gid p in promote p ws
    | Err e => if negb (err_is (err_text ErrNoRows) e) then perr e
               else prog! rows := loadSCIPProjectionRows h p in
                    if no_rows rows then pret tt
                    else prog! gid := createPartialGraphIndexForSCIPOnly p in
                         prog! _ := projectSCIPSemanticGraphRows h gid p rows in promote p ws
    end).
Proof. intros Hws. unfold mergeGraph. by rewrite Hws. Qed.

Lemma run_bind_Ok {A B} env n (m : prog A) (k : A -> prog B) w n' w' b :
  run env n (pbind m k) w = (n', w', Done (Ok b)) ->
  exists n1 w1 a, run env n m w = (n1, w1, Done (Ok a)) /\ run env n1 (k a) w1 = (n', w', Done (Ok b)).
Proof. rewrite run_bind. destruct (run env n m w) as [[n1 w1] [[a|]|]]; [|done..]. eauto 6. Qed.

(** C14: the contract of a merge.  With any faults, and with other clients that do
    not take READY away from a snapshot, a merge never takes READY away from one
    either, whether it succeeds or fails, and changes none of the tables of jobs,
    subjobs, manifests and repositories.  When it succeeds, a READY snapshot of the
    message's revision exists and no AST or SCIP subjob of the revision still has
    to end; or, run alone, it found no snapshot and no SCIP row of the revision and
    changed nothing. *)
Theorem merge_contract h p ws env n w n' w' r :
  pl_WorkspaceID p = Some ws ->
  (forall i w, ready_kept w (with_rest (ce_others (env i)) w)) ->
  run env n (mergeGraph h p) w = (n', w', Done r) ->
  ready_kept w w' /\ cw_db w' = cw_db w /\
  (forall u, r = Ok u -> merged p ws w' \/
     ((forall i, ce_others (env i) = id /\ ce_fault (env i) 0%nat = None) ->
      w' = w /\ scip_rows h p ws w = ([], [], []) /\
      forall id g, cr_graphs (cw_rest w) !! id = Some g -> graph_in_scope p ws g = true ->
        gx_status g <> "PARTIAL" /\ gx_status g <> "READY")).
Proof.
  intros Hws Ho H. split; [by eapply (run_calls_keep ready_kept); [|apply calls_merge_ready|exact H]|].
  split; [by eapply (run_calls_keep db_same); [|apply calls_merge|exact H]|].
  intros u ->. rewrite (merge_eq h p ws Hws), run_then in H.
  destruct (run env n (resolvePartialGraphIndex p ws) w) as [[n1 w1] [[gid|e]|]] eqn:Er; [| |done].
  { left. apply run_bind_Ok in H as (n2 & w2 & a & _ & H). by apply promote_Ok in H. }
  destruct (negb _) eqn:En; [done|]. apply negb_false_iff in En.
  apply run_bind_Ok in H as (n2 & w2 & rows & Hl & H).
  destruct (no_rows rows) eqn:Enr; cycle 1.
  { left. apply run_bind_Ok in H as (n3 & w3 & gid & _ & H).
    apply run_bind_Ok in H as (n4 & w4 & a & _ & H). by apply promote_Ok in H. }
  right. intros Henv. assert (Hal : forall i, ce_others (env i) = id) by apply Henv.
  apply (resolve_Err env Hal) in Er as [-> Hg]. apply (load_Ok env Hal h p ws) in Hl as [-> ->]; [|done].
  injection H as _ <- _. split; [done|]. split; [by apply no_rows_nil|].
  specialize (Hg En (fun i => proj2 (Henv i))). intros id g Hid Hsc.
  assert (Hno : ~ gx_status g ∈ ["PARTIAL"; "READY"]).
  { intros Hin. assert (Hel : (id, g) ∈ ([] : list (string * CodeGraphIndex))); [|by apply not_elem_of_nil in Hel].
    rewrite <- Hg. apply graphs_where_elem. split; [done|]. rewrite Hsc. by apply bool_decide_eq_true. }
  split; intros E; apply Hno; rewrite E; set_solver.
Qed.
