(* ===== verification/CodeGraphWriterFacts.v ===== *)
(** What a write of a rendered graph does: nothing when it is refused; otherwise it
    touches one snapshot, the one of the payload's commit, and after success the
    rows of the snapshot are those of the statements. *)
From Stdlib Require Import Ascii.
From S2P Require Import Prelude GoStd GoStdFacts GoJSON GoText SubjobTypes SubjobStore SubjobTask SubjobCodec.
From S2P Require Import ManifestDelta Executor Scheduler GraphSchema GraphStore ScipProjection RepoIndexDB RepoJobs.
From S2P Require Import RepoTask CoreDB IndexCore CoreActivate CodeGraphWriter CoreFacts.
(** ** Upserts *)

Section Upsert.
Context {K R : Type} `{Countable K} (merge : R -> R -> R) (clash : K -> R -> K -> R -> bool).

(** A batch that is taken proposes each key once, and stores each row, merged with
    the one there was. *)
Lemma upsert_rows_Ok touched rows (m m' : gmap K R) :
  upsert_rows merge clash touched rows m = Ok m' ->
  NoDup (map fst rows) /\ (forall k, k ∈ map fst rows -> k ∉ touched) /\
  (forall k, k ∉ map fst rows -> m' !! k = m !! k) /\
  (forall k r, (k, r) ∈ rows ->
     m' !! k = Some (match m !! k with Some old => merge old r | None => r end)).
Proof.
  revert touched m. induction rows as [|[k r] rows IH]; intros touched m; simpl.
  { intros [= <-]. split; [constructor|]. split; [intros k Hk; by apply not_elem_of_nil in Hk|].
    split; [done|]. intros k r Hk. by apply not_elem_of_nil in Hk. }
  destruct (bool_decide (k ∈ touched)) eqn:Et; [done|]. apply bool_decide_eq_false in Et.
  destruct (existsb _ _); [done|]. intros Hu.
  destruct (IH _ _ Hu) as (Hnd & Hto & Hother & Hin).
  assert (Hk : k ∉ map fst rows) by (intros Hk; apply (Hto k Hk); left).
  split; [by constructor|]. split; [|split].
  - intros x [->|Hx]%elem_of_cons; [done|]. intros Hx'. apply (Hto x Hx). by right.
  - intros x Hx. apply not_elem_of_cons in Hx as [Hne Hx]. rewrite Hother by done. by rewrite lookup_insert_ne.
  - intros x y [[= -> ->]|Hx]%elem_of_cons.
    + rewrite Hother by done. by rewrite lookup_insert_eq.
    + rewrite (Hin x y Hx). rewrite lookup_insert_ne; [done|]. intros ->. apply Hk.
      apply list_elem_of_In, in_map_iff. exists (x, y). split; [done|by apply list_elem_of_In].
Qed.
End Upsert.

(** ** One snapshot only *)

(** The payload's snapshot, and what a write may put in the table of revisions. *)
Definition payload_key (p : GraphPayload) : Z * string * string * Z * string :=
  (gp_RepoID p, gp_WorkspaceID p, gp_CommitHash p, gp_SchemaVersion p, gp_BuilderVersion p).

Definition ready_manifest_for (p : GraphPayload) (db : DB) : bool :=
  existsb (fun x => payload_manifest p x && bool_decide (mf_status x = ManifestReady)) (db_manifests db).

Record revision_allowed (p : GraphPayload) (gid : string) (db : DB) (r : CodeGraphRevision) : Prop := {
  ra_manifest : ready_manifest_for p db = true;
  ra_key : revision_key r = (gp_RepoID p, gp_WorkspaceID p, gp_Revision p, gp_SchemaVersion p, gp_BuilderVersion p);
  ra_commit : gr_commitHash r = gp_CommitHash p;
  ra_graph : gr_codeGraphIndexId r = gid
}.

Section Only.
Context (p : GraphPayload) (gid : string).

(** Only the row [gid] of the snapshots and the rows under it may differ, the
    revision of the payload, and the log of the graph database. *)
Record only (w w' : CoreWorld) : Prop := {
  on_db : cw_db w' = cw_db w;
  on_orgs : cr_orgs (cw_rest w') = cr_orgs (cw_rest w);
  on_graphs : forall id, id <> gid -> cr_graphs (cw_rest w') !! id = cr_graphs (cw_rest w) !! id;
  on_facts : forall id dk, id <> gid -> cr_facts (cw_rest w') !! (id, dk) = cr_facts (cw_rest w) !! (id, dk);
  on_edges : forall id dk, id <> gid -> cr_edges (cw_rest w') !! (id, dk) = cr_edges (cw_rest w) !! (id, dk);
  on_anchors : forall k, k.1.1.1.1 <> gid -> cr_anchors (cw_rest w') !! k = cr_anchors (cw_rest w) !! k;
  on_symbols : cr_symbols (cw_rest w') = cr_symbols (cw_rest w);
  on_relationships : cr_relationships (cw_rest w') = cr_relationships (cw_rest w);
  on_occurrences : cr_occurrences (cw_rest w') = cr_occurrences (cw_rest w);
  on_revisions : forall id, cr_revisions (cw_rest w') !! id = cr_revisions (cw_rest w) !! id \/
    exists r, cr_revisions (cw_rest w') !! id = Some r /\ revision_allowed p gid (cw_db w) r
}.

#[global] Instance only_preorder : PreOrder only.
Proof.
  split; [split; auto|]. intros a b c [A1 A2 A3 A4 A5 A6 A7 A8 A9 A10] [B1 B2 B3 B4 B5 B6 B7 B8 B9 B10].
  split; [congruence|congruence|..|congruence|congruence|congruence|]; intros;
    [by rewrite B3, A3|by rewrite B4, A4|by rewrite B5, A5|by rewrite B6, A6|].
  destruct (B10 id) as [->|(r & Hr & Ha)]; [apply A10|]. right. exists r. by rewrite A1 in Ha.
Qed.

(** The statements on the rows of [gid]. *)

Lemma only_graphs f w : (forall m id, id <> gid -> f m !! id = m !! id) ->
  only w (with_rest (with_graphs f) w).
Proof. intros Hf. split; simpl; auto. Qed.

Lemma only_update guard f w w' a : update_graph gid p guard f w = Ok (w', a) -> only w w'.
Proof. intros [= <- _]. apply only_graphs. intros m id Hid. by rewrite lookup_alter_ne. Qed.

Lemma filter_other {K A} `{Countable K} (P : K * A -> Prop) `{!forall x, Decision (P x)} (m : gmap K A) k :
  (forall x, P (k, x)) -> base.filter P m !! k = m !! k.
Proof.
  intros Hp. destruct (m !! k) as [x|] eqn:E.
  - apply map_lookup_filter_Some. by split.
  - by apply map_lookup_filter_None_2; left.
Qed.

Lemma only_delete_facts w w' a : delete_facts gid p w = Ok (w', a) -> only w w'.
Proof.
  intros [= <- _]. split; simpl; auto. intros id dk Hid. apply filter_other. simpl. naive_solver.
Qed.

Lemma only_delete_edges w w' a : delete_edges gid p w = Ok (w', a) -> only w w'.
Proof.
  intros [= <- _]. split; simpl; auto. intros id dk Hid. apply filter_other. simpl. naive_solver.
Qed.

Lemma only_delete_anchors w w' a : delete_anchors gid p w = Ok (w', a) -> only w w'.
Proof.
  intros [= <- _]. split; simpl; auto. intros k Hk. apply filter_other. simpl. naive_solver.
Qed.

Lemma upsert_other {K R} `{Countable K} (merge : R -> R -> R) clash rows (m m' : gmap K R) (P : K -> Prop) k :
  upsert_rows merge clash [] rows m = Ok m' -> Forall P (map fst rows) -> ~ P k -> m' !! k = m !! k.
Proof.
  intros Hu Hp Hk. apply upsert_rows_Ok in Hu as (_ & _ & Hother & _). apply Hother. intros Hin.
  rewrite Forall_forall in Hp. by apply Hk, Hp.
Qed.

Lemma only_insert_facts rows w w' a : Forall (fun k => k.1 = gid) (map fst rows) ->
  insert_facts gid rows w = Ok (w', a) -> only w w'.
Proof.
  intros Hk. unfold insert_facts. do 2 (destruct (negb _); [done|]).
  destruct (upsert_rows _ _ _ _ _) as [m|] eqn:E; [|done]. intros [= <- _]. split; simpl; auto.
  intros id dk Hid. by eapply upsert_other.
Qed.

Lemma only_insert_edges b rows w w' a : Forall (fun k => k.1 = gid) (map fst rows) ->
  insert_edges b gid rows w = Ok (w', a) -> only w w'.
Proof.
  intros Hk. unfold insert_edges. do 2 (destruct (negb _); [done|]).
  destruct (upsert_rows _ _ _ _ _) as [m|] eqn:E; [|done]. intros [= <- _]. split; simpl; auto.
  intros id dk Hid. by eapply upsert_other.
Qed.

Lemma only_insert_anchors rows w w' a : Forall (fun k => k.1.1.1.1 = gid) (map fst rows) ->
  insert_anchors gid rows w = Ok (w', a) -> only w w'.
Proof.
  intros Hk. unfold insert_anchors. destruct (negb _); [done|].
  destruct (upsert_rows _ _ _ _ _) as [m|] eqn:E; [|done]. intros [= <- _]. split; simpl; auto.
  intros k Hne. by eapply (upsert_other _ _ _ _ _ (fun k => k.1.1.1.1 = gid)).
Qed.

End Only.

Lemma imap_fst {A K R} (f : nat -> A -> K * R) (g : A -> K) rows :
  (forall i a, (f i a).1 = g a) -> map fst (imap f rows) = map g rows.
Proof.
  intros Hf. revert f Hf. induction rows as [|a rows IH]; intros f Hf; [done|].
  rewrite imap_cons. simpl. rewrite Hf. f_equal. apply IH. intros i x. apply Hf.
Qed.

Lemma imap_keys {A K R} (P : K -> Prop) (f : nat -> A -> K * R) rows :
  (forall i a, P (f i a).1) -> Forall P (map fst (imap f rows)).
Proof.
  intros Hf. revert f Hf. induction rows as [|a rows IH]; intros f Hf; [constructor|].
  rewrite imap_cons. simpl. constructor; [apply Hf|]. apply IH. intros i x. apply Hf.
Qed.

Section Calls.
Context (ft : FloatText) (p : GraphPayload) (gid : string).

Lemma calls_only_stmt {A} (stmt : CallEnv -> CoreWorld -> result gerror (CoreWorld * A)) :
  (forall ce w w' a, stmt ce w = Ok (w', a) -> only p gid w w') -> calls (only p gid) (pstmt stmt).
Proof. apply calls_stmt. apply _. Qed.

Lemma calls_persist input : calls (only p gid) (persistRenderedSemanticRows ft gid p input).
Proof.
  unfold persistRenderedSemanticRows. destruct (ExtractRenderedRows input) as [[vs es]|]; [|done].
  apply calls_bind; [apply calls_only_stmt; intros ce w w' a; apply only_delete_anchors|intros _].
  apply calls_bind; [apply calls_only_stmt; intros ce w w' a; apply only_delete_edges|intros _].
  apply calls_bind; [apply calls_only_stmt; intros ce w w' a; apply only_delete_facts|intros _].
  apply calls_bind.
  { apply calls_for. intros [|x batch]; [done|]. apply calls_only_stmt. intros ce w w' a.
    apply only_insert_anchors. by apply imap_keys. }
  intros _. apply calls_bind.
  { apply calls_for. intros [|x batch]; [done|]. apply calls_only_stmt. intros ce w w' a.
    apply only_insert_facts. by apply imap_keys. }
  intros _. apply calls_bind; [|done].
  apply calls_for. intros [|x batch]; [done|]. apply calls_only_stmt. intros ce w w' a.
  apply only_insert_edges. by apply imap_keys.
Qed.

Lemma calls_markFailed reason : calls (only p gid) (markFailed gid p reason).
Proof. apply calls_only_stmt. intros ce w w' a. apply only_update. Qed.

Lemma calls_fail_graph {A} reason e : calls (only p gid) (fail_graph (A := A) gid p reason e).
Proof. apply calls_then; [apply calls_markFailed|done]. Qed.

Lemma calls_repair : calls (only p gid) (repairReadyGraphCounts gid p).
Proof. apply calls_only_stmt. intros ce w w' a. apply only_update. Qed.

Lemma only_upsert_revision id now w w' a : ready_manifest_for p (cw_db w) = true ->
  upsert_revision id (payload_revision p gid now) w = Ok (w', a) -> only p gid w w'.
Proof.
  intros Hm. unfold upsert_revision. cbn zeta.
  assert (Hput : forall k r, revision_allowed p gid (cw_db w) r ->
    only p gid w (with_rest (with_revisions (<[k := r]>)) w)).
  { intros k r Hr. split; simpl; auto. intros i. destruct (decide (i = k)) as [->|Hne].
    - right. exists r. by rewrite lookup_insert_eq.
    - left. by rewrite lookup_insert_ne. }
  destruct (head _) as [[old_id old]|] eqn:E.
  - destruct (negb _); [done|]. intros [= <- _]. apply Hput.
    assert (Hk : revision_key old = revision_key (payload_revision p gid now)).
    { destruct (List.filter _ _) as [|x l] eqn:Ef; [done|]. injection E as ->.
      assert (Hin : In (old_id, old) (List.filter (fun kv => bool_decide (revision_key kv.2
        = revision_key (payload_revision p gid now))) (map_to_list (cr_revisions (cw_rest w)))))
        by (rewrite Ef; left; done).
      apply filter_In in Hin as [_ Hk]. by apply bool_decide_eq_true in Hk. }
    by split.
  - destruct (bool_decide _); [done|]. destruct (negb _); [done|]. intros [= <- _]. by apply Hput.
Qed.

Lemma calls_activate_graph k : calls (only p gid) k -> calls (only p gid) (activate_graph gid p k).
Proof.
  intros Hk. apply calls_then.
  - apply calls_bind; [|by intros []]. apply calls_only_stmt. intros ce w w' a.
    destruct (existsb _ _) eqn:Em; [|by intros [= <- _]].
    destruct (upsert_revision _ _ w) as [[w1 u]|] eqn:E; [|done]. cbn [rbind]. intros [= <- _].
    by eapply only_upsert_revision.
  - intros [u|e]; [done|]. by destruct (err_is _ _).
Qed.

Lemma calls_marks r : calls (only p gid) (markReady gid p r) /\ calls (only p gid) (markPartial gid p r).
Proof.
  unfold markReady, markPartial. destruct (result_counts r) as [[[[v e] a] l]|]; [|done].
  split; apply calls_only_stmt; intros ce w w' u; apply only_update.
Qed.

Lemma calls_finish opts r : calls (only p gid) (finish_write ft gid p opts r).
Proof.
  apply calls_then; [apply calls_persist|]. intros [[anchors linked]|e]; [|apply calls_fail_graph].
  cbn zeta. destruct (wo_PartialOnly opts); [apply calls_wrap, calls_marks|].
  apply calls_bind; [apply calls_wrap, calls_marks|]. intros _.
  destruct (wo_ActivateRevision opts); [by apply calls_activate_graph|done].
Qed.

Lemma calls_write_graph graph opts : calls (only p gid) (write_graph ft graph gid p opts).
Proof.
  apply calls_bind.
  { apply calls_call. intros ce w. destruct (graph _ _) as [res log]. split; simpl; auto. }
  intros [r [e|]]; [apply calls_fail_graph|]. destruct (wr_Status r).
  - apply calls_finish.
  - apply calls_wrap, calls_only_stmt. intros ce w w' a. apply only_update.
  - apply calls_fail_graph.
Qed.

Lemma calls_build graph opts st : calls (only p gid) (build_graph ft graph p opts gid st).
Proof.
  unfold build_graph. destruct (bool_decide _); [apply calls_write_graph|].
  destruct (_ =s "READY"); [|by destruct (_ =s "SKIPPED")].
  unfold duplicate_ready. cbn zeta. destruct (wo_ActivateRevision opts);
    [apply calls_activate_graph|]; apply calls_wrap, calls_repair.
Qed.
End Calls.

(** ** The start of a write *)

Lemma graphs_where_first f w kv : head (graphs_where f w) = Some kv ->
  cr_graphs (cw_rest w) !! kv.1 = Some kv.2 /\ f kv.2 = true.
Proof.
  intros H. apply graphs_where_elem. rewrite <- surjective_pairing.
  destruct (graphs_where f w); [done|]. injection H as ->. apply list_elem_of_here.
Qed.

Lemma building_merge_key p now g : graph_key (building_merge p now g) = graph_key g.
Proof. unfold building_merge. by destruct (settled g). Qed.

(** The row of the payload's key: as it was when READY or SKIPPED, else BUILDING. *)
Record building (p : GraphPayload) (gid st : string) (w w' : CoreWorld) : Prop := {
  bu_only : only p gid w w';
  bu_row : exists g, cr_graphs (cw_rest w') !! gid = Some g /\ gx_status g = st /\
    graph_key g = payload_key p /\ (settled g = false -> st = "BUILDING" /\ gx_sourceRevision g = Some (gp_Revision p));
  bu_key : forall g, cr_graphs (cw_rest w) !! gid = Some g -> graph_key g = payload_key p;
  bu_settled : forall g, cr_graphs (cw_rest w) !! gid = Some g -> settled g = true -> w' = w;
  bu_fresh : forall g, cr_graphs (cw_rest w') !! gid = Some g ->
    gx_orgId g = match cr_graphs (cw_rest w) !! gid with Some old => gx_orgId old | None => gp_OrgID p end;
  bu_ended : forall g, cr_graphs (cw_rest w') !! gid = Some g -> settled g = true ->
    cr_graphs (cw_rest w) !! gid = Some g;
  bu_new : cr_graphs (cw_rest w) !! gid = None ->
    forall id g, cr_graphs (cw_rest w) !! id = Some g -> graph_key g <> payload_key p;
  bu_status : forall g, cr_graphs (cw_rest w) !! gid = Some g -> settled g = true -> gx_status g = st;
  bu_rows : cr_facts (cw_rest w') = cr_facts (cw_rest w) /\ cr_edges (cw_rest w') = cr_edges (cw_rest w) /\
    cr_anchors (cw_rest w') = cr_anchors (cw_rest w) /\ cr_revisions (cw_rest w') = cr_revisions (cw_rest w)
}.

Lemma with_graphs_same w k g : cr_graphs (cw_rest w) !! k = Some g ->
  with_rest (with_graphs (<[k := g]>)) w = w.
Proof.
  intros Hk. destruct w as [db rest]. destruct rest. unfold with_rest, with_graphs. simpl in *.
  by rewrite insert_id.
Qed.

Lemma markBuilding_stmt p id now w wr :
  upsert_graph id (new_graph "BUILDING" now (gp_OrgID p) (gp_RepoID p) (gp_WorkspaceID p)
    (gp_Revision p) (gp_CommitHash p) (gp_IndexJobID p) (gp_SchemaVersion p) (gp_BuilderVersion p))
    (building_merge p now) w = Ok wr ->
  building p wr.2.1 (gx_status wr.2.2) w wr.1.
Proof.
  unfold upsert_graph. set (row := new_graph _ _ _ _ _ _ _ _ _ _).
  destruct (head _) as [[old_id old]|] eqn:E.
  - intros [= <-]. simpl. apply graphs_where_first in E as [Hold Hk]. simpl in Hold, Hk.
    apply bool_decide_eq_true in Hk. split; simpl; [| | | | | | | |done].
    + apply only_graphs. intros m i Hi. by rewrite lookup_insert_ne.
    + exists (building_merge p now old). rewrite lookup_insert_eq, building_merge_key.
      repeat split; [done| |]; unfold building_merge in *; destruct (settled old) eqn:Es; simpl in *; congruence.
    + intros g Hg. rewrite Hold in Hg. injection Hg as <-. exact Hk.
    + intros g Hg Hs. simplify_eq. unfold building_merge. rewrite Hs. by apply with_graphs_same.
    + intros g. rewrite lookup_insert_eq, Hold. intros [= <-]. unfold building_merge. by destruct (settled old).
    + intros g. rewrite lookup_insert_eq, Hold. intros [= <-]. unfold building_merge.
      destruct (settled old) eqn:Es; [done|]. unfold settled. simpl. done.
    + congruence.
    + intros g Hg Hs. simplify_eq. unfold building_merge. by rewrite Hs.
  - destruct (negb _); [done|]. destruct (bool_decide _) eqn:Eb; [done|]. intros [= <-]. simpl.
    apply bool_decide_eq_false in Eb.
    assert (Hn : cr_graphs (cw_rest w) !! id = None) by (destruct (cr_graphs (cw_rest w) !! id); [by destruct Eb|done]).
    split; simpl; [| | | | | | | |done].
    + apply only_graphs. intros m i Hi. by rewrite lookup_insert_ne.
    + exists row. rewrite lookup_insert_eq. split; [done|]. split; [done|]. split; [reflexivity|].
      intros _. split; reflexivity.
    + intros g Hg. congruence.
    + intros g Hg. congruence.
    + intros g. rewrite lookup_insert_eq, Hn. by intros [= <-].
    + intros g. rewrite lookup_insert_eq. intros [= <-]. unfold settled. done.
    + intros _ i g Hg Hk. assert (Hin : (i, g) ∈ graphs_where (fun g => bool_decide (graph_key g = graph_key row)) w).
      { apply graphs_where_elem. split; [done|]. by apply bool_decide_eq_true. }
      destruct (graphs_where _ w); [by apply not_elem_of_nil in Hin|done].
    + intros g Hg. congruence.
Qed.

Section Alone.
Context (env : nat -> CallEnv) (alone : forall i, ce_others (env i) = id).

Lemma run_alone_stmt {A} n (stmt : CallEnv -> CoreWorld -> result gerror (CoreWorld * A)) w :
  run env n (pstmt stmt) w
  = match ce_fault (env n) 0%nat with
    | Some e => (S n, w, Done (Err e))
    | None => match stmt (env n) w with
              | Ok (w', a) => (S n, w', Done (Ok a))
              | Err e => (S n, w, Done (Err e))
              end
    end.
Proof.
  rewrite run_stmt. unfold do_call, stmt_call. rewrite alone, with_rest_id.
  destruct (ce_fault _ _); [done|]. by destruct (stmt _ _) as [[]|].
Qed.

Lemma markBuilding_run p n w n' w' o : run env n (markBuilding p) w = (n', w', o) ->
  (exists e, o = Done (Err e) /\ w' = w) \/
  (exists gid st, o = Done (Ok (gid, st)) /\ building p gid st w w').
Proof.
  unfold markBuilding. rewrite run_alone_stmt. destruct (ce_fault _ _) as [e|].
  { intros [= _ <- <-]. eauto. }
  cbn zeta. destruct (upsert_graph _ _ _ w) as [wr|e] eqn:E; cbn [rbind].
  - intros [= _ <- <-]. right. eexists _, _. split; [done|]. by apply markBuilding_stmt in E.
  - intros [= _ <- <-]. eauto.
Qed.

(** The repository belongs to the organisation, whose workspace the payload names,
    and a manifest of the payload takes the write. *)
Definition write_allowed (p : GraphPayload) (opts : writeOptions) (w : CoreWorld) : Prop :=
  (exists r o, db_repos (cw_db w) !! gp_RepoID p = Some r /\ repo_orgId r = gp_OrgID p /\
     cr_orgs (cw_rest w) !! gp_OrgID p = Some o /\ org_workspace o = gp_WorkspaceID p) /\
  exists x, x ∈ db_manifests (cw_db w) /\ payload_manifest p x = true /\
    (mf_status x = ManifestReady \/ mf_status x = ManifestPending /\ wo_AllowPendingManifest opts = true).

Lemma manifest_refusal_None opts p st : manifest_refusal opts p st = None ->
  st = ManifestReady \/ st = ManifestPending /\ wo_AllowPendingManifest opts = true.
Proof. destruct st; simpl; [destruct (wo_AllowPendingManifest opts); auto; done|auto|done|done]. Qed.

(** A write is refused and changes nothing, or it is allowed and goes on with the
    row of the payload's key. *)
Lemma checked_write_run ft graph p opts n w n' w' o :
  run env n (checked_write ft graph p opts) w = (n', w', o) ->
  (exists e, o = Done (Err e) /\ w' = w) \/
  (write_allowed p opts w /\ exists n1 w1 gid st, building p gid st w w1 /\
     run env n1 (build_graph ft graph p opts gid st) w1 = (n', w', o)).
Proof.
  unfold checked_write. rewrite run_then. unfold resolveScope. rewrite run_alone_stmt.
  destruct (ce_fault _ _) as [e|]; [intros [= _ <- <-]; eauto|].
  destruct (db_repos (cw_db w) !! gp_RepoID p) as [r|] eqn:Er; [|intros [= _ <- <-]; eauto].
  destruct (_ =? _) eqn:Eo; [|intros [= _ <- <-]; eauto].
  destruct (cr_orgs (cw_rest w) !! gp_OrgID p) as [org|] eqn:Eorg; [|intros [= _ <- <-]; eauto].
  destruct (org_workspace org =s gp_WorkspaceID p) eqn:Ew; [cbn [negb]|intros [= _ <- <-]; eauto].
  rewrite run_then. unfold manifestStatus. rewrite run_alone_stmt.
  destruct (ce_fault _ _) as [e|]; [intros [= _ <- <-]; eauto|].
  destruct (List.find _ _) as [x|] eqn:Ex; [|intros [= _ <- <-]; eauto].
  destruct (manifest_refusal opts p (mf_status x)) as [e|] eqn:Em; [intros [= _ <- <-]; eauto|].
  rewrite run_bind, run_wrap. intros H.
  destruct (run env _ (markBuilding p) w) as [[n1 w1] o1] eqn:Eb.
  apply markBuilding_run in Eb as [(e & -> & ->)|(gid & st & -> & Hb)].
  - injection H as _ <- <-. eauto.
  - right. apply find_some in Ex as [Hin Hx]. apply manifest_refusal_None in Em.
    apply Z.eqb_eq in Eo. apply str_eqb_spec in Ew. split; [|eauto 7].
    split; [eauto 6|]. exists x. split; [by apply list_elem_of_In|]. auto.
Qed.
End Alone.

(** What any write does to the tables. *)
Lemma write_confined h p opts env n w n' w' o :
  (forall i, ce_others (env i) = id) ->
  run env n (writePayload h p opts) w = (n', w', o) ->
  w' = w \/
  (write_allowed p opts w /\ exists gid, only p gid w w' /\
     forall g, cr_graphs (cw_rest w) !! gid = Some g -> graph_key g = payload_key p).
Proof.
  intros Ho. unfold writePayload.
  destruct (gh_db h); [|intros [= _ <- _]; auto]. destruct (gh_graph h) as [graph|]; [|intros [= _ <- _]; auto].
  destruct (GraphPayload_Validate _ _); [intros [= _ <- _]; auto|].
  destruct (ValidateRenderedStatementWrite _); [|intros [= _ <- _]; auto].
  intros H. apply (checked_write_run env Ho) in H as [(e & _ & ->)|(Ha & n1 & w1 & gid & st & Hb & H)]; [auto|].
  right. split; [done|]. exists gid. split; [|apply Hb]. etrans; [apply Hb|].
  eapply (run_calls_keep (only p gid)); [|apply calls_build|exact H].
  intros i x. rewrite Ho, with_rest_id. reflexivity.
Qed.

(** C17: a write of a rendered graph stays within its snapshot.  Run alone, with any
    faults, whatever it returns: either it changed nothing, or the repository
    belongs to the payload's organisation and workspace and a manifest with the
    payload's ids, branch and commit is READY, or PENDING where that is allowed; and
    then the only snapshot that changed is the one of the payload's commit, no row
    of another snapshot changed, none of the tables of jobs, subjobs, manifests and
    repositories did, and a revision was written only under a READY manifest and
    points to that snapshot. *)
Theorem graph_write_confined h p opts env n w n' w' o :
  (forall i, ce_others (env i) = id) ->
  run env n (writePayload h p opts) w = (n', w', o) ->
  w' = w \/
  (write_allowed p opts w /\ exists gid, only p gid w w' /\
     forall g, cr_graphs (cw_rest w) !! gid = Some g -> graph_key g = payload_key p).
Proof. apply write_confined. Qed.

(** ** The rows after success *)

(** A table whose rows under the keys [own] were made of [items], with the columns
    of [mk]; [all] are the rows there will be. *)
Section Table.
Context {K R A : Type} `{Countable K} (merge : R -> R -> R) (clash : K -> R -> K -> R -> bool).
Context (mk : Z -> string -> A -> K * R) (key : A -> K) (own : K -> Prop) (all : list A).
Context (mk_key : forall now id a, (mk now id a).1 = key a).
Context (key_own : forall a, own (key a)).
Context (mk_merge : forall now id a now' id' a', a ∈ all -> a' ∈ all -> key a = key a' ->
  merge (mk now id a).2 (mk now' id' a').2 = (mk now' id a').2).

Record table_of (items : list A) (m : gmap K R) : Prop := {
  to_all : forall a, a ∈ items -> a ∈ all;
  to_row : forall k r, own k -> m !! k = Some r -> exists a now id, a ∈ items /\ mk now id a = (k, r);
  to_item : forall a, a ∈ items -> is_Some (m !! key a)
}.

(** The rows of a batch are there after it. *)
Lemma batch_stored items batch now ids m m' : (forall a, a ∈ batch -> a ∈ all) ->
  upsert_rows merge clash [] (imap (fun i a => mk now (ids i) a) batch) m = Ok m' ->
  table_of items m -> forall a, a ∈ batch -> exists id, m' !! key a = Some (mk now id a).2.
Proof.
  intros Hall Hu [T0 T1 T2] a Ha. apply upsert_rows_Ok in Hu as (_ & _ & _ & Hin).
  assert (exists i, mk now (ids i) a ∈ imap (fun i a => mk now (ids i) a) batch) as [i Hi].
  { pose proof Ha as [i Hi]%list_elem_of_lookup. exists i. apply list_elem_of_lookup. exists i.
    by rewrite list_lookup_imap, Hi. }
  specialize (Hin (key a) (mk now (ids i) a).2). rewrite <- (mk_key now (ids i)) in Hin at 1 2 3.
  rewrite <- surjective_pairing in Hin. rewrite mk_key in Hin. rewrite (Hin Hi).
  destruct (m !! key a) as [old|] eqn:Eo; [|eauto].
  destruct (T1 _ _ (key_own a) Eo) as (a0 & now0 & id0 & Ha0 & Hmk).
  exists id0. assert (E1 : key a0 = key a) by (by rewrite <- (mk_key now0 id0), Hmk).
  rewrite <- (mk_merge now0 id0 a0 now (ids i) a (T0 _ Ha0) (Hall _ Ha) E1). by rewrite Hmk.
Qed.

Lemma table_batch items batch now ids m m' : (forall a, a ∈ batch -> a ∈ all) ->
  upsert_rows merge clash [] (imap (fun i a => mk now (ids i) a) batch) m = Ok m' ->
  table_of items m -> table_of (items ++ batch) m'.
Proof.
  intros Hall Hu HT. pose proof (batch_stored _ _ _ _ _ _ Hall Hu HT) as Hnew. destruct HT as [T0 T1 T2].
  apply upsert_rows_Ok in Hu as (_ & _ & Hother & _).
  rewrite (imap_fst _ key) in Hother by (intros; apply mk_key).
  split; [by intros a [Ha|Ha]%elem_of_app; auto| |].
  - intros k r Hk Hr. destruct (decide (k ∈ map key batch)) as [Hkb|Hkb].
    + apply list_elem_of_In, in_map_iff in Hkb as (a & <- & Ha%list_elem_of_In).
      destruct (Hnew a Ha) as [id Hid]. rewrite Hid in Hr. injection Hr as <-.
      exists a, now, id. split; [apply elem_of_app; by right|]. rewrite <- (mk_key now id). by destruct (mk now id a).
    + rewrite Hother in Hr by done. destruct (T1 _ _ Hk Hr) as (a & nw & id & Ha & Hmk).
      exists a, nw, id. split; [apply elem_of_app; by left|done].
  - intros a [Ha|Ha]%elem_of_app; [|destruct (Hnew a Ha) as [id ->]; eauto].
    destruct (decide (key a ∈ map key batch)) as [Hkb|Hkb].
    + apply list_elem_of_In, in_map_iff in Hkb as (a' & <- & Ha'%list_elem_of_In).
      destruct (Hnew a' Ha') as [id ->]. eauto.
    + rewrite Hother by done. by apply T2.
Qed.

Lemma table_empty m : (forall k r, own k -> m !! k <> Some r) -> table_of [] m.
Proof.
  intros Hm. split; [intros a Ha; by apply not_elem_of_nil in Ha| |intros a Ha; by apply not_elem_of_nil in Ha].
  intros k r Hk Hr; by destruct (Hm k r Hk).
Qed.
End Table.

(** A loop over batches. *)
Lemma run_for_batches {A} env (f : list A -> prog unit) (all : list A) (T : list A -> CoreWorld -> Prop) :
  (forall items b n w n' w' u, (forall a, a ∈ b -> a ∈ all) -> T items w ->
     run env n (f b) w = (n', w', Done (Ok u)) -> T (items ++ b) w') ->
  forall bs items n w n' w' u, (forall a, a ∈ concat bs -> a ∈ all) -> T items w ->
    run env n (pfor bs f) w = (n', w', Done (Ok u)) -> T (items ++ concat bs) w'.
Proof.
  intros Hf. induction bs as [|b bs IH]; intros items n w n' w' u Hall Ht; simpl.
  { intros [= _ <- _]. by rewrite app_nil_r. }
  intros H. apply run_bind_Ok in H as (n1 & w1 & [] & H1 & H2). rewrite app_assoc.
  eapply IH; [| |exact H2].
  - intros a Ha. apply Hall. simpl. apply elem_of_app. by right.
  - eapply Hf; [|exact Ht|exact H1]. intros a Ha. apply Hall. simpl. apply elem_of_app. by left.
Qed.
