(* ===== verification/GraphRowsFacts.v ===== *)
(** What a write of the AST layer leaves when it succeeds: the rows of the snapshot
    are those of the statements, or the snapshot had ended before. *)
From Stdlib Require Import Ascii.
From S2P Require Import Prelude GoStd GoStdFacts GoJSON GoText SubjobTypes SubjobStore SubjobTask SubjobCodec.
From S2P Require Import ManifestDelta Executor Scheduler GraphSchema GraphStore GraphStoreFacts ScipProjection.
From S2P Require Import RepoIndexDB RepoJobs RepoTask CoreDB IndexCore CoreActivate CodeGraphWriter CoreFacts.
From S2P Require Import CodeGraphWriterFacts.
Lemma run_for_chunks {A} env (f : list A -> prog unit) (all : list A) (T : list A -> CoreWorld -> Prop) l n w n' w' u :
  (forall items b n w n' w' u, (forall a, a ∈ b -> a ∈ all) -> T items w ->
     run env n (f b) w = (n', w', Done (Ok u)) -> T (items ++ b) w') ->
  (forall a, a ∈ l -> a ∈ all) -> T [] w ->
  run env n (pfor (chunkArray l semanticRowBatchSize) f) w = (n', w', Done (Ok u)) -> T l w'.
Proof.
  intros Hf Hl HT H. rewrite <- (chunkArray_concat l semanticRowBatchSize) in Hl.
  pose proof (run_for_batches env f all T Hf _ [] n w n' w' u Hl HT H) as R.
  by rewrite chunkArray_concat in R.
Qed.

Section Rows.
Context (ft : FloatText) (p : GraphPayload) (gid : string).
Context (anchors : list PayloadAnchor) (vs : list RenderedVertexRow) (es : list RenderedEdgeRow).

Definition anchors_are : list PayloadAnchor -> AnchorTable -> Prop :=
  table_of (anchor_row p gid) (fun a => (anchor_row p gid 0 "" a).1) (fun k => k.1.1.1.1 = gid) anchors.
Definition facts_are : list RenderedVertexRow -> FactTable -> Prop :=
  table_of (fact_row ft p gid) (fun r => (fact_row ft p gid 0 "" r).1) (fun k => k.1 = gid) vs.
Definition edges_are : list RenderedEdgeRow -> EdgeTable -> Prop :=
  table_of (edge_row ft p gid) (fun r => (edge_row ft p gid 0 "" r).1) (fun k => k.1 = gid) es.

(** The rows of the snapshot. *)
Definition rows_are (w : CoreWorld) : Prop :=
  anchors_are anchors (cr_anchors (cw_rest w)) /\ facts_are vs (cr_facts (cw_rest w)) /\
  edges_are es (cr_edges (cw_rest w)).

(** The digest in the key of an edge tells the edges of the payload apart. *)
Definition edge_digest (r : RenderedEdgeRow) : string :=
  renderedEdgeDedupeKey (re_FromVID r) (re_ToVID r) (nonEmpty (rprop (re_Props r) "kind") "RELATES_TO") (re_Rank r).

Definition keys_tell_ends : Prop := forall a b, a ∈ es -> b ∈ es -> edge_digest a = edge_digest b ->
  re_FromVID a = re_FromVID b /\ re_ToVID a = re_ToVID b.

(** ** Statements *)

Context (env : nat -> CallEnv) (alone : forall i, ce_others (env i) = id).

Lemma stmt_Ok {A} n (stmt : CallEnv -> CoreWorld -> result gerror (CoreWorld * A)) w n' w' a :
  run env n (pstmt stmt) w = (n', w', Done (Ok a)) -> stmt (env n) w = Ok (w', a).
Proof.
  rewrite (run_alone_stmt env alone). destruct (ce_fault _ _); [done|].
  destruct (stmt _ _) as [[]|]; by intros [= _ <- <-].
Qed.

Lemma anchors_loop l n w n' w' u : (forall a, a ∈ l -> a ∈ anchors) ->
  anchors_are [] (cr_anchors (cw_rest w)) ->
  run env n (pfor (chunkArray l semanticRowBatchSize) (insertRenderedAnchors gid p)) w = (n', w', Done (Ok u)) ->
  anchors_are l (cr_anchors (cw_rest w')) /\ cr_graphs (cw_rest w') = cr_graphs (cw_rest w) /\ cr_facts (cw_rest w') = cr_facts (cw_rest w) /\ cr_edges (cw_rest w') = cr_edges (cw_rest w).
Proof.
  intros Hl HT H.
  eapply (run_for_chunks env _ anchors (fun l v => anchors_are l (cr_anchors (cw_rest v)) /\
    cr_graphs (cw_rest v) = cr_graphs (cw_rest w) /\ cr_facts (cw_rest v) = cr_facts (cw_rest w) /\ cr_edges (cw_rest v) = cr_edges (cw_rest w))); [|exact Hl|done|exact H].
  intros items [|x b] m v m' v' u' Hb (HT' & R1 & R2 & R3) H'; [by injection H' as _ <- _; rewrite app_nil_r, R1, R2, R3|].
  apply stmt_Ok in H'. revert H'. unfold insert_anchors. destruct (negb _); [done|].
  destruct (upsert_rows _ _ _ _ _) as [t|] eqn:E; [|done]. intros [= <-].
  split; [|by rewrite <- R1, <- R2, <- R3]. eapply (table_batch anchor_merge anchor_clash); [..|exact Hb|exact E|exact HT']; done.
Qed.

Lemma facts_loop l n w n' w' u : (forall a, a ∈ l -> a ∈ vs) ->
  facts_are [] (cr_facts (cw_rest w)) ->
  run env n (pfor (chunkArray l semanticRowBatchSize) (insertRenderedSemanticFacts ft gid p)) w = (n', w', Done (Ok u)) ->
  facts_are l (cr_facts (cw_rest w')) /\ cr_graphs (cw_rest w') = cr_graphs (cw_rest w) /\ cr_anchors (cw_rest w') = cr_anchors (cw_rest w) /\ cr_edges (cw_rest w') = cr_edges (cw_rest w).
Proof.
  intros Hl HT H.
  eapply (run_for_chunks env _ vs (fun l v => facts_are l (cr_facts (cw_rest v)) /\
    cr_graphs (cw_rest v) = cr_graphs (cw_rest w) /\ cr_anchors (cw_rest v) = cr_anchors (cw_rest w) /\ cr_edges (cw_rest v) = cr_edges (cw_rest w))); [|exact Hl|done|exact H].
  intros items [|x b] m v m' v' u' Hb (HT' & R1 & R2 & R3) H'; [by injection H' as _ <- _; rewrite app_nil_r, R1, R2, R3|].
  apply stmt_Ok in H'. revert H'. unfold insert_facts. do 2 (destruct (negb _); [done|]).
  destruct (upsert_rows _ _ _ _ _) as [t|] eqn:E; [|done]. intros [= <-].
  split; [|by rewrite <- R1, <- R2, <- R3]. eapply (table_batch fact_merge fact_clash); [done|done| |exact Hb|exact E|exact HT'].
  intros now id a now' id' a' _ _ Hk. injection Hk as Hk. unfold fact_merge, fact_row. simpl.
  by rewrite Hk.
Qed.

Lemma edges_loop l n w n' w' u : keys_tell_ends -> (forall a, a ∈ l -> a ∈ es) ->
  edges_are [] (cr_edges (cw_rest w)) ->
  run env n (pfor (chunkArray l semanticRowBatchSize) (insertRenderedSemanticEdges ft gid p)) w = (n', w', Done (Ok u)) ->
  edges_are l (cr_edges (cw_rest w')) /\ cr_graphs (cw_rest w') = cr_graphs (cw_rest w) /\ cr_anchors (cw_rest w') = cr_anchors (cw_rest w) /\ cr_facts (cw_rest w') = cr_facts (cw_rest w).
Proof.
  intros Hc Hl HT H.
  eapply (run_for_chunks env _ es (fun l v => edges_are l (cr_edges (cw_rest v)) /\
    cr_graphs (cw_rest v) = cr_graphs (cw_rest w) /\ cr_anchors (cw_rest v) = cr_anchors (cw_rest w) /\ cr_facts (cw_rest v) = cr_facts (cw_rest w))); [|exact Hl|done|exact H].
  intros items [|x b] m v m' v' u' Hb (HT' & R1 & R2 & R3) H'; [by injection H' as _ <- _; rewrite app_nil_r, R1, R2, R3|].
  apply stmt_Ok in H'. revert H'. unfold insert_edges. do 2 (destruct (negb _); [done|]).
  destruct (upsert_rows _ _ _ _ _) as [t|] eqn:E; [|done]. intros [= <-].
  split; [|by rewrite <- R1, <- R2, <- R3]. eapply (table_batch (edge_merge false) edge_clash); [done|done| |exact Hb|exact E|exact HT'].
  intros now id a now' id' a' Ha Ha' Hk. apply (f_equal snd) in Hk. destruct (Hc a a' Ha Ha' Hk) as [E1 E2].
  unfold edge_merge, edge_row. simpl. by rewrite E1, E2.
Qed.

(** ** [persistRenderedSemanticRows] *)

(** The rows under [gid] carry the payload's organisation and repository. *)
Record own_rows (w : CoreWorld) : Prop := {
  ow_anchor : forall k a, cr_anchors (cw_rest w) !! k = Some a -> k.1.1.1.1 = gid ->
    ca_orgId a = gp_OrgID p /\ ca_repoId a = gp_RepoID p;
  ow_fact : forall k a, cr_facts (cw_rest w) !! k = Some a -> k.1 = gid ->
    sf_orgId a = gp_OrgID p /\ sf_repoId a = gp_RepoID p;
  ow_edge : forall k a, cr_edges (cw_rest w) !! k = Some a -> k.1 = gid ->
    se_orgId a = gp_OrgID p /\ se_repoId a = gp_RepoID p
}.

Lemma filtered_none {K R} `{Countable K} (P : K * R -> Prop) `{!forall x, Decision (P x)} (m : gmap K R) (own : K -> Prop) :
  (forall k r, m !! k = Some r -> own k -> ~ P (k, r)) ->
  forall k r, own k -> base.filter P m !! k <> Some r.
Proof. intros Hm k r Hk [Hr Hp]%map_lookup_filter_Some. by apply (Hm k r). Qed.

Lemma persist_Ok input n w n' w' a l :
  ExtractRenderedRows input = Ok (vs, es) -> anchors = gp_Anchors p -> keys_tell_ends -> own_rows w ->
  run env n (persistRenderedSemanticRows ft gid p input) w = (n', w', Done (Ok (a, l))) ->
  rows_are w' /\ cr_graphs (cw_rest w') = cr_graphs (cw_rest w) /\
  a = Z.of_nat (length anchors) /\ l = countRenderedAnchorLinks es anchors.
Proof.
  intros Hx Ha Hc [O1 O2 O3]. unfold persistRenderedSemanticRows. rewrite Hx, <- Ha. intros H.
  apply run_bind_Ok in H as (n1 & w1 & u1 & H1 & H). apply stmt_Ok in H1. injection H1 as <- _.
  apply run_bind_Ok in H as (n2 & w2 & u2 & H2 & H). apply stmt_Ok in H2. injection H2 as <- _.
  apply run_bind_Ok in H as (n3 & w3 & u3 & H3 & H). apply stmt_Ok in H3. injection H3 as <- _.
  set (w3 := with_rest _ _) in H.
  assert (A0 : anchors_are [] (cr_anchors (cw_rest w3))).
  { apply table_empty, filtered_none. intros k r Hr Hk Hp. apply Hp. simpl. by destruct (O1 k r Hr Hk). }
  assert (F0 : facts_are [] (cr_facts (cw_rest w3))).
  { apply table_empty, filtered_none. intros k r Hr Hk Hp. apply Hp. simpl. by destruct (O2 k r Hr Hk). }
  assert (E0 : edges_are [] (cr_edges (cw_rest w3))).
  { apply table_empty, filtered_none. intros k r Hr Hk Hp. apply Hp. simpl. by destruct (O3 k r Hr Hk). }
  assert (G0 : cr_graphs (cw_rest w3) = cr_graphs (cw_rest w)) by done. clearbody w3.
  apply run_bind_Ok in H as (n4 & w4 & u4 & H4 & H).
  apply anchors_loop in H4 as (A4 & G4 & F4 & E4); [|done|done]. rewrite <- F4 in F0. rewrite <- E4 in E0.
  apply run_bind_Ok in H as (n5 & w5 & u5 & H5 & H).
  apply facts_loop in H5 as (F5 & G5 & A5 & E5); [|done|done]. rewrite <- A5 in A4. rewrite <- E5 in E0.
  apply run_bind_Ok in H as (n6 & w6 & u6 & H6 & H).
  apply edges_loop in H6 as (E6 & G6 & A6 & F6); [|done|done|done]. rewrite <- A6 in A4. rewrite <- F6 in F5.
  injection H as _ <- <- <-. split; [done|]. by rewrite G6, G5, G4, G0.
Qed.
End Rows.

(** ** [WritePendingPayload] *)

(** Every row under a snapshot carries its organisation and repository, the foreign
    key of the three tables; and a snapshot has the organisation of its
    repository. *)
Record graph_tables_ok (w : CoreWorld) : Prop := {
  gt_graph : forall id g, cr_graphs (cw_rest w) !! id = Some g ->
    exists r, db_repos (cw_db w) !! gx_repoId g = Some r /\ repo_orgId r = gx_orgId g;
  gt_anchor : forall k a, cr_anchors (cw_rest w) !! k = Some a ->
    exists g, cr_graphs (cw_rest w) !! k.1.1.1.1 = Some g /\ gx_orgId g = ca_orgId a /\ gx_repoId g = ca_repoId a;
  gt_fact : forall k a, cr_facts (cw_rest w) !! k = Some a ->
    exists g, cr_graphs (cw_rest w) !! k.1 = Some g /\ gx_orgId g = sf_orgId a /\ gx_repoId g = sf_repoId a;
  gt_edge : forall k a, cr_edges (cw_rest w) !! k = Some a ->
    exists g, cr_graphs (cw_rest w) !! k.1 = Some g /\ gx_orgId g = se_orgId a /\ gx_repoId g = se_repoId a
}.

Definition same_rows (w w' : CoreWorld) : Prop :=
  cr_facts (cw_rest w') = cr_facts (cw_rest w) /\ cr_edges (cw_rest w') = cr_edges (cw_rest w) /\
  cr_anchors (cw_rest w') = cr_anchors (cw_rest w).

Section Pending.
Context (ft : FloatText) (p : GraphPayload) (env : nat -> CallEnv) (alone : forall i, ce_others (env i) = id).
Context (gid st : string) (w w1 : CoreWorld) (start : building p gid st w w1) (tables : graph_tables_ok w).
Context (repo : exists r, db_repos (cw_db w) !! gp_RepoID p = Some r /\ repo_orgId r = gp_OrgID p).

(** The row of the snapshot belongs to the payload, and so do the rows under it. *)
Lemma old_org g : cr_graphs (cw_rest w) !! gid = Some g -> gx_orgId g = gp_OrgID p /\ gx_repoId g = gp_RepoID p.
Proof.
  intros Hg. pose proof (bu_key _ _ _ _ _ start g Hg) as Hk. injection Hk as Hr _ _ _ _.
  destruct (gt_graph w tables gid g Hg) as (r & Hr1 & Ho). destruct repo as (r' & Hr2 & Ho').
  rewrite Hr in Hr1. simplify_eq. by rewrite <- Ho, Ho'.
Qed.

Lemma started g : cr_graphs (cw_rest w1) !! gid = Some g -> gx_orgId g = gp_OrgID p /\ gx_repoId g = gp_RepoID p.
Proof.
  intros Hg. split.
  - rewrite (bu_fresh _ _ _ _ _ start g Hg). destruct (cr_graphs (cw_rest w) !! gid) eqn:E; [|done].
    by apply old_org in E as [-> _].
  - destruct (bu_row _ _ _ _ _ start) as (g1 & Hg1 & _ & Hk & _). simplify_eq. by injection Hk as ->.
Qed.

Lemma started_rows : own_rows p gid w1.
Proof.
  destruct (bu_rows _ _ _ _ _ start) as (Ef & Ee & Ea & _).
  split; intros k a; [rewrite Ea|rewrite Ef|rewrite Ee]; intros Ha Hk;
    [destruct (gt_anchor w tables k a Ha) as (g & Hg & H1 & H2)
    |destruct (gt_fact w tables k a Ha) as (g & Hg & H1 & H2)
    |destruct (gt_edge w tables k a Ha) as (g & Hg & H1 & H2)];
    rewrite Hk in Hg; apply old_org in Hg as [E1 E2]; by rewrite <- H1, <- H2.
Qed.

(** An update that reaches the row. *)
Lemma update_row guard f v v' u g : cr_graphs (cw_rest v) !! gid = Some g ->
  gx_orgId g = gp_OrgID p -> gx_repoId g = gp_RepoID p ->
  update_graph gid p guard f v = Ok (v', u) ->
  cr_graphs (cw_rest v') !! gid = Some (if guard g then f g else g) /\ same_rows v v'.
Proof.
  intros Hg Ho Hr [= <- _]. split; [|done]. simpl. rewrite lookup_alter_eq, Hg. simpl.
  by rewrite Ho, Hr, !Z.eqb_refl.
Qed.

Lemma count_Ok name v z : countToPostgresInt name v = Ok z -> z = v.
Proof. unfold countToPostgresInt. by destruct (_ || _); intros [= <-]. Qed.

Lemma result_counts_Ok r v e a l : result_counts r = Ok (v, e, a, l) -> a = wr_AnchorCount r /\ l = wr_LinkedEdgeCount r.
Proof.
  unfold result_counts. destruct (countToPostgresInt _ (wr_VertexCount r)); [|done]. cbn [rbind].
  destruct (countToPostgresInt _ (wr_EdgeCount r)); [|done]. cbn [rbind].
  destruct (countToPostgresInt _ (wr_AnchorCount r)) eqn:Ea; [|done]. cbn [rbind].
  destruct (countToPostgresInt _ (wr_LinkedEdgeCount r)) eqn:El; [|done]. cbn [rbind].
  apply count_Ok in Ea as ->, El as ->. by intros [= _ _ -> ->].
Qed.

Lemma wrap_Ok {A} pre (m : prog A) n v n' v' a :
  run env n (pwrap pre m) v = (n', v', Done (Ok a)) -> run env n m v = (n', v', Done (Ok a)).
Proof. rewrite run_wrap. by destruct (run env n m v) as [[? ?] [[]|]]. Qed.

(** How a write of the AST layer ends. *)
Definition partial_with_rows (w' : CoreWorld) (g' : CodeGraphIndex) : Prop :=
  gx_status g' = "PARTIAL" /\ gx_sourceRevision g' = Some (gp_Revision p) /\
  exists vs es, ExtractRenderedRows (renderedInputFromPayload p) = Ok (vs, es) /\
    rows_are ft p gid (gp_Anchors p) vs es w' /\
    gx_anchorCount g' = Z.of_nat (length (gp_Anchors p)) /\
    gx_linkedEdgeCount g' = countRenderedAnchorLinks es (gp_Anchors p).

Definition tells_apart : Prop :=
  forall vs es, ExtractRenderedRows (renderedInputFromPayload p) = Ok (vs, es) -> keys_tell_ends es.

Lemma markPartial_Ok r n v n' w' g : cr_graphs (cw_rest v) = cr_graphs (cw_rest w1) ->
  cr_graphs (cw_rest w1) !! gid = Some g ->
  run env n (markPartial gid p r) v = (n', w', Done (Ok tt)) ->
  same_rows v w' /\ exists g', cr_graphs (cw_rest w') !! gid = Some g' /\ graph_key g' = graph_key g /\
    gx_status g' = "PARTIAL" /\ gx_sourceRevision g' = gx_sourceRevision g /\
    gx_anchorCount g' = wr_AnchorCount r /\ gx_linkedEdgeCount g' = wr_LinkedEdgeCount r.
Proof.
  intros Ev Hg. destruct (started g Hg) as [Ho Hr]. unfold markPartial.
  destruct (result_counts r) as [[[[vc ec] ac] lc]|] eqn:Ec; [|done].
  apply result_counts_Ok in Ec as [-> ->]. intros H. apply stmt_Ok in H; [|done].
  eapply update_row in H as [Hg' Hsame]; [|by rewrite Ev|done|done]. split; [done|]. eauto 10.
Qed.

Lemma write_graph_Ok graph n n' w' opts : wo_PartialOnly opts = true -> tells_apart -> st = "BUILDING" ->
  (exists g, cr_graphs (cw_rest w1) !! gid = Some g /\ gx_sourceRevision g = Some (gp_Revision p) /\
     graph_key g = payload_key p) ->
  run env n (write_graph ft graph gid p opts) w1 = (n', w', Done (Ok tt)) ->
  exists g', cr_graphs (cw_rest w') !! gid = Some g' /\ graph_key g' = payload_key p /\
    (gx_status g' = "SKIPPED" /\ same_rows w w' \/ partial_with_rows w' g').
Proof.
  intros Hpo Htell Est (g & Hg & Hs & Hk). destruct (started g Hg) as [Ho Hr]. unfold write_graph.
  intros H. apply run_bind_Ok in H as (n1 & v & [r e] & H1 & H). unfold graph_call in H1. simpl in H1.
  unfold do_call in H1. rewrite alone, with_rest_id in H1. destruct (graph _ _) as [res log].
  injection H1 as _ <- ->. destruct e as [e|].
  { unfold fail_graph in H. rewrite run_then in H. by destruct (run _ _ _ _) as [[? ?] [[]|]]. }
  assert (Hown : own_rows p gid (with_rest (with_graphlog log) w1)).
  { destruct started_rows as [O1 O2 O3]. split; [exact O1|exact O2|exact O3]. }
  assert (Hrest : cr_graphs (cw_rest (with_rest (with_graphlog log) w1)) = cr_graphs (cw_rest w1)) by done.
  destruct (wr_Status r).
  - unfold finish_write in H. rewrite run_then in H.
    destruct (run _ _ (persistRenderedSemanticRows _ _ _ _) _) as [[n2 w2] [[[a l]|e]|]] eqn:Ep; [| |done].
    2: { unfold fail_graph in H. rewrite run_then in H. by destruct (run _ _ (markFailed _ _ _) _) as [[? ?] [[]|]]. }
    cbn zeta in H. rewrite Hpo in H. apply wrap_Ok in H.
    destruct (ExtractRenderedRows (renderedInputFromPayload p)) as [[vs es]|] eqn:Ex; cycle 1.
    { unfold persistRenderedSemanticRows in Ep. by rewrite Ex in Ep. }
    destruct (persist_Ok ft p gid (gp_Anchors p) vs es env alone _ _ _ _ _ _ _ Ex eq_refl (Htell _ _ Ex) Hown Ep)
      as (Hrows & Hgr & -> & ->).
    apply (markPartial_Ok _ _ _ _ _ g) in H as ((Ef & Ee & Ea) & g' & Hg' & Hk' & Hst & Hsr & Hac & Hlc);
      [|by rewrite Hgr|done].
    exists g'. split; [done|]. split; [congruence|]. right. split; [done|]. split; [congruence|].
    exists vs, es. split; [done|]. split; [|done]. unfold rows_are in *. by rewrite Ef, Ee, Ea.
  - apply wrap_Ok in H. apply stmt_Ok in H; [|done]. eapply update_row in H as [Hg' Hsame]; [|exact Hg|done|done].
    exists (mark_graph "SKIPPED" false 0 0 0 0 (Some (ce_now (env n1))) (Some (wr_ErrorMessage r)) (ce_now (env n1)) g).
    split; [done|]. split; [done|]. left. split; [done|].
    destruct Hsame as (Ef & Ee & Ea), (bu_rows _ _ _ _ _ start) as (Ef' & Ee' & Ea' & _).
    unfold same_rows. rewrite Ef, Ee, Ea. done.
  - unfold fail_graph in H. rewrite run_then in H. by destruct (run _ _ (markFailed _ _ _) _) as [[? ?] [[]|]].
Qed.

(** A snapshot that had ended keeps its status and its rows. *)
Lemma settled_kept graph n n' w' opts g : wo_ActivateRevision opts = false ->
  cr_graphs (cw_rest w) !! gid = Some g -> settled g = true ->
  run env n (build_graph ft graph p opts gid st) w1 = (n', w', Done (Ok tt)) ->
  exists g', cr_graphs (cw_rest w') !! gid = Some g' /\ graph_key g' = graph_key g /\
    gx_status g' = gx_status g /\ same_rows w w'.
Proof.
  intros Hact Hg Hs. rewrite (bu_settled _ _ _ _ _ start g Hg Hs).
  rewrite <- (bu_status _ _ _ _ _ start g Hg Hs). unfold build_graph.
  apply bool_decide_eq_true in Hs. destruct (old_org g Hg) as [Ho Hr].
  assert (E : gx_status g = "READY" \/ gx_status g = "SKIPPED") by set_solver.
  destruct E as [E|E]; rewrite E; simpl.
  - unfold duplicate_ready. rewrite Hact. intros H. apply wrap_Ok in H. apply stmt_Ok in H; [|done].
    eapply update_row in H as [Hg' Hsame]; [|exact Hg|done|done]. eexists. split; [exact Hg'|].
    by destruct (_ && _).
  - intros [= _ <-]. exists g. done.
Qed.
End Pending.

(** What a successful write of the AST layer leaves.  Run alone, from tables
    that keep their foreign keys, with digests that tell the edges of the payload
    apart: the snapshot of the payload's commit is there; and either it was READY
    or SKIPPED before, and kept its status and every row; or it is SKIPPED and no
    row changed; or it is PARTIAL for the payload's revision, its rows are exactly
    those of the anchors and of the rows the statements insert, each in the columns
    the writer gives them, nothing of an earlier attempt being left, and its counts
    are the number of anchors and of the edges that link them. *)
Theorem pending_write_result h p env n w n' w' :
  (forall i, ce_others (env i) = id) -> graph_tables_ok w -> tells_apart p ->
  run env n (WritePendingPayload h p) w = (n', w', Done (Ok tt)) ->
  exists gid g', cr_graphs (cw_rest w') !! gid = Some g' /\ graph_key g' = payload_key p /\
    ((exists g, cr_graphs (cw_rest w) !! gid = Some g /\ settled g = true /\
        gx_status g' = gx_status g /\ same_rows w w') \/
     (gx_status g' = "SKIPPED" /\ same_rows w w') \/
     partial_with_rows (gh_float h) p gid w' g').
Proof.
  intros Ho Htab Htell. unfold WritePendingPayload, writePayload.
  destruct (gh_db h); [|done]. destruct (gh_graph h) as [graph|]; [|done].
  destruct (GraphPayload_Validate _ _); [done|]. destruct (ValidateRenderedStatementWrite _); [|done].
  intros H. apply (checked_write_run env Ho) in H as [(e & ? & _)|(Ha & n1 & w1 & gid & st & Hb & H)]; [done|].
  destruct Ha as [(r & o & Hr & Horg & _) _].
  assert (Hrepo : exists r, db_repos (cw_db w) !! gp_RepoID p = Some r /\ repo_orgId r = gp_OrgID p) by eauto.
  destruct (bu_row _ _ _ _ _ Hb) as (g1 & Hg1 & Hst & Hk & Hun). exists gid.
  destruct (settled g1) eqn:Es.
  - pose proof (bu_ended _ _ _ _ _ Hb g1 Hg1 Es) as Eg.
    pose proof (fun act => settled_kept (gh_float h) p env Ho gid st w w1 Hb Htab Hrepo _ _ _ _ _ g1 act Eg Es H) as Hk1.
    destruct (Hk1 eq_refl) as (g' & Hg' & Hk' & Hst' & Hsame).
    exists g'. split; [done|]. split; [congruence|]. eauto 6.
  - destruct (Hun eq_refl) as [-> Hsrc].
    destruct (write_graph_Ok (gh_float h) p env Ho gid "BUILDING" w w1 Hb Htab Hrepo graph n1 n' w'
      {| wo_AllowPendingManifest := true; wo_ActivateRevision := false; wo_PartialOnly := true |}
      eq_refl Htell eq_refl) as (g' & Hg' & Hk' & Hor); [eauto|exact H|].
    exists g'. split; [done|]. split; [done|]. auto.
Qed.

(** The guard of [markFailed] is missing from its siblings.  A write that was
    under way when its snapshot became READY for another reader takes READY away
    when it ends: the last update of the AST layer makes the snapshot PARTIAL, and
    that of a skipped write SKIPPED, whatever the status is by then; the update of a
    failed write leaves READY and SKIPPED alone. *)
Theorem late_write_demotes p gid r reason env n w g counts :
  (forall i, ce_others (env i) = id /\ ce_fault (env i) 0%nat = None) ->
  cr_graphs (cw_rest w) !! gid = Some g -> gx_status g = "READY" ->
  gx_orgId g = gp_OrgID p -> gx_repoId g = gp_RepoID p -> result_counts r = Ok counts ->
  let after m := (run env n m w).1.2 in
  (exists g', cr_graphs (cw_rest (after (markPartial gid p r))) !! gid = Some g' /\ gx_status g' = "PARTIAL") /\
  (exists g', cr_graphs (cw_rest (after (markSkipped gid p reason))) !! gid = Some g' /\ gx_status g' = "SKIPPED") /\
  cr_graphs (cw_rest (after (markFailed gid p reason))) !! gid = Some g.
Proof.
  intros Henv Hg Hs Ho Hr Hc. assert (Hal : forall i, ce_others (env i) = id) by apply Henv.
  destruct counts as [[[v e] a] l]. cbn zeta. unfold markPartial, markSkipped, markFailed. rewrite Hc.
  rewrite !(run_alone_stmt env Hal), (proj2 (Henv n)). unfold update_graph. cbn [fst snd].
  repeat split; simpl; rewrite lookup_alter_eq, Hg; simpl; rewrite Ho, Hr, !Z.eqb_refl;
    [eexists; split; [done|done]..|]. unfold settled. by rewrite Hs.
Qed.
