(* ===== verification/CoreRun.v ===== *)
(** The handler of the core subjobs over every interleaving: the order of its
    calls, its effect on the subjob table, that it returns, that it never panics on
    a message it accepts, and what happens to the job. *)
From Stdlib Require Import Ascii.
From S2P Require Import Prelude GoStd GoStdFacts GoJSON GoText WorkerClasses SubjobTypes SubjobStore SubjobTask.
From S2P Require Import SubjobCodec SubjobSystem SubjobInvariants SubjobFacts ManifestDelta Executor ExecutorFacts.
From S2P Require Import Scheduler GraphSchema GraphStore ScipProjection RepoIndexDB RepoJobs CoreDB IndexCore.
From S2P Require Import CoreActivate CoreFacts.
(** ** The effect of the statements, as steps of the subjob system *)

Lemma traces_kept w w' : subjobs_kept w w' -> traces (cw_db w) (cw_db w').
Proof.
  intros [Hs Hl]. destruct (cw_db w') as [sj jobs repos mfs ixs lock] eqn:E. simpl in *. subst.
  exists [OpEnv jobs repos mfs ixs]. done.
Qed.

(** What the work goroutine has reported, by its state. *)
Definition core_reported (k : core_work) : list hcall :=
  match ck_prog k with
  | PRet (Ok _) => [HExecuted None]
  | PRet (Err e) => [HExecuted (Some e)]
  | _ => []
  end.

Definition core_calls (k : core_work) (l : list hcall) : Prop :=
  calls subjobs_kept (ck_prog k) /\ l = core_reported k.

Lemma core_calls_step ce k db db' k' cs l :
  core_step ce k db = (db', k', cs) -> core_done k = None -> core_calls k l ->
  traces db db' /\ erase cs = cs /\ core_calls k' (l ++ cs).
Proof.
  destruct k as [m rest]. unfold core_step, core_done, core_calls, core_reported. simpl.
  destruct m as [[]| |B f c]; simpl; try done.
  - intros [= <- <- <-] _ [_ ->]. repeat split; auto with go.
  - unfold do_call. set (w := {| cw_db := db; cw_rest := rest |}).
    destruct (f ce (with_rest (ce_others ce) w)) as [w1 r] eqn:E.
    intros [= <- <- <-] _ [[Hf Hc] ->]. specialize (Hf ce (with_rest (ce_others ce) w)).
    rewrite E in Hf. apply traces_kept in Hf. split; [exact Hf|]. simpl.
    split; [by destruct (c r) as [[]| |]|]. split; [apply Hc|]. by destruct (c r) as [[]| |].
Qed.

(** ** Protocol *)

(** The calls of a run, heartbeats left out. *)
Inductive core_protocol : list hcall -> Prop :=
| cp_dropped : core_protocol []
| cp_not_claimed : core_protocol [HClaim false]
| cp_failed run ok : (run = [] \/ exists e, run = [HExecuted e]) ->
    core_protocol (HClaim true :: run ++ [HFailed "CORE_SUBJOB_FAILED" ok])
| cp_finished ok : core_protocol [HClaim true; HExecuted None; HSucceeded ok].

Lemma core_reported_case k : core_reported k = [] \/ exists e, core_reported k = [HExecuted e].
Proof. unfold core_reported. destruct (ck_prog k) as [[]| |]; eauto. Qed.

(** What a run that returned guarantees. *)
Definition core_spec (id : string) (db db' : DB) (log : list hcall) : Prop :=
  traces db db' /\ core_protocol (erase log) /\
  (HSucceeded true ∈ erase log -> status_of id db' = Some StatusSucceeded).

Lemma core_markFailed_spec h id att msg e env db log db' log' err :
  core_markFailed h id att msg e (run_ops env db) log = (db', log', err) ->
  traces db db' /\ exists ok, log' = log ++ [HFailed "CORE_SUBJOB_FAILED" ok].
Proof.
  unfold core_markFailed. set (db1 := run_ops env db).
  pose proof (mark_failure_trace (me_fault1 e) (me_fault2 e) (me_now1 e) (me_now2 e) "MarkFailed"
    markable failed_status id (h_leaseOwner h) att "CORE_SUBJOB_FAILED" msg db1
    (fun c m => OpFailed (me_fault1 e) (me_now1 e) id (h_leaseOwner h) att c m)
    (fun _ _ => eq_refl)) as Ht.
  change (mark_failure _ _ _ _ _ _ _ _ _ _ _ _ db1) with
    (SubjobStore.MarkFailed (me_fault1 e) (me_fault2 e) (me_now1 e) (me_now2 e) id (h_leaseOwner h)
    att "CORE_SUBJOB_FAILED" msg db1) in Ht.
  destruct (SubjobStore.MarkFailed _ _ _ _ _ _ _ _ _ db1) as [db2 r]. intros [= <- <- _].
  split; [|eauto]. eapply traces_trans; [apply traces_ops|exact Ht].
Qed.

Lemma run_complete_kept env p n w n' w' o :
  run env n (completeJobIfReady p) w = (n', w', o) -> subjobs_kept w w'.
Proof. apply run_calls_keep; [apply _|done|apply calls_complete]. Qed.

Lemma execute_starts h p ws : pl_WorkspaceID p = Some ws ->
  (pl_Layer p =s LayerGraphMerge) || (pl_Layer p =s LayerActivate) = true ->
  forall rest, core_reported {| ck_prog := execute h p; ck_rest := rest |} = [].
Proof.
  intros Hws Hl rest. unfold execute, core_reported. simpl.
  destruct (pl_Layer p =s LayerGraphMerge).
  { unfold mergeGraph. by rewrite Hws. }
  simpl in Hl. rewrite Hl. unfold activate. by rewrite Hws.
Qed.

Lemma core_claimed_spec h p att sc w log w' log' err ws :
  pl_WorkspaceID p = Some ws ->
  (pl_Layer p =s LayerGraphMerge) || (pl_Layer p =s LayerActivate) = true ->
  erase log = [HClaim true] ->
  core_claimed h p att sc w log = Some (w', log', err) ->
  core_spec (pl_SubjobID p) (cw_db w) (cw_db w') log'.
Proof.
  intros Hws Hlayer Hlog. unfold core_claimed, core_withHeartbeat. cbn zeta. set (id := pl_SubjobID p).
  destruct (withHeartbeat _ _ _ _ _ _ _ _ _) as [[[[db1 k] log1] err1]|] eqn:E1; [|done].
  apply (withHeartbeat_inv _ _ _ _ _ core_calls) in E1 as (T1 & (l1 & L1 & (K1 & ->)) & D1);
    [|by intros; eapply core_calls_step|].
  2:{ split; [apply calls_execute|]. by erewrite execute_starts. }
  rewrite Hlog in L1. apply (traces_trans _ _ _ (traces_ops (cs_env2 sc) (cw_db w))) in T1.
  destruct err1 as [runErr|].
  - destruct (core_markFailed _ _ _ _ _ _ _) as [[db2 log2] e] eqn:Em. intros [= <- <- _].
    apply core_markFailed_spec in Em as (T2 & ok & ->).
    split; [by eapply traces_trans|]. rewrite erase_last, L1 by done.
    split; [apply (cp_failed _ ok), core_reported_case|].
    destruct (core_reported_case k) as [->|[e' ->]]; set_solver.
  - specialize (D1 eq_refl).
    destruct (MarkSucceeded _ _ _ _ _ _) as [db2 r] eqn:Es.
    apply MarkSucceeded_spec in Es as [T2 Hs].
    assert (Hr : core_reported k = [HExecuted None]).
    { unfold core_done in D1. unfold core_reported. by destruct (ck_prog k) as [[]| |]. }
    assert (Hsp : core_spec id (cw_db w) db2 (log1 ++ [HSucceeded (is_true r)])).
    { split; [by eapply traces_trans|]. rewrite erase_last, L1, Hr by done.
      split; [constructor|]. intros H. apply Hs. set_unfold in H. naive_solver. }
    destruct r as [[]|e]; [|by intros [= <- <- _]..].
    destruct (pl_Layer p =s LayerActivate); [|by intros [= <- <- _]].
    destruct (run _ _ _ _) as [[n3 w3] o] eqn:Er. apply run_complete_kept in Er.
    assert (Hw3 : core_spec id (cw_db w) (cw_db w3) (log1 ++ [HSucceeded true])).
    { destruct Hsp as (T & P & S). split; [|split; [done|]].
      - eapply traces_trans; [exact T|]. eapply traces_trans; [apply traces_ops|].
        apply traces_kept in Er. exact Er.
      - intros H. specialize (S H). destruct Er as [Er _]. unfold status_of in *. rewrite Er. simpl.
        destruct (db_subjobs db2 !! id) as [x|] eqn:Ex; [|done]. injection S as S.
        rewrite (run_ops_ended (cs_env4 sc) db2 _ x); [simpl; by rewrite S|done|by rewrite S]. }
    destruct o as [[]|]; [by intros [= <- <- _]..|done].
Qed.

(** ** Messages that are accepted *)

Lemma Unmarshal_workspace raw p : Unmarshal raw = Ok p ->
  (exists ws, pl_WorkspaceID p = Some ws) /\ commitHashPattern (pl_CommitHash p) = true.
Proof. intros H%unmarshal_validated. naive_solver. Qed.

Lemma Handle_core_spec h ty raw sc w w' log err :
  Handle h ty raw sc w = Some (w', log, err) ->
  match Unmarshal raw with
  | Ok p => core_spec (pl_SubjobID p) (cw_db w) (cw_db w') log
  | Err _ => w' = w /\ log = [] /\ err = None
  end.
Proof.
  unfold Handle. destruct (Unmarshal raw) as [p|] eqn:Eu; [|by intros [= <- <- <-]].
  assert (Hnil : core_spec (pl_SubjobID p) (cw_db w) (cw_db w) []).
  { split; [auto with go|]. split; [constructor|set_solver]. }
  destruct (negb (ty =s _)); [by intros [= <- <- _]|].
  destruct (_ && _) eqn:El; [by intros [= <- <- _]|].
  cbn zeta. set (att := generatedAttemptID _ _ _).
  pose proof (traces_op (OpClaim (cs_claim_fault sc) (cs_claim_dbnow sc) (toClaimScope p)
    (h_leaseOwner (ch_lease h)) att (cs_claim_clock sc + h_leaseDuration (ch_lease h)))
    (run_ops (cs_env1 sc) (cw_db w))) as Tc.
  simpl in Tc. destruct (ClaimScoped _ _ _ _ _ _ _) as [db1 r] eqn:Ec. simpl in Tc.
  apply (traces_trans _ _ _ (traces_ops (cs_env1 sc) (cw_db w))) in Tc.
  apply Unmarshal_workspace in Eu as [[ws Hws] _].
  destruct r as [[]|e].
  - intros H. eapply core_claimed_spec in H; [|exact Hws| |done].
    2:{ by destruct (pl_Layer p =s LayerGraphMerge), (pl_Layer p =s LayerActivate). }
    destruct H as (T & P). split; [by eapply traces_trans|done].
  - intros [= <- <- _]. split; [done|]. split; [constructor|set_solver].
  - intros [= <- <- _]. split; [done|]. split; [constructor|set_solver].
Qed.

(** ** Panics *)

Lemma commit_length s : commitHashPattern s = true -> (String.length s <? 12)%nat = false.
Proof.
  unfold commitHashPattern. intros H. apply andb_true_iff in H as [H _].
  apply Nat.eqb_eq in H. rewrite H. done.
Qed.

Lemma no_panic_query {A} h label (rows : CoreWorld -> A) : no_panic (dbQuery h label rows).
Proof. unfold dbQuery. by destruct (negb _). Qed.

Lemma no_panic_load h p ws : pl_WorkspaceID p = Some ws -> no_panic (loadSCIPProjectionRows h p).
Proof.
  intros Hws. unfold loadSCIPProjectionRows. rewrite Hws. cbn [pderef].
  apply no_panic_bind; [done|]. intros.
  repeat (apply no_panic_bind; [apply no_panic_query|]; intros). done.
Qed.

Lemma no_panic_project h gid p rows ws :
  pl_WorkspaceID p = Some ws -> commitHashPattern (pl_CommitHash p) = true ->
  no_panic (projectSCIPSemanticGraphRows h gid p rows).
Proof.
  intros Hws Hc. unfold projectSCIPSemanticGraphRows. rewrite Hws, (commit_length _ Hc).
  destruct (no_rows rows); [done|]. unfold store_snapshot. destruct (empty_snapshot _); [done|].
  apply no_panic_bind.
  - destruct (ch_graph h); [|done]. unfold writeSCIPSnapshotToGraph.
    assert (Hc1 : forall s, no_panic (writeSCIPSnapshotChunkToGraph h g p s)).
    { intros s. unfold writeSCIPSnapshotChunkToGraph. destruct (empty_snapshot s); [done|].
      apply no_panic_bind; [done|]. intros [res [e|]]; [done|]. by destruct (wr_Status res). }
    apply no_panic_bind; intros; by apply no_panic_for.
  - intros _. apply no_panic_bind; intros; apply no_panic_for; intros []; [done|by intros []|done|by intros []].
Qed.

Lemma no_panic_promote p ws : no_panic (promote p ws).
Proof.
  apply no_panic_bind; [by apply no_panic_wrap|]. intros []; [done|].
  apply no_panic_bind; [by apply no_panic_wrap|]. by intros [].
Qed.

(** No panic on a workspace and a commit hash that pass validation. *)
Lemma no_panic_execute h p ws :
  pl_WorkspaceID p = Some ws -> commitHashPattern (pl_CommitHash p) = true ->
  no_panic (execute h p).
Proof.
  intros Hws Hc. unfold execute. destruct (_ =s _); cycle 1.
  { destruct (_ =s _); [|done]. unfold activate. by rewrite Hws. }
  unfold mergeGraph. rewrite Hws. cbn [pderef]. apply no_panic_bind; [done|]. intros ws'.
  apply no_panic_then; [by apply no_panic_wrap|]. intros [gid|e].
  - apply no_panic_bind; [|intros; apply no_panic_promote]. unfold projectSCIPSemanticGraph.
    rewrite Hws. apply no_panic_bind; [by eapply no_panic_load|]. intros. by eapply no_panic_project.
  - destruct (negb _); [done|]. apply no_panic_bind; [by eapply no_panic_load|]. intros rows.
    destruct (no_rows rows); [done|]. apply no_panic_bind.
    { unfold createPartialGraphIndexForSCIPOnly. rewrite Hws. by apply no_panic_wrap. }
    intros gid. apply no_panic_bind; [by eapply no_panic_project|]. intros. apply no_panic_promote.
Qed.

(** ** Runs return *)

Section Ends.
Context (h : Handler) (id att : string) (ce : CallEnv).
Notation step := (fun s ev => wh_step core_step core_done h id att ev s).

Lemma step_no_panic ev s :
  no_panic (ck_prog (wh_work s)) ->
  no_panic (ck_prog (wh_work (wh_step core_step core_done h id att ev s))).
Proof.
  destruct s as [db m b [pr rest] log]. simpl. intros Hp.
  destruct ev; simpl; try done.
  - destruct b, m; try done. by destruct (beat _ _ _ _ _ _ _).
  - unfold core_done, core_step. simpl. destruct pr as [[]| |B f c]; simpl; try done.
    destruct m; try done; destruct (do_call a f _) as [w' r]; simpl; apply Hp.
  - by destruct m, b.
  - unfold core_done. simpl. destruct m, pr as [[]| |]; done.
  - by destruct m.
Qed.

Lemma steps_no_panic evs s :
  no_panic (ck_prog (wh_work s)) -> no_panic (ck_prog (wh_work (foldl step s evs))).
Proof.
  revert s. induction evs as [|ev evs IH]; intros s Hs; [done|]. apply IH. by apply step_no_panic.
Qed.

(** Enough calls finish what is left of the program. *)
Lemma work_ends m rest db :
  no_panic m -> exists n, forall s, wh_work s = {| ck_prog := m; ck_rest := rest |} ->
    wh_db s = db -> wh_main s = MainSelect ->
    core_done (wh_work (foldl step s (map EvWork (replicate n ce)))) <> None.
Proof.
  revert rest db. induction m as [r| |B f c IH]; intros rest db Hm; [|done|].
  { exists O. intros s Hs _ _. simpl. rewrite Hs. by destruct r. }
  destruct (do_call ce f {| cw_db := db; cw_rest := rest |}) as [w' r] eqn:E.
  destruct (IH r (cw_rest w') (cw_db w') (Hm r)) as [n Hn]. exists (S n). intros s Hs Hd Hmain.
  cbn [replicate map foldl]. apply Hn.
  all: unfold wh_step; rewrite Hs, Hmain; unfold core_done, core_step; simpl; rewrite Hd, E; done.
Qed.

(** Every script can be extended to one after which the call has returned. *)
Lemma core_heartbeat_returns sc k db log :
  no_panic (ck_prog k) ->
  exists evs, withHeartbeat core_step core_done h id att
    {| ws_fault := ws_fault sc; ws_clock := ws_clock sc; ws_dbnow := ws_dbnow sc;
       ws_events := ws_events sc ++ evs |} k db log <> None.
Proof.
  intros Hk. unfold withHeartbeat. cbn [ws_fault ws_clock ws_dbnow ws_events].
  destruct (beat _ _ _ _ _ _ _) as [db1 [[]|e]]; [|by exists []..].
  set (s0 := {| wh_db := db1 |}). set (s1 := foldl step s0 (ws_events sc)).
  assert (H1 : no_panic (ck_prog (wh_work s1))) by (by apply steps_no_panic).
  destruct (wh_work s1) as [m rest] eqn:Ew.
  destruct (work_ends m rest (wh_db s1) H1) as [n Hn].
  exists (finish (replicate n ce)). rewrite foldl_app. fold s1.
  destruct (finish_returns core_step core_done h id att (replicate n ce) s1) as [e He].
  { intros s' Hw Hd Hm. apply Hn; [by rewrite Hw, Ew|done|done]. }
  by rewrite He.
Qed.
End Ends.

(** A script whose work goes on by [evs]. *)
Definition more_events (evs : list (event CallEnv)) (sc : core_script) : core_script :=
  {| cs_nonce := cs_nonce sc; cs_claim_clock := cs_claim_clock sc;
     cs_claim_fault := cs_claim_fault sc; cs_claim_dbnow := cs_claim_dbnow sc;
     cs_run := {| ws_fault := ws_fault (cs_run sc); ws_clock := ws_clock (cs_run sc);
                  ws_dbnow := ws_dbnow (cs_run sc); ws_events := ws_events (cs_run sc) ++ evs |};
     cs_mark := cs_mark sc; cs_complete := cs_complete sc; cs_env1 := cs_env1 sc;
     cs_env2 := cs_env2 sc; cs_env3 := cs_env3 sc; cs_env4 := cs_env4 sc |}.

Definition quiet_call : CallEnv :=
  {| ce_fault := fun _ => None; ce_now := 0; ce_id := fun _ => ""; ce_others := id |}.

Lemma no_panic_complete p : no_panic (completeJobIfReady p).
Proof. apply no_panic_bind; intros; by apply no_panic_wrap. Qed.

Lemma Handle_core_returns h ty raw sc w :
  exists evs, is_Some (Handle h ty raw (more_events evs sc) w).
Proof.
  unfold Handle. destruct (Unmarshal raw) as [p|] eqn:Eu; [|by exists []; eexists].
  destruct (negb (ty =s _)); [by exists []; eexists|]. destruct (_ && _); [by exists []; eexists|].
  apply Unmarshal_workspace in Eu as [[ws Hws] Hc]. cbn zeta.
  cbn [more_events cs_nonce cs_claim_clock cs_claim_fault cs_claim_dbnow cs_run cs_mark cs_complete
    cs_env1 cs_env2 cs_env3 cs_env4 cw_db cw_rest].
  set (att := generatedAttemptID _ _ _).
  destruct (ClaimScoped _ _ _ _ _ _ _) as [db1 [[]|e]]; [|by exists []; eexists..].
  unfold core_claimed, core_withHeartbeat. cbn [more_events cs_nonce cs_claim_clock cs_claim_fault cs_claim_dbnow cs_run cs_mark cs_complete
    cs_env1 cs_env2 cs_env3 cs_env4 cw_db cw_rest].
  destruct (core_heartbeat_returns (ch_lease h) (pl_SubjobID p) att quiet_call (cs_run sc)
    {| ck_prog := execute h p; ck_rest := cw_rest w |} (run_ops (cs_env2 sc) db1) [HClaim true])
    as [evs Hevs]; [by eapply no_panic_execute|].
  exists evs. destruct (withHeartbeat _ _ _ _ _ _ _ _ _) as [[[[db2 k] log] [e|]]|]; [| |done].
  - destruct (core_markFailed _ _ _ _ _ _ _) as [[db3 log3] e']. by eexists.
  - destruct (MarkSucceeded _ _ _ _ _ _) as [db3 [[]|e]]; [|by eexists..].
    destruct (_ =s _); [|by eexists].
    match goal with |- context [run ?e ?n ?m ?w0] =>
      destruct (run_no_panic e n m w0 (no_panic_complete p)) as (n' & w' & r & ->) end.
    destruct r; by eexists.
Qed.

(** C12: the contract of the core worker, over every interleaving of its heartbeat,
    the statements of its merge or activation and the statements of other clients,
    with any faults.  When a run returns, its calls were made in order (one claim,
    then the work, then one report; success is reported only after the work ended
    without error), its effect on the database is a sequence of steps of the subjob
    system, so that every invariant of the subjob table survives it, and a reported
    success leaves the subjob SUCCEEDED for good.  A message that does not decode
    changes nothing.  And every run can be brought to return: no accepted message
    makes the worker panic or call without end. *)
Theorem core_worker_contract h ty raw sc w :
  (exists evs, is_Some (Handle h ty raw (more_events evs sc) w)) /\
  (forall w' log err, Handle h ty raw sc w = Some (w', log, err) ->
     core_protocol (erase log) /\
     (exists os, cw_db w' = run_ops os (cw_db w)) /\
     (forall e, Unmarshal raw = Err e -> w' = w /\ err = None) /\
     (forall p, Unmarshal raw = Ok p -> HSucceeded true ∈ log ->
        forall os, status_of (pl_SubjobID p) (run_ops os (cw_db w')) = Some StatusSucceeded)).
Proof.
  split; [apply Handle_core_returns|]. intros w' log err H%Handle_core_spec.
  destruct (Unmarshal raw) as [p|].
  - destruct H as (T & P & S). split; [done|]. split; [done|]. split; [done|].
    intros q [= <-] Hin os.
    assert (Hs : status_of (pl_SubjobID p) (cw_db w') = Some StatusSucceeded).
    { apply S. apply list_elem_of_In, filter_In. split; [by apply list_elem_of_In|done]. }
    by apply succeeded_stays.
  - destruct H as (-> & -> & ->). split; [constructor|]. split; [apply traces_refl|]. done.
Qed.
