(* ===== verification/CoreActivateFacts.v ===== *)
(** What an activation does to the tables: one manifest of a branch becomes READY
    and the others of the branch give way, the graph revision points to a finished
    snapshot, the repository records the branch; or nothing happens at all. *)
From Stdlib Require Import Ascii.
From S2P Require Import Prelude GoStd GoStdFacts GoJSON GoText SubjobTypes SubjobStore SubjobTask SubjobCodec.
From S2P Require Import SubjobSystem SubjobInvariants SubjobFacts ManifestDelta Executor ExecutorFacts Scheduler.
From S2P Require Import GraphSchema GraphStore ScipProjection RepoIndexDB RepoJobs CoreDB IndexCore CoreActivate.
From S2P Require Import CoreFacts CoreRun.
(** ** Transactions that commit *)

Lemma tx_bind_Ok {A B} (m : TX A) (k : A -> TX B) s s' b :
  tx_bind m k s = (s', Ok b) -> exists s1 a, m s = (s1, Ok a) /\ k a s1 = (s', Ok b).
Proof. unfold tx_bind. destruct (m s) as [s1 [a|e]]; [eauto|done]. Qed.

Lemma tx_stmt_Ok {A} ce pre (stmt : CoreWorld -> result gerror (CoreWorld * A)) n w s' a :
  tx_stmt ce pre stmt (n, w) = (s', Ok a) -> exists w', s' = (S n, w') /\ stmt w = Ok (w', a).
Proof.
  unfold tx_stmt. destruct (ce_fault ce n); [done|]. destruct (stmt w) as [[w' x]|]; [|done].
  intros [= <- <-]. eauto.
Qed.

(** One statement of a committed transaction. *)
Ltac tx_step H w Hs :=
  apply tx_bind_Ok in H as (?s & ?a & Hs & H); apply tx_stmt_Ok in Hs as (w & -> & Hs).

(** ** The first row of an ordered selection *)

Lemma head_sort_elem {A} (less : A -> A -> bool) l x :
  head (sort_stable less l) = Some x -> x ∈ l.
Proof.
  intros H. apply (elem_of_sort_stable less). destruct (sort_stable less l); [done|].
  injection H as ->. left.
Qed.

Lemma head_sort_None {A} (less : A -> A -> bool) l : head (sort_stable less l) = None <-> l = [].
Proof.
  split; [|by intros ->]. intros H. apply nil_length_inv. rewrite <- (length_sort_stable less).
  by destruct (sort_stable less l).
Qed.

Lemma head_sort_graph less f w kv :
  head (sort_stable less (graphs_where f w)) = Some kv ->
  cr_graphs (cw_rest w) !! kv.1 = Some kv.2 /\ f kv.2 = true.
Proof.
  intros H%head_sort_elem. apply elem_of_List_filter in H as [H ?]. split; [|done].
  apply elem_of_map_to_list. by destruct kv.
Qed.

(** ** The manifests after an activation *)

Lemma NoDup_map_inj {A B} (f : A -> B) l x y :
  NoDup (map f l) -> x ∈ l -> y ∈ l -> f x = f y -> x = y.
Proof.
  intros Hnd Hx Hy E. induction l as [|z l IH]; [by apply elem_of_nil in Hx|]. simpl in Hnd.
  apply NoDup_cons in Hnd as [Hz Hnd].
  assert (Hin : forall v, v ∈ l -> f v = f z -> False).
  { intros v Hv Ev. apply Hz. rewrite <- Ev. by apply list_elem_of_fmap_2. }
  apply elem_of_cons in Hx as [->|Hx], Hy as [->|Hy]; [done| | |by apply IH].
  - exfalso. by eapply Hin.
  - exfalso. by eapply Hin.
Qed.

(** What becomes of a manifest when [m] is activated at [now]. *)
Definition manifest_after (p : Payload) (ws : string) (m : Manifest) (now : Z) (x : Manifest) : Manifest :=
  if mf_id x =s mf_id m then set_manifest ManifestReady (Some now) (mf_supersededAt x) None None now x
  else if branch_manifest p ws (mf_providerConnectionId m) x then
    if bool_decide (mf_status x = ManifestReady) then supersede now (mf_errorMessage x) x
    else if bool_decide (mf_status x = ManifestPending) && (mf_createdAt x <=? mf_createdAt m)
    then supersede now (Some (coalesce stale_message (mf_errorMessage x))) x
    else x
  else x.

Lemma pending_branch p ws m : pending_of p ws m = true ->
  branch_manifest p ws (mf_providerConnectionId m) m = true /\ mf_status m = ManifestPending.
Proof.
  unfold pending_of, branch_manifest. rewrite !andb_true_iff, !bool_decide_eq_true.
  intros ((((((_ & ->) & ->) & ->) & ->) & _) & ->). done.
Qed.

Lemma find_by_id (f : Manifest -> bool) ms m :
  NoDup (map mf_id ms) -> m ∈ ms -> f m = true -> (forall x, f x = true -> mf_id x = mf_id m) ->
  List.find f ms = Some m.
Proof.
  intros Hnd Hm Hf Hid. induction ms as [|x ms IH]; [by apply elem_of_nil in Hm|].
  simpl in *. apply NoDup_cons in Hnd as [Hx Hnd]. destruct (f x) eqn:E.
  - apply elem_of_cons in Hm as [->|Hm]; [done|]. exfalso. apply Hx. rewrite (Hid x E).
    by apply list_elem_of_fmap_2.
  - apply elem_of_cons in Hm as [->|Hm]; [congruence|by apply IH].
Qed.

(** The three updates of the manifests, together. *)
Lemma manifests_activated p ws m now w w1 w2 w3 a1 a2 a3 :
  NoDup (map mf_id (db_manifests (cw_db w))) -> m ∈ db_manifests (cw_db w) -> pending_of p ws m = true ->
  supersede_ready p ws (mf_id m) (mf_providerConnectionId m) now w = Ok (w1, a1) ->
  supersede_stale p ws (mf_id m) (mf_providerConnectionId m) now w1 = Ok (w2, a2) ->
  activate_manifest (mf_id m) now w2 = Ok (w3, a3) ->
  cw_db w3 = set_manifests (map (manifest_after p ws m now)) (cw_db w) /\ cw_rest w3 = cw_rest w.
Proof.
  intros Hnd Hm Hp [= <- _]. destruct (pending_branch p ws m Hp) as [Hb Hs].
  set (f1 := fun x => if negb (mf_id x =s mf_id m) && branch_manifest p ws (mf_providerConnectionId m) x
     && bool_decide (mf_status x = ManifestReady) then supersede now (mf_errorMessage x) x else x).
  assert (Hf1 : forall x, mf_id (f1 x) = mf_id x) by (intros x; unfold f1; by destruct (_ && _)).
  assert (Hm1 : f1 m = m) by (unfold f1; by rewrite str_eqb_refl).
  unfold supersede_stale, current_createdAt. simpl.
  rewrite (find_by_id _ (map f1 (db_manifests (cw_db w))) m).
  - simpl. intros [= <- _] [= <- _]. split; [|done]. simpl. unfold set_manifests. simpl. f_equal.
    rewrite !map_map. apply map_ext_in. intros x Hx%list_elem_of_In. unfold manifest_after.
    destruct (mf_id x =s mf_id m) eqn:Ei.
    + apply str_eqb_spec in Ei.
      assert (x = m) as ->.
      { eapply NoDup_map_inj; eauto. }
      rewrite Hm1. rewrite str_eqb_refl. simpl. by rewrite str_eqb_refl, bool_decide_eq_true_2.
    + rewrite Hf1, Ei. cbn [negb]. unfold f1. rewrite Ei. cbn [negb andb].
      destruct (branch_manifest p ws _ x) eqn:Eb; cbn [andb]; cycle 1.
      { rewrite Eb. cbn [andb]. by rewrite Ei. }
      case_bool_decide as Er.
      * simpl. change (branch_manifest p ws (mf_providerConnectionId m) (supersede now (mf_errorMessage x) x))
          with (branch_manifest p ws (mf_providerConnectionId m) x). rewrite Eb. simpl. by rewrite Ei.
      * rewrite Eb. cbn [andb]. destruct (bool_decide (mf_status x = ManifestPending) && _); simpl; by rewrite Ei.
  - rewrite map_map. by rewrite (map_ext _ mf_id).
  - apply list_elem_of_fmap. exists m. by rewrite Hm1.
  - by rewrite str_eqb_refl, Hb.
  - intros x [Hx _]%andb_true_iff. by apply str_eqb_spec.
Qed.

Lemma manifest_after_ready p ws m now x :
  branch_manifest p ws (mf_providerConnectionId m) x = true ->
  mf_status (manifest_after p ws m now x) = ManifestReady <-> mf_id x = mf_id m.
Proof.
  intros Hb. unfold manifest_after. destruct (mf_id x =s mf_id m) eqn:Ei.
  { apply str_eqb_spec in Ei. done. }
  apply str_eqb_false in Ei. rewrite Hb. case_bool_decide as Er; [done|].
  destruct (_ && _); [done|]. naive_solver.
Qed.

(** An activation does not move a manifest to another branch. *)
Lemma manifest_after_scope p ws m now x :
  mf_id (manifest_after p ws m now x) = mf_id x /\
  (mf_orgId (manifest_after p ws m now x), mf_repoId (manifest_after p ws m now x),
   mf_workspaceId (manifest_after p ws m now x), mf_providerConnectionId (manifest_after p ws m now x),
   mf_branch (manifest_after p ws m now x))
  = (mf_orgId x, mf_repoId x, mf_workspaceId x, mf_providerConnectionId x, mf_branch x).
Proof. unfold manifest_after. by repeat case_match. Qed.

Lemma branch_manifest_after p ws c m now x :
  branch_manifest p ws c (manifest_after p ws m now x) = branch_manifest p ws c x.
Proof.
  destruct (manifest_after_scope p ws m now x) as [_ [= H1 H2 H3 H4 H5]].
  unfold branch_manifest. by rewrite H1, H2, H3, H4, H5.
Qed.

(** ** Revisions and repository *)

Lemma upsert_revision_effect id row w w' a :
  upsert_revision id row w = Ok (w', a) ->
  exists k rv, w' = with_rest (with_revisions (<[k := rv]>)) w /\ revision_key rv = revision_key row /\
    gr_commitHash rv = gr_commitHash row /\ gr_codeGraphIndexId rv = gr_codeGraphIndexId row.
Proof.
  unfold upsert_revision. cbn zeta. destruct (head _) as [[k old]|] eqn:E.
  - destruct (negb _); [done|]. intros [= <- _]. exists k, (revision_merge old row).
    repeat split. apply head_Some_elem_of, elem_of_List_filter in E as [_ E].
    by apply bool_decide_eq_true in E.
  - case_bool_decide; [done|]. destruct (negb _); [done|]. intros [= <- _]. eauto 6.
Qed.

(** The revisions recorded in the metadata of a repository. *)
Definition recorded (h : CoreHandler) (md : option json) : result gerror (list string) :=
  jsonb_array_elements_text (ch_jsonb_text h)
    (default (JArr []) (jsonb_get (default (JObj []) md) "indexedRevisions")).

Lemma record_indexed_effect h p ws now w w' a rp :
  db_repos (cw_db w) !! pl_RepoID p = Some rp -> repo_orgId rp = pl_OrgID p ->
  record_indexed h p ws now w = Ok (w', a) ->
  exists rp' old revisions,
    w' = with_db (set_repos (<[pl_RepoID p := rp']>)) w /\
    recorded h (repo_metadata rp) = Ok old /\ recorded h (repo_metadata rp') = Ok revisions /\
    StronglySorted str_le revisions /\ NoDup revisions /\
    (forall b, b ∈ revisions <-> b <> "" /\ (b ∈ old \/ b ∈ ready_branches p ws (cw_db w))) /\
    repo_indexedCommitHash rp' = Some (pl_CommitHash p) /\ repo_orgId rp' = repo_orgId rp.
Proof.
  intros Hr Ho. unfold record_indexed. rewrite Hr, Ho, Z.eqb_refl. cbn zeta.
  fold (recorded h (repo_metadata rp)). destruct (recorded h (repo_metadata rp)) as [old|]; [|done].
  cbn [rbind]. set (revs := SortStrings _). destruct (jsonb_set _ _ _) as [md'|] eqn:Es; [|done].
  cbn [rbind]. intros [= <- _]. do 3 eexists. split; [done|]. split; [done|].
  split; [exact (set_elements _ _ _ _ _ Es)|].
  split; [apply SortStrings_sorted|]. split; [apply NoDup_SortStrings, NoDup_dedup_first|].
  split; [|done]. intros b. unfold revs. rewrite elem_of_SortStrings, elem_of_dedup_first.
  rewrite elem_of_List_filter, elem_of_app, negb_true_iff, str_eqb_false. set_solver.
Qed.

(** ** The theorem *)

Lemma lock_repo_Ok p w w' a : lock_repo p w = Ok (w', a) ->
  w' = w /\ exists rp, db_repos (cw_db w) !! pl_RepoID p = Some rp /\ repo_orgId rp = pl_OrgID p.
Proof.
  unfold lock_repo. destruct (db_repos _ !! _) as [rp|]; [|done]. destruct (_ =? _) eqn:E; [|done].
  intros [= <- _]. apply Z.eqb_eq in E. eauto.
Qed.

Lemma pending_manifest_Ok p ws w w' m : pending_manifest p ws w = Ok (w', m) ->
  w' = w /\ m ∈ db_manifests (cw_db w) /\ pending_of p ws m = true.
Proof.
  unfold pending_manifest. destruct (head _) as [x|] eqn:E; [|done]. intros [= <- <-].
  apply head_sort_elem, elem_of_List_filter in E as []. done.
Qed.

Lemma ready_graph_Ok p ws w w' gid : ready_graph p ws w = Ok (w', gid) ->
  w' = w /\ exists g, cr_graphs (cw_rest w) !! gid = Some g /\ graph_in_scope p ws g = true /\
    gx_status g = "READY".
Proof.
  unfold ready_graph. destruct (head _) as [kv|] eqn:E; [|done]. intros [= <- <-].
  apply head_sort_graph in E as [Hg [Hs Hr]%andb_true_iff]. apply str_eqb_spec in Hr. eauto 6.
Qed.

Lemma activate_eq h p ws : pl_WorkspaceID p = Some ws -> activate h p = ptx (activate_body h p ws).
Proof. intros Hws. unfold activate. by rewrite Hws. Qed.

(** What holds of a committed activation. *)
Record activated (h : CoreHandler) (p : Payload) (ws : string) (now : Z) (w w' : CoreWorld) : Prop := {
  av_unblocked : blocking_subjobs p ws activate_layers (cw_db w) = [];
  av_manifest : exists m, m ∈ db_manifests (cw_db w) /\ pending_of p ws m = true /\
    db_manifests (cw_db w') = map (manifest_after p ws m now) (db_manifests (cw_db w));
  av_revision : exists gid g k rv,
    cr_graphs (cw_rest w) !! gid = Some g /\ graph_in_scope p ws g = true /\ gx_status g = "READY" /\
    cw_rest w' = with_revisions (<[k := rv]>) (cw_rest w) /\
    revision_key rv = (pl_RepoID p, ws, pl_Revision p, defaultSchemaVersion, defaultBuilder) /\
    gr_commitHash rv = pl_CommitHash p /\ gr_codeGraphIndexId rv = gid;
  av_repo : exists rp rp' old revisions,
    db_repos (cw_db w) !! pl_RepoID p = Some rp /\ repo_orgId rp = pl_OrgID p /\
    db_repos (cw_db w') = <[pl_RepoID p := rp']> (db_repos (cw_db w)) /\
    recorded h (repo_metadata rp) = Ok old /\ recorded h (repo_metadata rp') = Ok revisions /\
    StronglySorted str_le revisions /\ NoDup revisions /\
    (forall b, b ∈ revisions <-> b <> "" /\ (b ∈ old \/ b ∈ ready_branches p ws (cw_db w'))) /\
    repo_indexedCommitHash rp' = Some (pl_CommitHash p);
  av_rest : db_subjobs (cw_db w') = db_subjobs (cw_db w) /\ db_jobs (cw_db w') = db_jobs (cw_db w) /\
    db_indexes (cw_db w') = db_indexes (cw_db w) /\ db_lock (cw_db w') = db_lock (cw_db w)
}.

Lemma activate_body_Ok h p ws ce n w n' w' a :
  NoDup (map mf_id (db_manifests (cw_db w))) ->
  activate_body h p ws ce (n, w) = ((n', w'), Ok a) -> activated h p ws (ce_now ce) w w'.
Proof.
  intros Hnd H. unfold activate_body in H. cbn zeta in H.
  tx_step H w0 H0. injection H0 as <-.
  tx_step H w1 H1. apply lock_repo_Ok in H1 as [-> (rp & Hrp & Horg)].
  tx_step H w2 H2. apply pending_manifest_Ok in H2 as (-> & Hm & Hp).
  tx_step H w3 H3. apply ready_graph_Ok in H3 as (-> & g & Hg & Hgs & Hgr).
  tx_step H w4 H4. injection H4 as <- <-.
  destruct (negb _) eqn:Eb; [done|]. apply negb_false_iff, Z.eqb_eq in Eb.
  tx_step H w5 H5. tx_step H w6 H6. tx_step H w7 H7.
  destruct (manifests_activated _ _ _ _ _ _ _ _ _ _ _ Hnd Hm Hp H5 H6 H7) as [Hdb7 Hrest7].
  tx_step H w8 H8. apply upsert_revision_effect in H8 as (k & rv & -> & Hk & Hc & Hi).
  tx_step H w9 H9. apply tx_stmt_Ok in H as (w10 & [= -> ->] & [= <- _]).
  eapply record_indexed_effect in H9 as (rp' & old & revs & -> & Ho & Hr & Hs & Hn & Hb & Hic & Hio);
    [|simpl; by rewrite Hdb7|done].
  simpl in *. split; simpl; rewrite ?Hdb7, ?Hrest7.
  - by apply nil_length_inv; lia.
  - eauto.
  - match type of Hg with _ !! ?gid = _ => exists gid, g, k, rv end. eauto 8.
  - exists rp, rp', old, revs. rewrite Hdb7 in Hb. 
    repeat (split; [done|]). done.
  - done.
Qed.

(** C13: the activation of a revision is all or nothing, and exact.  If it reports
    an error, nothing changed.  If it succeeds, no subjob of the revision below it
    was unfinished; the pending manifest of the message became READY and is from
    then on the only READY manifest of its branch, the earlier ones having been
    superseded, while manifests of other branches and later pending ones stay as
    they were; the graph revision points to a READY snapshot of exactly this commit
    and revision; the repository records the commit, and lists, sorted and once
    each, the branches it listed before and all branches with a READY manifest; and
    no other row of these tables changed. *)
Theorem activation_effect h p ws env n w n' w' r :
  pl_WorkspaceID p = Some ws -> (forall i, ce_others (env i) = id) ->
  NoDup (map mf_id (db_manifests (cw_db w))) ->
  run env n (activate h p) w = (n', w', Done r) ->
  match r with
  | Err _ => w' = w
  | Ok _ =>
      activated h p ws (ce_now (env n)) w w' /\
      exists m, m ∈ db_manifests (cw_db w') /\ mf_status m = ManifestReady /\
        mf_indexJobId m = Some (pl_RepoIndexingJobID p) /\ mf_commitHash m = pl_CommitHash p /\
        forall x, x ∈ db_manifests (cw_db w') ->
          branch_manifest p ws (mf_providerConnectionId m) x = true ->
          mf_status x = ManifestReady -> x = m
  end.
Proof.
  intros Hws Ho Hnd. rewrite (activate_eq h p ws Hws).
  rewrite run_tx. unfold do_call. rewrite Ho, with_rest_id. unfold tx_call.
  destruct (activate_body h p ws (env n) (0%nat, w)) as [[n1 w1] [a|e]] eqn:E; intros [= <- <- <-]; [|done].
  apply activate_body_Ok in E; [|done]. split; [done|].
  destruct (av_manifest _ _ _ _ _ _ E) as (m & Hm & Hp & Hms).
  pose proof (pending_branch _ _ _ Hp) as [Hb Hst].
  set (f := manifest_after p ws m (ce_now (env n))) in *.
  destruct (manifest_after_scope p ws m (ce_now (env n)) m) as [Hid [= _ _ _ Hconn _]]. fold f in Hid, Hconn.
  exists (f m). rewrite Hms. split; [by apply list_elem_of_fmap_2|].
  split; [by apply manifest_after_ready|].
  assert (Hfm : f m = set_manifest ManifestReady (Some (ce_now (env n))) (mf_supersededAt m) None None
    (ce_now (env n)) m) by (unfold f, manifest_after; by rewrite str_eqb_refl).
  assert (Hj : mf_indexJobId m = Some (pl_RepoIndexingJobID p) /\ mf_commitHash m = pl_CommitHash p).
  { unfold pending_of in Hp. rewrite !andb_true_iff, !bool_decide_eq_true in Hp.
    destruct Hp as ((((((Hj & _) & _) & _) & _) & Hc) & _). by apply str_eqb_spec in Hc. }
  rewrite Hfm. split; [apply Hj|]. split; [apply Hj|]. rewrite <- Hfm.
  intros y (x & -> & Hx)%list_elem_of_fmap. rewrite Hconn. unfold f at 1.
  rewrite branch_manifest_after. intros Hbx Hrx. apply manifest_after_ready in Hrx; [|done].
  by rewrite (NoDup_map_inj mf_id _ x m Hnd Hx Hm Hrx).
Qed.

(** ** At most one READY manifest per branch *)

(** The columns a branch is identified by. *)
Definition branch_key (m : Manifest) : Z * Z * string * option string * string :=
  (mf_orgId m, mf_repoId m, mf_workspaceId m, mf_providerConnectionId m, mf_branch m).

Definition manifests_ok (db : DB) : Prop :=
  NoDup (map mf_id (db_manifests db)) /\
  forall x y, x ∈ db_manifests db -> y ∈ db_manifests db ->
    mf_status x = ManifestReady -> mf_status y = ManifestReady -> branch_key x = branch_key y -> x = y.

Lemma branch_manifest_key p ws c x :
  branch_manifest p ws c x = true <-> branch_key x = (pl_OrgID p, pl_RepoID p, ws, c, pl_Branch p).
Proof.
  unfold branch_manifest, branch_key.
  rewrite !andb_true_iff, bool_decide_eq_true, !Z.eqb_eq. split.
  - intros ((((-> & ->) & ->%str_eqb_spec) & ->) & ->%str_eqb_spec). done.
  - intros [= -> -> -> -> ->]. by rewrite !str_eqb_refl.
Qed.

Lemma manifest_after_not_ready p ws m now x :
  branch_manifest p ws (mf_providerConnectionId m) x = false -> mf_id x <> mf_id m ->
  manifest_after p ws m now x = x.
Proof. intros Hb Hi. unfold manifest_after. apply str_eqb_false in Hi. by rewrite Hi, Hb. Qed.

Lemma activated_manifests_ok h p ws now w w' :
  activated h p ws now w w' -> manifests_ok (cw_db w) -> manifests_ok (cw_db w').
Proof.
  intros H [Hnd Hu]. destruct (av_manifest _ _ _ _ _ _ H) as (m & Hm & Hp & Hms).
  apply pending_branch in Hp as [Hb _]. unfold manifests_ok. rewrite Hms. split.
  { rewrite map_map, (map_ext _ mf_id); [done|]. intros x. apply manifest_after_scope. }
  assert (Hkey : forall x, branch_key (manifest_after p ws m now x) = branch_key x).
  { intros x. apply manifest_after_scope. }
  set (c := mf_providerConnectionId m) in *.
  assert (Hsame : forall x, x ∈ db_manifests (cw_db w) -> branch_manifest p ws c x = true ->
            mf_status (manifest_after p ws m now x) = ManifestReady -> x = m).
  { intros x Hx Hbx Hrx. apply manifest_after_ready in Hrx; [|done]. by eapply NoDup_map_inj. }
  assert (Hother : forall x, x ∈ db_manifests (cw_db w) -> branch_manifest p ws c x = false ->
            manifest_after p ws m now x = x).
  { intros x Hx Hbx. apply manifest_after_not_ready; [done|]. intros E.
    rewrite (NoDup_map_inj mf_id _ x m Hnd Hx Hm E), Hb in Hbx. done. }
  intros x' y' (x & -> & Hx)%list_elem_of_fmap (y & -> & Hy)%list_elem_of_fmap Hrx Hry Hk.
  rewrite !Hkey in Hk.
  assert (Hbk : branch_manifest p ws c x = branch_manifest p ws c y).
  { apply eq_true_iff_eq. by rewrite !branch_manifest_key, Hk. }
  destruct (branch_manifest p ws c x) eqn:Ebx.
  - by rewrite (Hsame x Hx Ebx Hrx), (Hsame y Hy (eq_sym Hbk) Hry).
  - rewrite (Hother x Hx Ebx) in Hrx |- *. rewrite (Hother y Hy (eq_sym Hbk)) in Hry |- *. by apply Hu.
Qed.

Definition manifests_kept (w w' : CoreWorld) : Prop :=
  manifests_ok (cw_db w) -> manifests_ok (cw_db w').

#[global] Instance manifests_kept_preorder : PreOrder manifests_kept.
Proof. unfold manifests_kept. split; [intros w; exact id|]. intros a b c H1 H2 H. auto. Qed.

Lemma calls_manifests_ok h p : calls manifests_kept (execute h p).
Proof.
  unfold execute. destruct (_ =s _).
  { eapply calls_impl; [|apply calls_merge]. unfold db_same, manifests_kept. by intros w w' ->. }
  destruct (_ =s _); [|done]. unfold activate. destruct (pl_WorkspaceID p) as [ws|]; [|done].
  apply (calls_call manifests_kept). intros ce w. unfold tx_call, manifests_kept.
  destruct (activate_body h p ws ce (0%nat, w)) as [[n1 w1] [a|e]] eqn:E; [simpl|done]. intros Hok.
  eapply activated_manifests_ok; [|exact Hok]. eapply activate_body_Ok; [apply Hok|done].
Qed.

(** C15: at most one manifest of a branch is READY.  Every run of the work of a core
    subjob, merge or activation, on any tables, with any faults and whatever other
    clients do to the tables of graphs and symbols in between, keeps this, whether
    it succeeds or fails. *)
Theorem ready_manifest_unique h p env n w n' w' o :
  run env n (execute h p) w = (n', w', o) -> manifests_ok (cw_db w) -> manifests_ok (cw_db w').
Proof.
  intros H. eapply (run_calls_keep manifests_kept); [|apply calls_manifests_ok|exact H]. intros i x; exact id.
Qed.

(** ** A revision without graph evidence *)

Lemma graphs_where_none f g w : graphs_where f w = [] -> (forall x, g x = true -> f x = true) ->
  graphs_where g w = [].
Proof.
  intros Hf Hi. unfold graphs_where in *. induction (map_to_list (cr_graphs (cw_rest w))) as [|x l IH]; [done|].
  simpl in *. destruct (f x.2) eqn:E; [done|]. destruct (g x.2) eqn:Eg; [|auto]. apply Hi in Eg. congruence.
Qed.

Lemma activation_needs_graph h p ws env n w :
  pl_WorkspaceID p = Some ws -> (forall i, ce_others (env i) = id) ->
  graphs_where (fun g => graph_in_scope p ws g && (gx_status g =s "READY")) w = [] ->
  exists e, run env n (activate h p) w = (S n, w, Done (Err e)).
Proof.
  intros Hws Ho Hg. rewrite (activate_eq h p ws Hws), run_tx. unfold do_call. rewrite Ho, with_rest_id.
  unfold tx_call. destruct (activate_body h p ws (env n) (0%nat, w)) as [[n1 w1] [a|e]] eqn:E; [|eauto].
  unfold activate_body in E. cbn zeta in E.
  tx_step E w2 H0. injection H0 as <-. tx_step E w3 H1. apply lock_repo_Ok in H1 as [-> _].
  tx_step E w4 H2. apply pending_manifest_Ok in H2 as (-> & _ & _).
  tx_step E w5 H3. unfold ready_graph in H3. rewrite Hg in H3. done.
Qed.

Section NoEvidence.
Context (h : CoreHandler) (p : Payload) (ws : string) (w : CoreWorld).
Context (Hws : pl_WorkspaceID p = Some ws) (Hq : ch_canQuery h = true).
Context (Hg : graphs_where (graph_in_scope p ws) w = []).
Context (Hs : symbol_rows p ws w = []) (Hr : relationship_rows p ws w = []).
Context (Hoc : occurrence_rows p ws (scipOccurrenceCap (ch_getenv h)) (scipFileCap (ch_getenv h)) w = []).

Lemma merge_without_evidence env n :
  (forall i, ce_others (env i) = id /\ forall j, ce_fault (env i) j = None) ->
  run env n (mergeGraph h p) w = (4 + n, w, Done (Ok tt))%nat.
Proof.
  intros Henv.
  assert (Hcall : forall i A (f : CallEnv -> CoreWorld -> CoreWorld * result gerror A),
    do_call (env i) f w = f (env i) w).
  { intros i A f. unfold do_call. destruct (Henv i) as [-> _]. by rewrite with_rest_id. }
  assert (Hf : forall i j, ce_fault (env i) j = None) by apply Henv.
  assert (Hload : forall i, run env i (loadSCIPProjectionRows h p) w = ((3 + i)%nat, w, Done (Ok ([], [], [])))).
  { intros i. unfold loadSCIPProjectionRows, dbQuery. rewrite Hws, Hq. simpl.
    rewrite Hcall, !Hf. simpl. rewrite Hcall, !Hf. simpl. rewrite Hcall, !Hf. simpl.
    by rewrite Hs, Hr, Hoc. }
  rewrite (merge_eq h p ws Hws). rewrite run_then. unfold resolvePartialGraphIndex. rewrite run_wrap, run_stmt, !Hcall.
  unfold stmt_call. rewrite Hf.
  rewrite (graphs_where_none _ (fun g => graph_in_scope p ws g && bool_decide (gx_status g ∈ ["PARTIAL"; "READY"]))
    w Hg) by (by intros x [? _]%andb_true_iff).
  simpl fst. simpl snd. cbv beta iota.
  replace (err_is _ _) with true by reflexivity. cbn [negb]. rewrite run_bind, Hload.
  cbn -[Nat.add]. f_equal.
Qed.

Lemma no_activation_without_graph env n : (forall i, ce_others (env i) = id) ->
  exists e, run env n (activate h p) w = (S n, w, Done (Err e)).
Proof.
  intros Ho. eapply activation_needs_graph; [done|done|].
  eapply graphs_where_none; [exact Hg|]. by intros x [? _]%andb_true_iff.
Qed.
End NoEvidence.

(** A revision without graph evidence is never activated.  When no graph
    snapshot of the revision exists and it has no SCIP rows, the merge succeeds and
    leaves everything as it is, "continuing without graph snapshot"; the
    activation that follows fails on every attempt, because it asks for a READY
    graph snapshot. *)
Theorem no_evidence_no_activation h p ws env n w :
  pl_WorkspaceID p = Some ws -> ch_canQuery h = true ->
  (forall i, ce_others (env i) = id /\ forall j, ce_fault (env i) j = None) ->
  graphs_where (graph_in_scope p ws) w = [] ->
  symbol_rows p ws w = [] -> relationship_rows p ws w = [] ->
  occurrence_rows p ws (scipOccurrenceCap (ch_getenv h)) (scipFileCap (ch_getenv h)) w = [] ->
  run env n (mergeGraph h p) w = (4 + n, w, Done (Ok tt))%nat /\
  forall env' n', (forall i, ce_others (env' i) = id) ->
    exists e, run env' n' (activate h p) w = (S n', w, Done (Err e)).
Proof.
  intros Hws Hq Henv Hg Hs Hr Hoc. split; [by apply (merge_without_evidence h p ws)|].
  intros env' n' Ho. by apply (no_activation_without_graph h p ws w Hws Hg).
Qed.

(** ** Completion of the job *)

(** The subjobs of a job that still have to end. *)
Lemma job_done_spec db jobID : job_done db jobID = true <->
  forall id s, db_subjobs db !! id = Some s -> sc_repoIndexingJobId (sj_scope s) = jobID ->
    sj_status s = StatusSucceeded \/ sj_status s = StatusSkipped \/
    sj_layer s = LayerSCIP /\ (sj_status s = StatusFailed \/ sj_status s = StatusCanceled).
Proof.
  unfold job_done. rewrite negb_true_iff, <- not_true_iff_false, existsb_exists. split.
  - intros H id s Hs Hj. destruct (unfinished s) eqn:Eu.
    + destruct (scip_gave_up s) eqn:Eg.
      * unfold scip_gave_up in Eg. apply andb_true_iff in Eg as [El Est]. apply str_eqb_spec in El.
        right. right. split; [done|]. destruct (sj_status s); naive_solver.
      * exfalso. apply H. exists (id, s). split; [by apply list_elem_of_In, elem_of_map_to_list|].
        simpl. rewrite Hj, str_eqb_refl, Eu, Eg. done.
    + unfold unfinished in Eu. destruct (sj_status s); naive_solver.
  - intros H ((id & s) & Hin & He). simpl in He. rewrite !andb_true_iff, negb_true_iff, str_eqb_spec in He.
    destruct He as [[Hj Hu] Hg]. apply list_elem_of_In, elem_of_map_to_list in Hin.
    destruct (H id s Hin Hj) as [E|[E|[El E]]].
    + unfold unfinished in Hu. by rewrite E in Hu.
    + unfold unfinished in Hu. by rewrite E in Hu.
    + unfold scip_gave_up in Hg. rewrite El, str_eqb_refl in Hg. by destruct E as [E|E]; rewrite E in Hg.
Qed.

(** C16: the completion of a job.  When no statement fails, the job of the message
    becomes COMPLETED exactly when it is an INDEX job of the repository that is
    IN_PROGRESS and each of its subjobs succeeded, was skipped, or is a SCIP subjob
    that failed or was canceled; no other job changes, nor does any subjob,
    manifest, index or table of the graph. *)
Theorem job_completion p env n w :
  (forall i, ce_others (env i) = id /\ ce_fault (env i) 0 = None)%nat ->
  exists w', run env n (completeJobIfReady p) w = (2 + n, w', Done (Ok tt))%nat /\
    cw_rest w' = cw_rest w /\ db_subjobs (cw_db w') = db_subjobs (cw_db w) /\
    db_manifests (cw_db w') = db_manifests (cw_db w) /\ db_indexes (cw_db w') = db_indexes (cw_db w) /\
    (forall id, id <> pl_RepoIndexingJobID p -> db_jobs (cw_db w') !! id = db_jobs (cw_db w) !! id) /\
    (forall j, db_jobs (cw_db w) !! pl_RepoIndexingJobID p = Some j ->
       let ready := job_repoId j = pl_RepoID p /\ job_type j = INDEX /\ job_status j = IN_PROGRESS /\
         forall id s, db_subjobs (cw_db w) !! id = Some s ->
           sc_repoIndexingJobId (sj_scope s) = pl_RepoIndexingJobID p ->
           sj_status s = StatusSucceeded \/ sj_status s = StatusSkipped \/
           sj_layer s = LayerSCIP /\ (sj_status s = StatusFailed \/ sj_status s = StatusCanceled) in
       (ready -> db_jobs (cw_db w') !! pl_RepoIndexingJobID p = Some (complete_job (ce_now (env n)) j)) /\
       (~ ready -> db_jobs (cw_db w') !! pl_RepoIndexingJobID p = Some j)).
Proof.
  intros Henv. exists (with_db (refresh_stmt p) (with_db (complete_stmt p (ce_now (env n))) w)). split.
  { unfold completeJobIfReady. rewrite run_bind, run_wrap, run_stmt. unfold do_call, stmt_call.
    destruct (Henv n) as [-> ->]. rewrite with_rest_id. simpl fst. simpl snd. cbv beta iota.
    rewrite run_wrap, run_stmt. unfold do_call, stmt_call. destruct (Henv (S n)) as [-> ->].
    by rewrite with_rest_id. }
  assert (Hr : forall db, db_subjobs (refresh_stmt p db) = db_subjobs db /\ db_jobs (refresh_stmt p db) = db_jobs db /\
    db_manifests (refresh_stmt p db) = db_manifests db /\ db_indexes (refresh_stmt p db) = db_indexes db).
  { intros db. unfold refresh_stmt. by destruct (newest_job _ _) as [[]|]. }
  split; [done|]. simpl. destruct (Hr (complete_stmt p (ce_now (env n)) (cw_db w))) as (-> & -> & -> & ->).
  unfold complete_stmt. set (db := cw_db w). set (jid := pl_RepoIndexingJobID p).
  destruct (db_jobs db !! jid) as [j|] eqn:Ej; [|done].
  destruct (_ && _ && _ && _) eqn:E.
  - repeat (split; [done|]). split; [intros id Hid; simpl; by rewrite lookup_insert_ne|].
    intros j' [= <-]. split; [intros _; simpl; by rewrite lookup_insert_eq|]. intros Hn. destruct Hn.
    rewrite !andb_true_iff, !bool_decide_eq_true, Z.eqb_eq, job_done_spec in E. naive_solver.
  - repeat (split; [done|]). intros j' [= <-]. split; [|done]. intros (Hrep & Ht & Hst & Hd).
    exfalso. apply not_true_iff_false in E. apply E.
    rewrite !andb_true_iff, !bool_decide_eq_true, Z.eqb_eq, job_done_spec. done.
Qed.

(** ** A completion that is lost *)

Lemma claim_ended fault now c owner att until db :
  status_of (cs_ID c) db = Some StatusSucceeded ->
  (ClaimScoped fault now c owner att until db).1 = db /\
  (ClaimScoped fault now c owner att until db).2 <> Ok true.
Proof.
  unfold status_of, ClaimScoped. intros Hs.
  do 3 (destruct (_ : bool); [done|]). unfold exec. destruct fault as [e|]; [done|].
  unfold update_row. destruct (db_subjobs db !! cs_ID c) as [r|] eqn:Er; [|done].
  injection Hs as Hs. replace (claim_guard now c db r) with false; [done|].
  unfold claim_guard. rewrite Hs. cbn [status_in existsb]. by rewrite andb_false_r.
Qed.

(** The completion of a job is attempted once.  When a run of the core worker
    reported success of the activation and then could not complete the job, every
    later delivery of the same message, whatever happens between and around it,
    leaves all tables as the other clients left them: the subjob has ended, so the
    claim is lost and the run ends before the completion. *)
Theorem lost_completion h ty raw sc w w1 log e p :
  Unmarshal raw = Ok p -> Handle h ty raw sc w = Some (w1, log, Some e) -> HSucceeded true ∈ log ->
  forall os rest sc', exists log' err,
    Handle h ty raw sc' {| cw_db := run_ops os (cw_db w1); cw_rest := rest |}
    = Some ({| cw_db := run_ops (cs_env1 sc') (run_ops os (cw_db w1)); cw_rest := rest |}, log', err).
Proof.
  intros Hu H Hin os rest sc'. pose proof (Handle_core_spec _ _ _ _ _ _ _ _ H) as Hspec.
  rewrite Hu in Hspec. destruct Hspec as (_ & _ & Hs).
  assert (Hst : status_of (pl_SubjobID p) (cw_db w1) = Some StatusSucceeded).
  { apply Hs. apply list_elem_of_In, filter_In. split; [by apply list_elem_of_In|done]. }
  assert (Hst' : status_of (pl_SubjobID p) (run_ops (cs_env1 sc') (run_ops os (cw_db w1))) = Some StatusSucceeded)
    by (by do 2 apply succeeded_stays).
  unfold Handle in *. rewrite Hu in *. destruct (negb (ty =s _)); [injection H as _ <- _; by apply not_elem_of_nil in Hin|].
  destruct (_ && _); [injection H as _ <- _; by apply not_elem_of_nil in Hin|]. clear H. cbn zeta. cbn [cw_db cw_rest].
  match goal with |- context [ClaimScoped ?f ?n ?c ?o ?a ?u ?db] =>
    destruct (claim_ended f n c o a u db Hst') as [Hdb Hno]; destruct (ClaimScoped f n c o a u db) as [db1 r] end.
  simpl in Hdb, Hno. subst db1. destruct r as [[]|err]; [done|eauto..].
Qed.
