(* ===== verification/ScipStoreFacts.v ===== *)
(** What the ingestion of a SCIP artifact does to the tables: the rows of one
    language of one revision are replaced by the rows of the artifact in one step,
    under a live lease, or nothing happens. *)
From Stdlib Require Import Ascii.
From S2P Require Import Prelude GoStd GoStdFacts GoJSON GoText Sha256 SubjobTypes SubjobStore SubjobTask SubjobSystem.
From S2P Require Import Executor RepoPaths GraphSchema GraphStoreFacts CoreDB Disk ScipRows ArtifactScope.
From S2P Require Import ArtifactStores ScipStore CoreFacts CoreActivateFacts.
(** ** Inserts in chunks *)

Lemma chunk_rows_concat {A} (rows : list A) size : concat (chunk_rows rows size) = rows.
Proof. unfold chunk_rows. apply chunks_concat; [|done]. destruct (size <=? 0) eqn:E; lia. Qed.

Lemma insert_new_app {A} same (t l1 l2 : list A) :
  insert_new same t (l1 ++ l2) = insert_new same (insert_new same t l1) l2.
Proof. unfold insert_new. by rewrite foldl_app. Qed.

(** A loop of statements that cannot refuse. *)
Lemma tx_for_Ok {A} ce label (f : A -> CoreWorld -> CoreWorld) l n w s' a :
  tx_for l (fun x => tx_stmt ce label (fun w => Ok (f x w, tt))) (n, w) = (s', Ok a) ->
  s'.2 = foldl (fun w x => f x w) w l.
Proof.
  revert n w. induction l as [|x l IH]; intros n w; simpl; [by intros [= <- _]|].
  intros H. tx_step H w1 Hs. injection Hs as <- _. by apply IH in H.
Qed.

(** A table of the world, read and replaced. *)
Class Table {T : Type} (get : CoreWorld -> T) (put : T -> CoreWorld -> CoreWorld) : Prop := {
  put_get : forall w, put (get w) w = w;
  get_put : forall t w, get (put t w) = t;
  put_put : forall t u w, put t (put u w) = put t w
}.

Lemma fold_table `{Table T get put} {A} (g : T -> A -> T) l w :
  foldl (fun w x => put (g (get w) x) w) w l = put (foldl g (get w) l) w.
Proof.
  revert w. induction l as [|x l IH]; intros w; simpl; [by rewrite put_get|].
  by rewrite IH, get_put, put_put.
Qed.

Definition symbols (w : CoreWorld) := cr_symbols (cw_rest w).
Definition occurrences (w : CoreWorld) := cr_occurrences (cw_rest w).
Definition relationships (w : CoreWorld) := cr_relationships (cw_rest w).
Definition languages (w : CoreWorld) := cr_languages (cw_rest w).
Definition put_symbols t := with_rest (with_symbols (fun _ => t)).
Definition put_occurrences t := with_rest (with_occurrences (fun _ => t)).
Definition put_relationships t := with_rest (with_relationships (fun _ => t)).
Definition put_languages t := with_rest (with_languages (fun _ => t)).

#[local] Instance symbols_table : Table symbols put_symbols.
Proof. split; [by intros [? []]|done..]. Qed.
#[local] Instance occurrences_table : Table occurrences put_occurrences.
Proof. split; [by intros [? []]|done..]. Qed.
#[local] Instance relationships_table : Table relationships put_relationships.
Proof. split; [by intros [? []]|done..]. Qed.

Lemma foldl_insert_new {A B} same (row : A -> B) t (chunks : list (list A)) :
  foldl (fun t c => insert_new same t (map row c)) t chunks = insert_new same t (map row (concat chunks)).
Proof.
  revert t. induction chunks as [|c cs IH]; intros t; simpl; [done|]. by rewrite IH, map_app, insert_new_app.
Qed.

Lemma foldl_append {A B} (row : A -> B) t (chunks : list (list A)) :
  foldl (fun t c => t ++ map row c) t chunks = t ++ map row (concat chunks).
Proof.
  revert t. induction chunks as [|c cs IH]; intros t; simpl; [by rewrite app_nil_r|]. by rewrite IH, map_app, app_assoc.
Qed.

Lemma bulkInsertSymbols_Ok ce p idx lid rows n w s' a :
  bulkInsertSymbols ce p idx lid rows (n, w) = (s', Ok a) ->
  s'.2 = put_symbols (insert_new symbol_key_eq (symbols w) (map (symbol_row p idx lid) rows)) w.
Proof.
  intros H. apply tx_for_Ok in H. rewrite H.
  change (foldl (fun w c => put_symbols (insert_new symbol_key_eq (symbols w) (map (symbol_row p idx lid) c)) w) w
    (chunk_rows rows (60000 / 17)) = put_symbols (insert_new symbol_key_eq (symbols w) (map (symbol_row p idx lid) rows)) w).
  rewrite (fold_table (fun t c => insert_new symbol_key_eq t (map (symbol_row p idx lid) c))).
  by rewrite foldl_insert_new, chunk_rows_concat.
Qed.

Lemma bulkInsertRelationships_Ok ce p idx lid rows n w s' a :
  bulkInsertRelationships ce p idx lid rows (n, w) = (s', Ok a) ->
  s'.2 = put_relationships (insert_new relationship_key_eq (relationships w) (map (scip_relationship_row p idx lid) rows)) w.
Proof.
  intros H. apply tx_for_Ok in H. rewrite H.
  change (foldl (fun w c => put_relationships (insert_new relationship_key_eq (relationships w)
    (map (scip_relationship_row p idx lid) c)) w) w (chunk_rows rows (60000 / 11))
    = put_relationships (insert_new relationship_key_eq (relationships w) (map (scip_relationship_row p idx lid) rows)) w).
  rewrite (fold_table (fun t c => insert_new relationship_key_eq t (map (scip_relationship_row p idx lid) c))).
  by rewrite foldl_insert_new, chunk_rows_concat.
Qed.

Lemma bulkInsertOccurrences_Ok ce p idx lid rows n w s' a :
  bulkInsertOccurrences ce p idx lid rows (n, w) = (s', Ok a) ->
  s'.2 = put_occurrences (occurrences w ++ map (scip_occurrence_row p idx lid) rows) w.
Proof.
  intros H. apply tx_for_Ok in H. rewrite H.
  change (foldl (fun w c => put_occurrences (occurrences w ++ map (scip_occurrence_row p idx lid) c) w) w
    (chunk_rows rows (60000 / 16)) = put_occurrences (occurrences w ++ map (scip_occurrence_row p idx lid) rows) w).
  rewrite (fold_table (fun t c => t ++ map (scip_occurrence_row p idx lid) c)).
  by rewrite foldl_append, chunk_rows_concat.
Qed.

(** ** The lease *)

(** The subjob row of the message, held by this attempt for this artifact. *)
Definition lease_held (layer : string) (p : Payload) (r : Result) (owner attempt : string) (now : Z) (db : DB)
    (sj : Subjob) : Prop :=
  db_subjobs db !! pl_SubjobID p = Some sj /\
  live_guard now layer p (res_ArtifactPath r) (res_ArtifactSHA256 r) owner attempt db sj = true.

(** The row of the message, being validated. *)
Definition validating (p : Payload) (sj : Subjob) (now : Z) : DB -> DB :=
  set_subjobs (<[pl_SubjobID p := {| sj_scope := sj_scope sj; sj_run := validating_run now (sj_run sj) |}]>).

Lemma validate_cases fault now layer label lost p r owner attempt db db' a :
  validateLiveSubjobLease fault now layer label lost p (res_ArtifactPath r) (res_ArtifactSHA256 r) owner attempt db
    = (db', a) ->
  match a with
  | Ok _ => exists sj, lease_held layer p r owner attempt now db sj /\ db' = validating p sj now db
  | Err _ => db' = db
  end.
Proof.
  unfold validateLiveSubjobLease, exec, lease_held. destruct fault; [by intros [= <- <-]|].
  unfold update_row. destruct (db_subjobs db !! pl_SubjobID p) as [sj|] eqn:E; [|by intros [= <- <-]].
  destruct (live_guard _ _ _ _ _ _ _ _ sj) eqn:G; intros [= <- <-]; [|done]. by exists sj.
Qed.

Lemma lease_tx_Ok fault_check layer label lost ce p r owner attempt n w s' a :
  fault_check = (fun fault now => validateLiveSubjobLease fault now layer label lost) ->
  lease_tx fault_check ce p r owner attempt (n, w) = (s', Ok a) ->
  exists sj, lease_held layer p r owner attempt (ce_now ce) (cw_db w) sj /\
    s' = (S n, with_db (validating p sj (ce_now ce)) w).
Proof.
  intros ->. unfold lease_tx.
  destruct (validateLiveSubjobLease _ _ _ _ _ _ _ _ _ _ _) as [db' x] eqn:E. intros [= <- ->].
  apply validate_cases in E as (sj & H & ->). exists sj. by destruct w.
Qed.

(** The columns a lease check writes do not name the subjob. *)
Definition same_scopes (db db' : DB) : Prop :=
  forall id, sj_scope <$> db_subjobs db' !! id = sj_scope <$> db_subjobs db !! id.

Lemma validating_scopes p sj now db : db_subjobs db !! pl_SubjobID p = Some sj -> same_scopes db (validating p sj now db).
Proof.
  intros H id. unfold validating. simpl. destruct (decide (id = pl_SubjobID p)) as [->|Hne];
    [by rewrite lookup_insert_eq, H|by rewrite lookup_insert_ne].
Qed.

Lemma elem_scip_subjobs p ws db sj : sj ∈ scip_subjobs p ws db <->
  exists id, db_subjobs db !! id = Some sj /\ sc_repoIndexingJobId (sj_scope sj) = pl_RepoIndexingJobID p /\
    sc_orgId (sj_scope sj) = pl_OrgID p /\ sc_workspaceId (sj_scope sj) = ws /\ sc_repoId (sj_scope sj) = pl_RepoID p /\
    sc_branch (sj_scope sj) = pl_Branch p /\ sc_revision (sj_scope sj) = pl_Revision p /\
    sc_commitHash (sj_scope sj) = pl_CommitHash p /\ sc_layer (sj_scope sj) = LayerSCIP.
Proof.
  unfold scip_subjobs. rewrite elem_of_List_filter, list_elem_of_fmap, !andb_true_iff, !str_eqb_spec, !Z.eqb_eq. split.
  - intros ([[id x] [-> Hin]] & H). simpl in *. apply elem_of_map_to_list in Hin. exists id. tauto.
  - intros (id & Hl & H). split; [|tauto]. exists (id, sj). split; [done|]. by apply elem_of_map_to_list.
Qed.

Lemma stale_language_scopes p ws idx db db' li : same_scopes db db' ->
  stale_language p ws idx db' li = stale_language p ws idx db li.
Proof.
  intros Hs. unfold stale_language. do 2 f_equal. apply Bool.eq_iff_eq_true. rewrite !existsb_exists.
  assert (H : forall a b, same_scopes a b -> (exists x, In x (scip_subjobs p ws a) /\ subjob_of_language li x = true) ->
    exists x, In x (scip_subjobs p ws b) /\ subjob_of_language li x = true).
  { intros a b Hab (x & Hx & Hl). apply list_elem_of_In, elem_scip_subjobs in Hx as (id & Hid & Hx).
    specialize (Hab id). rewrite Hid in Hab. destruct (db_subjobs b !! id) as [y|] eqn:Ey; [|done].
    injection Hab as Hab. exists y. unfold subjob_of_language in *. rewrite Hab. split; [|done].
    apply list_elem_of_In, elem_scip_subjobs. exists id. rewrite Hab. tauto. }
  split; apply H; [|done]. intros id. by rewrite Hs.
Qed.

Lemma stale_child_scopes p ws idx w w' l : same_scopes (cw_db w) (cw_db w') -> cw_rest w' = cw_rest w ->
  stale_child p ws idx w' l = stale_child p ws idx w l.
Proof.
  intros Hs Hr. unfold stale_child. rewrite Hr. destruct l; [|done]. destruct (_ !! _); [|done]. by apply stale_language_scopes.
Qed.

(** ** The index row *)

(** The unique key of "CodeIntelIndex" and its primary key. *)
Definition index_keys (p : Payload) (ws : string) (l : list CodeIntelIndex) : Prop :=
  (forall x y, x ∈ l -> y ∈ l -> same_index p ws x = true -> same_index p ws y = true -> x = y) /\
  (forall x y, x ∈ l -> y ∈ l -> cii_id (cix_key x) = cii_id (cix_key y) -> x = y).

(** The rows [l'] are [l] up to the one row with the id [idx], which [x] is. *)
Definition only_row (idx : string) (x : CodeIntelIndex) (l l' : list CodeIntelIndex) : Prop :=
  x ∈ l' /\ cii_id (cix_key x) = idx /\ (forall y, y ∈ l' -> cii_id (cix_key y) = idx -> y = x) /\
  forall y, cii_id (cix_key y) <> idx -> (y ∈ l' <-> y ∈ l).

Lemma only_row_map idx x l l' (f : CodeIntelIndex -> CodeIntelIndex) : (forall y, cix_key (f y) = cix_key y) ->
  only_row idx x l l' -> only_row idx (f x) l (map (fun y => if cii_id (cix_key y) =s idx then f y else y) l').
Proof.
  intros Hf (Hin & Hid & Huniq & Hrest). split; [|split; [|split]].
  - apply list_elem_of_fmap. exists x. by rewrite Hid, str_eqb_refl.
  - by rewrite Hf.
  - intros y (z & -> & Hz)%list_elem_of_fmap. destruct (_ =s _) eqn:E; [|intros Hi; by rewrite Hi, str_eqb_refl in E].
    intros _. apply str_eqb_spec in E. by rewrite (Huniq z).
  - intros y Hy. rewrite <- Hrest by done. rewrite list_elem_of_fmap. split.
    + intros (z & -> & Hz). destruct (_ =s _) eqn:E; [|done]. apply str_eqb_spec in E. rewrite Hf in Hy. done.
    + intros Hy'. exists y. split; [|done]. destruct (_ =s _) eqn:E; [|done]. by apply str_eqb_spec in E.
Qed.

Lemma find_Some_elem {A} (f : A -> bool) l x : List.find f l = Some x -> x ∈ l /\ f x = true.
Proof. intros H. apply find_some in H as [H ?]. by apply list_elem_of_In in H. Qed.

Lemma find_None_elem {A} (f : A -> bool) l x : List.find f l = None -> x ∈ l -> f x = false.
Proof. intros H Hx. apply (find_none _ _ H). by apply list_elem_of_In. Qed.

Lemma upsertCodeIntelIndex_Ok id root p ws now w w' idx : index_keys p ws (db_indexes (cw_db w)) ->
  upsertCodeIntelIndex id root p ws now w = Ok (w', idx) ->
  exists x, w' = with_db (set_indexes (fun _ => db_indexes (cw_db w'))) w /\ same_index p ws x = true /\
    cix_artifactRoot x = Some root /\ cix_errorMessage x = None /\
    only_row idx x (db_indexes (cw_db w)) (db_indexes (cw_db w')).
Proof.
  intros [Hs Hi]. unfold upsertCodeIntelIndex. destruct (List.find _ _) as [y|] eqn:E.
  - intros [= <- <-]. apply find_Some_elem in E as [Hy Hsy]. exists (reopen_index root now y).
    split; [by destruct w as [[] ?]|]. split; [done|]. split; [done|]. split; [done|]. simpl.
    assert (Hm : map (fun z => if same_index p ws z then reopen_index root now z else z) (db_indexes (cw_db w))
      = map (fun z => if cii_id (cix_key z) =s cii_id (cix_key y) then reopen_index root now z else z) (db_indexes (cw_db w))).
    { apply map_ext_in. intros z Hz%list_elem_of_In. destruct (same_index p ws z) eqn:Ez.
      - by rewrite (Hs z y), str_eqb_refl.
      - destruct (_ =s _) eqn:E; [|done]. apply str_eqb_spec in E. by rewrite (Hi z y), Hsy in Ez. }
    rewrite Hm. apply only_row_map; [done|]. split; [done|]. split; [done|]. split; [|done]. intros z Hz Hid. by apply Hi.
  - destruct (existsb _ _) eqn:Ex; [done|]. intros [= <- <-]. exists (new_index id p ws root now).
    split; [by destruct w as [[] ?]|]. split; [unfold same_index; simpl; by rewrite !Z.eqb_refl, !str_eqb_refl|].
    split; [done|]. split; [done|].
    assert (Hfresh : forall z, z ∈ db_indexes (cw_db w) -> cii_id (cix_key z) <> id).
    { intros z Hz Heq. assert (existsb (fun x => cii_id (cix_key x) =s id) (db_indexes (cw_db w)) = true);
        [|congruence]. apply existsb_exists. exists z. split; [by apply list_elem_of_In|by apply str_eqb_spec]. }
    split; [|split; [|split]]; simpl.
    + apply elem_of_app. right. by apply list_elem_of_singleton.
    + done.
    + intros z [Hz|Hz]%elem_of_app Hid; [by apply Hfresh in Hz|by apply list_elem_of_singleton in Hz].
    + intros z Hz. rewrite elem_of_app. split; [intros [?|Hn]; [done|]|by left].
      apply list_elem_of_singleton in Hn as ->. done.
Qed.

(** ** The languages *)

Lemma upsertLanguageIndex_Ok id idx language root indexer p r now w w' lid :
  upsertLanguageIndex id idx language root indexer p r now w = Ok (w', lid) ->
  w' = put_languages (<[lid := language_row idx language root indexer p r now]> (languages w)) w.
Proof.
  unfold upsertLanguageIndex. destruct (List.find _ _) as [[l li]|]; [by intros [= <- <-]|].
  destruct (_ !! id); [done|]. by intros [= <- <-].
Qed.

Lemma deleteStale_Ok ce idx p ws n w s' a :
  deleteStaleLanguageIndexes ce idx p ws (n, w) = (s', Ok a) ->
  let kept l := negb (stale_child p ws idx w l) in
  s'.2 = put_languages (base.filter (fun kv => stale_language p ws idx (cw_db w) kv.2 = false) (languages w))
       (put_symbols (List.filter (fun x => kept (sy_codeIntelLanguageIndexId x)) (symbols w))
       (put_occurrences (List.filter (fun x => kept (oc_codeIntelLanguageIndexId x)) (occurrences w))
       (put_relationships (List.filter (fun x => kept (rl_codeIntelLanguageIndexId x)) (relationships w)) w))).
Proof.
  unfold deleteStaleLanguageIndexes. intros H. tx_step H w1 H1. tx_step H w2 H2. tx_step H w3 H3.
  apply tx_stmt_Ok in H as (w4 & -> & H4). by simplify_eq/=.
Qed.

Lemma deleteLanguageRows_Ok ce lid n w s' a :
  deleteLanguageRows ce lid (n, w) = (s', Ok a) ->
  let other l := negb (bool_decide (l = Some lid)) in
  s'.2 = put_symbols (List.filter (fun x => other (sy_codeIntelLanguageIndexId x)) (symbols w))
       (put_occurrences (List.filter (fun x => other (oc_codeIntelLanguageIndexId x)) (occurrences w))
       (put_relationships (List.filter (fun x => other (rl_codeIntelLanguageIndexId x)) (relationships w)) w)).
Proof.
  unfold deleteLanguageRows. intros H. tx_step H w1 H1. tx_step H w2 H2.
  apply tx_stmt_Ok in H as (w3 & -> & H3). by simplify_eq/=.
Qed.

(** ** Counts *)

Lemma sql_int_Ok n z : sql_int n = Ok z -> z = Z.of_nat n.
Proof. unfold sql_int. destruct (_ <? _); congruence. Qed.

Lemma scip_counts_Ok idx p ws w c : scip_counts idx p ws w = Ok c ->
  ct_symbol c = Z.of_nat (length (List.filter (fun s => sy_codeIntelIndexId s =s idx) (symbols w))) /\
  ct_occurrence c = Z.of_nat (length (List.filter (fun o => oc_codeIntelIndexId o =s idx) (occurrences w))) /\
  ct_relationship c = Z.of_nat (length (List.filter (fun r => rl_codeIntelIndexId r =s idx) (relationships w))) /\
  ct_has_failed_subjob c = existsb (fun r => bool_decide (sj_status r = StatusFailed)) (scip_subjobs p ws (cw_db w)) /\
  ct_has_skipped_subjob c = existsb (fun r => bool_decide (sj_status r = StatusSkipped)) (scip_subjobs p ws (cw_db w)) /\
  ct_has_unready c = existsb (fun r => negb (bool_decide (sj_status r = StatusSkipped))
     && negb (existsb (fun li => subjob_of_language li r) (List.filter (has_status "READY") (languages_of idx w))))
     (scip_subjobs p ws (cw_db w)) /\
  ct_has_ready c = existsb (has_status "READY") (languages_of idx w) /\
  ct_has_failed c = existsb (has_status "FAILED") (languages_of idx w).
Proof.
  unfold scip_counts. destruct (sql_int (length (remove_dups _))) as [a|]; [|done]. simpl.
  destruct (sql_int (length (List.filter (fun s => sy_codeIntelIndexId s =s idx) _))) as [b|] eqn:E1; [|done]. simpl.
  destruct (sql_int (length (List.filter (fun s => oc_codeIntelIndexId s =s idx) _))) as [d|] eqn:E2; [|done]. simpl.
  destruct (sql_int (length (List.filter (fun s => rl_codeIntelIndexId s =s idx) _))) as [e|] eqn:E3; [|done]. simpl.
  intros [= <-]. apply sql_int_Ok in E1, E2, E3. by simplify_eq/=.
Qed.

(** Every SCIP subjob of the job has a finished language, and none was given up. *)
Definition complete (p : Payload) (ws idx : string) (w : CoreWorld) : Prop :=
  (forall sj, sj ∈ scip_subjobs p ws (cw_db w) -> sj_status sj <> StatusFailed /\ sj_status sj <> StatusSkipped /\
     exists li, li ∈ languages_of idx w /\ li_status li = "READY" /\ subjob_of_language li sj = true) /\
  (forall li, li ∈ languages_of idx w -> li_status li <> "FAILED").

(** A SCIP subjob of the job failed or was skipped, or a language of the index failed. *)
Definition given_up (p : Payload) (ws idx : string) (w : CoreWorld) : Prop :=
  (exists sj, sj ∈ scip_subjobs p ws (cw_db w) /\ (sj_status sj = StatusFailed \/ sj_status sj = StatusSkipped)) \/
  exists li, li ∈ languages_of idx w /\ li_status li = "FAILED".

Lemma existsb_none {A} (f : A -> bool) l : existsb f l = false <-> forall x, x ∈ l -> f x = false.
Proof.
  rewrite <- not_true_iff_false, existsb_exists. split.
  - intros H x Hx. destruct (f x) eqn:E; [|done]. exfalso. apply H. exists x. by rewrite <- list_elem_of_In.
  - intros H (x & Hx & E). rewrite H in E; [done|by apply list_elem_of_In].
Qed.

Lemma refreshed_ready c idx p ws w old : scip_counts idx p ws w = Ok c -> ct_has_ready c = true ->
  (refreshed_status c old = "READY" <-> complete p ws idx w) /\
  refreshed_status c old ∈ ["READY"; "PARTIAL"; "INDEXING"].
Proof.
  intros (_ & _ & _ & Hf & Hs & Hu & _ & Hl)%scip_counts_Ok Hr. unfold refreshed_status. rewrite Hr, andb_true_r.
  destruct (ct_has_failed c || _ || _) eqn:E.
  - split; [|set_solver]. split; [done|]. intros [H1 H2]. rewrite !orb_true_iff, Hf, Hs, Hl, !existsb_exists in E.
    destruct E as [[(li & Hli & E)|(sj & Hsj & E)]|(sj & Hsj & E)].
    + apply list_elem_of_In in Hli. apply H2 in Hli. unfold has_status in E. by apply str_eqb_spec in E.
    + apply list_elem_of_In in Hsj. apply H1 in Hsj as (Hn & _). by apply bool_decide_eq_true in E.
    + apply list_elem_of_In in Hsj. apply H1 in Hsj as (_ & Hn & _). by apply bool_decide_eq_true in E.
  - rewrite !orb_false_iff, Hf, Hs, Hl, !existsb_none in E. destruct E as [[E1 E2] E3].
    destruct (ct_has_unready c) eqn:Eu.
    + split; [|set_solver]. split; [done|]. intros [H1 _]. symmetry in Hu. apply existsb_exists in Hu as (sj & Hsj & Hu).
      apply list_elem_of_In in Hsj. apply H1 in Hsj as (_ & _ & li & Hli & Hst & Hsl).
      apply andb_true_iff in Hu as [_ Hu]. apply negb_true_iff in Hu. rewrite existsb_none in Hu.
      rewrite Hu in Hsl; [done|]. apply elem_of_List_filter. split; [done|]. by apply str_eqb_spec.
    + split; [|set_solver]. split; [intros _|done]. split.
      * intros sj Hsj. specialize (E2 sj Hsj). specialize (E3 sj Hsj).
        apply bool_decide_eq_false in E2, E3. split; [done|]. split; [done|].
        symmetry in Hu. rewrite existsb_none in Hu. specialize (Hu sj Hsj). rewrite bool_decide_eq_false_2 in Hu by done.
        simpl in Hu. apply negb_false_iff, existsb_exists in Hu as (li & Hli & Hsl). exists li.
        apply list_elem_of_In, elem_of_List_filter in Hli as [Hli Hst]. unfold has_status in Hst. by apply str_eqb_spec in Hst.
      * intros li Hli Hst. specialize (E1 li Hli). unfold has_status in E1. by rewrite Hst in E1.
Qed.

Lemma refreshed_partial c idx p ws w old : scip_counts idx p ws w = Ok c -> ct_has_ready c = true ->
  refreshed_status c old = "PARTIAL" <-> given_up p ws idx w.
Proof.
  intros (_ & _ & _ & Hf & Hs & _ & _ & Hl)%scip_counts_Ok Hr. unfold refreshed_status. rewrite Hr, andb_true_r.
  destruct (ct_has_failed c || _ || _) eqn:E.
  - split; [intros _|done]. rewrite !orb_true_iff, Hf, Hs, Hl, !existsb_exists in E.
    destruct E as [[(li & Hli & E)|(sj & Hsj & E)]|(sj & Hsj & E)].
    + right. exists li. unfold has_status in E. apply str_eqb_spec in E. by apply list_elem_of_In in Hli.
    + left. exists sj. apply bool_decide_eq_true in E. apply list_elem_of_In in Hsj. auto.
    + left. exists sj. apply bool_decide_eq_true in E. apply list_elem_of_In in Hsj. auto.
  - split; [by destruct (ct_has_unready c)|]. intros H. exfalso.
    rewrite !orb_false_iff, Hf, Hs, Hl, !existsb_none in E. destruct E as [[E1 E2] E3].
    destruct H as [(sj & Hsj & [H|H])|(li & Hli & H)].
    + specialize (E2 sj Hsj). by rewrite H in E2.
    + specialize (E3 sj Hsj). by rewrite H in E3.
    + specialize (E1 li Hli). unfold has_status in E1. by rewrite H in E1.
Qed.

(** ** The transaction *)

(** What the artifact of one project leaves in the tables. *)
Record ingested (s : Store) (p : Payload) (ws language root indexer : string) (r : Result) (owner attempt : string)
    (rows : Rows) (now : Z) (w w' : CoreWorld) (idx lid : string) : Prop := {
  ig_languages : languages w' =
    <[lid := ready_language now (language_row idx language root indexer p r now)]>
      (base.filter (fun kv => stale_language p ws idx (cw_db w) kv.2 = false) (languages w));
  ig_symbols : let kept l := negb (bool_decide (l = Some lid)) && negb (stale_child p ws idx w l) in
    symbols w' = insert_new symbol_key_eq (List.filter (fun x => kept (sy_codeIntelLanguageIndexId x)) (symbols w))
                   (map (symbol_row p idx lid) (Symbols rows));
  ig_occurrences : let kept l := negb (bool_decide (l = Some lid)) && negb (stale_child p ws idx w l) in
    occurrences w' = List.filter (fun x => kept (oc_codeIntelLanguageIndexId x)) (occurrences w)
                     ++ map (scip_occurrence_row p idx lid) (Occurrences rows);
  ig_relationships : let kept l := negb (bool_decide (l = Some lid)) && negb (stale_child p ws idx w l) in
    relationships w' = insert_new relationship_key_eq
                         (List.filter (fun x => kept (rl_codeIntelLanguageIndexId x)) (relationships w))
                         (map (scip_relationship_row p idx lid) (Relationships rows));
  ig_index : exists x, only_row idx x (db_indexes (cw_db w)) (db_indexes (cw_db w')) /\ same_index p ws x = true /\
    cix_artifactRoot x = Some (st_artifactRoot s) /\ cix_errorMessage x = None /\
    cix_symbolCount x = Z.of_nat (length (List.filter (fun s => sy_codeIntelIndexId s =s idx) (symbols w'))) /\
    cix_occurrenceCount x = Z.of_nat (length (List.filter (fun o => oc_codeIntelIndexId o =s idx) (occurrences w'))) /\
    cix_relationshipCount x = Z.of_nat (length (List.filter (fun r => rl_codeIntelIndexId r =s idx) (relationships w'))) /\
    cix_status x ∈ ["READY"; "PARTIAL"; "INDEXING"] /\ (cix_status x = "READY" <-> complete p ws idx w') /\
    (cix_status x = "PARTIAL" <-> given_up p ws idx w');
  ig_rest : cw_rest w' = with_scip (fun _ => languages w') (fun _ => symbols w') (fun _ => relationships w')
                           (fun _ => occurrences w') (cw_rest w);
  ig_db : exists sj, lease_held LayerSCIP p r owner attempt now (cw_db w) sj /\
    cw_db w' = set_indexes (fun _ => db_indexes (cw_db w')) (validating p sj now (cw_db w))
}.

Lemma filter_filter {A} (f g : A -> bool) l : List.filter f (List.filter g l) = List.filter (fun x => f x && g x) l.
Proof. induction l as [|x l IH]; simpl; [done|]. destruct (g x); simpl; [|by rewrite andb_false_r]. by rewrite IH, andb_true_r; destruct (f x). Qed.

Lemma filter_ext_eq {A} (f g : A -> bool) l : (forall x, f x = g x) -> List.filter f l = List.filter g l.
Proof. intros H. apply List.filter_ext. done. Qed.

(** One statement of a committed transaction, with its answer. *)
Ltac tx_step_as H w a Hs :=
  apply tx_bind_Ok in H as (?s & a & Hs & H); apply tx_stmt_Ok in Hs as (w & -> & Hs).

(** The tables when the transaction commits. *)
Lemma ingest_body_tables s p ws language root indexer r owner attempt rows ce w n' w' a :
  index_keys p ws (db_indexes (cw_db w)) ->
  ingest_body s p ws language root indexer r owner attempt rows ce (0%nat, w) = ((n', w'), Ok a) ->
  exists sj w2 idx lid x c w9,
    lease_held LayerSCIP p r owner attempt (ce_now ce) (cw_db w) sj /\
    w2 = with_db (set_indexes (fun _ => db_indexes (cw_db w2))) (with_db (validating p sj (ce_now ce)) w) /\
    same_index p ws x = true /\ cix_artifactRoot x = Some (st_artifactRoot s) /\ cix_errorMessage x = None /\
    only_row idx x (db_indexes (cw_db w)) (db_indexes (cw_db w2)) /\
    (let kept (l : option string) := negb (bool_decide (l = Some lid)) && negb (stale_child p ws idx w2 l) in
     let row := language_row idx language root indexer p r (ce_now ce) in
     w9 = put_languages (<[lid := ready_language (ce_now ce) row]>
            (base.filter (fun kv => stale_language p ws idx (cw_db w2) kv.2 = false) (languages w2)))
         (put_relationships (insert_new relationship_key_eq
            (List.filter (fun y => kept (rl_codeIntelLanguageIndexId y)) (relationships w2))
            (map (scip_relationship_row p idx lid) (Relationships rows)))
         (put_occurrences (List.filter (fun x => kept (oc_codeIntelLanguageIndexId x)) (occurrences w2)
            ++ map (scip_occurrence_row p idx lid) (Occurrences rows))
         (put_symbols (insert_new symbol_key_eq
            (List.filter (fun x => kept (sy_codeIntelLanguageIndexId x)) (symbols w2))
            (map (symbol_row p idx lid) (Symbols rows))) w2)))) /\
    scip_counts idx p ws w9 = Ok c /\
    w' = with_db (set_indexes (map (fun x =>
           if cii_id (cix_key x) =s idx then refresh_index c (ce_now ce) x else x))) w9.
Proof.
  intros Hk. unfold ingest_body, tx_mark. intros H. tx_step_as H w0 u0 Hb. injection Hb as <- _.
  apply tx_bind_Ok in H as (s1 & u1 & H1 & H). eapply lease_tx_Ok in H1 as (sj & Hsj & ->); [|reflexivity].
  tx_step_as H w2 idx H2. apply upsertCodeIntelIndex_Ok in H2 as (x & Hw2 & Hx & Hroot & Herr & Hrow); [|done].
  apply tx_bind_Ok in H as ([n3 w3] & u3 & H3 & H). apply deleteStale_Ok in H3. cbn zeta in H3. cbn [snd] in H3.
  tx_step_as H w4 lid H4. apply upsertLanguageIndex_Ok in H4.
  apply tx_bind_Ok in H as ([n5 w5] & u5 & H5 & H). apply deleteLanguageRows_Ok in H5. cbn zeta in H5. cbn [snd] in H5.
  apply tx_bind_Ok in H as ([n6 w6] & u6 & H6 & H). apply bulkInsertSymbols_Ok in H6. cbn [snd] in H6.
  apply tx_bind_Ok in H as ([n7 w7] & u7 & H7 & H). apply bulkInsertOccurrences_Ok in H7. cbn [snd] in H7.
  apply tx_bind_Ok in H as ([n8 w8] & u8 & H8 & H). apply bulkInsertRelationships_Ok in H8. cbn [snd] in H8.
  unfold markLanguageReady in H. tx_step_as H w9 u9 H9. injection H9 as <- _.
  unfold refreshCodeIntelIndexCounts in H. tx_step_as H w10 u10 H10.
  apply tx_stmt_Ok in H as (w11 & [= -> ->] & [= <- _]).
  match type of H10 with context [scip_counts _ _ _ ?v] => set (w9 := v) in * end.
  destruct (scip_counts idx p ws w9) as [c|] eqn:Ec; [|done]. injection H10 as <-.
  exists sj, w2, idx, lid, x, c, w9. do 6 (split; [done|]). split; [|done].
  cbn zeta. subst w9 w8 w7 w6 w5 w4 w3. clear. destruct w2 as [db [o g rv la sy rl oc f e an lg]].
  cbv beta iota delta [put_languages put_relationships put_occurrences put_symbols languages symbols occurrences
    relationships with_rest with_languages with_symbols with_occurrences with_relationships with_scip cw_db cw_rest
    cr_orgs cr_graphs cr_revisions cr_languages cr_symbols cr_relationships cr_occurrences cr_facts cr_edges cr_anchors
    cr_graphlog id].
  by rewrite !filter_filter, alter_insert_eq.
Qed.

Lemma ingest_body_Ok s p ws language root indexer r owner attempt rows ce w n' w' a :
  index_keys p ws (db_indexes (cw_db w)) ->
  ingest_body s p ws language root indexer r owner attempt rows ce (0%nat, w) = ((n', w'), Ok a) ->
  exists idx lid, ingested s p ws language root indexer r owner attempt rows (ce_now ce) w w' idx lid.
Proof.
  intros Hk H. apply ingest_body_tables in H as (sj & w2 & idx & lid & x & c & w9 & Hsj & Hw2 & Hx & Hroot & Herr & Hrow & H9 & Hc & ->);
    [|done].
  cbn zeta in H9. exists idx, lid.
  assert (Hsc : same_scopes (cw_db w) (cw_db w2)) 
    by (intros id; rewrite Hw2; exact (validating_scopes p sj (ce_now ce) (cw_db w) (proj1 Hsj) id)).
  assert (Hr2 : cw_rest w2 = cw_rest w) by (by rewrite Hw2).
  assert (Hst : forall l, stale_child p ws idx w2 l = stale_child p ws idx w l)
    by (intros; by apply stale_child_scopes).
  assert (Htab : languages w2 = languages w /\ symbols w2 = symbols w /\ occurrences w2 = occurrences w
                 /\ relationships w2 = relationships w)
    by (unfold languages, symbols, occurrences, relationships; by rewrite Hr2).
  destruct Htab as (Hl & Hs & Ho & Hr).
  assert (Hready : ct_has_ready c = true).
  { destruct (scip_counts_Ok _ _ _ _ _ Hc) as (_ & _ & _ & _ & _ & _ & -> & _). apply existsb_exists.
    exists (ready_language (ce_now ce) (language_row idx language root indexer p r (ce_now ce))). split; [|done].
    apply list_elem_of_In, elem_of_List_filter. split; [|apply str_eqb_refl]. apply list_elem_of_fmap.
    eexists (lid, _). split; [done|]. apply elem_of_map_to_list. rewrite H9. apply lookup_insert_eq. }
  assert (Hdb9 : cw_db w9 = cw_db w2) by (by rewrite H9).
  split.
  - change (languages (with_db _ w9)) with (languages w9). rewrite H9. rewrite <- Hl.
    unfold put_languages, languages at 1. cbn [cw_rest with_rest with_languages with_scip cr_languages]. f_equal.
    apply map_filter_ext. intros i li _. simpl. by rewrite (stale_language_scopes p ws idx _ _ li Hsc).
  - cbn zeta. change (symbols (with_db _ w9)) with (symbols w9). rewrite H9, <- Hs. unfold symbols at 1. simpl. f_equal.
    apply filter_ext_eq. intros y. by rewrite Hst.
  - cbn zeta. change (occurrences (with_db _ w9)) with (occurrences w9). rewrite H9, <- Ho. unfold occurrences at 1. simpl. f_equal.
    apply filter_ext_eq. intros y. by rewrite Hst.
  - cbn zeta. change (relationships (with_db _ w9)) with (relationships w9). rewrite H9, <- Hr. unfold relationships at 1. simpl.
    f_equal. apply filter_ext_eq. intros y. by rewrite Hst.
  - exists (refresh_index c (ce_now ce) x).
    pose proof (scip_counts_Ok _ _ _ _ _ Hc) as (Hcs & Hco & Hcr & _).
    destruct (refreshed_ready c idx p ws w9 (cix_status x) Hc Hready) as [Hcomp Hin].
    split; [simpl; rewrite Hdb9; by apply only_row_map|]. split; [done|]. split; [done|].
    pose proof (refreshed_partial c idx p ws w9 (cix_status x) Hc Hready) as Hpart.
    split; [simpl; by destruct (_ && _)|]. done.
  - rewrite <- Hr2. rewrite H9. by destruct w2 as [db2 []].
  - exists sj. split; [done|]. simpl. rewrite Hdb9, Hw2. by destruct w as [[] ?].
Qed.

(** ** The program *)

(** A precheck that passed: the row of the message is being validated. *)
Definition leased (layer : string) (p : Payload) (r : Result) (owner attempt : string) (now : Z) (w w' : CoreWorld) : Prop :=
  exists sj, lease_held layer p r owner attempt now (cw_db w) sj /\ w' = with_db (validating p sj now) w.

Lemma run_precheck noun layer label lost p r owner attempt env n w :
  (forall i, ce_others (env i) = id) ->
  exists w' a, run env n (lease_precheck noun (fun fault now => validateLiveSubjobLease fault now layer label lost) p r owner attempt) w
      = (S n, w', Done a) /\
    match a with Ok _ => leased layer p r owner attempt (ce_now (env n)) w w' | Err _ => w' = w end.
Proof.
  intros Ho. unfold lease_precheck. rewrite run_tx. unfold do_call. rewrite Ho, with_rest_id. unfold tx_call.
  destruct (precheck_body _ _ _ _ _ _ (env n) (0%nat, w)) as [[n1 w1] [a|e]] eqn:E; [|by eexists _, _].
  eexists _, (Ok a). split; [done|]. unfold precheck_body, tx_mark in E. tx_step_as E w2 u H1. injection H1 as <- _.
  apply tx_bind_Ok in E as (s2 & u2 & H2 & E). eapply lease_tx_Ok in H2 as (sj & Hsj & ->); [|reflexivity].
  apply tx_stmt_Ok in E as (w3 & [= -> ->] & [= <- _]). by exists sj.
Qed.

Lemma run_lift {A B} env n (r : result gerror A) (k : A -> prog B) w :
  run env n (pbind (plift r) k) w
  = match r with Ok a => run env n (k a) w | Err e => (n, w, Done (Err e)) end.
Proof. by destruct r. Qed.

(** The file of the result is the one that was announced, and the rows are its. *)
Definition artifact_rows `{sorter : SliceSort} (d : Disk) (s : Store) (p : Payload) (r : Result) (language root : string)
    (rows : Rows) : Prop :=
  exists raw index, readArtifactFile "SCIP" d (res_ArtifactPath r) = Ok raw /\
    normalizeSHA256 (res_ArtifactSHA256 r) = sha256_hex raw /\ st_unmarshal s raw = Ok index /\
    validatePublishedArtifactScope "scipartifact" d (st_artifactRoot s) p (res_ArtifactPath r) = Ok tt /\
    rows = RowsFromIndex d index language root
             (RevisionSnapshotPath (st_paths s) (pl_OrgID p) (pl_RepoID p) (pl_CommitHash p)) /\
    ~ (Symbols rows = [] /\ Occurrences rows = [] /\ Relationships rows = []).

Lemma validateArtifactSHA_Ok pkg raw expected u :
  validateArtifactSHA pkg raw expected = Ok u -> normalizeSHA256 expected = sha256_hex raw.
Proof.
  unfold validateArtifactSHA. destruct (_ =s ""); [done|]. destruct (_ =s normalizeSHA256 _) eqn:E; [|done].
  intros _. symmetry. by apply str_eqb_spec.
Qed.

Lemma load_rows_Ok `{sorter : SliceSort} d s p r language root rows :
  load_rows d s p r language root = Ok rows -> artifact_rows d s p r language root rows.
Proof.
  unfold load_rows, with_prefix. destruct (validatePublishedArtifactScope _ _ _ _ _) as [[]|] eqn:E1; [|done]. simpl.
  destruct (readArtifactFile _ _ _) as [raw|] eqn:E2; [|done]. simpl.
  destruct (validateArtifactSHA _ _ _) eqn:E3; [|done]. simpl. apply validateArtifactSHA_Ok in E3.
  unfold RowsFromArtifactBytes. destruct (raw =s ""); [done|].
  destruct (st_unmarshal s raw) as [ix|] eqn:E4; [|done]. simpl.
  destruct (validateSemanticRows _ _) eqn:E5; [|done]. simpl. intros [= <-]. exists raw, ix. do 4 (split; [done|]).
  split; [done|]. intros (H1 & H2 & H3). unfold validateSemanticRows in E5. by rewrite H1, H2, H3 in E5.
Qed.

Lemma request_scope_Ok p r owner attempt language root indexer :
  request_scope p r owner attempt = Ok (language, root, indexer) ->
  pl_Language p = Some language /\ pl_ProjectRoot p = Some root /\ pl_Indexer p = Some indexer /\
  exists ws, pl_WorkspaceID p = Some ws.
Proof.
  unfold request_scope. destruct (Validate p) eqn:Ev; [done|]. destruct (blank owner || _); [done|].
  destruct (negb _); [done|]. destruct (blank (coalesce "" (pl_Language p))) eqn:E1; [done|].
  destruct (pl_ProjectRoot p) as [pr|]; [|done]. destruct (blank (coalesce "" (pl_Indexer p))) eqn:E2; [done|].
  destruct (blank (res_ArtifactPath r)); [done|]. intros [= <- <- <-].
  destruct (pl_Language p); [|done]. destruct (pl_Indexer p); [|done]. do 3 (split; [done|]).
  destruct (pl_WorkspaceID p) as [ws|] eqn:E; [by exists ws|]. unfold Validate in Ev. rewrite E in Ev. simpl in Ev.
  by rewrite !orb_true_r in Ev.
Qed.

