(* ===== verification/PipelineFacts.v ===== *)
(** The layers of a split index one after the other, on the same tables: the ingestion
    of SCIP and AST artifacts, the writer of the AST layer, the merge and the
    activation. *)
From Stdlib Require Import Ascii.
From S2P Require Import Prelude GoStd GoStdFacts GoJSON GoText Sha256 SubjobTypes SubjobStore SubjobTask SubjobCodec.
From S2P Require Import SubjobSystem ManifestDelta Executor Scheduler RepoPaths GraphSchema GraphStore ScipProjection.
From S2P Require Import RepoIndexDB RepoJobs RepoTask CoreDB Disk ScipRows ArtifactScope IndexCore CoreActivate.
From S2P Require Import CodeGraphWriter ArtifactStores ScipStore CoreFacts CodeGraphWriterFacts GraphRowsFacts.
From S2P Require Import CoreActivateFacts ScipStoreFacts.
(** The graph payload of an AST subjob and the message of a core subjob name the
    same revision. *)
Record same_revision_scope (p : GraphPayload) (q : Payload) : Prop := {
  sr_org : gp_OrgID p = pl_OrgID q; sr_repo : gp_RepoID p = pl_RepoID q;
  sr_workspace : pl_WorkspaceID q = Some (gp_WorkspaceID p);
  sr_revision : gp_Revision p = pl_Revision q; sr_commit : gp_CommitHash p = pl_CommitHash q;
  sr_schema : gp_SchemaVersion p = defaultSchemaVersion; sr_builder : gp_BuilderVersion p = defaultBuilder
}.

Lemma in_scope_key p q g : same_revision_scope p q -> graph_in_scope q (gp_WorkspaceID p) g = true ->
  graph_key g = payload_key p /\ gx_sourceRevision g = Some (gp_Revision p).
Proof.
  intros [E1 E2 E3 E4 E5 E6 E7]. unfold graph_in_scope, graph_key, payload_key.
  rewrite !andb_true_iff, !Z.eqb_eq, !str_eqb_spec, bool_decide_eq_true.
  intros ((((((H1 & H2) & H3) & H4) & H5) & H6) & H7). by rewrite H2, H3, H5, H6, H7, E2, E5, E6, E7, H4, E4.
Qed.

(** A write that meets a READY snapshot keeps the revision in it. *)
Lemma ready_source_kept ft graph p opts gid env n w n' w' o g :
  (forall i, ce_others (env i) = id) -> wo_ActivateRevision opts = false ->
  cr_graphs (cw_rest w) !! gid = Some g ->
  run env n (build_graph ft graph p opts gid "READY") w = (n', w', o) ->
  exists g', cr_graphs (cw_rest w') !! gid = Some g' /\ gx_sourceRevision g' = gx_sourceRevision g.
Proof.
  intros Ho Hact Hg. unfold build_graph. rewrite bool_decide_eq_false_2 by set_solver. rewrite str_eqb_refl. unfold duplicate_ready. rewrite Hact. cbn zeta.
  rewrite run_wrap. unfold repairReadyGraphCounts. rewrite (run_alone_stmt env Ho).
  destruct (ce_fault _ _); [intros [= _ <- _]; eauto|]. unfold update_graph. cbn [fst snd].
  intros [= _ <- _]. simpl. rewrite lookup_alter_eq, Hg. simpl. destruct (_ && _); eauto.
Qed.



(** From the SCIP artifact to the merge: which ingested rows the graph merge of the
    revision reads, and when it reads none of them. *)
(** ** The subjob store and the index table *)

Definition subjob_statement (o : op) : Prop := match o with OpEnv _ _ _ _ => False | _ => True end.

(** A statement of the store leaves the index rows alone. *)
Definition keeps_indexes {A} (stmt : DB -> result gerror (DB * A)) : Prop :=
  forall db db' a, stmt db = Ok (db', a) -> db_indexes db' = db_indexes db.

Lemma exec_indexes {A} f (stmt : DB -> result gerror (DB * A)) db : keeps_indexes stmt ->
  db_indexes (exec f stmt db).1 = db_indexes db.
Proof.
  intros H. unfold exec. destruct f; [done|]. destruct (stmt db) as [[db' a]|] eqn:E; [|done]. by apply H in E.
Qed.

Lemma update_row_indexes id guard upd : keeps_indexes (fun db => SubjobStore.update_row id (guard db) upd db).
Proof. intros db db' a. unfold SubjobStore.update_row. destruct (_ !! _); [destruct (guard _ _)|]; by intros [= <- <-]. Qed.

Lemma upsert_stmt_indexes id row : keeps_indexes (upsert_stmt id row).
Proof.
  intros db db' a. unfold upsert_stmt. cbn zeta. destruct (_ && _); [|by intros [= <- <-]].
  destruct (_ !! _); [by intros [= <- <-]|]. destruct (scope_key_taken _ _); [done|]. destruct (negb _); [done|].
  by intros [= <- <-].
Qed.

Lemma mark_failure_indexes now statuses st id o a code msg : keeps_indexes (mark_failure_stmt now statuses st id o a code msg).
Proof.
  intros db db' b. unfold mark_failure_stmt. destruct (_ !! _) as [r|]; [|by intros [= <- <-]].
  apply (update_row_indexes id (fun db r => holds_lease r o a && status_in (sj_status r) statuses && lease_live now r && row_job_active db r)).
Qed.

Lemma fail_parent_indexes now id msg : keeps_indexes (fail_parent_stmt now id msg).
Proof.
  intros db db' b. unfold fail_parent_stmt. destruct (_ !! _); [|by intros [= <- <-]].
  destruct (bool_decide _); [|by intros [= <- <-]]. cbn zeta. destruct (_ !! _); [destruct (_ && _)|]; by intros [= <- <-].
Qed.

(** Enters a method whose body is guards around one statement. *)
Tactic Notation "method_indexes" "using" tactic3(lem) :=
  repeat match goal with
  | |- db_indexes (if ?b then _ else _).1 = _ => destruct b; [done|]
  end;
  cbn zeta;
  match goal with
  | |- context [exec ?f ?s ?d] =>
      let E := fresh in
      assert (E : db_indexes (exec f s d).1 = db_indexes d) by (apply exec_indexes; lem);
      destruct (exec f s d) as [? [x|]]; try exact E; destruct x; exact E
  end.

Lemma run_op_indexes o db : subjob_statement o -> db_indexes (run_op o db) = db_indexes db.
Proof.
  assert (Hup : forall f now goNow c st code msg, db_indexes (upsertWithStatus f now goNow c st code msg db).1 = db_indexes db).
  { intros. unfold upsertWithStatus. destruct (validate_create c); [|done]. destruct (_ || _); [|done].
    method_indexes using (apply upsert_stmt_indexes). }
  destruct o; simpl; intros Hs; try done; try apply Hup; try (apply exec_indexes, mark_failure_indexes);
    unfold TryAcquireDispatchLock, ReleaseDispatchLock, UpsertSkipped, ClaimScoped, Heartbeat, MarkArtifactWritten, validateLiveSubjobLease, MarkSucceeded.
  - method_indexes using (intros d d' b; destruct (db_lock d) as [l|]; [destruct (_ || _)|]; by intros [= <- <-]).
  - method_indexes using (intros d d' b; destruct (db_lock d) as [l|]; [destruct (_ =s _)|]; by intros [= <- <-]).
  - destruct (_ || _); [done|]. apply Hup.
  - method_indexes using (apply update_row_indexes).
  - method_indexes using (apply (update_row_indexes _ (fun db r => _))).
  - method_indexes using (apply (update_row_indexes _ (fun db r => _))).
  - method_indexes using (apply update_row_indexes).
  - method_indexes using (apply update_row_indexes).
  - unfold failParentIfTerminalFailure. method_indexes using (apply fail_parent_indexes).
  - unfold RequeueExpiredLeases. method_indexes using (by intros d d' b [= <- <-]).
  - unfold RequeueLeasesForOwnerPrefixes. destruct (_ <=? _); [done|]. cbn zeta. destruct (List.filter _ _); [done|].
    method_indexes using (by intros d d' b [= <- <-]).
  - unfold ReconcileTerminalFailures. method_indexes using (by intros d d' b [= <- <-]).
Qed.

Lemma run_ops_indexes os db : Forall subjob_statement os -> db_indexes (run_ops os db) = db_indexes db.
Proof.
  intros H. revert db. induction H as [|o os Ho _ IH]; intros db; simpl; [done|]. by rewrite IH, run_op_indexes.
Qed.

(** ** Inserts without duplicates *)

Section InsertNew.
Context {A : Type} (same : A -> A -> bool) (same_refl : forall x, same x x = true).

Lemma insert_new_step t (rows : list A) y : y ∈ t -> y ∈ insert_new same t rows.
Proof.
  revert t. induction rows as [|r rows IH]; intros t Hy; simpl; [done|]. apply IH.
  destruct (existsb _ _); [done|]. apply elem_of_app. by left.
Qed.

Lemma insert_new_elem t (rows : list A) y : y ∈ insert_new same t rows -> y ∈ t \/ y ∈ rows.
Proof.
  revert t. induction rows as [|r rows IH]; intros t Hy; simpl in *; [by left|].
  apply IH in Hy as [Hy|Hy]; [|right; by right]. destruct (existsb _ _); [by left|].
  apply elem_of_app in Hy as [Hy|Hy]; [by left|]. apply list_elem_of_singleton in Hy as ->. right. left.
Qed.

(** Every proposed row is there, or one with its key. *)
Lemma insert_new_key t (rows : list A) r : r ∈ rows -> exists y, y ∈ insert_new same t rows /\ same r y = true.
Proof.
  revert t. induction rows as [|x rows IH]; intros t Hr; [by apply not_elem_of_nil in Hr|].
  apply elem_of_cons in Hr as [->|Hr]; [|by apply IH]. simpl. destruct (existsb (same x) t) eqn:E.
  - apply existsb_exists in E as (y & Hy & E). exists y. split; [|done]. apply insert_new_step. by apply list_elem_of_In.
  - exists x. split; [|done]. apply insert_new_step, elem_of_app. right. by apply list_elem_of_singleton.
Qed.
End InsertNew.

Lemma symbol_key_refl x : symbol_key_eq x x = true.
Proof. unfold symbol_key_eq. by rewrite !str_eqb_refl. Qed.

Lemma relationship_key_refl x : relationship_key_eq x x = true.
Proof. unfold relationship_key_eq. by rewrite !str_eqb_refl, !eqb_reflx. Qed.

(** ** What the merge reads *)

(** The message of another subjob of the same revision. *)
Definition same_revision (p q : Payload) : Prop :=
  pl_OrgID q = pl_OrgID p /\ pl_RepoID q = pl_RepoID p /\ pl_Branch q = pl_Branch p /\
  pl_Revision q = pl_Revision p /\ pl_CommitHash q = pl_CommitHash p.

(** A row the ingestion wrote is read when the index is not being indexed. *)
Lemma ingested_child s p ws language root indexer r owner attempt rows now w w' idx lid q :
  ingested s p ws language root indexer r owner attempt rows now w w' idx lid -> same_revision p q ->
  (forall x, x ∈ db_indexes (cw_db w') -> cii_id (cix_key x) = idx -> cix_status x <> "INDEXING") ->
  scip_child q ws w' (pl_OrgID p) (pl_RepoID p) idx (Some lid) = true.
Proof.
  intros Hin (H1 & H2 & H3 & H4 & H5) Hst. destruct (ig_index _ _ _ _ _ _ _ _ _ _ _ _ _ _ _ Hin)
    as (x & (Hx & Hid & _) & Hsame & _ & _ & _ & _ & _ & Hstat & _).
  unfold scip_child. apply andb_true_iff. split.
  - apply existsb_exists. exists x. split; [by apply list_elem_of_In|]. unfold same_index in Hsame.
    rewrite !andb_true_iff, !Z.eqb_eq, !str_eqb_spec in Hsame. destruct Hsame as ((((((E1 & E2) & E3) & E4) & E5) & E6) & E7).
    cbn zeta. rewrite Hid, E1, E2, E3, E4, E5, E6, E7, H1, H2, H3, H4, H5, !Z.eqb_refl, !str_eqb_refl. simpl.
    apply bool_decide_eq_true. specialize (Hst x Hx Hid). set_solver.
  - pose proof (ig_languages _ _ _ _ _ _ _ _ _ _ _ _ _ _ _ Hin) as Hl. unfold languages in Hl. rewrite Hl, lookup_insert_eq.
    simpl. by rewrite str_eqb_refl.
Qed.

Section Ingested.
Context (s : Store) (p : Payload) (ws language root indexer : string) (r : Result) (owner attempt : string) (rows : Rows)
  (now : Z) (w w' : CoreWorld) (idx lid : string).
Hypothesis Hin : ingested s p ws language root indexer r owner attempt rows now w w' idx lid.

(** The rows that carry the language are those of the artifact. *)
Lemma ingested_symbols_of y : y ∈ symbols w' -> sy_codeIntelLanguageIndexId y = Some lid ->
  exists x, x ∈ Symbols rows /\ y = symbol_row p idx lid x.
Proof.
  rewrite (ig_symbols _ _ _ _ _ _ _ _ _ _ _ _ _ _ _ Hin). intros [Hy|Hy]%insert_new_elem Hl.
  - apply elem_of_List_filter in Hy as [_ Hy]. by rewrite Hl, bool_decide_eq_true_2 in Hy.
  - apply list_elem_of_fmap in Hy as (x & -> & Hx). by exists x.
Qed.

Lemma ingested_relationships_of y : y ∈ relationships w' -> rl_codeIntelLanguageIndexId y = Some lid ->
  exists x, x ∈ Relationships rows /\ y = scip_relationship_row p idx lid x.
Proof.
  rewrite (ig_relationships _ _ _ _ _ _ _ _ _ _ _ _ _ _ _ Hin). intros [Hy|Hy]%insert_new_elem Hl.
  - apply elem_of_List_filter in Hy as [_ Hy]. by rewrite Hl, bool_decide_eq_true_2 in Hy.
  - apply list_elem_of_fmap in Hy as (x & -> & Hx). by exists x.
Qed.

Lemma ingested_occurrences_are :
  List.filter (fun o => bool_decide (oc_codeIntelLanguageIndexId o = Some lid)) (occurrences w')
  = map (scip_occurrence_row p idx lid) (Occurrences rows).
Proof.
  rewrite (ig_occurrences _ _ _ _ _ _ _ _ _ _ _ _ _ _ _ Hin), List.filter_app, filter_filter.
  rewrite (filter_ext_eq _ (fun _ => false)).
  2: { intros x. destruct (bool_decide (_ = Some lid)); [done|]. by rewrite ?andb_false_l. }
  assert (Hn : forall l, List.filter (fun _ : OccurrenceRow => false) l = []) by (induction l; done). rewrite Hn. simpl.
  induction (Occurrences rows) as [|o l IH]; simpl; [done|]. rewrite bool_decide_eq_true_2 by done. by rewrite IH.
Qed.
End Ingested.

Lemma elem_symbol_rows q ws w y : y ∈ symbols w ->
  scip_child q ws w (sy_orgId y) (sy_repoId y) (sy_codeIntelIndexId y) (sy_codeIntelLanguageIndexId y) = true ->
  symbol_projection y ∈ symbol_rows q ws w.
Proof.
  intros Hy Hc. unfold symbol_rows. apply list_elem_of_fmap. exists y. split; [done|].
  apply elem_of_sort_stable, elem_of_List_filter. done.
Qed.

Lemma elem_relationship_rows q ws w y : y ∈ relationships w ->
  scip_child q ws w (rl_orgId y) (rl_repoId y) (rl_codeIntelIndexId y) (rl_codeIntelLanguageIndexId y) = true ->
  exists z, z ∈ relationship_rows q ws w /\ ScipProjection.sr_SourceSymbol z = rl_sourceSymbol y /\
    ScipProjection.sr_TargetSymbol z = rl_targetSymbol y.
Proof.
  intros Hy Hc.
  assert (exists z, z ∈ relationship_projections w y /\ ScipProjection.sr_SourceSymbol z = rl_sourceSymbol y /\
    ScipProjection.sr_TargetSymbol z = rl_targetSymbol y) as (z & Hz & H).
  { unfold relationship_projections. destruct (List.filter _ _) as [|a l]; simpl; eexists; (split; [left|done]). }
  exists z. split; [|done]. apply elem_of_sort_stable. apply list_elem_of_In, in_concat.
  exists (relationship_projections w y). split; [|by apply list_elem_of_In].
  apply list_elem_of_In, list_elem_of_fmap. exists y. split; [done|]. by apply elem_of_List_filter.
Qed.

(** What an ingested artifact says reaches the merge of its revision, once the
    index row is READY or PARTIAL.  The occurrences stored for the project are
    exactly those of the artifact, and each one that stands for a use is among those
    the merge selects from; every symbol and every relationship of the artifact has
    a row in the index, and those that the artifact itself brought are read by the
    merge. *)
Theorem ingested_rows_merged s p ws language root indexer r owner attempt rows now w w' idx lid q :
  ingested s p ws language root indexer r owner attempt rows now w w' idx lid -> same_revision p q ->
  (forall x, x ∈ db_indexes (cw_db w') -> cii_id (cix_key x) = idx -> cix_status x <> "INDEXING") ->
  List.filter (fun o => bool_decide (oc_codeIntelLanguageIndexId o = Some lid)) (cr_occurrences (cw_rest w'))
    = map (scip_occurrence_row p idx lid) (Occurrences rows) /\
  (forall o, o ∈ Occurrences rows -> sc_Role o ∈ ["REFERENCE"; "READ"; "IMPORT"] -> sc_Symbol o <> "" ->
     (sc_Role o = "IMPORT" \/ coalesce "" (sc_EnclosingSymbol o) <> "") ->
     scip_occurrence_row p idx lid o ∈ List.filter (occurrence_wanted q ws w') (cr_occurrences (cw_rest w'))) /\
  (forall x, x ∈ Symbols rows -> exists y, y ∈ cr_symbols (cw_rest w') /\ sy_codeIntelIndexId y = idx /\
     sy_symbol y = ScipRows.ss_Symbol x /\
     (sy_codeIntelLanguageIndexId y = Some lid -> symbol_projection y ∈ symbol_rows q ws w')) /\
  (forall x, x ∈ Relationships rows -> exists y, y ∈ cr_relationships (cw_rest w') /\
     relationship_key_eq (scip_relationship_row p idx lid x) y = true /\
     (rl_codeIntelLanguageIndexId y = Some lid -> exists z, z ∈ relationship_rows q ws w' /\
        ScipProjection.sr_SourceSymbol z = ScipRows.sr_SourceSymbol x /\
        ScipProjection.sr_TargetSymbol z = ScipRows.sr_TargetSymbol x)).
Proof.
  intros Hin Hq Hst. pose proof (ingested_child _ _ _ _ _ _ _ _ _ _ _ _ _ _ _ _ Hin Hq Hst) as Hc.
  pose proof (ingested_occurrences_are _ _ _ _ _ _ _ _ _ _ _ _ _ _ _ Hin) as Ho. split; [exact Ho|]. split; [|split].
  - intros o Hoc Hrole Hsym Henc. apply elem_of_List_filter. split.
    + assert (Hm : scip_occurrence_row p idx lid o ∈ map (scip_occurrence_row p idx lid) (Occurrences rows))
        by (apply list_elem_of_fmap; eauto).
      rewrite <- Ho in Hm. by apply elem_of_List_filter in Hm as [Hm _].
    + unfold occurrence_wanted. simpl. rewrite Hc. simpl. rewrite (proj2 (str_eqb_false _ _) Hsym).
      rewrite bool_decide_eq_true_2 by set_solver. simpl. destruct Henc as [E|E]; [by rewrite E, str_eqb_refl|].
      rewrite (proj2 (str_eqb_false _ _) E). by rewrite orb_true_r.
  - intros x Hx.
    destruct (insert_new_key symbol_key_eq symbol_key_refl
      (List.filter (fun y => negb (bool_decide (sy_codeIntelLanguageIndexId y = Some lid))
         && negb (stale_child p ws idx w (sy_codeIntelLanguageIndexId y))) (symbols w))
      (map (symbol_row p idx lid) (Symbols rows)) (symbol_row p idx lid x)) as (y & Hy & Hk);
      [apply list_elem_of_fmap; eauto|].
    rewrite <- (ig_symbols _ _ _ _ _ _ _ _ _ _ _ _ _ _ _ Hin) in Hy. unfold symbol_key_eq in Hk.
    apply andb_true_iff in Hk as [K1%str_eqb_spec K2%str_eqb_spec]. simpl in K1, K2.
    exists y. split; [done|]. split; [done|]. split; [done|]. intros Hl.
    destruct (ingested_symbols_of _ _ _ _ _ _ _ _ _ _ _ _ _ _ _ Hin y Hy Hl) as (z & _ & ->). by apply elem_symbol_rows.
  - intros x Hx.
    destruct (insert_new_key relationship_key_eq relationship_key_refl
      (List.filter (fun y => negb (bool_decide (rl_codeIntelLanguageIndexId y = Some lid))
         && negb (stale_child p ws idx w (rl_codeIntelLanguageIndexId y))) (relationships w))
      (map (scip_relationship_row p idx lid) (Relationships rows)) (scip_relationship_row p idx lid x)) as (y & Hy & Hk);
      [apply list_elem_of_fmap; eauto|].
    rewrite <- (ig_relationships _ _ _ _ _ _ _ _ _ _ _ _ _ _ _ Hin) in Hy. exists y. split; [done|]. split; [done|].
    intros Hl. destruct (ingested_relationships_of _ _ _ _ _ _ _ _ _ _ _ _ _ _ _ Hin y Hy Hl) as (z & _ & ->).
    destruct (elem_relationship_rows q ws w' _ Hy) as (v & Hv & V1 & V2); [exact Hc|]. exists v. split; [done|].
    unfold relationship_key_eq in Hk. rewrite !andb_true_iff, !str_eqb_spec in Hk. simpl in *.
    destruct Hk as ((((((_ & K1) & K2) & _) & _) & _) & _). by rewrite V1, V2, K1, K2.
Qed.

(** An index row is not looked at again.  When the last ingestion of a job ends
    while another SCIP subjob of the revision still has to end, the index row stays
    INDEXING.  If that subjob then ends without an artifact, as the statements of
    the subjob store end it, or whatever else they do, nothing brings the row to
    PARTIAL: the merge of the revision finds no SCIP row at all, although the
    ingested rows are there. *)
Theorem skipped_last_hides_scip h s p ws language root indexer r owner attempt rows now w w' idx lid q other os :
  ingested s p ws language root indexer r owner attempt rows now w w' idx lid -> same_revision p q ->
  index_keys p ws (db_indexes (cw_db w')) -> ~ given_up p ws idx w' ->
  other ∈ scip_subjobs p ws (cw_db w') ->
  (forall li, li ∈ languages_of idx w' -> li_status li = "READY" -> subjob_of_language li other = false) ->
  Forall subjob_statement os ->
  scip_rows h q ws (with_db (run_ops os) w') = ([], [], []).
Proof.
  intros Hin (H1 & H2 & H3 & H4 & H5) [Hk _] Hg Hoth Hun Hos.
  destruct (ig_index _ _ _ _ _ _ _ _ _ _ _ _ _ _ _ Hin) as (x & (Hx & Hid & _) & Hsame & _ & _ & _ & _ & _ & Hstat & Hready & Hpart).
  assert (Hix : cix_status x = "INDEXING").
  { assert (cix_status x <> "PARTIAL") by (intros E; by apply Hpart in E).
    assert (cix_status x <> "READY"); [|set_solver]. intros E. apply Hready in E as [E _].
    destruct (E other Hoth) as (_ & _ & li & Hli & Hst & Hsub). by rewrite Hun in Hsub. }
  assert (Hno : forall o rp i l, scip_child q ws (with_db (run_ops os) w') o rp i l = false).
  { intros. unfold scip_child. apply andb_false_iff. left. apply existsb_none. simpl. rewrite run_ops_indexes by done.
    intros y Hy. cbn zeta. destruct (same_index p ws y) eqn:Ey.
    - rewrite (Hk y x Hy Hx Ey Hsame), Hix. by rewrite !andb_false_r.
    - apply not_true_iff_false. intros E. rewrite H1, H2, H3, H4, H5 in E. apply not_true_iff_false in Ey. apply Ey.
      unfold same_index. rewrite !andb_true_iff in E. rewrite !andb_true_iff. tauto. }
  assert (Hf : forall {A} (f : A -> bool) l, (forall a, f a = false) -> List.filter f l = []).
  { intros A f l Hfa. induction l; simpl; [done|]. by rewrite Hfa. }
  unfold scip_rows, symbol_rows, relationship_rows, occurrence_rows, occurrence_wanted. cbn zeta.
  rewrite (Hf _ _ (cr_symbols _)), (Hf _ _ (cr_relationships _)), (Hf _ _ (cr_occurrences _)); intros; rewrite ?Hno; try done.
  unfold candidate_files. simpl. by rewrite ?firstn_nil.
Qed.


(** What the ingestion of an AST artifact does: the message, not the artifact, says
    which snapshot is written, and only while the attempt holds the lease. *)
(** The payload stands for the message: its scope is the message's, its manifest the
    pending one of the message's job. *)
Definition stands_for (p : Payload) (ws : string) (m : Manifest) (g : GraphPayload) : Prop :=
  gp_OrgID g = pl_OrgID p /\ gp_RepoID g = pl_RepoID p /\ gp_WorkspaceID g = ws /\ gp_Branch g = pl_Branch p /\
  gp_Revision g = pl_Revision p /\ gp_CommitHash g = pl_CommitHash p /\ gp_IndexJobID g = pl_RepoIndexingJobID p /\
  gp_ManifestID g = mf_id m /\ gp_ProviderConnectionID g = mf_providerConnectionId m.

Lemma decodeGraphPayload_Ok ft raw p g : Ast.decodeGraphPayload ft raw p = Ok g ->
  exists ws, pl_WorkspaceID p = Some ws /\ forall m, stands_for p ws m (Ast.with_manifest g m).
Proof.
  unfold Ast.decodeGraphPayload. destruct (RepoTask.decode_struct _ _ _) as [g0|]; [|done].
  destruct (negb (_ =? _)) eqn:E1; [done|]. destruct (negb (gp_RepoID g0 =? _)) eqn:E2; [done|].
  destruct (negb (bool_decide _)) eqn:E3; [done|]. destruct (negb (gp_Branch g0 =s "") && _); [done|].
  destruct (negb (gp_Revision g0 =s _)) eqn:E4; [done|]. destruct (negb (gp_CommitHash g0 =s _)) eqn:E5; [done|].
  destruct (negb (gp_IndexJobID g0 =s "") && _); [done|]. intros [= <-].
  apply negb_false_iff in E1, E2, E3, E4, E5. apply Z.eqb_eq in E1, E2. apply bool_decide_eq_true in E3.
  apply str_eqb_spec in E4, E5. exists (gp_WorkspaceID g0). split; [done|]. intros m. unfold stands_for.
  destruct g0. simpl in *. done.
Qed.

(** The file of the result is the one that was announced, and holds the payload. *)
Definition ast_artifact (d : Disk) (s : Ast.Store) (ft : FloatText) (p : Payload) (r : Result) (g : GraphPayload) : Prop :=
  exists raw, readArtifactFile "AST graph" d (res_ArtifactPath r) = Ok raw /\
    normalizeSHA256 (res_ArtifactSHA256 r) = sha256_hex raw /\
    validatePublishedArtifactScope "astartifact" d (Ast.st_artifactRoot s) p (res_ArtifactPath r) = Ok tt /\
    Ast.decodeGraphPayload ft raw p = Ok g.

Lemma load_artifact_Ok d s ft p r g : Ast.load_artifact d s ft p r = Ok g -> ast_artifact d s ft p r g.
Proof.
  unfold Ast.load_artifact, with_prefix. destruct (validatePublishedArtifactScope _ _ _ _ _) as [[]|] eqn:E1; [|done]. cbn [rbind].
  destruct (readArtifactFile _ _ _) as [raw|] eqn:E2; [|done]. cbn [rbind].
  destruct (validateArtifactSHA _ _ _) eqn:E3; [|done]. cbn [rbind]. apply validateArtifactSHA_Ok in E3.
  intros H. by exists raw.
Qed.

Lemma run_pending env n p w : (forall i, ce_others (env i) = id) ->
  exists a, run env n (Ast.resolvePendingManifest p) w = (S n, w, Done a) /\
    forall m, a = Ok m -> m ∈ db_manifests (cw_db w) /\ exists ws, pl_WorkspaceID p = Some ws /\ pending_of p ws m = true.
Proof.
  intros Ho. unfold Ast.resolvePendingManifest. rewrite run_wrap, run_stmt. unfold do_call. rewrite Ho, with_rest_id.
  unfold stmt_call. destruct (ce_fault _ _); [by eexists|]. destruct (pl_WorkspaceID p) as [ws|]; [|by eexists].
  unfold pending_manifest. destruct (head _) as [m|] eqn:E; [|by eexists]. apply head_sort_elem, elem_of_List_filter in E.
  eexists. split; [done|]. intros ? [= <-]. split; [apply E|]. exists ws. by destruct E.
Qed.

Definition pending_only : writeOptions :=
  {| wo_AllowPendingManifest := true; wo_ActivateRevision := false; wo_PartialOnly := true |}.

(** C32: an AST artifact is written for its message, under its lease.  Run alone, with
    any faults, whatever the ingestion returns: either no write was attempted, it
    reports an error and at most the subjob row was put into VALIDATING; or the file
    lies in the message's scope and has the announced digest, the lease was live both
    before the file was read and before the write, and the payload written carries
    the organisation, repository, workspace, branch, revision, commit and job of the
    message and its pending manifest, whatever the artifact says.  The write then
    changed nothing, or only the snapshot of that commit, for a repository of that
    organisation and workspace; and if it succeeds from tables that keep their
    foreign keys, with digests that tell the edges apart, that snapshot was READY or
    SKIPPED before and stays so, or is SKIPPED, or is PARTIAL with exactly the rows of
    the artifact. *)
Theorem ast_ingest_contract d s p r owner attempt env n w n' w' o :
  (forall i, ce_others (env i) = id) ->
  run env n (Ast.Ingest d s p r owner attempt) w = (n', w', o) ->
  let lease := leased LayerASTTreeSitter p r owner attempt in
  (o <> Done (Ok tt) /\
   (w' = w \/ exists w1, lease (ce_now (env n)) w w1 /\ (w' = w1 \/ lease (ce_now (env (S (S n)))) w1 w'))) \/
  exists writer ws g m w1 w2, Ast.st_writer s = Some writer /\ pl_WorkspaceID p = Some ws /\
    ast_artifact d s (gh_float writer) p r g /\ m ∈ db_manifests (cw_db w) /\ pending_of p ws m = true /\
    lease (ce_now (env n)) w w1 /\ lease (ce_now (env (S (S n)))) w1 w2 /\
    let gp := Ast.with_manifest g m in
    stands_for p ws m gp /\
    (w' = w2 \/ (write_allowed gp pending_only w2 /\ exists gid, only gp gid w2 w' /\
       forall g0, cr_graphs (cw_rest w2) !! gid = Some g0 -> graph_key g0 = payload_key gp)) /\
    (o = Done (Ok tt) -> graph_tables_ok w2 -> tells_apart gp ->
     exists gid g', cr_graphs (cw_rest w') !! gid = Some g' /\ graph_key g' = payload_key gp /\
       ((exists g0, cr_graphs (cw_rest w2) !! gid = Some g0 /\ settled g0 = true /\
           gx_status g' = gx_status g0 /\ same_rows w2 w') \/
        (gx_status g' = "SKIPPED" /\ same_rows w2 w') \/ partial_with_rows (gh_float writer) gp gid w' g')).
Proof.
  intros Ho H. cbn zeta. unfold Ast.Ingest in H. destruct (Ast.st_db s); [|injection H as _ <- <-; left; auto].
  destruct (Ast.st_writer s) as [writer|] eqn:Ew; [|injection H as _ <- <-; left; auto].
  destruct (Ast.request_error p r owner attempt); [injection H as _ <- <-; left; auto|].
  unfold Ast.validateLiveSubjobLeasePrecheck in H. rewrite run_bind in H.
  pose proof (fun n w => run_precheck "AST" LayerASTTreeSitter "validate AST subjob lease"
    "astartifact: live subjob lease not found or no longer valid" p r owner attempt env n w Ho) as Hpre.
  destruct (Hpre n w) as (w1 & a1 & E1 & H1). unfold ast_validateLiveSubjobLease in H. rewrite E1 in H.
  destruct a1 as [u1|e1]; [|injection H as _ <- <-; left; subst; auto]. rewrite run_lift in H.
  destruct (Ast.load_artifact _ _ _ _ _) as [g|] eqn:Eg; [|injection H as _ <- <-; left; eauto 6].
  apply load_artifact_Ok in Eg. rewrite run_bind in H. destruct (run_pending env (S n) p w1 Ho) as (am & Em & Hm). rewrite Em in H.
  destruct am as [m|]; [|injection H as _ <- <-; left; eauto 6]. destruct (Hm m eq_refl) as (Hmi & ws & Hws & Hmp).
  destruct (negb _ && _); [injection H as _ <- <-; left; eauto 6|]. rewrite run_bind in H.
  destruct (Hpre (S (S n)) w1) as (w2 & a2 & E2 & H2). rewrite E2 in H.
  destruct a2 as [u2|e2]; [|injection H as _ <- <-; left; subst; eauto 6]. right.
  assert (Hst : stands_for p ws m (Ast.with_manifest g m)).
  { destruct Eg as (raw & _ & _ & _ & Ed). apply decodeGraphPayload_Ok in Ed as (ws' & Hws' & Hd). rewrite Hws in Hws'.
    injection Hws' as <-. apply Hd. }
  exists writer, ws, g, m, w1, w2. do 3 (split; [done|]).
  split; [destruct H1 as (sj & _ & ->); exact Hmi|]. do 3 (split; [done|]). cbn zeta. split; [done|].
  rewrite run_wrap in H. destruct (run env (S (S (S n))) (WritePendingPayload writer (Ast.with_manifest g m)) w2) as [[n3 w3] o3] eqn:E3.
  assert (w' = w3) as -> by (destruct o3 as [[]|]; injection H; congruence).
  split; [by apply write_confined in E3|]. intros Eo Htab Htell. eapply (pending_write_result _ _ env); [done|done|done|].
  rewrite E3, <- Eo. destruct o3 as [[]|]; injection H as -> <-; [done|subst; discriminate Eo|done].
Qed.
