(* ===== verification/PlanWriter.v ===== *)
(** The plan writer, src/internal/backend/indexplanwriter/server.go: the service that
    takes the branches and projects an indexer worker found, checks that they belong
    to a running job and to its prepared manifests, and queues their subjobs.

    The messages are those of src/proto/codeintel/v1/index_plan_service.proto; an
    element of a repeated field may be nil. *)
From Stdlib Require Import Ascii.
From S2P Require Import Prelude GoStd GoStdFacts GoJSON SubjobTypes SubjobStore Planner RepoIndexDB CoreDB.
From S2P Require Import CodeGraphWriter.
Definition maxRevisions : nat := 128.
Definition maxSCIPProjects : nat := 2048.
Definition defaultAttempts : Z := 3.

(** ** Messages *)

Record SCIPProjectPlan : Type := {
  pp_Language : string; pp_ProjectRoot : string; pp_Indexer : string; pp_ScipWorkerClass : string;
  pp_ToolchainDigest : option string; pp_ImageDigest : option string; pp_ProjectInputHash : option string
}.

Record IndexPlanRevision : Type := {
  pr_WorkspaceId : string; pr_Branch : string; pr_Revision : string; pr_CommitHash : string;
  pr_RunAstTreeSitter : bool; pr_RunGraphMerge : bool; pr_RunActivate : bool;
  pr_ScipProjects : list (option SCIPProjectPlan)
}.

Record WriteIndexPlanRequest : Type := {
  wq_IndexJobId : string; wq_OrgId : Z; wq_RepoId : Z; wq_MaxAttempts : Z;
  wq_Revisions : list (option IndexPlanRevision)
}.

Record WriteIndexPlanResponse : Type := { ws_RevisionCount : Z; ws_SubjobCount : Z }.

(** The getters of a nil message return zero values. *)
Definition nil_project : SCIPProjectPlan :=
  {| pp_Language := ""; pp_ProjectRoot := ""; pp_Indexer := ""; pp_ScipWorkerClass := "";
     pp_ToolchainDigest := None; pp_ImageDigest := None; pp_ProjectInputHash := None |}.
Definition nil_revision : IndexPlanRevision :=
  {| pr_WorkspaceId := ""; pr_Branch := ""; pr_Revision := ""; pr_CommitHash := ""; pr_RunAstTreeSitter := false;
     pr_RunGraphMerge := false; pr_RunActivate := false; pr_ScipProjects := [] |}.

Inductive Code : Type := FailedPrecondition | InvalidArgument | PermissionDenied | Internal.

#[global] Instance Code_eq_dec : EqDecision Code.
Proof. solve_decision. Defined.

(** [status.Error] *)
Record Status : Type := { gs_code : Code; gs_message : string }.

(** ** Validation *)

(** A rune that is a hexadecimal digit is one byte. *)
Definition isHexCommit (s : string) : bool :=
  (String.length s =? 40)%nat && forallb is_hex (String.list_ascii_of_string s).

Definition safeProjectRoot (root : string) : bool := (NormalizeProjectRoot root).2.

Section Validation.
(** The order in which the map of optional digests is gone through. *)
Context (order : list string).

Definition digest_field (p : SCIPProjectPlan) (name : string) : option string :=
  if name =s "toolchainDigest" then pp_ToolchainDigest p
  else if name =s "imageDigest" then pp_ImageDigest p
  else if name =s "projectInputHash" then pp_ProjectInputHash p
  else None.

Definition blank_digest (p : SCIPProjectPlan) (name : string) : bool :=
  match digest_field p name with Some v => TrimSpace v =s "" | None => false end.

Definition validateSCIPProject (project : option SCIPProjectPlan) : option gerror :=
  match project with
  | None => Some (EText "project is required")
  | Some p =>
      if TrimSpace (pp_Language p) =s "" then Some (EText "language is required")
      else if TrimSpace (pp_Indexer p) =s "" then Some (EText "indexer is required")
      else if TrimSpace (pp_ScipWorkerClass p) =s "" then Some (EText "scipWorkerClass is required")
      else if negb (safeProjectRoot (pp_ProjectRoot p))
      then Some (EText ("projectRoot " +:+ quoted (pp_ProjectRoot p) +:+ " is not repo-relative"))
      else (fun name => EText (name +:+ " must be non-empty when present")) <$> List.find (blank_digest p) order
  end.

(** [for i, x := range l]: the first error, under the name of its place. *)
Fixpoint first_invalid {A} (check : A -> option gerror) (name : string) (i : nat) (l : list A) : option gerror :=
  match l with
  | [] => None
  | x :: rest =>
      match check x with
      | Some e => Some (EWrap (name +:+ "[" +:+ Itoa (Z.of_nat i) +:+ "]: ") e "")
      | None => first_invalid check name (S i) rest
      end
  end.

Definition validateRevision (rev : option IndexPlanRevision) : option gerror :=
  match rev with
  | None => Some (EText "revision is required")
  | Some r =>
      if TrimSpace (pr_WorkspaceId r) =s "" then Some (EText "workspaceId is required")
      else if TrimSpace (pr_Branch r) =s "" then Some (EText "branch is required")
      else if TrimSpace (pr_Revision r) =s "" then Some (EText "revision is required")
      else if negb (pr_Revision r =s pr_Branch r)
      then Some (EText "revision must match branch until RepoIndexManifest stores a separate revision")
      else if negb (isHexCommit (pr_CommitHash r)) then Some (EText "commitHash must be a 40-character SHA")
      else
        let hasProducer := pr_RunAstTreeSitter r || (0 <? length (pr_ScipProjects r))%nat in
        if negb hasProducer && negb (pr_RunGraphMerge r) && negb (pr_RunActivate r)
        then Some (EText "at least one producer layer or SCIP project is required")
        else if pr_RunGraphMerge r && negb hasProducer
        then Some (EText "runGraphMerge requires AST/tree-sitter or SCIP producer work")
        else if pr_RunActivate r && negb hasProducer && negb (pr_RunGraphMerge r)
        then Some (EText "runActivate requires at least one producer layer")
        else first_invalid validateSCIPProject "scipProjects" 0 (pr_ScipProjects r)
  end.

(** The loop over the revisions, with the count of projects so far. *)
Fixpoint validate_revisions (i projectCount : nat) (revs : list (option IndexPlanRevision)) : option gerror :=
  match revs with
  | [] => None
  | rev :: rest =>
      match validateRevision rev with
      | Some e => Some (EWrap ("revisions[" +:+ Itoa (Z.of_nat i) +:+ "]: ") e "")
      | None =>
          let projectCount := (projectCount + length (pr_ScipProjects (default nil_revision rev)))%nat in
          if (maxSCIPProjects <? projectCount)%nat
          then Some (EText ("scip project count exceeds " +:+ Itoa (Z.of_nat maxSCIPProjects)))
          else validate_revisions (S i) projectCount rest
      end
  end.

Definition validateRequest (req : option WriteIndexPlanRequest) : option gerror :=
  match req with
  | None => Some (EText "request is required")
  | Some q =>
      if TrimSpace (wq_IndexJobId q) =s "" then Some (EText "indexJobId is required")
      else if wq_OrgId q <=? 0 then Some (EText "orgId must be positive")
      else if wq_RepoId q <=? 0 then Some (EText "repoId must be positive")
      else if (wq_MaxAttempts q <? 0) || (25 <? wq_MaxAttempts q)
      then Some (EText "maxAttempts must be between 0 and 25")
      else if (length (wq_Revisions q) =? 0)%nat || (maxRevisions <? length (wq_Revisions q))%nat
      then Some (EText ("revision count must be between 1 and " +:+ Itoa (Z.of_nat maxRevisions)))
      else validate_revisions 0 0 (wq_Revisions q)
  end.
End Validation.

(** ** The planner's input *)

Definition to_project (project : option SCIPProjectPlan) : SCIPProject :=
  let p := default nil_project project in
  {| sp_Language := pp_Language p; sp_ProjectRoot := pp_ProjectRoot p; sp_Indexer := pp_Indexer p;
     sp_SCIPWorkerClass := pp_ScipWorkerClass p; sp_ToolchainDigest := pp_ToolchainDigest p;
     sp_ImageDigest := pp_ImageDigest p; sp_ProjectInputHash := pp_ProjectInputHash p |}.

Definition to_revision (rev : option IndexPlanRevision) : Revision :=
  let r := default nil_revision rev in
  {| rv_WorkspaceID := Some (pr_WorkspaceId r); rv_Branch := pr_Branch r; rv_Revision := pr_Revision r;
     rv_CommitHash := pr_CommitHash r; rv_RunClone := false; rv_RunZoekt := false;
     rv_RunASTTreeSitter := pr_RunAstTreeSitter r; rv_RunGraphMerge := pr_RunGraphMerge r;
     rv_RunActivate := pr_RunActivate r; rv_SCIPProjects := map to_project (pr_ScipProjects r) |}.

Definition toPlannerInput (req : WriteIndexPlanRequest) : Input :=
  {| in_RepoIndexingJobID := wq_IndexJobId req; in_OrgID := wq_OrgId req; in_RepoID := wq_RepoId req;
     in_MaxAttempts := if wq_MaxAttempts req =? 0 then defaultAttempts else wq_MaxAttempts req;
     in_Revisions := map to_revision (wq_Revisions req) |}.

(** ** Queries *)

(** The number of calls made so far, and the tables. *)
Definition PlanState : Type := nat * CoreWorld.

Section Server.
Context (env : nat -> CallEnv).

Definition query {A} (stmt : CoreWorld -> result gerror A) (s : PlanState) : PlanState * result gerror A :=
  let '(n, w) := s in
  let '(w', r) := do_call (env n) (stmt_call (fun _ w => let? a := stmt w in Ok (w, a))) w in
  ((S n, w'), r).

Definition scope_row (req : WriteIndexPlanRequest) (w : CoreWorld) : result gerror string :=
  match db_jobs (cw_db w) !! wq_IndexJobId req, db_repos (cw_db w) !! wq_RepoId req with
  | Some j, Some r =>
      if (job_repoId j =? wq_RepoId req) && (repo_orgId r =? wq_OrgId req)
         && bool_decide (job_type j = INDEX) && bool_decide (job_status j = IN_PROGRESS)
      then match cr_orgs (cw_rest w) !! wq_OrgId req with
           | Some o => Ok (org_workspace o)
           | None => Err ErrNoRows
           end
      else Err ErrNoRows
  | _, _ => Err ErrNoRows
  end.

Definition resolveScope (req : WriteIndexPlanRequest) : PlanState -> PlanState * result gerror string :=
  query (scope_row req).

Definition manifest_row (req : WriteIndexPlanRequest) (rev : IndexPlanRevision) (w : CoreWorld) : result gerror unit :=
  if manifest_pending (cw_db w) (wq_IndexJobId req) (wq_OrgId req) (wq_RepoId req) (pr_WorkspaceId rev)
       (pr_Branch rev) (pr_CommitHash rev)
  then Ok tt else Err ErrNoRows.

Fixpoint manifests_pending (req : WriteIndexPlanRequest) (revs : list (option IndexPlanRevision)) (s : PlanState)
  : PlanState * result gerror unit :=
  match revs with
  | [] => (s, Ok tt)
  | rev :: rest =>
      match query (manifest_row req (default nil_revision rev)) s with
      | (s', Err e) => (s', Err e)
      | (s', Ok _) => manifests_pending req rest s'
      end
  end.

Definition validateRevisionManifests (req : WriteIndexPlanRequest) (s : PlanState) : PlanState * result gerror unit :=
  manifests_pending req (wq_Revisions req) s.

(** [planStore]: the subjob store on the same tables. *)
#[global] Instance plan_store : SubjobWriter PlanState := {
  sw_UpsertQueued c s :=
    let '(n, w) := s in
    let w := with_rest (ce_others (env n)) w in
    let '(db', r) := UpsertQueued (ce_fault (env n) 0) (ce_now (env n)) (ce_now (env n)) c (cw_db w) in
    ((S n, with_db (fun _ => db') w), r)
}.

(** ** [WritePlan] *)

Definition refuse {A} (s : PlanState) (code : Code) (message : string) : PlanState * result Status A :=
  (s, Err {| gs_code := code; gs_message := message |}).

Definition foreign_workspace (ws : string) (rev : option IndexPlanRevision) : bool :=
  negb (pr_WorkspaceId (default nil_revision rev) =s ws).

(** After the scope of the job was found. *)
Definition write_scoped (q : WriteIndexPlanRequest) (ws : string) (s : PlanState)
  : PlanState * result Status WriteIndexPlanResponse :=
  match List.find (foreign_workspace ws) (wq_Revisions q) with
  | Some rev => refuse s InvalidArgument ("workspaceId " +:+ quoted (pr_WorkspaceId (default nil_revision rev))
                  +:+ " does not match org-resolved workspaceId " +:+ quoted ws)
  | None =>
      match validateRevisionManifests q s with
      | (s', Err e) =>
          if err_is (err_text ErrNoRows) e
          then refuse s' PermissionDenied "index plan revision is not part of the active prepared manifests"
          else refuse s' Internal ("revision manifest validation: " +:+ err_text e)
      | (s', Ok _) =>
          match PlanAndPersist true (toPlannerInput q) s' with
          | (s'', Err e) =>
              if err_is (err_text ErrInvalidPlan) e then refuse s'' InvalidArgument ("planner validation: " +:+ err_text e)
              else refuse s'' Internal ("persist index plan: " +:+ err_text e)
          | (s'', Ok planned) =>
              (s'', Ok {| ws_RevisionCount := wrap32 (Z.of_nat (length (wq_Revisions q)));
                          ws_SubjobCount := wrap32 (Z.of_nat (length planned)) |})
          end
      end
  end.

(** [configured]: neither the database nor the store is nil. *)
Definition WritePlan (configured : bool) (order : list string) (req : option WriteIndexPlanRequest) (s : PlanState)
  : PlanState * result Status WriteIndexPlanResponse :=
  if negb configured then refuse s FailedPrecondition "index plan writer is not configured"
  else match validateRequest order req with
  | Some e => refuse s InvalidArgument (err_text e)
  | None =>
      match req with
      | None => refuse s InvalidArgument ""
      | Some q =>
          match resolveScope q s with
          | (s', Err e) =>
              if err_is (err_text ErrNoRows) e
              then refuse s' PermissionDenied "index job scope does not belong to org/repo or is not an active INDEX job"
              else refuse s' Internal ("scope validation: " +:+ err_text e)
          | (s', Ok ws) => write_scoped q ws s'
          end
      end
  end.
End Server.
