(* ===== verification/PlanWriterFacts.v ===== *)
(** What the plan writer lets through: only plans of a running job, for its prepared
    manifests, in the scope of the organisation, and what was planned is queued. *)
From S2P Require Import Prelude GoStd GoStdFacts GoJSON WorkerClasses SubjobTypes SubjobStore SubjobFacts Planner.
From S2P Require Import PlannerFacts RepoIndexDB CoreDB CodeGraphWriter PlanWriter.
(** ** Valid requests *)

Lemma first_invalid_None {A} (check : A -> option gerror) name i l :
  first_invalid check name i l = None <-> Forall (fun x => check x = None) l.
Proof.
  revert i. induction l as [|x l IH]; intros i; cbn [first_invalid]; [split; [constructor|done]|].
  destruct (check x) as [e|] eqn:E; [split; [done|intros H; apply Forall_inv in H; congruence]|].
  rewrite IH. split; [by constructor|]. intros H. by apply Forall_inv_tail in H.
Qed.

Definition valid_project (p : option SCIPProjectPlan) : Prop :=
  exists x, p = Some x /\ pp_Language x <> "" /\ pp_Indexer x <> "" /\ pp_ScipWorkerClass x <> "" /\
    (NormalizeProjectRoot (pp_ProjectRoot x)).2 = true.

Lemma trimmed_nonempty s : (TrimSpace s =s "") = false -> s <> "".
Proof. intros H ->. done. Qed.

Lemma validateSCIPProject_None order p : validateSCIPProject order p = None -> valid_project p.
Proof.
  destruct p as [x|]; [|done]. cbn [validateSCIPProject].
  destruct (TrimSpace (pp_Language x) =s "") eqn:E1; [done|]. destruct (TrimSpace (pp_Indexer x) =s "") eqn:E2; [done|].
  destruct (TrimSpace (pp_ScipWorkerClass x) =s "") eqn:E3; [done|]. destruct (negb _) eqn:E4; [done|]. intros _.
  exists x. apply negb_false_iff in E4. split_and!; [done|by apply trimmed_nonempty..|exact E4].
Qed.

(** A revision the planner takes, with a commit the store takes. *)
Definition valid_revision (rev : option IndexPlanRevision) : Prop :=
  is_Some rev /\ check_revision (to_revision rev) = Ok tt /\ commitHashPattern (rv_CommitHash (to_revision rev)) = true /\
  rev_layers (to_revision rev) <> [] /\ Forall valid_project (pr_ScipProjects (default nil_revision rev)).

Lemma validateRevision_None order rev : validateRevision order rev = None -> valid_revision rev.
Proof.
  destruct rev as [r|]; [|done]. cbn [validateRevision].
  destruct (TrimSpace (pr_WorkspaceId r) =s "") eqn:E1; [done|]. destruct (TrimSpace (pr_Branch r) =s "") eqn:E2; [done|].
  destruct (TrimSpace (pr_Revision r) =s "") eqn:E3; [done|]. destruct (negb (_ =s _)); [done|].
  destruct (isHexCommit (pr_CommitHash r)) eqn:E4; [|done]. cbn [negb]. cbn zeta.
  apply trimmed_nonempty, str_eqb_false in E1, E2, E3.
  assert (Hc : (pr_CommitHash r =s "") = false) by (apply str_eqb_false; intros E; by rewrite E in E4).
  assert (Hl : forall l : list (option SCIPProjectPlan), length (map to_project l) = length l) by (intros; apply length_map).
  destruct (negb _ && _ && _) eqn:E5; [done|]. destruct (pr_RunGraphMerge r && _) eqn:E6; [done|].
  destruct (pr_RunActivate r && _ && _) eqn:E7; [done|].
  intros H%first_invalid_None. split; [done|]. cbn [to_revision default rv_CommitHash rv_SCIPProjects]. split_and!.
  - unfold check_revision, stringPtrValue, to_revision. change (default nil_revision (Some r)) with r. cbn zeta.
    cbn [rv_Branch rv_Revision rv_CommitHash rv_WorkspaceID rv_RunClone rv_RunZoekt rv_RunASTTreeSitter
      rv_RunGraphMerge rv_RunActivate rv_SCIPProjects coalesce].
    rewrite E2, E3, Hc. cbn [orb]. change (coalesce "" (Some (pr_WorkspaceId r))) with (pr_WorkspaceId r). by rewrite E1, Hl, E6, E7.
  - exact E4.
  - unfold rev_layers. cbn.
    destruct (pr_RunAstTreeSitter r), (pr_ScipProjects r), (pr_RunGraphMerge r), (pr_RunActivate r); done.
  - eapply Forall_impl; [exact H|]. apply validateSCIPProject_None.
Qed.

Definition projects_of (q : WriteIndexPlanRequest) : list (option SCIPProjectPlan) :=
  flat_map (fun rev => pr_ScipProjects (default nil_revision rev)) (wq_Revisions q).

Lemma validate_revisions_None order revs i n : validate_revisions order i n revs = None ->
  Forall valid_revision revs /\
  (revs <> [] -> n + length (flat_map (fun rev => pr_ScipProjects (default nil_revision rev)) revs) <= maxSCIPProjects)%nat.
Proof.
  revert i n. induction revs as [|rev revs IH]; intros i n; cbn [validate_revisions]; [done|].
  destruct (validateRevision order rev) eqn:E; [done|]. cbn zeta. destruct (_ <? _)%nat eqn:El; [done|].
  intros [Hf Hn]%IH. split; [constructor; [by apply validateRevision_None in E|done]|]. intros _.
  apply Nat.ltb_ge in El. cbn [flat_map]. rewrite length_app. destruct revs as [|x revs]; [cbn; lia|].
  specialize (Hn ltac:(done)). lia.
Qed.

Lemma validateRequest_None order q : validateRequest order (Some q) = None ->
  wq_IndexJobId q <> "" /\ 0 < wq_OrgId q /\ 0 < wq_RepoId q /\ wq_Revisions q <> [] /\
  (length (wq_Revisions q) <= maxRevisions)%nat /\ (length (projects_of q) <= maxSCIPProjects)%nat /\
  Forall valid_revision (wq_Revisions q).
Proof.
  cbn [validateRequest]. destruct (_ =s "") eqn:E1; [done|]. destruct (wq_OrgId q <=? 0) eqn:E2; [done|].
  destruct (wq_RepoId q <=? 0) eqn:E3; [done|]. destruct (_ || _); [done|]. destruct (_ || _) eqn:E4; [done|].
  apply orb_false_iff in E4 as [E4 E5]. apply Nat.eqb_neq in E4. apply Nat.ltb_ge in E5. intros [Hf Hn]%validate_revisions_None.
  assert (Hne : wq_Revisions q <> []) by (by intros E; rewrite E in E4).
  split; [by apply trimmed_nonempty|]. split_and!; try lia; try done. by apply Hn.
Qed.

(** ** The planner takes a valid request *)

(** Every project has an executor class. *)
Definition classes_known (q : WriteIndexPlanRequest) : Prop :=
  Forall (fun p => is_Some (ForSCIPWorkerClass (pp_ScipWorkerClass (default nil_project p)))) (projects_of q).

Lemma scip_subjobs_valid i rev ps : Forall valid_project ps ->
  Forall (fun p => is_Some (ForSCIPWorkerClass (pp_ScipWorkerClass (default nil_project p)))) ps ->
  exists cs, scip_subjobs i rev (map to_project ps) = Ok cs.
Proof.
  intros Hv Hk. induction Hv as [|p ps Hp Hv IH]; [by exists []|].
  apply Forall_cons in Hk as [[class Hc] Hk]. destruct (IH Hk) as [cs Hcs].
  destruct Hp as (x & -> & H1 & H2 & H3 & H4). apply str_eqb_false in H1, H2, H3. cbn [map scip_subjobs].
  assert (exists c, scipSubjob i rev (to_project (Some x)) = Ok c) as [c Hsub].
  { unfold scipSubjob, to_project. change (default nil_project (Some x)) with x in *.
    cbn zeta. cbn [sp_Language sp_Indexer sp_SCIPWorkerClass sp_ProjectRoot].
    rewrite H1, H2, H3. cbn [orb]. rewrite Hc. destruct (NormalizeProjectRoot _) as [root ok].
    cbn in H4. subst ok. cbn [negb]. by eexists. }
  rewrite Hsub, Hcs. by eexists.
Qed.

Lemma plan_revisions_valid i core revs : Forall valid_revision revs ->
  Forall (fun p => is_Some (ForSCIPWorkerClass (pp_ScipWorkerClass (default nil_project p))))
    (flat_map (fun rev => pr_ScipProjects (default nil_revision rev)) revs) ->
  exists out, plan_revisions i core (map to_revision revs) = Ok out.
Proof.
  intros Hv Hk. induction Hv as [|rev revs Hr Hv IH]; [by exists []|].
  cbn [flat_map] in Hk. apply Forall_app in Hk as [Hk1 Hk]. destruct (IH Hk) as [out Hout].
  destruct Hr as (_ & Hck & _ & _ & Hps). cbn [map plan_revisions]. unfold plan_revision. rewrite Hck. cbn [rbind].
  destruct (scip_subjobs_valid i (to_revision rev) _ Hps Hk1) as [cs Hcs]. cbn [to_revision rv_SCIPProjects] in *.
  rewrite Hcs. cbn [rbind]. rewrite Hout. by eexists.
Qed.

Lemma valid_plan_built order q : validateRequest order (Some q) = None -> classes_known q ->
  exists out, Build (toPlannerInput q) = Ok out.
Proof.
  intros (H1 & H2 & H3 & H4 & _ & _ & Hv)%validateRequest_None Hk. destruct ByName_core as (core & Hcore & _).
  destruct (plan_revisions_valid (toPlannerInput q) core _ Hv Hk) as [out Hout]. exists out.
  unfold Build. cbn [toPlannerInput in_RepoIndexingJobID in_OrgID in_RepoID in_Revisions] in *. apply str_eqb_false in H1. rewrite H1.
  replace (wq_OrgId q <=? 0) with false by lia. replace (wq_RepoId q <=? 0) with false by lia.
  rewrite length_map. destruct (wq_Revisions q) as [|rev revs] eqn:Er; [done|]. cbn [length Nat.eqb orb]. rewrite Hcore, Hout. cbn [rbind].
  destruct (length out =? 0)%nat eqn:El; [|done]. exfalso. apply Nat.eqb_eq, length_zero_iff_nil in El. subst out.
  apply plan_revisions_Ok in Hout as (_ & Hl & _). cbn [map flat_map] in Hl. apply Forall_inv in Hv as (_ & _ & _ & Hne & _).
  symmetry in Hl. by apply app_eq_nil in Hl as [? _].
Qed.

(** ** The tables *)

Definition plan_rows (s : PlanState) : gmap string Subjob := db_subjobs (cw_db s.2).

(** All tables of the job but the subjobs. *)
Definition same_job_tables (db db' : DB) : Prop :=
  db_jobs db' = db_jobs db /\ db_repos db' = db_repos db /\ db_manifests db' = db_manifests db /\ db_indexes db' = db_indexes db.

Lemma query_same {A} env (stmt : CoreWorld -> result gerror A) s s' r : query env stmt s = (s', r) ->
  cw_db s'.2 = cw_db s.2 /\ forall a, r = Ok a -> exists rest, stmt (with_rest rest s.2) = Ok a.
Proof.
  destruct s as [n w]. unfold query, do_call, stmt_call. destruct (ce_fault _ _); [by intros [= <- <-]|].
  destruct (stmt _) as [a|] eqn:E; cbn [rbind]; intros [= <- <-]; (split; [done|]); [|done].
  intros ? [= <-]. eauto.
Qed.

Lemma manifests_same env q revs s s' r : manifests_pending env q revs s = (s', r) ->
  cw_db s'.2 = cw_db s.2 /\
  (r = Ok tt -> Forall (fun rev => let v := default nil_revision rev in
     manifest_pending (cw_db s.2) (wq_IndexJobId q) (wq_OrgId q) (wq_RepoId q) (pr_WorkspaceId v) (pr_Branch v)
       (pr_CommitHash v) = true) revs).
Proof.
  revert s. induction revs as [|rev revs IH]; intros s; cbn [manifests_pending]; [by intros [= <- <-]|].
  destruct (query _ _ s) as [s1 [u|e]] eqn:E; apply query_same in E as [Hs Hq].
  - intros [Hs' Hf]%IH. split; [congruence|]. intros Hr. constructor.
    + destruct (Hq u eq_refl) as [rest H]. unfold manifest_row in H. by destruct (manifest_pending _ _ _ _ _ _ _).
    + rewrite <- Hs. by apply Hf.
  - by intros [= <- <-].
Qed.

Lemma upsert_tables fault now c db : same_job_tables db (UpsertQueued fault now now c db).1.
Proof.
  unfold UpsertQueued, upsertWithStatus. destruct (validate_create c); [|done]. cbn [orb]. cbn zeta.
  unfold exec. destruct fault; [done|]. unfold upsert_stmt. cbn zeta.
  destruct (_ && _); [|done]. destruct (_ !! _); [done|]. destruct (scope_key_taken _ _); [done|].
  destruct (negb _); done.
Qed.

#[export] Instance plan_store_laws env : WriterLaws PlanState (H := plan_store env) plan_rows.
Proof.
  split.
  - intros c [n w] s' r E id x Hx. unfold sw_UpsertQueued, plan_store in E.
    pose proof (SubjobFacts.upsert_keeps (ce_fault (env n) 0) (ce_now (env n)) (ce_now (env n)) c StatusQueued "" ""
      (cw_db w) id x Hx) as Hk. unfold UpsertQueued in E. cbn in E. destruct (upsertWithStatus _ _ _ _ _ _ _ _) as [db' r'].
    injection E as <- <-. exact Hk.
  - intros c [n w] s' E. unfold sw_UpsertQueued, plan_store in E. cbn in E.
    destruct (UpsertQueued _ _ _ c (cw_db w)) as [db' r'] eqn:Eu. injection E as <- ->. by apply UpsertQueued_Ok in Eu.
Qed.

Lemma persist_tables env cs s s' r : persist (H := plan_store env) cs s = (s', r) -> same_job_tables (cw_db s.2) (cw_db s'.2).
Proof.
  revert s. induction cs as [|c cs IH]; intros s; cbn [persist]; [by intros [= <- <-]|].
  destruct (sw_UpsertQueued c s) as [s1 x] eqn:E.
  assert (H1 : same_job_tables (cw_db s.2) (cw_db s1.2)).
  { destruct s as [n w]. unfold sw_UpsertQueued, plan_store in E. cbn in E.
    pose proof (upsert_tables (ce_fault (env n) 0) (ce_now (env n)) c (cw_db w)) as Ht.
    destruct (UpsertQueued _ _ _ c (cw_db w)). by injection E as <- <-. }
  destruct x; [|by intros [= <- <-]]. intros H2%IH. destruct H1 as (? & ? & ? & ?), H2 as (? & ? & ? & ?).
  split_and!; congruence.
Qed.

Lemma plan_tables env i s s' r : PlanAndPersist (H := plan_store env) true i s = (s', r) ->
  same_job_tables (cw_db s.2) (cw_db s'.2) /\ (forall e, r = Err e -> Build i = Err e -> s' = s).
Proof.
  unfold PlanAndPersist. cbn [negb]. destruct (Build i) as [cs|]; [|by intros [= <- <-]].
  destruct (persist cs s) as [s1 [u|e]] eqn:E; apply persist_tables in E; intros [= <- <-]; done.
Qed.

(** No error of the database is the planner's own. *)
Definition foreign_faults (env : nat -> CallEnv) : Prop :=
  forall i k e, ce_fault (env i) k = Some e -> err_is (err_text ErrInvalidPlan) e = false.

Lemma upsert_not_invalid_plan env c s s' e : foreign_faults env ->
  sw_UpsertQueued (SubjobWriter := plan_store env) c s = (s', Err e) -> err_is (err_text ErrInvalidPlan) e = false.
Proof.
  intros Hf. destruct s as [n w]. unfold sw_UpsertQueued, plan_store, UpsertQueued, upsertWithStatus. cbn zeta.
  destruct (validate_create c) as [ws|]; [|by intros [= <- <-]]. cbn [orb]. unfold exec.
  destruct (ce_fault (env n) 0) as [f|] eqn:E; [intros [= <- <-]; by apply Hf in E|].
  unfold upsert_stmt. cbn zeta. destruct (_ && _); [|by intros [= <- <-]].
  destruct (_ !! _); [destruct (conflict_matches _ _); by intros [= <- <-]|].
  destruct (scope_key_taken _ _); [by intros [= <- <-]|]. by destruct (negb _); intros [= <- <-].
Qed.

Lemma persist_not_invalid_plan env cs s s' e : foreign_faults env ->
  persist (H := plan_store env) cs s = (s', Err e) -> err_is (err_text ErrInvalidPlan) e = false.
Proof.
  intros Hf. revert s. induction cs as [|c cs IH]; intros s; cbn [persist]; [done|].
  destruct (sw_UpsertQueued c s) as [s1 [u|e']] eqn:E; [apply IH|]. intros [= <- <-]. by eapply upsert_not_invalid_plan.
Qed.

(** A refusal of the planner comes before anything is written. *)
Lemma plan_refused env i s s' e : foreign_faults env -> PlanAndPersist (H := plan_store env) true i s = (s', Err e) ->
  err_is (err_text ErrInvalidPlan) e = true -> s' = s.
Proof.
  intros Hf. unfold PlanAndPersist. cbn [negb]. destruct (Build i) as [cs|]; [|by intros [= <- <-]].
  destruct (persist cs s) as [s1 [u|e']] eqn:E; [done|]. intros [= <- <-]. apply persist_not_invalid_plan in E; [congruence|done].
Qed.

(** ** The contract *)

(** The job runs, is an INDEX job of the repository, and the repository belongs to
    the organisation. *)
Definition job_of_request (q : WriteIndexPlanRequest) (db : DB) : Prop :=
  exists j r, db_jobs db !! wq_IndexJobId q = Some j /\ db_repos db !! wq_RepoId q = Some r /\
    job_repoId j = wq_RepoId q /\ job_type j = INDEX /\ job_status j = IN_PROGRESS /\ repo_orgId r = wq_OrgId q.

Lemma scope_row_Ok q w ws : scope_row q w = Ok ws -> job_of_request q (cw_db w).
Proof.
  unfold scope_row. destruct (db_jobs _ !! _) as [j|] eqn:Ej; [|done]. destruct (db_repos _ !! _) as [r|] eqn:Er; [|done].
  destruct (_ && _) eqn:E; [|done]. intros _. apply andb_true_iff in E as [[[E1 E2]%andb_true_iff E3]%andb_true_iff E4].
  exists j, r. apply bool_decide_eq_true in E3, E4. split_and!; try done; lia.
Qed.

Lemma layers_length i core revs out : plan_revisions i core (map to_revision revs) = Ok out ->
  (length out <= 3 * length revs + length (flat_map (fun rev => pr_ScipProjects (default nil_revision rev)) revs))%nat.
Proof.
  intros (_ & Hl & _)%plan_revisions_Ok. apply (f_equal length) in Hl. rewrite length_map in Hl. rewrite Hl. clear.
  induction revs as [|rev revs IH]; [done|]. cbn [map flat_map]. rewrite !length_app. unfold rev_layers at 1.
  rewrite !length_app, length_map. cbn [to_revision rv_RunZoekt rv_RunASTTreeSitter rv_RunGraphMerge rv_RunActivate rv_SCIPProjects].
  rewrite length_map. cbn [length]. set (n := length (pr_ScipProjects _)) in *.
  destruct (pr_RunAstTreeSitter _), (pr_RunGraphMerge _), (pr_RunActivate _); cbn [length]; lia.
Qed.

(** What a plan that was accepted leaves. *)
Definition plan_written (q : WriteIndexPlanRequest) (s s' : PlanState) (resp : WriteIndexPlanResponse) : Prop :=
  exists ws out, job_of_request q (cw_db s.2) /\
    Forall (fun rev => exists v, rev = Some v /\ pr_WorkspaceId v = ws /\
      manifest_pending (cw_db s.2) (wq_IndexJobId q) (wq_OrgId q) (wq_RepoId q) ws (pr_Branch v) (pr_CommitHash v) = true)
      (wq_Revisions q) /\
    Build (toPlannerInput q) = Ok out /\ Forall (planned_in (plan_rows s')) out /\
    map ci_Layer out = flat_map rev_layers (map to_revision (wq_Revisions q)) /\
    Forall (fun c => exists rev, rev ∈ map to_revision (wq_Revisions q) /\ in_scope (toPlannerInput q) rev c) out /\
    ws_RevisionCount resp = Z.of_nat (length (wq_Revisions q)) /\ ws_SubjobCount resp = Z.of_nat (length out) /\
    ws_SubjobCount resp <= 2432.

Lemma scoped_contract env order q ws s s' r : foreign_faults env -> validateRequest order (Some q) = None ->
  job_of_request q (cw_db s.2) -> write_scoped env q ws s = (s', r) ->
  (forall id x, plan_rows s !! id = Some x -> plan_rows s' !! id = Some x) /\ same_job_tables (cw_db s.2) (cw_db s'.2) /\
  match r with
  | Ok resp => plan_written q s s' resp
  | Err st => gs_code st <> Internal -> cw_db s'.2 = cw_db s.2
  end.
Proof.
  intros Hf Hv Hj. unfold write_scoped. destruct (List.find _ _) as [rev|] eqn:Efind; [by intros [= <- <-]|].
  unfold validateRevisionManifests. destruct (manifests_pending env q _ s) as [s1 m] eqn:Em.
  apply manifests_same in Em as [Hs1 Hm]. destruct m as [[]|e]; cycle 1.
  { destruct (err_is _ e); intros [= <- <-]; (split_and!; [unfold plan_rows; by rewrite Hs1|by rewrite Hs1|by rewrite Hs1]). }
  specialize (Hm eq_refl). destruct (PlanAndPersist _ _ s1) as [s2 o] eqn:Ep.
  pose proof (plan_tables _ _ _ _ _ Ep) as [Ht _]. pose proof (PlanAndPersist_rows plan_rows _ _ _ _ Ep) as [Hk Hb].
  unfold plan_rows in Hk at 1. rewrite Hs1 in Hk, Ht. destruct o as [out|e].
  - intros [= <- <-]. split; [exact Hk|]. split; [exact Ht|]. destruct (Hb out eq_refl) as [Hbuild Hrows].
    apply validateRequest_None in Hv as (_ & _ & _ & _ & Hn1 & Hn2 & Hrevs).
    pose proof Hbuild as Hb2. apply Build_plan in Hb2 as (_ & Hlay & Hsc & _).
    pose proof Hbuild as (_ & _ & _ & _ & core & _ & Hpr)%Build_Ok. apply layers_length in Hpr.
    fold (projects_of q) in Hpr. unfold maxRevisions, maxSCIPProjects in *.
    exists ws, out. split; [done|]. split; [|split_and!; try done; cbn; rewrite ?wrap32_id; lia].
    apply Forall_forall. intros rev Hin. rewrite Forall_forall in Hm, Hrevs.
    destruct (Hrevs rev Hin) as ([v ->] & _). exists v. split; [done|]. specialize (Hm _ Hin). cbn in Hm.
    apply list_elem_of_In in Hin. pose proof (find_none _ _ Efind _ Hin) as Hw. unfold foreign_workspace in Hw. cbn in Hw.
    apply negb_false_iff, str_eqb_spec in Hw. by rewrite <- Hw.
  - destruct (err_is _ e) eqn:Ee; intros [= <- <-]; (split; [exact Hk|split; [exact Ht|]]); [|done].
    apply plan_refused in Ep; [|done|done]. intros _. by rewrite Ep.
Qed.

