(* ===== verification/CodeHosts.v ===== *)
(** The code hosts of the connection-sync worker, src/internal/backend/connectionmanager:
    the records of repositories (types.go), what the types of connection share, and
    the configuration, the filter, the fetching and the compilation of records
    for GitHub (compile.go, github_filter.go, github_orchestrator.go).  OtherHosts has
    the other types.

    What a host answers is a parameter; so are net/url and the library of globs. *)
From Stdlib Require Import Ascii.
From S2P Require Import Prelude GoStd GoStdFacts GoJSON GoText SubjobTypes SubjobStore SubjobCodec Scheduler.
From S2P Require Import RepoIndexDB RepoTask CoreDB Disk CodeGraphWriter.
(** net/url: a parsed URL, its fields and its text. *)
Class NetURL : Type := {
  URL : Type;
  url_Parse : string -> result gerror URL;
  url_Scheme : URL -> string;
  url_Host : URL -> string;
  url_Path : URL -> string;
  url_String : URL -> string;
  with_Scheme : string -> URL -> URL;
  with_Host : string -> URL -> URL;
  PathEscape : string -> string;
  PathUnescape : string -> result gerror string
}.

(** github.com/gobwas/glob: [glob.Compile], a matcher or an error. *)
Class Globs : Type := glob_Compile : string -> option (string -> bool).

(** ** Records of repositories *)

Definition SingleTenantOrgID : Z := 1.

Record OctokitOwner : Type := { ow_AvatarURL : string; ow_Login : string }.

Record OctokitRepository : Type := {
  or_Name : string; or_ID : Z; or_FullName : string; or_Fork : bool; or_Private : bool; or_HTMLURL : string;
  or_CloneURL : option string; or_StargazersCount : option Z; or_WatchersCount : option Z;
  or_SubscribersCount : option Z; or_DefaultBranch : option string; or_ForksCount : option Z;
  or_Archived : option bool; or_Topics : list string; or_Size : option Z; or_Owner : OctokitOwner
}.

Record GitHubCompileInput : Type := { gc_HostURL : string; gc_Branches : list string; gc_Tags : list string }.

(** [CodeHostMetadata]: one member is set. *)
Inductive CodeHostMetadata : Type :=
| BitbucketCloudMetadata (workspace repoSlug : string)
| BitbucketServerMetadata (projectKey repoSlug : string)
| GitLabMetadata (topics : list string)
| GitHubMetadata (topics : list string).

Record RepoMetadata : Type := {
  md_GitConfig : list (string * string); md_Branches : list string; md_Tags : list string;
  md_IndexedRevisions : list string; md_ManualIndexDisabled : option bool;
  md_CodeHostMetadata : option CodeHostMetadata
}.

Record RepoData : Type := {
  rd_ExternalID : string; rd_ExternalCodeHostType : string; rd_ExternalCodeHostURL : string;
  rd_CloneURL : string; rd_WebURL : string; rd_Name : string; rd_DisplayName : string; rd_ImageURL : string;
  rd_DefaultBranch : option string; rd_IsFork : bool; rd_IsArchived : bool; rd_IsPublic : bool;
  rd_IsAutoCleanupDisabled : option bool; rd_OrgID : Z; rd_Metadata : RepoMetadata;
  rd_ConnectionIDs : list Z
}.

(** [json.Marshal] of the metadata, as the jsonb value it is stored as. *)
Definition strings_json (l : list string) : json := JArr (map JStr l).

Definition omit_empty {A} (key : string) (encode : list A -> json) (l : list A) : list (string * json) :=
  match l with [] => [] | _ => [(key, encode l)] end.

Definition host_json (h : CodeHostMetadata) : json :=
  match h with
  | BitbucketCloudMetadata ws slug => JObj [("bitbucketCloud", JObj [("workspace", JStr ws); ("repoSlug", JStr slug)])]
  | BitbucketServerMetadata key slug => JObj [("bitbucketServer", JObj [("projectKey", JStr key); ("repoSlug", JStr slug)])]
  | GitLabMetadata topics => JObj [("gitlab", JObj [("topics", strings_json topics)])]
  | GitHubMetadata topics => JObj [("github", JObj [("topics", strings_json topics)])]
  end.

Definition metadata_json (m : RepoMetadata) : json :=
  JObj (omit_empty "gitConfig" (fun l => JObj (map (fun kv => (kv.1, JStr kv.2)) l)) (md_GitConfig m)
        ++ omit_empty "branches" strings_json (md_Branches m) ++ omit_empty "tags" strings_json (md_Tags m)
        ++ omit_empty "indexedRevisions" strings_json (md_IndexedRevisions m)
        ++ match md_ManualIndexDisabled m with Some b => [("manualIndexDisabled", JBool b)] | None => [] end
        ++ match md_CodeHostMetadata m with Some h => [("codeHostMetadata", host_json h)] | None => [] end).

(** ** GitHub: compilation *)

Definition truePtr (b : option bool) : bool := default false b.
Definition marshalBoolValue (b : bool) : string := if b then "1" else "0".
Definition marshalBool (b : option bool) : string := marshalBoolValue (truePtr b).
Definition ptrIntOrZero (p : option Z) : Z := default 0 p.
Definition ptrBoolOrFalse (p : option bool) : bool := default false p.
Definition stripTrailingSlashes (s : string) : string := TrimRightRunes ["/"] s.

Definition stripHTTPScheme (s : string) : string :=
  let lower := ToLower s in
  if HasPrefix lower "https://" then str_drop 8 s
  else if HasPrefix lower "http://" then str_drop 7 s
  else s.

Section Hosts.
Context {U : NetURL} {G : Globs}.

Definition canonicalURLString (raw : string) : string :=
  match url_Parse raw with
  | Ok u => if url_Scheme u =s "" then raw else url_String u
  | Err _ => raw
  end.

Record CreateGitHubRepoRecordInput : Type := {
  cg_Repo : OctokitRepository; cg_HostURL : string; cg_Branches : list string; cg_Tags : list string;
  cg_IsAutoCleanupDisabled : option bool; cg_OrgID : Z
}.

Definition git_config (r : OctokitRepository) (repoName : string) : list (string * string) :=
  [("zoekt.archived", marshalBool (or_Archived r)); ("zoekt.display-name", or_FullName r);
   ("zoekt.fork", marshalBoolValue (or_Fork r)); ("zoekt.github-forks", Itoa (ptrIntOrZero (or_ForksCount r)));
   ("zoekt.github-stars", Itoa (ptrIntOrZero (or_StargazersCount r)));
   ("zoekt.github-subscribers", Itoa (ptrIntOrZero (or_SubscribersCount r)));
   ("zoekt.github-watchers", Itoa (ptrIntOrZero (or_WatchersCount r))); ("zoekt.name", repoName);
   ("zoekt.public", marshalBoolValue (negb (or_Private r))); ("zoekt.web-url", or_HTMLURL r);
   ("zoekt.web-url-type", "github")].

Definition CreateGitHubRepoRecord (i : CreateGitHubRepoRecordInput) : RepoData :=
  let r := cg_Repo i in
  let repoName := FilepathJoin [stripHTTPScheme (canonicalURLString (cg_HostURL i)); or_FullName r] in
  {| rd_ExternalID := Itoa (or_ID r); rd_ExternalCodeHostType := "github"; rd_ExternalCodeHostURL := cg_HostURL i;
     rd_CloneURL := match or_CloneURL r with Some u => canonicalURLString u | None => "" end;
     rd_WebURL := or_HTMLURL r; rd_Name := repoName; rd_DisplayName := or_FullName r;
     rd_ImageURL := ow_AvatarURL (or_Owner r); rd_DefaultBranch := or_DefaultBranch r; rd_IsFork := or_Fork r;
     rd_IsArchived := truePtr (or_Archived r); rd_IsPublic := negb (or_Private r);
     rd_IsAutoCleanupDisabled := cg_IsAutoCleanupDisabled i;
     rd_OrgID := if cg_OrgID i =? 0 then SingleTenantOrgID else cg_OrgID i;
     rd_Metadata := {| md_GitConfig := git_config r repoName; md_Branches := cg_Branches i; md_Tags := cg_Tags i;
                       md_IndexedRevisions := []; md_ManualIndexDisabled := None;
                       md_CodeHostMetadata := Some (GitHubMetadata (or_Topics r)) |};
     rd_ConnectionIDs := [] |}.

Definition with_connection (connectionID : Z) (d : RepoData) : RepoData :=
  let '(Build_RepoData ei et eu cl we na di im db fo ar pu au og me _) := d in
  Build_RepoData ei et eu cl we na di im db fo ar pu au og me [connectionID].

Definition CompileGitHubConfig (repos : list OctokitRepository) (i : GitHubCompileInput) (connectionID : Z) : list RepoData :=
  let hostURL0 := stripTrailingSlashes (gc_HostURL i) in
  let hostURL := if hostURL0 =s "" then "https://github.com" else hostURL0 in
  map (fun r => with_connection connectionID (CreateGitHubRepoRecord
         {| cg_Repo := r; cg_HostURL := hostURL; cg_Branches := gc_Branches i; cg_Tags := gc_Tags i;
            cg_IsAutoCleanupDisabled := None; cg_OrgID := 0 |})) repos.

(** ** GitHub: filter *)

Record GitHubSize : Type := { gz_Min : option Z; gz_Max : option Z }.

Record GitHubExcludeRules : Type := {
  ge_Forks : option bool; ge_Archived : option bool; ge_Repos : list string; ge_Topics : list string;
  ge_Size : option GitHubSize
}.

Definition fold_case (caseFold : bool) (s : string) : string := if caseFold then ToLower s else s.

(** A pattern that does not compile is compared as it is. *)
Definition matchAny (subject : string) (patterns : list string) (caseFold : bool) : bool :=
  let subj := fold_case caseFold subject in
  existsb (fun p =>
    let pat := fold_case caseFold p in
    match glob_Compile pat with Some g => g subj | None => subj =s pat end) patterns.

Definition wrap64 (z : Z) : Z := (z + 2 ^ 63) mod 2 ^ 64 - 2 ^ 63.

Definition out_of_bounds (size : GitHubSize) (bytes : Z) : bool :=
  match gz_Min size with Some m => bytes <? m | None => false end
  || match gz_Max size with Some m => m <? bytes | None => false end.

(** [include] is nil or its topics. *)
Definition ShouldExcludeRepo (repo : OctokitRepository) (include : option (list string))
    (exclude : option GitHubExcludeRules) : bool :=
  if default "" (or_CloneURL repo) =s "" then true
  else if match exclude with Some e => truePtr (ge_Forks e) && or_Fork repo | None => false end then true
  else if match exclude with Some e => truePtr (ge_Archived e) && truePtr (or_Archived repo) | None => false end then true
  else if match exclude with
          | Some e => (0 <? length (ge_Repos e))%nat && matchAny (or_FullName repo) (ge_Repos e) false
          | None => false
          end then true
  else if match exclude with
          | Some e => (0 <? length (ge_Topics e))%nat && existsb (fun t => matchAny t (ge_Topics e) true) (or_Topics repo)
          | None => false
          end then true
  else if match include with
          | Some topics => (0 <? length topics)%nat && negb (existsb (fun t => matchAny t topics true) (or_Topics repo))
          | None => false
          end then true
  else match exclude with
       | Some e => match ge_Size e, or_Size repo with
                   | Some size, Some kb => out_of_bounds size (wrap64 (kb * 1000))
                   | _, _ => false
                   end
       | None => false
       end.

(** ** GitHub: configuration *)

Record GitHubRevisions : Type := { gr_Branches : list string; gr_Tags : list string }.

Record GitHubConnectionConfig : Type := {
  gh_URL : string; gh_Token : string; gh_Orgs : list string; gh_Topics : list string;
  gh_Exclude : option GitHubExcludeRules; gh_Revisions : option GitHubRevisions
}.

Definition as_bool (old : bool) (j : json) : option bool :=
  match j with JBool b => Some b | JNull => Some old | _ => None end.

Definition as_strings : list string -> json -> option (list string) := CodeGraphWriter.as_slice "" as_string.

Definition set_size_field (s : GitHubSize) (key : string) (j : json) : option GitHubSize :=
  if key_matches "min" key then (fun v => {| gz_Min := v; gz_Max := gz_Max s |}) <$> CodeGraphWriter.as_pointer 0 as_int64 (gz_Min s) j
  else if key_matches "max" key then (fun v => {| gz_Min := gz_Min s; gz_Max := v |}) <$> CodeGraphWriter.as_pointer 0 as_int64 (gz_Max s) j
  else Some s.

Definition set_exclude_field (e : GitHubExcludeRules) (key : string) (j : json) : option GitHubExcludeRules :=
  let '(Build_GitHubExcludeRules fo ar re tp sz) := e in
  if key_matches "forks" key then (fun v => Build_GitHubExcludeRules v ar re tp sz) <$> CodeGraphWriter.as_pointer false as_bool fo j
  else if key_matches "archived" key then (fun v => Build_GitHubExcludeRules fo v re tp sz) <$> CodeGraphWriter.as_pointer false as_bool ar j
  else if key_matches "repos" key then (fun v => Build_GitHubExcludeRules fo ar v tp sz) <$> as_strings re j
  else if key_matches "topics" key then (fun v => Build_GitHubExcludeRules fo ar re v sz) <$> as_strings tp j
  else if key_matches "size" key then
    (fun v => Build_GitHubExcludeRules fo ar re tp v)
    <$> CodeGraphWriter.as_pointer {| gz_Min := None; gz_Max := None |} (as_struct set_size_field) sz j
  else Some e.

Definition set_revisions_field (r : GitHubRevisions) (key : string) (j : json) : option GitHubRevisions :=
  if key_matches "branches" key then (fun v => {| gr_Branches := v; gr_Tags := gr_Tags r |}) <$> as_strings (gr_Branches r) j
  else if key_matches "tags" key then (fun v => {| gr_Branches := gr_Branches r; gr_Tags := v |}) <$> as_strings (gr_Tags r) j
  else Some r.

Definition zero_exclude : GitHubExcludeRules :=
  {| ge_Forks := None; ge_Archived := None; ge_Repos := []; ge_Topics := []; ge_Size := None |}.

Definition zero_github_config : GitHubConnectionConfig :=
  {| gh_URL := ""; gh_Token := ""; gh_Orgs := []; gh_Topics := []; gh_Exclude := None; gh_Revisions := None |}.

Definition set_github_field (c : GitHubConnectionConfig) (key : string) (j : json) : option GitHubConnectionConfig :=
  let '(Build_GitHubConnectionConfig ur tk og tp ex rv) := c in
  if key_matches "url" key then (fun v => Build_GitHubConnectionConfig v tk og tp ex rv) <$> as_string ur j
  else if key_matches "token" key then (fun v => Build_GitHubConnectionConfig ur v og tp ex rv) <$> as_string tk j
  else if key_matches "orgs" key then (fun v => Build_GitHubConnectionConfig ur tk v tp ex rv) <$> as_strings og j
  else if key_matches "topics" key then (fun v => Build_GitHubConnectionConfig ur tk og v ex rv) <$> as_strings tp j
  else if key_matches "exclude" key then
    (fun v => Build_GitHubConnectionConfig ur tk og tp v rv)
    <$> CodeGraphWriter.as_pointer zero_exclude (as_struct set_exclude_field) ex j
  else if key_matches "revisions" key then
    (fun v => Build_GitHubConnectionConfig ur tk og tp ex v)
    <$> CodeGraphWriter.as_pointer {| gr_Branches := []; gr_Tags := [] |} (as_struct set_revisions_field) rv j
  else Some c.

(** ** Fetching *)

(** What a listing of repositories returns: the repositories, or the text of a
    [FetchWarning]. *)
Definition Listing (R : Type) : Type := result gerror (list R + string).

(** The loop over the organisations, groups, workspaces or projects of a
    configuration, with the name of the function it calls. *)
Fixpoint fetch_each {R} (function : string) (fetch : string -> Listing R) (keys : list string)
    (repos : list R) (warnings : list string) : result gerror (list R * list string) :=
  match keys with
  | [] => Ok (repos, warnings)
  | key :: rest =>
      match fetch key with
      | Err e => Err (EWrap (function +:+ " " +:+ quoted key +:+ ": ") e "")
      | Ok (inr warn) => fetch_each function fetch rest repos (warnings ++ [warn])
      | Ok (inl found) => fetch_each function fetch rest (repos ++ found) warnings
      end
  end.

(** The branches and the tags of a configuration. *)
Definition compile_input (hostURL : string) (revisions : option GitHubRevisions) : GitHubCompileInput :=
  match revisions with
  | Some r => {| gc_HostURL := hostURL; gc_Branches := gr_Branches r; gc_Tags := gr_Tags r |}
  | None => {| gc_HostURL := hostURL; gc_Branches := []; gc_Tags := [] |}
  end.

Definition resolve_host (url default_url : string) : string :=
  if url =s "" then default_url else stripTrailingSlashes url.

Section GitHubFetch.
(** [buildGitHubClient], when it fails, and [FetchReposForOrg], for the address and the
    token of the client. *)
Context (buildGitHubClient : string -> string -> option gerror).
Context (FetchReposForOrg : string -> string -> string -> Listing OctokitRepository).

Definition GetGitHubReposFromConfig (cfg : GitHubConnectionConfig) : result gerror (list OctokitRepository * list string) :=
  match buildGitHubClient (gh_URL cfg) (gh_Token cfg) with
  | Some e => Err (EWrap "buildGitHubClient: " e "")
  | None =>
      let? fetched := fetch_each "FetchReposForOrg" (FetchReposForOrg (gh_URL cfg) (gh_Token cfg)) (gh_Orgs cfg) [] [] in
      Ok (List.filter (fun r => negb (ShouldExcludeRepo r (Some (gh_Topics cfg)) (gh_Exclude cfg))) fetched.1, fetched.2)
  end.

Definition ResolveHostURL (cfg : GitHubConnectionConfig) : string := resolve_host (gh_URL cfg) "https://github.com".

Definition CompileFromConfig (cfg : GitHubConnectionConfig) (connectionID : Z) : result gerror (list RepoData * list string) :=
  let? fetched := GetGitHubReposFromConfig cfg in
  Ok (CompileGitHubConfig fetched.1 (compile_input (ResolveHostURL cfg) (gh_Revisions cfg)) connectionID, fetched.2).
End GitHubFetch.
End Hosts.
