(* ===== verification/OtherHosts.v ===== *)
(** The other types of connection of src/internal/backend/connectionmanager: GitLab,
    Gitea, Bitbucket Cloud and Server, Gerrit, Azure DevOps and generic git; and the
    dispatch on the type.  What the hosts answer is a [HostAPIs]. *)
From Stdlib Require Import Ascii.
From S2P Require Import Prelude GoStd GoStdFacts GoJSON GoText SubjobTypes SubjobStore SubjobCodec Scheduler.
From S2P Require Import RepoIndexDB RepoTask CoreDB Disk CodeGraphWriter CodeHosts.
Definition as_revisions : option GitHubRevisions -> json -> option (option GitHubRevisions) :=
  CodeGraphWriter.as_pointer {| gr_Branches := []; gr_Tags := [] |} (as_struct set_revisions_field).

(** The metadata of a record. *)
Definition host_metadata (gitConfig : list (string * string)) (i : GitHubCompileInput)
    (host : option CodeHostMetadata) : RepoMetadata :=
  {| md_GitConfig := gitConfig; md_Branches := gc_Branches i; md_Tags := gc_Tags i; md_IndexedRevisions := [];
     md_ManualIndexDisabled := None; md_CodeHostMetadata := host |}.

(** The seven keys that the hosts without counters have, in the order of the encoding. *)
Definition plain_git_config (archived fork public : bool) (displayName name webURL webURLType : string)
  : list (string * string) :=
  [("zoekt.archived", marshalBoolValue archived); ("zoekt.display-name", displayName);
   ("zoekt.fork", marshalBoolValue fork); ("zoekt.name", name); ("zoekt.public", marshalBoolValue public);
   ("zoekt.web-url", webURL); ("zoekt.web-url-type", webURLType)].

(** Compile each repository; one that has an error is a warning. *)
Fixpoint compile_each {R} (create : R -> result gerror RepoData) (skipped : R -> gerror -> string) (connectionID : Z)
    (repos : list R) : list RepoData * list string :=
  match repos with
  | [] => ([], [])
  | r :: rest =>
      let '(records, warnings) := compile_each create skipped connectionID rest in
      match create r with
      | Ok d => (with_connection connectionID d :: records, warnings)
      | Err e => (records, skipped r e :: warnings)
      end
  end.

Definition org_or_default (orgID : Z) : Z := if orgID =? 0 then SingleTenantOrgID else orgID.

Section Hosts.
Context {U : NetURL} {G : Globs}.

(** [path.Join(stripHTTPScheme(canonicalURLString(hostURL)), displayName)] *)
Definition host_repo_name (hostURL displayName : string) : string :=
  FilepathJoin [stripHTTPScheme (canonicalURLString hostURL); displayName].

(** ** GitLab *)

Record GitLabProject : Type := {
  gl_ID : Z; gl_Name : string; gl_PathWithNamespace : string; gl_HTTPURLToRepo : string;
  gl_DefaultBranch : option string; gl_Visibility : string; gl_Archived : option bool; gl_Topics : list string;
  gl_StargazersCount : option Z; gl_ForksCount : option Z; gl_AvatarURL : option string;
  gl_ForkedFromProject : bool
}.

Record GitLabExcludeRules : Type := {
  gle_Forks : option bool; gle_Archived : option bool; gle_Projects : list string; gle_Topics : list string;
  gle_Size : option GitHubSize
}.

Record GitLabConnectionConfig : Type := {
  glc_URL : string; glc_Token : string; glc_Groups : list string; glc_Projects : list string;
  glc_Users : list string; glc_Topics : list string; glc_Exclude : option GitLabExcludeRules;
  glc_Revisions : option GitHubRevisions
}.

Definition set_gitlab_exclude_field (e : GitLabExcludeRules) (key : string) (j : json) : option GitLabExcludeRules :=
  let '(Build_GitLabExcludeRules fo ar pr tp sz) := e in
  if key_matches "forks" key then (fun v => Build_GitLabExcludeRules v ar pr tp sz) <$> CodeGraphWriter.as_pointer false as_bool fo j
  else if key_matches "archived" key then (fun v => Build_GitLabExcludeRules fo v pr tp sz) <$> CodeGraphWriter.as_pointer false as_bool ar j
  else if key_matches "projects" key then (fun v => Build_GitLabExcludeRules fo ar v tp sz) <$> as_strings pr j
  else if key_matches "topics" key then (fun v => Build_GitLabExcludeRules fo ar pr v sz) <$> as_strings tp j
  else if key_matches "size" key then
    (fun v => Build_GitLabExcludeRules fo ar pr tp v)
    <$> CodeGraphWriter.as_pointer {| gz_Min := None; gz_Max := None |} (as_struct set_size_field) sz j
  else Some e.

Definition zero_gitlab_exclude : GitLabExcludeRules :=
  {| gle_Forks := None; gle_Archived := None; gle_Projects := []; gle_Topics := []; gle_Size := None |}.

Definition zero_gitlab_config : GitLabConnectionConfig :=
  {| glc_URL := ""; glc_Token := ""; glc_Groups := []; glc_Projects := []; glc_Users := []; glc_Topics := [];
     glc_Exclude := None; glc_Revisions := None |}.

Definition set_gitlab_field (c : GitLabConnectionConfig) (key : string) (j : json) : option GitLabConnectionConfig :=
  let '(Build_GitLabConnectionConfig ur tk gr pr us tp ex rv) := c in
  if key_matches "url" key then (fun v => Build_GitLabConnectionConfig v tk gr pr us tp ex rv) <$> as_string ur j
  else if key_matches "token" key then (fun v => Build_GitLabConnectionConfig ur v gr pr us tp ex rv) <$> as_string tk j
  else if key_matches "groups" key then (fun v => Build_GitLabConnectionConfig ur tk v pr us tp ex rv) <$> as_strings gr j
  else if key_matches "projects" key then (fun v => Build_GitLabConnectionConfig ur tk gr v us tp ex rv) <$> as_strings pr j
  else if key_matches "users" key then (fun v => Build_GitLabConnectionConfig ur tk gr pr v tp ex rv) <$> as_strings us j
  else if key_matches "topics" key then (fun v => Build_GitLabConnectionConfig ur tk gr pr us v ex rv) <$> as_strings tp j
  else if key_matches "exclude" key then
    (fun v => Build_GitLabConnectionConfig ur tk gr pr us tp v rv)
    <$> CodeGraphWriter.as_pointer zero_gitlab_exclude (as_struct set_gitlab_exclude_field) ex j
  else if key_matches "revisions" key then
    (fun v => Build_GitLabConnectionConfig ur tk gr pr us tp ex v) <$> as_revisions rv j
  else Some c.

Definition overlayProtocolFromHost (cloneRaw hostRaw : string) : string :=
  match url_Parse cloneRaw with
  | Err _ => cloneRaw
  | Ok clone =>
      if url_Scheme clone =s "" then cloneRaw
      else match url_Parse hostRaw with
           | Err _ => url_String clone
           | Ok host => if url_Scheme host =s "" then url_String clone else url_String (with_Scheme (url_Scheme host) clone)
           end
  end.

(** The input of a [Create...RepoRecord] is the repository, the host with the branches
    and the tags, and the organisation. *)
Definition CreateGitLabRepoRecord (p : GitLabProject) (i : GitHubCompileInput) (orgID : Z) : RepoData :=
  let hostURL := gc_HostURL i in
  let projectURL := stripTrailingSlashes hostURL +:+ "/" +:+ gl_PathWithNamespace p in
  let displayName := gl_PathWithNamespace p in
  let name := host_repo_name hostURL displayName in
  let isFork := gl_ForkedFromProject p in
  let isPublic := (gl_Visibility p =s "public") || (gl_Visibility p =s "internal") in
  let avatarURL := if default "" (gl_AvatarURL p) =s "" then ""
                   else stripTrailingSlashes hostURL +:+ "/api/v4/projects/" +:+ Itoa (gl_ID p) +:+ "/avatar" in
  {| rd_ExternalID := Itoa (gl_ID p); rd_ExternalCodeHostType := "gitlab"; rd_ExternalCodeHostURL := hostURL;
     rd_CloneURL := overlayProtocolFromHost (gl_HTTPURLToRepo p) hostURL; rd_WebURL := projectURL; rd_Name := name;
     rd_DisplayName := displayName; rd_ImageURL := avatarURL; rd_DefaultBranch := gl_DefaultBranch p;
     rd_IsFork := isFork; rd_IsArchived := truePtr (gl_Archived p); rd_IsPublic := isPublic;
     rd_IsAutoCleanupDisabled := None; rd_OrgID := org_or_default orgID;
     rd_Metadata := host_metadata
       [("zoekt.archived", marshalBool (gl_Archived p)); ("zoekt.display-name", displayName);
        ("zoekt.fork", marshalBoolValue isFork); ("zoekt.gitlab-forks", Itoa (ptrIntOrZero (gl_ForksCount p)));
        ("zoekt.gitlab-stars", Itoa (ptrIntOrZero (gl_StargazersCount p))); ("zoekt.name", name);
        ("zoekt.public", marshalBoolValue isPublic); ("zoekt.web-url", projectURL); ("zoekt.web-url-type", "gitlab")]
       i (Some (GitLabMetadata (gl_Topics p)));
     rd_ConnectionIDs := [] |}.

(** The input with the host that a compile loop uses. *)
Definition at_host (default_url : string) (i : GitHubCompileInput) : GitHubCompileInput :=
  let hostURL := stripTrailingSlashes (gc_HostURL i) in
  {| gc_HostURL := if hostURL =s "" then default_url else hostURL; gc_Branches := gc_Branches i; gc_Tags := gc_Tags i |}.

Definition CompileGitLabConfig (projects : list GitLabProject) (i : GitHubCompileInput) (connectionID : Z) : list RepoData :=
  map (fun p => with_connection connectionID (CreateGitLabRepoRecord p (at_host "https://gitlab.com" i) 0)) projects.

(** ** Gitea *)

(** [gt_Owner]: the avatar of the owner, when there is one. *)
Record GiteaRepo : Type := {
  gt_ID : Z; gt_Name : string; gt_FullName : string; gt_Fork : bool; gt_Private : bool; gt_Internal : bool;
  gt_HTMLURL : string; gt_CloneURL : option string; gt_DefaultBranch : option string; gt_Archived : option bool;
  gt_Owner : option string
}.

Record GiteaConnectionConfig : Type := {
  gtc_URL : string; gtc_Token : string; gtc_Orgs : list string; gtc_Repos : list string; gtc_Users : list string;
  gtc_Revisions : option GitHubRevisions
}.

Definition zero_gitea_config : GiteaConnectionConfig :=
  {| gtc_URL := ""; gtc_Token := ""; gtc_Orgs := []; gtc_Repos := []; gtc_Users := []; gtc_Revisions := None |}.

Definition set_gitea_field (c : GiteaConnectionConfig) (key : string) (j : json) : option GiteaConnectionConfig :=
  let '(Build_GiteaConnectionConfig ur tk og rp us rv) := c in
  if key_matches "url" key then (fun v => Build_GiteaConnectionConfig v tk og rp us rv) <$> as_string ur j
  else if key_matches "token" key then (fun v => Build_GiteaConnectionConfig ur v og rp us rv) <$> as_string tk j
  else if key_matches "orgs" key then (fun v => Build_GiteaConnectionConfig ur tk v rp us rv) <$> as_strings og j
  else if key_matches "repos" key then (fun v => Build_GiteaConnectionConfig ur tk og v us rv) <$> as_strings rp j
  else if key_matches "users" key then (fun v => Build_GiteaConnectionConfig ur tk og rp v rv) <$> as_strings us j
  else if key_matches "revisions" key then
    (fun v => Build_GiteaConnectionConfig ur tk og rp us v) <$> as_revisions rv j
  else Some c.

Definition overlayHostFromHost (cloneRaw hostRaw : string) : string :=
  match url_Parse cloneRaw with
  | Err _ => cloneRaw
  | Ok clone =>
      if url_Scheme clone =s "" then cloneRaw
      else match url_Parse hostRaw with
           | Err _ => url_String clone
           | Ok host => if url_Host host =s "" then url_String clone else url_String (with_Host (url_Host host) clone)
           end
  end.

Definition CreateGiteaRepoRecord (r : GiteaRepo) (i : GitHubCompileInput) (orgID : Z) : RepoData :=
  let name := host_repo_name (gc_HostURL i) (gt_FullName r) in
  let isPublic := negb (gt_Internal r) && negb (gt_Private r) in
  {| rd_ExternalID := Itoa (gt_ID r); rd_ExternalCodeHostType := "gitea"; rd_ExternalCodeHostURL := gc_HostURL i;
     rd_CloneURL := match gt_CloneURL r with Some u => overlayHostFromHost u (gc_HostURL i) | None => "" end;
     rd_WebURL := gt_HTMLURL r; rd_Name := name; rd_DisplayName := gt_FullName r;
     rd_ImageURL := default "" (gt_Owner r); rd_DefaultBranch := gt_DefaultBranch r; rd_IsFork := gt_Fork r;
     rd_IsArchived := truePtr (gt_Archived r); rd_IsPublic := isPublic; rd_IsAutoCleanupDisabled := None;
     rd_OrgID := org_or_default orgID;
     rd_Metadata := host_metadata (plain_git_config (truePtr (gt_Archived r)) (gt_Fork r) isPublic (gt_FullName r) name
                                     (gt_HTMLURL r) "gitea") i None;
     rd_ConnectionIDs := [] |}.

Definition CompileGiteaConfig (repos : list GiteaRepo) (i : GitHubCompileInput) (connectionID : Z) : list RepoData :=
  map (fun r => with_connection connectionID (CreateGiteaRepoRecord r (at_host "https://gitea.com" i) 0)) repos.

(** ** Bitbucket *)

(** [bc_Links]: the links, with the address of the "html" one. *)
Record BitbucketCloudRepo : Type := {
  bc_UUID : string; bc_Name : string; bc_FullName : string; bc_IsPrivate : bool; bc_Parent : bool;
  bc_Project : option string; bc_Mainbranch : option string; bc_Links : option (option string)
}.

Record BitbucketServerLink : Type := { sl_Href : string; sl_Name : string }.

Record BitbucketServerLinks : Type := { sk_Clone : list BitbucketServerLink; sk_Self : list BitbucketServerLink }.

(** [bs_Project]: the key of the project. *)
Record BitbucketServerRepo : Type := {
  bs_ID : Z; bs_Name : string; bs_Slug : string; bs_Public : bool; bs_Archived : bool;
  bs_DefaultBranch : option string; bs_Origin : bool; bs_Project : option string;
  bs_Links : option BitbucketServerLinks
}.

Record BitbucketConnectionConfig : Type := {
  bbc_URL : string; bbc_Token : string; bbc_User : string; bbc_DeploymentType : string; bbc_Workspaces : list string;
  bbc_Projects : list string; bbc_Repos : list string; bbc_Revisions : option GitHubRevisions
}.

Definition zero_bitbucket_config : BitbucketConnectionConfig :=
  {| bbc_URL := ""; bbc_Token := ""; bbc_User := ""; bbc_DeploymentType := ""; bbc_Workspaces := [];
     bbc_Projects := []; bbc_Repos := []; bbc_Revisions := None |}.

Definition set_bitbucket_field (c : BitbucketConnectionConfig) (key : string) (j : json) : option BitbucketConnectionConfig :=
  let '(Build_BitbucketConnectionConfig ur tk us dt ws pr rp rv) := c in
  if key_matches "url" key then (fun v => Build_BitbucketConnectionConfig v tk us dt ws pr rp rv) <$> as_string ur j
  else if key_matches "token" key then (fun v => Build_BitbucketConnectionConfig ur v us dt ws pr rp rv) <$> as_string tk j
  else if key_matches "user" key then (fun v => Build_BitbucketConnectionConfig ur tk v dt ws pr rp rv) <$> as_string us j
  else if key_matches "deploymentType" key then
    (fun v => Build_BitbucketConnectionConfig ur tk us v ws pr rp rv) <$> as_string dt j
  else if key_matches "workspaces" key then (fun v => Build_BitbucketConnectionConfig ur tk us dt v pr rp rv) <$> as_strings ws j
  else if key_matches "projects" key then (fun v => Build_BitbucketConnectionConfig ur tk us dt ws v rp rv) <$> as_strings pr j
  else if key_matches "repos" key then (fun v => Build_BitbucketConnectionConfig ur tk us dt ws pr v rv) <$> as_strings rp j
  else if key_matches "revisions" key then
    (fun v => Build_BitbucketConnectionConfig ur tk us dt ws pr rp v) <$> as_revisions rv j
  else Some c.

Definition ErrBitbucketCloudMissingLinks : gerror := ESentinel "connectionmanager: bitbucket cloud repo missing links".
Definition ErrBitbucketCloudMissingFullName : gerror :=
  ESentinel "connectionmanager: bitbucket cloud repo missing full_name".
Definition ErrBitbucketServerMissingLinks : gerror := ESentinel "connectionmanager: bitbucket server repo missing links".
Definition ErrBitbucketServerMissingCloneHTTP : gerror :=
  ESentinel "connectionmanager: bitbucket server repo missing http clone link".
Definition ErrBitbucketServerMissingProject : gerror :=
  ESentinel "connectionmanager: bitbucket server repo missing project key".

(** A pointer to the text, [nil] for an empty one. *)
Definition non_empty (s : option string) : option string :=
  match s with Some t => if t =s "" then None else Some t | None => None end.

Definition CreateBitbucketCloudRepoRecord (r : BitbucketCloudRepo) (i : GitHubCompileInput) (orgID : Z)
  : result gerror RepoData :=
  if bc_FullName r =s "" then Err ErrBitbucketCloudMissingFullName
  else match bc_Links r with
  | None => Err ErrBitbucketCloudMissingLinks
  | Some html =>
      match CutByte "/" (bc_FullName r) with
      | None => Err ErrBitbucketCloudMissingFullName
      | Some (workspace, repoSlug) =>
          let projectKey := default "unknown" (non_empty (bc_Project r)) in
          let displayName := workspace +:+ "/" +:+ projectKey +:+ "/" +:+ repoSlug in
          let name := host_repo_name (gc_HostURL i) displayName in
          match non_empty html with
          | None => Err ErrBitbucketCloudMissingLinks
          | Some href =>
              Ok {| rd_ExternalID := bc_UUID r; rd_ExternalCodeHostType := "bitbucket-cloud";
                    rd_ExternalCodeHostURL := gc_HostURL i; rd_CloneURL := href; rd_WebURL := href; rd_Name := name;
                    rd_DisplayName := displayName; rd_ImageURL := ""; rd_DefaultBranch := non_empty (bc_Mainbranch r);
                    rd_IsFork := bc_Parent r; rd_IsArchived := false; rd_IsPublic := negb (bc_IsPrivate r);
                    rd_IsAutoCleanupDisabled := None; rd_OrgID := org_or_default orgID;
                    rd_Metadata := host_metadata (plain_git_config false (bc_Parent r) (negb (bc_IsPrivate r))
                                     displayName name href "bitbucket-cloud") i
                                     (Some (BitbucketCloudMetadata workspace repoSlug));
                    rd_ConnectionIDs := [] |}
          end
      end
  end.

Definition CompileBitbucketCloudConfig (repos : list BitbucketCloudRepo) (i : GitHubCompileInput) (connectionID : Z)
  : list RepoData * list string :=
  compile_each (fun r => CreateBitbucketCloudRepoRecord r (at_host "https://bitbucket.org" i) 0)
    (fun r e => "bitbucket-cloud repo " +:+ bc_FullName r +:+ " skipped: " +:+ err_text e) connectionID repos.

Definition http_link (links : list BitbucketServerLink) : string :=
  match List.find (fun l => sl_Name l =s "http") links with Some l => sl_Href l | None => "" end.

Definition CreateBitbucketServerRepoRecord (r : BitbucketServerRepo) (i : GitHubCompileInput) (orgID : Z)
    (serverPublicAccessEnabled : bool) : result gerror RepoData :=
  match non_empty (bs_Project r) with
  | None => Err ErrBitbucketServerMissingProject
  | Some projectKey =>
      match bs_Links r with
      | None => Err ErrBitbucketServerMissingLinks
      | Some links =>
          let displayName := projectKey +:+ "/" +:+ bs_Slug r in
          let name := host_repo_name (gc_HostURL i) displayName in
          let cloneURL := http_link (sk_Clone links) in
          if cloneURL =s "" then Err ErrBitbucketServerMissingCloneHTTP
          else match non_empty (sl_Href <$> head (sk_Self links)) with
          | None => Err ErrBitbucketServerMissingLinks
          | Some self =>
              let webURL := TrimSuffix (TrimSuffix self "/browse") "/browse/" in
              let isPublic := serverPublicAccessEnabled && bs_Public r in
              Ok {| rd_ExternalID := Itoa (bs_ID r); rd_ExternalCodeHostType := "bitbucket-server";
                    rd_ExternalCodeHostURL := gc_HostURL i; rd_CloneURL := cloneURL; rd_WebURL := webURL;
                    rd_Name := name; rd_DisplayName := displayName; rd_ImageURL := "";
                    rd_DefaultBranch := bs_DefaultBranch r; rd_IsFork := bs_Origin r; rd_IsArchived := bs_Archived r;
                    rd_IsPublic := isPublic; rd_IsAutoCleanupDisabled := None; rd_OrgID := org_or_default orgID;
                    rd_Metadata := host_metadata (plain_git_config (bs_Archived r) (bs_Origin r) isPublic
                                     displayName name webURL "bitbucket-server") i
                                     (Some (BitbucketServerMetadata projectKey (bs_Slug r)));
                    rd_ConnectionIDs := [] |}
          end
      end
  end.

Definition bbsProjectKeyOrUnknown (r : BitbucketServerRepo) : string := default "unknown" (non_empty (bs_Project r)).

(** Without a default host. *)
Definition CompileBitbucketServerConfig (repos : list BitbucketServerRepo) (i : GitHubCompileInput) (connectionID : Z)
    (serverPublicAccessEnabled : bool) : list RepoData * list string :=
  compile_each (fun r => CreateBitbucketServerRepoRecord r (at_host "" i) 0 serverPublicAccessEnabled)
    (fun r e => "bitbucket-server repo " +:+ bbsProjectKeyOrUnknown r +:+ "/" +:+ bs_Slug r +:+ " skipped: " +:+ err_text e)
    connectionID repos.

(** ** Gerrit *)

(** The addresses of the web links. *)
Record GerritProject : Type := { ge_Name : string; ge_ID : string; ge_State : string; ge_WebLinks : list string }.

Record GerritConnectionConfig : Type := {
  gec_URL : string; gec_Projects : list string; gec_Exclude : option (list string);
  gec_Revisions : option GitHubRevisions
}.

Definition zero_gerrit_config : GerritConnectionConfig :=
  {| gec_URL := ""; gec_Projects := []; gec_Exclude := None; gec_Revisions := None |}.

Definition set_gerrit_exclude_field (e : list string) (key : string) (j : json) : option (list string) :=
  if key_matches "projects" key then as_strings e j else Some e.

Definition set_gerrit_field (c : GerritConnectionConfig) (key : string) (j : json) : option GerritConnectionConfig :=
  let '(Build_GerritConnectionConfig ur pr ex rv) := c in
  if key_matches "url" key then (fun v => Build_GerritConnectionConfig v pr ex rv) <$> as_string ur j
  else if key_matches "projects" key then (fun v => Build_GerritConnectionConfig ur v ex rv) <$> as_strings pr j
  else if key_matches "exclude" key then
    (fun v => Build_GerritConnectionConfig ur pr v rv)
    <$> CodeGraphWriter.as_pointer [] (as_struct set_gerrit_exclude_field) ex j
  else if key_matches "revisions" key then (fun v => Build_GerritConnectionConfig ur pr ex v) <$> as_revisions rv j
  else Some c.

Definition gerrit_web_url (hostURL : string) (links : list string) : string :=
  match links with
  | [] => ""
  | raw :: _ => if HasPrefix raw "/plugins/gitiles/" then canonicalURLString (hostURL +:+ raw) else raw
  end.

Definition CreateGerritRepoRecord (p : GerritProject) (i : GitHubCompileInput) (orgID : Z) : RepoData :=
  let hostURL := stripTrailingSlashes (gc_HostURL i) in
  let name := host_repo_name hostURL (ge_Name p) in
  let webURL := gerrit_web_url hostURL (ge_WebLinks p) in
  {| rd_ExternalID := ge_ID p; rd_ExternalCodeHostType := "gerrit"; rd_ExternalCodeHostURL := hostURL;
     rd_CloneURL := hostURL +:+ "/" +:+ PathEscape (ge_Name p); rd_WebURL := webURL; rd_Name := name;
     rd_DisplayName := ge_Name p; rd_ImageURL := ""; rd_DefaultBranch := None; rd_IsFork := false;
     rd_IsArchived := false; rd_IsPublic := true; rd_IsAutoCleanupDisabled := None; rd_OrgID := org_or_default orgID;
     rd_Metadata := host_metadata (plain_git_config false false true (ge_Name p) name webURL "gitiles") i None;
     rd_ConnectionIDs := [] |}.

Definition CompileGerritConfig (projects : list GerritProject) (i : GitHubCompileInput) (connectionID : Z) : list RepoData :=
  map (fun p => with_connection connectionID (CreateGerritRepoRecord p (at_host "" i) 0)) projects.

(** ** Azure DevOps *)

Record AzureDevOpsProject : Type := { ap_ID : string; ap_Name : string; ap_Visibility : string }.

Record AzureDevOpsRepo : Type := {
  az_ID : string; az_Name : string; az_RemoteURL : string; az_WebURL : string; az_DefaultBranch : option string;
  az_IsFork : bool; az_Project : option AzureDevOpsProject
}.

Record AzureDevOpsConnectionConfig : Type := {
  azc_URL : string; azc_Token : string; azc_Orgs : list string; azc_Projects : list string;
  azc_Revisions : option GitHubRevisions
}.

Definition zero_azure_config : AzureDevOpsConnectionConfig :=
  {| azc_URL := ""; azc_Token := ""; azc_Orgs := []; azc_Projects := []; azc_Revisions := None |}.

Definition set_azure_field (c : AzureDevOpsConnectionConfig) (key : string) (j : json) : option AzureDevOpsConnectionConfig :=
  let '(Build_AzureDevOpsConnectionConfig ur tk og pr rv) := c in
  if key_matches "url" key then (fun v => Build_AzureDevOpsConnectionConfig v tk og pr rv) <$> as_string ur j
  else if key_matches "token" key then (fun v => Build_AzureDevOpsConnectionConfig ur v og pr rv) <$> as_string tk j
  else if key_matches "orgs" key then (fun v => Build_AzureDevOpsConnectionConfig ur tk v pr rv) <$> as_strings og j
  else if key_matches "projects" key then (fun v => Build_AzureDevOpsConnectionConfig ur tk og v rv) <$> as_strings pr j
  else if key_matches "revisions" key then (fun v => Build_AzureDevOpsConnectionConfig ur tk og pr v) <$> as_revisions rv j
  else Some c.

Definition ErrAzureDevOpsMissingProject : gerror := ESentinel "connectionmanager: azuredevops repo missing project".
Definition ErrAzureDevOpsMissingRemoteURL : gerror := ESentinel "connectionmanager: azuredevops repo missing remoteUrl".
Definition ErrAzureDevOpsMissingID : gerror := ESentinel "connectionmanager: azuredevops repo missing id".

Definition CreateAzureDevOpsRepoRecord (r : AzureDevOpsRepo) (i : GitHubCompileInput) (orgID : Z) : result gerror RepoData :=
  match az_Project r with
  | None => Err ErrAzureDevOpsMissingProject
  | Some p =>
      if az_RemoteURL r =s "" then Err ErrAzureDevOpsMissingRemoteURL
      else if az_ID r =s "" then Err ErrAzureDevOpsMissingID
      else
        let hostURL := stripTrailingSlashes (gc_HostURL i) in
        let displayName := ap_Name p +:+ "/" +:+ az_Name r in
        let name := host_repo_name hostURL displayName in
        let webURL := if az_WebURL r =s "" then hostURL +:+ "/" +:+ ap_Name p +:+ "/_git/" +:+ az_Name r else az_WebURL r in
        let isPublic := EqualFold "public" (ap_Visibility p) in
        Ok {| rd_ExternalID := az_ID r; rd_ExternalCodeHostType := "azuredevops"; rd_ExternalCodeHostURL := hostURL;
              rd_CloneURL := webURL; rd_WebURL := webURL; rd_Name := name; rd_DisplayName := displayName;
              rd_ImageURL := ""; rd_DefaultBranch := az_DefaultBranch r; rd_IsFork := az_IsFork r;
              rd_IsArchived := false; rd_IsPublic := isPublic; rd_IsAutoCleanupDisabled := None;
              rd_OrgID := org_or_default orgID;
              rd_Metadata := host_metadata (plain_git_config false (az_IsFork r) isPublic displayName name webURL
                                              "azuredevops") i None;
              rd_ConnectionIDs := [] |}
  end.

Definition CompileAzureDevOpsConfig (repos : list AzureDevOpsRepo) (i : GitHubCompileInput) (connectionID : Z)
  : list RepoData * list string :=
  compile_each (fun r => CreateAzureDevOpsRepoRecord r (at_host "https://dev.azure.com" i) 0)
    (fun r e => "azuredevops repo " +:+ az_Name r +:+ " skipped: " +:+ err_text e) connectionID repos.

(** The project of the listing fills what the repository leaves open. *)
Definition backfill_project (p : AzureDevOpsProject) (r : AzureDevOpsRepo) : AzureDevOpsRepo :=
  {| az_ID := az_ID r; az_Name := az_Name r; az_RemoteURL := az_RemoteURL r; az_WebURL := az_WebURL r;
     az_DefaultBranch := az_DefaultBranch r; az_IsFork := az_IsFork r;
     az_Project := Some match az_Project r with
       | None => p
       | Some q => {| ap_ID := ap_ID q; ap_Name := if ap_Name q =s "" then ap_Name p else ap_Name q;
                      ap_Visibility := if ap_Visibility q =s "" then ap_Visibility p else ap_Visibility q |}
       end |}.

(** ** Generic git *)

Record GenericGitHostConnectionConfig : Type := { ggc_URL : string; ggc_Revisions : option GitHubRevisions }.

Definition zero_generic_config : GenericGitHostConnectionConfig := {| ggc_URL := ""; ggc_Revisions := None |}.

Definition set_generic_field (c : GenericGitHostConnectionConfig) (key : string) (j : json)
  : option GenericGitHostConnectionConfig :=
  let '(Build_GenericGitHostConnectionConfig ur rv) := c in
  if key_matches "url" key then (fun v => Build_GenericGitHostConnectionConfig v rv) <$> as_string ur j
  else if key_matches "revisions" key then (fun v => Build_GenericGitHostConnectionConfig ur v) <$> as_revisions rv j
  else Some c.

Definition genericGitHostCodeHostType : string := "generic-git-host".
Definition ErrGenericGitUnsupportedScheme : gerror := ESentinel "connectionmanager: generic git host unsupported scheme".

Definition isHexObjectID (s : string) : bool :=
  ((String.length s =? 40)%nat || (String.length s =? 64)%nat) && forallb is_hex (String.list_ascii_of_string s).

Definition newline : ascii := chr 10.

Definition info_refs_line (line : string) : bool :=
  match Fields (TrimSpace line) with
  | [oid; ref] => negb (HasPrefix (TrimSpace line) "#") && isHexObjectID oid && ((ref =s "HEAD") || HasPrefix ref "refs/")
  | _ => false
  end.

Definition looksLikeDumbHTTPInfoRefs (body : string) : bool := existsb info_refs_line (SplitByte newline body).

(** The answer to a GET request: status, content type and the first 8192 bytes, when
    they can be read. *)
Record HTTPAnswer : Type := { ha_status : Z; ha_contentType : string; ha_body : option string }.

Section GenericGit.
Context (http_Get : string -> option HTTPAnswer).
(** [filepath.Glob], the disk, and [ctx.Err] before the [n]th path. *)
Context (Glob : Disk -> string -> result gerror (list string)) (disk : Disk) (ctx_Err : nat -> option gerror).

Definition IsURLAValidGitRepo (rawURL : string) : bool :=
  match http_Get (stripTrailingSlashes rawURL +:+ "/info/refs?service=git-upload-pack") with
  | None => false
  | Some a =>
      if (ha_status a <? 200) || (300 <=? ha_status a) then false
      else if Contains (ha_contentType a) "git-upload-pack-advertisement" || Contains (ha_contentType a) "x-git-upload-pack"
      then true
      else match ha_body a with Some data => looksLikeDumbHTTPInfoRefs data | None => false end
  end.

(** A record of a generic host. *)
Definition generic_record (externalID hostURL cloneURL name : string) (branch : option string) (public : bool)
    (gitConfig : list (string * string)) (cfg : GenericGitHostConnectionConfig) (connectionID : Z) : RepoData :=
  {| rd_ExternalID := externalID; rd_ExternalCodeHostType := genericGitHostCodeHostType;
     rd_ExternalCodeHostURL := hostURL; rd_CloneURL := cloneURL; rd_WebURL := ""; rd_Name := name;
     rd_DisplayName := name; rd_ImageURL := ""; rd_DefaultBranch := branch; rd_IsFork := false;
     rd_IsArchived := false; rd_IsPublic := public; rd_IsAutoCleanupDisabled := None; rd_OrgID := SingleTenantOrgID;
     rd_Metadata := host_metadata gitConfig (compile_input "" (ggc_Revisions cfg)) None;
     rd_ConnectionIDs := [connectionID] |}.

Definition compileGenericGitURL (cfg : GenericGitHostConnectionConfig) (u : URL) (connectionID : Z)
  : list RepoData * list string :=
  let text := url_String u in
  if negb (IsURLAValidGitRepo text) then ([], ["Skipping " +:+ text +:+ " - not a git repository."])
  else
    let name := FilepathJoin [url_Host u; TrimSuffix (url_Path u) ".git"] in
    ([generic_record text (url_Scheme u +:+ "://" +:+ url_Host u) text name None true
        [("zoekt.archived", marshalBoolValue false); ("zoekt.display-name", name); ("zoekt.fork", marshalBoolValue false);
         ("zoekt.name", name); ("zoekt.public", marshalBoolValue true); ("zoekt.web-url", text)] cfg connectionID], []).

Definition IsPathAValidGitRepoRoot (repoPath : string) : bool :=
  match Stat disk (FilepathJoin [repoPath; ".git"]) with
  | Ok n => is_dir n || is_regular n
  | Err _ => false
  end.

(** The value of [url] in the section of the remote "origin". *)
Fixpoint origin_url_in (inSection : bool) (lines : list string) : string :=
  match lines with
  | [] => ""
  | line :: rest =>
      let trim := TrimSpace line in
      if (trim =s "") || HasPrefix trim ";" || HasPrefix trim "#" then origin_url_in inSection rest
      else if HasPrefix trim "["
      then origin_url_in (EqualFold ("[remote " +:+ quoted "origin" +:+ "]") trim) rest
      else if negb inSection then origin_url_in inSection rest
      else match CutByte "=" trim with
      | None => origin_url_in inSection rest
      | Some (key, val) => if EqualFold "url" (TrimSpace key) then TrimSpace val else origin_url_in inSection rest
      end
  end.

Definition parseGitConfigOriginURL (cfg : string) : string := origin_url_in false (SplitByte newline cfg).

Definition gitdir_of (contents : string) : option string :=
  match List.find (fun line => HasPrefix (TrimSpace line) "gitdir:") (SplitByte newline contents) with
  | Some line => Some (TrimSpace (TrimPrefix (TrimSpace line) "gitdir:"))
  | None => None
  end.

(** [readWorktreeGitConfig] and [readWorktreeHEAD]: the [file] of the directory that a
    ".git" file names. *)
Definition readWorktree (file dotGitPath : string) : result gerror string :=
  let? info := Stat disk dotGitPath in
  if negb (is_regular info) then Err (EText "not a worktree pointer")
  else
    let? contents := ReadFile disk dotGitPath in
    match gitdir_of contents with
    | Some target => ReadFile disk (FilepathJoin [target; file])
    | None => Err (EText "worktree pointer missing gitdir:")
    end.

Definition read_git_file (file repoPath : string) : result gerror string :=
  match ReadFile disk (FilepathJoin [repoPath; ".git"; file]) with
  | Ok data => Ok data
  | Err _ => readWorktree file (FilepathJoin [repoPath; ".git"])
  end.

Definition GetOriginURL (repoPath : string) : string :=
  match read_git_file "config" repoPath with
  | Ok data => parseGitConfigOriginURL data
  | Err _ => ""
  end.

Definition GetLocalDefaultBranch (repoPath : string) : option string :=
  match read_git_file "HEAD" repoPath with
  | Err _ => None
  | Ok data =>
      let line := TrimSpace data in
      if HasPrefix line "ref:" then Some (TrimPrefix (TrimSpace (TrimPrefix line "ref:")) "refs/heads/") else None
  end.

Definition parseSSHGitURL (raw : string) : option (string * string) :=
  match Index raw "@", Index raw ":" with
  | Some at', Some colon =>
      if (colon <? at')%nat then None
      else
        let host := str_take (colon - (at' + 1)) (str_drop (at' + 1) raw) in
        let p := str_drop (colon + 1) raw in
        if (host =s "") || (p =s "") then None else Some (host, p)
  | _, _ => None
  end.

(** The parse of an origin with a host. *)
Definition parse_hosted (origin : string) : option URL :=
  match url_Parse origin with
  | Ok u => if url_Host u =s "" then None else Some u
  | Err _ => None
  end.

Definition genericGitRepoNameFromOrigin (origin : string) : string :=
  match parse_hosted origin with
  | None =>
      match parseSSHGitURL origin with
      | Some (host, p) => FilepathJoin [host; TrimSuffix p ".git"]
      | None => origin
      end
  | Some u =>
      let decoded := match PathUnescape (url_Path u) with Ok d => d | Err _ => url_Path u end in
      FilepathJoin [url_Host u; TrimSuffix decoded ".git"]
  end.

Definition genericGitResource (origin : string) : string :=
  match parse_hosted origin with
  | Some u => url_Host u
  | None => match parseSSHGitURL origin with Some (host, _) => host | None => origin end
  end.

(** A matched path: its record, or why it is skipped. *)
Definition local_record (cfg : GenericGitHostConnectionConfig) (connectionID : Z) (p : string) : RepoData + string :=
  if negb (match Stat disk p with Ok n => is_dir n | Err _ => false end)
  then inr ("Skipping " +:+ p +:+ " - path is not a directory.")
  else if negb (IsPathAValidGitRepoRoot p) then inr ("Skipping " +:+ p +:+ " - not a git repository.")
  else
    let origin := GetOriginURL p in
    if origin =s "" then inr ("Skipping " +:+ p +:+ " - remote.origin.url not found in git config.")
    else inl (generic_record origin (genericGitResource origin) ("file://" +:+ p) (genericGitRepoNameFromOrigin origin)
                (GetLocalDefaultBranch p) false [] cfg connectionID).

Definition ErrFetchAborted : gerror := ESentinel "connectionmanager: fetch aborted".

Fixpoint local_records (cfg : GenericGitHostConnectionConfig) (connectionID : Z) (n : nat) (paths : list string)
    (repos : list RepoData) (warnings : list string) : result gerror (list RepoData * list string) :=
  match paths with
  | [] => Ok (repos, warnings)
  | p :: rest =>
      match ctx_Err n with
      | Some e => Err (EWrap "" ErrFetchAborted (": " +:+ err_text e))
      | None =>
          match local_record cfg connectionID p with
          | inl d => local_records cfg connectionID (S n) rest (repos ++ [d]) warnings
          | inr warning => local_records cfg connectionID (S n) rest repos (warnings ++ [warning])
          end
      end
  end.

Definition compileGenericGitFile (cfg : GenericGitHostConnectionConfig) (u : URL) (connectionID : Z)
  : result gerror (list RepoData * list string) :=
  let pattern := url_Path u in
  if pattern =s "" then Ok ([], ["file:// URL has empty path"])
  else match Glob disk pattern with
  | Err e => Err (EWrap ("glob " +:+ quoted pattern +:+ ": ") e "")
  | Ok [] => Ok ([], ["No paths matched the pattern '" +:+ pattern +:+ "'. Please verify the path exists and is accessible."])
  | Ok matches =>
      let? found := local_records cfg connectionID 0 matches [] [] in
      let '(repos, warnings) := found in
      Ok (repos, match repos with
                 | [] => warnings ++ ["No valid git repositories found from " +:+ Itoa (Z.of_nat (length matches))
                           +:+ " matched path(s). Check the warnings for details on individual paths."]
                 | _ => warnings
                 end)
  end.

Definition CompileGenericGitHostFromConfig (cfg : GenericGitHostConnectionConfig) (connectionID : Z)
  : result gerror (list RepoData * list string) :=
  if ggc_URL cfg =s "" then Err (EText "connectionmanager: generic git host config.url is required")
  else match url_Parse (ggc_URL cfg) with
  | Err e => Err (EWrap "parse config.url: " e "")
  | Ok u =>
      let scheme := ToLower (url_Scheme u) in
      if scheme =s "file" then compileGenericGitFile cfg u connectionID
      else if (scheme =s "http") || (scheme =s "https") then Ok (compileGenericGitURL cfg u connectionID)
      else Err (EWrap "" ErrGenericGitUnsupportedScheme (": " +:+ quoted (url_Scheme u)))
  end.
End GenericGit.

(** ** Fetchers *)

(** What the clients of the code hosts answer, for their address and their token (for
    Bitbucket Cloud also the user). *)
Record HostAPIs : Type := {
  buildGitHubClient : string -> string -> option gerror;
  FetchReposForOrg : string -> string -> string -> Listing OctokitRepository;
  buildGitLabClient : string -> string -> option gerror;
  FetchProjectsForGroup : string -> string -> string -> Listing GitLabProject;
  buildGiteaClient : string -> string -> option gerror;
  FetchReposForGiteaOrg : string -> string -> string -> Listing GiteaRepo;
  buildBitbucketCloudClient : string -> string -> string -> option gerror;
  FetchReposForBitbucketCloudWorkspace : string -> string -> string -> string -> Listing BitbucketCloudRepo;
  FetchReposForBitbucketServerProject : string -> string -> string -> Listing BitbucketServerRepo;
  IsBitbucketServerPublicAccessEnabled : string -> BitbucketServerRepo -> bool;
  FetchAllGerritProjects : string -> result gerror (list GerritProject);
  fetchAzureDevOpsProjects : string -> string -> string -> Listing AzureDevOpsProject;
  fetchAzureDevOpsRepositories : string -> string -> string -> result gerror (list AzureDevOpsRepo);
  http_Get : string -> option HTTPAnswer;
  Glob : Disk -> string -> result gerror (list string);
  disk : Disk;
  ctx_Err : nat -> option gerror
}.

(** The fetchers that are registered for the hosts; [None] is a nil slot. *)
Record FetcherSlots : Type := {
  giteaFetcher : option (GiteaConnectionConfig -> result gerror (list GiteaRepo * list string));
  bitbucketCloudFetcher : option (BitbucketConnectionConfig -> result gerror (list BitbucketCloudRepo * list string));
  bitbucketServerFetcher :
    option (BitbucketConnectionConfig -> result gerror (list BitbucketServerRepo * bool * list string));
  gerritFetcher : option (GerritConnectionConfig -> result gerror (list GerritProject * list string));
  azureDevOpsFetcher : option (AzureDevOpsConnectionConfig -> result gerror (list AzureDevOpsRepo * list string))
}.

Section Fetchers.
Context (api : HostAPIs).

Definition GetGitLabProjectsFromConfig (cfg : GitLabConnectionConfig) : result gerror (list GitLabProject * list string) :=
  match buildGitLabClient api (glc_URL cfg) (glc_Token cfg) with
  | Some e => Err (EWrap "buildGitLabClient: " e "")
  | None => fetch_each "FetchProjectsForGroup" (FetchProjectsForGroup api (glc_URL cfg) (glc_Token cfg)) (glc_Groups cfg) [] []
  end.

Definition ResolveGitLabHostURL (cfg : GitLabConnectionConfig) : string := resolve_host (glc_URL cfg) "https://gitlab.com".

Definition CompileGitLabFromConfig (cfg : GitLabConnectionConfig) (connectionID : Z)
  : result gerror (list RepoData * list string) :=
  let? fetched := GetGitLabProjectsFromConfig cfg in
  Ok (CompileGitLabConfig fetched.1 (compile_input (ResolveGitLabHostURL cfg) (glc_Revisions cfg)) connectionID, fetched.2).

Definition fetchGiteaReposViaSDK (cfg : GiteaConnectionConfig) : result gerror (list GiteaRepo * list string) :=
  match buildGiteaClient api (gtc_URL cfg) (gtc_Token cfg) with
  | Some e => Err e
  | None => fetch_each "FetchReposForGiteaOrg" (FetchReposForGiteaOrg api (gtc_URL cfg) (gtc_Token cfg)) (gtc_Orgs cfg) [] []
  end.

Definition fetchBitbucketCloudReposViaSDK (cfg : BitbucketConnectionConfig)
  : result gerror (list BitbucketCloudRepo * list string) :=
  match buildBitbucketCloudClient api (bbc_URL cfg) (bbc_Token cfg) (bbc_User cfg) with
  | Some e => Err (EWrap "buildBitbucketCloudClient: " e "")
  | None => fetch_each "FetchReposForBitbucketCloudWorkspace"
              (FetchReposForBitbucketCloudWorkspace api (bbc_URL cfg) (bbc_Token cfg) (bbc_User cfg)) (bbc_Workspaces cfg) [] []
  end.

(** The first public repository is probed; without one the flag is true. *)
Definition public_access (baseURL : string) (repos : list BitbucketServerRepo) : bool :=
  match List.find bs_Public repos with
  | Some r => IsBitbucketServerPublicAccessEnabled api baseURL r
  | None => true
  end.

Definition fetchBitbucketServerReposViaHTTP (cfg : BitbucketConnectionConfig)
  : result gerror (list BitbucketServerRepo * bool * list string) :=
  if bbc_URL cfg =s "" then Err (EText "connectionmanager: bitbucket server config.url is required")
  else
    let? fetched := fetch_each "FetchReposForBitbucketServerProject"
                      (FetchReposForBitbucketServerProject api (bbc_URL cfg) (bbc_Token cfg)) (bbc_Projects cfg) [] [] in
    let '(all, warnings) := fetched in
    Ok (all, public_access (bbc_URL cfg) all, warnings).

Definition fetchGerritProjectsViaHTTP (cfg : GerritConnectionConfig) : result gerror (list GerritProject * list string) :=
  let? projects := FetchAllGerritProjects api (gec_URL cfg) in
  let included := match gec_Projects cfg with
                  | [] => projects
                  | globs => List.filter (fun p => matchAny (ge_Name p) globs false) projects
                  end in
  let kept := match gec_Exclude cfg with
              | None | Some [] => included
              | Some globs => List.filter (fun p => negb (matchAny (ge_Name p) globs false)) included
              end in
  Ok (kept, []).

Definition buildAzureDevOpsOrgURL (baseURL org : string) : string := stripTrailingSlashes baseURL +:+ "/" +:+ org.

(** The repositories of the projects that have an id and a listing. *)
Fixpoint azure_repos (orgURL token : string) (projects : list AzureDevOpsProject) : list AzureDevOpsRepo :=
  match projects with
  | [] => []
  | p :: rest =>
      (if ap_ID p =s "" then []
       else match fetchAzureDevOpsRepositories api orgURL token (ap_ID p) with
            | Ok repos => map (backfill_project p) repos
            | Err _ => []
            end) ++ azure_repos orgURL token rest
  end.

Definition FetchReposForAzureDevOpsOrg (baseURL token org : string) : Listing AzureDevOpsRepo :=
  if token =s "" then Err (EText "connectionmanager: azuredevops requires a token (PAT)")
  else if org =s "" then Err (EText "connectionmanager: azuredevops org is empty")
  else
    let orgURL := buildAzureDevOpsOrgURL baseURL org in
    let? listed := fetchAzureDevOpsProjects api orgURL token org in
    match listed with
    | inr warn => Ok (inr warn)
    | inl projects => Ok (inl (azure_repos orgURL token projects))
    end.

Definition fetchAzureDevOpsReposViaHTTP (cfg : AzureDevOpsConnectionConfig)
  : result gerror (list AzureDevOpsRepo * list string) :=
  let base := if azc_URL cfg =s "" then "https://dev.azure.com" else azc_URL cfg in
  if azc_Token cfg =s "" then Err (EText "connectionmanager: azuredevops requires cfg.Token (PAT)")
  else fetch_each "FetchReposForAzureDevOpsOrg" (FetchReposForAzureDevOpsOrg base (azc_Token cfg)) (azc_Orgs cfg) [] [].

(** What the [init] functions register. *)
Definition production_slots : FetcherSlots :=
  {| giteaFetcher := Some fetchGiteaReposViaSDK; bitbucketCloudFetcher := Some fetchBitbucketCloudReposViaSDK;
     bitbucketServerFetcher := Some fetchBitbucketServerReposViaHTTP; gerritFetcher := Some fetchGerritProjectsViaHTTP;
     azureDevOpsFetcher := Some fetchAzureDevOpsReposViaHTTP |}.

(** ** Orchestrators *)

Context (slots : FetcherSlots).

Definition ErrGiteaFetcherNotConfigured : gerror :=
  ESentinel "connectionmanager: gitea fetcher not configured; see SetGiteaFetcher".
Definition ErrBitbucketFetcherNotConfigured : gerror :=
  ESentinel "connectionmanager: bitbucket fetcher not configured; see SetBitbucketCloudFetcher".
Definition ErrGerritFetcherNotConfigured : gerror := ESentinel "connectionmanager: gerrit fetcher not configured".
Definition ErrAzureDevOpsFetcherNotConfigured : gerror :=
  ESentinel "connectionmanager: azuredevops fetcher not configured".

Definition ResolveGiteaHostURL (cfg : GiteaConnectionConfig) : string := resolve_host (gtc_URL cfg) "https://gitea.com".

Definition CompileGiteaFromConfig (cfg : GiteaConnectionConfig) (connectionID : Z)
  : result gerror (list RepoData * list string) :=
  match giteaFetcher slots with
  | None => Err ErrGiteaFetcherNotConfigured
  | Some f =>
      let? fetched := f cfg in
      Ok (CompileGiteaConfig fetched.1 (compile_input (ResolveGiteaHostURL cfg) (gtc_Revisions cfg)) connectionID, fetched.2)
  end.

Definition ResolveBitbucketHostURL (cfg : BitbucketConnectionConfig) : string :=
  resolve_host (bbc_URL cfg) "https://bitbucket.org".

Definition CompileBitbucketFromConfig (cfg : BitbucketConnectionConfig) (connectionID : Z)
  : result gerror (list RepoData * list string) :=
  let deployment := if bbc_DeploymentType cfg =s "" then "cloud" else bbc_DeploymentType cfg in
  if negb (deployment =s "cloud") && negb (deployment =s "server")
  then Err (EText ("connectionmanager: unknown bitbucket deploymentType " +:+ quoted deployment))
  else
    let i := compile_input (ResolveBitbucketHostURL cfg) (bbc_Revisions cfg) in
    if deployment =s "cloud" then
      match bitbucketCloudFetcher slots with
      | None => Err ErrBitbucketFetcherNotConfigured
      | Some f =>
          let? fetched := f cfg in
          let '(records, compileWarnings) := CompileBitbucketCloudConfig fetched.1 i connectionID in
          Ok (records, fetched.2 ++ compileWarnings)
      end
    else
      match bitbucketServerFetcher slots with
      | None => Err ErrBitbucketFetcherNotConfigured
      | Some f =>
          let? fetched := f cfg in
          let '(repos, publicAccess, warnings) := fetched in
          let '(records, compileWarnings) := CompileBitbucketServerConfig repos i connectionID publicAccess in
          Ok (records, warnings ++ compileWarnings)
      end.

Definition CompileGerritFromConfig (cfg : GerritConnectionConfig) (connectionID : Z)
  : result gerror (list RepoData * list string) :=
  if gec_URL cfg =s "" then Err (EText "connectionmanager: gerrit config.url is required")
  else match gerritFetcher slots with
  | None => Err ErrGerritFetcherNotConfigured
  | Some f =>
      let? fetched := f cfg in
      Ok (CompileGerritConfig fetched.1 (compile_input (stripTrailingSlashes (gec_URL cfg)) (gec_Revisions cfg)) connectionID,
          fetched.2)
  end.

Definition ResolveAzureDevOpsHostURL (cfg : AzureDevOpsConnectionConfig) : string :=
  resolve_host (azc_URL cfg) "https://dev.azure.com".

Definition CompileAzureDevOpsFromConfig (cfg : AzureDevOpsConnectionConfig) (connectionID : Z)
  : result gerror (list RepoData * list string) :=
  match azureDevOpsFetcher slots with
  | None => Err ErrAzureDevOpsFetcherNotConfigured
  | Some f =>
      let? fetched := f cfg in
      let '(records, compileWarnings) :=
        CompileAzureDevOpsConfig fetched.1 (compile_input (ResolveAzureDevOpsHostURL cfg) (azc_Revisions cfg)) connectionID in
      Ok (records, fetched.2 ++ compileWarnings)
  end.

(** ** The dispatch on the type of a connection *)

(** How the configuration of a connection ends: it does not parse, or what its compile
    path returns. *)
Inductive HostOutcome : Type :=
| ConfigError (e : gerror)
| Compiled (r : result gerror (list RepoData * list string)).

Definition with_config {C} (set : C -> string -> json -> option C) (zero : C) (config : string)
    (compile : C -> result gerror (list RepoData * list string)) : option HostOutcome :=
  Some match decode_struct set zero config with
       | Err e => ConfigError e
       | Ok cfg => Compiled (compile cfg)
       end.

Definition compile_host (connectionType config : string) (connectionID : Z) : option HostOutcome :=
  if connectionType =s "github" then
    with_config set_github_field zero_github_config config
      (fun cfg => CompileFromConfig (buildGitHubClient api) (FetchReposForOrg api) cfg connectionID)
  else if connectionType =s "gitlab" then
    with_config set_gitlab_field zero_gitlab_config config (fun cfg => CompileGitLabFromConfig cfg connectionID)
  else if connectionType =s "gitea" then
    with_config set_gitea_field zero_gitea_config config (fun cfg => CompileGiteaFromConfig cfg connectionID)
  else if connectionType =s "bitbucket" then
    with_config set_bitbucket_field zero_bitbucket_config config (fun cfg => CompileBitbucketFromConfig cfg connectionID)
  else if connectionType =s "gerrit" then
    with_config set_gerrit_field zero_gerrit_config config (fun cfg => CompileGerritFromConfig cfg connectionID)
  else if connectionType =s "azuredevops" then
    with_config set_azure_field zero_azure_config config (fun cfg => CompileAzureDevOpsFromConfig cfg connectionID)
  else if connectionType =s "git" then
    with_config set_generic_field zero_generic_config config
      (fun cfg => CompileGenericGitHostFromConfig (http_Get api) (Glob api) (disk api) (ctx_Err api) cfg connectionID)
  else None.
End Fetchers.
End Hosts.
