(* ===== verification/ConnectionSync.v ===== *)
(** The connection-sync worker, src/internal/backend/connectionmanager/handler.go: it
    claims a sync job, loads the connection, has the records of its repositories
    compiled (CodeHosts, OtherHosts), upserts them and completes the job. *)
From S2P Require Import Prelude GoStd GoStdFacts GoJSON GoText SubjobTypes SubjobStore SubjobCodec Scheduler.
From S2P Require Import RepoIndexDB RepoTask CoreDB CodeHosts OtherHosts.
Import connectionsync.

(** ** The tables *)

(** The columns of a repository that the code host gives. *)
Record HostColumns : Type := {
  hc_external_id : string; hc_codeHostUrl : string; hc_displayName : string; hc_isFork : bool; hc_isArchived : bool;
  hc_isPublic : bool; hc_isAutoCleanupDisabled : bool; hc_webUrl : string; hc_imageUrl : string
}.

(** The further columns of a connection. *)
Record ConnectionColumns : Type := { cc_connectionType : string; cc_config : string; cc_syncedAt : option Z }.

(** A repository without an entry in [sn_hosts] has NULL in its external key. *)
Record SyncWorld : Type := {
  sn_world : World;
  sn_hosts : gmap Z HostColumns;
  sn_columns : gmap Z ConnectionColumns
}.

Definition with_world (f : World -> World) (w : SyncWorld) : SyncWorld :=
  {| sn_world := f (sn_world w); sn_hosts := sn_hosts w; sn_columns := sn_columns w |}.

(** What one call meets: a failure of the driver, the clock, a fresh id, and what the
    other sessions did before. *)
Record SyncEnv : Type := {
  se_fault : option gerror; se_now : Z; se_id : Z; se_others : SyncWorld -> SyncWorld
}.

Definition SyncState : Type := nat * SyncWorld.

Definition connection_in_org (w : World) (connectionID orgID : Z) : bool :=
  match w_connections w !! connectionID with Some c => conn_orgId c =? orgID | None => false end.

(** [UPDATE "ConnectionSyncJob" ... WHERE id AND "connectionId" AND EXISTS ...] *)
Definition update_sync_job (jobID : string) (connectionID orgID : Z) (guard : SyncJob -> bool) (upd : SyncJob -> SyncJob)
    (w : SyncWorld) : SyncWorld * bool :=
  match w_syncJobs (sn_world w) !! jobID with
  | Some j => if (sync_connectionId j =? connectionID) && guard j && connection_in_org (sn_world w) connectionID orgID
              then (with_world (set_w_syncJobs (<[jobID := upd j]>)) w, true) else (w, false)
  | None => (w, false)
  end.

Definition start_sync (now : Z) (j : SyncJob) : SyncJob :=
  {| sync_connectionId := sync_connectionId j; sync_status := "IN_PROGRESS"; sync_errorMessage := sync_errorMessage j;
     sync_warningMessages := sync_warningMessages j; sync_createdAt := sync_createdAt j;
     sync_completedAt := sync_completedAt j; sync_updatedAt := now |}.

Definition fail_sync (now : Z) (errMsg : string) (j : SyncJob) : SyncJob :=
  {| sync_connectionId := sync_connectionId j; sync_status := "FAILED"; sync_errorMessage := Some errMsg;
     sync_warningMessages := sync_warningMessages j; sync_createdAt := sync_createdAt j;
     sync_completedAt := Some now; sync_updatedAt := now |}.

Definition complete_sync (now : Z) (warnings : list string) (j : SyncJob) : SyncJob :=
  {| sync_connectionId := sync_connectionId j; sync_status := "COMPLETED"; sync_errorMessage := sync_errorMessage j;
     sync_warningMessages := warnings; sync_createdAt := sync_createdAt j; sync_completedAt := Some now;
     sync_updatedAt := now |}.

Definition stamp_synced (now connectionID orgID : Z) (w : SyncWorld) : SyncWorld * bool :=
  if connection_in_org (sn_world w) connectionID orgID
  then ({| sn_world := sn_world w; sn_hosts := sn_hosts w;
           sn_columns := alter (fun c => {| cc_connectionType := cc_connectionType c; cc_config := cc_config c;
                                            cc_syncedAt := Some now |}) connectionID (sn_columns w) |}, true)
  else (w, false).

(** ** Upserts *)

Definition host_columns (d : RepoData) (autoCleanup : bool) : HostColumns :=
  {| hc_external_id := rd_ExternalID d; hc_codeHostUrl := rd_ExternalCodeHostURL d; hc_displayName := rd_DisplayName d;
     hc_isFork := rd_IsFork d; hc_isArchived := rd_IsArchived d; hc_isPublic := rd_IsPublic d;
     hc_isAutoCleanupDisabled := autoCleanup; hc_webUrl := rd_WebURL d; hc_imageUrl := rd_ImageURL d |}.

Definition inserted_repo (orgID now : Z) (d : RepoData) : SubjobTypes.Repo :=
  {| repo_orgId := orgID; repo_name := rd_Name d; repo_latestIndexingJobStatus := None;
     repo_cloneUrl := Some (rd_CloneURL d); repo_codeHostType := Some (rd_ExternalCodeHostType d);
     repo_defaultBranch := rd_DefaultBranch d; repo_metadata := Some (metadata_json (rd_Metadata d));
     repo_indexedAt := None; repo_indexedCommitHash := None; repo_updatedAt := now |}.

Definition updated_repo (now : Z) (d : RepoData) (r : SubjobTypes.Repo) : SubjobTypes.Repo :=
  {| repo_orgId := repo_orgId r; repo_name := rd_Name d; repo_latestIndexingJobStatus := repo_latestIndexingJobStatus r;
     repo_cloneUrl := Some (rd_CloneURL d); repo_codeHostType := Some (rd_ExternalCodeHostType d);
     repo_defaultBranch := rd_DefaultBranch d; repo_metadata := Some (metadata_json (rd_Metadata d));
     repo_indexedAt := repo_indexedAt r; repo_indexedCommitHash := repo_indexedCommitHash r; repo_updatedAt := now |}.

(** The row with the key (external_id, "external_codeHostUrl", "orgId"). *)
Definition same_external (orgID : Z) (d : RepoData) (w : SyncWorld) (kv : Z * HostColumns) : bool :=
  (hc_external_id kv.2 =s rd_ExternalID d) && (hc_codeHostUrl kv.2 =s rd_ExternalCodeHostURL d)
  && match db_repos (w_db (sn_world w)) !! kv.1 with Some r => repo_orgId r =? orgID | None => false end.

(** The unique key (name, "orgId"). *)
Definition name_taken (orgID repoID : Z) (name : string) (w : SyncWorld) : bool :=
  existsb (fun kv => negb (kv.1 =? repoID) && (repo_orgId kv.2 =? orgID) && (repo_name kv.2 =s name))
    (map_to_list (db_repos (w_db (sn_world w)))).

Definition put_repo (repoID : Z) (r : SubjobTypes.Repo) (h : HostColumns) (w : SyncWorld) : SyncWorld :=
  {| sn_world := set_w_db (set_repos (<[repoID := r]>) (w_db (sn_world w))) (sn_world w);
     sn_hosts := <[repoID := h]> (sn_hosts w); sn_columns := sn_columns w |}.

Definition duplicate_repo : gerror := EText "duplicate key value violates unique constraint".

Definition upsert_repo_row (newID orgID now : Z) (d : RepoData) (w : SyncWorld) : result gerror (SyncWorld * Z) :=
  match List.find (same_external orgID d w) (map_to_list (sn_hosts w)) with
  | Some (repoID, h) =>
      match db_repos (w_db (sn_world w)) !! repoID with
      | Some r => if name_taken orgID repoID (rd_Name d) w then Err duplicate_repo
                  else Ok (put_repo repoID (updated_repo now d r) (host_columns d (hc_isAutoCleanupDisabled h)) w, repoID)
      | None => Err duplicate_repo
      end
  | None =>
      match db_repos (w_db (sn_world w)) !! newID with
      | Some _ => Err duplicate_repo
      | None => if name_taken orgID newID (rd_Name d) w then Err duplicate_repo
                else Ok (put_repo newID (inserted_repo orgID now d)
                           (host_columns d (ptrBoolOrFalse (rd_IsAutoCleanupDisabled d))) w, newID)
      end
  end.

Definition set_links (f : list (Z * Z) -> list (Z * Z)) (w : World) : World :=
  {| w_db := w_db w; w_connections := w_connections w; w_repoToConnection := f (w_repoToConnection w);
     w_syncJobs := w_syncJobs w; w_queue := w_queue w |}.

Definition link_row (repoID connectionID : Z) (w : SyncWorld) : result gerror (SyncWorld * unit) :=
  match w_connections (sn_world w) !! connectionID, db_repos (w_db (sn_world w)) !! repoID with
  | Some _, Some _ =>
      Ok (with_world (set_links (fun l => if bool_decide ((repoID, connectionID) ∈ l) then l
                                          else l ++ [(repoID, connectionID)])) w, tt)
  | _, _ => Err (EText "insert violates foreign key constraint")
  end.

(** ** The handler *)

Section Handler.
Context {U : NetURL} {G : Globs} (api : HostAPIs) (slots : FetcherSlots).
Context (env : nat -> SyncEnv).

(** One statement. *)
Definition sync_call {A} (stmt : SyncEnv -> SyncWorld -> result gerror (SyncWorld * A)) (s : SyncState)
  : SyncState * result gerror A :=
  let '(n, w0) := s in
  let w := se_others (env n) w0 in
  match se_fault (env n) with
  | Some e => ((S n, w), Err e)
  | None => match stmt (env n) w with Ok (w', a) => ((S n, w'), Ok a) | Err e => ((S n, w), Err e) end
  end.

Definition markInProgress (jobID : string) (connectionID orgID : Z) (s : SyncState) : SyncState * result gerror unit :=
  match sync_call (fun ev w => Ok (update_sync_job jobID connectionID orgID
          (fun j => (sync_status j =s "PENDING") || (sync_status j =s "IN_PROGRESS")) (start_sync (se_now ev)) w)) s with
  | (s', Err e) => (s', Err e)
  | (s', Ok false) => (s', Err (EText ("job " +:+ quoted jobID +:+ " already in terminal state or missing")))
  | (s', Ok true) => (s', Ok tt)
  end.

(** The type and the text of the configuration. *)
Definition connection_row (connectionID orgID : Z) (w : SyncWorld) : result gerror (SyncWorld * (string * string)) :=
  match sn_columns w !! connectionID with
  | Some c => if connection_in_org (sn_world w) connectionID orgID
              then Ok (w, (cc_connectionType c, cc_config c)) else Err ErrNoRows
  | None => Err ErrNoRows
  end.

Definition loadConnection (connectionID orgID : Z) (s : SyncState) : SyncState * result gerror (string * string) :=
  match sync_call (fun _ => connection_row connectionID orgID) s with
  | (s', Err e) => (s', Err (EWrap "scan: " e ""))
  | (s', Ok c) => (s', Ok c)
  end.

Definition markFailed (jobID : string) (connectionID orgID : Z) (errMsg : string) (s : SyncState)
  : SyncState * result gerror unit :=
  match sync_call (fun ev w => Ok (update_sync_job jobID connectionID orgID (fun _ => true)
          (fail_sync (se_now ev) errMsg) w)) s with
  | (s', Err e) => (s', Err e)
  | (s', Ok _) => (s', Ok tt)
  end.

Definition markCompleted (jobID : string) (connectionID orgID : Z) (warnings : list string) (s : SyncState)
  : SyncState * result gerror unit :=
  match sync_call (fun ev w => Ok (update_sync_job jobID connectionID orgID (fun _ => true)
          (complete_sync (se_now ev) warnings) w)) s with
  | (s', Err e) => (s', Err e)
  | (s', Ok false) => (s', Err (EText ("job " +:+ quoted jobID +:+ " missing or mismatched connection")))
  | (s', Ok true) =>
      match sync_call (fun ev w => Ok (stamp_synced (se_now ev) connectionID orgID w)) s' with
      | (s'', Err e) => (s'', Err e)
      | (s'', Ok false) =>
          (s'', Err (EText ("connection " +:+ Itoa connectionID +:+ " missing in org " +:+ Itoa orgID)))
      | (s'', Ok true) => (s'', Ok tt)
      end
  end.

Fixpoint link_all (repoID : Z) (ids : list Z) (s : SyncState) : SyncState * result gerror unit :=
  match ids with
  | [] => (s, Ok tt)
  | cid :: rest =>
      match sync_call (fun _ => link_row repoID cid) s with
      | (s', Err e) => (s', Err (EWrap "RepoToConnection insert: " e ""))
      | (s', Ok _) => link_all repoID rest s'
      end
  end.

(** The marshalling of the metadata cannot fail. *)
Definition upsertRepo (orgID : Z) (d : RepoData) (s : SyncState) : SyncState * result gerror unit :=
  match sync_call (fun ev => upsert_repo_row (se_id ev) orgID (se_now ev) d) s with
  | (s', Err e) => (s', Err (EWrap "upsert: " e ""))
  | (s', Ok repoID) => link_all repoID (rd_ConnectionIDs d) s'
  end.

(** The id of the record that fails comes with its error. *)
Fixpoint upsert_all (orgID : Z) (records : list RepoData) (s : SyncState)
  : SyncState * result (string * gerror) unit :=
  match records with
  | [] => (s, Ok tt)
  | d :: rest =>
      match upsertRepo orgID d s with
      | (s', Err e) => (s', Err (rd_ExternalID d, e))
      | (s', Ok _) => upsert_all orgID rest s'
      end
  end.

(** Mark the job as failed, whatever that returns, and return [e]. *)
Definition fail_with (p : SyncPayload) (errMsg : string) (e : gerror) (s : SyncState) : SyncState * result gerror unit :=
  ((markFailed (sp_JobID p) (sp_ConnectionID p) (sp_OrgID p) errMsg s).1, Err e).

Definition handle_compiled (p : SyncPayload) (records : list RepoData) (warnings : list string) (s : SyncState)
  : SyncState * result gerror unit :=
  match upsert_all (sp_OrgID p) records s with
  | (s', Err (externalID, e)) =>
      fail_with p ("upsertRepo " +:+ externalID +:+ ": " +:+ err_text e) (EWrap "upsertRepo: " e "") s'
  | (s', Ok _) =>
      match markCompleted (sp_JobID p) (sp_ConnectionID p) (sp_OrgID p) warnings s' with
      | (s'', Err e) => (s'', Err (EWrap "markCompleted: " e ""))
      | (s'', Ok _) => (s'', Ok tt)
      end
  end.

Definition handle_loaded (p : SyncPayload) (connectionType config : string) (s : SyncState)
  : SyncState * result gerror unit :=
  match compile_host api slots connectionType config (sp_ConnectionID p) with
  | None =>
      let errMsg := "connectionType " +:+ quoted connectionType +:+ " not yet supported" in
      fail_with p errMsg (EText errMsg) s
  | Some (ConfigError e) =>
      let wrapped := EWrap (connectionType +:+ " config parse: ") e "" in
      fail_with p (err_text wrapped) wrapped s
  | Some (Compiled (Err e)) => fail_with p (err_text e) (EWrap "compile: " e "") s
  | Some (Compiled (Ok (records, warnings))) => handle_compiled p records warnings s
  end.

(** [configured]: the database is not nil. *)
Definition Handle (configured : bool) (raw : string) (s : SyncState) : SyncState * result gerror unit :=
  if negb configured then (s, Err (EText "connectionmanager: handler not configured"))
  else match UnmarshalSync raw with
  | Err e => (s, Err (EWrap "payload: " e ""))
  | Ok p =>
      match markInProgress (sp_JobID p) (sp_ConnectionID p) (sp_OrgID p) s with
      | (s1, Err e) => (s1, Err (EWrap "markInProgress: " e ""))
      | (s1, Ok _) =>
          match loadConnection (sp_ConnectionID p) (sp_OrgID p) s1 with
          | (s2, Err e) => fail_with p (err_text e) (EWrap "loadConnection: " e "") s2
          | (s2, Ok (connectionType, config)) => handle_loaded p connectionType config s2
          end
      end
  end.
End Handler.
