(* ===== verification/ConnectionSyncFacts.v ===== *)
(** The connection-sync worker: the records that the compile paths of the code hosts
    make (CodeHosts, OtherHosts), what a run may change, how it ends its job, and what
    it overwrites. *)
From S2P Require Import Prelude GoStd GoStdFacts GoJSON GoText SubjobTypes SubjobStore SubjobCodec Scheduler.
From S2P Require Import RepoIndexDB RepoTask CoreDB Disk CodeGraphWriter CodeHosts OtherHosts ConnectionSync.
From S2P Require RepoIndexStatus.
Definition config_value (key : string) (d : RepoData) : option string :=
  snd <$> List.find (fun kv => kv.1 =s key) (md_GitConfig (rd_Metadata d)).

(** The git configuration says the same as the columns. *)
Definition config_agrees (d : RepoData) : Prop :=
  config_value "zoekt.name" d = Some (rd_Name d) /\
  config_value "zoekt.display-name" d = Some (rd_DisplayName d) /\
  config_value "zoekt.fork" d = Some (marshalBoolValue (rd_IsFork d)) /\
  config_value "zoekt.archived" d = Some (marshalBoolValue (rd_IsArchived d)) /\
  config_value "zoekt.public" d = Some (marshalBoolValue (rd_IsPublic d)).

(** The values of the enumeration of the column, migration 0011. *)
Definition CodeHostType : list string :=
  ["github"; "gitlab"; "gitea"; "gerrit"; "bitbucket-server"; "bitbucket-cloud"; "generic-git-host"; "azuredevops"].

(** What every record of a connection has; only a local repository has no git
    configuration, and it is not public. *)
Definition record_ok (connectionID : Z) (d : RepoData) : Prop :=
  rd_ConnectionIDs d = [connectionID] /\
  rd_OrgID d = SingleTenantOrgID /\
  existsb (String.eqb (rd_ExternalCodeHostType d)) CodeHostType = true /\
  rd_IsAutoCleanupDisabled d = None /\
  md_IndexedRevisions (rd_Metadata d) = [] /\
  md_ManualIndexDisabled (rd_Metadata d) = None /\
  (config_agrees d \/
   md_GitConfig (rd_Metadata d) = [] /\ HasPrefix (rd_CloneURL d) "file://" = true /\ rd_IsPublic d = false).

Definition records_ok (connectionID : Z) (r : result gerror (list RepoData * list string)) : Prop :=
  match r with Ok (records, _) => Forall (record_ok connectionID) records | Err _ => True end.

Section Records.
Context {U : NetURL} {G : Globs} (connectionID : Z).

Lemma map_records {R} (create : R -> RepoData) l :
  (forall r, record_ok connectionID (with_connection connectionID (create r))) ->
  Forall (record_ok connectionID) (map (fun r => with_connection connectionID (create r)) l).
Proof. intros H. apply Forall_map, Forall_true. intros r. apply H. Qed.

Lemma compile_each_records {R} (create : R -> result gerror RepoData) skipped l :
  (forall r d, create r = Ok d -> record_ok connectionID (with_connection connectionID d)) ->
  Forall (record_ok connectionID) (compile_each create skipped connectionID l).1.
Proof.
  intros H. induction l as [|r l IH]; [by constructor|]. cbn [compile_each].
  destruct (compile_each _ _ _ l) as [records warnings]. destruct (create r) as [d|e] eqn:E; [|done].
  constructor; [by apply (H r)|done].
Qed.

Ltac remote_record := repeat (split; [done|]); by left.

Lemma cloud_record r i d :
  CreateBitbucketCloudRepoRecord r i 0 = Ok d -> record_ok connectionID (with_connection connectionID d).
Proof.
  unfold CreateBitbucketCloudRepoRecord. destruct (_ =s _); [done|]. destruct (bc_Links r) as [html|]; [|done].
  destruct (CutByte _ _) as [[ws slug]|]; [|done]. destruct (non_empty html); [|done]. intros [= <-]. remote_record.
Qed.

Lemma server_record r i access d :
  CreateBitbucketServerRepoRecord r i 0 access = Ok d -> record_ok connectionID (with_connection connectionID d).
Proof.
  unfold CreateBitbucketServerRepoRecord. destruct (non_empty (bs_Project r)); [|done].
  destruct (bs_Links r) as [links|]; [|done]. destruct (_ =s _); [done|].
  destruct (non_empty _); [|done]. intros [= <-]. remote_record.
Qed.

Lemma azure_record r i d :
  CreateAzureDevOpsRepoRecord r i 0 = Ok d -> record_ok connectionID (with_connection connectionID d).
Proof.
  unfold CreateAzureDevOpsRepoRecord. destruct (az_Project r); [|done].
  do 2 (destruct (_ =s _); [done|]). intros [= <-]. remote_record.
Qed.

Lemma local_record_ok disk cfg p d :
  local_record disk cfg connectionID p = inl d -> record_ok connectionID d.
Proof.
  unfold local_record. do 2 (destruct (negb _); [done|]). destruct (_ =s _); [done|]. intros [= <-].
  repeat (split; [done|]). right. split; [done|]. split; [|done]. exact (HasPrefix_app "file://" p).
Qed.

Lemma local_records_ok disk ctx cfg paths n repos warnings :
  Forall (record_ok connectionID) repos ->
  records_ok connectionID (local_records disk ctx cfg connectionID n paths repos warnings).
Proof.
  revert n repos warnings. induction paths as [|p paths IH]; intros n repos warnings Hr; [done|]. simpl.
  destruct (ctx n); [done|]. destruct (local_record _ _ _ p) as [d|w] eqn:E; apply IH; [|done].
  apply Forall_app. split; [done|]. constructor; [by eapply local_record_ok|done].
Qed.

Lemma generic_records get Glob disk ctx cfg :
  records_ok connectionID (CompileGenericGitHostFromConfig get Glob disk ctx cfg connectionID).
Proof.
  unfold CompileGenericGitHostFromConfig. destruct (_ =s ""); [done|]. destruct (url_Parse _) as [u|]; [|done].
  destruct (_ =s "file").
  - unfold compileGenericGitFile. destruct (_ =s ""); [by constructor|].
    destruct (Glob disk _) as [[|p ps]|]; [by constructor| |done].
    pose proof (local_records_ok disk ctx cfg (p :: ps) 0 [] [] (Forall_nil_2 _)) as H.
    destruct (local_records _ _ _ _ _ _ _ _) as [[repos ws]|]; done.
  - destruct (_ || _); [|done]. unfold compileGenericGitURL. destruct (negb _); [by constructor|].
    constructor; [|done]. remote_record.
Qed.

Context (api : HostAPIs) (slots : FetcherSlots).

Lemma fetched_records {R} (fetched : result gerror (list R * list string)) compile :
  (forall rs, Forall (record_ok connectionID) (compile rs)) ->
  records_ok connectionID (let? f := fetched in Ok (compile f.1, f.2)).
Proof. intros H. destruct fetched; [apply H|done]. Qed.

Lemma bitbucket_records cfg : records_ok connectionID (CompileBitbucketFromConfig slots cfg connectionID).
Proof.
  unfold CompileBitbucketFromConfig. destruct (_ && _); [done|]. destruct (_ =s "cloud").
  - destruct (bitbucketCloudFetcher slots) as [f|]; [|done]. destruct (f cfg) as [[rs ws]|]; [|done]. cbn [rbind fst snd].
    pose proof (compile_each_records (fun r => CreateBitbucketCloudRepoRecord r
      (at_host "https://bitbucket.org" (compile_input (ResolveBitbucketHostURL cfg) (bbc_Revisions cfg))) 0)
      (fun r e => "bitbucket-cloud repo " +:+ bc_FullName r +:+ " skipped: " +:+ err_text e) rs
      (fun r d => cloud_record r _ d)) as H.
    unfold CompileBitbucketCloudConfig. destruct (compile_each _ _ _ _); done.
  - destruct (bitbucketServerFetcher slots) as [f|]; [|done]. destruct (f cfg) as [[[rs access] ws]|]; [|done].
    cbn [rbind]. unfold CompileBitbucketServerConfig.
    destruct (compile_each _ _ _ rs) as [records cw] eqn:E.
    change (Forall (record_ok connectionID) (records, cw).1). rewrite <- E.
    apply compile_each_records. intros r d. apply server_record.
Qed.

Lemma azure_records cfg : records_ok connectionID (CompileAzureDevOpsFromConfig slots cfg connectionID).
Proof.
  unfold CompileAzureDevOpsFromConfig. destruct (azureDevOpsFetcher slots) as [f|]; [|done].
  destruct (f cfg) as [[rs ws]|]; [|done]. cbn [rbind fst snd]. unfold CompileAzureDevOpsConfig.
  destruct (compile_each _ _ _ rs) as [records cw] eqn:E.
  change (Forall (record_ok connectionID) (records, cw).1). rewrite <- E.
  apply compile_each_records. intros r d. apply azure_record.
Qed.

Lemma compile_host_records ty config r :
  compile_host api slots ty config connectionID = Some (Compiled r) -> records_ok connectionID r.
Proof.
  unfold compile_host, with_config.
  destruct (ty =s "github"); [destruct (decode_struct _ _ _); intros [= <-]; apply fetched_records; intros; apply map_records; intros; remote_record|].
  destruct (ty =s "gitlab"); [destruct (decode_struct _ _ _); intros [= <-]; apply fetched_records; intros; apply map_records; intros; remote_record|].
  destruct (ty =s "gitea").
  { destruct (decode_struct _ _ _) as [cfg|]; intros [= <-]. unfold CompileGiteaFromConfig.
    destruct (giteaFetcher slots); [|done]. apply fetched_records. intros. apply map_records. intros. remote_record. }
  destruct (ty =s "bitbucket"); [destruct (decode_struct _ _ _); intros [= <-]; apply bitbucket_records|].
  destruct (ty =s "gerrit").
  { destruct (decode_struct _ _ _) as [cfg|]; intros [= <-]. unfold CompileGerritFromConfig. destruct (_ =s ""); [done|].
    destruct (gerritFetcher slots); [|done]. apply fetched_records. intros. apply map_records. intros. remote_record. }
  destruct (ty =s "azuredevops"); [destruct (decode_struct _ _ _); intros [= <-]; apply azure_records|].
  destruct (ty =s "git"); [|done]. destruct (decode_struct _ _ _); intros [= <-]. apply generic_records.
Qed.
End Records.


(** The connection-sync worker (ConnectionSync): it stays in its organisation, and how
    a run ends. *)
Import connectionsync.

(** ** Isolation *)

Definition repos_of (w : SyncWorld) : gmap Z SubjobTypes.Repo := db_repos (w_db (sn_world w)).

(** A change that concerns the organisation [O] and the links of the connection [c]. *)
Record within (O c : Z) (w w' : SyncWorld) : Prop := {
  in_repos id r : repos_of w !! id = Some r -> repo_orgId r <> O ->
    repos_of w' !! id = Some r /\ sn_hosts w' !! id = sn_hosts w !! id;
  in_connections id cn : w_connections (sn_world w) !! id = Some cn -> conn_orgId cn <> O ->
    w_connections (sn_world w') !! id = Some cn /\ sn_columns w' !! id = sn_columns w !! id;
  in_jobs id j cn : w_syncJobs (sn_world w) !! id = Some j ->
    w_connections (sn_world w) !! sync_connectionId j = Some cn -> conn_orgId cn <> O ->
    w_syncJobs (sn_world w') !! id = Some j;
  in_links r c' cn : c' <> c -> w_connections (sn_world w) !! c' = Some cn -> conn_orgId cn <> O ->
    (r, c') ∈ w_repoToConnection (sn_world w') <-> (r, c') ∈ w_repoToConnection (sn_world w)
}.

#[export] Instance within_preorder O c : PreOrder (within O c).
Proof.
  split; [by intros w; split|]. intros w1 w2 w3 [R1 C1 J1 L1] [R2 C2 J2 L2]. split.
  - intros id r H Ho. destruct (R1 id r H Ho) as [H2 E2]. destruct (R2 id r H2 Ho) as [H3 E3]. split; [done|congruence].
  - intros id cn H Ho. destruct (C1 id cn H Ho) as [H2 E2]. destruct (C2 id cn H2 Ho) as [H3 E3]. split; [done|congruence].
  - intros id j cn H Hc Ho. apply (J2 id j cn); [by eapply J1| |done]. by apply (C1 _ cn Hc Ho).
  - intros r c' cn Hne Hc Ho. rewrite (L2 r c' cn Hne); [by apply (L1 r c' cn)|by apply (C1 _ cn Hc Ho)|done].
Qed.

Lemma connection_in_org_spec w c O :
  connection_in_org w c O = true <-> exists cn, w_connections w !! c = Some cn /\ conn_orgId cn = O.
Proof.
  unfold connection_in_org. destruct (w_connections w !! c) as [cn|].
  - rewrite Z.eqb_eq. split; [by intros <-; eauto|]. by intros (? & [= <-] & ?).
  - split; [done|]. by intros (? & ? & _).
Qed.

Lemma update_sync_job_within job c O guard upd w w' b :
  update_sync_job job c O guard upd w = (w', b) -> within O c w w'.
Proof.
  unfold update_sync_job. destruct (w_syncJobs (sn_world w) !! job) as [j|] eqn:Ej; [|by intros [= <- <-]].
  destruct (_ && _ && _) eqn:E; [|by intros [= <- <-]]. intros [= <- <-].
  apply andb_true_iff in E as [[Hc%Z.eqb_eq _]%andb_true_iff (cn & Hcn & Ho)%connection_in_org_spec].
  split; [done|done| |done]. intros id j' cn' H H' Ho'. simpl. destruct (decide (id = job)) as [->|Hne].
  - rewrite Ej in H. injection H as <-. rewrite Hc, Hcn in H'. congruence.
  - by rewrite lookup_insert_ne.
Qed.

Lemma stamp_synced_within now c O w w' b : stamp_synced now c O w = (w', b) -> within O c w w'.
Proof.
  unfold stamp_synced. destruct (connection_in_org _ c O) eqn:E; [|by intros [= <- <-]]. intros [= <- <-].
  apply connection_in_org_spec in E as (cn & Hcn & Ho).
  split; [done| |done|done]. intros id cn' H Ho'. split; [done|]. simpl.
  apply lookup_alter_ne. intros ->. congruence.
Qed.

Lemma put_repo_within O c id r h w :
  (forall r0, repos_of w !! id = Some r0 -> repo_orgId r0 = O) -> within O c w (put_repo id r h w).
Proof.
  intros H. split; [|done|done|done]. intros id' r' Hr Ho. simpl.
  assert (id' <> id) as Hne by (intros ->; apply Ho, H, Hr).
  unfold repos_of. simpl. by rewrite !lookup_insert_ne.
Qed.

(** A row with the key of [d] in [orgID] is a repository of [orgID]. *)
Lemma same_external_spec O d w id h :
  same_external O d w (id, h) = true ->
  hc_external_id h = rd_ExternalID d /\ hc_codeHostUrl h = rd_ExternalCodeHostURL d /\
  exists r, repos_of w !! id = Some r /\ repo_orgId r = O.
Proof.
  unfold same_external. cbn [fst snd]. rewrite !andb_true_iff, !str_eqb_spec. intros [[H1 H2] H3].
  split; [done|]. split; [done|]. unfold repos_of. destruct (db_repos _ !! id) as [r|]; [|done].
  apply Z.eqb_eq in H3. eauto.
Qed.

(** What an upsert does: the row it returns, and the repository there was. *)
Lemma upsert_repo_row_spec newID O now d w w' id :
  upsert_repo_row newID O now d w = Ok (w', id) ->
  exists r h, w' = put_repo id r h w /\ repo_orgId r = O /\
    hc_external_id h = rd_ExternalID d /\ hc_codeHostUrl h = rd_ExternalCodeHostURL d /\
    repo_name r = rd_Name d /\ repo_cloneUrl r = Some (rd_CloneURL d) /\
    repo_metadata r = Some (metadata_json (rd_Metadata d)) /\
    ((repos_of w !! id = None /\ List.find (same_external O d w) (map_to_list (sn_hosts w)) = None) \/
     exists r0 h0, repos_of w !! id = Some r0 /\ repo_orgId r0 = O /\ sn_hosts w !! id = Some h0 /\
       hc_external_id h0 = rd_ExternalID d /\ hc_codeHostUrl h0 = rd_ExternalCodeHostURL d /\
       r = updated_repo now d r0).
Proof.
  unfold upsert_repo_row. destruct (List.find _ _) as [[id0 h0]|] eqn:F.
  - apply List.find_some in F as [Hin Hs]. apply list_elem_of_In, elem_of_map_to_list in Hin.
    apply same_external_spec in Hs as (H1 & H2 & r0 & Hr & Ho). unfold repos_of in Hr. rewrite Hr.
    destruct (name_taken _ _ _ _); [done|]. intros [= <- <-].
    eexists _, _. split; [done|]. split; [done|]. do 5 (split; [done|]). right. exists r0, h0. done.
  - destruct (db_repos (w_db (sn_world w)) !! newID) eqn:Hn; [done|]. destruct (name_taken _ _ _ _); [done|].
    intros [= <- <-]. eexists _, _. do 7 (split; [done|]). by left.
Qed.

Lemma upsert_within newID O c now d w w' id : upsert_repo_row newID O now d w = Ok (w', id) -> within O c w w'.
Proof.
  intros H. apply upsert_repo_row_spec in H as (r & h & -> & _ & _ & _ & _ & _ & _ & Hold).
  apply put_repo_within. intros r1 Hr. destruct Hold as [[Hn _]|(r0 & h0 & Hr0 & Ho & _)]; congruence.
Qed.

Lemma link_row_within O c id w w' u : link_row id c w = Ok (w', u) -> within O c w w'.
Proof.
  unfold link_row. destruct (w_connections _ !! c) as [?|]; [|done].
  destruct (db_repos _ !! id) as [?|]; [|done]. intros [= <- <-].
  split; [done|done|done|]. intros rid c' cn Hne _ _. simpl. destruct (bool_decide _); [done|].
  rewrite elem_of_app, list_elem_of_singleton. naive_solver.
Qed.

Section Isolation.
Context {U : NetURL} {G : Globs} (api : HostAPIs) (slots : FetcherSlots) (env : nat -> SyncEnv) (O c : Z).
Hypothesis Hothers : forall n w, within O c w (se_others (env n) w).

Lemma sync_call_within {A} (stmt : SyncEnv -> SyncWorld -> result gerror (SyncWorld * A)) s s' r :
  (forall ev w w' a, stmt ev w = Ok (w', a) -> within O c w w') ->
  sync_call env stmt s = (s', r) -> within O c s.2 s'.2.
Proof.
  intros Hs. destruct s as [n w]. unfold sync_call.
  destruct (se_fault (env n)); [by intros [= <- <-]; apply Hothers|].
  destruct (stmt _ _) as [[w' a]|e] eqn:E; intros [= <- <-]; [|by apply Hothers].
  etrans; [apply Hothers|by eapply Hs].
Qed.

Lemma markFailed_within job msg s s' r : markFailed env job c O msg s = (s', r) -> within O c s.2 s'.2.
Proof.
  unfold markFailed. destruct (sync_call _ _ s) as [s1 [b|e]] eqn:E; intros [= <- <-];
    (eapply sync_call_within, E; intros ev w w' a [= H]; by eapply update_sync_job_within).
Qed.

Lemma link_all_within id ids s s' r :
  Forall (eq c) ids -> link_all env id ids s = (s', r) -> within O c s.2 s'.2.
Proof.
  intros H. revert s. induction H as [|x ids <- H IH]; intros s; simpl; [by intros [= <- <-]|].
  destruct (sync_call _ _ s) as [s1 [u|e]] eqn:E.
  - intros H'. etrans; [|by eapply IH]. eapply sync_call_within, E. intros ev w w' a. apply link_row_within.
  - intros [= <- <-]. eapply sync_call_within, E. intros ev w w' a. apply link_row_within.
Qed.

Lemma upsert_all_within records s s' r :
  Forall (record_ok c) records -> upsert_all env O records s = (s', r) -> within O c s.2 s'.2.
Proof.
  intros H. revert s. induction H as [|d records Hd H IH]; intros s; simpl; [by intros [= <- <-]|].
  assert (forall t q, upsertRepo env O d s = (t, q) -> within O c s.2 t.2) as Hu.
  { unfold upsertRepo. intros t q. destruct Hd as [-> _].
    destruct (sync_call _ _ s) as [s1 [id|e]] eqn:E.
    - intros H'. etrans; [|eapply link_all_within, H'; by repeat constructor].
      eapply sync_call_within, E. intros ev w w' a. apply upsert_within.
    - intros [= <- <-]. eapply sync_call_within, E. intros ev w w' a. apply upsert_within. }
  destruct (upsertRepo _ _ _ s) as [s1 [u|e]] eqn:E; intros H'; [etrans; [by eapply Hu|by eapply IH]|].
  injection H' as <- <-. by eapply Hu.
Qed.

Lemma fail_with_within p msg e s s' r :
  sp_ConnectionID p = c -> sp_OrgID p = O -> fail_with env p msg e s = (s', r) -> within O c s.2 s'.2.
Proof.
  intros Hc Ho. unfold fail_with. rewrite Hc, Ho. destruct (markFailed _ _ _ _ _ s) as [s1 q] eqn:E. intros [= <- <-].
  by eapply markFailed_within.
Qed.

Lemma markCompleted_within job warnings s s' r :
  markCompleted env job c O warnings s = (s', r) -> within O c s.2 s'.2.
Proof.
  unfold markCompleted. destruct (sync_call _ _ s) as [s1 q] eqn:E1.
  apply sync_call_within in E1; [|intros ev w w' a [= H]; by eapply update_sync_job_within].
  destruct q as [[|]|e]; [|by intros [= <- <-]..].
  destruct (sync_call _ _ s1) as [s2 q] eqn:E2.
  apply sync_call_within in E2; [|intros ev w w' a [= H]; by eapply stamp_synced_within].
  intros H. assert (s' = s2) as -> by (destruct q as [[|]|e]; by injection H). by etrans.
Qed.

Lemma handle_loaded_within p ty config s s' r :
  sp_ConnectionID p = c -> sp_OrgID p = O ->
  handle_loaded api slots env p ty config s = (s', r) -> within O c s.2 s'.2.
Proof.
  intros Hc Ho. unfold handle_loaded. rewrite Hc.
  destruct (compile_host _ _ _ _ _) as [[e|[[records warnings]|e]]|] eqn:E; [by apply fail_with_within| |by apply fail_with_within..].
  apply compile_host_records in E. unfold handle_compiled. rewrite Hc, Ho.
  destruct (upsert_all _ _ _ s) as [s1 q] eqn:Eu. apply upsert_all_within in Eu; [|done].
  destruct q as [u|[id e]].
  - destruct (markCompleted _ _ _ _ _ s1) as [s2 q] eqn:Em. apply markCompleted_within in Em.
    intros H. assert (s' = s2) as -> by (destruct q; by injection H). by etrans.
  - intros H. etrans; [done|]. by eapply fail_with_within.
Qed.
End Isolation.

(** C26: Whatever the host answers and whatever fails: a run for a payload of the organisation
    [O] and the connection [c], while the other sessions stay within [O], changes no
    repository, connection, sync job or link of another organisation; and for a
    connection of another organisation it ends with an error after one statement that
    changed nothing. *)
Theorem sync_isolated {U : NetURL} {G : Globs} (api : HostAPIs) (slots : FetcherSlots) (env : nat -> SyncEnv)
    configured raw p n w n' w' r :
  UnmarshalSync raw = Ok p ->
  (forall k v, within (sp_OrgID p) (sp_ConnectionID p) v (se_others (env k) v)) ->
  Handle api slots env configured raw (n, w) = ((n', w'), r) ->
  within (sp_OrgID p) (sp_ConnectionID p) w w' /\
  (forall cn, configured = true -> w_connections (sn_world w) !! sp_ConnectionID p = Some cn ->
    conn_orgId cn <> sp_OrgID p -> w' = se_others (env n) w /\ exists e, r = Err e).
Proof.
  intros Hp Hothers. unfold Handle. rewrite Hp. destruct configured; simpl; [|by intros [= <- <- <-]].
  destruct (markInProgress _ _ _ _ _) as [s1 q] eqn:E1. intros H. split.
  - unfold markInProgress in E1. destruct (sync_call _ _ (n, w)) as [t q'] eqn:Et.
    eapply sync_call_within in Et; [|done|intros ev v v' a [= Hu]; by eapply update_sync_job_within].
    assert (t = s1) as -> by (destruct q' as [[|]|]; by injection E1). clear E1.
    destruct q as [u|e]; [|by injection H as -> <-].
    destruct (loadConnection _ _ _ s1) as [s2 q] eqn:E2. unfold loadConnection in E2.
    destruct (sync_call _ _ s1) as [t q''] eqn:Et2.
    eapply sync_call_within in Et2; [|done|]; last first.
    { intros ev v v' a. unfold connection_row. destruct (sn_columns v !! _); [|done].
      destruct (connection_in_org _ _ _); [|done]. by intros [= <- <-]. }
    assert (t = s2) as -> by (destruct q''; by injection E2). clear E2.
    etrans; [exact Et|]. etrans; [exact Et2|].
    destruct q as [[ty config]|e]; [by eapply (handle_loaded_within _ _ _ _ _ Hothers) in H|by eapply fail_with_within in H].
  - intros cn _ Hcn Ho. destruct (in_connections _ _ _ _ (Hothers n w) _ _ Hcn Ho) as [Hcn' _].
    unfold markInProgress, sync_call in E1. destruct (se_fault (env n)); [injection E1 as <- <-; injection H as <- <- <-; eauto|].
    assert (connection_in_org (sn_world (se_others (env n) w)) (sp_ConnectionID p) (sp_OrgID p) = false) as Hf.
    { apply not_true_is_false. intros (cn' & Hcn'' & Ho')%connection_in_org_spec. congruence. }
    unfold update_sync_job in E1. rewrite Hf in E1.
    destruct (w_syncJobs _ !! _) as [j|]; rewrite ?andb_false_r in E1; injection E1 as <- <-; injection H as <- <- <-; eauto.
Qed.

(** ** The end of a run *)

(** A run that no driver failure and no other session meets. *)
Definition alone (env : nat -> SyncEnv) : Prop := forall n, se_fault (env n) = None /\ forall w, se_others (env n) w = w.

(** What the upserts leave alone. *)
Definition same_jobs (w w' : SyncWorld) : Prop :=
  w_syncJobs (sn_world w') = w_syncJobs (sn_world w) /\ w_connections (sn_world w') = w_connections (sn_world w) /\
  sn_columns w' = sn_columns w.

#[export] Instance same_jobs_preorder : PreOrder same_jobs.
Proof. split; [done|]. intros w1 w2 w3 (H1 & H2 & H3) (H4 & H5 & H6). repeat split; congruence. Qed.

Definition same_key (d d' : RepoData) : Prop :=
  rd_ExternalID d = rd_ExternalID d' /\ rd_ExternalCodeHostURL d = rd_ExternalCodeHostURL d'.

(** The repository [id] of [O] holds the record [d] and is linked to [c]. *)
Record holds_record (O c : Z) (w : SyncWorld) (id : Z) (d : RepoData) : Prop := {
  hr_row : exists r h, repos_of w !! id = Some r /\ sn_hosts w !! id = Some h /\ repo_orgId r = O /\
    hc_external_id h = rd_ExternalID d /\ hc_codeHostUrl h = rd_ExternalCodeHostURL d /\
    repo_name r = rd_Name d /\ repo_cloneUrl r = Some (rd_CloneURL d) /\
    repo_metadata r = Some (metadata_json (rd_Metadata d));
  hr_link : (id, c) ∈ w_repoToConnection (sn_world w)
}.

(** Every record of [done] has a repository, which holds it or a later record with its
    key. *)
Definition all_held (O c : Z) (w : SyncWorld) (synced : list RepoData) : Prop :=
  forall d, d ∈ synced -> exists id d', d' ∈ synced /\ same_key d d' /\ holds_record O c w id d'.

Definition job_of (w : SyncWorld) (job : string) : option SyncJob := w_syncJobs (sn_world w) !! job.

Section Alone.
Context {U : NetURL} {G : Globs} (api : HostAPIs) (slots : FetcherSlots) (env : nat -> SyncEnv).
Hypothesis Halone : alone env.

Lemma sync_call_alone {A} (stmt : SyncEnv -> SyncWorld -> result gerror (SyncWorld * A)) n w :
  sync_call env stmt (n, w) =
  match stmt (env n) w with Ok (w', a) => ((S n, w'), Ok a) | Err e => ((S n, w), Err e) end.
Proof. unfold sync_call. destruct (Halone n) as [-> Ho]. by rewrite Ho. Qed.

(** The job is one of the connection, and the connection is one of the organisation. *)
Definition claimed (w : SyncWorld) (p : SyncPayload) : Prop :=
  connection_in_org (sn_world w) (sp_ConnectionID p) (sp_OrgID p) = true /\
  exists j, job_of w (sp_JobID p) = Some j /\ sync_connectionId j = sp_ConnectionID p.

Lemma claimed_same w w' p : same_jobs w w' -> claimed w p -> claimed w' p.
Proof.
  intros (Hj & Hc & _) [H1 H2]. unfold claimed, job_of, connection_in_org in *. by rewrite Hc, Hj.
Qed.

Lemma update_claimed w p upd :
  claimed w p -> exists j, job_of w (sp_JobID p) = Some j /\
    update_sync_job (sp_JobID p) (sp_ConnectionID p) (sp_OrgID p) (fun _ => true) upd w =
    (with_world (set_w_syncJobs (<[sp_JobID p := upd j]>)) w, true).
Proof.
  intros (Hc & j & Hj & Hid). exists j. split; [done|]. unfold update_sync_job. unfold job_of in Hj.
  by rewrite Hj, Hid, Z.eqb_refl, Hc.
Qed.

Lemma fail_with_alone p msg e n w :
  claimed w p -> exists w' j, fail_with env p msg e (n, w) = ((S n, w'), Err e) /\
    job_of w' (sp_JobID p) = Some j /\ sync_status j = "FAILED" /\ sync_errorMessage j = Some msg.
Proof.
  intros H. unfold fail_with, markFailed. rewrite sync_call_alone.
  destruct (update_claimed w p (fail_sync (se_now (env n)) msg) H) as (j & Hj & ->).
  eexists _, _. split; [done|]. split; [apply lookup_insert_eq|done].
Qed.

Definition linked (id c : Z) (w : SyncWorld) : SyncWorld :=
  with_world (set_links (fun l => if bool_decide ((id, c) ∈ l) then l else l ++ [(id, c)])) w.

(** The new world of an upsert that succeeds. *)
Definition upserted (O c : Z) (d : RepoData) (w w' : SyncWorld) (id : Z) : Prop :=
  exists r h, w' = linked id c (put_repo id r h w) /\ repo_orgId r = O /\
    hc_external_id h = rd_ExternalID d /\ hc_codeHostUrl h = rd_ExternalCodeHostURL d /\
    repo_name r = rd_Name d /\ repo_cloneUrl r = Some (rd_CloneURL d) /\
    repo_metadata r = Some (metadata_json (rd_Metadata d)) /\
    ((repos_of w !! id = None /\ List.find (same_external O d w) (map_to_list (sn_hosts w)) = None) \/
     exists now r0 h0, repos_of w !! id = Some r0 /\ repo_orgId r0 = O /\ sn_hosts w !! id = Some h0 /\
       hc_external_id h0 = rd_ExternalID d /\ hc_codeHostUrl h0 = rd_ExternalCodeHostURL d /\
       r = updated_repo now d r0).

Lemma upsertRepo_alone O c d n w n' w' r :
  record_ok c d -> upsertRepo env O d (n, w) = ((n', w'), r) ->
  same_jobs w w' /\ (r = Ok tt -> exists id, upserted O c d w w' id).
Proof.
  intros [Hc _]. unfold upsertRepo. rewrite sync_call_alone, Hc.
  destruct (upsert_repo_row _ _ _ _ w) as [[w1 id]|e] eqn:E; [|by intros [= <- <- <-]].
  apply upsert_repo_row_spec in E as (r1 & h1 & -> & Ho & H1 & H2 & H3 & H4 & H5 & Hold).
  cbn [link_all]. rewrite sync_call_alone. unfold link_row.
  destruct (w_connections _ !! c) as [?|]; [|by intros [= <- <- <-]].
  destruct (db_repos _ !! id) as [row|]; [|by intros [= <- <- <-]]. cbn [link_all]. intros [= <- <- <-].
  split; [done|]. intros _. exists id, r1, h1. do 7 (split; [done|]).
  destruct Hold as [?|(r0 & h0 & ?)]; [by left|]. right. by eexists _, r0, h0.
Qed.

Lemma upserted_holds O c d w w' id : upserted O c d w w' id -> holds_record O c w' id d.
Proof.
  intros (r & h & -> & Hrow). destruct Hrow as (Ho & H1 & H2 & H3 & H4 & H5 & _). split.
  - exists r, h. unfold repos_of. cbn. rewrite !lookup_insert_eq. done.
  - cbn. case_bool_decide as Hb; [done|]. apply elem_of_app. right. by apply list_elem_of_singleton.
Qed.

Lemma upserted_keeps O c d w w' id id0 d0 :
  upserted O c d w w' id -> holds_record O c w id0 d0 ->
  exists d', (d' = d0 \/ d' = d) /\ same_key d0 d' /\ holds_record O c w' id0 d'.
Proof.
  intros Hu [(r0 & h0 & Hr & Hh & Ho & K1 & K2 & Hrow) Hl]. destruct (decide (id0 = id)) as [->|Hne].
  - exists d. split; [by right|]. split; [|by apply (upserted_holds _ _ _ w)].
    destruct Hu as (r & h & _ & _ & _ & _ & _ & _ & _ & [[Hn _]|(now & r1 & h1 & _ & _ & Hh' & K1' & K2' & _)]); [congruence|].
    rewrite Hh in Hh'. injection Hh' as <-. split; congruence.
  - exists d0. split; [by left|]. split; [done|]. destruct Hu as (r & h & -> & _). split.
    + exists r0, h0. unfold repos_of. cbn. rewrite !lookup_insert_ne by done. done.
    + cbn. destruct (bool_decide _); [done|]. apply elem_of_app. by left.
Qed.

Lemma all_held_step O c d w w' id synced :
  upserted O c d w w' id -> all_held O c w synced -> all_held O c w' (synced ++ [d]).
Proof.
  intros Hu Hall d0 [Hd0|Hd0%list_elem_of_singleton]%elem_of_app.
  - destruct (Hall d0 Hd0) as (id0 & d1 & Hd1 & Hk & Hh).
    destruct (upserted_keeps _ _ _ _ _ _ _ _ Hu Hh) as (d' & Hd' & Hk' & Hh'). exists id0, d'. split_and!; [| |done].
    + apply elem_of_app. destruct Hd' as [->| ->]; [by left|]. right. by apply list_elem_of_singleton.
    + destruct Hk, Hk'. split; congruence.
  - subst d0. exists id, d. split_and!; [|done|by eapply upserted_holds]. apply elem_of_app. right.
    by apply list_elem_of_singleton.
Qed.

Lemma upsert_all_alone O c records synced n w n' w' r :
  Forall (record_ok c) records -> upsert_all env O records (n, w) = ((n', w'), r) -> all_held O c w synced ->
  same_jobs w w' /\ (r = Ok tt -> all_held O c w' (synced ++ records)).
Proof.
  intros H. revert synced n w. induction H as [|d records Hd H IH]; intros synced n w; simpl.
  { intros [= <- <- <-] Ha. split; [done|]. intros _. by rewrite app_nil_r. }
  destruct (upsertRepo _ _ _ _) as [[n1 w1] [[]|e]] eqn:E; apply (upsertRepo_alone _ c) in E as [Hs Hu]; [|done| |done].
  - intros H' Ha. destruct (Hu eq_refl) as [id Hid].
    destruct (IH (synced ++ [d]) n1 w1 H') as [Hs' Hh']; [by eapply all_held_step|].
    split; [by etrans|]. intros Hr. rewrite cons_middle, app_assoc. by apply Hh'.
  - intros [= <- <- <-] _. done.
Qed.

(** How [handle_compiled] ends. *)
Definition completed (w : SyncWorld) (p : SyncPayload) (warnings : list string) : Prop :=
  exists j now, job_of w (sp_JobID p) = Some j /\ sync_status j = "COMPLETED" /\ sync_warningMessages j = warnings /\
    sync_completedAt j = Some now /\
    (forall col, sn_columns w !! sp_ConnectionID p = Some col -> exists at', cc_syncedAt col = Some at').

Definition failed (w : SyncWorld) (p : SyncPayload) : Prop :=
  exists j msg, job_of w (sp_JobID p) = Some j /\ sync_status j = "FAILED" /\ sync_errorMessage j = Some msg.

Lemma fail_with_failed p msg e n w n' w' r :
  claimed w p -> fail_with env p msg e (n, w) = ((n', w'), r) -> r = Err e /\ failed w' p.
Proof.
  intros H. destruct (fail_with_alone p msg e n w H) as (w1 & j & -> & Hj & Hs & He). intros [= <- <- <-].
  split; [done|]. by exists j, msg.
Qed.

Lemma markCompleted_alone p warnings n w :
  claimed w p -> exists n' w', markCompleted env (sp_JobID p) (sp_ConnectionID p) (sp_OrgID p) warnings (n, w) = ((n', w'), Ok tt) /\
    completed w' p warnings /\ (forall O c id d, holds_record O c w id d -> holds_record O c w' id d).
Proof.
  intros H. unfold markCompleted. rewrite sync_call_alone.
  destruct (update_claimed w p (complete_sync (se_now (env n)) warnings) H) as (j & Hj & ->).
  rewrite sync_call_alone. unfold stamp_synced. destruct H as [Hc _].
  change (connection_in_org (sn_world (with_world _ w)) ?a ?b) with (connection_in_org (sn_world w) a b).
  rewrite Hc. eexists _, _. split; [done|]. split.
  - eexists _, _. split; [apply lookup_insert_eq|]. do 3 (split; [done|]). cbn. intros col.
    rewrite lookup_alter_eq. destruct (sn_columns w !! _); [|done]. intros [= <-]. by eexists.
  - intros O c id d [(r & h & Hr) Hl]. split; [by exists r, h|exact Hl].
Qed.

Lemma handle_loaded_alone p ty config n w n' w' r :
  claimed w p -> handle_loaded api slots env p ty config (n, w) = ((n', w'), r) ->
  match r with
  | Ok _ => exists records warnings,
      compile_host api slots ty config (sp_ConnectionID p) = Some (Compiled (Ok (records, warnings))) /\
      completed w' p warnings /\ all_held (sp_OrgID p) (sp_ConnectionID p) w' records
  | Err _ => failed w' p
  end.
Proof.
  intros Hc. unfold handle_loaded.
  destruct (compile_host _ _ _ _ _) as [[e|[[records warnings]|e]]|] eqn:E;
    [by intros [-> ?]%fail_with_failed| |by intros [-> ?]%fail_with_failed..].
  pose proof (compile_host_records _ _ _ _ _ _ E) as Hok. unfold handle_compiled.
  destruct (upsert_all _ _ _ _) as [[n1 w1] q] eqn:Eu.
  destruct (upsert_all_alone _ _ _ [] _ _ _ _ _ Hok Eu) as [Hs Hheld]; [by intros d Hd; apply elem_of_nil in Hd|].
  apply (claimed_same _ _ _ Hs) in Hc. destruct q as [[]|[id e]]; [|by intros [-> ?]%fail_with_failed].
  destruct (markCompleted_alone p warnings n1 w1 Hc) as (n2 & w2 & -> & Hdone & Hkeep). intros [= <- <- <-].
  exists records, warnings. split; [done|]. split; [done|]. intros d Hd.
  destruct (Hheld eq_refl d Hd) as (id & d' & Hd' & Hk & Hh). exists id, d'. auto.
Qed.
End Alone.

(** The condition of the claim. *)
Definition ready (w : SyncWorld) (p : SyncPayload) : bool :=
  match job_of w (sp_JobID p) with
  | Some j => (sync_connectionId j =? sp_ConnectionID p) && ((sync_status j =s "PENDING") || (sync_status j =s "IN_PROGRESS"))
              && connection_in_org (sn_world w) (sp_ConnectionID p) (sp_OrgID p)
  | None => false
  end.

(** The records that the connection compiles to. *)
Definition compiles_to {U : NetURL} {G : Globs} (api : HostAPIs) (slots : FetcherSlots) (w : SyncWorld) (c : Z)
    (records : list RepoData) (warnings : list string) : Prop :=
  exists col, sn_columns w !! c = Some col /\
    compile_host api slots (cc_connectionType col) (cc_config col) c = Some (Compiled (Ok (records, warnings))).

Section Outcome.
Context {U : NetURL} {G : Globs} (api : HostAPIs) (slots : FetcherSlots) (env : nat -> SyncEnv).
Hypothesis Halone : alone env.

Lemma markInProgress_alone p n w :
  exists w', markInProgress env (sp_JobID p) (sp_ConnectionID p) (sp_OrgID p) (n, w) =
    ((S n, if ready w p then w' else w),
     if ready w p then Ok tt
     else Err (EText ("job " +:+ quoted (sp_JobID p) +:+ " already in terminal state or missing"))) /\
    (ready w p = true -> claimed w' p /\ sn_columns w' = sn_columns w).
Proof.
  unfold markInProgress. rewrite sync_call_alone by done. unfold update_sync_job, ready, job_of.
  destruct (w_syncJobs (sn_world w) !! sp_JobID p) as [j|] eqn:Ej; [|by exists w].
  destruct (_ && _ && _) eqn:E; [|by exists w]. eexists. split; [done|]. intros _. split; [|done].
  apply andb_true_iff in E as [[Hid%Z.eqb_eq _]%andb_true_iff Hc].
  split; [exact Hc|]. eexists. split; [apply lookup_insert_eq|done].
Qed.

Lemma Handle_alone raw p n w n' w' r :
  UnmarshalSync raw = Ok p -> Handle api slots env true raw (n, w) = ((n', w'), r) ->
  if ready w p then
    match r with
    | Ok _ => exists records warnings, compiles_to api slots w (sp_ConnectionID p) records warnings /\
        completed w' p warnings /\ all_held (sp_OrgID p) (sp_ConnectionID p) w' records
    | Err _ => failed w' p
    end
  else n' = S n /\ w' = w /\
       r = Err (EWrap "markInProgress: " (EText ("job " +:+ quoted (sp_JobID p) +:+ " already in terminal state or missing")) "").
Proof.
  intros Hp. unfold Handle. rewrite Hp. cbn [negb]. destruct (markInProgress_alone p n w) as (w1 & -> & Hready).
  destruct (ready w p); [|by intros [= <- <- <-]]. destruct (Hready eq_refl) as [Hc Hcol].
  unfold loadConnection. rewrite sync_call_alone by done. unfold connection_row. rewrite Hcol.
  destruct (sn_columns w !! _) as [col|] eqn:Ecol; [|by intros [-> ?]%fail_with_failed].
  destruct (connection_in_org _ _ _); [|by intros [-> ?]%fail_with_failed].
  intros H. apply handle_loaded_alone in H; [|done|done]. destruct r as [u|e]; [|done].
  destruct H as (records & warnings & Hcomp & Hrest). exists records, warnings. split; [by exists col|done].
Qed.
End Outcome.


(** A run that failed is not resumed: the job is left FAILED, and each later run of the
    same task is refused with an error and changes nothing, so a retry of the task
    cannot sync the connection. *)
Theorem failed_sync_not_resumed {U : NetURL} {G : Globs} (api api' : HostAPIs) (slots : FetcherSlots)
    (env : nat -> SyncEnv) raw p n w n1 w1 e :
  alone env -> UnmarshalSync raw = Ok p -> ready w p = true ->
  Handle api slots env true raw (n, w) = ((n1, w1), Err e) ->
  Handle api' slots env true raw (n1, w1) =
    ((S n1, w1), Err (EWrap "markInProgress: "
       (EText ("job " +:+ quoted (sp_JobID p) +:+ " already in terminal state or missing")) "")).
Proof.
  intros Ha Hp Hr H. apply (Handle_alone api slots env Ha raw p) in H; [|done]. rewrite Hr in H.
  destruct H as (j & msg & Hj & Hs & _).
  destruct (Handle api' slots env true raw (n1, w1)) as [[n2 w2] r2] eqn:E.
  apply (Handle_alone api' slots env Ha raw p) in E; [|done].
  assert (ready w1 p = false) as Hf.
  { unfold ready. rewrite Hj, Hs. destruct (_ =? _); [|done]. done. }
  rewrite Hf in E. by destruct E as (-> & -> & ->).
Qed.

(** ** The indexed revisions *)

Lemma set_metadata_keeps md l md' :
  Forall (fun kv => key_matches "indexedRevisions" kv.1 = false) l ->
  RepoIndexStatus.set_metadata md l = Some md' ->
  RepoIndexStatus.md_IndexedRevisions md' = RepoIndexStatus.md_IndexedRevisions md.
Proof.
  intros H. revert md. induction H as [|[k v] l Hk H IH]; intros md; simpl; [by intros [= <-]|].
  unfold RepoIndexStatus.set_metadata_field. cbn in Hk. rewrite Hk.
  destruct (key_matches "branches" k).
  { destruct (RepoIndexStatus.as_slice _ v); [|done]. cbn. intros E. by apply IH in E. }
  destruct (key_matches "tags" k); [|by apply IH].
  destruct (RepoIndexStatus.as_slice _ v); [|done]. cbn. intros E. by apply IH in E.
Qed.

Lemma metadata_unindexed m raw :
  md_IndexedRevisions m = [] -> json_parse raw = Some (metadata_json m) ->
  RepoIndexStatus.md_IndexedRevisions (RepoIndexStatus.ParseMetadata raw) = [].
Proof.
  intros Hm Hraw. unfold RepoIndexStatus.ParseMetadata. destruct (raw =s ""); [done|]. rewrite Hraw. unfold metadata_json.
  destruct (RepoIndexStatus.set_metadata _ _) as [md|] eqn:E; [|done]. apply set_metadata_keeps in E; [done|].
  rewrite Hm. cbn [omit_empty]. repeat (apply Forall_app; split).
  - destruct (md_GitConfig m); repeat constructor.
  - destruct (md_Branches m); repeat constructor.
  - destruct (md_Tags m); repeat constructor.
  - constructor.
  - destruct (md_ManualIndexDisabled m); repeat constructor.
  - destruct (md_CodeHostMetadata m); repeat constructor.
Qed.

(** A sync that succeeds leaves no indexed revision in the metadata of the
    repositories of its records: whatever revisions an activation had recorded there,
    the summary of the repository then reads none. *)
Theorem sync_forgets_indexed_revisions {U : NetURL} {G : Globs} (api : HostAPIs) (slots : FetcherSlots)
    (env : nat -> SyncEnv) raw p n w n' w' records warnings :
  alone env -> UnmarshalSync raw = Ok p -> Handle api slots env true raw (n, w) = ((n', w'), Ok tt) ->
  compiles_to api slots w (sp_ConnectionID p) records warnings ->
  forall d, d ∈ records -> exists id r h,
    repos_of w' !! id = Some r /\ sn_hosts w' !! id = Some h /\ repo_orgId r = sp_OrgID p /\
    hc_external_id h = rd_ExternalID d /\ hc_codeHostUrl h = rd_ExternalCodeHostURL d /\
    forall text, json_parse text = repo_metadata r ->
      RepoIndexStatus.md_IndexedRevisions (RepoIndexStatus.ParseMetadata text) = [].
Proof.
  intros Ha Hp H (col & Hcol & Hcomp) d Hd. apply (Handle_alone api slots env Ha raw p) in H; [|done].
  destruct (ready w p); [|by destruct H as (_ & _ & ?)].
  destruct H as (records' & warnings' & (col' & Hcol' & Hcomp') & _ & Hheld).
  rewrite Hcol in Hcol'. injection Hcol' as <-. rewrite Hcomp in Hcomp'. injection Hcomp' as <- <-.
  pose proof (compile_host_records _ _ _ _ _ _ Hcomp) as Hok. cbn in Hok. rewrite Forall_forall in Hok.
  destruct (Hheld d Hd) as (id & d' & Hd' & [K1 K2] & [(r & h & Hr & Hh & Ho & E1 & E2 & _ & _ & Hmd) _]).
  exists id, r, h. split_and!; [done|done|done|congruence|congruence|]. intros text Htext. rewrite Hmd in Htext.
  destruct (Hok d' Hd') as (_ & _ & _ & _ & Hi & _). by eapply metadata_unindexed.
Qed.
