(* ===== verification/RepoCleanup.v ===== *)
(** Cleanup of a repository or of one of its branches,
    src/internal/backend/repoindexmanager/cleanup.go: the rows of the indexes and
    manifests, the graph snapshots to retire, the clone, the Zoekt shards and the
    source snapshots. *)
From Stdlib Require Import Ascii.
From S2P Require Import Prelude GoStd GoStdFacts GoJSON GoText SubjobTypes FileTree RepoPaths GraphSchema RepoIndexDB.
From S2P Require Import RepoJobs.
(** ** Names of a branch *)

Definition cleanupRefCandidates (ref0 : string) : list string :=
  let ref := TrimSpace ref0 in
  if ref =s "" then []
  else
    let third := if negb (HasPrefix ref "refs/heads/") && negb (HasPrefix ref "refs/tags/")
                 then ["refs/heads/" +:+ TrimPrefix ref "/"] else [] in
    dedup_first [] (List.filter (fun v => negb (v =s ""))
      (map TrimSpace (ref :: TrimPrefix ref "refs/heads/" :: third))).

(** [strings.Trim(s, "_- /")] *)
Definition trim_token (s : string) : string := TrimRunes ["_"; "-"; " "; "/"] s.

(** The keys of the set, in the order of their first use. *)
Definition cleanupShardBranchTokens (branches : list string) : list string :=
  dedup_first [] (List.filter (fun v => negb (v =s "")) (flat_map (fun branch0 =>
    let branch := TrimSpace branch0 in
    if branch =s "" then []
    else
      let short := TrimPrefix branch "refs/heads/" in
      map trim_token [branch; short; ReplaceByte "/" "_" branch; ReplaceByte "/" "_" short;
                      ReplaceByte "/" "-" branch; ReplaceByte "/" "-" short]) branches)).

Definition shardNameMatchesAnyBranch (name prefix : string) (tokens : list string) : bool :=
  let suffix := TrimPrefix name prefix in
  existsb (fun token =>
    HasPrefix suffix (token +:+ "_") || HasPrefix suffix (token +:+ "-")
    || Contains suffix ("_" +:+ token +:+ "_") || Contains suffix ("-" +:+ token +:+ "-")) tokens.

Definition shortCleanupCommit (commit : string) : string := str_take 12 commit.

(** ** Rows *)

Definition of_repo (orgID repoID o r : Z) : bool := (r =? repoID) && (o =? orgID).

(** [x = ANY(refs)] *)
Definition any_of (refs : list string) (x : string) : bool := bool_decide (x ∈ refs).

(** DELETE FROM "CodeGraphIndex"; its revisions go with it (ON DELETE CASCADE). *)
Definition delete_graphs (doomed : string -> CodeGraphIndex -> bool) (t : Tables) : Tables :=
  set_graphs (filter (fun kv => doomed kv.1 kv.2 = false))
    (filter (fun kv => match t_graphs t !! gr_codeGraphIndexId kv.2 with
                       | Some g => doomed (gr_codeGraphIndexId kv.2) g
                       | None => false
                       end = false)) t.

(** DELETE FROM "CodeIntelIndex"; the subjobs that name one go with it. *)
Definition delete_indexes (doomed : CodeIntelIndex -> bool) (t : Tables) : Tables :=
  let ids := map (fun x => cii_id (cix_key x)) (List.filter doomed (db_indexes (t_db t))) in
  set_db (fun db =>
    set_subjobs (filter (fun kv => match sc_codeIntelIndexId (sj_scope kv.2) with
                                   | Some i => any_of ids i
                                   | None => false
                                   end = false))
      (set_indexes (List.filter (fun x => negb (doomed x))) db)) t.

(** DELETE FROM "RepoIndexManifest"; its files go with it. *)
Definition delete_manifests (doomed : Manifest -> bool) (t : Tables) : Tables :=
  let ids := map mf_id (List.filter doomed (db_manifests (t_db t))) in
  set_files (filter (fun kv => any_of ids kv.1.1 = false))
    (set_db (set_manifests (List.filter (fun m => negb (doomed m)))) t).

Definition index_of_repo (orgID repoID : Z) (x : CodeIntelIndex) : bool :=
  of_repo orgID repoID (cii_orgId (cix_key x)) (cii_repoId (cix_key x)).
Definition manifest_of_repo (orgID repoID : Z) (m : Manifest) : bool :=
  of_repo orgID repoID (mf_orgId m) (mf_repoId m).
Definition graph_of_repo (orgID repoID : Z) (g : CodeGraphIndex) : bool :=
  of_repo orgID repoID (gx_orgId g) (gx_repoId g).
Definition revision_of_repo (orgID repoID : Z) (r : CodeGraphRevision) : bool :=
  of_repo orgID repoID (gr_orgId r) (gr_repoId r).

(** The UPDATE of the repository row, whose new metadata may raise an error. *)
Definition update_metadata (orgID repoID : Z) (md : option json -> result gerror json)
    (f : json -> SubjobTypes.Repo -> SubjobTypes.Repo) (t : Tables) : result gerror (Tables * unit) :=
  match db_repos (t_db t) !! repoID with
  | Some r =>
      if repo_orgId r =? orgID then
        let? v := md (repo_metadata r) in
        Ok (update_repo repoID (fun _ => true) (f v) t, tt)
      else Ok (t, tt)
  | None => Ok (t, tt)
  end.

(** The data-modifying WITH of [CleanupRepoDBStateForRef].  Both DELETEs read the
    tables as they were when the statement started. *)
Definition delete_revisions_stmt (orgID repoID : Z) (refs : list string) (t : Tables) : Tables :=
  let hit r := revision_of_repo orgID repoID r && any_of refs (gr_revision r) in
  let removed := map (fun kv => gr_codeGraphIndexId kv.2)
                   (List.filter (fun kv => hit kv.2) (map_to_list (t_revisions t))) in
  let doomed id g :=
    graph_of_repo orgID repoID g && any_of removed id
    && negb (existsb (fun kv => (gr_codeGraphIndexId kv.2 =s id) && (gr_orgId kv.2 =? gx_orgId g)
                                && (gr_repoId kv.2 =? gx_repoId g)) (map_to_list (t_revisions t))) in
  let t1 := set_graphs (fun m => m) (filter (fun kv => hit kv.2 = false)) t in
  delete_graphs doomed t1.

Section Cleanup.
Context (ou : Outside).

Definition clear_indexed (now : Z) (md : json) (r : SubjobTypes.Repo) : SubjobTypes.Repo :=
  set_indexed (Some md) None None None now r.

Definition CleanupRepoDBState (orgID repoID : Z) : IM unit :=
  if orgID <=? 0 then ierr (EText "CleanupRepoDBState: orgID is required")
  else
    do! _ := iwrap "CleanupRepoDBState: delete CodeGraphIndex: " (sql ou (fun _ t =>
      Ok (delete_graphs (fun _ => graph_of_repo orgID repoID) t, tt))) in
    do! _ := iwrap "CleanupRepoDBState: delete CodeIntelIndex: " (sql ou (fun _ t =>
      Ok (delete_indexes (index_of_repo orgID repoID) t, tt))) in
    do! _ := iwrap "CleanupRepoDBState: delete RepoIndexManifest: " (sql ou (fun _ t =>
      Ok (delete_manifests (manifest_of_repo orgID repoID) t, tt))) in
    iwrap "CleanupRepoDBState: clear Repo indexed-state: " (sql ou (fun now t =>
      update_metadata orgID repoID
        (fun md => jsonb_minus (default (JObj []) md) "indexedRevisions") (clear_indexed now) t)).

(** The revisions that stay. *)
Definition remaining_revisions (refs : list string) (md : option json) : result gerror json :=
  let? old := indexed_revisions ou md in
  jsonb_set (default (JObj []) md) "indexedRevisions"
    (jsonb_agg (List.filter (fun v => negb (any_of refs v)) old)).

Definition keep_indexed (now : Z) (md : json) (r : SubjobTypes.Repo) : SubjobTypes.Repo :=
  set_indexed (Some md) (repo_indexedAt r) (repo_indexedCommitHash r)
    (repo_latestIndexingJobStatus r) now r.

Definition CleanupRepoDBStateForRef (orgID repoID : Z) (ref : string) : IM unit :=
  if orgID <=? 0 then ierr (EText "CleanupRepoDBStateForRef: orgID is required")
  else
    let refs := cleanupRefCandidates ref in
    match refs with
    | [] => CleanupRepoDBState orgID repoID
    | _ =>
        do! _ := iwrap "CleanupRepoDBStateForRef: delete CodeGraphRevision/orphan CodeGraphIndex: "
          (sql ou (fun _ t => Ok (delete_revisions_stmt orgID repoID refs t, tt))) in
        do! _ := iwrap "CleanupRepoDBStateForRef: delete CodeIntelIndex: " (sql ou (fun _ t =>
          Ok (delete_indexes (fun x => index_of_repo orgID repoID x
                && (any_of refs (cix_branch x) || any_of refs (cii_revision (cix_key x)))) t, tt))) in
        do! _ := iwrap "CleanupRepoDBStateForRef: delete RepoIndexManifest: " (sql ou (fun _ t =>
          Ok (delete_manifests (fun m => manifest_of_repo orgID repoID m && any_of refs (mf_branch m)) t,
              tt))) in
        iwrap "CleanupRepoDBStateForRef: remove indexed revision metadata: " (sql ou (fun now t =>
          update_metadata orgID repoID (remaining_revisions refs) (keep_indexed now) t))
    end.

(** ** What to retire *)

#[local] Instance delete_input_eq_dec : EqDecision CodeGraphDeleteInput.
Proof. solve_decision. Defined.

Definition delete_input (g : CodeGraphIndex) : CodeGraphDeleteInput :=
  {| di_OrgID := gx_orgId g; di_RepoID := gx_repoId g; di_WorkspaceID := gx_workspaceId g;
     di_CommitHash := gx_commitHash g; di_SchemaVersion := gx_schemaVersion g;
     di_BuilderVersion := gx_builderVersion g |}.

(** SELECT DISTINCT: the order of the rows is not determined; this is one. *)
Definition select_snapshots (hit : string -> CodeGraphIndex -> bool) (t : Tables)
  : list CodeGraphDeleteInput :=
  remove_dups (map (fun kv => delete_input kv.2)
    (List.filter (fun kv => hit kv.1 kv.2) (map_to_list (t_graphs t)))).

Definition ListGraphSnapshotsForCleanup (orgID repoID : Z) : IM (list CodeGraphDeleteInput) :=
  if orgID <=? 0 then ierr (EText "ListGraphSnapshotsForCleanup: orgID is required")
  else iwrap "ListGraphSnapshotsForCleanup: " (sql ou (fun _ t =>
    Ok (t, select_snapshots (fun _ g => graph_of_repo orgID repoID g && (gx_status g =s "READY")) t))).

(** A revision row that points to the graph index. *)
Definition revision_of (id : string) (g : CodeGraphIndex) (r : CodeGraphRevision) : bool :=
  (gr_codeGraphIndexId r =s id) && (gr_orgId r =? gx_orgId g) && (gr_repoId r =? gx_repoId g).

Definition ListGraphSnapshotsForCleanupRef (orgID repoID : Z) (ref : string)
  : IM (list CodeGraphDeleteInput) :=
  let refs := cleanupRefCandidates ref in
  match refs with
  | [] => ListGraphSnapshotsForCleanup orgID repoID
  | _ =>
      iwrap "ListGraphSnapshotsForCleanupRef: " (sql ou (fun _ t =>
        let revs := map snd (map_to_list (t_revisions t)) in
        Ok (t, select_snapshots (fun id g =>
          graph_of_repo orgID repoID g && (gx_status g =s "READY")
          && existsb (fun r => revision_of id g r && any_of refs (gr_revision r)) revs
          && negb (existsb (fun r => revision_of id g r && negb (any_of refs (gr_revision r))) revs)) t)))
  end.

Definition ListSnapshotCommitsForCleanupRef (orgID repoID : Z) (ref : string) : IM (list string) :=
  let refs := cleanupRefCandidates ref in
  match refs with
  | [] => iret []
  | _ =>
      iwrap "ListSnapshotCommitsForCleanupRef: " (sql ou (fun _ t =>
        let unshared m :=
          negb (existsb (fun s => manifest_of_repo (mf_orgId m) (mf_repoId m) s
                                  && (mf_commitHash s =s mf_commitHash m)
                                  && negb (any_of refs (mf_branch s))) (db_manifests (t_db t)))
          && negb (existsb (fun x => index_of_repo (mf_orgId m) (mf_repoId m) x
                                     && (cii_commitHash (cix_key x) =s mf_commitHash m)
                                     && (negb (any_of refs (cix_branch x))
                                         || negb (any_of refs (cii_revision (cix_key x)))))
                     (db_indexes (t_db t)))
          && negb (existsb (fun kv => revision_of_repo (mf_orgId m) (mf_repoId m) kv.2
                                      && (gr_commitHash kv.2 =s mf_commitHash m)
                                      && negb (any_of refs (gr_revision kv.2)))
                     (map_to_list (t_revisions t))) in
        Ok (t, List.filter (fun c => negb (TrimSpace c =s ""))
                 (remove_dups (map mf_commitHash (List.filter (fun m =>
                    manifest_of_repo orgID repoID m && any_of refs (mf_branch m) && unshared m)
                    (db_manifests (t_db t))))))))
  end.

Definition FetchRepoForCleanup (orgID repoID : Z) : IM RepoPaths.Repo :=
  if orgID <=? 0 then ierr (EText "FetchRepoForCleanup: orgID is required")
  else
    do! r := itry (sql ou (fun _ t =>
      Ok (t, match db_repos (t_db t) !! repoID with
             | Some r =>
                 if repo_orgId r =? orgID then
                   Some {| rp_OrgID := repo_orgId r; rp_RepoID := repoID;
                           rp_CloneURL := coalesce "" (repo_cloneUrl r);
                           rp_CodeHostType := coalesce "" (repo_codeHostType r) |}
                 else None
             | None => None
             end))) in
    match r with
    | Ok (Some repo) => iret repo
    | Ok None => ierr ErrRepoNotFound
    | Err e => ierr (EWrap "FetchRepoForCleanup: " e "")
    end.

(** ** Files *)

(** [os.Stat], then [os.RemoveAll] of what is there. *)
Definition remove_tree (who path : string) : IM unit :=
  do! found := iwrap (who +:+ ": stat " +:+ path +:+ ": ") (sys ou (fun fs => (fs, Exists path fs))) in
  if found then
    iwrap (who +:+ ": rm -rf " +:+ path +:+ ": ") (sys ou (fun fs => (RemoveAll path fs, tt)))
  else iret tt.

(** [os.ReadDir]; [None] for a directory that does not exist. *)
Definition read_dir (who path : string) : IM (option (list (string * FileKind))) :=
  iwrap (who +:+ ": readdir " +:+ path +:+ ": ") (sys ou (fun fs =>
    (fs, if Exists path fs then Some (ReadDir path fs) else None))).

(** [errors.Join] *)
Definition join_errors (errs : list gerror) : gerror :=
  EText (Join (map err_text errs) (String (chr 10) "")).

(** Removes the files of [indexPath] that [hit]; the errors are collected. *)
Fixpoint remove_shards (indexPath : string) (hit : string -> bool)
    (entries : list (string * FileKind)) (errs : list gerror) : IM (list gerror) :=
  match entries with
  | [] => iret errs
  | (name, kind) :: rest =>
      if bool_decide (kind = KDir) || negb (hit name) then remove_shards indexPath hit rest errs
      else
        let shardPath := FilepathJoin [indexPath; name] in
        do! r := itry (sys ou (fun fs => (Remove shardPath fs, tt))) in
        remove_shards indexPath hit rest
          (match r with
           | Ok _ => errs
           | Err e => errs ++ [EWrap ("rm " +:+ shardPath +:+ ": ") e ""]
           end)
  end.

Definition remove_matching_shards (who indexPath : string) (hit : string -> bool) : IM unit :=
  if indexPath =s "" then iret tt
  else
    do! entries := read_dir who indexPath in
    match entries with
    | None => iret tt
    | Some entries =>
        do! errs := remove_shards indexPath hit entries [] in
        match errs with
        | [] => iret tt
        | _ => ierr (EWrap (who +:+ ": shard removal errors: ") (join_errors errs) "")
        end
    end.

Definition CleanupRepoFilesystem (cfg : Config) (repo : RepoPaths.Repo) : IM unit :=
  do! _ := ctx_err ou in
  do! p := iwrap "CleanupRepoFilesystem: resolve RepoPath: "
             (ilift (RepoPath (ou_url_Parse ou) cfg repo)) in
  let '(repoPath, isReadOnly) := p in
  do! _ := (if negb isReadOnly && negb (repoPath =s "")
            then remove_tree "CleanupRepoFilesystem" repoPath else iret tt) in
  do! _ := ctx_err ou in
  let prefix := ShardFilePrefix (rp_OrgID repo) (rp_RepoID repo) in
  remove_matching_shards "CleanupRepoFilesystem" (ZoektIndexPath cfg repo)
    (fun name => HasPrefix name prefix).

Definition CleanupRepoFilesystemForRef (cfg : Config) (repo : RepoPaths.Repo) (ref : string) : IM unit :=
  do! _ := ctx_err ou in
  let branches := cleanupRefCandidates ref in
  match branches with
  | [] => CleanupRepoFilesystem cfg repo
  | _ =>
      let prefix := ShardFilePrefix (rp_OrgID repo) (rp_RepoID repo) in
      let branchTokens := cleanupShardBranchTokens branches in
      remove_matching_shards "CleanupRepoFilesystemForRef" (ZoektIndexPath cfg repo) (fun name =>
        HasPrefix name prefix && HasSuffix name ".zoekt"
        && shardNameMatchesAnyBranch name prefix branchTokens)
  end.

Definition CleanupRepoSnapshots (cfg : Config) (repo : RepoPaths.Repo) : IM unit :=
  do! _ := ctx_err ou in
  let root := RevisionSnapshotRepoRoot cfg (rp_OrgID repo) (rp_RepoID repo) in
  if TrimSpace root =s "" then iret tt else remove_tree "CleanupRepoSnapshots" root.

Fixpoint remove_snapshots (cfg : Config) (repo : RepoPaths.Repo) (commits : list string) : IM unit :=
  match commits with
  | [] => iret tt
  | commit :: rest =>
      do! _ := remove_tree "CleanupRepoSnapshotsForCommits"
                 (RevisionSnapshotPath cfg (rp_OrgID repo) (rp_RepoID repo) commit) in
      remove_snapshots cfg repo rest
  end.

Definition CleanupRepoSnapshotsForCommits (cfg : Config) (repo : RepoPaths.Repo)
    (commits : list string) : IM unit :=
  remove_snapshots cfg repo
    (dedup_first [] (List.filter (fun c => negb (c =s "")) (map TrimSpace commits))).
End Cleanup.
