(* ===== verification/RepoHandler.v ===== *)
(** The worker of the repository-index queue,
    src/internal/backend/repoindexmanager/handler.go: the whole handler of a task,
    with cleanup, the resolution of the revisions to index, their snapshots,
    manifests and plans, and the hand-over to the subjob store. *)
From Stdlib Require Import Ascii.
From S2P Require Import Prelude GoStd GoStdFacts GoJSON GoText SubjobTypes SubjobStore SubjobCodec Planner.
From S2P Require Import ManifestDelta FileTree ScipDetect Scheduler RepoPaths RepoIndexStatus GraphSchema GraphStore.
From S2P Require Import RepoIndexDB RepoJobs RepoTask RepoCleanup.
Import repoindex.

Definition errIndexContinuesAsSubjobs : gerror :=
  ESentinel "repoindexmanager: INDEX continues via split subjobs".

Definition maxIndexedRevisionsPerRepo : nat := 64.

(** [rh_store] says that the store is not nil. *)
Record Handler : Type := {
  rh_store : bool; rh_pathsCfg : RepoPaths.Config; rh_graphRetirer : option AnyStore
}.

Record repoIndexMetadata : Type := { im_Branches : list string; im_Tags : list string }.

Record resolvedIndexRevision : Type := {
  ir_Branch : string; ir_Revision : string; ir_CommitHash : string
}.

(** ** Environment variables *)

Section Environment.
Context (getenv : string -> string).

Definition gitCloneDepth : Z :=
  let raw := TrimSpace (getenv "CODEINTEL_GIT_CLONE_DEPTH") in
  if raw =s "" then 1
  else match Atoi raw with
       | None => 1
       | Some parsed => if parsed <? 0 then 1 else if 10000 <? parsed then 10000 else parsed
       end.

(** In nanoseconds. *)
Definition gitCloneTimeout : Z :=
  let raw := TrimSpace (getenv "CODEINTEL_GIT_CLONE_TIMEOUT_SECONDS") in
  if raw =s "" then 600 * second
  else match Atoi raw with
       | None => 600 * second
       | Some parsed =>
           if parsed <=? 0 then 600 * second
           else
             let parsed := if parsed <? 30 then 30 else parsed in
             let parsed := if 7200 <? parsed then 7200 else parsed in
             parsed * second
       end.

Definition supportsZoektFileDelta : bool :=
  let value := TrimSpace (getenv "CODEINTEL_ZOEKT_FILE_DELTA") in
  if value =s "" then true else EqualFold value "true".
End Environment.

(** ** Revisions to index *)

Definition normalizeBranchRef (branch fallback : string) : string :=
  let branch := TrimSpace branch in
  let branch := if branch =s "" then TrimSpace fallback else branch in
  let branch := if branch =s "" then "main" else branch in
  if HasPrefix branch "refs/heads/" then branch
  else "refs/heads/" +:+ TrimPrefix branch "/".

(** [strings.IndexByte(short, '/')] and the rest after it. *)
Definition after_slash (short : string) : string :=
  match CutByte "/" short with Some (_, rest) => rest | None => short end.

(** One reference; [tag_commit] resolves an annotated tag. *)
Definition collect_ref (tag_commit : string -> option string)
    (acc : gmap string string * gmap string string) (ref : GitRef)
  : gmap string string * gmap string string :=
  let '(branches, tags) := acc in
  let short := ref_short ref in
  match ref_kind ref with
  | RBranch => if short =s "" then acc else (<[short := ref_hash ref]> branches, tags)
  | RRemote =>
      if (short =s "") || HasSuffix short "/HEAD" then acc
      else
        let short := after_slash short in
        if short =s "" then acc else (<[short := ref_hash ref]> branches, tags)
  | RTag =>
      if short =s "" then acc
      else (branches, <[short := default (ref_hash ref) (tag_commit (ref_hash ref))]> tags)
  | ROtherRef | RSymbolic => acc
  end.

Definition collectGitRefs (tag_commit : string -> option string) (refs : list GitRef)
  : gmap string string * gmap string string :=
  foldl (collect_ref tag_commit) (∅, ∅) refs.

Definition sortedKeys (values : gmap string string) : list string :=
  SortStrings (map fst (map_to_list values)).

Definition matchesAny (patterns : list (string -> bool)) (value : string) : bool :=
  existsb (fun pattern => pattern value) patterns.

Definition set_index_metadata (md : repoIndexMetadata) (key : string) (j : json)
  : option repoIndexMetadata :=
  if key_matches "branches" key then
    (fun v => {| im_Branches := v; im_Tags := im_Tags md |}) <$> as_slice (im_Branches md) j
  else if key_matches "tags" key then
    (fun v => {| im_Branches := im_Branches md; im_Tags := v |}) <$> as_slice (im_Tags md) j
  else Some md.

(** [json.Unmarshal] of the metadata column. *)
Definition decode_metadata (v : json) : result gerror repoIndexMetadata :=
  let z := {| im_Branches := []; im_Tags := [] |} in
  match v with
  | JObj l => match set_members set_index_metadata z l with Some md => Ok md | None => Err ErrJSON end
  | JNull => Ok z
  | _ => Err ErrJSON
  end.

Definition revision_at (ref hash : string) : resolvedIndexRevision :=
  {| ir_Branch := ref; ir_Revision := ref; ir_CommitHash := hash |}.

(** The matching names of [refs] in order, each put under its full ref; a later
    name with the same ref overwrites. *)
Definition add_matching (patterns : list (string -> bool)) (full : string -> string)
    (refs : gmap string string) (out : gmap string resolvedIndexRevision)
  : gmap string resolvedIndexRevision :=
  foldl (fun out name =>
    if matchesAny patterns name
    then <[full name := revision_at (full name) (default "" (refs !! name))]> out else out)
    out (sortedKeys refs).

Section Resolve.
Context (ou : Outside).

Fixpoint compileGlobs (patterns : list string) : result gerror (list (string -> bool)) :=
  match patterns with
  | [] => Ok []
  | pattern0 :: rest =>
      let pattern := TrimSpace pattern0 in
      if pattern =s "" then compileGlobs rest
      else
        let? g := ou_glob_Compile ou pattern in
        let? gs := compileGlobs rest in
        Ok (g :: gs)
  end.

Definition wrap {A} (pre : string) (r : result gerror A) : result gerror A :=
  match r with Ok a => Ok a | Err e => Err (EWrap pre e "") end.

Definition resolveIndexRevisions (worktree : string) (scope : RepoIndexScope)
    (headCommit headBranch : string) : result gerror (list resolvedIndexRevision) :=
  let? metadata := wrap "decode repo metadata: " (decode_metadata (rs_Metadata scope)) in
  let? refs := git_References (ou_git ou) worktree in
  let '(branches, tags) := collectGitRefs (git_tag_commit (ou_git ou) worktree) refs in
  let fallback := rs_DefaultBranch scope in
  let? out :=
    match im_Branches metadata with
    | [] =>
        let name := TrimPrefix (normalizeBranchRef headBranch fallback) "refs/heads/" in
        let hash := default "" (branches !! name) in
        let hash := if hash =s "" then headCommit else hash in
        let ref := normalizeBranchRef name fallback in
        Ok {[ ref := revision_at ref hash ]}
    | patterns =>
        let? compiled := wrap "compile branch globs: " (compileGlobs patterns) in
        Ok (add_matching compiled (fun name => normalizeBranchRef name fallback) branches ∅)
    end in
  let? out :=
    match im_Tags metadata with
    | [] => Ok out
    | patterns =>
        let? compiled := wrap "compile tag globs: " (compileGlobs patterns) in
        Ok (add_matching compiled (fun name => "refs/tags/" +:+ TrimPrefix name "refs/tags/") tags out)
    end in
  if bool_decide (out = ∅)
  then Err (EText "no branches/tags matched the repository index policy")
  else
    let keys := firstn maxIndexedRevisionsPerRepo (SortStrings (map fst (map_to_list out))) in
    Ok (omap (fun key => out !! key) keys).

(** ** Snapshots *)

Definition put_files (dir : string) (files : list (string * FileKind)) (fs : FS) : FS :=
  foldl (fun fs e => <[dir +:+ "/" +:+ e.1 := e.2]> fs) (<[dir := KDir]> fs) files.

Definition countSnapshotFiles (root : string) (fs : FS) : Z :=
  wrap32 (Z.of_nat (length (List.filter (fun e =>
    negb ((e.1 =s ".git") || HasPrefix e.1 ".git/")
    && (bool_decide (e.2 = KFile) || bool_decide (e.2 = KSymlink))) (walk root fs)))).

(** [git worktree remove] and [git worktree prune], whose errors are ignored and
    whose directory is removed anyway, are left out. *)
Definition materializeCommitSnapshot (src commitHash dst : string) : IM Z :=
  if (TrimSpace src =s "") || (TrimSpace dst =s "")
  then ierr (EText "source and destination are required")
  else
    do! _ := icheck (git_commit (ou_git ou) src commitHash) in
    do! _ := sys ou (fun fs => (MkdirAll (path_Dir dst) fs, tt)) in
    do! _ := sys ou (fun fs => (RemoveAll dst fs, tt)) in
    match git_worktree_add (ou_git ou) src dst commitHash with
    | Err e =>
        do! _ := itry (sys ou (fun fs => (RemoveAll dst fs, tt))) in
        ierr (EWrap "create git-backed revision snapshot: " e "")
    | Ok files =>
        do! r := itry (sys ou (fun fs =>
                   let fs' := put_files dst files fs in (fs', countSnapshotFiles dst fs'))) in
        match r with
        | Ok count => iret count
        | Err e =>
            do! _ := itry (sys ou (fun fs => (RemoveAll dst fs, tt))) in ierr e
        end
    end.

Definition buildManifestFilesForCommit (repoPath commitHash : string)
  : result gerror (list manifestFileRow) :=
  let? files := git_tree (ou_git ou) repoPath commitHash in Ok (buildManifestFiles files).

(** ** Planning *)

Definition repair_reason : string :=
  "Active SCIP or graph semantic index is missing or hollow for an unchanged revision.".

(** The plan of one revision: [None] when nothing is to be done for it. *)
Definition plan_one (cfg : RepoPaths.Config) (payload : TaskPayload) (repo : RepoPaths.Repo)
    (scope : RepoIndexScope) (worktree : string) (selected : resolvedIndexRevision)
  : IM (option (Revision * list SCIPProject)) :=
  let branch := ir_Branch selected in
  let commit := ir_CommitHash selected in
  let org := rp_OrgID repo in
  let rid := rp_RepoID repo in
  let ws := rs_WorkspaceID scope in
  let snapshotPath := RevisionSnapshotPath cfg org rid commit in
  do! _ := iwrap ("INDEX: materialize revision snapshot " +:+ branch +:+ ": ")
             (materializeCommitSnapshot worktree commit snapshotPath) in
  do! files := iwrap ("INDEX: build manifest files " +:+ branch +:+ ": ")
                 (ilift (buildManifestFilesForCommit worktree commit)) in
  do! previousFiles := iwrap ("INDEX: fetch previous manifest files " +:+ branch +:+ ": ")
                         (FetchPreviousReadyManifestFiles ou org rid ws branch) in
  let deltaPlan := buildManifestDeltaPlan previousFiles files (supportsZoektFileDelta (ou_getenv ou)) in
  do! _ := iwrap ("INDEX: build delta plan " +:+ branch +:+ ": ") (icheck (validate (Some deltaPlan))) in
  do! deltaPlan :=
    (if (dp_Mode deltaPlan =s "NOOP") && manifestHasSemanticCandidates files then
       do! health := iwrap ("INDEX: fetch semantic health " +:+ branch +:+ ": ")
                       (FetchSemanticIndexHealth ou org rid ws branch commit) in
       iret (if NeedsRepair health
             then forceSemanticRepairPlan (Some deltaPlan) files repair_reason else deltaPlan)
     else iret deltaPlan) in
  if dp_Mode deltaPlan =s "NOOP" then
    do! _ := iwrap ("INDEX: refresh unchanged indexed revision " +:+ branch +:+ ": ")
               (RecordUsableIndexedRevision ou org rid ws branch commit) in
    iret None
  else
    do! uuid := new_uuid ou in
    do! _ := InsertPendingManifest ou
               {| pm_ID := uuid; pm_JobID := tp_JobID payload; pm_OrgID := org; pm_RepoID := rid;
                  pm_WorkspaceID := ws; pm_Branch := branch; pm_CommitHash := commit;
                  pm_FileCount := wrap32 (Z.of_nat (length files)); pm_Plan := Some deltaPlan;
                  pm_Files := files |} in
    do! scipPlan := iwrap ("INDEX: detect SCIP projects " +:+ branch +:+ ": ")
      (call ou (fun _ w =>
         (w, DetectSnapshotPlan snapshotPath (ConfigFromEnv (ou_getenv ou)) (iw_fs w)))) in
    iret (Some
      ({| rv_WorkspaceID := Some ws; rv_Branch := branch; rv_Revision := ir_Revision selected;
          rv_CommitHash := commit; rv_RunClone := false;
          rv_RunZoekt := negb (zp_Strategy (dp_Zoekt deltaPlan) =s zoektStrategyNoop);
          rv_RunASTTreeSitter := negb (gp_Strategy (dp_Graph deltaPlan) =s "NOOP");
          rv_RunGraphMerge := true; rv_RunActivate := true;
          rv_SCIPProjects := filterSCIPProjectsForDelta (pn_Runnable scipPlan) (Some deltaPlan) |},
       pn_Skipped scipPlan)).

Fixpoint plan_all (cfg : RepoPaths.Config) (payload : TaskPayload) (repo : RepoPaths.Repo)
    (scope : RepoIndexScope) (worktree : string) (revisions : list resolvedIndexRevision)
  : IM (list (Revision * list SCIPProject)) :=
  match revisions with
  | [] => iret []
  | selected :: rest =>
      do! one := plan_one cfg payload repo scope worktree selected in
      do! more := plan_all cfg payload repo scope worktree rest in
      iret (match one with Some r => r :: more | None => more end)
  end.

(** Each subjob recorded as skipped. *)
Fixpoint upsert_skipped (subjobs : list CreateInput) : IM unit :=
  match subjobs with
  | [] => iret tt
  | subjob :: rest =>
      if negb (ci_Layer subjob =s LayerSCIP)
      then ierr (EText ("unexpected skipped layer " +:+ ci_Layer subjob))
      else
        do! _ := in_db ou (fun fault now => UpsertSkipped fault now now subjob
                   "WORKER_CLASS_UNAVAILABLE"
                   "SCIP worker class is not enabled for this backend/indexer deployment") in
        upsert_skipped rest
  end.

Definition persistSkippedSCIPProjects (jobID : string) (repo : RepoPaths.Repo)
    (workspaceID branchRef commit : string) (projects : list SCIPProject) : IM unit :=
  match projects with
  | [] => iret tt
  | _ =>
      do! subjobs := ilift (Build
        {| in_RepoIndexingJobID := jobID; in_OrgID := rp_OrgID repo; in_RepoID := rp_RepoID repo;
           in_MaxAttempts := 1;
           in_Revisions := [{| rv_WorkspaceID := Some workspaceID; rv_Branch := branchRef;
                               rv_Revision := branchRef; rv_CommitHash := commit;
                               rv_RunClone := false; rv_RunZoekt := false;
                               rv_RunASTTreeSitter := false; rv_RunGraphMerge := false;
                               rv_RunActivate := false; rv_SCIPProjects := projects |}] |}) in
      upsert_skipped subjobs
  end.

Fixpoint persist_all_skipped (jobID : string) (repo : RepoPaths.Repo) (workspaceID : string)
    (skipped : list (Revision * list SCIPProject)) : IM unit :=
  match skipped with
  | [] => iret tt
  | (rev, items) :: rest =>
      do! _ := iwrap ("INDEX: persist skipped SCIP projects " +:+ rv_Branch rev +:+ ": ")
                 (persistSkippedSCIPProjects jobID repo workspaceID (rv_Branch rev)
                    (rv_CommitHash rev) items) in
      persist_all_skipped jobID repo workspaceID rest
  end.

Definition split_input (jobID : string) (repo : RepoPaths.Repo) (planned : list Revision) : Input :=
  {| in_RepoIndexingJobID := jobID; in_OrgID := rp_OrgID repo; in_RepoID := rp_RepoID repo;
     in_MaxAttempts := 3; in_Revisions := planned |}.

Definition planSplitIndex (cfg : RepoPaths.Config) (payload : TaskPayload) (repo : RepoPaths.Repo)
    (worktree commit branch : string) : IM unit :=
  do! scope := FetchRepoIndexScope ou (tp_RepoID payload) in
  if negb (rs_OrgID scope =? rp_OrgID repo)
  then ierr (EText ("INDEX: repo org drift: repo=" +:+ Itoa (rp_OrgID repo) +:+ " scope="
                    +:+ Itoa (rs_OrgID scope)))
  else
    do! revisions := iwrap "INDEX: resolve selected revisions: "
                       (ilift (resolveIndexRevisions worktree scope commit branch)) in
    do! planned := plan_all cfg payload repo scope worktree revisions in
    match planned with
    | [] => iret tt
    | _ =>
        do! _ := iwrap "INDEX: persist split plan: "
          (PlanAndPersist (H := world_writer ou) true
             (split_input (tp_JobID payload) repo (map fst planned))) in
        do! _ := persist_all_skipped (tp_JobID payload) repo (rs_WorkspaceID scope)
                   (List.filter (fun p => (0 <? length p.2)%nat) planned) in
        ierr errIndexContinuesAsSubjobs
    end.

Definition dispatchIndex (cfg : RepoPaths.Config) (payload : TaskPayload) : IM unit :=
  let repoID := tp_RepoID payload in
  do! r := itry (FetchRepoForCleanup ou (tp_OrgID payload) repoID) in
  match r with
  | Err e =>
      if is_sentinel ErrRepoNotFound e then ierr (EText ("INDEX: repo " +:+ Itoa repoID +:+ " not found"))
      else ierr (EWrap "FetchRepoForCleanup: " e "")
  | Ok repo =>
      do! p := iwrap "INDEX: resolve RepoPath: " (ilift (RepoPath (ou_url_Parse ou) cfg repo)) in
      let '(dest, isReadOnly) := p in
      if (isReadOnly : bool) then
        do! h := iwrap "INDEX read-only HEAD resolve: " (ilift (git_OpenHead (ou_git ou) dest)) in
        let '(commit, branch) := h in
        planSplitIndex cfg payload repo dest commit branch
      else
        do! found := iwrap ("INDEX: stat " +:+ dest +:+ ": ") (sys ou (fun fs => (fs, Exists dest fs))) in
        do! _ := (if (found : bool)
                  then iwrap ("INDEX: clear stale working tree " +:+ dest +:+ ": ")
                         (sys ou (fun fs => (RemoveAll dest fs, tt)))
                  else iret tt) in
        do! _ := iwrap ("INDEX: mkdir " +:+ dest +:+ ": ") (sys ou (fun fs => (MkdirAll dest fs, tt))) in
        match git_Clone (ou_git ou) (rp_CloneURL repo) dest (gitCloneDepth (ou_getenv ou))
                (gitCloneTimeout (ou_getenv ou)) with
        | Err e =>
            do! _ := itry (sys ou (fun fs => (RemoveAll dest fs, tt))) in
            ierr (EWrap "INDEX clone: " e "")
        | Ok (res, files) =>
            do! _ := (fun w => (set_fs (put_files dest files (iw_fs w)) w, Ok tt)) in
            planSplitIndex cfg payload repo (cr_WorkTree res) (cr_CommitHash res) (cr_Branch res)
        end
  end.

(** ** Cleanup *)

Definition retire (s : AnyStore) (input : CodeGraphDeleteInput) : IM unit := fun w =>
  let '(e, log) := MarkSnapshotForDeletion s input (iw_graph w) in
  ({| iw_tables := iw_tables w; iw_fs := iw_fs w; iw_graph := log; iw_calls := iw_calls w |},
   match e with None => Ok tt | Some e => Err e end).

Fixpoint retire_all (s : AnyStore) (snapshots : list CodeGraphDeleteInput) : IM unit :=
  match snapshots with
  | [] => iret tt
  | snapshot :: rest =>
      do! _ := iwrap ("delete graph snapshot " +:+ di_WorkspaceID snapshot +:+ "/"
                      +:+ Itoa (di_RepoID snapshot) +:+ "@"
                      +:+ shortCleanupCommit (di_CommitHash snapshot) +:+ ": ") (retire s snapshot) in
      retire_all s rest
  end.

Definition dispatchCleanupScoped (h : Handler) (orgID repoID : Z) (ref0 : string) : IM unit :=
  if orgID <=? 0 then ierr (EText "cleanup requires org scope")
  else
    do! r := itry (FetchRepoForCleanup ou orgID repoID) in
    match r with
    | Err e => if is_sentinel ErrRepoNotFound e then iret tt
               else ierr (EWrap "FetchRepoForCleanup: " e "")
    | Ok repo =>
        let ref := TrimSpace ref0 in
        do! snapshots := ListGraphSnapshotsForCleanupRef ou orgID repoID ref in
        do! _ :=
          match rh_graphRetirer h with
          | None =>
              if (0 <? length snapshots)%nat then
                ierr (EText ("repo-index cleanup: graph snapshot retirer is not configured for "
                             +:+ Itoa (Z.of_nat (length snapshots)) +:+ " active snapshot(s)"))
              else iret tt
          | Some s => retire_all s snapshots
          end in
        do! snapshotCommits := (if ref =s "" then iret []
                                else ListSnapshotCommitsForCleanupRef ou orgID repoID ref) in
        do! _ := CleanupRepoDBStateForRef ou orgID repoID ref in
        do! _ := CleanupRepoFilesystemForRef ou (rh_pathsCfg h) repo ref in
        if ref =s "" then CleanupRepoSnapshots ou (rh_pathsCfg h) repo
        else CleanupRepoSnapshotsForCommits ou (rh_pathsCfg h) repo snapshotCommits
    end.

Definition dispatchCleanup (h : Handler) (orgID repoID : Z) : IM unit :=
  dispatchCleanupScoped h orgID repoID "".

(** ** [Handle] *)

Definition dispatch (h : Handler) (payload : TaskPayload) : IM unit :=
  let ty := tp_Type payload in
  if (ty =s "CLEANUP") || (ty =s "REMOVE_INDEX")
  then dispatchCleanupScoped h (tp_OrgID payload) (tp_RepoID payload) (tp_Ref payload)
  else if ty =s "INDEX" then dispatchIndex (rh_pathsCfg h) payload
  else ierr (EText ("repoindexmanager: unknown job type " +:+ quoted ty)).

Definition mismatch_text (payload : TaskPayload) (scope : JobScope) : string :=
  "repo-index payload scope mismatch jobId=" +:+ tp_JobID payload +:+ " payload=(org:"
  +:+ Itoa (tp_OrgID payload) +:+ " repo:" +:+ Itoa (tp_RepoID payload) +:+ " type:"
  +:+ tp_Type payload +:+ ") db=(org:" +:+ Itoa (js_OrgID scope) +:+ " repo:"
  +:+ Itoa (js_RepoID scope) +:+ " type:" +:+ js_Type scope +:+ ")".

(** A payload of an older producer takes what it lacks from the job. *)
Definition backfill (payload : TaskPayload) (scope : JobScope) : TaskPayload :=
  {| tp_Type := tp_Type payload; tp_JobID := tp_JobID payload;
     tp_RepoID := if tp_RepoID payload =? 0 then js_RepoID scope else tp_RepoID payload;
     tp_OrgID := if tp_OrgID payload =? 0 then js_OrgID scope else tp_OrgID payload;
     tp_RepoName := tp_RepoName payload; tp_Ref := tp_Ref payload |}.

Definition scope_mismatch (payload : TaskPayload) (scope : JobScope) : bool :=
  negb (tp_OrgID payload =? js_OrgID scope) || negb (tp_RepoID payload =? js_RepoID scope)
  || negb (tp_Type payload =s js_Type scope).

(** Everything after the job was moved to IN_PROGRESS. *)
Definition run_job (h : Handler) (payload : TaskPayload) : IM unit :=
  let job := tp_JobID payload in
  let org := tp_OrgID payload in
  let repo := tp_RepoID payload in
  let ty := tp_Type payload in
  do! r := itry (dispatch h payload) in
  match r with
  | Err e =>
      if is_sentinel errIndexContinuesAsSubjobs e then
        do! _ := itry (RefreshRepoLatestIndexingJobStatus ou repo) in iret tt
      else
        do! _ := itry (MarkFailedScoped ou job org repo ty (err_text e)) in
        do! _ := itry (RefreshRepoLatestIndexingJobStatus ou repo) in
        ierr (EWrap ("dispatch " +:+ ty +:+ ": ") e "")
  | Ok _ =>
      do! _ := iwrap "MarkCompletedScoped: " (MarkCompletedScoped ou job org repo ty) in
      do! _ := itry (RefreshRepoLatestIndexingJobStatus ou repo) in iret tt
  end.

Definition Handle (h : Handler) (raw : string) : IM unit :=
  if negb (rh_store h) then ierr (EText "repoindexmanager: handler not configured")
  else
    do! payload0 := iwrap "payload decode: " (ilift (UnmarshalLegacyForBackfill raw)) in
    do! s := itry (FetchJobScope ou (tp_JobID payload0)) in
    match s with
    | Err e => if is_sentinel ErrJobInTerminalState e then iret tt
               else ierr (EWrap "FetchJobScope: " e "")
    | Ok scope =>
        let payload := backfill payload0 scope in
        let job := tp_JobID payload in
        if scope_mismatch payload scope then
          do! _ := itry (MarkFailedScoped ou job (js_OrgID scope) (js_RepoID scope) (js_Type scope)
                           (mismatch_text payload scope)) in
          do! _ := itry (RefreshRepoLatestIndexingJobStatus ou (js_RepoID scope)) in
          ierr (EWrap "" SkipRetry (": " +:+ mismatch_text payload scope))
        else
          do! r := itry (MarkInProgressScoped ou job (tp_OrgID payload) (tp_RepoID payload)
                           (tp_Type payload)) in
          match r with
          | Err e => if is_sentinel ErrJobInTerminalState e then iret tt
                     else ierr (EWrap "MarkInProgressScoped: " e "")
          | Ok _ => run_job h payload
          end
    end.
End Resolve.
