(* ===== verification/RepoJobFacts.v ===== *)
(** Reasoning about the computations of the repository-index manager: which relation
    between the tables before and after a computation holds whatever it returns; and
    with it the life cycle of a job. *)
From S2P Require Import Prelude GoStd GoStdFacts GoJSON SubjobTypes SubjobStore Planner ManifestDelta FileTree.
From S2P Require Import ScipDetect Scheduler RepoPaths GraphSchema GraphStore RepoIndexDB RepoJobs RepoTask RepoCleanup.
From S2P Require Import RepoHandler.
(** ** Relations every run keeps *)

Definition keeps (R : IndexWorld -> IndexWorld -> Prop) {A} (m : IM A) : Prop :=
  forall w w' r, m w = (w', r) -> R w w'.

Create HintDb keeps.

Section Keeps.
Context (R : IndexWorld -> IndexWorld -> Prop) `{!PreOrder R}.

Lemma keeps_ret {A} (a : A) : keeps R (iret a).
Proof. intros w w' r [= <- _]. reflexivity. Qed.

Lemma keeps_err {A} e : keeps R (ierr (A := A) e).
Proof. intros w w' r [= <- _]. reflexivity. Qed.

Lemma keeps_bind {A B} (m : IM A) (k : A -> IM B) :
  keeps R m -> (forall a, keeps R (k a)) -> keeps R (ibind m k).
Proof.
  intros Hm Hk w w' r. unfold ibind. destruct (m w) as [w1 [a|e]] eqn:E.
  - intros H. etrans; [by eapply Hm|by eapply Hk].
  - intros [= <- _]. by eapply Hm.
Qed.

Lemma keeps_try {A} (m : IM A) : keeps R m -> keeps R (itry m).
Proof.
  intros Hm w w' r. unfold itry. destruct (m w) as [w1 x] eqn:E. intros [= <- _]. by eapply Hm.
Qed.

Lemma keeps_wrap {A} pre (m : IM A) : keeps R m -> keeps R (iwrap pre m).
Proof.
  intros Hm w w' r. unfold iwrap. destruct (m w) as [w1 [a|e]] eqn:E; intros [= <- _]; by eapply Hm.
Qed.

Lemma keeps_check o : keeps R (icheck o).
Proof. destruct o; [apply keeps_err|apply keeps_ret]. Qed.

Lemma keeps_lift {A} (r : result gerror A) : keeps R (ilift r).
Proof. destruct r; [apply keeps_ret|apply keeps_err]. Qed.

Lemma keeps_if {A} (b : bool) (m1 m2 : IM A) : keeps R m1 -> keeps R m2 -> keeps R (if b then m1 else m2).
Proof. by destruct b. Qed.

Lemma keeps_ctx_err ou : keeps R (ctx_err ou).
Proof. intros w w' r. unfold ctx_err. destruct (ou_cancelled _ _); intros [= <- _]; reflexivity. Qed.

Lemma keeps_uuid ou : keeps R (new_uuid ou).
Proof. intros w w' r [= <- _]. reflexivity. Qed.
End Keeps.

#[export] Hint Resolve keeps_ret keeps_err keeps_bind keeps_try keeps_wrap keeps_check keeps_lift
  keeps_if keeps_ctx_err keeps_uuid : keeps.

(** Relations that only look at the tables. *)
Definition on_tables (R : Tables -> Tables -> Prop) (w w' : IndexWorld) : Prop :=
  R (iw_tables w) (iw_tables w').

#[global] Instance on_tables_preorder R `{!PreOrder R} : PreOrder (on_tables R).
Proof.
  split; [intros w; unfold on_tables; reflexivity|].
  intros w1 w2 w3 H1 H2. unfold on_tables in *. by etrans.
Qed.

Section Tables.
Context (R : Tables -> Tables -> Prop) `{!PreOrder R} (ou : Outside).

Lemma keeps_call {A} (f : Z -> IndexWorld -> IndexWorld * result gerror A) :
  (forall now w w' r, f now w = (w', r) -> R (iw_tables w) (iw_tables w')) ->
  keeps (on_tables R) (call ou f).
Proof.
  intros Hf w w' r. unfold call. destruct (ou_fault ou _).
  - intros [= <- _]. unfold on_tables. simpl. reflexivity.
  - intros H. by apply Hf in H.
Qed.

Lemma keeps_sql {A} (stmt : Z -> Tables -> result gerror (Tables * A)) :
  (forall now t t' a, stmt now t = Ok (t', a) -> R t t') -> keeps (on_tables R) (sql ou stmt).
Proof.
  intros Hs. apply keeps_call. intros now w w' r.
  destruct (stmt now _) as [[t a]|e] eqn:E; intros [= <- _]; [by eapply Hs|reflexivity].
Qed.

Lemma keeps_sys {A} (f : FS -> FS * A) : keeps (on_tables R) (sys ou f).
Proof.
  apply keeps_call. intros now w w' r. destruct (f _). intros [= <- _]. simpl. reflexivity.
Qed.

Lemma keeps_in_db {A} (f : option gerror -> Z -> DB -> DB * result gerror A) :
  (forall fault now db db' r t, f fault now db = (db', r) -> t_db t = db ->
     R t (set_db (fun _ => db') t)) ->
  keeps (on_tables R) (in_db ou f).
Proof.
  intros Hf w w' r. unfold in_db. destruct (f _ _ _) as [db x] eqn:E. intros [= <- _].
  by eapply Hf.
Qed.
End Tables.

#[export] Hint Resolve keeps_sys : keeps.

(** ** Relations that only look at the files *)

Definition on_files (R : FS -> FS -> Prop) (w w' : IndexWorld) : Prop := R (iw_fs w) (iw_fs w').

#[global] Instance on_files_preorder R `{!PreOrder R} : PreOrder (on_files R).
Proof.
  split; [intros w; unfold on_files; reflexivity|].
  intros w1 w2 w3 H1 H2. unfold on_files in *. by etrans.
Qed.

Section Files.
Context (R : FS -> FS -> Prop) `{!PreOrder R} (ou : Outside).

Lemma files_sql {A} (stmt : Z -> Tables -> result gerror (Tables * A)) : keeps (on_files R) (sql ou stmt).
Proof.
  intros w w' r. unfold sql, call, on_files. destruct (ou_fault ou _); [intros [= <- _]; simpl; reflexivity|].
  destruct (stmt _ _) as [[t a]|e]; intros [= <- _]; simpl; reflexivity.
Qed.

Lemma files_sys {A} (f : FS -> FS * A) :
  (forall fs, R fs (f fs).1) -> keeps (on_files R) (sys ou f).
Proof.
  intros Hf w w' r. unfold sys, call, on_files. destruct (ou_fault ou _); [intros [= <- _]; simpl; reflexivity|].
  simpl. specialize (Hf (iw_fs w)). destruct (f (iw_fs w)) as [fs a]. intros [= <- _]. done.
Qed.
End Files.

#[export] Hint Resolve files_sql : keeps.

(** ** What a computation returns *)

Lemma ibind_Ok {A B} (m : IM A) (k : A -> IM B) w w' b :
  ibind m k w = (w', Ok b) -> exists w1 a, m w = (w1, Ok a) /\ k a w1 = (w', Ok b).
Proof. unfold ibind. destruct (m w) as [w1 [a|e]]; [eauto|done]. Qed.

Lemma ibind_inv {A B} (m : IM A) (k : A -> IM B) w w' r :
  ibind m k w = (w', r) ->
  (exists w1 a, m w = (w1, Ok a) /\ k a w1 = (w', r)) \/ (exists e, m w = (w', Err e) /\ r = Err e).
Proof. unfold ibind. destruct (m w) as [w1 [a|e]]; [eauto|]. intros [= <- <-]. eauto. Qed.

Lemma itry_inv {A} (m : IM A) w w' r : itry m w = (w', r) -> exists x, m w = (w', x) /\ r = Ok x.
Proof. unfold itry. destruct (m w) as [w1 x]. intros [= <- <-]. eauto. Qed.

Lemma iwrap_Ok {A} pre (m : IM A) w w' a : iwrap pre m w = (w', Ok a) -> m w = (w', Ok a).
Proof. unfold iwrap. destruct (m w) as [w1 [x|e]]; by intros [= <- <-]. Qed.

Lemma iwrap_inv {A} pre (m : IM A) w w' r :
  iwrap pre m w = (w', r) ->
  exists x, m w = (w', x) /\ r = match x with Ok a => Ok a | Err e => Err (EWrap pre e "") end.
Proof. unfold iwrap. destruct (m w) as [w1 [x|e]]; intros [= <- <-]; by eexists. Qed.

(** A statement that no fault hits. *)
Lemma sql_Ok ou {A} (stmt : Z -> Tables -> result gerror (Tables * A)) w w' a :
  sql ou stmt w = (w', Ok a) ->
  exists now, stmt now (iw_tables w) = Ok (iw_tables w', a) /\ iw_fs w' = iw_fs w /\
              iw_graph w' = iw_graph w.
Proof.
  unfold sql, call. destruct (ou_fault ou _); [done|]. simpl.
  destruct (stmt _ _) as [[t x]|e] eqn:E; intros [= <- <-]. by eexists.
Qed.

Lemma sql_run ou {A} (stmt : Z -> Tables -> result gerror (Tables * A)) w t a :
  (forall n, ou_fault ou n = None) ->
  stmt (ou_now ou (iw_calls w)) (iw_tables w) = Ok (t, a) ->
  exists w', sql ou stmt w = (w', Ok a) /\ iw_tables w' = t /\ iw_fs w' = iw_fs w /\
             iw_graph w' = iw_graph w.
Proof.
  intros Hf Hs. unfold sql, call. rewrite Hf. simpl. rewrite Hs. by eexists.
Qed.


(** The life cycle of an indexing job in the worker of the repository-index queue. *)
Import repoindex.

(** Takes a computation apart along its binds and branches. *)
Ltac keep_step :=
  match goal with
  | |- PreOrder _ => apply _
  | |- keeps _ (ibind _ _) => refine (keeps_bind _ _ _ _ (fun _ => _))
  | |- keeps _ (itry _) => apply keeps_try
  | |- keeps _ (iwrap _ _) => apply keeps_wrap
  | |- keeps _ (iret _) => apply keeps_ret
  | |- keeps _ (ierr _) => apply keeps_err
  | |- keeps _ (icheck _) => apply keeps_check
  | |- keeps _ (ilift _) => apply keeps_lift
  | |- keeps _ (sys _ _) => apply keeps_sys
  | |- keeps _ (ctx_err _) => apply keeps_ctx_err
  | |- keeps _ (new_uuid _) => apply keeps_uuid
  | |- keeps _ (if ?b then _ else _) => destruct b
  | |- keeps _ (match ?x with _ => _ end) => destruct x
  | |- keeps _ (let '(_, _) := ?x in _) => destruct x
  end.

Ltac keep := repeat first [progress cbv zeta | keep_step | solve [eauto with keeps]].

(** ** What dispatching leaves alone *)

(** The jobs, and the organisation of every repository. *)
Definition jobs_kept (t t' : Tables) : Prop :=
  db_jobs (t_db t') = db_jobs (t_db t) /\
  forall k, repo_orgId <$> db_repos (t_db t') !! k = repo_orgId <$> db_repos (t_db t) !! k.

#[global] Instance jobs_kept_preorder : PreOrder jobs_kept.
Proof. split; [done|]. intros t1 t2 t3 [H1 H2] [H3 H4]. split; [congruence|]. intros k. by rewrite H4. Qed.

Lemma update_repo_kept repoID guard f t :
  (forall r, repo_orgId (f r) = repo_orgId r) -> jobs_kept t (update_repo repoID guard f t).
Proof.
  intros Hf. split; [done|]. intros k. simpl.
  destruct (decide (k = repoID)) as [->|Hk]; [|by rewrite lookup_alter_ne by congruence].
  rewrite lookup_alter_eq. destruct (_ !! _) as [r|]; simpl; [|done]. destruct (guard r); by rewrite ?Hf.
Qed.

Section Work.
Context (ou : Outside).

Local Notation quiet := (keeps (on_tables jobs_kept)).

Lemma refresh_kept repoID : quiet (RefreshRepoLatestIndexingJobStatus ou repoID).
Proof.
  unfold RefreshRepoLatestIndexingJobStatus. keep. apply keeps_sql; try apply _.
  intros now t t' a. destruct (newest_job _ _) as [[id j]|]; intros [= <- _]; [|done].
  by apply update_repo_kept.
Qed.

Lemma upsert_kept fault now goNow c st code msg db db' r t :
  upsertWithStatus fault now goNow c st code msg db = (db', r) -> t_db t = db ->
  jobs_kept t (set_db (fun _ => db') t).
Proof.
  intros H <-. enough (db_jobs db' = db_jobs (t_db t) /\ db_repos db' = db_repos (t_db t)) as [E1 E2].
  { split; simpl; [done|]. by rewrite E2. }
  revert H. unfold upsertWithStatus, exec, upsert_stmt.
  repeat case_match; simplify_eq/=; intros; simplify_eq/=; done.
Qed.

Lemma UpsertQueued_kept : forall c, quiet (sw_UpsertQueued (SubjobWriter := world_writer ou) c).
Proof.
  intros c. apply keeps_in_db; try apply _. intros. by eapply upsert_kept.
Qed.

Lemma persist_kept cs : quiet (persist (H := world_writer ou) cs).
Proof.
  induction cs as [|c cs IH]; intros w w' r; simpl; [intros [= <- _]; reflexivity|].
  destruct (in_db _ _ _) as [w1 x] eqn:E. intros H.
  pose proof (UpsertQueued_kept c w w1 x E) as H1. destruct x; [|by injection H as <- _].
  etrans; [exact H1|by eapply IH].
Qed.

Lemma PlanAndPersist_kept b i : quiet (PlanAndPersist (H := world_writer ou) b i).
Proof.
  intros w w' r. unfold PlanAndPersist. destruct b; simpl; [|intros [= <- _]; reflexivity].
  destruct (Build i) as [cs|e]; [|intros [= <- _]; reflexivity].
  destruct (persist _ _) as [w1 [u|e]] eqn:E; intros [= <- _]; by eapply persist_kept.
Qed.

Lemma upsert_skipped_kept cs : quiet (upsert_skipped ou cs).
Proof.
  induction cs as [|c cs IH]; simpl; keep. apply keeps_in_db; try apply _.
  intros fault now db db' r t. unfold UpsertSkipped. destruct (_ || _).
  - intros [= <- _] <-. done.
  - apply upsert_kept.
Qed.

Lemma persist_skipped_kept job repo ws l : quiet (persist_all_skipped ou job repo ws l).
Proof.
  induction l as [|[rev items] l IH]; simpl; keep. unfold persistSkippedSCIPProjects. keep.
  apply upsert_skipped_kept.
Qed.

(** A query. *)
Lemma query_kept {A} (f : Tables -> A) : quiet (sql ou (fun _ t => Ok (t, f t))).
Proof. apply keeps_sql; try apply _. by intros now t t' a [= <- _]. Qed.

Lemma fetch_previous_kept o r ws b : quiet (FetchPreviousReadyManifestFiles ou o r ws b).
Proof. unfold FetchPreviousReadyManifestFiles. keep; apply query_kept. Qed.

Lemma health_kept o r ws b c : quiet (FetchSemanticIndexHealth ou o r ws b c).
Proof. unfold FetchSemanticIndexHealth. keep. apply query_kept. Qed.

Lemma scope_kept r : quiet (FetchRepoIndexScope ou r).
Proof. unfold FetchRepoIndexScope. keep. apply query_kept. Qed.

Lemma fetch_repo_kept o r : quiet (FetchRepoForCleanup ou o r).
Proof. unfold FetchRepoForCleanup. keep. apply query_kept. Qed.

Lemma usable_kept o r ws b c : quiet (RecordUsableIndexedRevision ou o r ws b c).
Proof.
  unfold RecordUsableIndexedRevision. keep. apply keeps_sql; try apply _.
  intros now t t' a. destruct (_ !! r) as [rp|]; [|by intros [= <- _]].
  destruct (_ =? _); [|by intros [= <- _]].
  destruct (indexed_revisions _ _) as [old|]; [|done]. simpl.
  destruct (jsonb_set _ _ _) as [md|]; [|done]. simpl. intros [= <- _]. by apply update_repo_kept.
Qed.

Lemma insert_manifest_kept i : quiet (InsertPendingManifest ou i).
Proof.
  unfold InsertPendingManifest, InsertManifestFiles. keep.
  - apply keeps_sql; try apply _. intros now t t' a. unfold insert_manifest_stmt.
    destruct (bool_decide _); [done|]. destruct (negb _); [done|]. by intros [= <- _].
  - generalize (pm_Files i), (length (pm_Files i)). intros files fuel. revert files.
    induction fuel as [|n IH]; intros files; simpl; keep.
    apply keeps_sql; try apply _. intros now t t' u. unfold insert_files_stmt.
    destruct (negb _); [done|]. destruct (negb _); [done|].
    destruct (foldl _ _ _); [|done]. simpl. by intros [= <- _].
Qed.

Lemma materialize_kept src c dst : quiet (materializeCommitSnapshot ou src c dst).
Proof. unfold materializeCommitSnapshot. keep. Qed.

Lemma plan_one_kept cfg p repo scope wt sel : quiet (plan_one ou cfg p repo scope wt sel).
Proof.
  unfold plan_one. keep; try apply materialize_kept; try apply fetch_previous_kept;
    try apply health_kept; try apply usable_kept; try apply insert_manifest_kept.
  apply keeps_call; try apply _. by intros now w w' r [= <- _].
Qed.

Lemma plan_all_kept cfg p repo scope wt sels : quiet (plan_all ou cfg p repo scope wt sels).
Proof. induction sels as [|s sels IH]; simpl; keep. apply plan_one_kept. Qed.

Lemma planSplitIndex_kept cfg p repo wt c b : quiet (planSplitIndex ou cfg p repo wt c b).
Proof.
  unfold planSplitIndex. keep; try apply scope_kept; try apply plan_all_kept;
    try apply PlanAndPersist_kept; apply persist_skipped_kept.
Qed.

Lemma dispatchIndex_kept cfg p : quiet (dispatchIndex ou cfg p).
Proof.
  unfold dispatchIndex. keep; try apply fetch_repo_kept; try apply planSplitIndex_kept.
  by intros w w' r [= <- _].
Qed.

Lemma update_metadata_kept o r md f t t' u :
  (forall v x, repo_orgId (f v x) = repo_orgId x) ->
  update_metadata o r md f t = Ok (t', u) -> jobs_kept t t'.
Proof.
  intros Hf. unfold update_metadata. destruct (_ !! r) as [rp|]; [|by intros [= <- _]].
  destruct (_ =? _); [|by intros [= <- _]]. destruct (md _); [|done]. simpl.
  intros [= <- _]. by apply update_repo_kept.
Qed.

Lemma db_cleanup_kept o r ref : quiet (CleanupRepoDBStateForRef ou o r ref).
Proof.
  unfold CleanupRepoDBStateForRef, CleanupRepoDBState.
  keep; apply keeps_sql; try apply _; intros now t t' u;
    try (by intros [= <- _]); by apply update_metadata_kept.
Qed.

Lemma list_graphs_kept o r ref : quiet (ListGraphSnapshotsForCleanupRef ou o r ref).
Proof.
  unfold ListGraphSnapshotsForCleanupRef, ListGraphSnapshotsForCleanup. keep; apply query_kept.
Qed.

Lemma list_commits_kept o r ref : quiet (ListSnapshotCommitsForCleanupRef ou o r ref).
Proof. unfold ListSnapshotCommitsForCleanupRef. keep; apply query_kept. Qed.

Lemma remove_shards_kept dir hit es errs : quiet (remove_shards ou dir hit es errs).
Proof. revert errs. induction es as [|[n k] es IH]; intros errs; simpl; keep. Qed.

Lemma remove_matching_kept who dir hit : quiet (remove_matching_shards ou who dir hit).
Proof. unfold remove_matching_shards, read_dir. keep. apply remove_shards_kept. Qed.

Lemma remove_tree_kept who path : quiet (remove_tree ou who path).
Proof. unfold remove_tree. keep. Qed.

Lemma fs_cleanup_kept cfg repo ref : quiet (CleanupRepoFilesystemForRef ou cfg repo ref).
Proof.
  unfold CleanupRepoFilesystemForRef, CleanupRepoFilesystem.
  keep; first [apply remove_matching_kept|apply remove_tree_kept].
Qed.

Lemma remove_snapshots_kept cfg repo cs : quiet (remove_snapshots ou cfg repo cs).
Proof. induction cs as [|c cs IH]; simpl; keep. apply remove_tree_kept. Qed.

Lemma retire_kept s i : quiet (retire s i).
Proof. intros w w' r. unfold retire. destruct (MarkSnapshotForDeletion s i (iw_graph w)) as [e l]. by intros [= <- _]. Qed.

Lemma retire_all_kept s l : quiet (retire_all s l).
Proof. induction l as [|i l IH]; simpl; keep. apply retire_kept. Qed.

Lemma cleanup_kept h o r ref : quiet (dispatchCleanupScoped ou h o r ref).
Proof.
  unfold dispatchCleanupScoped, CleanupRepoSnapshots, CleanupRepoSnapshotsForCommits.
  keep; first [apply fetch_repo_kept|apply list_graphs_kept|apply retire_all_kept
    |apply list_commits_kept|apply db_cleanup_kept|apply fs_cleanup_kept|apply remove_tree_kept
    |apply remove_snapshots_kept].
Qed.

Lemma dispatch_kept h p : quiet (dispatch ou h p).
Proof.
  unfold dispatch. keep; [apply cleanup_kept|apply dispatchIndex_kept].
Qed.

(** ** Transitions *)

(** The outcome of a scoped transition: it happened, or nothing did. *)
Lemma scoped_inv pre job o r ty f w w' x :
  affected (iwrap pre (sql ou (scoped_stmt job o r ty f))) w = (w', x) ->
  iw_fs w' = iw_fs w /\ iw_graph w' = iw_graph w /\
  ((exists j now, x = Ok tt /\ db_jobs (iw_db w) !! job = Some j /\ job_is_active j = true /\
      iw_tables w' = set_db (set_jobs (<[job := f now j]>)) (iw_tables w)) \/
   (exists e, x = Err e /\ iw_tables w' = iw_tables w)).
Proof.
  unfold affected, iwrap, sql, call, ibind. destruct (ou_fault ou _) as [e|].
  { intros [= <- <-]. split_and!; [done..|]. right. by eexists. }
  unfold scoped_stmt. cbn [iw_tables]. destruct (job_type_of ty) as [t|].
  2:{ intros [= <- <-]. split_and!; [done..|]. right. by eexists. }
  unfold update_job, iw_db. destruct (db_jobs _ !! job) as [j|] eqn:Ej.
  2:{ intros [= <- <-]. split_and!; [done..|]. right. by eexists. }
  destruct (job_in_scope _ _ _ _ j) eqn:Es; intros [= <- <-]; (split_and!; [done..|]).
  - left. eexists j, _. split_and!; try done. unfold job_in_scope in Es. breflect. done.
  - right. by eexists.
Qed.

Definition in_scope (w : IndexWorld) (job : string) (o r : Z) (ty : string) : Prop :=
  exists j rp, db_jobs (iw_db w) !! job = Some j /\ job_is_active j = true /\ job_repoId j = r /\
    job_type_text (job_type j) = ty /\ db_repos (iw_db w) !! r = Some rp /\ repo_orgId rp = o.

Lemma job_type_of_text t : job_type_of (job_type_text t) = Some t.
Proof. by destruct t. Qed.

(** A job in its scope is moved, when no call fails. *)
Lemma scoped_run pre job o r ty f w w' x :
  (forall n, ou_fault ou n = None) -> in_scope w job o r ty ->
  affected (iwrap pre (sql ou (scoped_stmt job o r ty f))) w = (w', x) -> x = Ok tt.
Proof.
  intros Hf (j & rp & Hj & Ha & <- & <- & Hr & <-).
  unfold affected, iwrap, sql, call, ibind. rewrite Hf. unfold scoped_stmt. cbn [iw_tables].
  rewrite job_type_of_text. unfold update_job, iw_db in *. rewrite Hj. unfold job_in_scope.
  rewrite Hr, Ha, !Z.eqb_refl, bool_decide_eq_true_2 by done. simpl. by intros [= _ <-].
Qed.

(** The part of a job no transition changes. *)
Definition same_job (j j' : Job) : Prop :=
  job_repoId j' = job_repoId j /\ job_type j' = job_type j /\
  job_metadataRef j' = job_metadataRef j /\ job_createdAt j' = job_createdAt j.

#[global] Instance same_job_preorder : PreOrder same_job.
Proof. split; [done|]. unfold same_job. intros ???. naive_solver congruence. Qed.

(** The row of one job after a run, the others being as they were. *)
Definition only_job (job : string) (w w' : IndexWorld) (P : Job -> Prop) : Prop :=
  (forall id, id <> job -> db_jobs (iw_db w') !! id = db_jobs (iw_db w) !! id) /\
  exists j, db_jobs (iw_db w') !! job = Some j /\ P j.

Lemma kept_db w w' : on_tables jobs_kept w w' -> db_jobs (iw_db w') = db_jobs (iw_db w).
Proof. intros [H _]. exact H. Qed.

Lemma kept_scope w w' job o r ty :
  on_tables jobs_kept w w' -> in_scope w job o r ty -> in_scope w' job o r ty.
Proof.
  intros [H1 H2] (j & rp & Hj & Ha & Hr & Ht & Hrp & Ho). specialize (H2 r).
  unfold in_scope, iw_db in *. rewrite Hrp in H2. simpl in H2.
  destruct (db_repos (t_db (iw_tables w')) !! r) as [rp'|] eqn:E; [|done]. simpl in H2.
  exists j, rp'. split_and!; try done; congruence.
Qed.

(** The end of a run, after the row was written or not. *)
Lemma written_job job w w1 w2 w3 j (f : Z -> Job -> Job) now (P : Job -> Prop) :
  on_tables jobs_kept w w1 -> db_jobs (iw_db w1) !! job = Some j ->
  iw_tables w2 = set_db (set_jobs (<[job := f now j]>)) (iw_tables w1) ->
  on_tables jobs_kept w2 w3 -> P (f now j) -> only_job job w w3 P.
Proof.
  intros H1 Hj H2 H3 HP. apply kept_db in H1, H3.
  assert (E : db_jobs (iw_db w2) = <[job := f now j]> (db_jobs (iw_db w1))).
  { unfold iw_db at 1. by rewrite H2. }
  split; [|exists (f now j)]; rewrite H3, E; [|by rewrite lookup_insert_eq].
  intros id Hid. by rewrite lookup_insert_ne, H1 by done.
Qed.

Lemma unwritten_job job w w1 w2 w3 j (P : Job -> Prop) :
  on_tables jobs_kept w w1 -> iw_tables w2 = iw_tables w1 -> on_tables jobs_kept w2 w3 ->
  db_jobs (iw_db w) !! job = Some j -> P j -> only_job job w w3 P.
Proof.
  intros H1 H2 H3 Hj HP. apply kept_db in H1, H3.
  assert (E : db_jobs (iw_db w3) = db_jobs (iw_db w)).
  { rewrite H3, <- H1. unfold iw_db. by rewrite H2. }
  split; [|exists j]; by rewrite E.
Qed.

(** What running a started job leaves. *)
Lemma run_job_jobs h p w w' r j :
  run_job ou h p w = (w', r) -> db_jobs (iw_db w) !! tp_JobID p = Some j ->
  only_job (tp_JobID p) w w' (fun j' => same_job j j' /\
    match r with
    | Ok _ => (job_status j' = COMPLETED /\ job_completedAt j' <> None) \/
              (j' = j /\ exists w1 e, dispatch ou h p w = (w1, Err e) /\
                                      is_sentinel errIndexContinuesAsSubjobs e = true)
    | Err e => (j' = j /\ ((forall n, ou_fault ou n = None) ->
                 ~ in_scope w (tp_JobID p) (tp_OrgID p) (tp_RepoID p) (tp_Type p))) \/
               (job_status j' = FAILED /\ job_completedAt j' <> None /\
                 exists w1 d, dispatch ou h p w = (w1, Err d) /\
                              job_errorMessage j' = Some (err_text d))
    end).
Proof.
  intros H Hj. unfold run_job in H. cbv zeta in H.
  unfold ibind at 1 in H. unfold itry at 1 in H. destruct (dispatch ou h p w) as [w1 x] eqn:Ed.
  pose proof (dispatch_kept h p w w1 x Ed) as Hk. destruct x as [[]|d].
  - apply ibind_inv in H as [(w2 & [] & Hm & Ht)|(e & Hm & ->)]; apply iwrap_inv in Hm as (x & Hm & E).
    + destruct x as [[]|]; [|done]. clear E.
      apply ibind_inv in Ht as [(w3 & y & Hr & [= <- <-])|(e & Hr & ->)];
        apply itry_inv in Hr as (z & Hr & E); [|done]. apply refresh_kept in Hr.
      apply scoped_inv in Hm as (_ & _ & [(j1 & now & _ & Hj1 & _ & Hw)|(e & [=] & _)]).
      eapply written_job; [exact Hk|exact Hj1|exact Hw|exact Hr|].
      assert (j1 = j) as -> by (rewrite (kept_db _ _ Hk) in Hj1; congruence). by split; [|left].
    + pose proof Hm as Hm'. apply scoped_inv in Hm as (_ & _ & [(j1 & now & -> & _)|(e' & -> & Hw)]); [done|].
      eapply unwritten_job; [exact Hk|exact Hw|reflexivity|exact Hj|]. split; [done|]. left.
      split; [done|]. intros Hf Hs. apply (kept_scope _ _ _ _ _ _ Hk) in Hs. by apply scoped_run in Hm'.
  - destruct (is_sentinel _ d) eqn:Es.
    + apply ibind_inv in H as [(w3 & y & Hr & [= <- <-])|(e & Hr & ->)];
        apply itry_inv in Hr as (z & Hr & E); [|done]. apply refresh_kept in Hr.
      eapply (unwritten_job _ _ w1 w1); [exact Hk|done|exact Hr|exact Hj|]. split; [done|].
      right. by eauto.
    + apply ibind_inv in H as [(w2 & y & Hm & H)|(e & Hm & ->)];
        apply itry_inv in Hm as (x & Hm & E); [clear E|done].
      apply ibind_inv in H as [(w3 & z & Hr & [= <- <-])|(e & Hr & ->)];
        apply itry_inv in Hr as (z' & Hr & E); [|done]. apply refresh_kept in Hr.
      pose proof Hm as Hm'. apply scoped_inv in Hm as (_ & _ & [(j1 & now & -> & Hj1 & _ & Hw)|(e' & -> & Hw)]).
      * eapply (written_job _ _ _ _ _ _ (fun now => end_job_failed now (err_text d)));
          [exact Hk|exact Hj1|exact Hw|exact Hr|].
        assert (j1 = j) as -> by (rewrite (kept_db _ _ Hk) in Hj1; congruence).
        split; [done|]. right. by eauto 6.
      * eapply unwritten_job; [exact Hk|exact Hw|exact Hr|exact Hj|]. split; [done|]. left.
        split; [done|]. intros Hf Hs. apply (kept_scope _ _ _ _ _ _ Hk) in Hs. by apply scoped_run in Hm'.
Qed.
End Work.

(** ** A task *)

Section Task.
Context (ou : Outside).

(** The scope of a job is read from its row and its repository's. *)
Lemma fetch_scope_inv job w w' x :
  FetchJobScope ou job w = (w', x) ->
  iw_tables w' = iw_tables w /\ iw_fs w' = iw_fs w /\ iw_graph w' = iw_graph w /\
  (forall sc, x = Ok sc -> exists j rp, db_jobs (iw_db w) !! job = Some j /\
     db_repos (iw_db w) !! job_repoId j = Some rp /\
     sc = {| js_OrgID := repo_orgId rp; js_RepoID := job_repoId j;
             js_Type := job_type_text (job_type j) |}).
Proof.
  unfold FetchJobScope, ibind, itry, sql, call. destruct (ou_fault ou _) as [e|]; simpl.
  { intros [= <- <-]. done. }
  unfold iw_db. destruct (db_jobs _ !! job) as [j|]; [|by intros [= <- <-]].
  destruct (db_repos _ !! _) as [rp|] eqn:Er; intros [= <- <-]; split_and!; try done.
  intros sc [= <-]. by eauto.
Qed.

Lemma fetch_scope_run job w j rp :
  (forall n, ou_fault ou n = None) -> db_jobs (iw_db w) !! job = Some j ->
  db_repos (iw_db w) !! job_repoId j = Some rp ->
  (FetchJobScope ou job w).2 = Ok {| js_OrgID := repo_orgId rp; js_RepoID := job_repoId j;
                                     js_Type := job_type_text (job_type j) |}.
Proof.
  intros Hf Hj Hr. unfold FetchJobScope, ibind, itry, sql, call. rewrite Hf. simpl.
  unfold iw_db in *. by rewrite Hj, Hr.
Qed.

Lemma scope_match p sc : scope_mismatch p sc = false ->
  tp_OrgID p = js_OrgID sc /\ tp_RepoID p = js_RepoID sc /\ tp_Type p = js_Type sc.
Proof.
  unfold scope_mismatch. rewrite !orb_false_iff, !negb_false_iff.
  intros [[H1 H2] H3]. breflect. done.
Qed.

(** What a task may do to a job: nothing, or start or end it when it is active. *)
Definition job_step (j j' : Job) : Prop :=
  job_is_active j = true /\ same_job j j' /\
  (job_status j' = IN_PROGRESS \/
   (job_status j' = COMPLETED /\ job_completedAt j' <> None) \/
   (job_status j' = FAILED /\ job_completedAt j' <> None /\ job_errorMessage j' <> None)).

(** A task whose job is active, in a run without failed calls. *)
Definition runnable (h : Handler) (raw : string) (w : IndexWorld) : Prop :=
  rh_store h = true /\ (forall n, ou_fault ou n = None) /\
  exists p j rp, UnmarshalLegacyForBackfill raw = Ok p /\
    db_jobs (iw_db w) !! tp_JobID p = Some j /\ job_is_active j = true /\
    db_repos (iw_db w) !! job_repoId j = Some rp.

(** The row of the job when the task has ended with [r]. *)
Definition job_result (h : Handler) (raw : string) (w : IndexWorld) (r : result gerror unit)
    (j' : Job) : Prop :=
  match r with
  | Ok _ => (job_status j' = COMPLETED /\ job_completedAt j' <> None) \/ job_status j' = IN_PROGRESS
  | Err _ => (job_status j' = FAILED /\ job_completedAt j' <> None /\ job_errorMessage j' <> None)
             \/ (job_status j' = IN_PROGRESS /\ ~ runnable h raw w)
  end.

Definition job_moved (h : Handler) (raw : string) (w w' : IndexWorld) (r : result gerror unit) : Prop :=
  exists p j, UnmarshalLegacyForBackfill raw = Ok p /\ db_jobs (iw_db w) !! tp_JobID p = Some j /\
    job_is_active j = true /\
    only_job (tp_JobID p) w w' (fun j' => same_job j j' /\ job_result h raw w r j').

(** A payload for another scope ends the job. *)
Lemma mismatch_jobs h raw p j rp w w' r msg err :
  UnmarshalLegacyForBackfill raw = Ok p -> db_jobs (iw_db w) !! tp_JobID p = Some j ->
  db_repos (iw_db w) !! job_repoId j = Some rp ->
  (do! _ := itry (MarkFailedScoped ou (tp_JobID p) (repo_orgId rp) (job_repoId j)
                    (job_type_text (job_type j)) msg) in
   do! _ := itry (RefreshRepoLatestIndexingJobStatus ou (job_repoId j)) in ierr err) w = (w', r) ->
  (on_tables jobs_kept w w' /\ ~ runnable h raw w) \/ job_moved h raw w w' r.
Proof.
  intros Hp Hj Hr H.
  apply ibind_inv in H as [(w2 & y & Hm & H)|(e & Hm & ->)]; apply itry_inv in Hm as (x & Hm & E); [clear E|done].
  apply ibind_inv in H as [(w3 & z & Hw & [= <- <-])|(e & Hw & ->)];
    apply itry_inv in Hw as (z' & Hw & E); [|done]. apply refresh_kept in Hw.
  pose proof Hm as Hm'. apply scoped_inv in Hm as (_ & _ & [(j1 & now & -> & Hj1 & Ha & Ht)|(e & -> & Ht)]).
  - right. assert (j1 = j) as -> by congruence. exists p, j. split_and!; try done.
    eapply (written_job _ w w _ _ _ (fun now => end_job_failed now msg)); [reflexivity|exact Hj|exact Ht|exact Hw|]. split; [done|]. by left.
  - left. split; [unfold on_tables in *; by rewrite <- Ht|].
    intros (_ & Hf & p' & j' & rp' & Hp' & Hj' & Ha & Hr').
    assert (p' = p) as -> by congruence. assert (j' = j) as -> by congruence.
    eapply scoped_run in Hm'; [done|done|]. exists j, rp. by split_and!.
Qed.

(** A payload in the scope of its job runs it. *)
Lemma started_jobs h raw p0 p j rp w w' r :
  UnmarshalLegacyForBackfill raw = Ok p0 -> tp_JobID p = tp_JobID p0 ->
  db_jobs (iw_db w) !! tp_JobID p = Some j ->
  db_repos (iw_db w) !! job_repoId j = Some rp -> tp_OrgID p = repo_orgId rp ->
  tp_RepoID p = job_repoId j -> tp_Type p = job_type_text (job_type j) ->
  (do! x := itry (MarkInProgressScoped ou (tp_JobID p) (tp_OrgID p) (tp_RepoID p) (tp_Type p)) in
   match x with
   | Err e => if is_sentinel ErrJobInTerminalState e then iret tt
              else ierr (EWrap "MarkInProgressScoped: " e "")
   | Ok _ => run_job ou h p
   end) w = (w', r) ->
  (on_tables jobs_kept w w' /\ ~ runnable h raw w) \/ job_moved h raw w w' r.
Proof.
  intros Hp Hid Hj Hr Ho Hri Hty H.
  apply ibind_inv in H as [(w2 & y & Hm & H)|(e & Hm & ->)]; apply itry_inv in Hm as (x & Hm & E); [|done].
  injection E as ->. pose proof Hm as Hm'.
  assert (Hsc : job_is_active j = true -> in_scope w (tp_JobID p) (tp_OrgID p) (tp_RepoID p) (tp_Type p)).
  { intros Ha. exists j, rp. by rewrite Hri. }
  apply scoped_inv in Hm as (_ & _ & [(j1 & now & -> & Hj1 & Ha & Ht)|(e & -> & Ht)]).
  2:{ left. assert (iw_tables w' = iw_tables w2) as E.
      { by destruct (is_sentinel _ _); injection H as <- _. }
      split; [unfold on_tables; by rewrite E, Ht|].
      intros (_ & Hf & p' & j' & rp' & Hp' & Hj' & Ha & Hr'). 
      assert (p' = p0) as -> by congruence. rewrite <- Hid in Hj'.
      assert (j' = j) as -> by congruence. eapply scoped_run in Hm'; [done|done|]. by apply Hsc. }
  right. assert (j1 = j) as -> by congruence.
  assert (E2 : db_jobs (iw_db w2) = <[tp_JobID p := start_job now j]> (db_jobs (iw_db w))).
  { unfold iw_db at 1. by rewrite Ht. }
  eapply run_job_jobs in H as [Hoth (j' & Hj' & Hs & Hres)]; [|by rewrite E2, lookup_insert_eq].
  exists p0, j. rewrite <- Hid. split_and!; try done. split.
  { intros id Hne. by rewrite Hoth, E2, lookup_insert_ne by done. }
  exists j'. split_and!; [done|by etrans; [|exact Hs]|]. destruct r as [[]|e]; simpl.
  - destruct Hres as [?|[-> _]]; [by left|by right].
  - destruct Hres as [[-> Hn]|(Hst & Hc & w1 & d & _ & Hm)]; [right|left; by rewrite Hst, Hm].
    split; [done|]. intros (_ & Hf & _). apply (Hn Hf).
    exists (start_job now j), rp. rewrite E2, lookup_insert_eq, Hri. split_and!; try done.
    unfold iw_db. by rewrite Ht.
Qed.

Lemma Handle_jobs h raw w w' r :
  Handle ou h raw w = (w', r) ->
  (on_tables jobs_kept w w' /\ ~ runnable h raw w) \/ job_moved h raw w w' r.
Proof.
  unfold Handle. destruct (rh_store h) eqn:Es; simpl.
  2:{ intros [= <- <-]. left. split; [reflexivity|]. intros (H & _). congruence. }
  destruct (UnmarshalLegacyForBackfill raw) as [p|e] eqn:Ep.
  2:{ intros [= <- <-]. left. split; [reflexivity|].
      intros (_ & _ & p' & j & rp & H & _). congruence. }
  intros H. apply ibind_inv in H as [(w0 & p' & [= <- <-] & H)|(e & H & _)]; [|done].
  apply ibind_inv in H as [(w1 & y & H1 & H)|(e & H1 & ->)]; apply itry_inv in H1 as (x & H1 & E); [|done].
  injection E as ->. pose proof H1 as H1'. apply fetch_scope_inv in H1 as (Ht & _ & _ & Hsc).
  destruct x as [sc|e].
  - destruct (Hsc sc eq_refl) as (j & rp & Hj & Hr & ->). clear Hsc. cbv zeta in H.
    assert (Hkeep : on_tables jobs_kept w1 w' -> on_tables jobs_kept w w').
    { unfold on_tables. by rewrite Ht. }
    assert (Hj1 : db_jobs (iw_db w1) !! tp_JobID p = Some j) by (unfold iw_db; by rewrite Ht).
    assert (Hr1 : db_repos (iw_db w1) !! job_repoId j = Some rp) by (unfold iw_db; by rewrite Ht).
    assert (Hdb : iw_db w1 = iw_db w) by (unfold iw_db; by rewrite Ht).
    assert (G : (on_tables jobs_kept w1 w' /\ ~ runnable h raw w1) \/ job_moved h raw w1 w' r).
    { destruct (scope_mismatch _ _) eqn:Em.
      - eapply mismatch_jobs; [exact Ep|exact Hj1|exact Hr1|exact H].
      - apply scope_match in Em as (? & ? & ?).
        by refine (started_jobs _ _ p (backfill p _) _ _ _ _ _ Ep eq_refl Hj1 Hr1 _ _ _ H). }
    unfold job_moved, job_result, only_job, runnable in *. rewrite Hdb in G.
    destruct G as [[G1 G2]|G]; [left; split; auto|right; exact G].
  - left. split.
    + assert (iw_tables w' = iw_tables w1) as E by (by destruct (is_sentinel _ _); injection H as <- _).
      unfold on_tables. by rewrite E, Ht.
    + intros (_ & Hf & p' & j & rp & Hp' & Hj & _ & Hr). assert (p' = p) as -> by congruence.
      by rewrite (surjective_pairing (FetchJobScope _ _ _)), (fetch_scope_run _ _ _ _ Hf Hj Hr) in H1'.
Qed.

(** ** The organisation of a repository *)

Definition orgs_kept (t t' : Tables) : Prop :=
  forall k, repo_orgId <$> db_repos (t_db t') !! k = repo_orgId <$> db_repos (t_db t) !! k.

#[global] Instance orgs_kept_preorder : PreOrder orgs_kept.
Proof. split; [done|]. intros t1 t2 t3 H1 H2 k. by rewrite H2. Qed.

Lemma jobs_orgs_kept {A} (m : IM A) : keeps (on_tables jobs_kept) m -> keeps (on_tables orgs_kept) m.
Proof. intros H w w' r E. by apply H in E as [_ E]. Qed.

Lemma scoped_orgs_kept pre job o r ty f :
  keeps (on_tables orgs_kept) (affected (iwrap pre (sql ou (scoped_stmt job o r ty f)))).
Proof.
  unfold affected. keep. apply keeps_sql; try apply _. intros now t t' a. unfold scoped_stmt.
  destruct (job_type_of ty); [|done]. unfold update_job. repeat case_match; by intros [= <- _].
Qed.

Lemma Handle_orgs_kept h raw : keeps (on_tables orgs_kept) (Handle ou h raw).
Proof.
  unfold Handle, run_job. keep;
    first [apply scoped_orgs_kept | apply jobs_orgs_kept, refresh_kept | apply jobs_orgs_kept, dispatch_kept
          | apply jobs_orgs_kept; unfold FetchJobScope; keep; apply query_kept].
Qed.

(** A task for a job that has ended does nothing. *)
Lemma ended_job_noop h raw w p j rp :
  rh_store h = true -> (forall n, ou_fault ou n = None) -> UnmarshalLegacyForBackfill raw = Ok p ->
  db_jobs (iw_db w) !! tp_JobID p = Some j -> job_is_active j = false ->
  db_repos (iw_db w) !! job_repoId j = Some rp ->
  scope_mismatch (backfill p {| js_OrgID := repo_orgId rp; js_RepoID := job_repoId j;
                                js_Type := job_type_text (job_type j) |})
    {| js_OrgID := repo_orgId rp; js_RepoID := job_repoId j;
       js_Type := job_type_text (job_type j) |} = false ->
  exists w', Handle ou h raw w = (w', Ok tt) /\ iw_tables w' = iw_tables w /\
    iw_fs w' = iw_fs w /\ iw_graph w' = iw_graph w.
Proof.
  intros Hst Hf Hp Hj Ha Hr Hm. pose proof (fetch_scope_run _ _ _ _ Hf Hj Hr) as Hs.
  destruct (FetchJobScope ou (tp_JobID p) w) as [w1 x] eqn:E1. simpl in Hs. subst x.
  pose proof E1 as E1'. apply fetch_scope_inv in E1 as (Ht & Hfs & Hg & _).
  unfold Handle. rewrite Hst. simpl. rewrite Hp.
  unfold ibind, itry, iwrap, ilift, iret. rewrite E1', Hm.
  destruct (MarkInProgressScoped _ _ _ _ _ _) as [w2 x] eqn:E2.
  unfold MarkInProgressScoped, affected, ibind, iwrap, sql, call in E2. rewrite Hf in E2.
  cbn [iw_tables] in E2. rewrite Ht in E2. unfold scoped_stmt in E2.
  apply scope_match in Hm as (_ & _ & Hty). simpl in Hty, E2.
  rewrite Hty, job_type_of_text in E2. unfold update_job, iw_db in *. rewrite Hj in E2.
  unfold job_in_scope in E2. rewrite Ha, andb_false_r in E2. simpl in E2.
  injection E2 as <- <-. simpl. eexists. split; [reflexivity|]. simpl. by rewrite Hfs, Hg.
Qed.

(** ** Properties *)


(** A task that failed is not run again.  Its job is FAILED, so that when the
    queue delivers the same message again after the error, the handler returns nil
    and changes neither the tables nor the files nor the graph. *)
Theorem failed_task_not_retried h raw w w1 e p j rp :
  rh_store h = true -> (forall n, ou_fault ou n = None) ->
  UnmarshalLegacyForBackfill raw = Ok p -> db_jobs (iw_db w) !! tp_JobID p = Some j ->
  job_is_active j = true -> db_repos (iw_db w) !! job_repoId j = Some rp ->
  tp_OrgID p = repo_orgId rp -> tp_RepoID p = job_repoId j -> tp_Type p = job_type_text (job_type j) ->
  Handle ou h raw w = (w1, Err e) ->
  exists w2, Handle ou h raw w1 = (w2, Ok tt) /\ iw_tables w2 = iw_tables w1 /\
    iw_fs w2 = iw_fs w1 /\ iw_graph w2 = iw_graph w1.
Proof.
  intros Hst Hf Hp Hj Ha Hr Ho Hri Hty H. pose proof (Handle_orgs_kept _ _ _ _ _ H (job_repoId j)) as Hk.
  apply Handle_jobs in H as [[_ H]|(p' & j0 & Hp' & Hj0 & _ & _ & j' & Hj' & Hs & Hres)].
  { exfalso. apply H. by split_and!; eauto 10. }
  assert (p' = p) as -> by congruence. assert (j0 = j) as -> by congruence.
  fold (iw_db w) (iw_db w1) in Hk. rewrite Hr in Hk. simpl in Hk.
  destruct (db_repos (iw_db w1) !! job_repoId j) as [rp1|] eqn:Er; [|done]. injection Hk as Hk.
  destruct Hs as (E1 & E2 & _).
  destruct Hres as [(Hfl & _)|[_ Hn]]; [|exfalso; apply Hn; by split_and!; eauto 10].
  eapply (ended_job_noop _ _ _ p j' rp1); try done; [|by rewrite E1|].
  { unfold job_is_active. by rewrite Hfl. }
  unfold scope_mismatch, backfill. simpl. rewrite E1, E2, Hk, <- Ho, <- Hri, <- Hty.
  destruct (tp_OrgID p =? 0), (tp_RepoID p =? 0); by rewrite ?Z.eqb_refl, ?str_eqb_refl.
Qed.
End Task.
