(* ===== verification/RepoCleanupFacts.v ===== *)
(** Cleanup of a repository or of one branch: the rows its statements remove, the paths
    its file operations touch, and that both stay inside the repository. *)
From Stdlib Require Import Ascii.
From S2P Require Import Prelude GoStd GoStdFacts GoJSON SubjobTypes SubjobStore Planner ManifestDelta FileTree.
From S2P Require Import Scheduler RepoPaths GraphSchema GraphStore RepoIndexDB RepoJobs RepoTask RepoCleanup.
From S2P Require Import RepoHandler RepoJobFacts.
(** ** Filters *)

Lemma existsb_false {A} (f : A -> bool) l : existsb f l = false <-> forall x, x ∈ l -> f x = false.
Proof.
  split.
  - intros H x Hx. destruct (f x) eqn:E; [|done]. exfalso. apply not_true_iff_false in H. apply H.
    apply existsb_exists. exists x. by rewrite <- list_elem_of_In.
  - intros H. apply not_true_iff_false. intros (x & Hx & Hf)%existsb_exists.
    rewrite <- list_elem_of_In in Hx. by rewrite H in Hf.
Qed.

Lemma any_of_spec refs x : any_of refs x = true <-> x ∈ refs.
Proof. apply bool_decide_eq_true. Qed.

Lemma any_of_false refs x : any_of refs x = false <-> x ∉ refs.
Proof. apply bool_decide_eq_false. Qed.

Lemma of_repo_spec o r x y : of_repo o r x y = true <-> y = r /\ x = o.
Proof. unfold of_repo. by rewrite andb_true_iff, !Z.eqb_eq. Qed.

#[export] Hint Rewrite any_of_spec any_of_false of_repo_spec : gobool.

Lemma candidates_nonempty ref : TrimSpace ref <> "" -> cleanupRefCandidates ref <> [].
Proof.
  intros H. unfold cleanupRefCandidates. rewrite (proj2 (str_eqb_false _ _) H). intros E.
  assert (Hin : TrimSpace ref ∈ @nil string); [|by apply elem_of_nil in Hin].
  rewrite <- E. apply elem_of_dedup_first. split; [|by apply not_elem_of_nil].
  apply elem_of_List_filter. cbn [map]. rewrite TrimSpace_idemp. split; [left|].
  by rewrite (proj2 (str_eqb_false _ _) H).
Qed.

Section Rows.
Context (ou : Outside) (o r : Z) (ref : string).
Let refs := cleanupRefCandidates ref.

(** The rows a cleanup of the reference removes. *)
Definition ref_manifest (m : Manifest) : bool := manifest_of_repo o r m && any_of refs (mf_branch m).
Definition ref_index (x : CodeIntelIndex) : bool :=
  index_of_repo o r x && (any_of refs (cix_branch x) || any_of refs (cii_revision (cix_key x))).
Definition ref_revision (x : CodeGraphRevision) : bool :=
  revision_of_repo o r x && any_of refs (gr_revision x).

Definition ref_tables (t : Tables) : Tables :=
  delete_manifests ref_manifest (delete_indexes ref_index (delete_revisions_stmt o r refs t)).

Lemma ref_cleanup_tables w w' :
  TrimSpace ref <> "" -> CleanupRepoDBStateForRef ou o r ref w = (w', Ok tt) ->
  exists now, update_metadata o r (remaining_revisions ou refs) (keep_indexed now)
                (ref_tables (iw_tables w)) = Ok (iw_tables w', tt).
Proof.
  intros Hne. pose proof (candidates_nonempty ref Hne) as Hc. unfold CleanupRepoDBStateForRef.
  destruct (o <=? 0); [done|]. fold refs in Hc |- *. cbv zeta.
  destruct refs as [|c cs] eqn:Er; [done|]. rewrite <- Er.
  intros (w1 & [] & (n1 & E1 & _)%iwrap_Ok%sql_Ok & H)%ibind_Ok.
  apply ibind_Ok in H as (w2 & [] & (n2 & E2 & _)%iwrap_Ok%sql_Ok & H).
  apply ibind_Ok in H as (w3 & [] & (n3 & E3 & _)%iwrap_Ok%sql_Ok & H).
  apply iwrap_Ok, sql_Ok in H as (now & H & _). exists now. unfold ref_tables.
  injection E1 as E1. injection E2 as E2. injection E3 as E3.
  unfold ref_manifest, ref_index. fold refs. rewrite Er, <- Er in *. by rewrite E1, E2, E3.
Qed.

(** The graph indexes of the removed revisions are never orphans for the statement
    that removes them: it sees the revisions as they were. *)
Lemma no_orphan id g t :
  graph_of_repo o r g
  && any_of (map (fun kv => gr_codeGraphIndexId kv.2)
               (List.filter (fun kv => ref_revision kv.2) (map_to_list (t_revisions t)))) id
  && negb (existsb (fun kv => (gr_codeGraphIndexId kv.2 =s id) && (gr_orgId kv.2 =? gx_orgId g)
                              && (gr_repoId kv.2 =? gx_repoId g)) (map_to_list (t_revisions t))) = false.
Proof.
  apply not_true_iff_false. rewrite !andb_true_iff, negb_true_iff, existsb_false.
  intros [[Hg (kv & -> & [Hin Hh]%elem_of_List_filter)%any_of_spec%list_elem_of_fmap] Hn].
  apply Hn in Hin. unfold ref_revision, revision_of_repo, graph_of_repo in *.
  rewrite andb_true_iff in Hh. destruct Hh as [Hr _].
  apply of_repo_spec in Hr as [E1 E2], Hg as [E3 E4].
  by rewrite E1, E2, E3, E4, !Z.eqb_refl, str_eqb_refl in Hin.
Qed.

Lemma revisions_stmt_graphs t :
  t_graphs (delete_revisions_stmt o r refs t) = t_graphs t /\
  t_revisions (delete_revisions_stmt o r refs t)
    = filter (fun kv => ref_revision kv.2 = false) (t_revisions t).
Proof.
  unfold delete_revisions_stmt, delete_graphs. simpl. fold refs.
  change (fun r0 => revision_of_repo o r r0 && any_of refs (gr_revision r0)) with ref_revision.
  split.
  - apply map_filter_id. intros id g _. apply no_orphan.
  - apply map_filter_id. intros id x Hx. simpl. destruct (t_graphs t !! _); [|done]. apply no_orphan.
Qed.

Lemma ref_tables_rows t :
  let t' := ref_tables t in
  t_graphs t' = t_graphs t /\
  t_revisions t' = filter (fun kv => ref_revision kv.2 = false) (t_revisions t) /\
  db_manifests (t_db t') = List.filter (fun m => negb (ref_manifest m)) (db_manifests (t_db t)) /\
  db_indexes (t_db t') = List.filter (fun x => negb (ref_index x)) (db_indexes (t_db t)) /\
  t_files t' = filter (fun kv => any_of (map mf_id (List.filter ref_manifest (db_manifests (t_db t))))
                                   kv.1.1 = false) (t_files t) /\
  db_repos (t_db t') = db_repos (t_db t) /\ db_jobs (t_db t') = db_jobs (t_db t).
Proof.
  unfold ref_tables. cbn -[delete_revisions_stmt].
  by destruct (revisions_stmt_graphs t) as [-> ->].
Qed.

(** ** The list of indexed revisions *)

Lemma indexed_set v l v' :
  jsonb_set v "indexedRevisions" (jsonb_agg l) = Ok v' -> indexed_revisions ou (Some v') = Ok l.
Proof. apply set_elements. Qed.

(** The effect on the row of the repository. *)
Lemma metadata_effect now t t' :
  update_metadata o r (remaining_revisions ou refs) (keep_indexed now) t = Ok (t', tt) ->
  (forall rp, db_repos (t_db t) !! r = Some rp -> repo_orgId rp = o ->
     exists old rp', indexed_revisions ou (repo_metadata rp) = Ok old /\
       db_repos (t_db t') !! r = Some rp' /\
       indexed_revisions ou (repo_metadata rp') = Ok (List.filter (fun v => negb (any_of refs v)) old) /\
       repo_orgId rp' = o /\ repo_indexedAt rp' = repo_indexedAt rp /\
       repo_indexedCommitHash rp' = repo_indexedCommitHash rp) /\
  exists f, t' = set_db (set_repos f) t /\ forall k, k <> r -> f (db_repos (t_db t)) !! k = db_repos (t_db t) !! k.
Proof.
  unfold update_metadata. destruct (db_repos (t_db t) !! r) as [rp|] eqn:Er.
  2:{ intros [= <-]. split; [done|]. exists (fun m => m). split; [by destruct t as [[]]|done]. }
  destruct (repo_orgId rp =? o) eqn:Eo.
  2:{ intros [= <-]. apply Z.eqb_neq in Eo. split; [intros rp' [= <-]; done|].
      exists (fun m => m). split; [by destruct t as [[]]|done]. }
  unfold remaining_revisions. destruct (indexed_revisions ou (repo_metadata rp)) as [old|] eqn:Eold; [|done].
  simpl. destruct (jsonb_set _ _ _) as [v|] eqn:Ev; [|done]. simpl. intros [= <-]. apply Z.eqb_eq in Eo.
  split.
  - intros rp' [= <-] _. exists old, (keep_indexed now v rp). split_and!; try done.
    + simpl. by rewrite lookup_alter_eq, Er.
    + simpl. by apply indexed_set in Ev.
  - eexists. split; [reflexivity|]. intros k Hk. by rewrite lookup_alter_ne.
Qed.
End Rows.

(** ** Files *)

Lemma split_clean p :
  p <> "" -> Clean p = p -> path_elems p <> [] ->
  SplitByte "/" p = (if rooted p then [""] else []) ++ path_elems p.
Proof.
  intros Hp Hc Hne. rewrite Clean_render in Hc by done.
  destruct (path_elems_shape p) as (k & l & E & Hl & Hk).
  assert (Hs : SplitByte "/" (Join (path_elems p) "/") = path_elems p).
  { apply SplitByte_Join; [done|]. rewrite E. by apply shape_slash_free. }
  rewrite <- Hc at 1. unfold render_path. destruct (rooted p).
  - change ("/" +:+ Join (path_elems p) "/") with ("" +:+ "/" +:+ Join (path_elems p) "/").
    by rewrite SplitByte_sep, Hs.
  - by destruct (path_elems p).
Qed.

(** A clean path that starts with the text of a directory lies within it. *)
Lemma at_or_below_within d q :
  d <> "" -> Clean d = d -> path_elems d <> [] -> Clean q = q -> at_or_below d q = true -> within q d.
Proof.
  intros Hd Hcd Hed Hcq. unfold at_or_below, below. intros [->%str_eqb_spec|H]%orb_true_iff.
  { split; [done|]. exists []. by rewrite app_nil_r. }
  apply HasPrefix_spec in H as [rest ->]. rewrite str_app_assoc in *.
  assert (Hq : d +:+ "/" +:+ rest <> "") by by destruct d.
  split; [by apply rooted_app|].
  assert (Heq : path_elems (d +:+ "/" +:+ rest) <> []).
  { intros E. rewrite (Clean_render _ Hq), E in Hcq. destruct d as [|c [|c' d]]; [done|..];
      destruct (rooted _); done. }
  pose proof (split_clean _ Hq Hcq Heq) as E. rewrite SplitByte_sep, split_clean in E by done.
  rewrite rooted_app, <- app_assoc in E by done. apply app_inv_head in E. eauto.
Qed.

Lemma plain_name name o r :
  HasPrefix name (ShardFilePrefix o r) = true -> slash_free name -> plain name.
Proof.
  intros H Hs. apply HasPrefix_spec in H as [x ->]. rewrite ShardFilePrefix_eq in *.
  assert (Hu : "_"%char ∈ String.list_ascii_of_string ((Itoa o +:+ String "_" (Itoa r +:+ "_")) +:+ x)).
  { rewrite !list_of_str_app. set_solver. }
  split_and!; try done; intros E; rewrite E in Hu; simpl in Hu; set_solver.
Qed.

(** Only paths that satisfy [touch] may change. *)
Definition spares (touch : string -> Prop) (fs fs' : FS) : Prop :=
  forall q, fs' !! q = fs !! q \/ touch q.

#[global] Instance spares_preorder touch : PreOrder (spares touch).
Proof.
  split; [by left|]. intros f1 f2 f3 H1 H2 q. destruct (H1 q), (H2 q); auto. left. congruence.
Qed.

Lemma spares_mono (t1 t2 : string -> Prop) {A} (m : IM A) :
  (forall q, t1 q -> t2 q) -> keeps (on_files (spares t1)) m -> keeps (on_files (spares t2)) m.
Proof. intros Ht Hm w w' r E q. destruct (Hm w w' r E q); auto. Qed.

Lemma ReadDir_names dir fs n k : (n, k) ∈ ReadDir dir fs -> slash_free n.
Proof.
  unfold ReadDir. rewrite elem_of_sort_stable. intros [_ H]%elem_of_List_filter. simpl in H.
  apply negb_true_iff, not_true_iff_false in H. intros Hin. apply H, Contains_spec.
  apply list_elem_of_split in Hin as (l1 & l2 & E).
  exists (String.string_of_list_ascii l1), (String.string_of_list_ascii l2).
  rewrite <- (String.string_of_list_ascii_of_string n), E, str_of_list_app. done.
Qed.

Section Spared.
Context (ou : Outside) (touch : string -> Prop).
Local Notation spared := (keeps (on_files (spares touch))).

Lemma remove_tree_spares who path :
  (forall q, at_or_below path q = true -> touch q) -> spared (remove_tree ou who path).
Proof.
  intros Ht. unfold remove_tree. keep; apply files_sys; try apply _; intros fs q; [by left|]. simpl.
  rewrite lookup_RemoveAll. destruct (at_or_below path q) eqn:E; auto.
Qed.

Lemma remove_shards_spares dir hit es errs :
  (forall n k, (n, k) ∈ es -> hit n = true -> touch (FilepathJoin [dir; n])) ->
  spared (remove_shards ou dir hit es errs).
Proof.
  revert errs. induction es as [|[n k] es IH]; intros errs Hes; [simpl; keep|]. cbn [remove_shards].
  assert (Hes' : forall n k, (n, k) ∈ es -> hit n = true -> touch (FilepathJoin [dir; n])).
  { intros n' k' Hin. apply (Hes n' k'). by right. }
  destruct (hit n) eqn:E; [|rewrite orb_true_r; by apply IH].
  destruct (bool_decide (k = KDir)); simpl; [by apply IH|]. apply keeps_bind; try apply _.
  - apply keeps_try, files_sys; try apply _. intros fs q. simpl. unfold Remove.
    destruct (decide (q = FilepathJoin [dir; n])) as [->|Hne]; [right; eapply Hes; [by left|done]|].
    left. by apply lookup_delete_ne.
  - intros a. by apply IH.
Qed.

Lemma read_dir_names who dir w w' es :
  read_dir ou who dir w = (w', Ok (Some es)) -> forall n k, (n, k) ∈ es -> slash_free n.
Proof.
  unfold read_dir. intros H%iwrap_Ok. unfold sys, call in H. destruct (ou_fault ou _); [done|].
  simpl in H. destruct (Exists dir (iw_fs w)); simplify_eq. apply ReadDir_names.
Qed.

Lemma matching_shards_spares who dir hit :
  (forall n, slash_free n -> hit n = true -> touch (FilepathJoin [dir; n])) ->
  spared (remove_matching_shards ou who dir hit).
Proof.
  intros Ht w w' r. unfold remove_matching_shards. destruct (dir =s ""); [by intros [= <- _]|].
  assert (Hr : spared (read_dir ou who dir)).
  { unfold read_dir. keep. apply files_sys; try apply _. by left. }
  intros H. apply ibind_inv in H as [(w1 & x & H1 & H)|(e & H1 & _)]; [|by eapply Hr].
  etrans; [by eapply Hr|]. destruct x as [es|]; [|by injection H as <- _].
  eapply (keeps_bind (on_files (spares touch)) (remove_shards ou dir hit es [])
            (fun errs => match errs with [] => iret tt | _ => _ end)); [| |exact H].
  - apply remove_shards_spares. intros n k Hin Hhit. apply Ht; [|done].
    by eapply read_dir_names.
  - intros []; keep.
Qed.
End Spared.

Lemma keeps_bind_lift (R : IndexWorld -> IndexWorld -> Prop) `{!PreOrder R} {A B} pre
    (x : result gerror A) (k : A -> IM B) :
  (forall a, x = Ok a -> keeps R (k a)) -> keeps R (ibind (iwrap pre (ilift x)) k).
Proof.
  intros Hk w w' y. destruct x as [a|e]; [by apply Hk|]. intros [= <- _]. reflexivity.
Qed.

(** The paths a cleanup may remove: the shards of the repository; for one branch
    the snapshots of the given commits; for the whole repository its clone, unless
    it is read in place, and its snapshots. *)
Inductive touched (Parse : string -> option (string * string)) (cfg : Config) (repo : RepoPaths.Repo)
    (ref : string) (commits : list string) : string -> Prop :=
| touched_shard name :
    slash_free name -> HasPrefix name (ShardFilePrefix (rp_OrgID repo) (rp_RepoID repo)) = true ->
    touched Parse cfg repo ref commits (FilepathJoin [ZoektIndexPath cfg repo; name])
| touched_commit c q :
    c ∈ commits ->
    at_or_below (RevisionSnapshotPath cfg (rp_OrgID repo) (rp_RepoID repo) (TrimSpace c)) q = true ->
    touched Parse cfg repo ref commits q
| touched_clone p q :
    TrimSpace ref = "" -> RepoPath Parse cfg repo = Ok (p, false) -> at_or_below p q = true ->
    touched Parse cfg repo ref commits q
| touched_snapshots q :
    TrimSpace ref = "" ->
    at_or_below (RevisionSnapshotRepoRoot cfg (rp_OrgID repo) (rp_RepoID repo)) q = true ->
    touched Parse cfg repo ref commits q.

Lemma candidates_empty ref : TrimSpace ref = "" -> cleanupRefCandidates ref = [].
Proof. intros H. unfold cleanupRefCandidates. by rewrite H. Qed.

Section Work.
Context (ou : Outside) (cfg : Config) (repo : RepoPaths.Repo) (ref : string) (commits : list string).
Local Notation touch := (touched (ou_url_Parse ou) cfg repo ref commits).
Local Notation spared := (keeps (on_files (spares touch))).

Lemma filesystem_spares : spared (CleanupRepoFilesystemForRef ou cfg repo ref).
Proof.
  unfold CleanupRepoFilesystemForRef. apply keeps_bind; [apply _|apply keeps_ctx_err; apply _|].
  intros _. cbv zeta. destruct (cleanupRefCandidates ref) as [|c cs] eqn:Ec.
  - assert (Hr : TrimSpace ref = "").
    { destruct (decide (TrimSpace ref = "")) as [|H]; [done|]. by apply candidates_nonempty in H. }
    unfold CleanupRepoFilesystem. apply keeps_bind; [apply _|apply keeps_ctx_err; apply _|]. intros _.
    apply keeps_bind_lift; [apply _|]. intros [p ro] Ep. apply keeps_bind; [apply _| |]; [|intros _; apply keeps_bind; [apply _| |]].
    + destruct (negb ro && _) eqn:E; [|keep]. apply andb_true_iff in E as [->%negb_true_iff _].
      apply remove_tree_spares. intros q Hq. by eapply touched_clone.
    + apply keeps_ctx_err; apply _.
    + intros _. apply matching_shards_spares. intros n Hs Hh. by constructor.
  - apply matching_shards_spares. intros n Hs Hh. constructor; [done|].
    apply andb_true_iff in Hh as [Hh _]. by apply andb_true_iff in Hh as [Hh _].
Qed.

Lemma commit_snapshots_spares : spared (CleanupRepoSnapshotsForCommits ou cfg repo commits).
Proof.
  unfold CleanupRepoSnapshotsForCommits.
  assert (Hall : forall c, c ∈ dedup_first [] (List.filter (fun c => negb (c =s "")) (map TrimSpace commits)) ->
                 exists d, d ∈ commits /\ c = TrimSpace d).
  { intros c [[(d & -> & Hd)%list_elem_of_fmap _]%elem_of_List_filter _]%elem_of_dedup_first. eauto. }
  revert Hall. generalize (dedup_first [] (List.filter (fun c => negb (c =s "")) (map TrimSpace commits))).
  intros l. induction l as [|c l IH]; intros Hall; simpl; [keep|].
  apply keeps_bind; [apply _| |].
  - apply remove_tree_spares. intros q Hq. destruct (Hall c) as (d & Hd & ->); [by left|].
    by eapply touched_commit.
  - intros _. apply IH. intros c' Hc'. apply Hall. by right.
Qed.

Lemma all_snapshots_spares : TrimSpace ref = "" -> spared (CleanupRepoSnapshots ou cfg repo).
Proof.
  intros Hr. unfold CleanupRepoSnapshots. apply keeps_bind; [apply _|apply keeps_ctx_err; apply _|].
  intros _. cbv zeta. destruct (_ =s ""); [keep|]. apply remove_tree_spares.
  intros q Hq. by eapply touched_snapshots.
Qed.
End Work.


(** The handler of a cleanup task: it stays inside its repository, and a cleanup
    of one branch keeps what other branches share. *)
(** ** The handler of a cleanup task *)

(** Only the count of calls differs. *)
Definition unchanged (w w' : IndexWorld) : Prop :=
  iw_tables w' = iw_tables w /\ iw_fs w' = iw_fs w /\ iw_graph w' = iw_graph w.

#[global] Instance unchanged_preorder : PreOrder unchanged.
Proof. split; [done|]. intros w1 w2 w3 (?&?&?) (?&?&?). split_and!; congruence. Qed.

Section Handler.
Context (ou : Outside) (h : Handler) (o r : Z).

Lemma query_unchanged {A} (f : Tables -> A) : keeps unchanged (sql ou (fun _ t => Ok (t, f t))).
Proof.
  intros w w' x. unfold sql, call. destruct (ou_fault ou _); by intros [= <- _].
Qed.

Lemma fetch_unchanged : keeps unchanged (FetchRepoForCleanup ou o r).
Proof. unfold FetchRepoForCleanup. keep. apply query_unchanged. Qed.

Lemma graphs_unchanged ref : keeps unchanged (ListGraphSnapshotsForCleanupRef ou o r ref).
Proof.
  unfold ListGraphSnapshotsForCleanupRef, ListGraphSnapshotsForCleanup. keep; apply query_unchanged.
Qed.

Lemma commits_unchanged ref : keeps unchanged (ListSnapshotCommitsForCleanupRef ou o r ref).
Proof. unfold ListSnapshotCommitsForCleanupRef. keep. apply query_unchanged. Qed.

Lemma fetch_repo_ids w w' repo :
  FetchRepoForCleanup ou o r w = (w', Ok repo) -> rp_OrgID repo = o /\ rp_RepoID repo = r.
Proof.
  unfold FetchRepoForCleanup. destruct (o <=? 0); [done|].
  intros (w1 & y & (x & H1 & E)%itry_inv & H)%ibind_Ok. injection E as ->.
  destruct x as [[rp|]|e]; try done. injection H as _ <-. apply sql_Ok in H1 as (now & H1 & _).
  injection H1 as _ H1. destruct (_ !! r) as [x|]; [|done].
  destruct (repo_orgId x =? o) eqn:E; [|done]. injection H1 as <-. simpl. by apply Z.eqb_eq in E.
Qed.

(** The tables and files stay while graph snapshots are retired. *)
Lemma retire_all_same s l w w' x :
  retire_all s l w = (w', x) -> iw_tables w' = iw_tables w /\ iw_fs w' = iw_fs w.
Proof.
  revert w w' x. induction l as [|i l IH]; intros w w' x; simpl; [by intros [= <- _]|].
  unfold ibind at 1, iwrap, retire. destruct (MarkSnapshotForDeletion s i (iw_graph w)) as [[e|] log].
  - by intros [= <- _].
  - intros H%IH. done.
Qed.

Lemma listed_commits ref w w' cs :
  ListSnapshotCommitsForCleanupRef ou o r ref w = (w', Ok cs) ->
  forall c, c ∈ cs -> exists m, m ∈ db_manifests (iw_db w) /\ mf_commitHash m = c /\
    manifest_of_repo o r m = true /\ mf_branch m ∈ cleanupRefCandidates ref /\
    (forall s, s ∈ db_manifests (iw_db w) -> manifest_of_repo o r s = true -> mf_commitHash s = c ->
       mf_branch s ∈ cleanupRefCandidates ref) /\
    (forall x, x ∈ db_indexes (iw_db w) -> index_of_repo o r x = true ->
       cii_commitHash (cix_key x) = c ->
       cix_branch x ∈ cleanupRefCandidates ref /\ cii_revision (cix_key x) ∈ cleanupRefCandidates ref) /\
    (forall k x, t_revisions (iw_tables w) !! k = Some x -> revision_of_repo o r x = true ->
       gr_commitHash x = c -> gr_revision x ∈ cleanupRefCandidates ref).
Proof.
  unfold ListSnapshotCommitsForCleanupRef. cbv zeta.
  destruct (cleanupRefCandidates ref) as [|b bs] eqn:Er.
  { intros [= _ <-] c Hc. by apply elem_of_nil in Hc. }
  intros (now & H & _)%iwrap_Ok%sql_Ok. injection H as _ <-. intros c [Hc _]%elem_of_List_filter.
  apply elem_of_remove_dups, list_elem_of_fmap in Hc as (m & -> & [Hin H]%elem_of_List_filter).
  rewrite !andb_true_iff, !negb_true_iff in H. destruct H as [[Hm Hb] [[H1 H2] H3]].
  pose proof (proj1 (of_repo_spec _ _ _ _) Hm) as [Er' Eo]. rewrite Er', Eo in *.
  exists m. split_and!; try done.
  - by apply any_of_spec.
  - intros s Hs Hof Hcm. pose proof (proj1 (existsb_false _ _) H1 s Hs) as H. cbv beta in H.
    rewrite Hof, Hcm, str_eqb_refl in H. simpl in H. by apply negb_false_iff, any_of_spec in H.
  - intros x Hx Hof Hcm. pose proof (proj1 (existsb_false _ _) H2 x Hx) as H. cbv beta in H.
    rewrite Hof, Hcm, str_eqb_refl in H. cbn [andb] in H.
    apply orb_false_iff in H as [Ha Hb']. by apply negb_false_iff, any_of_spec in Ha, Hb'.
  - intros k x Hx Hof Hcm. apply elem_of_map_to_list in Hx.
    pose proof (proj1 (existsb_false _ _) H3 _ Hx) as H. cbv beta in H. simpl snd in H.
    rewrite Hof, Hcm, str_eqb_refl in H. cbn [andb] in H. by apply negb_false_iff, any_of_spec in H.
Qed.
End Handler.

(** ** Other repositories *)

(** Rows may be removed, but none of another repository, nor a row that belongs to
    one: a revision of its graph indexes, a file of its manifests, a subjob of its
    code indexes. *)
Record rows_spared (o r : Z) (t t' : Tables) : Prop := {
  sp_manifests m : (m ∈ db_manifests (t_db t') -> m ∈ db_manifests (t_db t)) /\
    (manifest_of_repo o r m = false -> m ∈ db_manifests (t_db t) -> m ∈ db_manifests (t_db t'));
  sp_indexes x : (x ∈ db_indexes (t_db t') -> x ∈ db_indexes (t_db t)) /\
    (index_of_repo o r x = false -> x ∈ db_indexes (t_db t) -> x ∈ db_indexes (t_db t'));
  sp_graphs id g : (t_graphs t' !! id = Some g -> t_graphs t !! id = Some g) /\
    (graph_of_repo o r g = false -> t_graphs t !! id = Some g -> t_graphs t' !! id = Some g);
  sp_revisions id v :
    revision_of_repo o r v = false ->
    (forall g, t_graphs t !! gr_codeGraphIndexId v = Some g -> graph_of_repo o r g = false) ->
    t_revisions t !! id = Some v -> t_revisions t' !! id = Some v;
  sp_files mid p :
    (forall m, m ∈ db_manifests (t_db t) -> mf_id m = mid -> manifest_of_repo o r m = false) ->
    t_files t' !! (mid, p) = t_files t !! (mid, p);
  sp_subjobs k s :
    (forall x, x ∈ db_indexes (t_db t) -> sc_codeIntelIndexId (sj_scope s) = Some (cii_id (cix_key x)) ->
       index_of_repo o r x = false) ->
    db_subjobs (t_db t) !! k = Some s -> db_subjobs (t_db t') !! k = Some s;
  sp_repos k : k <> r -> db_repos (t_db t') !! k = db_repos (t_db t) !! k;
  sp_jobs : db_jobs (t_db t') = db_jobs (t_db t);
  sp_orgs : t_orgs t' = t_orgs t
}.

#[global] Instance rows_spared_preorder o r : PreOrder (rows_spared o r).
Proof.
  split; [by split|]. intros t1 t2 t3 H1 H2. split.
  - intros m. destruct (sp_manifests _ _ _ _ H1 m), (sp_manifests _ _ _ _ H2 m). auto.
  - intros x. destruct (sp_indexes _ _ _ _ H1 x), (sp_indexes _ _ _ _ H2 x). auto.
  - intros id g. destruct (sp_graphs _ _ _ _ H1 id g), (sp_graphs _ _ _ _ H2 id g). auto.
  - intros id v Hv Hg Hid. apply (sp_revisions _ _ _ _ H2); [done| |by apply (sp_revisions _ _ _ _ H1)].
    intros g Hg2. by apply Hg, (sp_graphs _ _ _ _ H1).
  - intros mid p Hm. rewrite (sp_files _ _ _ _ H2); [by apply (sp_files _ _ _ _ H1)|].
    intros m Hin. by apply Hm, (sp_manifests _ _ _ _ H1).
  - intros k s Hx Hk. apply (sp_subjobs _ _ _ _ H2); [|by apply (sp_subjobs _ _ _ _ H1)].
    intros x Hin. by apply Hx, (sp_indexes _ _ _ _ H1).
  - intros k Hk. by rewrite (sp_repos _ _ _ _ H2), (sp_repos _ _ _ _ H1).
  - by rewrite (sp_jobs _ _ _ _ H2), (sp_jobs _ _ _ _ H1).
  - by rewrite (sp_orgs _ _ _ _ H2), (sp_orgs _ _ _ _ H1).
Qed.

Section Others.
Context (ou : Outside) (o r : Z).

Lemma delete_manifests_spared doomed t :
  (forall m, doomed m = true -> manifest_of_repo o r m = true) ->
  rows_spared o r t (delete_manifests doomed t).
Proof.
  intros Hd. split; try done; simpl.
  - intros m. rewrite elem_of_List_filter, negb_true_iff. split; [by intros []|]. intros Hm Hin.
    split; [done|]. apply not_true_iff_false. intros E%Hd. congruence.
  - intros mid p Hm. destruct (t_files t !! (mid, p)) as [f|] eqn:E.
    + apply map_lookup_filter_Some. split; [done|]. simpl. apply any_of_false.
      intros (m & -> & [Hin Hdm]%elem_of_List_filter)%list_elem_of_fmap.
      apply Hd in Hdm. by rewrite Hm in Hdm.
    + apply map_lookup_filter_None. by left.
Qed.

Lemma delete_indexes_spared doomed t :
  (forall x, doomed x = true -> index_of_repo o r x = true) ->
  rows_spared o r t (delete_indexes doomed t).
Proof.
  intros Hd. split; try done; simpl.
  - intros x. rewrite elem_of_List_filter, negb_true_iff. split; [by intros []|]. intros Hx Hin.
    split; [done|]. apply not_true_iff_false. intros E%Hd. congruence.
  - intros k s Hx Hk. apply map_lookup_filter_Some. split; [done|]. simpl.
    destruct (sc_codeIntelIndexId (sj_scope s)) as [i|] eqn:Ei; [|done]. apply any_of_false.
    intros (x & -> & [Hin Hdx]%elem_of_List_filter)%list_elem_of_fmap.
    apply Hd in Hdx. by rewrite Hx in Hdx.
Qed.

Lemma delete_graphs_spared doomed t :
  (forall id g, doomed id g = true -> graph_of_repo o r g = true) ->
  rows_spared o r t (delete_graphs doomed t).
Proof.
  intros Hd. split; try done; simpl.
  - intros id g. rewrite map_lookup_filter_Some. split; [by intros []|]. intros Hg Hid.
    split; [done|]. simpl. apply not_true_iff_false. intros E%Hd. congruence.
  - intros id v Hv Hg Hid. apply map_lookup_filter_Some. split; [done|]. simpl.
    destruct (t_graphs t !! _) as [g|] eqn:E; [|done]. apply not_true_iff_false. intros Ed%Hd.
    by rewrite (Hg g) in Ed.
Qed.

Lemma delete_revisions_spared refs t : rows_spared o r t (delete_revisions_stmt o r refs t).
Proof.
  unfold delete_revisions_stmt. cbv zeta. etrans; [|apply delete_graphs_spared].
  - split; try done. simpl. intros id v Hv Hg Hid. apply map_lookup_filter_Some. split; [done|]. simpl. by rewrite Hv.
  - intros id g. rewrite !andb_true_iff. by intros [[]].
Qed.

Lemma update_metadata_spared md f t t' u :
  update_metadata o r md f t = Ok (t', u) -> rows_spared o r t t'.
Proof.
  unfold update_metadata. destruct (_ !! r) as [rp|]; [|by intros [= <- _]].
  destruct (_ =? _); [|by intros [= <- _]]. destruct (md _); [|done]. simpl. intros [= <- _].
  split; try done. simpl. intros k Hk. by rewrite lookup_alter_ne.
Qed.

Lemma db_cleanup_spared ref : keeps (on_tables (rows_spared o r)) (CleanupRepoDBStateForRef ou o r ref).
Proof.
  unfold CleanupRepoDBStateForRef, CleanupRepoDBState.
  keep; apply keeps_sql; try apply _; intros now t t' u;
    first [by apply update_metadata_spared
          |intros [= <- _]; first [apply delete_revisions_spared
             |apply delete_graphs_spared; by intros
             |apply delete_indexes_spared; by intros x; rewrite ?andb_true_iff; intuition
             |apply delete_manifests_spared; by intros x; rewrite ?andb_true_iff; intuition]].
Qed.
End Others.

(** A relation the file system calls keep is kept by the removal of files. *)
Lemma file_removals_keep ou (R : IndexWorld -> IndexWorld -> Prop) `{!PreOrder R} cfg repo ref commits :
  (forall A (f : FS -> FS * A), keeps R (sys ou f)) ->
  keeps R (CleanupRepoFilesystemForRef ou cfg repo ref) /\ keeps R (CleanupRepoSnapshots ou cfg repo) /\
  keeps R (CleanupRepoSnapshotsForCommits ou cfg repo commits).
Proof.
  intros Hsys.
  assert (Hs : forall dir hit es errs, keeps R (remove_shards ou dir hit es errs)).
  { intros dir hit es. induction es as [|[n k] es IH]; intros errs; simpl; keep. }
  assert (Hc : forall cs, keeps R (remove_snapshots ou cfg repo cs)).
  { intros cs. induction cs as [|c cs IH]; simpl; unfold remove_tree; keep. }
  unfold CleanupRepoFilesystemForRef, CleanupRepoFilesystem, CleanupRepoSnapshots,
    CleanupRepoSnapshotsForCommits, remove_matching_shards, read_dir, remove_tree.
  split_and!; keep.
Qed.

Section Scoped.
Context (ou : Outside) (h : Handler) (o r : Z) (ref : string).
Let cfg := rh_pathsCfg h.

(** The removals of a cleanup, once the snapshots to remove are known. *)
Definition removals (repo : RepoPaths.Repo) (commits : list string) : IM unit :=
  do! _ := CleanupRepoDBStateForRef ou o r (TrimSpace ref) in
  do! _ := CleanupRepoFilesystemForRef ou cfg repo (TrimSpace ref) in
  if TrimSpace ref =s "" then CleanupRepoSnapshots ou cfg repo
  else CleanupRepoSnapshotsForCommits ou cfg repo commits.

Lemma removals_inv repo w w' x :
  (do! commits := (if TrimSpace ref =s "" then iret []
                   else ListSnapshotCommitsForCleanupRef ou o r (TrimSpace ref)) in
   removals repo commits) w = (w', x) ->
  (unchanged w w' /\ x <> Ok tt) \/
  exists w1 commits, unchanged w w1 /\ removals repo commits w1 = (w', x) /\
    (TrimSpace ref = "" /\ commits = [] \/
     exists wl, ListSnapshotCommitsForCleanupRef ou o r (TrimSpace ref) w = (wl, Ok commits)).
Proof.
  destruct (TrimSpace ref =s "") eqn:Et.
  - intros H. right. exists w, []. split_and!; try done. left. by breflect.
  - intros H. apply ibind_inv in H as [(w1 & cs & Hc & H)|(e & Hc & ->)];
      pose proof (commits_unchanged _ _ _ _ _ _ _ Hc) as U; [|by left].
    right. exists w1, cs. split_and!; try done; try apply U. eauto.
Qed.

(** A cleanup either changes nothing, or retires graph snapshots and then removes. *)
Lemma cleanup_inv w w' x :
  dispatchCleanupScoped ou h o r ref w = (w', x) ->
  unchanged w w' \/
  exists repo w1 snapshots w2 y,
    rp_OrgID repo = o /\ rp_RepoID repo = r /\ unchanged w w1 /\
    ListGraphSnapshotsForCleanupRef ou o r (TrimSpace ref) w1 = (w2, Ok snapshots) /\ unchanged w1 w2 /\
    match rh_graphRetirer h with None => (y = (w2, Ok tt) /\ snapshots = [])
                              | Some s => y = retire_all s snapshots w2 end /\
    match y.2 with
    | Err e => w' = y.1 /\ x <> Ok tt
    | Ok _ => (unchanged y.1 w' /\ x <> Ok tt) \/
        exists w3 commits, unchanged y.1 w3 /\ removals repo commits w3 = (w', x) /\
          (TrimSpace ref = "" /\ commits = [] \/
           exists wl, ListSnapshotCommitsForCleanupRef ou o r (TrimSpace ref) y.1 = (wl, Ok commits))
    end.
Proof.
  unfold dispatchCleanupScoped. destruct (o <=? 0); [intros [= <- _]; left; reflexivity|].
  intros H. apply ibind_inv in H as [(w1 & y & (z & Hf & [= ->])%itry_inv & H)|(e & (z & _ & [=])%itry_inv & _)].
  pose proof (fetch_unchanged _ _ _ _ _ _ Hf) as U1. destruct z as [repo|e].
  2:{ left. destruct (is_sentinel _ _); injection H as <- _; done. }
  apply fetch_repo_ids in Hf as [Eo Er]. cbv zeta in H.
  apply ibind_inv in H as [(w2 & snaps & Hl & H)|(e & Hl & ->)];
    pose proof (graphs_unchanged _ _ _ _ _ _ _ Hl) as U2; [|left; by etrans].
  destruct (rh_graphRetirer h) as [s|] eqn:Eh.
  - right. exists repo, w1, snaps, w2, (retire_all s snaps w2). split_and!; try done; try apply U1; try apply U2.
    apply ibind_inv in H as [(w3 & [] & Hr & H)|(e & Hr & ->)]; rewrite Hr; simpl; [|done].
    by apply removals_inv.
  - destruct (0 <? length snaps)%nat eqn:En.
    { left. injection H as <- _. by etrans. }
    assert (snaps = []) as -> by by destruct snaps.
    right. exists repo, w1, [], w2, (w2, Ok tt). split_and!; try done; try apply U1; try apply U2. simpl.
    apply ibind_inv in H as [(w3 & [] & [= <-] & H)|(e & [=] & ->)].
    by apply removals_inv.
Qed.

Lemma removals_spares repo commits :
  keeps (on_files (spares (touched (ou_url_Parse ou) cfg repo (TrimSpace ref) commits)))
    (removals repo commits).
Proof.
  unfold removals. apply keeps_bind; [apply _| |intros _; apply keeps_bind; [apply _| |intros _]].
  - unfold CleanupRepoDBStateForRef, CleanupRepoDBState. keep; apply files_sql; apply _.
  - apply filesystem_spares.
  - destruct (TrimSpace ref =s "") eqn:E.
    + apply all_snapshots_spares. rewrite TrimSpace_idemp. by breflect.
    + apply commit_snapshots_spares.
Qed.

Lemma removals_rows repo commits : keeps (on_tables (rows_spared o r)) (removals repo commits).
Proof.
  destruct (file_removals_keep ou (on_tables (rows_spared o r)) cfg repo (TrimSpace ref) commits)
    as (H1 & H2 & H3); [intros; apply keeps_sys; apply _|].
  unfold removals. keep. apply db_cleanup_spared.
Qed.

Lemma cleanup_effect w w' x :
  dispatchCleanupScoped ou h o r ref w = (w', x) ->
  rows_spared o r (iw_tables w) (iw_tables w') /\
  exists repo commits, rp_OrgID repo = o /\ rp_RepoID repo = r /\
    (forall c, c ∈ commits -> exists m, m ∈ db_manifests (iw_db w) /\ mf_commitHash m = c) /\
    spares (touched (ou_url_Parse ou) cfg repo (TrimSpace ref) commits) (iw_fs w) (iw_fs w').
Proof.
  intros H. apply cleanup_inv in H as [(Ht & Hf & _)|H].
  { rewrite Ht, Hf. split; [reflexivity|].
    exists {| rp_OrgID := o; rp_RepoID := r; rp_CloneURL := ""; rp_CodeHostType := "" |}, [].
    split_and!; try done. intros c Hc. by apply elem_of_nil in Hc. }
  destruct H as (repo & w1 & snaps & w2 & y & Eo & Er & (T1 & F1 & _) & _ & (T2 & F2 & _) & Hy & H).
  assert (iw_tables y.1 = iw_tables w /\ iw_fs y.1 = iw_fs w) as [Ty Fy].
  { rewrite <- T1, <- F1, <- T2, <- F2. destruct (rh_graphRetirer h) as [s|].
    - by apply (retire_all_same s snaps w2 y.1 y.2); rewrite Hy; destruct (retire_all s snaps w2).
    - by destruct Hy as [-> _]. }
  rewrite <- Fy. unfold iw_db. rewrite <- Ty. destruct (y.2) as [[]|e].
  2:{ destruct H as [-> _]. split; [reflexivity|]. exists repo, []. split_and!; try done.
      intros c Hc. by apply elem_of_nil in Hc. }
  destruct H as [[(T3 & F3 & _) _]|(w3 & cs & (T3 & F3 & _) & H & Hcs)].
  { rewrite T3, F3. split; [reflexivity|]. exists repo, []. split_and!; try done.
    intros c Hc. by apply elem_of_nil in Hc. }
  split; [rewrite <- T3; by apply removals_rows in H|]. exists repo, cs. split_and!; try done.
  - intros c Hc. destruct Hcs as [[_ ->]|[wl Hl]]; [by apply elem_of_nil in Hc|].
    destruct (listed_commits _ _ _ _ _ _ _ Hl c Hc) as (m & Hm & Hmc & _). eauto.
  - rewrite <- F3. by apply removals_spares in H.
Qed.
End Scoped.

(** ** Directories of other repositories *)

Lemma FilepathJoin_clean l : FilepathJoin l <> "" -> Clean (FilepathJoin l) = FilepathJoin l.
Proof.
  induction l as [|e l IH]; [done|]. cbn [FilepathJoin]. destruct (e =s ""); [done|].
  intros _. apply Clean_idemp.
Qed.

Lemma within_trans p d e : within p d -> within d e -> within p e.
Proof.
  intros [H1 [r1 E1]] [H2 [r2 E2]]. split; [congruence|]. exists (r2 ++ r1).
  by rewrite E1, E2, app_assoc.
Qed.

Section Dirs.
Context (getenv : string -> string) (Parse : string -> option (string * string)).
Let cfg := LoadConfigFromEnv getenv.
Let Hdata : DataCacheDir cfg <> "" := data_dir_nonempty getenv.

Lemma layout_nonempty d o' ws : elems_of d = layout_elems cfg o' ws -> ws <> [] -> path_elems d <> [].
Proof.
  unfold elems_of, layout_elems. intros H Hws E. destruct (org_layout cfg);
    apply pair_equal_spec in H as [_ H]; rewrite E in H; symmetry in H;
    by apply app_eq_nil in H as [_ H].
Qed.

(** A clean path with the text of a directory of the layout in front lies within it. *)
Lemma below_layout d o' w ws q :
  elems_of d = layout_elems cfg o' (w :: ws) -> d <> "" -> Clean d = d -> Clean q = q ->
  at_or_below d q = true -> within q d.
Proof. intros He Hd Hc. apply at_or_below_within; try done. by eapply layout_nonempty. Qed.

Lemma managed_clean repo : managed_path cfg repo <> "" /\ Clean (managed_path cfg repo) = managed_path cfg repo.
Proof.
  assert (H : managed_path cfg repo <> "").
  { intros E. pose proof (managed_elems cfg Hdata repo) as He.
    apply layout_nonempty in He; [|done]. by rewrite E in He. }
  split; [done|]. by apply FilepathJoin_clean.
Qed.

Lemma repo_dir_below o' r' d q :
  repo_dir Parse cfg o' r' d -> Clean q = q -> at_or_below d q = true -> within q d.
Proof.
  intros Hd Hq Hb. pose proof (repo_dir_elems Parse cfg Hdata o' r' d Hd) as (w & ws & He & _).
  destruct Hd as [repo p <- <- ->%RepoPath_managed|].
  - destruct (managed_clean repo). by eapply below_layout.
  - destruct (snapshot_elems cfg Hdata o' r') as [_ Hne]. eapply below_layout; try done.
    by apply FilepathJoin_clean.
Qed.

(** What a cleanup may touch lies in a directory of the repository, or is one of
    its shards. *)
Lemma touched_own repo ref commits q :
  (forall c, c ∈ commits -> commitHashPattern (TrimSpace c) = true) ->
  touched Parse cfg repo ref commits q -> Clean q = q ->
  (exists d, repo_dir Parse cfg (rp_OrgID repo) (rp_RepoID repo) d /\ within q d) \/
  (exists name, plain name /\ HasPrefix name (ShardFilePrefix (rp_OrgID repo) (rp_RepoID repo)) = true /\
     q = FilepathJoin [ZoektIndexPath cfg repo; name]).
Proof.
  intros Hc [name Hs Hp|c q' Hin Hb|p q' _ Hp Hb|q' _ Hb] Hq.
  - right. exists name. split_and!; try done. by eapply plain_name.
  - left. eexists. split; [apply snapshot_dir|]. eapply within_trans; [|by apply snapshot_within, Hc].
    destruct (snapshot_elems cfg Hdata (rp_OrgID repo) (rp_RepoID repo)) as [_ Hne].
    pose proof (FilepathJoin2_elems _ (TrimSpace c) Hne (commit_plain _ (Hc c Hin))) as (_ & He & Hn).
    apply at_or_below_within; try done; [by apply FilepathJoin_clean|].
    unfold RevisionSnapshotPath. rewrite He. by intros [_ ?]%app_eq_nil.
  - left. exists p. assert (Hd : repo_dir Parse cfg (rp_OrgID repo) (rp_RepoID repo) p)
      by by eapply clone_dir. split; [done|]. by eapply repo_dir_below.
  - left. eexists. split; [apply snapshot_dir|]. eapply repo_dir_below; try done. apply snapshot_dir.
Qed.

Lemma index_not_dir repo name o' r' d :
  plain name -> repo_dir Parse cfg o' r' d ->
  within (FilepathJoin [ZoektIndexPath cfg repo; name]) d -> False.
Proof.
  intros Hn Hd Hw. pose proof (index_elems cfg Hdata repo) as Hi.
  assert (Hne : ZoektIndexPath cfg repo <> "").
  { intros E. apply layout_nonempty in Hi; [|done]. by rewrite E in Hi. }
  destruct (repo_dir_elems Parse cfg Hdata o' r' d Hd) as (w & ws & He & Hw').
  assert (Hwi : within (FilepathJoin [ZoektIndexPath cfg repo; name]) (ZoektIndexPath cfg repo)).
  { destruct (FilepathJoin2_elems _ name Hne Hn) as (E1 & E2 & _). split; eauto. }
  destruct (layout_common cfg _ _ _ _ _ _ _ Hw Hwi He Hi) as [(x & y & E) _].
  destruct Hw' as [[-> _]|[-> _]]; done.
Qed.
End Dirs.

(** ** Data several revisions share *)

Lemma listed_graphs ou o r ref w w' ds :
  TrimSpace ref <> "" -> ListGraphSnapshotsForCleanupRef ou o r ref w = (w', Ok ds) ->
  forall d, d ∈ ds -> exists id g, t_graphs (iw_tables w) !! id = Some g /\ delete_input g = d /\
    graph_of_repo o r g = true /\ gx_status g = "READY" /\
    (forall k v, t_revisions (iw_tables w) !! k = Some v -> revision_of id g v = true ->
       gr_revision v ∈ cleanupRefCandidates ref).
Proof.
  intros Hne. unfold ListGraphSnapshotsForCleanupRef. cbv zeta.
  destruct (cleanupRefCandidates ref) as [|b bs] eqn:Er; [by apply candidates_nonempty in Hne|].
  intros (now & H & _)%iwrap_Ok%sql_Ok d Hd. injection H as _ <-. unfold select_snapshots in Hd.
  apply elem_of_remove_dups, list_elem_of_fmap in Hd as ([id g] & -> & [Hin H]%elem_of_List_filter).
  apply elem_of_map_to_list in Hin. simpl in H. rewrite !andb_true_iff, negb_true_iff in H.
  destruct H as [[[Hg Hs] _] Hn]. exists id, g. split_and!; try done; [by apply str_eqb_spec|].
  intros k v Hv Hr. assert (Hvin : v ∈ map snd (map_to_list (t_revisions (iw_tables w)))).
  { apply list_elem_of_fmap. exists (k, v). by rewrite elem_of_map_to_list. }
  pose proof (proj1 (existsb_false _ _) Hn v Hvin) as H. cbv beta in H. rewrite Hr in H.
  cbn [andb] in H. by apply negb_false_iff, any_of_spec in H.
Qed.

Definition graph_kept (w w' : IndexWorld) : Prop := iw_graph w' = iw_graph w.

#[global] Instance graph_kept_preorder : PreOrder graph_kept.
Proof. split; [done|]. intros w1 w2 w3 H1 H2. unfold graph_kept in *. congruence. Qed.

Section Graph.
Context (ou : Outside).

Lemma sql_graph {A} (stmt : Z -> Tables -> result gerror (Tables * A)) : keeps graph_kept (sql ou stmt).
Proof.
  intros w w' x. unfold sql, call. destruct (ou_fault ou _); [by intros [= <- _]|].
  destruct (stmt _ _) as [[t a]|e]; by intros [= <- _].
Qed.

Lemma sys_graph {A} (f : FS -> FS * A) : keeps graph_kept (sys ou f).
Proof.
  intros w w' x. unfold sys, call. destruct (ou_fault ou _); [by intros [= <- _]|].
  destruct (f _) as [fs a]. by intros [= <- _].
Qed.

Hint Resolve sql_graph sys_graph : keeps.

Lemma removals_graph h o r ref repo commits : keeps graph_kept (removals ou h o r ref repo commits).
Proof.
  destruct (file_removals_keep ou graph_kept (rh_pathsCfg h) repo (TrimSpace ref) commits)
    as (H1 & H2 & H3); [intros; apply sys_graph|].
  unfold removals, CleanupRepoDBStateForRef, CleanupRepoDBState. keep.
Qed.

(** The database part of a removal that succeeded. *)
Lemma removals_tables h o r ref repo commits w w' :
  removals ou h o r ref repo commits w = (w', Ok tt) ->
  exists w1, CleanupRepoDBStateForRef ou o r (TrimSpace ref) w = (w1, Ok tt) /\ iw_tables w' = iw_tables w1.
Proof.
  unfold removals. intros (w1 & [] & H1 & H)%ibind_Ok. exists w1. split; [done|].
  set (same := fun t t' : Tables => t' = t). assert (PreOrder same) by (split; [done|]; intros ??? -> ->; done).
  destruct (file_removals_keep ou (on_tables same) (rh_pathsCfg h) repo (TrimSpace ref) commits)
    as (K1 & K2 & K3); [intros; apply keeps_sys; apply _|].
  apply ibind_Ok in H as (w2 & [] & H2 & H). apply K1 in H2. unfold on_tables, same in *.
  rewrite <- H2. destruct (_ =s ""); [by apply K2 in H|by apply K3 in H].
Qed.
End Graph.

(** What is left of a commit or a graph index all of whose rows the branch has. *)
Lemma commit_forgotten o r ref t t' c f :
  t' = set_db (set_repos f) (ref_tables o r ref t) ->
  (forall s, s ∈ db_manifests (t_db t) -> manifest_of_repo o r s = true -> mf_commitHash s = c ->
     mf_branch s ∈ cleanupRefCandidates ref) ->
  (forall x, x ∈ db_indexes (t_db t) -> index_of_repo o r x = true -> cii_commitHash (cix_key x) = c ->
     cix_branch x ∈ cleanupRefCandidates ref /\ cii_revision (cix_key x) ∈ cleanupRefCandidates ref) ->
  (forall k x, t_revisions t !! k = Some x -> revision_of_repo o r x = true -> gr_commitHash x = c ->
     gr_revision x ∈ cleanupRefCandidates ref) ->
  (forall m, m ∈ db_manifests (t_db t') -> manifest_of_repo o r m = true -> mf_commitHash m <> c) /\
  (forall x, x ∈ db_indexes (t_db t') -> index_of_repo o r x = true -> cii_commitHash (cix_key x) <> c) /\
  (forall k v, t_revisions t' !! k = Some v -> revision_of_repo o r v = true -> gr_commitHash v <> c).
Proof.
  intros -> Hm Hx Hv. destruct (ref_tables_rows o r ref t) as (_ & Er & Em & Ei & _).
  cbn -[ref_tables]. rewrite Er, Em, Ei. split_and!.
  - intros m [Hin Hf]%elem_of_List_filter Hof Hc. specialize (Hm m Hin Hof Hc).
    apply any_of_spec in Hm. unfold ref_manifest in Hf. by rewrite Hof, Hm in Hf.
  - intros x [Hin Hf]%elem_of_List_filter Hof Hc. destruct (Hx x Hin Hof Hc) as [Hb _].
    apply any_of_spec in Hb. unfold ref_index in Hf. by rewrite Hof, Hb in Hf.
  - intros k v [Hin Hf]%map_lookup_filter_Some Hof Hc. specialize (Hv k v Hin Hof Hc).
    apply any_of_spec in Hv. simpl in Hf. unfold ref_revision in Hf. by rewrite Hof, Hv in Hf.
Qed.

Lemma graph_forgotten o r ref t t' id g f :
  t' = set_db (set_repos f) (ref_tables o r ref t) -> graph_of_repo o r g = true ->
  (forall k v, t_revisions t !! k = Some v -> revision_of id g v = true ->
     gr_revision v ∈ cleanupRefCandidates ref) ->
  forall k v, t_revisions t' !! k = Some v -> revision_of id g v = false.
Proof.
  intros -> Hg Hv k v. destruct (ref_tables_rows o r ref t) as (_ & Er & _). cbn -[ref_tables].
  rewrite Er. intros [Hin Hf]%map_lookup_filter_Some. simpl in Hf.
  destruct (revision_of id g v) eqn:E; [|done]. specialize (Hv k v Hin E). apply any_of_spec in Hv.
  unfold revision_of in E. rewrite !andb_true_iff, !Z.eqb_eq in E. destruct E as [[_ Eo] Er'].
  unfold ref_revision, revision_of_repo in Hf. unfold graph_of_repo in Hg.
  by rewrite Eo, Er', Hg, Hv in Hf.
Qed.

(** ** Properties *)

Lemma shard_path_inj cfg repo repo' name name' :
  DataCacheDir cfg <> "" -> plain name -> plain name' ->
  FilepathJoin [ZoektIndexPath cfg repo; name] = FilepathJoin [ZoektIndexPath cfg repo'; name'] ->
  name = name'.
Proof.
  intros Hdata Hn Hn' E.
  assert (Hne : forall rp, ZoektIndexPath cfg rp <> "").
  { intros rp. unfold ZoektIndexPath, zoektOrgIndexPath. destruct (base_elems cfg Hdata (rp_OrgID rp) ["index"])
      as [_ H]; [auto with go|]. by destruct (org_layout cfg). }
  destruct (FilepathJoin2_elems _ name (Hne repo) Hn) as (_ & E1 & _).
  destruct (FilepathJoin2_elems _ name' (Hne repo') Hn') as (_ & E2 & _).
  rewrite E, E2 in E1. by apply app_inj_tail in E1 as [_ ->].
Qed.


Lemma filter_key_is_Some (bad : string -> bool) (files : gmap (string * string) ManifestFile) mid p :
  is_Some (filter (fun kv => bad kv.1.1 = false) files !! (mid, p)) <->
  is_Some (files !! (mid, p)) /\ ~ bad mid = true.
Proof.
  unfold is_Some. rewrite not_true_iff_false. split.
  - intros [f [H1 H2]%map_lookup_filter_Some]. eauto.
  - intros [[f H1] H2]. exists f. by apply map_lookup_filter_Some.
Qed.

(** What the cleanup of a branch removes from the tables.  With the names of
    the branch as candidates, exactly the manifests of the branch with their files,
    the code indexes of the branch and the graph revisions of the branch are gone;
    the list of indexed revisions is the old one without the branch, and the rest of
    the repository's index state is kept.  No graph index is removed: the statement
    that deletes the revisions still sees them when it looks for indexes without
    one, so the orphans it is meant to delete stay. *)
Theorem ref_cleanup_rows ou o r ref w w' :
  TrimSpace ref <> "" -> CleanupRepoDBStateForRef ou o r ref w = (w', Ok tt) ->
  let refs := cleanupRefCandidates ref in
  let t := iw_tables w in
  let t' := iw_tables w' in
  (forall m, m ∈ db_manifests (t_db t') <->
     m ∈ db_manifests (t_db t) /\ ~ (mf_repoId m = r /\ mf_orgId m = o /\ mf_branch m ∈ refs)) /\
  (forall mid p, is_Some (t_files t' !! (mid, p)) <-> is_Some (t_files t !! (mid, p)) /\
     ~ exists m, m ∈ db_manifests (t_db t) /\ mf_id m = mid /\
                 mf_repoId m = r /\ mf_orgId m = o /\ mf_branch m ∈ refs) /\
  (forall x, x ∈ db_indexes (t_db t') <-> x ∈ db_indexes (t_db t) /\
     ~ (cii_repoId (cix_key x) = r /\ cii_orgId (cix_key x) = o /\
        (cix_branch x ∈ refs \/ cii_revision (cix_key x) ∈ refs))) /\
  (forall id v, t_revisions t' !! id = Some v <-> t_revisions t !! id = Some v /\
     ~ (gr_repoId v = r /\ gr_orgId v = o /\ gr_revision v ∈ refs)) /\
  t_graphs t' = t_graphs t /\
  (forall rp, db_repos (t_db t) !! r = Some rp -> repo_orgId rp = o ->
     exists old rp', indexed_revisions ou (repo_metadata rp) = Ok old /\
       db_repos (t_db t') !! r = Some rp' /\
       indexed_revisions ou (repo_metadata rp') = Ok (List.filter (fun v => negb (any_of refs v)) old) /\
       repo_orgId rp' = o /\ repo_indexedAt rp' = repo_indexedAt rp /\
       repo_indexedCommitHash rp' = repo_indexedCommitHash rp).
Proof.
  intros Hne H. apply ref_cleanup_tables in H as (now & H); [|done].
  destruct (metadata_effect _ _ _ _ _ _ _ H) as [Hmeta (f & Ew & _)]. rewrite Ew in *.
  destruct (ref_tables_rows o r ref (iw_tables w)) as (Eg & Er & Em & Ei & Ef & Erp & _).
  intros refs t t'. unfold t'. cbn -[ref_tables]. rewrite Eg, Er, Em, Ei, Ef. fold t. split_and!; try done.
  - intros m. rewrite elem_of_List_filter. unfold ref_manifest, manifest_of_repo.
    rewrite negb_true_iff, <- not_true_iff_false, andb_true_iff, of_repo_spec, any_of_spec. fold refs. tauto.
  - intros mid p. rewrite filter_key_is_Some. apply and_iff_compat_l, not_iff_compat.
    rewrite any_of_spec, list_elem_of_fmap. f_equiv. intros m. rewrite elem_of_List_filter.
    unfold ref_manifest, manifest_of_repo. rewrite andb_true_iff, of_repo_spec, any_of_spec.
    fold refs. naive_solver.
  - intros x. rewrite elem_of_List_filter. unfold ref_index, index_of_repo.
    rewrite negb_true_iff, <- not_true_iff_false, andb_true_iff, orb_true_iff, of_repo_spec, !any_of_spec.
    fold refs. tauto.
  - intros id v. rewrite map_lookup_filter_Some. simpl. unfold ref_revision, revision_of_repo.
    rewrite <- not_true_iff_false, andb_true_iff, of_repo_spec, any_of_spec. fold refs. tauto.
Qed.

(** C23: the cleanup of a branch keeps what other branches share.  When it succeeds
    and the repository exists, the graph database got the retirement of a list of
    snapshots, each one of the repository's READY graph indexes that no remaining
    revision points to; and of the files only shards of the repository and the
    source snapshots of a list of commits changed, none of which is named by a
    manifest, code index or graph revision of the repository that remains. *)
Theorem ref_cleanup_spares_shared ou h o r ref w w' :
  TrimSpace ref <> "" -> dispatchCleanupScoped ou h o r ref w = (w', Ok tt) ->
  unchanged w w' \/
  exists repo snapshots (commits : list string) w2,
    rp_OrgID repo = o /\ rp_RepoID repo = r /\ unchanged w w2 /\
    match rh_graphRetirer h with
    | Some s => exists w3, retire_all s snapshots w2 = (w3, Ok tt) /\ iw_graph w' = iw_graph w3
    | None => snapshots = [] /\ iw_graph w' = iw_graph w
    end /\
    (forall d, d ∈ snapshots -> exists id g, t_graphs (iw_tables w') !! id = Some g /\
       delete_input g = d /\ graph_of_repo o r g = true /\ gx_status g = "READY" /\
       forall k v, t_revisions (iw_tables w') !! k = Some v -> revision_of id g v = false) /\
    (forall c, c ∈ commits ->
       (forall m, m ∈ db_manifests (iw_db w') -> manifest_of_repo o r m = true -> mf_commitHash m <> c) /\
       (forall x, x ∈ db_indexes (iw_db w') -> index_of_repo o r x = true ->
          cii_commitHash (cix_key x) <> c) /\
       (forall k v, t_revisions (iw_tables w') !! k = Some v -> revision_of_repo o r v = true ->
          gr_commitHash v <> c)) /\
    (forall q, iw_fs w' !! q = iw_fs w !! q \/
       (exists name, slash_free name /\ HasPrefix name (ShardFilePrefix o r) = true /\
          q = FilepathJoin [ZoektIndexPath (rh_pathsCfg h) repo; name]) \/
       (exists c, c ∈ commits /\
          at_or_below (RevisionSnapshotPath (rh_pathsCfg h) o r (TrimSpace c)) q = true)).
Proof.
  intros Hne H. apply cleanup_inv in H as [H|H]; [by left|right].
  destruct H as (repo & w1 & snaps & w2 & y & <- & <- & U1 & Hl & U2 & Hy & H).
  destruct (y.2) as [[]|e] eqn:Ey; [|by destruct H].
  destruct H as [[_ ?]|(w3 & cs & U3 & H & Hcs)]; [done|].
  destruct Hcs as [[? _]|[wl Hcs]]; [done|].
  assert (Hne' : TrimSpace (TrimSpace ref) <> "") by by rewrite TrimSpace_idemp.
  assert (U : iw_tables y.1 = iw_tables w2 /\ iw_fs y.1 = iw_fs w2).
  { destruct (rh_graphRetirer h) as [s|]; [|by destruct Hy as [-> _]].
    by apply (retire_all_same s snaps w2 y.1 y.2); rewrite Hy; destruct (retire_all s snaps w2). }
  pose proof (removals_graph _ _ _ _ _ _ _ _ _ _ H) as Hg. unfold graph_kept in Hg.
  pose proof (removals_spares _ _ _ _ _ _ _ _ _ _ H) as Hfs.
  apply removals_tables in H as (w4 & H & Ew).
  apply ref_cleanup_tables in H as (now & H); [|done].
  destruct (metadata_effect _ _ _ _ _ _ _ H) as [_ (f & Ew4 & _)].
  destruct U1 as (T1 & F1 & G1), U2 as (T2 & F2 & G2), U3 as (T3 & F3 & G3), U as [Ty Fy].
  assert (Et : iw_tables w' = set_db (set_repos f)
                 (ref_tables (rp_OrgID repo) (rp_RepoID repo) (TrimSpace ref) (iw_tables w)))
    by by rewrite Ew, Ew4, T3, Ty, T2, T1.
  exists repo, snaps, cs, w2. unfold iw_db. split_and!; try done; try congruence.
  - split_and!; congruence.
  - destruct (rh_graphRetirer h) as [s|].
    + exists (y.1). rewrite Hg. split; [|done]. destruct (retire_all s snaps w2). by subst y; simpl in *; subst.
    + destruct Hy as [-> ->]. simpl in *. split; congruence.
  - intros d Hd. destruct (listed_graphs _ _ _ _ _ _ _ Hne' Hl d Hd) as (id & g & Hid & Ed & Hof & Hs & Hv).
    exists id, g. split_and!; try done.
    + rewrite Et. cbn -[ref_tables]. destruct (ref_tables_rows (rp_OrgID repo) (rp_RepoID repo)
        (TrimSpace ref) (iw_tables w)) as [-> _]. by rewrite <- T1.
    + eapply graph_forgotten; [exact Et|exact Hof|]. by rewrite <- T1.
  - intros c Hc. destruct (listed_commits _ _ _ _ _ _ _ Hcs c Hc) as (m & _ & _ & _ & _ & H1 & H2 & H3).
    eapply commit_forgotten; [exact Et|..]; unfold iw_db in *; by rewrite <- T1, <- T2, <- Ty.
  - intros q. rewrite <- F1, <- F2, <- Fy, <- F3.
    destruct (Hfs q) as [|[name Hs Hp|c q' Hin Hb|p q' E|q' E]]; [by left|..]; try (by rewrite TrimSpace_idemp in E);
      right; [left|right]; eauto.
Qed.
