(* ===== verification/RepoPlanFacts.v ===== *)
(** The revisions an INDEX job resolves, and its hand-over to subjobs: what is in the
    tables when the worker of the repository-index queue leaves the job to them. *)
From S2P Require Import Prelude GoStd GoStdFacts GoJSON SubjobTypes SubjobStore SubjobFacts Planner PlannerFacts.
From S2P Require Import ManifestDelta FileTree ScipDetect Scheduler RepoPaths GraphSchema GraphStore RepoIndexDB.
From S2P Require Import RepoJobs RepoTask RepoCleanup RepoHandler RepoJobFacts RepoCleanupFacts.
Import repoindex.

(** ** What planning adds *)

(** Manifests and subjobs are only added. *)
Definition grows (t t' : Tables) : Prop :=
  (forall m, m ∈ db_manifests (t_db t) -> m ∈ db_manifests (t_db t')) /\
  (forall id s, db_subjobs (t_db t) !! id = Some s -> db_subjobs (t_db t') !! id = Some s).

#[global] Instance grows_preorder : PreOrder grows.
Proof. split; [done|]. intros t1 t2 t3 [H1 H2] [H3 H4]. split; auto. Qed.

Section Plan.
Context (ou : Outside).
Local Notation growing := (keeps (on_tables grows)).

Lemma query_grows {A} (f : Tables -> A) : growing (sql ou (fun _ t => Ok (t, f t))).
Proof. apply keeps_sql; try apply _. by intros now t t' a [= <- _]. Qed.

Lemma usable_grows o r ws b c : growing (RecordUsableIndexedRevision ou o r ws b c).
Proof.
  unfold RecordUsableIndexedRevision. keep. apply keeps_sql; try apply _.
  intros now t t' a. destruct (_ !! r) as [rp|]; [|by intros [= <- _]].
  destruct (_ =? _); [|by intros [= <- _]].
  destruct (indexed_revisions _ _) as [old|]; [|done]. simpl.
  destruct (jsonb_set _ _ _) as [md|]; [|done]. simpl. by intros [= <- _].
Qed.

Lemma insert_files_grows id files : growing (InsertManifestFiles ou id files).
Proof.
  unfold InsertManifestFiles. keep. generalize (length files). intros fuel. revert files.
  induction fuel as [|n IH]; intros files; simpl; keep.
  apply keeps_sql; try apply _. intros now t t' u. unfold insert_files_stmt.
  destruct (negb _); [done|]. destruct (negb _); [done|].
  destruct (foldl _ _ _); [|done]. simpl. by intros [= <- _].
Qed.

Lemma insert_manifest_grows i : growing (InsertPendingManifest ou i).
Proof.
  unfold InsertPendingManifest. keep.
  - apply keeps_sql; try apply _. intros now t t' a. unfold insert_manifest_stmt.
    destruct (bool_decide _); [done|]. destruct (negb _); [done|]. intros [= <- _].
    split; [|done]. intros m Hm. simpl. apply elem_of_app. by left.
  - apply insert_files_grows.
Qed.

Lemma plan_one_grows cfg p repo scope wt sel : growing (plan_one ou cfg p repo scope wt sel).
Proof.
  unfold plan_one, materializeCommitSnapshot, FetchPreviousReadyManifestFiles, FetchSemanticIndexHealth.
  keep; try apply query_grows; try apply usable_grows; try apply insert_manifest_grows.
  apply keeps_call; try apply _. by intros now w w' r [= <- _].
Qed.

Lemma plan_all_grows cfg p repo scope wt sels : growing (plan_all ou cfg p repo scope wt sels).
Proof. induction sels as [|s sels IH]; simpl; keep. apply plan_one_grows. Qed.

Lemma upsert_manifests fault now goNow c st code msg db :
  db_manifests (upsertWithStatus fault now goNow c st code msg db).1 = db_manifests db.
Proof.
  unfold upsertWithStatus, exec, upsert_stmt. repeat case_match; simplify_eq/=; done.
Qed.

(** The store on the database of the world keeps the promises of the interface. *)
#[export] Instance world_writer_laws :
  WriterLaws IndexWorld (H := world_writer ou) (fun w => db_subjobs (iw_db w)).
Proof.
  split.
  - intros c w w' r. unfold sw_UpsertQueued, world_writer, in_db. intros E id x Hx.
    pose proof (SubjobFacts.upsert_keeps (ou_fault ou (iw_calls w)) (ou_now ou (iw_calls w))
      (ou_now ou (iw_calls w)) c StatusQueued "" "" (iw_db w) id x Hx) as Hk.
    unfold UpsertQueued in E. destruct (upsertWithStatus _ _ _ _ _ _ _ _). injection E as <- _. done.
  - intros c w w'. unfold sw_UpsertQueued, world_writer, in_db.
    destruct (UpsertQueued _ _ _ _ _) as [db x] eqn:Eu. intros [= <- ->].
    by apply UpsertQueued_Ok in Eu.
Qed.

Lemma in_db_upsert_grows c st code msg :
  growing (in_db ou (fun fault now => upsertWithStatus fault now now c st code msg)).
Proof.
  apply keeps_in_db; try apply _. intros fault now db db' r t E <-. split.
  - intros m Hm. simpl. pose proof (upsert_manifests fault now now c st code msg (t_db t)) as H.
    rewrite E in H. simpl in H. by rewrite H.
  - intros id s Hs. simpl. pose proof (SubjobFacts.upsert_keeps fault now now c st code msg _ id s Hs) as H.
    by rewrite E in H.
Qed.

Lemma PlanAndPersist_grows i : growing (PlanAndPersist (H := world_writer ou) true i).
Proof.
  intros w w' r. unfold PlanAndPersist. simpl. destruct (Build i) as [cs|e]; [|intros [= <- _]; reflexivity].
  destruct (persist cs w) as [w1 x] eqn:E. intros H. assert (w' = w1) as -> by (destruct x; by injection H).
  clear H. revert w w1 x E. induction cs as [|c cs IH]; intros w w1 x; simpl; [intros [= <- _]; reflexivity|].
  destruct (in_db _ _ _) as [w2 [u|e]] eqn:E; intros H.
  - etrans; [exact (in_db_upsert_grows c StatusQueued "" "" w w2 _ E)|by eapply IH].
  - injection H as <- _. exact (in_db_upsert_grows c StatusQueued "" "" w w2 _ E).
Qed.

Lemma persist_skipped_grows job repo ws l : growing (persist_all_skipped ou job repo ws l).
Proof.
  induction l as [|[rev items] l IH]; simpl; keep. unfold persistSkippedSCIPProjects. keep.
  match goal with |- growing (upsert_skipped ou ?l) => generalize l end.
  intros cs. induction cs as [|c cs IHc]; simpl; keep.
  eapply in_db_upsert_grows.
Qed.

(** ** What a planned revision has *)

(** A revision of the plan: one of the selected ones, to be merged into the graph
    and activated, with a pending manifest of the job. *)
Definition handed_over (p : TaskPayload) (repo : RepoPaths.Repo) (ws : string)
    (selected : list resolvedIndexRevision) (t : Tables) (rev : Revision) : Prop :=
  (exists sel, sel ∈ selected /\ rv_Branch rev = ir_Branch sel /\ rv_Revision rev = ir_Revision sel /\
     rv_CommitHash rev = ir_CommitHash sel) /\
  rv_WorkspaceID rev = Some ws /\ rv_RunGraphMerge rev = true /\ rv_RunActivate rev = true /\
  exists m, m ∈ db_manifests (t_db t) /\ mf_status m = ManifestPending /\
    mf_indexJobId m = Some (tp_JobID p) /\ mf_orgId m = rp_OrgID repo /\ mf_repoId m = rp_RepoID repo /\
    mf_workspaceId m = ws /\ mf_branch m = rv_Branch rev /\ mf_commitHash m = rv_CommitHash rev.

Lemma handed_over_grows p repo ws sels sels' t t' rev :
  grows t t' -> (forall s, s ∈ sels -> s ∈ sels') ->
  handed_over p repo ws sels t rev -> handed_over p repo ws sels' t' rev.
Proof.
  intros [Hg _] Hs ((sel & Hin & Hsel) & H1 & H2 & H3 & m & Hm & Hrest).
  split_and!; try done; [exists sel; auto|exists m; auto].
Qed.

Lemma insert_manifest_row i w w' :
  InsertPendingManifest ou i w = (w', Ok tt) ->
  exists now, pending_row now i ∈ db_manifests (iw_db w').
Proof.
  unfold InsertPendingManifest. destruct (_ || _); [done|].
  intros (w1 & [] & (now & H1 & _)%iwrap_Ok%sql_Ok & H)%ibind_Ok. exists now.
  assert (H2 : pending_row now i ∈ db_manifests (iw_db w1)).
  { unfold insert_manifest_stmt in H1. destruct (bool_decide _); [done|]. destruct (negb _); [done|].
    injection H1 as H1. unfold iw_db. rewrite <- H1. simpl. apply elem_of_app. right. by left. }
  destruct (0 <? _)%nat; [|by injection H as <-].
  by apply (insert_files_grows _ _ _ _ _ H).
Qed.

Lemma plan_one_Some cfg p repo scope wt sel w w' rev skipped :
  plan_one ou cfg p repo scope wt sel w = (w', Ok (Some (rev, skipped))) ->
  handed_over p repo (rs_WorkspaceID scope) [sel] (iw_tables w') rev.
Proof.
  unfold plan_one. cbv zeta. intros (w1 & n & _ & H)%ibind_Ok.
  apply ibind_Ok in H as (w2 & files & _ & H). apply ibind_Ok in H as (w3 & prev & _ & H).
  apply ibind_Ok in H as (w4 & [] & _ & H). apply ibind_Ok in H as (w5 & plan & _ & H).
  destruct (_ =s "NOOP"); [by apply ibind_Ok in H as (w6 & [] & _ & [=])|].
  apply ibind_Ok in H as (w6 & uuid & _ & H). apply ibind_Ok in H as (w7 & [] & Hi & H).
  apply ibind_Ok in H as (w8 & sp & Hd & H). injection H as <- <- _.
  apply insert_manifest_row in Hi as [now Hi].
  assert (Ht : iw_tables w8 = iw_tables w7).
  { apply iwrap_Ok in Hd. unfold call in Hd. destruct (ou_fault ou _); [done|]. by injection Hd as <- _. }
  rewrite Ht. split_and!; try done; [exists sel; split_and!; [by left|done..]|].
  eexists. split; [exact Hi|]. done.
Qed.

Lemma plan_all_handed cfg p repo scope wt sels w w' planned :
  plan_all ou cfg p repo scope wt sels w = (w', Ok planned) ->
  forall e, e ∈ planned -> handed_over p repo (rs_WorkspaceID scope) sels (iw_tables w') e.1.
Proof.
  revert w planned. induction sels as [|sel sels IH]; intros w planned; simpl.
  { intros [= _ <-] e He. by apply elem_of_nil in He. }
  intros (w1 & one & H1 & H)%ibind_Ok. apply ibind_Ok in H as (w2 & more & H2 & H).
  injection H as <- <-. intros e He.
  assert (Hmore : e ∈ more -> handed_over p repo (rs_WorkspaceID scope) (sel :: sels) (iw_tables w2) e.1).
  { intros Hin. eapply handed_over_grows; [reflexivity| |by eapply IH]. intros s. by right. }
  destruct one as [[rev sk]|]; [|auto]. apply elem_of_cons in He as [->|He]; [|auto].
  eapply handed_over_grows; [by eapply plan_all_grows| |by eapply plan_one_Some].
  intros s ->%list_elem_of_singleton. by left.
Qed.

(** ** The error that says that the work goes on *)

Definition never (e : gerror) {A} (m : IM A) : Prop := forall w w', m w <> (w', Err e).

Lemma never_bind e {A B} (m : IM A) (k : A -> IM B) :
  never e m -> (forall a, never e (k a)) -> never e (ibind m k).
Proof. intros Hm Hk w w' [(w1 & a & _ & H)|(e' & H & [= ->])]%ibind_inv; [by eapply Hk|by eapply Hm]. Qed.

Lemma never_wrap e pre {A} (m : IM A) : (forall p d x, e <> EWrap p d x) -> never e (iwrap pre m).
Proof. intros He w w' (x & _ & E)%iwrap_inv. destruct x; [done|]. injection E as E. by eapply He. Qed.

Lemma never_ret e {A} (a : A) : never e (iret a).
Proof. by intros w w' [=]. Qed.

Lemma never_err e e' {A} : e <> e' -> never e (ierr (A := A) e').
Proof. intros H w w' [= _ E]. congruence. Qed.

Lemma insert_manifest_never i : never errIndexContinuesAsSubjobs (InsertPendingManifest ou i).
Proof.
  unfold InsertPendingManifest, InsertManifestFiles. destruct (_ || _); [by apply never_err|].
  apply never_bind; [by apply never_wrap|]. intros _. destruct (0 <? _)%nat; [|apply never_ret].
  destruct (_ =s ""); [by apply never_err|]. generalize (length (pm_Files i)).
  intros fuel. generalize (pm_Files i). induction fuel as [|n IH]; intros files; [apply never_ret|].
  destruct files as [|f fs]; [apply never_ret|].
  cbn [insert_chunks]. apply never_bind; [by apply never_wrap|]. intros _. apply IH.
Qed.

Lemma plan_all_never cfg p repo scope wt sels :
  never errIndexContinuesAsSubjobs (plan_all ou cfg p repo scope wt sels).
Proof.
  induction sels as [|sel sels IH]; simpl; [apply never_ret|].
  apply never_bind; [|intros one; by auto using never_bind, never_ret].
  unfold plan_one. cbv zeta.
  repeat first [apply never_wrap; done|apply insert_manifest_never|apply never_ret|apply never_bind
               |match goal with
                | |- forall _, _ => intro
                | |- never _ (if ?b then _ else _) => destruct b
                end].
  by intros w w' [=].
Qed.

Lemma fetch_scope_never r : never errIndexContinuesAsSubjobs (FetchRepoIndexScope ou r).
Proof.
  intros w w' [(w1 & y & (x & _ & [= ->])%itry_inv & H)|(e & (x & _ & [=])%itry_inv & _)]%ibind_inv.
  by destruct x as [[sc|]|e].
Qed.

Lemma persist_skipped_never job repo ws l :
  never errIndexContinuesAsSubjobs (persist_all_skipped ou job repo ws l).
Proof.
  induction l as [|[rev items] l IH]; [apply never_ret|]. cbn [persist_all_skipped].
  apply never_bind; [by apply never_wrap|]. intros _. apply IH.
Qed.

(** ** Properties *)

End Plan.


(** The revisions an INDEX job covers: which branches and tags the policy of a
    repository selects. *)
Section Policy.
Context (ou : Outside).

(** A name that one of the patterns, blank ones apart, matches. *)
Definition policy_matches (patterns : list string) (name : string) : Prop :=
  exists pattern g, pattern ∈ patterns /\ TrimSpace pattern <> "" /\
    ou_glob_Compile ou (TrimSpace pattern) = Ok g /\ g name = true.

Lemma compileGlobs_spec patterns gs :
  compileGlobs ou patterns = Ok gs ->
  forall name, matchesAny gs name = true <-> policy_matches patterns name.
Proof.
  revert gs. induction patterns as [|p ps IH]; intros gs; cbn [compileGlobs].
  { intros [= <-] name. split; [done|]. by intros (pat & g & Hin%elem_of_nil & _). }
  destruct (TrimSpace p =s "") eqn:Et.
  { breflect. intros H name. rewrite (IH gs H name).
    split; intros (pat & g & Hin & Hne & Hrest); exists pat, g; (split_and!; try apply Hrest; try done).
    - by right.
    - apply elem_of_cons in Hin as [->|]; done. }
  breflect. destruct (ou_glob_Compile ou (TrimSpace p)) as [g|] eqn:Eg; [|done]. simpl.
  destruct (compileGlobs ou ps) as [gs'|] eqn:Ep; [|done]. intros [= <-] name. unfold matchesAny.
  cbn [existsb]. rewrite orb_true_iff. fold (matchesAny gs' name). rewrite (IH gs' eq_refl name). split.
  - intros [H|(pat & g' & Hin & H)]; [exists p, g; split_and!; [by left|done..]|].
    exists pat, g'. split; [by right|done].
  - intros (pat & g' & [->|Hin]%elem_of_cons & Hne & Hc & Hm); [left; congruence|].
    right. by exists pat, g'.
Qed.

Lemma elem_of_sortedKeys (m : gmap string string) k : k ∈ sortedKeys m <-> is_Some (m !! k).
Proof.
  unfold sortedKeys. rewrite elem_of_SortStrings, list_elem_of_fmap. split.
  - intros ([k' v] & -> & H%elem_of_map_to_list). by exists v.
  - intros [v H]. exists (k, v). by rewrite elem_of_map_to_list.
Qed.

(** What the loop over the matching names puts in the map. *)
Lemma add_matching_spec gs full (refs : gmap string string) out :
  (forall k v, add_matching gs full refs out !! k = Some v ->
     out !! k = Some v \/
     exists name hash, refs !! name = Some hash /\ matchesAny gs name = true /\ full name = k /\
       v = revision_at k hash) /\
  (forall k, is_Some (out !! k) -> is_Some (add_matching gs full refs out !! k)) /\
  (forall name, is_Some (refs !! name) -> matchesAny gs name = true ->
     is_Some (add_matching gs full refs out !! full name)).
Proof.
  unfold add_matching.
  assert (Hin : forall name, name ∈ sortedKeys refs <-> is_Some (refs !! name)) by apply elem_of_sortedKeys.
  setoid_rewrite <- Hin. assert (Hl : forall name, name ∈ sortedKeys refs -> is_Some (refs !! name)) by naive_solver.
  clear Hin. revert Hl out. generalize (sortedKeys refs). intros l.
  induction l as [|n l IH]; intros Hl out; simpl.
  { split_and!; [by left|done|]. intros name Hn. by apply elem_of_nil in Hn. }
  assert (Hl' : forall name, name ∈ l -> is_Some (refs !! name)) by (intros; apply Hl; by right).
  destruct (matchesAny gs n) eqn:Em.
  - destruct (IH Hl' (<[full n := revision_at (full n) (default "" (refs !! n))]> out)) as (H1 & H2 & H3).
    split_and!.
    + intros k v [H|H]%H1; [|by right]. destruct (Hl n) as [h Eh]; [by left|].
      apply lookup_insert_Some in H as [[<- <-]|[_ H]]; [|by left]. right. exists n, h. by rewrite Eh.
    + intros k Hk. apply H2. apply lookup_insert_is_Some. destruct (decide (full n = k)); auto.
    + intros name [->|Hn]%elem_of_cons Hm; [|auto]. apply H2. by rewrite lookup_insert_eq.
  - destruct (IH Hl' out) as (H1 & H2 & H3). split_and!; try done.
    intros name [->|Hn]%elem_of_cons Hm; [congruence|auto].
Qed.

(** ** The first keys of a map *)

Definition str_lt (a b : string) : Prop := str_ltb a b = true.

Lemma sorted_strict l : StronglySorted str_le l -> NoDup l -> StronglySorted str_lt l.
Proof.
  induction 1 as [|x l Hs IH Hx]; intros Hnd; [constructor|]. apply NoDup_cons in Hnd as [Hni Hnd].
  constructor; [auto|]. rewrite Forall_forall in Hx |- *. intros y Hy. specialize (Hx y Hy).
  unfold str_lt. destruct (str_ltb x y) eqn:E; [done|]. unfold str_le in Hx.
  assert (x = y) as -> by by apply str_ltb_total. done.
Qed.

Section Keys.
Context {A : Type} (f : A -> string) (out : gmap string A) (n : nat).
Context (Hf : forall k v, out !! k = Some v -> f v = k).

Definition sorted_keys : list string := SortStrings (map fst (map_to_list out)).
Definition first_values : list A := omap (fun key => out !! key) (firstn n sorted_keys).

Lemma elem_of_sorted_keys k : k ∈ sorted_keys <-> is_Some (out !! k).
Proof.
  unfold sorted_keys. rewrite elem_of_SortStrings, list_elem_of_fmap. split.
  - intros ([k' v] & -> & H%elem_of_map_to_list). by exists v.
  - intros [v H]. exists (k, v). by rewrite elem_of_map_to_list.
Qed.

Lemma sorted_keys_sorted : StronglySorted str_lt sorted_keys.
Proof.
  apply sorted_strict; [apply SortStrings_sorted|]. apply NoDup_SortStrings. apply NoDup_fst_map_to_list.
Qed.

Lemma first_values_keys : map f first_values = firstn n sorted_keys.
Proof.
  unfold first_values.
  assert (H : forall k, k ∈ firstn n sorted_keys -> is_Some (out !! k)).
  { intros k Hk. apply elem_of_sorted_keys. rewrite <- (take_drop n sorted_keys). apply elem_of_app. by left. }
  revert H. generalize (firstn n sorted_keys). intros l.
  induction l as [|k l IH]; intros H; [done|]. destruct (H k) as [v Hv]; [by left|].
  cbn. rewrite Hv. simpl. rewrite (Hf k v Hv). f_equal. apply IH. intros k' Hk. apply H. by right.
Qed.

Lemma first_values_spec :
  StronglySorted str_lt (map f first_values) /\ (length first_values <= n)%nat /\
  (forall v, v ∈ first_values -> out !! f v = Some v) /\
  (forall k, is_Some (out !! k) -> (exists v, v ∈ first_values /\ f v = k) \/
     (length first_values = n /\ forall v, v ∈ first_values -> str_lt (f v) k)).
Proof.
  pose proof first_values_keys as Ek. pose proof sorted_keys_sorted as Hs.
  rewrite <- (take_drop n sorted_keys), <- Ek in Hs. apply StronglySorted_app in Hs as (Hlt & Hs & _).
  assert (El : length first_values = Nat.min n (length sorted_keys)).
  { by rewrite <- (length_map f), Ek, length_firstn. }
  split_and!; [done|lia| |].
  - intros v (k & _ & Hk)%list_elem_of_omap. by rewrite (Hf k v Hk).
  - intros k Hk%elem_of_sorted_keys. rewrite <- (take_drop n sorted_keys), <- Ek in Hk.
    apply elem_of_app in Hk as [(v & -> & Hv)%list_elem_of_fmap|Hk]; [by left; eauto|right]. split.
    + assert (length (drop n sorted_keys) <> 0)%nat by by destruct (drop n sorted_keys); [apply elem_of_nil in Hk|].
      rewrite length_skipn in *. lia.
    + intros v Hv. apply Hlt; [|done]. by apply list_elem_of_fmap_2.
Qed.

Lemma first_values_nonempty : out <> ∅ -> (0 < n)%nat -> first_values <> [].
Proof.
  intros Ho Hn E. apply map_choose in Ho as (k & v & Hk).
  assert (Hin : k ∈ sorted_keys) by (by apply elem_of_sorted_keys).
  pose proof first_values_keys as H. rewrite E in H. destruct n; [lia|].
  destruct sorted_keys; [by apply elem_of_nil in Hin|done].
Qed.
End Keys.

(** ** The policy *)

Section Selected.
Context (md : repoIndexMetadata) (fallback headCommit headBranch : string).
Context (branches tags : gmap string string).

(** The full name of HEAD's branch without its prefix. *)
Definition head_name : string := TrimPrefix (normalizeBranchRef headBranch fallback) "refs/heads/".
Definition head_hash : string :=
  let hash := default "" (branches !! head_name) in if hash =s "" then headCommit else hash.
Definition tag_ref (name : string) : string := "refs/tags/" +:+ TrimPrefix name "refs/tags/".

(** The references the policy asks for, with their commits: HEAD's branch when the
    repository has no branch patterns, otherwise the branches that match one, and
    the tags that match a tag pattern. *)
Inductive selected : string -> string -> Prop :=
| selected_head :
    im_Branches md = [] -> selected (normalizeBranchRef head_name fallback) head_hash
| selected_branch name hash :
    im_Branches md <> [] -> branches !! name = Some hash -> policy_matches (im_Branches md) name ->
    selected (normalizeBranchRef name fallback) hash
| selected_tag name hash :
    tags !! name = Some hash -> policy_matches (im_Tags md) name -> selected (tag_ref name) hash.

(** A map with the selected references of [P] under their names. *)
Definition holds (P : string -> string -> Prop) (out : gmap string resolvedIndexRevision) : Prop :=
  (forall k v, out !! k = Some v -> exists hash, v = revision_at k hash /\ P k hash) /\
  (forall k hash, P k hash -> is_Some (out !! k)).

Lemma add_matching_holds P Q gs patterns full refs out :
  compileGlobs ou patterns = Ok gs -> holds P out ->
  (forall k hash, Q k hash <-> P k hash \/
     exists name, refs !! name = Some hash /\ policy_matches patterns name /\ full name = k) ->
  holds Q (add_matching gs full refs out).
Proof.
  intros Hc [H1 H2] HQ. pose proof (compileGlobs_spec patterns gs Hc) as Hm.
  destruct (add_matching_spec gs full refs out) as (A1 & A2 & A3). split.
  - intros k v [Hk|(name & hash & Hn & Hma & <- & ->)]%A1.
    + destruct (H1 k v Hk) as (hash & -> & HP). exists hash. split; [done|]. apply HQ. by left.
    + exists hash. split; [done|]. apply HQ. right. exists name. by rewrite <- Hm.
  - intros k hash [HP|(name & Hn & Hp & <-)]%HQ; [by eapply A2, H2|].
    apply A3; [by exists hash|by apply Hm].
Qed.

(** The references of the branch patterns alone. *)
Definition selected_branches (k hash : string) : Prop :=
  (im_Branches md = [] /\ k = normalizeBranchRef head_name fallback /\ hash = head_hash) \/
  (im_Branches md <> [] /\ exists name, branches !! name = Some hash /\
     policy_matches (im_Branches md) name /\ normalizeBranchRef name fallback = k).

Lemma selected_split k hash :
  selected k hash <-> selected_branches k hash \/
  exists name, tags !! name = Some hash /\ policy_matches (im_Tags md) name /\ tag_ref name = k.
Proof.
  split.
  - intros [H|name h H1 H2 H3|name h H1 H2]; [left; left; done|left; right; eauto|right; eauto].
  - intros [[(H & -> & ->)|(H & name & H1 & H2 & <-)]|(name & H1 & H2 & <-)];
      [by apply selected_head|by eapply selected_branch|by apply selected_tag].
Qed.

Lemma branches_stage out :
  match im_Branches md with
  | [] => Ok {[ normalizeBranchRef head_name fallback
                := revision_at (normalizeBranchRef head_name fallback) head_hash ]}
  | patterns =>
      let? compiled := wrap "compile branch globs: " (compileGlobs ou patterns) in
      Ok (add_matching compiled (fun name => normalizeBranchRef name fallback) branches ∅)
  end = Ok out -> holds selected_branches out.
Proof.
  unfold selected_branches. destruct (im_Branches md) as [|p ps] eqn:Eb.
  - intros [= <-]. split.
    + intros k v [<- <-]%lookup_singleton_Some. eauto 10.
    + intros k hash [(_ & -> & _)|[[] _]]; [|done]. rewrite lookup_singleton_eq. by eexists.
  - destruct (compileGlobs ou (p :: ps)) as [gs|] eqn:Eg; [|done]. intros [= <-].
    eapply (add_matching_holds (fun _ _ => False)); [exact Eg|by split|].
    intros k hash. naive_solver.
Qed.

Lemma tags_stage out out' :
  match im_Tags md with
  | [] => Ok out
  | patterns =>
      let? compiled := wrap "compile tag globs: " (compileGlobs ou patterns) in
      Ok (add_matching compiled tag_ref tags out)
  end = Ok out' -> holds selected_branches out -> holds selected out'.
Proof.
  destruct (im_Tags md) as [|p ps] eqn:Et.
  - intros [= <-] [H1 H2]. assert (Hno : forall name, ~ policy_matches (im_Tags md) name).
    { intros name (pat & g & Hin & _). rewrite Et in Hin. by apply elem_of_nil in Hin. }
    split; setoid_rewrite selected_split; naive_solver.
  - destruct (compileGlobs ou (p :: ps)) as [gs|] eqn:Eg; [|done]. intros [= <-] Hb.
    eapply add_matching_holds; [exact Eg|exact Hb|]. rewrite <- Et. apply selected_split.
Qed.
End Selected.

(** The revisions of an INDEX job.  They are in strict order of their references,
    at least one and at most 64; each is a reference the policy of the repository
    selects, with its commit: HEAD's branch without branch patterns, otherwise the
    branches a pattern matches, and the tags a tag pattern matches.  A selected
    reference is left out only when there are 64 others before it in the order. *)
Theorem resolved_revisions worktree scope headCommit headBranch revs :
  resolveIndexRevisions ou worktree scope headCommit headBranch = Ok revs ->
  exists md refs branches tags,
    decode_metadata (rs_Metadata scope) = Ok md /\
    git_References (ou_git ou) worktree = Ok refs /\
    collectGitRefs (git_tag_commit (ou_git ou) worktree) refs = (branches, tags) /\
    let sel := selected md (rs_DefaultBranch scope) headCommit headBranch branches tags in
    StronglySorted str_lt (map ir_Branch revs) /\ (1 <= length revs <= 64)%nat /\
    (forall v, v ∈ revs -> ir_Revision v = ir_Branch v /\ sel (ir_Branch v) (ir_CommitHash v)) /\
    (forall ref hash, sel ref hash ->
       (exists v, v ∈ revs /\ ir_Branch v = ref) \/
       (length revs = 64%nat /\ forall v, v ∈ revs -> str_lt (ir_Branch v) ref)).
Proof.
  unfold resolveIndexRevisions.
  destruct (decode_metadata (rs_Metadata scope)) as [md|] eqn:Emd; [|done]. cbn [wrap rbind].
  destruct (git_References (ou_git ou) worktree) as [refs|] eqn:Er; [|done]. cbn [rbind].
  destruct (collectGitRefs _ refs) as [branches tags] eqn:Ec.
  intros H. exists md, refs, branches, tags.
  match type of H with rbind ?x _ = _ => destruct x as [out1|] eqn:E1; [|done] end.
  apply (branches_stage md _ headCommit headBranch) in E1. cbn [rbind] in H.
  match type of H with rbind ?x _ = _ => destruct x as [out|] eqn:E2; [|done] end.
  apply (tags_stage md (rs_DefaultBranch scope) headCommit headBranch branches) in E2; [|done].
  cbn [rbind] in H. destruct (bool_decide (out = ∅)) eqn:Eo; [done|]. apply bool_decide_eq_false in Eo.
  assert (revs = first_values out maxIndexedRevisionsPerRepo) as -> by (by injection H as <-). clear H.
  destruct E2 as [H1 H2].
  assert (Hf : forall k v, out !! k = Some v -> ir_Branch v = k) by (intros k v (h & -> & _)%H1; done).
  destruct (first_values_spec ir_Branch out maxIndexedRevisionsPerRepo Hf) as (S1 & S2 & S3 & S4).
  pose proof (first_values_nonempty ir_Branch out maxIndexedRevisionsPerRepo Hf Eo) as S5.
  split_and!; try done.
  - destruct (first_values out _); [|simpl; lia]. exfalso. apply S5; [|done].
    unfold maxIndexedRevisionsPerRepo. lia.
  - intros v Hv. pose proof (S3 v Hv) as Hk. destruct (H1 _ _ Hk) as (hash & E & Hs).
    rewrite E in Hs |- *. done.
  - intros ref hash Hs. apply S4. by eapply H2.
Qed.
End Policy.
