(* ===== verification/SubjobWitness.v ===== *)
(** A concrete indexing job run through the planner, the subjob store, the dispatcher
    and the executor, and read by the status functions: each general theorem applied
    to it. *)
From Stdlib Require Import Ascii.
From S2P Require Import Prelude GoStd GoStdFacts GoJSON GoJSONFacts Sha256 WorkerClasses SubjobTypes SubjobStore.
From S2P Require Import SubjobTask SubjobCodec SubjobSystem SubjobInvariants SubjobFacts Dispatcher DispatcherFacts.
From S2P Require Import Planner PlannerFacts Executor ExecutorFacts RepoIndexStatus.
(** ** The job *)

Definition commit : string := "0123456789abcdef0123456789abcdef01234567".

Definition input (id layer : string) (maxAttempts : Z) : CreateInput :=
  {| ci_ID := id; ci_RepoIndexingJobID := "job"; ci_CodeIntelIndexID := None; ci_OrgID := 1;
     ci_WorkspaceID := Some "ws"; ci_RepoID := 7; ci_Branch := "main";
     ci_Revision := "refs/heads/main"; ci_CommitHash := commit; ci_Layer := layer;
     ci_Language := None; ci_ProjectRoot := None; ci_Indexer := None;
     ci_WorkerClass := "core"; ci_QueueName := QueueIndexCore; ci_MaxAttempts := maxAttempts;
     ci_InputDigest := None; ci_ToolchainDigest := None; ci_ImageDigest := None |}.

Definition start : DB :=
  {| db_subjobs := ∅;
     db_jobs := {[ "job" := {| job_repoId := 7; job_type := INDEX; job_status := IN_PROGRESS;
                               job_errorMessage := None; job_metadataRef := None;
                               job_createdAt := 0; job_completedAt := None;
                               job_updatedAt := 0 |} ]};
     db_repos := {[ 7 := new_repo 1 "r" ]};
     db_manifests := [new_manifest "m" "job" 1 7 "ws" "main" commit];
     db_indexes := []; db_lock := None |}.

(** Three subjobs are planned. *)
Definition planned : list op :=
  [OpUpsertQueued None 1 1 (input "clone" LayerClone 2);
   OpUpsertQueued None 2 2 (input "zoekt" LayerZoekt 1);
   OpUpsertQueued None 3 3 (input "activate" LayerActivate 3)].

Definition scope_of (id layer : string) (attempt : Z) : ClaimScope :=
  {| cs_ID := id; cs_RepoIndexingJobID := "job"; cs_OrgID := 1; cs_WorkspaceID := Some "ws";
     cs_RepoID := 7; cs_Branch := "main"; cs_Revision := "refs/heads/main";
     cs_CommitHash := commit; cs_Layer := layer; cs_Language := None; cs_ProjectRoot := None;
     cs_Indexer := None; cs_WorkerClass := "core"; cs_QueueName := QueueIndexCore;
     cs_Attempt := attempt |}.

Definition claim (id layer : string) (attempt now : Z) (owner att : string) : op :=
  OpClaim None now (scope_of id layer attempt) owner att (now + 100).

(** The clone is claimed, lost, claimed again and finished; the Zoekt subjob is
    then running its last attempt. *)
Definition history : list op :=
  [claim "clone" LayerClone 1 10 "w1" "a1";
   OpRequeueExpired None (fun _ => false) 200 200 10;
   claim "clone" LayerClone 2 210 "w2" "a2";
   OpHeartbeat None 220 "clone" "w2" "a2" 400;
   OpSucceed None 230 "clone" "w2" "a2";
   claim "zoekt" LayerZoekt 1 240 "w1" "a3"].

Definition db_planned : DB := run_ops planned start.
Definition db_cloned : DB := run_ops (take 5 history) db_planned.
Definition db_running : DB := run_ops history db_planned.

Definition row_at (id : string) (db : DB) : Subjob :=
  default (claimed_row "") (db_subjobs db !! id).

Lemma start_wf : wf_table (db_subjobs start).
Proof. apply map_Forall_empty. Qed.

Lemma start_created : created_table (db_subjobs start).
Proof. apply map_Forall_empty. Qed.

Lemma planned_wf : wf_table (db_subjobs db_planned).
Proof. apply run_ops_keep_wf, start_wf. Qed.

Lemma pair_snd {A B} (x : A * B) b : x.2 = b -> x = (x.1, b).
Proof. by intros <-; destruct x. Qed.

(** Reads off a concrete fact. *)
Ltac concrete := vm_compute; reflexivity.

(** ** Invariant and refinement *)

Lemma subjob_table_invariant_witness :
  wf_table (db_subjobs (run_ops (planned ++ history) start)) /\
  status_of "clone" (run_ops (planned ++ history) start) = Some StatusSucceeded /\
  status_of "zoekt" (run_ops (planned ++ history) start) = Some StatusClaimed.
Proof.
  split; [apply (subjob_table_invariant (planned ++ history) start); apply start_wf|].
  split; concrete.
Defined.

Lemma subjob_row_refines_witness :
  exists r', db_subjobs db_running !! "clone" = Some r' /\
    sj_scope r' = sj_scope (row_at "clone" db_planned) /\
    rtc (some_step 2 LayerClone) (abs (row_at "clone" db_planned)) (abs r').
Proof. apply (subjob_row_refines history db_planned "clone"). concrete. Defined.

Lemma ended_subjob_frozen_witness :
  db_subjobs (run_ops [claim "clone" LayerClone 3 900 "w9" "a9";
                       OpRescue None (fun _ => false) ["w"] 900 10;
                       OpUpsertQueued None 901 901 (input "clone" LayerClone 2)] db_cloned)
    !! "clone" = Some (row_at "clone" db_cloned).
Proof.
  apply (ended_subjob_frozen _ db_cloned "clone" (row_at "clone" db_cloned)); concrete.
Defined.

(** ** Claims *)

Lemma claims_bounded_witness :
  exists r', db_subjobs (run_ops history db_planned) !! "clone" = Some r' /\
    run_attempt (sj_run r') = 0 + claims_won "clone" history db_planned /\
    0 + claims_won "clone" history db_planned <= 2.
Proof.
  apply (claims_bounded history db_planned "clone" (row_at "clone" db_planned));
    [apply planned_wf|concrete].
Defined.

Lemma claim_once_witness :
  let c := scope_of "clone" LayerClone 1 in
  let db1 := run_op (claim "clone" LayerClone 1 10 "w1" "a1") db_planned in
  let db2 := run_ops [OpRequeueExpired None (fun _ => false) 200 200 10] db1 in
  (ClaimScoped None 210 c "w2" "a2" 310 db2).1 = db2 /\
  (ClaimScoped None 210 c "w2" "a2" 310 db2).2 <> Ok true.
Proof.
  intros c db1. apply (claim_once None 10 c "w1" "a1" 110 db_planned db1); reflexivity.
Defined.

Lemma claim_won_meaning_witness :
  exists r, db_subjobs db_planned !! "clone" = Some r /\
    scope_matches (scope_of "clone" LayerClone 1) (sj_scope r) = true.
Proof.
  destruct (claim_won_meaning None 10 (scope_of "clone" LayerClone 1) "w1" "a1" 110 db_planned
    (run_op (claim "clone" LayerClone 1 10 "w1" "a1") db_planned)) as (x & H1 & H2 & _);
    [vm_compute; reflexivity|reflexivity|].
  exists x. split; [exact H1|exact H2].
Defined.

(** ** Fencing *)

Lemma stale_holder_fenced_witness :
  holder_run None None 250 250 "zoekt" "w7" "a7" CallSucceeded db_running = (db_running, false).
Proof.
  apply stale_holder_fenced. intros r Hr.
  assert (r = row_at "zoekt" db_running) as -> by (unfold row_at; by rewrite Hr).
  vm_compute. discriminate.
Defined.

Lemma taken_over_fenced_witness :
  let db1 := run_op (claim "clone" LayerClone 2 210 "w2" "a2") (run_ops (take 2 history) db_planned) in
  let db2 := run_ops [OpHeartbeat None 220 "clone" "w2" "a2" 400] db1 in
  holder_run None None 230 230 "clone" "w1" "a1" CallSucceeded db2 = (db2, false).
Proof.
  intros db1.
  apply (taken_over_fenced None 210 (scope_of "clone" LayerClone 2) "w2" "a2" 310
    (run_ops (take 2 history) db_planned) db1).
  - apply pair_snd. concrete.
  - discriminate.
  - repeat constructor. simpl. discriminate.
Defined.

Lemma live_lease_exclusive_witness :
  held "zoekt" "w1" "a3" 1 340
    (run_ops [claim "zoekt" LayerZoekt 1 300 "w2" "b";
              OpRequeueExpired None (fun _ => false) 340 340 10;
              OpRescue None (fun _ => false) ["w2-"] 300 10;
              OpReconcile None (fun _ => false) (fun _ => false) 300 10] db_running).
Proof.
  apply live_lease_exclusive.
  - exists (row_at "zoekt" db_running), 340. repeat split; try concrete. lia.
  - repeat constructor; simpl; try lia.
Defined.

(** ** Dispatch query *)

(** Another branch of the same job, to have two ACTIVATE subjobs. *)
Definition db_two : DB :=
  run_ops [OpUpsertQueued None 4 4
    (let c := input "activate2" LayerActivate 3 in
     {| ci_ID := ci_ID c; ci_RepoIndexingJobID := "job"; ci_CodeIntelIndexID := None; ci_OrgID := 1;
        ci_WorkspaceID := Some "ws"; ci_RepoID := 7; ci_Branch := "main";
        ci_Revision := "refs/heads/other"; ci_CommitHash := commit; ci_Layer := LayerActivate;
        ci_Language := None; ci_ProjectRoot := None; ci_Indexer := None;
        ci_WorkerClass := "core"; ci_QueueName := QueueIndexCore; ci_MaxAttempts := 3;
        ci_InputDigest := None; ci_ToolchainDigest := None; ci_ImageDigest := None |})]
    (run_ops (history ++ [OpSucceed None 250 "zoekt" "w1" "a3"]) db_planned).

Definition listed (limit : Z) (db : DB) : list DispatchableSubjob :=
  match (ListDispatchable None limit db).2 with Ok ds => ds | Err _ => [] end.


Lemma activate_serialised_witness :
  map ds_ID (listed 10 db_two) = ["activate"] /\
  forall d1 d2, d1 ∈ listed 10 db_two -> d2 ∈ listed 10 db_two ->
    ds_Layer d1 = LayerActivate -> ds_Layer d2 = LayerActivate ->
    ds_RepoIndexingJobID d1 = ds_RepoIndexingJobID d2 ->
    ds_WorkspaceID d1 = ds_WorkspaceID d2 -> ds_RepoID d1 = ds_RepoID d2 -> d1 = d2.
Proof.
  split; [concrete|]. intros d1 d2.
  apply (activate_serialised None 10 db_two db_two). concrete.
Defined.

(** ** Failure and repair *)

Definition db_failed : DB :=
  (MarkFailed None None 250 251 "zoekt" "w1" "a3" "E" "boom" db_running).1.

Lemma MarkFailed_outcome_witness :
  status_of "zoekt" db_failed = Some StatusFailed /\
  status_of "activate" db_failed = Some StatusCanceled /\
  failure_outcome failed_status 250 251 "zoekt" "E" "boom" db_running db_failed.
Proof.
  split; [concrete|]. split; [concrete|].
  apply (MarkFailed_outcome None None 250 251 "zoekt" "w1" "a3" "E" "boom" db_running db_failed).
  apply pair_snd. concrete.
Defined.


(** The FAILED row of a job that is still marked running. *)
Definition db_stuck : DB :=
  (RequeueExpiredLeases None (fun _ => false) 500 500 10 db_running).1.

Lemma reconcile_repairs_witness :
  let db' := (ReconcileTerminalFailures None (fun _ => false) (fun _ => false) 600 10 db_stuck).1 in
  job_status <$> db_jobs db_stuck !! "job" = Some IN_PROGRESS /\
  (exists j, db_jobs db' !! "job" = Some j /\ job_status j = FAILED).
Proof.
  intros db'. split; [concrete|].
  destruct (reconcile_repairs (fun _ => false) (fun _ => false) 600 10 db_stuck db' 1) as [Hr _].
  - vm_compute. discriminate.
  - apply pair_snd. concrete.
  - destruct (Hr "zoekt" (row_at "zoekt" db_stuck)) as [Hj _]; try concrete. exact Hj.
Defined.

Lemma dispatch_lock_exclusive_witness :
  let db1 := (TryAcquireDispatchLock None 10 "d1" 100 start).1 in
  let db2 := run_ops planned db1 in
  lock_held "d1" 100 db2 /\
  (TryAcquireDispatchLock None 50 "d2" 150 db2).1 = db2 /\
  (TryAcquireDispatchLock None 50 "d2" 150 db2).2 <> Ok true.
Proof.
  intros db1. apply (dispatch_lock_exclusive None 10 "d1" 100 start db1); try done.
  by repeat constructor.
Defined.

Lemma replan_idempotent_witness :
  let c := input "zoekt" LayerZoekt 1 in
  let db2 := run_ops (drop 2 planned ++ history) (run_ops (take 2 planned) start) in
  status_of "zoekt" db2 = Some StatusClaimed /\
  (UpsertQueued None 900 900 c db2).1 = db2 /\ (UpsertQueued None 900 900 c db2).2 = Ok tt.
Proof.
  intros c db2. split; [concrete|].
  destruct (replan_idempotent None 2 2 c (run_ops (take 1 planned) start)
    (run_ops (take 2 planned) start) (drop 2 planned ++ history) None 900 900) as [H1 H2].
  - apply pair_snd. concrete.
  - split; [exact H1|]. apply H2; [reflexivity|]. split; concrete.
Defined.

(** ** Messages and the dispatcher *)

Definition message : Payload :=
  {| pl_SubjobID := "zoekt"; pl_RepoIndexingJobID := "job"; pl_OrgID := 1;
     pl_WorkspaceID := Some "ws"; pl_RepoID := 7; pl_Branch := "main";
     pl_Revision := "refs/heads/main"; pl_CommitHash := commit; pl_Layer := LayerZoekt;
     pl_Language := None; pl_ProjectRoot := None; pl_Indexer := None; pl_WorkerClass := "core";
     pl_QueueName := QueueIndexCore; pl_Attempt := 1 |}.

Lemma payload_roundtrip_witness :
  exists raw, Marshal message = Ok raw /\ Unmarshal raw = Ok message.
Proof.
  apply (payload_roundtrip message); [reflexivity|].
  repeat split; vm_compute; (reflexivity || discriminate).
Defined.

Lemma unmarshal_validated_witness :
  exists raw, Unmarshal raw = Ok message /\ 0 < pl_OrgID message.
Proof.
  exists (struct_text (payload_fields message)).
  assert (H : Unmarshal (struct_text (payload_fields message)) = Ok message) by concrete.
  split; [exact H|]. apply (unmarshal_validated _ _ H).
Defined.

Definition calm : CallEnv :=
  {| env_acquire := (None, 300); env_requeue := (None, 300); env_reconcile := (None, 300);
     env_list := None; env_release := None; env_locked := fun _ => false;
     env_skip_wins := fun _ => false |}.

Lemma db_cloned_typed : typed_table (db_subjobs db_cloned).
Proof.
  apply map_Forall_to_list. unfold db_cloned.
  set (l := map_to_list _). vm_compute in l. subst l.
  repeat constructor; vm_compute; auto.
Qed.

Lemma dispatch_end_to_end_witness :
  exists t, queued (DispatchReady (H := db_store calm) true 10 (db_cloned, [])).1.1.2 = [t] /\
    exists p, Unmarshal (task_payload t) = Ok p /\
      (ClaimScoped None 300 (toClaimScope p) "w3" "a4" 400 db_cloned).2 = Ok true.
Proof.
  destruct (DispatchReady (H := db_store calm) true 10 (db_cloned, [])) as [[[d q] st] err] eqn:E.
  destruct (dispatch_end_to_end calm 10 db_cloned [] d q st err) as (_ & ts & Hq & Hl & _ & Hf).
  - apply run_ops_keep_wf, planned_wf.
  - do 2 apply run_ops_created. apply start_created.
  - apply db_cloned_typed.
  - exact E.
  - assert (Hst : Enqueued st + RescuedDuplicates st = 1).
    { change st with (d, q, st, err).1.2. rewrite <- E. concrete. }
    rewrite Hst in Hl. destruct ts as [|t [|? ?]]; simpl in Hl; try lia.
    exists t. split; [exact Hq|]. apply Forall_inv in Hf as (p & r & Hp & _ & _ & _ & _ & Hc).
    exists p. split; [exact Hp|]. apply Hc; discriminate.
Defined.

Lemma quad_eta {A B C D} (w : A * B * C * D) : w = (w.1.1.1, w.1.1.2, w.1.2, w.2).
Proof. by destruct w as [[[]]]. Qed.

Lemma dispatcher_run_contract_witness :
  exists db1, lock_held "d1" 320 db1 /\
    (RequeueExpiredAndDispatch (H := db_store calm) true "d2" 300 10 10 (db1, [])).1.1.1 = db1 /\
    (RequeueExpiredAndDispatch (H := db_store calm) true "d2" 300 10 10 (db1, [])).1.1.2 = [].
Proof.
  exists (set_lock (Some {| lock_owner := "d1"; lock_expiresAt := 320 |}) db_cloned).
  set (db1 := set_lock _ _).
  assert (Hh : lock_held "d1" 320 db1).
  { exists {| lock_owner := "d1"; lock_expiresAt := 320 |}. split; [reflexivity|].
    split; [reflexivity|]. vm_compute; discriminate. }
  destruct (dispatcher_run_contract calm "d2" 300 10 10 db1 [] _ _ _ _ (quad_eta _)) as [_ H].
  destruct (H "d1" 320 Hh) as (H1 & H2 & _); [vm_compute; discriminate|discriminate|].
  split; [exact Hh|]. split; [exact H1|exact H2].
Defined.

Lemma dispatcher_releases_lock_witness :
  Enqueued (RequeueExpiredAndDispatch (H := db_store calm) true (dispatchOwner "h" 5 None)
             300 10 10 (db_cloned, [])).1.2 = 1 /\
  forall l, db_lock (RequeueExpiredAndDispatch (H := db_store calm) true
             (dispatchOwner "h" 5 None) 300 10 10 (db_cloned, [])).1.1.1 = Some l ->
    lock_owner l <> dispatchOwner "h" 5 None.
Proof.
  split; [concrete|].
  apply (dispatcher_releases_lock calm "h" 5 None 300 10 10 db_cloned [] _ _ _ _
    eq_refl) with (2 := quad_eta _).
  intros l Hl. exfalso. revert Hl. vm_compute. discriminate.
Defined.

Lemma dispatchTaskID_inj_witness :
  dispatchTaskID "a:1" 2 <> dispatchTaskID "a" 12 /\ ("a" = "a" /\ 3 = 3).
Proof.
  split; [vm_compute; discriminate|]. apply (dispatchTaskID_inj "a" 3 "a" 3). reflexivity.
Defined.


(** The planner's theorems on a concrete plan. *)
Definition go_project : SCIPProject :=
  {| sp_Language := "go"; sp_ProjectRoot := " services/api "; sp_Indexer := "scip-go";
     sp_SCIPWorkerClass := "go"; sp_ToolchainDigest := None; sp_ImageDigest := None;
     sp_ProjectInputHash := None |}.

Definition main_revision : Revision :=
  {| rv_WorkspaceID := Some "ws"; rv_Branch := "main"; rv_Revision := "refs/heads/main";
     rv_CommitHash := commit; rv_RunClone := false; rv_RunZoekt := true;
     rv_RunASTTreeSitter := true; rv_RunGraphMerge := true; rv_RunActivate := true;
     rv_SCIPProjects := [go_project] |}.

Definition plan_input : Input :=
  {| in_RepoIndexingJobID := "job"; in_OrgID := 1; in_RepoID := 7; in_MaxAttempts := 3;
     in_Revisions := [main_revision] |}.

Definition plan : list CreateInput :=
  match Build plan_input with Ok out => out | Err _ => [] end.

Lemma plan_built : Build plan_input = Ok plan.
Proof. concrete. Qed.

Lemma project_root_inside_witness :
  safeProjectRoot "services/api" = true /\ inside_repo "services/api".
Proof. apply (project_root_inside " services/api "). concrete. Defined.

Lemma stableID_separates_witness :
  sha_collision \/ in_OrgID plan_input = in_OrgID plan_input.
Proof.
  destruct (stableID_separates plan_input main_revision LayerZoekt "core" "" "" ""
    plan_input main_revision LayerZoekt "core" "" "" "") as [H|(_ & H & _)].
  - apply (bool_decide_unpack _). concrete.
  - apply (bool_decide_unpack _). concrete.
  - reflexivity.
  - left. exact H.
  - right. exact H.
Defined.

Lemma Build_plan_witness :
  map ci_Layer plan = [LayerZoekt; LayerASTTreeSitter; LayerSCIP; LayerGraphMerge; LayerActivate].
Proof. destruct (Build_plan plan_input plan plan_built) as (_ & H & _). exact H. Defined.

Lemma Build_accepted_witness :
  Forall (fun c => exists ws, validate_create c = Some ws /\ ci_WorkspaceID c = Some ws) plan.
Proof.
  apply (Build_accepted plan_input plan plan_built). repeat constructor.
Defined.

Lemma plan_persisted_witness :
  let db' := (PlanAndPersist (H := db_writer 1 1) true plan_input start).1 in
  size (db_subjobs db') = 5%nat /\
  Forall (fun c => exists ws r, validate_create c = Some ws /\
    db_subjobs db' !! ci_ID c = Some r /\
    conflict_matches (sj_scope r)
      (sj_scope (new_subjob 1 c ws StatusQueued "" "" None)) = true) plan.
Proof.
  intros db'. split; [concrete|].
  apply (plan_persisted 1 1 plan_input start db' plan
    (pair_snd (PlanAndPersist (H := db_writer 1 1) true plan_input start) (Ok plan)
       ltac:(concrete))).
Defined.


(** A complete run of the executor on the message the dispatcher queued, and a run
    whose lease was lost. *)
Definition config : Config :=
  {| cfg_LeaseDuration := 0; cfg_HeartbeatInterval := 40000; cfg_LeaseOwner := "";
     cfg_hasValidator := true; cfg_hasIngestor := true |}.

Definition handler : Handler :=
  {| h_leaseDuration := 120000; h_heartbeatInterval := 40000;
     h_leaseOwner := "index-executor-pod-abc" |}.

Lemma NewHandler_leases_witness :
  0 < h_heartbeatInterval handler < h_leaseDuration handler /\ h_leaseOwner handler <> "".
Proof. apply (NewHandler_leases true true "pod" "abc" config handler). reflexivity. Defined.

Definition raw_message : string := struct_text (payload_fields message).

Definition artifact : Result :=
  {| res_ArtifactTempPath := "/tmp/x"; res_ArtifactPath := "/a/x"; res_ArtifactSHA256 := "ff"; res_Metadata := ∅ |}.

Definition no_fault : mark_env :=
  {| me_fault1 := None; me_fault2 := None; me_now1 := 900; me_now2 := 901 |}.

(** A tick in the middle, then the runner answers, then the artifact goes through. *)
Definition good_run : script :=
  {| sc_nonce := "n1"; sc_claim_clock := 500; sc_claim_fault := None; sc_claim_dbnow := 500;
     sc_run := {| ws_fault := None; ws_clock := 510; ws_dbnow := 510;
                  ws_events := [EvTick None 550 550; EvWork (artifact, None); EvTakeWork] |};
     sc_post := {| ws_fault := None; ws_clock := 600; ws_dbnow := 600;
                   ws_events := [EvWork (AnsValidated (Ok artifact));
                                 EvWork (AnsMarked None 610); EvTick None 620 620;
                                 EvWork (AnsIngested None); EvTakeWork] |};
     sc_mark := no_fault; sc_env1 := []; sc_env2 := []; sc_env3 := []; sc_env4 := [] |}.

(** The job ends while the runner works: the heartbeat loses the lease. *)
Definition lost_run : script :=
  {| sc_nonce := "n1"; sc_claim_clock := 500; sc_claim_fault := None; sc_claim_dbnow := 500;
     sc_run := {| ws_fault := None; ws_clock := 510; ws_dbnow := 510;
                  ws_events := [EvEnv (OpRescue None (fun _ => false) ["index-executor-pod-"] 540 10);
                                EvTick None 550 550; EvTakeBeat; EvTimeout] |};
     sc_post := sc_post good_run;
     sc_mark := no_fault; sc_env1 := []; sc_env2 := []; sc_env3 := []; sc_env4 := [] |}.

Definition run_log (sc : script) : list hcall :=
  match Handle handler QueueIndexCore raw_message sc db_cloned with
  | Some (_, log, _) => log
  | None => []
  end.

Definition run_db (sc : script) : DB :=
  match Handle handler QueueIndexCore raw_message sc db_cloned with
  | Some (db, _, _) => db
  | None => db_cloned
  end.

Definition run_err (sc : script) : option gerror :=
  match Handle handler QueueIndexCore raw_message sc db_cloned with
  | Some (_, _, e) => e
  | None => None
  end.


Lemma executor_effect_witness :
  run_err good_run = None /\
  status_of "zoekt" (run_ops [OpRequeueExpired None (fun _ => false) 999999 999999 10]
    (run_db good_run)) = Some StatusSucceeded.
Proof.
  split; [concrete|].
  destruct (executor_effect handler QueueIndexCore raw_message good_run db_cloned
    (run_db good_run) (run_log good_run) (run_err good_run)) as (_ & _ & H); [concrete|].
  apply (H message).
  - concrete.
  - apply list_elem_of_In. vm_compute. tauto.
Defined.


(** Concrete inputs for the theorems of StatusFacts. *)
(** A glob library that only knows literal patterns. *)
Definition literal_globs (pat : string) : option (string -> bool) :=
  if globMetaRE pat then None else Some (fun name => name =s pat).

Definition quote : string := String (chr 34) EmptyString.

Definition in_quotes (s : string) : string := quote +:+ s +:+ quote.

(** Branches main and [v*] are configured, refs/heads/main is indexed. *)
Definition sample_repo : RepoInput :=
  {| ri_Metadata := "{" +:+ in_quotes "branches" +:+ ":[" +:+ in_quotes "main" +:+ "," +:+ in_quotes "v*"
       +:+ "]," +:+ in_quotes "indexedRevisions" +:+ ":[" +:+ in_quotes "refs/heads/main" +:+ ","
       +:+ in_quotes "refs/heads/v1" +:+ "]}";
     ri_DefaultBranch := Some "trunk"; ri_IndexedAt := Some "2024-01-01T00:00:00Z";
     ri_LatestIndexingJobStatus := Some "FAILED" |}.

Lemma branch_list_agrees_witness :
  let s := BuildRepoIndexSummary literal_globs sample_repo None in
  rs_IndexedRevisions s = ["refs/heads/main"] /\
  (exists st, st ∈ BuildKnownBranchIndexStatuses literal_globs sample_repo None /\
     bs_Branch st = "main" /\ bs_Indexed st = true /\ bs_AllowedByPolicy st = true /\
     bs_Revision st = "refs/heads/" +:+ "main" /\
     bs_IndexedAt st = ri_IndexedAt sample_repo /\ bs_IndexedAt st <> None).
Proof.
  cbv zeta. split; [vm_compute; reflexivity|].
  apply (branch_list_agrees literal_globs sample_repo None "main" eq_refl).
  split; [vm_compute; reflexivity|].
  assert (E : rs_IndexedRevisions (BuildRepoIndexSummary literal_globs sample_repo None)
              = ["refs/heads/main"]) by (vm_compute; reflexivity).
  rewrite E. left.
Defined.

Definition sample_graph (id status : string) (at_ : option Z) (revs : list CodeGraphRevision)
  : CodeGraphIndexInput :=
  {| gi_ID := id; gi_Provider := "nebula"; gi_Status := status; gi_SourceRevision := None;
     gi_CommitHash := "c"; gi_GraphSpace := None; gi_WorkspaceID := "w"; gi_SchemaVersion := 1;
     gi_BuilderVersion := "1"; gi_VertexCount := 0; gi_EdgeCount := 0; gi_AnchorCount := 0;
     gi_LinkedEdgeCount := 0; gi_SemanticFactCount := None; gi_SemanticEdgeCount := None;
     gi_SemanticHyperedgeCount := None; gi_SemanticRejectedFactCount := None;
     gi_SemanticBatchCount := None; gi_Counts := None; gi_IndexedAt := at_;
     gi_SupersededAt := None; gi_DeleteAfter := None; gi_ErrorMessage := None;
     gi_Revisions := revs |}.

Definition sample_revision : CodeGraphRevision :=
  {| gr_Revision := "refs/heads/main"; gr_CommitHash := "c"; gr_ActivatedAt := None |}.

Definition sample_graphs : list CodeGraphIndexInput :=
  [sample_graph "a" "FAILED" (Some 9) []; sample_graph "b" "READY" (Some 5) [sample_revision];
   sample_graph "c" "READY" (Some 7) [sample_revision]; sample_graph "d" "READY" (Some 8) []].

Lemma current_graph_index_best_witness :
  gi_ID <$> SelectCurrentCodeGraphIndex sample_graphs = Some "c" /\
  StronglySorted (fun a b => 0 <= compareCodeGraphIndexForCurrent b a)
    (SortCodeGraphIndexesForStatus sample_graphs).
Proof.
  split; [vm_compute; reflexivity|].
  apply (current_graph_index_best sample_graphs). discriminate.
Defined.
