(* ===== verification/GraphWitness.v ===== *)
(** A concrete snapshot, message and graph database on which the theorems about
    graph writes are applied. *)
From Stdlib Require Import Ascii.
From S2P Require Import Prelude GoStd GoStdFacts GoJSON GoJSONFacts GoText Sha256 GraphSchema GraphStore.
From S2P Require Import GraphStoreFacts GraphScope GraphWrite.
Definition commit : string := "0123456789abcdef0123456789abcdef01234567".

(** The message without its statements. *)
Definition scope : RenderedStatementWrite :=
  {| rw_OrgID := 7; rw_WorkspaceID := "ws-1"; rw_RepoID := 42; rw_Revision := "main";
     rw_CommitHash := commit; rw_SchemaVersion := 1; rw_BuilderVersion := "b-1"; rw_Source := "scip";
     rw_Statements := [] |}.

Definition key_a : string := "00000000000000000000000000000001".
Definition key_b : string := "00000000000000000000000000000002".
Definition vid_of (kind key : string) : string := vid_prefix scope +:+ kind +:+ ":" +:+ key.

Definition scope_list : list (string * CodeGraphPrimitive) :=
  [("orgId", PInt 7); ("workspaceId", PString "ws-1"); ("repoId", PInt 42); ("revision", PString "main");
   ("commitHash", PString commit); ("schemaVersion", PInt 1); ("builderVersion", PString "b-1")].

Definition props_of (l : list (string * CodeGraphPrimitive)) : gmap string CodeGraphPrimitive :=
  list_to_map (l ++ scope_list).

(** A label with every character the scanners look for. *)
Definition odd_label : string :=
  "f(a, b): x;" +:+ String quote (String backslash (String backtick " -> @")).

Definition sym_props : list (string * CodeGraphPrimitive) :=
  [("kind", PString "symbol"); ("label", PString odd_label);
   ("confidence", PFloat (FFinite false "95" 0)); ("startLine", PInt 10); ("routePath", PNil)].

Definition file_props : list (string * CodeGraphPrimitive) :=
  [("kind", PString "file"); ("path", PString "src/f.go")].

Definition edge_props : list (string * CodeGraphPrimitive) :=
  [("kind", PString "DEFINES"); ("source", PString "ast"); ("confidence", PFloat FNaN)].

Definition vertex_a : CodeGraphVertex :=
  {| vx_VID := vid_of "symbol" key_a; vx_Kind := "symbol"; vx_Properties := props_of sym_props |}.
Definition vertex_b : CodeGraphVertex :=
  {| vx_VID := vid_of "file" key_b; vx_Kind := "file"; vx_Properties := props_of file_props |}.
Definition edge_ab : CodeGraphEdge :=
  {| ed_FromVID := vid_of "file" key_b; ed_ToVID := vid_of "symbol" key_a; ed_Kind := "DEFINES";
     ed_Rank := EdgeRank (vid_of "file" key_b +:+ "->" +:+ vid_of "symbol" key_a +:+ ":DEFINES:ast");
     ed_Properties := props_of edge_props |}.

Definition snapshot : CodeGraphSnapshot :=
  {| sn_OrgID := 7; sn_WorkspaceID := "ws-1"; sn_RepoID := 42; sn_Revision := "main";
     sn_CommitHash := commit; sn_SchemaVersion := 1; sn_BuilderVersion := "b-1";
     sn_Vertices := [vertex_a; vertex_b]; sn_Edges := [edge_ab]; sn_Anchors := [] |}.

Definition message : RenderedStatementWrite :=
  {| rw_OrgID := 7; rw_WorkspaceID := "ws-1"; rw_RepoID := 42; rw_Revision := "main";
     rw_CommitHash := commit; rw_SchemaVersion := 1; rw_BuilderVersion := "b-1"; rw_Source := "scip";
     rw_Statements := RenderSnapshotStatementsWithBatchSize snapshot 1 |}.

Lemma props_ok l : Forall (fun kv => prim_ok kv.2) l -> forall p, prim_ok (prop_of (list_to_map l) p).
Proof.
  intros Hl p. unfold prop_of. destruct (list_to_map l !! p) as [v|] eqn:E; [|done].
  apply elem_of_list_to_map_2 in E. rewrite Forall_forall in Hl. exact (Hl _ E).
Qed.

Lemma vid_ok kind key : colon_free kind -> String.length key = 32%nat -> isLowerHex key = true ->
  scoped_vid message kind (vid_of kind key).
Proof. intros. by exists key. Qed.

Lemma free kind : bool_decide (colon_free kind) = true -> colon_free kind.
Proof. apply bool_decide_eq_true_1. Qed.

Lemma vertex_a_ok : vertex_ok message vertex_a.
Proof.
  split; [vm_compute; done| | |].
  - apply props_ok. repeat (constructor; [vm_compute; done|]). constructor.
  - repeat (constructor; [reflexivity|]). constructor.
  - exists "symbol". split_and!; [reflexivity|done|apply vid_ok; [by apply free|done|done]].
Qed.

Lemma vertex_b_ok : vertex_ok message vertex_b.
Proof.
  split; [vm_compute; done| | |].
  - apply props_ok. repeat (constructor; [vm_compute; done|]). constructor.
  - repeat (constructor; [reflexivity|]). constructor.
  - exists "file". split_and!; [reflexivity|done|apply vid_ok; [by apply free|done|done]].
Qed.

Lemma edge_ab_ok : edge_ok message edge_ab.
Proof.
  split; [vm_compute; done|vm_compute; done| | | | |].
  - apply props_ok. repeat (constructor; [vm_compute; done|]). constructor.
  - repeat (constructor; [reflexivity|]). constructor.
  - exists "file". split; [done|]. apply vid_ok; [by apply free|done|done].
  - exists "symbol". split; [done|]. apply vid_ok; [by apply free|done|done].
  - exists "DEFINES", "ast". split_and!; reflexivity.
Qed.

Lemma snapshot_roundtrip_witness :
  ValidateRenderedStatementWrite message = Ok (2, 1) /\
  ExtractRenderedRows message = Ok ([shown_vertex vertex_a; shown_vertex vertex_b], [shown_edge edge_ab]).
Proof.
  apply (snapshot_roundtrip message snapshot 1); [reflexivity|vm_compute; reflexivity| |].
  - exact (Forall_cons_2 _ _ _ vertex_a_ok (Forall_cons_2 _ _ _ vertex_b_ok (Forall_nil_2 _))).
  - exact (Forall_cons_2 _ _ _ edge_ab_ok (Forall_nil_2 _)).
Defined.

Lemma message_valid : ValidateRenderedStatementWrite message = Ok (2, 1).
Proof. vm_compute. reflexivity. Qed.

Lemma message_utf8 : Forall (fun kv => prim_ok kv.2) (scope_prims message).
Proof. repeat (constructor; [vm_compute; done|]). constructor. Qed.

Lemma accepted_rows_scoped_witness :
  exists vs es, ExtractRenderedRows message = Ok (vs, es) /\
    2 = Z.of_nat (length vs) /\ 1 = Z.of_nat (length es) /\
    Forall (vertex_scoped message) vs /\ Forall (edge_scoped message) es.
Proof. exact (accepted_rows_scoped message 2 1 message_utf8 message_valid). Defined.

Lemma graph_writes_isolated_witness : scope_id message = scope_id message.
Proof.
  destruct (accepted_rows_scoped message 2 1 message_utf8 message_valid) as (vs & es & Hx & Hn & _).
  apply (graph_writes_isolated message message 2 1 2 1 (vs, es) (vs, es)
           (nth 0 (row_vids (vs, es)) "") message_utf8 message_utf8 message_valid message_valid Hx Hx);
    (destruct vs as [|v vs]; [simpl in Hn; lia|left]).
Defined.

(** A database that knows the space from the third probe on and accepts
    everything else; its clock runs by seconds. *)
Definition graphd : Graphd :=
  {| gd_answer log stmt :=
       if (stmt =s use_space) && (length log <? 3)%nat then Err (EText "SpaceNotFound: codeintel")
       else Ok (Some []);
     gd_now log := Z.of_nat (length log) * second;
     gd_cancelled _ := None |}.

Definition store : NebulaCodeGraphStore := New graphd ("USE " +:+ quoteIdentifier SpaceName +:+ "; ").

Lemma message_written : (nebula_WriteRenderedStatements store message []).1.2 = None.
Proof. vm_compute. reflexivity. Qed.


Lemma bootstrap_done : (Bootstrap (Some graphd) 31 no_options []).1 = Some None.
Proof. vm_compute. reflexivity. Qed.


Definition retire_input : CodeGraphDeleteInput :=
  {| di_OrgID := 7; di_WorkspaceID := "ws-1"; di_RepoID := 42; di_CommitHash := commit;
     di_SchemaVersion := 1; di_BuilderVersion := "b-1" |}.

Lemma retire_effect_witness :
  exists batches, concat batches = extractVids (Some []) /\
    Forall (fun b : list string => b <> [] /\ (length b <= 250)%nat) batches.
Proof.
  destruct (nebula_MarkSnapshotForDeletion store retire_input []) as [err log'] eqn:E.
  pose proof (retire_effect store retire_input [] err log' E) as H. cbv zeta in H.
  destruct (gd_answer _ _ _) as [rs|e] eqn:Ea; [|vm_compute in Ea; discriminate Ea].
  vm_compute in Ea. injection Ea as <-. destruct H as (b & c & H1 & H2 & _). by exists b.
Defined.
