(* ===== verification/RepoWitness.v ===== *)
(** A concrete repository indexed and cleaned up: the theorems on the detection of
    SCIP projects and on the repository-index worker applied to it. *)
From Stdlib Require Import Ascii.
From S2P Require Import Prelude GoStd GoStdFacts GoJSON GoText Sha256 SubjobTypes SubjobStore Planner PlannerFacts.
From S2P Require Import ManifestDelta FileTree ScipDetect ScipDetectFacts Scheduler RepoPaths GraphSchema GraphStore.
From S2P Require Import RepoIndexDB RepoJobs RepoTask RepoCleanup RepoHandler RepoJobFacts RepoCleanupFacts.
From S2P Require Import RepoPlanFacts.
Import repoindex.

(** ** The world *)

Definition main_commit : string := "0123456789abcdef0123456789abcdef01234567".
Definition dev_commit : string := "89abcdef0123456789abcdef0123456789abcdef".

Definition demo_files : list (string * FileKind) :=
  [("package.json", KFile); ("src", KDir); ("src/app.ts", KFile)].

Definition demo_git : Git := {|
  git_Clone _ dest _ _ :=
    Ok ({| cr_CommitHash := main_commit; cr_Branch := "main"; cr_WorkTree := dest |}, demo_files);
  git_OpenHead _ := Ok (main_commit, "main");
  git_References _ :=
    Ok [{| ref_kind := RBranch; ref_short := "main"; ref_hash := main_commit |};
        {| ref_kind := RRemote; ref_short := "origin/dev"; ref_hash := dev_commit |};
        {| ref_kind := RTag; ref_short := "v1"; ref_hash := main_commit |}];
  git_tag_commit _ _ := None;
  git_commit _ _ := None;
  git_tree _ _ := Ok [{| gf_Name := "package.json"; gf_Mode := Regular; gf_Hash := "a" |};
                      {| gf_Name := "src/app.ts"; gf_Mode := Regular; gf_Hash := "b" |}];
  git_worktree_add _ _ _ := Ok demo_files
|}.

Definition demo_env : string -> string := fun _ => "".

Definition demo : Outside := {|
  ou_fault _ := None; ou_now n := Z.of_nat n; ou_uuid n := "m" +:+ Itoa (Z.of_nat n);
  ou_cancelled _ := None; ou_getenv := demo_env; ou_git := demo_git;
  ou_url_Parse _ := None; ou_glob_Compile _ := Ok (fun _ => true); ou_jsonb_text _ := ""
|}.

Definition demo_handler : Handler := {|
  rh_store := true; rh_pathsCfg := LoadConfigFromEnv demo_env;
  rh_graphRetirer := Some (SUnconfigured {| uc_Reason := "off" |})
|}.

Definition demo_job (ty : JobType) : Job :=
  {| job_repoId := 42; job_type := ty; job_status := PENDING; job_errorMessage := None;
     job_metadataRef := None; job_createdAt := 0; job_completedAt := None; job_updatedAt := 0 |}.

Definition demo_graph : CodeGraphIndex :=
  {| gx_orgId := 7; gx_repoId := 42; gx_workspaceId := "acme"; gx_commitHash := dev_commit;
     gx_schemaVersion := 1; gx_builderVersion := "b"; gx_status := "READY";
     gx_sourceRevision := Some "refs/heads/dev"; gx_graphSpace := None; gx_indexRunId := None;
     gx_vertexCount := 1; gx_edgeCount := 1; gx_errorMessage := None; gx_anchorCount := 1; gx_linkedEdgeCount := 1;
     gx_indexedAt := None; gx_supersededAt := None; gx_deleteAfter := None; gx_updatedAt := 0 |}.

Definition demo_policy : json := JObj [("branches", JArr [JStr "*"]); ("tags", JArr [JStr "v*"])].

Definition demo_repo : SubjobTypes.Repo :=
  set_indexed (Some (JObj [("indexedRevisions", JArr [JStr "refs/heads/dev"; JStr "refs/heads/main"])]))
    (Some 0) (Some main_commit) None 0 (new_repo 7 "acme/app").

(** The dev branch is indexed; [j1] indexes the repository and [j2] cleans up. *)
Definition demo_world : IndexWorld := {|
  iw_tables := {|
    t_db := {| db_subjobs := ∅; db_jobs := {[ "j1" := demo_job INDEX; "j2" := demo_job CLEANUP ]};
               db_repos := {[ 42 := demo_repo; 43 := new_repo 7 "acme/other" ]};
               db_manifests := [new_manifest "md" "j0" 7 42 "acme" "refs/heads/dev" dev_commit;
                                new_manifest "mo" "j0" 7 43 "acme" "refs/heads/dev" dev_commit];
               db_indexes := []; db_lock := None |};
    t_orgs := {[ 7 := {| org_domain := "acme"; org_atomWorkspaceId := None |} ]};
    t_files := ∅;
    t_graphs := {[ "g1" := demo_graph ]};
    t_revisions := {[ "r1" := {| gr_revision := "refs/heads/dev"; gr_workspaceId := "acme";
                                 gr_commitHash := dev_commit; gr_orgId := 7; gr_repoId := 42;
                                 gr_schemaVersion := 1; gr_builderVersion := "b";
                                 gr_activatedAt := 0; gr_updatedAt := 0; gr_codeGraphIndexId := "g1" |} ]} |};
  iw_fs := MkdirAll (RevisionSnapshotPath (LoadConfigFromEnv demo_env) 7 42 dev_commit) ∅;
  iw_graph := []; iw_calls := 0
|}.

Definition demo_text (ty job : string) : string :=
  match MarshalTask {| tp_Type := ty; tp_JobID := job; tp_RepoID := 42; tp_OrgID := 7;
                       tp_RepoName := "app"; tp_Ref := "" |} with
  | Ok s => s
  | Err _ => ""
  end.

Definition index_text : string := Eval vm_compute in demo_text "INDEX" "j1".
Definition cleanup_text : string := Eval vm_compute in demo_text "CLEANUP" "j2".

(** A run with a known result. *)
Lemma run_eq {A} (m : IM A) w r : (m w).2 = r -> m w = ((m w).1, r).
Proof. intros <-. apply surjective_pairing. Qed.

(** ** Tasks *)

Definition bare_handler : Handler := {|
  rh_store := true; rh_pathsCfg := LoadConfigFromEnv demo_env; rh_graphRetirer := None
|}.

Lemma demo_runnable : runnable demo demo_handler index_text demo_world.
Proof.
  split_and!; [done|done|]. eexists _, (demo_job INDEX), demo_repo.
  split_and!; [vm_compute; reflexivity|vm_compute; reflexivity|done|vm_compute; reflexivity].
Qed.


(** Without a graph store the cleanup fails, and its repetition does nothing. *)
Lemma failed_task_not_retried_witness :
  let x := Handle demo bare_handler cleanup_text demo_world in
  job_status <$> db_jobs (iw_db x.1) !! "j2" = Some FAILED /\
  exists w2, Handle demo bare_handler cleanup_text x.1 = (w2, Ok tt) /\
    iw_tables w2 = iw_tables x.1 /\ iw_fs w2 = iw_fs x.1 /\ iw_graph w2 = iw_graph x.1.
Proof.
  intros x. split; [vm_compute; reflexivity|].
  destruct (x.2) as [u|e] eqn:E; [vm_compute in E; discriminate E|].
  eapply (failed_task_not_retried demo bare_handler cleanup_text demo_world x.1 e
    {| tp_Type := "CLEANUP"; tp_JobID := "j2"; tp_RepoID := 42; tp_OrgID := 7;
       tp_RepoName := "app"; tp_Ref := "" |} (demo_job CLEANUP) demo_repo);
    try (vm_compute; reflexivity); try (intros n; reflexivity).
  exact (run_eq _ _ _ E).
Defined.

(** ** Planning *)

Definition demo_task : TaskPayload :=
  {| tp_Type := "INDEX"; tp_JobID := "j1"; tp_RepoID := 42; tp_OrgID := 7; tp_RepoName := "app";
     tp_Ref := "" |}.
Definition demo_paths : RepoPaths.Repo :=
  {| rp_OrgID := 7; rp_RepoID := 42; rp_CloneURL := ""; rp_CodeHostType := "" |}.

Definition demo_scope : RepoIndexScope :=
  {| rs_OrgID := 7; rs_WorkspaceID := "acme"; rs_DefaultBranch := "main"; rs_Metadata := demo_policy |}.

Definition started_world : IndexWorld := (MarkInProgressScoped demo "j1" 7 42 "INDEX" demo_world).1.


Definition demo_revisions : list resolvedIndexRevision :=
  [revision_at "refs/heads/dev" dev_commit; revision_at "refs/heads/main" main_commit;
   revision_at "refs/tags/v1" main_commit].

Lemma resolved_revisions_witness :
  StronglySorted str_lt (map ir_Branch demo_revisions) /\ (1 <= length demo_revisions <= 64)%nat.
Proof.
  destruct (resolved_revisions demo "data/repos/42" demo_scope main_commit "main" demo_revisions)
    as (md & refs & branches & tags & _ & _ & _ & H1 & H2 & _); [vm_compute; reflexivity|].
  split; [exact H1|exact H2].
Defined.

(** ** Cleanup *)

Lemma ref_cleanup_rows_witness :
  let x := CleanupRepoDBStateForRef demo 7 42 "dev" demo_world in
  map mf_id (db_manifests (iw_db x.1)) = ["mo"] /\ t_graphs (iw_tables x.1) = t_graphs (iw_tables demo_world).
Proof.
  intros x. split; [vm_compute; reflexivity|].
  apply (ref_cleanup_rows demo 7 42 "dev" demo_world x.1); [done|].
  apply run_eq. vm_compute. reflexivity.
Defined.

Lemma demo_commits m :
  m ∈ db_manifests (iw_db demo_world) -> commitHashPattern (TrimSpace (mf_commitHash m)) = true.
Proof. revert m. apply Forall_forall. repeat constructor. Qed.


Lemma ref_cleanup_spares_shared_witness :
  let x := dispatchCleanupScoped demo demo_handler 7 42 "dev" demo_world in
  unchanged demo_world x.1 \/
  exists repo (snapshots : list CodeGraphDeleteInput) (commits : list string),
    rp_OrgID repo = 7 /\ rp_RepoID repo = 42 /\
    (forall d, d ∈ snapshots -> exists id g, t_graphs (iw_tables x.1) !! id = Some g /\ delete_input g = d) /\
    (forall c, c ∈ commits -> forall m, m ∈ db_manifests (iw_db x.1) ->
       manifest_of_repo 7 42 m = true -> mf_commitHash m <> c).
Proof.
  intros x. destruct (ref_cleanup_spares_shared demo demo_handler 7 42 "dev" demo_world x.1)
    as [H|(repo & ds & cs & w2 & Ho & Hr & _ & _ & Hd & Hc & _)]; [done|apply run_eq; vm_compute; reflexivity|by left|right].
  exists repo, ds, cs. split; [exact Ho|]. split; [exact Hr|]. split.
  - intros d Hin. destruct (Hd d Hin) as (id & g & Hid & Hg & _). exists id, g. split; [exact Hid|exact Hg].
  - intros c Hin. apply (Hc c Hin).
Defined.

(** The indexer names the shards of a branch by a digest of its name
    (zoekt_branch_shard_prefix of src/indexer-rs/src/executor_service.rs), which no
    token of the branch matches: the cleanup of the branch leaves them. *)
Definition dev_shard : string :=
  ShardFilePrefix 7 42 +:+ "b" +:+ str_take 16 (sha256_hex "dev") +:+ "_v16.00000.zoekt".

Example branch_shards_survive :
  let cfg := LoadConfigFromEnv demo_env in
  let shard := FilepathJoin [ZoektIndexPath cfg demo_paths; dev_shard] in
  let w := set_fs (<[shard := KFile]> (MkdirAll (ZoektIndexPath cfg demo_paths) ∅)) demo_world in
  let x := CleanupRepoFilesystemForRef demo cfg demo_paths "refs/heads/dev" w in
  let y := CleanupRepoFilesystem demo cfg demo_paths w in
  (x.2 = Ok tt /\ iw_fs x.1 !! shard = Some KFile) /\ (y.2 = Ok tt /\ iw_fs y.1 !! shard = None).
Proof. vm_compute. done. Qed.

(** ** Detection *)

Definition demo_tree : FS := put_files "snap" demo_files ∅.
Definition demo_plan : Plan :=
  match DetectSnapshotPlan "snap" (ConfigFromEnv demo_env) demo_tree with
  | Ok p => p
  | Err _ => {| pn_Runnable := []; pn_Skipped := [] |}
  end.

Lemma demo_plan_eq : DetectSnapshotPlan "snap" (ConfigFromEnv demo_env) demo_tree = Ok demo_plan.
Proof. vm_compute. reflexivity. Qed.


Definition demo_revision : Revision :=
  {| rv_WorkspaceID := Some "acme"; rv_Branch := "refs/heads/main"; rv_Revision := "refs/heads/main";
     rv_CommitHash := main_commit; rv_RunClone := false; rv_RunZoekt := true;
     rv_RunASTTreeSitter := true; rv_RunGraphMerge := true; rv_RunActivate := true;
     rv_SCIPProjects := [] |}.

Lemma detected_projects_plannable_witness :
  pn_Runnable demo_plan <> [] /\
  forall q, q ∈ pn_Runnable demo_plan ++ pn_Skipped demo_plan ->
  exists c, scipSubjob (split_input "j1" demo_paths [demo_revision]) demo_revision q = Ok c /\
    ci_Layer c = LayerSCIP.
Proof.
  split; [vm_compute; discriminate|]. intros q Hq.
  destruct (snapshotFiles "snap" demo_tree) as [files|e] eqn:E; [|vm_compute in E; discriminate E].
  destruct (detected_projects_plannable "snap" (ConfigFromEnv demo_env) demo_tree files demo_plan
    (split_input "j1" demo_paths [demo_revision]) demo_revision E) with (q := q)
    as (c & H1 & H2 & _); [|exact demo_plan_eq|exact Hq|].
  - vm_compute in E. injection E as <-. apply (bool_decide_unpack _). vm_compute. exact I.
  - exists c. split; [exact H1|exact H2].
Defined.
