(* ===== verification/CoreWitness.v ===== *)
(** A concrete revision merged, activated and completed, and the runs in which that
    goes wrong: each theorem on the core worker applied to it. *)
From Stdlib Require Import Ascii.
From S2P Require Import Prelude GoStd GoStdFacts GoJSON GoJSONFacts GoText WorkerClasses SubjobTypes SubjobStore.
From S2P Require Import SubjobTask SubjobCodec SubjobSystem SubjobInvariants SubjobFacts Dispatcher ManifestDelta.
From S2P Require Import Executor ExecutorFacts Scheduler GraphSchema GraphStore ScipProjection RepoIndexDB RepoJobs.
From S2P Require Import CoreDB IndexCore ScipProjectionFacts CoreActivate CoreFacts CoreRun CoreActivateFacts.
From S2P Require Import SubjobWitness.
(** ** The revision *)

Definition message_for (id layer : string) : Payload :=
  {| pl_SubjobID := id; pl_RepoIndexingJobID := "job"; pl_OrgID := 1;
     pl_WorkspaceID := Some "ws"; pl_RepoID := 7; pl_Branch := "main";
     pl_Revision := "refs/heads/main"; pl_CommitHash := commit; pl_Layer := layer;
     pl_Language := None; pl_ProjectRoot := None; pl_Indexer := None; pl_WorkerClass := "core";
     pl_QueueName := QueueIndexCore; pl_Attempt := 1 |}.

Definition merge_message : Payload := message_for "merge" LayerGraphMerge.
Definition activate_message : Payload := message_for "activate" LayerActivate.

(** The branch was indexed before, under another commit. *)
Definition old_manifest : Manifest :=
  set_manifest ManifestReady (Some 5) None None None 5
    (new_manifest "m0" "job0" 1 7 "ws" "main" "89abcdef0123456789abcdef0123456789abcdef").

Definition scip_index : CodeIntelIndex :=
  {| cix_key := {| cii_id := "ci"; cii_orgId := 1; cii_repoId := 7;
                   cii_revision := "refs/heads/main"; cii_commitHash := commit |};
     cix_workspaceId := "ws"; cix_branch := "main"; cix_kind := "SCIP"; cix_status := "READY";
     cix_artifactRoot := None; cix_languageCount := 1; cix_errorMessage := None; cix_symbolCount := 2; cix_occurrenceCount := 0; cix_relationshipCount := 1;
     cix_indexedAt := None; cix_updatedAt := 0 |}.

(** The clone has ended; the merge and the activation wait. *)
Definition waiting_db : DB :=
  let db := run_ops [OpUpsertQueued None 1 1 (input "clone" LayerClone 2);
                     claim "clone" LayerClone 1 10 "w1" "a1";
                     OpSucceed None 20 "clone" "w1" "a1";
                     OpUpsertQueued None 2 2 (input "merge" LayerGraphMerge 3);
                     OpUpsertQueued None 3 3 (input "activate" LayerActivate 3)] start in
  {| db_subjobs := db_subjobs db; db_jobs := db_jobs db; db_repos := db_repos db;
     db_manifests := old_manifest :: db_manifests db; db_indexes := [scip_index];
     db_lock := db_lock db |}.

Definition symbol_row (symbol : string) (line : Z) : SymbolRow :=
  {| sy_symbol := symbol; sy_displayName := symbol; sy_kind := Some "Function";
     sy_language := Some "go"; sy_documentation := []; sy_signature := None; sy_filePath := Some "a.go"; sy_startLine := Some line;
     sy_startCharacter := Some 0; sy_endLine := Some line; sy_endCharacter := Some 1; sy_enclosingSymbol := None; sy_orgId := 1; sy_repoId := 7; sy_codeIntelIndexId := "ci";
     sy_codeIntelLanguageIndexId := Some "li" |}.

Definition empty_rest : CoreRest :=
  {| cr_orgs := {[ 1 := {| org_domain := "d"; org_atomWorkspaceId := Some "ws" |} ]};
     cr_graphs := ∅; cr_revisions := ∅; cr_languages := ∅; cr_symbols := [];
     cr_relationships := []; cr_occurrences := []; cr_facts := ∅; cr_edges := ∅; cr_anchors := ∅;
     cr_graphlog := [] |}.

(** Two symbols, one of which implements the other; the AST worker left a PARTIAL
    snapshot. *)
Definition scip_rest : CoreRest :=
  {| cr_orgs := cr_orgs empty_rest;
     cr_graphs := {[ "g" := new_graph "PARTIAL" 30 1 7 "ws" "refs/heads/main" commit "job"
                              defaultSchemaVersion defaultBuilder ]};
     cr_revisions := ∅;
     cr_languages := {[ "li" := {| li_codeIntelIndexId := "ci"; li_language := "go"; li_projectRoot := "."; li_indexer := "scip-go"; li_workerClass := None; li_status := "READY"; li_artifactPath := None; li_command := None; li_durationMs := None; li_errorMessage := None; li_updatedAt := 0 |} ]};
     cr_symbols := [symbol_row "f()." 3; symbol_row "I#f()." 9];
     cr_relationships := [{| rl_sourceSymbol := "f()."; rl_targetSymbol := "I#f()."; rl_isReference := false;
       rl_isImplementation := true; rl_isTypeDefinition := false; rl_isDefinition := false; rl_orgId := 1;
       rl_repoId := 7; rl_codeIntelIndexId := "ci"; rl_codeIntelLanguageIndexId := Some "li" |}];
     cr_occurrences := []; cr_facts := ∅; cr_edges := ∅; cr_anchors := ∅; cr_graphlog := [] |}.

Definition scip_world : CoreWorld := {| cw_db := waiting_db; cw_rest := scip_rest |}.
Definition bare_world : CoreWorld := {| cw_db := waiting_db; cw_rest := empty_rest |}.

(** A graph database that takes every statement. *)
Definition graphd : Graphd :=
  {| gd_answer _ _ := Ok (Some []); gd_now log := Z.of_nat (length log); gd_cancelled _ := None |}.

Definition core : CoreHandler :=
  {| ch_lease := {| h_leaseDuration := 120000; h_heartbeatInterval := 40000;
                    h_leaseOwner := "index-core-pod-abc" |};
     ch_graph := Some (nebula_WriteRenderedStatements (New graphd ""));
     ch_getenv := fun _ => ""; ch_canQuery := true; ch_order := id; ch_jsonb_text := fun _ => "" |}.

(** Fresh identifiers from a name, no faults, nobody else. *)
Definition quiet (now : Z) : CallEnv :=
  {| ce_fault := fun _ => None; ce_now := now;
     ce_id := fun i => "id" +:+ Itoa now +:+ "-" +:+ Itoa (Z.of_nat i); ce_others := id |}.
Definition quiet_env (n : nat) : CallEnv := quiet (Z.of_nat n).

Definition steps_of {A} (o : nat * CoreWorld * outcome A) : nat := o.1.1.
Definition world_of {A} (o : nat * CoreWorld * outcome A) : CoreWorld := o.1.2.

Lemma run_outcome {A} (o : nat * CoreWorld * outcome A) r : o.2 = r -> o = (steps_of o, world_of o, r).
Proof. by destruct o as [[? ?] ?]; intros <-. Qed.

(** ** Merge *)

Definition merge_run : nat * CoreWorld * outcome unit :=
  run quiet_env 0 (mergeGraph core merge_message) scip_world.
Definition merged_world : CoreWorld := world_of merge_run.

Lemma merge_runs :
  run quiet_env 0 (mergeGraph core merge_message) scip_world = (steps_of merge_run, merged_world, Done (Ok tt)).
Proof. assert (E : merge_run.2 = Done (Ok tt)) by (vm_compute; reflexivity). exact (run_outcome merge_run _ E). Qed.

Lemma merge_contract_witness :
  merged merge_message "ws" merged_world \/
  gx_status <$> cr_graphs (cw_rest scip_world) !! "g" <> Some "PARTIAL".
Proof.
  destruct (merge_contract core merge_message "ws" quiet_env 0 scip_world (steps_of merge_run)
    merged_world (Ok tt)) as (_ & _ & H).
  - reflexivity.
  - intros i w. apply ready_kept_same. reflexivity.
  - exact merge_runs.
  - destruct (H tt eq_refl) as [Hm|Hn]; [by left|]. right. destruct Hn as (_ & Hr & _).
    + intros i. split; reflexivity.
    + intros _. revert Hr. vm_compute. discriminate.
Defined.

(** The statements went to the graph database, the rows to the tables. *)
Example merge_wrote :
  length (cr_graphlog (cw_rest merged_world)) = 20%nat /\
  size (cr_facts (cw_rest merged_world)) = 2%nat /\ size (cr_edges (cw_rest merged_world)) = 1%nat /\
  (gx_status <$> cr_graphs (cw_rest merged_world) !! "g") = Some "READY".
Proof. vm_compute. auto. Qed.

(** ** Activation *)

(** The merge subjob has ended. *)
Definition after_merge : CoreWorld :=
  {| cw_db := run_ops [claim "merge" LayerGraphMerge 1 30 "w1" "a1"; OpSucceed None 40 "merge" "w1" "a1"]
                (cw_db merged_world);
     cw_rest := cw_rest merged_world |}.

Definition activate_run : nat * CoreWorld * outcome unit :=
  run quiet_env 50 (activate core activate_message) after_merge.
Definition active_world : CoreWorld := world_of activate_run.

Lemma activate_runs :
  run quiet_env 50 (activate core activate_message) after_merge
  = (steps_of activate_run, active_world, Done (Ok tt)).
Proof.
  assert (E : activate_run.2 = Done (Ok tt)) by (vm_compute; reflexivity).
  exact (run_outcome activate_run _ E).
Qed.

Lemma activation_effect_witness :
  activated core activate_message "ws" 50 after_merge active_world /\
  map (fun m => (mf_id m, mf_status m)) (db_manifests (cw_db active_world))
  = [("m0", ManifestSuperseded); ("m", ManifestReady)].
Proof.
  split; [|vm_compute; reflexivity].
  apply (activation_effect core activate_message "ws" quiet_env 50 after_merge (steps_of activate_run)
    active_world (Ok tt)).
  - reflexivity.
  - reflexivity.
  - apply (bool_decide_unpack _). vm_compute. exact I.
  - exact activate_runs.
Defined.

Lemma waiting_manifests_ok : manifests_ok (cw_db after_merge).
Proof.
  replace (cw_db after_merge) with (run_ops [claim "merge" LayerGraphMerge 1 30 "w1" "a1";
    OpSucceed None 40 "merge" "w1" "a1"] waiting_db) by (vm_compute; reflexivity).
  split; [apply (bool_decide_unpack _); vm_compute; exact I|].
  intros x y Hx Hy. vm_compute in Hx, Hy.
  repeat (apply elem_of_cons in Hx as [->|Hx]); repeat (apply elem_of_cons in Hy as [->|Hy]);
    try (by apply not_elem_of_nil in Hx); try (by apply not_elem_of_nil in Hy); done.
Qed.

Lemma ready_manifest_unique_witness : manifests_ok (cw_db active_world).
Proof.
  eapply (ready_manifest_unique core activate_message quiet_env 50 after_merge (steps_of activate_run)
    active_world (Done (Ok tt))); [|apply waiting_manifests_ok].
  exact activate_runs.
Defined.

(** ** No evidence *)

Lemma no_evidence_no_activation_witness :
  run quiet_env 0 (mergeGraph core merge_message) bare_world = (4%nat, bare_world, Done (Ok tt)) /\
  exists e, run quiet_env 9 (activate core merge_message) bare_world = (10%nat, bare_world, Done (Err e)).
Proof.
  destruct (no_evidence_no_activation core merge_message "ws" quiet_env 0 bare_world) as [H1 H2].
  - reflexivity.
  - reflexivity.
  - intros i. split; reflexivity.
  - vm_compute. reflexivity.
  - vm_compute. reflexivity.
  - vm_compute. reflexivity.
  - vm_compute. reflexivity.
  - split; [exact H1|]. apply (H2 quiet_env 9%nat). reflexivity.
Defined.

(** ** Completion *)

(** The activation, under the heartbeat; the completion meets [complete]. *)
Definition activate_script (complete : nat -> CallEnv) : core_script :=
  {| cs_nonce := "n1"; cs_claim_clock := 500; cs_claim_fault := None; cs_claim_dbnow := 500;
     cs_run := {| ws_fault := None; ws_clock := 510; ws_dbnow := 510;
                  ws_events := [EvTick None 550 550; EvWork (quiet 560); EvTakeWork] |};
     cs_mark := {| me_fault1 := None; me_fault2 := None; me_now1 := 900; me_now2 := 901 |};
     cs_complete := complete; cs_env1 := []; cs_env2 := []; cs_env3 := []; cs_env4 := [] |}.

Definition raw_activate : string := struct_text (payload_fields activate_message).

Definition handled (sc : core_script) (w : CoreWorld) : CoreWorld * list hcall * option gerror :=
  default (w, [], None) (Handle core QueueIndexCore raw_activate sc w).

Definition job_status_of (w : CoreWorld) : option JobStatus :=
  job_status <$> db_jobs (cw_db w) !! "job".

(** The run that ends well. *)
Example job_completed :
  let '(w, log, e) := handled (activate_script quiet_env) after_merge in
  job_status_of w = Some COMPLETED /\ e = None /\
  erase log = [HClaim true; HExecuted None; HSucceeded true].
Proof. vm_compute. auto. Qed.

Definition done_world : CoreWorld :=
  {| cw_db := run_ops [claim "activate" LayerActivate 1 60 "w1" "a1"; OpSucceed None 70 "activate" "w1" "a1"]
                (cw_db active_world);
     cw_rest := cw_rest active_world |}.

Lemma job_completion_witness :
  exists w', run quiet_env 3 (completeJobIfReady activate_message) done_world = (5%nat, w', Done (Ok tt)) /\
    db_subjobs (cw_db w') = db_subjobs (cw_db done_world).
Proof.
  destruct (job_completion activate_message quiet_env 3 done_world) as (w' & H & _ & Hs & _).
  - intros i. split; reflexivity.
  - exists w'. split; [exact H|exact Hs].
Defined.

(** The database is gone when the job is to be completed. *)
Definition broken (n : nat) : CallEnv :=
  {| ce_fault := fun _ => Some (EText "connection reset"); ce_now := 0; ce_id := fun _ => "";
     ce_others := id |}.

Definition broken_run : CoreWorld * list hcall * option gerror :=
  handled (activate_script broken) after_merge.

Definition broken_error : gerror := EWrap "complete index job: " (EText "connection reset") "".

Lemma broken_runs :
  Handle core QueueIndexCore raw_activate (activate_script broken) after_merge
  = Some (broken_run.1.1, broken_run.1.2, Some broken_error).
Proof.
  assert (E : (Handle core QueueIndexCore raw_activate (activate_script broken) after_merge) ≫= snd
    = Some broken_error) by (vm_compute; reflexivity).
  unfold broken_run, handled. destruct (Handle _ _ _ _ _) as [[[w log] e]|]; [|discriminate E].
  simpl in *. by rewrite E.
Qed.

(** The message is delivered again: the job stays IN_PROGRESS. *)
Lemma lost_completion_witness :
  exists log err, Handle core QueueIndexCore raw_activate (activate_script quiet_env) broken_run.1.1
    = Some (broken_run.1.1, log, err) /\ job_status_of broken_run.1.1 = Some IN_PROGRESS.
Proof.
  destruct (lost_completion core QueueIndexCore raw_activate (activate_script broken) after_merge
    broken_run.1.1 broken_run.1.2 broken_error activate_message) with
    (os := [] : list op) (rest := cw_rest broken_run.1.1) (sc' := activate_script quiet_env)
    as (log & err & H).
  - vm_compute. reflexivity.
  - exact broken_runs.
  - apply list_elem_of_In. vm_compute. tauto.
  - exists log, err. split; [|vm_compute; reflexivity].
    destruct broken_run.1.1 as [db rest]. exact H.
Defined.

(** ** The snapshot *)

Definition sample_symbols : list scipSymbolProjection := map symbol_projection (cr_symbols scip_rest).

Definition sample_occurrence : scipOccurrenceProjection :=
  {| so_Symbol := "go `p/q`/g()."; so_FilePath := "a.go"; so_StartLine := Some 4; so_EndLine := Some 4;
     so_Role := "REFERENCE"; so_SyntaxKind := ""; so_LineContent := "x := g(1)";
     so_EnclosingSymbol := "f()." |}.

Definition sample_snapshot : CodeGraphSnapshot :=
  buildSCIPSnapshot id merge_message sample_symbols [] [sample_occurrence].

Lemma scip_snapshot_accepted_witness :
  ValidateRenderedStatementWrite (scip_write merge_message
    (with_rows sample_snapshot [] (sn_Edges sample_snapshot)) 500) = Ok (0, 1) /\
  map ed_Kind (sn_Edges sample_snapshot) = ["CALLS"].
Proof.
  assert (E : map ed_Kind (sn_Edges sample_snapshot) = ["CALLS"]) by (vm_compute; reflexivity).
  split; [|exact E].
  destruct (scip_snapshot_accepted id merge_message sample_symbols [] [sample_occurrence] []
    (sn_Edges sample_snapshot) 500) as (_ & _ & _ & H).
  - reflexivity.
  - reflexivity.
  - split; [vm_compute; reflexivity|by apply ascii_utf8..].
  - vm_compute. discriminate.
  - vm_compute. discriminate.
  - intros l. reflexivity.
  - repeat constructor; by apply ascii_utf8.
  - constructor.
  - repeat constructor; by apply ascii_utf8.
  - assert (El : length (sn_Edges sample_snapshot) = 1%nat)
      by (rewrite <- (length_map ed_Kind), E; reflexivity).
    fold sample_snapshot in H. rewrite El in H. apply H.
    + intros x Hx. destruct (not_elem_of_nil x Hx).
    + intros x Hx. exact Hx.
Defined.
