(* ===== verification/WriterWitness.v ===== *)
(** A concrete write of the AST layer, from an empty snapshot table to the PARTIAL
    snapshot with its rows, and a write that ends too late. *)
From Stdlib Require Import Ascii.
From S2P Require Import Prelude GoStd GoStdFacts GoJSON GoText SubjobTypes SubjobStore SubjobTask SubjobCodec.
From S2P Require Import ManifestDelta Executor Scheduler GraphSchema GraphStore ScipProjection RepoIndexDB RepoJobs.
From S2P Require Import RepoTask CoreDB IndexCore CoreActivate CodeGraphWriter CoreFacts CodeGraphWriterFacts.
From S2P Require Import GraphRowsFacts CoreActivateFacts PipelineFacts GraphWitness.
(** Texts of small numbers. *)
Definition float_text : FloatText :=
  {| ft_parse := fun s => if s =s "0.95" then Some (FFinite false "95" 0) else None; ft_fixed := fun _ => "0.950000" |}.

Definition route_anchor : PayloadAnchor :=
  {| pa_Kind := "http"; pa_Direction := "provides"; pa_Key := "GET /f"; pa_NormalizedKey := "get /f";
     pa_NodeVID := vid_of "symbol" key_a; pa_EvidenceFilePath := Some "src/f.go"; pa_StartLine := Some 10;
     pa_EndLine := None; pa_Confidence := FFinite false "95" 0; pa_ConfidenceTier := "EXTRACTED";
     pa_Source := "ast" |}.

(** The branch is left out: it is the revision. *)
Definition ast_payload : GraphPayload :=
  {| gp_OrgID := 7; gp_WorkspaceID := "ws-1"; gp_RepoID := 42; gp_Branch := ""; gp_Revision := "main";
     gp_CommitHash := commit; gp_SchemaVersion := 1; gp_BuilderVersion := "b-1"; gp_IndexJobID := "job";
     gp_ManifestID := "m"; gp_ProviderConnectionID := None; gp_Source := "scip";
     gp_Statements := rw_Statements message; gp_Anchors := [route_anchor] |}.

Definition writer : GraphHandler :=
  {| gh_db := true; gh_graph := Some (nebula_WriteRenderedStatements store); gh_float := float_text |}.

Definition before_write : CoreWorld :=
  {| cw_db := {| db_subjobs := ∅; db_jobs := ∅; db_repos := {[ 42 := new_repo 7 "r" ]};
                 db_manifests := [new_manifest "m" "job" 7 42 "ws-1" "main" commit];
                 db_indexes := []; db_lock := None |};
     cw_rest := {| cr_orgs := {[ 7 := {| org_domain := "ws-1"; org_atomWorkspaceId := None |} ]};
                   cr_graphs := ∅; cr_revisions := ∅; cr_languages := ∅; cr_symbols := [];
                   cr_relationships := []; cr_occurrences := []; cr_facts := ∅; cr_edges := ∅;
                   cr_anchors := ∅; cr_graphlog := [] |} |}.

Definition lone (n : nat) : CallEnv :=
  {| ce_fault := fun _ => None; ce_now := Z.of_nat n;
     ce_id := fun i => "id" +:+ Itoa (Z.of_nat n) +:+ "-" +:+ Itoa (Z.of_nat i); ce_others := id |}.

Lemma run_split {A} (o : nat * CoreWorld * outcome A) r (P : CoreWorld -> Prop) :
  o.2 = r /\ P o.1.2 -> exists n w, o = (n, w, r) /\ P w.
Proof. destruct o as [[n w] r']. intros [<- H]. eauto. Qed.

(** The snapshot, its two vertices, its edge and its anchor. *)
Definition wrote (w : CoreWorld) : Prop :=
  map (fun kv => (gx_status kv.2, gx_anchorCount kv.2, gx_linkedEdgeCount kv.2))
    (map_to_list (cr_graphs (cw_rest w))) = [("PARTIAL", 1, 1)] /\
  size (cr_facts (cw_rest w)) = 2%nat /\ size (cr_edges (cw_rest w)) = 1%nat /\
  size (cr_anchors (cw_rest w)) = 1%nat.

Lemma write_runs : exists n w,
  run lone 0 (WritePendingPayload writer ast_payload) before_write = (n, w, Done (Ok tt)) /\ wrote w.
Proof. apply run_split. vm_compute. auto. Qed.

Lemma tables_start : graph_tables_ok before_write.
Proof. split; [intros id g|intros k a..]; simpl; rewrite lookup_empty; discriminate. Qed.

(** There is one edge. *)
Lemma edge_alone : tells_apart ast_payload.
Proof.
  intros vs es E. assert (Hl : (length es = 1)%nat).
  { assert (H : match ExtractRenderedRows (renderedInputFromPayload ast_payload) with
                   | Ok r => length r.2 = 1%nat | Err _ => True end) by (vm_compute; reflexivity).
    rewrite E in H. exact H. }
  clear E. destruct es as [|e [|e' es]]; [discriminate| |discriminate].
  intros a b ->%list_elem_of_singleton ->%list_elem_of_singleton _. split; reflexivity.
Qed.

Lemma pending_write_result_witness :
  exists w gid g', wrote w /\ cr_graphs (cw_rest w) !! gid = Some g' /\
    partial_with_rows float_text ast_payload gid w g'.
Proof.
  destruct write_runs as (n & w & Hrun & Hw).
  destruct (pending_write_result writer ast_payload lone 0 before_write n w) as (gid & g' & Hg & _ & H).
  - intros i. reflexivity.
  - exact tables_start.
  - exact edge_alone.
  - exact Hrun.
  - exists w, gid, g'. split; [exact Hw|]. split; [exact Hg|]. destruct H as [(g & Hg0 & _)|[[Hs _]|H]].
    + discriminate Hg0.
    + exfalso. destruct Hw as [Hw _]. apply elem_of_map_to_list, list_elem_of_In in Hg.
      apply (in_map (fun kv => (gx_status kv.2, gx_anchorCount kv.2, gx_linkedEdgeCount kv.2))) in Hg.
      rewrite Hw in Hg. destruct Hg as [Hg|[]]. injection Hg as Hg _ _. rewrite Hs in Hg. discriminate Hg.
    + exact H.
Defined.

Lemma pending_eq h p : WritePendingPayload h p
  = writePayload h p {| wo_AllowPendingManifest := true; wo_ActivateRevision := false; wo_PartialOnly := true |}.
Proof. reflexivity. Qed.

Lemma graph_write_confined_witness : exists w gid, wrote w /\ only ast_payload gid before_write w.
Proof.
  destruct write_runs as (n & w & Hrun & Hw). rewrite pending_eq in Hrun.
  destruct (graph_write_confined writer ast_payload
    {| wo_AllowPendingManifest := true; wo_ActivateRevision := false; wo_PartialOnly := true |}
    lone 0 before_write n w (Done (Ok tt))) as [E|(_ & gid & H & _)].
  - intros i. reflexivity.
  - exact Hrun.
  - exfalso. destruct Hw as [Hw _]. rewrite E in Hw. discriminate Hw.
  - exists w, gid. split; [exact Hw|exact H].
Defined.

(** ** A late end *)

Definition ready_row : CodeGraphIndex :=
  mark_graph "READY" true 2 1 1 1 (Some 20) None 20
    (new_graph "BUILDING" 10 7 42 "ws-1" "main" commit "job" 1 "b-1").

Definition meanwhile_ready : CoreWorld := with_rest (with_graphs (fun _ => {[ "g" := ready_row ]})) before_write.

Definition late_result : CodeGraphWriteResult :=
  {| wr_Status := WriteStatusReady; wr_VertexCount := 2; wr_EdgeCount := 1; wr_AnchorCount := 1;
     wr_LinkedEdgeCount := 1; wr_ErrorMessage := "" |}.

Lemma late_write_demotes_witness :
  cr_graphs (cw_rest (run lone 0 (markFailed "g" ast_payload "x") meanwhile_ready).1.2) !! "g" = Some ready_row.
Proof.
  destruct (late_write_demotes ast_payload "g" late_result "x" lone 0 meanwhile_ready ready_row (2, 1, 1, 1))
    as (_ & _ & H).
  - intros i. split; reflexivity.
  - reflexivity.
  - reflexivity.
  - reflexivity.
  - reflexivity.
  - reflexivity.
  - exact H.
Defined.

(** ** Two branches at one commit *)

Definition second_scope : RenderedStatementWrite :=
  {| rw_OrgID := 7; rw_WorkspaceID := "ws-1"; rw_RepoID := 42; rw_Revision := "refs/heads/next";
     rw_CommitHash := commit; rw_SchemaVersion := defaultSchemaVersion; rw_BuilderVersion := defaultBuilder;
     rw_Source := "ast"; rw_Statements := [] |}.

Definition second_vertex : CodeGraphVertex :=
  {| vx_VID := vid_prefix second_scope +:+ "file:" +:+ key_b; vx_Kind := "file";
     vx_Properties := list_to_map [("kind", PString "file"); ("orgId", PInt 7); ("workspaceId", PString "ws-1");
       ("repoId", PInt 42); ("revision", PString "refs/heads/next"); ("commitHash", PString commit);
       ("schemaVersion", PInt defaultSchemaVersion); ("builderVersion", PString defaultBuilder)] |}.

Definition second_payload : GraphPayload :=
  {| gp_OrgID := 7; gp_WorkspaceID := "ws-1"; gp_RepoID := 42; gp_Branch := "next"; gp_Revision := "refs/heads/next";
     gp_CommitHash := commit; gp_SchemaVersion := defaultSchemaVersion; gp_BuilderVersion := defaultBuilder;
     gp_IndexJobID := "job"; gp_ManifestID := "m2"; gp_ProviderConnectionID := None; gp_Source := "ast";
     gp_Statements := RenderSchemaStatements ++ [RenderVertexInsert [second_vertex]]; gp_Anchors := [] |}.

Definition second_message : Payload :=
  {| pl_SubjobID := "activate"; pl_RepoIndexingJobID := "job"; pl_OrgID := 7; pl_WorkspaceID := Some "ws-1";
     pl_RepoID := 42; pl_Branch := "next"; pl_Revision := "refs/heads/next"; pl_CommitHash := commit;
     pl_Layer := LayerActivate; pl_Language := None; pl_ProjectRoot := None; pl_Indexer := None;
     pl_WorkerClass := "core"; pl_QueueName := "q"; pl_Attempt := 1 |}.

(** The snapshot of the commit was built for the main branch. *)
Definition first_row : CodeGraphIndex :=
  mark_graph "READY" true 2 1 0 0 (Some 20) None 20
    (new_graph "BUILDING" 10 7 42 "ws-1" "refs/heads/main" commit "job0" defaultSchemaVersion defaultBuilder).

Definition first_ready : CoreWorld :=
  {| cw_db := {| db_subjobs := ∅; db_jobs := ∅; db_repos := {[ 42 := new_repo 7 "r" ]};
                 db_manifests := [new_manifest "m2" "job" 7 42 "ws-1" "next" commit];
                 db_indexes := []; db_lock := None |};
     cw_rest := with_graphs (fun _ => {[ "g" := first_row ]}) (cw_rest before_write) |}.

Definition core_handler : CoreHandler :=
  {| ch_lease := {| h_leaseDuration := 120000; h_heartbeatInterval := 40000; h_leaseOwner := "pod" |};
     ch_graph := None; ch_getenv := fun _ => ""; ch_canQuery := true; ch_order := id; ch_jsonb_text := fun _ => "" |}.

Lemma second_runs : exists n w,
  run lone 0 (WritePendingPayload writer second_payload) first_ready = (n, w, Done (Ok tt)) /\
  scip_rows core_handler second_message "ws-1" w = ([], [], []).
Proof. apply run_split. vm_compute. auto. Qed.

