(* ===== verification/ArtifactWitness.v ===== *)
(** Concrete artifacts for the theorems on their rows, their files and their ingestion:
    a stable sort as the instance of [sort.Slice], a file with a class and its method,
    a disk with an artifact; and a request to the plan writer. *)
From Stdlib Require Import Ascii.
From S2P Require Import Prelude GoStd GoStdFacts GoJSON GoText Sha256 WorkerClasses SubjobTypes SubjobStore SubjobTask.
From S2P Require Import SubjobCodec SubjobSystem Planner PlannerFacts Executor RepoPaths GraphSchema GraphStore.
From S2P Require Import ScipProjection RepoIndexDB CoreDB Disk ScipRows ScipRowsFacts ArtifactScope ArtifactValidator.
From S2P Require Import ArtifactValidatorFacts IndexCore CoreActivate CodeGraphWriter ArtifactStores ScipStore.
From S2P Require Import CoreFacts CodeGraphWriterFacts GraphRowsFacts ScipStoreFacts PipelineFacts PlanWriter.
From S2P Require Import PlanWriterFacts GraphWitness WriterWitness.
#[global] Instance stable_slice_sort : SliceSort :=
  sort_stable (fun a b => rangeSpan (ds_rng a) <? rangeSpan (ds_rng b)).

#[global] Instance stable_slice_sort_law : SliceSortLaw.
Proof.
  split; intros l; unfold slice_sort, stable_slice_sort; [apply sort_stable_perm|].
  assert (H : StronglySorted (fun a b => (rangeSpan (ds_rng b) <? rangeSpan (ds_rng a)) = false)
                (sort_stable (fun a b => rangeSpan (ds_rng a) <? rangeSpan (ds_rng b)) l))
    by (apply sort_stable_sorted; intros *; rewrite ?Z.ltb_ge, ?Z.ltb_lt; lia).
  induction H as [|a l' H IH Ha]; constructor; [done|].
  eapply Forall_impl; [exact Ha|]. intros x. simpl. lia.
Qed.

Definition span_of (a b c d : Z) : NormalizedRange :=
  {| StartLine := a; StartCharacter := b; EndLine := c; EndCharacter := d |}.
Definition class_scope (lines : Z) : definitionScope := {| ds_symbol := "C#"; ds_rng := span_of 0 0 lines 0 |}.
Definition method_scope : definitionScope := {| ds_symbol := "C#m()."; ds_rng := span_of 3 2 9 3 |}.
Definition scopes_with (l : list definitionScope) : Collected :=
  {| co_symbols := ∅; co_definitions := ∅; co_scopes := {[ "src/a.ts" := l ]} |}.

Lemma enclosing_narrowest_witness :
  findEnclosingDefinitionSymbol (sorted_scopes (scopes_with [class_scope 400; method_scope]) "src/a.ts")
    (span_of 5 4 5 8) "D#" = "C#m()." /\
  exists s, s ∈ [class_scope 400; method_scope] /\ ds_symbol s = "C#m()." /\
    forall s', s' ∈ [class_scope 400; method_scope] ->
      negb (ds_symbol s' =s "D#") && containsRange (ds_rng s') (span_of 5 4 5 8) = true ->
      lines_of (ds_rng s) <= lines_of (ds_rng s').
Proof.
  assert (E : findEnclosingDefinitionSymbol (sorted_scopes (scopes_with [class_scope 400; method_scope]) "src/a.ts")
    (span_of 5 4 5 8) "D#" = "C#m().") by (vm_compute; reflexivity).
  split; [exact E|].
  destruct (enclosing_narrowest (scopes_with [class_scope 400; method_scope]) "src/a.ts" [class_scope 400; method_scope]
    (span_of 5 4 5 8) "D#") as [_ H].
  - vm_compute. reflexivity.
  - repeat constructor; unfold narrow; simpl; try lia; discriminate.
  - cbn zeta in H. destruct H as (s & H1 & H2 & H3 & H4); [rewrite E; discriminate|].
    exists s. rewrite E in H2. auto.
Defined.

Lemma long_definition_wins_witness :
  findEnclosingDefinitionSymbol (sorted_scopes (scopes_with [class_scope 21475; method_scope]) "src/a.ts")
    (span_of 5 4 5 8) "D#" = "C#".
Proof.
  apply (long_definition_wins (scopes_with [class_scope 21475; method_scope]) "src/a.ts" (class_scope 21475) method_scope);
    try (vm_compute; reflexivity); try (simpl; lia); try discriminate.
  unfold narrow; simpl; lia.
Defined.


(** Concrete artifacts: a SCIP artifact and an AST artifact of one job, published,
    ingested and merged. *)
#[local] Arguments sha256_hex : simpl never.

(** ** The subjobs *)

Definition task (id layer : string) (language projectRoot indexer : option string) (class queue : string) : Payload :=
  {| pl_SubjobID := id; pl_RepoIndexingJobID := "job"; pl_OrgID := 7; pl_WorkspaceID := Some "ws-1";
     pl_RepoID := 42; pl_Branch := "main"; pl_Revision := "main"; pl_CommitHash := commit;
     pl_Layer := layer; pl_Language := language; pl_ProjectRoot := projectRoot; pl_Indexer := indexer;
     pl_WorkerClass := class; pl_QueueName := queue; pl_Attempt := 1 |}.

Definition ast_task : Payload := task "ast" LayerASTTreeSitter None None None "core" QueueIndexCore.
Definition python_task : Payload :=
  task "python" LayerSCIP (Some "python") (Some "") (Some "scip-python") "scip-ts-python" QueueIndexSCIPTSPython.
Definition go_task : Payload := task "go" LayerSCIP (Some "go") (Some "") (Some "scip-go") "scip-go" QueueIndexSCIPGo.

Definition queued_of (p : Payload) : CreateInput :=
  {| ci_ID := pl_SubjobID p; ci_RepoIndexingJobID := pl_RepoIndexingJobID p; ci_CodeIntelIndexID := None;
     ci_OrgID := pl_OrgID p; ci_WorkspaceID := pl_WorkspaceID p; ci_RepoID := pl_RepoID p; ci_Branch := pl_Branch p;
     ci_Revision := pl_Revision p; ci_CommitHash := pl_CommitHash p; ci_Layer := pl_Layer p;
     ci_Language := pl_Language p; ci_ProjectRoot := pl_ProjectRoot p; ci_Indexer := pl_Indexer p;
     ci_WorkerClass := pl_WorkerClass p; ci_QueueName := pl_QueueName p; ci_MaxAttempts := 1;
     ci_InputDigest := None; ci_ToolchainDigest := None; ci_ImageDigest := None |}.

(** ** The files *)

Definition root_place : list string := ["srv"; "artifacts"].
Definition root : string := render_path true root_place.
Definition place_of (name : string) : list string := root_place ++ scope_dirs ast_task "ws-1" ++ [name].
Definition path_of (name : string) : string := render_path true (place_of name).

(** The directories above a place. *)
Definition dirs_of (place : list string) : list (list string * node) :=
  map (fun k => (take k place, NDir)) (seq 1 (length place - 1)).

Definition disk_with (name content : string) : Disk :=
  {| dk_nodes := list_to_map ((place_of name, NFile content) :: dirs_of (place_of name));
     dk_cwd := "/work"; dk_fault := fun _ _ => None |}.

Definition result_of (name content : string) : Result :=
  {| res_ArtifactTempPath := path_of ("tmp-" +:+ name); res_ArtifactPath := path_of name;
     res_ArtifactSHA256 := "sha256:" +:+ sha256_hex content; res_Metadata := {[ "durationMs" := "1200" ]} |}.

(** The subjobs [ps] are queued; [p] is claimed and its artifact written. *)
Definition until_written (ps : list Payload) (p : Payload) (r : Result) : list op :=
  map (fun q => OpUpsertQueued None 1 1 (queued_of q)) ps ++
  [OpClaim None 2 (toClaimScope p) "pod" "att" 900000;
   OpArtifact None 3 (pl_SubjobID p) "pod" "att" (res_ArtifactTempPath r) (res_ArtifactPath r) (res_ArtifactSHA256 r)].

Definition running_job : DB :=
  {| db_subjobs := ∅;
     db_jobs := {[ "job" := {| job_repoId := 42; job_type := INDEX; job_status := IN_PROGRESS;
                               job_errorMessage := None; job_metadataRef := None; job_createdAt := 0;
                               job_completedAt := None; job_updatedAt := 0 |} ]};
     db_repos := {[ 42 := new_repo 7 "r" ]};
     db_manifests := [new_manifest "m" "job" 7 42 "ws-1" "main" commit];
     db_indexes := []; db_lock := None |}.

Definition world_of (ps : list Payload) (p : Payload) (r : Result) : CoreWorld :=
  {| cw_db := run_ops (until_written ps p r) running_job; cw_rest := cw_rest before_write |}.

(** ** A SCIP artifact: a class with a method, and a use of the class *)

Definition definition_at (symbol : string) (range : list Z) : Occurrence :=
  {| oo_range := range; oo_symbol := symbol; oo_symbol_roles := 1; oo_syntax_kind := 0; oo_enclosing_range := [] |}.
Definition use_at (symbol : string) (range : list Z) : Occurrence :=
  {| oo_range := range; oo_symbol := symbol; oo_symbol_roles := 8; oo_syntax_kind := 0; oo_enclosing_range := [] |}.
Definition symbol_info (symbol : string) (relationships : list Relationship) : SymbolInformation :=
  {| si_symbol := symbol; si_documentation := []; si_relationships := relationships; si_kind := 0;
     si_display_name := ""; si_signature := None; si_enclosing_symbol := "" |}.

Definition index : Index :=
  {| ix_documents :=
       [{| do_relative_path := "src/a.py";
           do_occurrences := [definition_at "p a/C#" [0; 0; 9; 0]; definition_at "p a/C#m()." [3; 2; 6; 0];
                              use_at "p a/C#" [4; 4; 5]];
           do_symbols := [symbol_info "p a/C#" [];
                          symbol_info "p a/C#m()." [{| rp_symbol := "p a/C#"; rp_is_reference := true;
                            rp_is_implementation := false; rp_is_type_definition := false; rp_is_definition := false |}]];
           do_language := "python" |}];
     ix_external_symbols := [] |}.

Definition scip_bytes : string := "scip bytes".

Definition scip_store : ScipStore.Store :=
  {| st_db := true; st_paths := {| DataCacheDir := "/data"; ZoektEFSRoot := ""; ZoektStorageLayout := "" |};
     st_artifactRoot := root;
     st_unmarshal := fun raw => if raw =s scip_bytes then Ok index else Err (EText "unexpected EOF") |}.

Definition scip_disk : Disk := disk_with "index.scip" scip_bytes.
Definition scip_result : Result := result_of "index.scip" scip_bytes.
Definition scip_world (ps : list Payload) : CoreWorld := world_of ps python_task scip_result.
Definition scip_rows_of : Rows := RowsFromIndex scip_disk index "python" "" (RevisionSnapshotPath (st_paths scip_store) 7 42 commit).

(** What the ingestion left: the language, two symbols, four occurrences, and the status of the index. *)
Definition ingested_as (status : string) (w : CoreWorld) : Prop :=
  map cix_status (db_indexes (cw_db w)) = [status] /\ size (cr_languages (cw_rest w)) = 1%nat /\
  (length (cr_symbols (cw_rest w)) = 2)%nat /\ (length (cr_occurrences (cw_rest w)) = 4)%nat.

Lemma scip_runs : exists n w,
  run lone 10 (Ingest scip_disk scip_store python_task scip_result "pod" "att") (scip_world [python_task])
    = (n, w, Done (Ok tt)) /\ ingested_as "READY" w.
Proof. apply run_split. vm_compute. auto. Qed.

Lemma no_indexes p ws : index_keys p ws [].
Proof. split; intros x y Hx; apply elem_of_nil in Hx; destruct Hx. Qed.


(** ** The merge of the revision *)

(** The transaction of the ingestion, with or without a second language to come. *)
Definition ingest_tx (ps : list Payload) : (nat * CoreWorld) * result gerror unit :=
  ingest_body scip_store python_task "ws-1" "python" "" "scip-python" scip_result "pod" "att" scip_rows_of (lone 11)
    (0%nat, scip_world ps).

Lemma ingest_tx_runs ps : (ingest_tx ps).2 = Ok tt ->
  exists idx lid, ingested scip_store python_task "ws-1" "python" "" "scip-python" scip_result "pod" "att" scip_rows_of 11
    (scip_world ps) (ingest_tx ps).1.2 idx lid.
Proof.
  intros H. apply (ingest_body_Ok scip_store python_task "ws-1" "python" "" "scip-python" scip_result "pod" "att"
    scip_rows_of (lone 11) (scip_world ps) (ingest_tx ps).1.1 _ tt).
  - replace (db_indexes (cw_db (scip_world ps))) with (@nil CodeIntelIndex); [apply no_indexes|].
    symmetry. apply (run_ops_indexes (until_written ps python_task scip_result)).
    apply Forall_app. split; [|repeat constructor]. apply Forall_fmap, Forall_forall. done.
  - unfold ingest_tx in *. destruct (ingest_body _ _ _ _ _ _ _ _ _ _ _ _) as [[n w] a]. simpl in *. by rewrite H.
Qed.

Definition merged_after (ps : list Payload) : CoreWorld := (ingest_tx ps).1.2.

Lemma ingested_rows_merged_witness :
  ingested_as "READY" (merged_after [python_task]) /\
  exists o, o ∈ Occurrences scip_rows_of /\ sc_Role o = "REFERENCE" /\ exists idx lid,
    scip_occurrence_row python_task idx lid o
      ∈ List.filter (occurrence_wanted python_task "ws-1" (merged_after [python_task]))
          (cr_occurrences (cw_rest (merged_after [python_task]))).
Proof.
  assert (Hw : ingested_as "READY" (merged_after [python_task])) by (vm_compute; auto).
  split; [exact Hw|].
  destruct (ingest_tx_runs [python_task]) as (idx & lid & Hin); [vm_compute; reflexivity|].
  pose proof (ingested_rows_merged _ _ _ _ _ _ _ _ _ _ _ _ _ _ _ python_task Hin) as H.
  destruct H as (_ & H & _).
  - repeat split.
  - intros x Hx _ E. destruct Hw as [Hw _]. apply list_elem_of_In, (in_map cix_status) in Hx.
    unfold merged_after in Hw. rewrite Hw, E in Hx. destruct Hx as [Hx|[]]. discriminate Hx.
  - exists (nth 2 (Occurrences scip_rows_of) (nth 0 (Occurrences scip_rows_of)
      {| sc_Symbol := ""; sc_FilePath := ""; sc_Range := span_of 0 0 0 0; sc_Role := ""; sc_Language := None;
         sc_SyntaxKind := None; sc_LineContent := None; sc_EnclosingSymbol := None |})).
    assert (Ho : forall z, nth 2 (Occurrences scip_rows_of) z ∈ Occurrences scip_rows_of).
    { intros z. apply list_elem_of_In, nth_In. vm_compute. lia. }
    split; [apply Ho|]. split; [vm_compute; reflexivity|]. exists idx, lid. apply H; [apply Ho|..].
    + vm_compute. constructor.
    + vm_compute. discriminate.
    + right. vm_compute. discriminate.
Defined.

Definition language_names (w : CoreWorld) : list string :=
  map li_language (map snd (map_to_list (cr_languages (cw_rest w)))).

Lemma languages_of_names idx w li : li ∈ languages_of idx w -> In (li_language li) (language_names w).
Proof. intros [H _]%list_elem_of_In%filter_In. by apply in_map. Qed.

(** The second language fails after the first was ingested; its subjob is then skipped. *)
Definition go_fails : list op :=
  [OpClaim None 20 (toClaimScope go_task) "pod" "att2" 900000; OpFailed None 21 "go" "pod" "att2" "oom" "killed"].

Definition after_failure : CoreWorld := with_db (run_ops go_fails) (merged_after [python_task; go_task]).

Lemma skipped_last_hides_scip_witness :
  sj_status <$> db_subjobs (cw_db after_failure) !! "go" = Some StatusSkipped /\
  ingested_as "INDEXING" after_failure /\ scip_rows core_handler python_task "ws-1" after_failure = ([], [], []).
Proof.
  split; [vm_compute; reflexivity|]. split; [vm_compute; auto|].
  destruct (ingest_tx_runs [python_task; go_task]) as (idx & lid & Hin); [vm_compute; reflexivity|].
  assert (Hin' : merged_after [python_task; go_task] = (ingest_tx [python_task; go_task]).1.2) by reflexivity.
  rewrite <- Hin' in Hin.
  pose proof (ig_index _ _ _ _ _ _ _ _ _ _ _ _ _ _ _ Hin) as (x & (Hx & _) & _ & _ & _ & _ & _ & _ & _ & _ & Hp).
  assert (Hst : forall y, y ∈ db_indexes (cw_db (merged_after [python_task; go_task])) -> cix_status y = "INDEXING").
  { intros y Hy. apply list_elem_of_In, (in_map cix_status) in Hy.
    replace (map cix_status (db_indexes (cw_db (merged_after [python_task; go_task])))) with ["INDEXING"] in Hy
      by (vm_compute; reflexivity). destruct Hy as [Hy|[]]. symmetry. exact Hy. }
  assert (Hlen : (length (db_indexes (cw_db (merged_after [python_task; go_task]))) <= 1)%nat) by (vm_compute; lia).
  assert (Hone : forall y z, y ∈ db_indexes (cw_db (merged_after [python_task; go_task])) ->
    z ∈ db_indexes (cw_db (merged_after [python_task; go_task])) -> y = z).
  { destruct (db_indexes _) as [|a [|b l]]; intros y z Hy Hz.
    - apply elem_of_nil in Hy. destruct Hy.
    - apply list_elem_of_singleton in Hy, Hz. congruence.
    - simpl in Hlen. lia. }
  destruct (List.find (fun sj => bool_decide (sc_language (sj_scope sj) = Some "go"))
    (scip_subjobs python_task "ws-1" (cw_db (merged_after [python_task; go_task])))) as [other|] eqn:El;
    [|vm_compute in El; discriminate El].
  apply find_some in El as [Hother Hgo%bool_decide_eq_true].
  unfold after_failure. eapply (skipped_last_hides_scip _ _ _ _ _ _ _ _ _ _ _ _ _ _ _ _ _ other).
  - exact Hin.
  - repeat split.
  - split; intros y z Hy Hz _; intros; by apply Hone.
  - intros Hg. apply Hp in Hg. rewrite (Hst x Hx) in Hg. discriminate Hg.
  - apply list_elem_of_In. exact Hother.
  - intros li Hli _. apply languages_of_names in Hli.
    replace (language_names (merged_after [python_task; go_task])) with ["python"] in Hli by (vm_compute; reflexivity).
    destruct Hli as [Hli|[]]. unfold subjob_of_language. rewrite Hgo, <- Hli. reflexivity.
  - repeat constructor.
Defined.

(** ** The scope *)


(** ** Publication *)

Definition temp_disk : Disk := disk_with "tmp-index.scip" scip_bytes.

Definition parents_are_dirs (d : Disk) : bool :=
  forallb (fun kv => bool_decide (node_at d (removelast kv.1) = Some NDir)) (map_to_list (dk_nodes d)).

Lemma checked_disk_ok d : parents_are_dirs d = true -> disk_ok d.
Proof.
  unfold parents_are_dirs. rewrite forallb_forall. intros H dir e n Hn.
  assert (Hl : dk_nodes d !! (dir ++ [e]) = Some n) by (by destruct dir).
  apply elem_of_map_to_list, list_elem_of_In, H, bool_decide_eq_true in Hl. simpl in Hl. by rewrite removelast_last in Hl.
Qed.

Lemma root_is_dir : real_dir temp_disk root_place.
Proof.
  split; [|vm_compute; reflexivity]. split.
  - repeat constructor; try discriminate; unfold slash_free; apply (bool_decide_eq_false_1 _); vm_compute; reflexivity.
  - intros k Hk. destruct k as [|[|k]]; [reflexivity|vm_compute; reflexivity|simpl in Hk; lia].
Qed.


(** ** An AST artifact *)

Fixpoint json_array (l : list string) : string :=
  match l with
  | [] => ""
  | [x] => x
  | x :: l' => x +:+ "," +:+ json_array l'
  end.

Definition anchor_json : string :=
  json_object [("kind", json_string "http"); ("direction", json_string "provides"); ("key", json_string "GET /f");
    ("normalizedKey", json_string "get /f"); ("nodeVid", json_string (vid_of "symbol" key_a));
    ("evidenceFilePath", json_string "src/f.go"); ("startLine", "10"); ("confidence", "0.95");
    ("confidenceTier", json_string "EXTRACTED"); ("source", json_string "ast")].

(** The job and the manifest are left out. *)
Definition ast_bytes : string :=
  json_object [("orgId", "7"); ("workspaceId", json_string "ws-1"); ("repoId", "42"); ("revision", json_string "main");
    ("commitHash", json_string commit); ("schemaVersion", "1"); ("builderVersion", json_string "b-1");
    ("source", json_string "scip");
    ("statements", "[" +:+ json_array (map json_string (rw_Statements message)) +:+ "]");
    ("anchors", "[" +:+ anchor_json +:+ "]")].

Definition ast_disk : Disk := disk_with "graph.json" ast_bytes.
Definition ast_result : Result := result_of "graph.json" ast_bytes.
Definition ast_store : Ast.Store := {| Ast.st_db := true; Ast.st_artifactRoot := root; Ast.st_writer := Some writer |}.
Definition ast_world : CoreWorld := world_of [ast_task] ast_task ast_result.

Lemma ast_runs : exists n w,
  run lone 10 (Ast.Ingest ast_disk ast_store ast_task ast_result "pod" "att") ast_world = (n, w, Done (Ok tt)) /\ wrote w.
Proof. apply run_split. vm_compute. auto. Qed.

Lemma ast_ingest_contract_witness : exists w g m, wrote w /\
  ast_artifact ast_disk ast_store float_text ast_task ast_result g /\ stands_for ast_task "ws-1" m (Ast.with_manifest g m).
Proof.
  destruct ast_runs as (n & w & Hrun & Hw).
  destruct (ast_ingest_contract ast_disk ast_store ast_task ast_result "pod" "att" lone 10 ast_world n w (Done (Ok tt)))
    as [[H _]|(wr & ws & g & m & w1 & w2 & Hwr & Hws & Ha & _ & _ & _ & _ & Hs & _)].
  - intros i. reflexivity.
  - exact Hrun.
  - exfalso. apply H. reflexivity.
  - injection Hwr as <-. injection Hws as <-. exists w, g, m. split; [exact Hw|]. split; [exact Ha|exact Hs].
Defined.


(** A plan of one branch with an AST run, two SCIP projects, the merge and the
    activation, written for a running job. *)
Definition project_plan (language class indexer root : string) : SCIPProjectPlan :=
  {| pp_Language := language; pp_ProjectRoot := root; pp_Indexer := indexer; pp_ScipWorkerClass := class;
     pp_ToolchainDigest := Some "sha256:1"; pp_ImageDigest := None; pp_ProjectInputHash := None |}.

Definition plan_request : WriteIndexPlanRequest :=
  {| wq_IndexJobId := "job"; wq_OrgId := 7; wq_RepoId := 42; wq_MaxAttempts := 0;
     wq_Revisions := [Some {| pr_WorkspaceId := "ws-1"; pr_Branch := "main"; pr_Revision := "main"; pr_CommitHash := commit;
       pr_RunAstTreeSitter := true; pr_RunGraphMerge := true; pr_RunActivate := true;
       pr_ScipProjects := [Some (project_plan "python" "python" "scip-python" "");
                           Some (project_plan "go" "go" "scip-go" "cmd/tool")] |}] |}.

Definition digest_order : list string := ["imageDigest"; "projectInputHash"; "toolchainDigest"].

Definition plan_start : PlanState := (0%nat, {| cw_db := running_job; cw_rest := cw_rest before_write |}).


Lemma plan_request_known : validateRequest digest_order (Some plan_request) = None /\ classes_known plan_request.
Proof. split; [vm_compute; reflexivity|]. repeat constructor; vm_compute; eexists; reflexivity. Qed.
