(* ===== verification/SyncWitness.v ===== *)
(** A concrete GitHub connection synced: the theorems on the connection-sync worker
    applied to it. *)
From Stdlib Require Import Ascii.
From S2P Require Import Prelude GoStd GoStdFacts GoJSON GoJSONFacts GoText SubjobTypes SubjobStore SubjobCodec.
From S2P Require Import Scheduler RepoIndexDB RepoTask CoreDB Disk CodeHosts OtherHosts ConnectionSync.
From S2P Require Import ConnectionSyncFacts.
From S2P Require RepoIndexStatus.
Import connectionsync.

(** ** URLs of the form scheme://host/path *)

Record PlainURL : Type := { pu_scheme : string; pu_host : string; pu_path : string }.

Definition plain_parse (raw : string) : result gerror PlainURL :=
  match Index raw "://" with
  | None => Ok {| pu_scheme := ""; pu_host := ""; pu_path := raw |}
  | Some i =>
      let rest := str_drop (i + 3) raw in
      match CutByte "/" rest with
      | Some (host, path) => Ok {| pu_scheme := str_take i raw; pu_host := host; pu_path := "/" +:+ path |}
      | None => Ok {| pu_scheme := str_take i raw; pu_host := rest; pu_path := "" |}
      end
  end.

#[local] Instance plain_urls : NetURL := {
  URL := PlainURL; url_Parse := plain_parse; url_Scheme := pu_scheme; url_Host := pu_host; url_Path := pu_path;
  url_String u := pu_scheme u +:+ "://" +:+ pu_host u +:+ pu_path u;
  with_Scheme s u := {| pu_scheme := s; pu_host := pu_host u; pu_path := pu_path u |};
  with_Host h u := {| pu_scheme := pu_scheme u; pu_host := h; pu_path := pu_path u |};
  PathEscape s := s; PathUnescape := Ok
}.

(** A pattern is the text itself. *)
#[local] Instance literal_globs : Globs := fun pattern => Some (fun s => s =s pattern).

(** ** The host *)

Definition octo (id : Z) (name : string) (archived : bool) : OctokitRepository :=
  {| or_Name := name; or_ID := id; or_FullName := "acme/" +:+ name; or_Fork := false; or_Private := true;
     or_HTMLURL := "https://github.com/acme/" +:+ name; or_CloneURL := Some ("https://github.com/acme/" +:+ name +:+ ".git");
     or_StargazersCount := Some 7; or_WatchersCount := None; or_SubscribersCount := None;
     or_DefaultBranch := Some "main"; or_ForksCount := None; or_Archived := Some archived; or_Topics := ["go"];
     or_Size := Some 12; or_Owner := {| ow_AvatarURL := ""; ow_Login := "acme" |} |}.

Definition no_disk : Disk := {| dk_nodes := ∅; dk_cwd := "/"; dk_fault _ _ := None |}.

Definition host_apis (listing : Listing OctokitRepository) : HostAPIs := {|
  buildGitHubClient _ _ := None; FetchReposForOrg _ _ _ := listing;
  buildGitLabClient _ _ := None; FetchProjectsForGroup _ _ _ := Ok (inl []);
  buildGiteaClient _ _ := None; FetchReposForGiteaOrg _ _ _ := Ok (inl []);
  buildBitbucketCloudClient _ _ _ := None; FetchReposForBitbucketCloudWorkspace _ _ _ _ := Ok (inl []);
  FetchReposForBitbucketServerProject _ _ _ := Ok (inl []); IsBitbucketServerPublicAccessEnabled _ _ := false;
  FetchAllGerritProjects _ := Ok []; fetchAzureDevOpsProjects _ _ _ := Ok (inl []);
  fetchAzureDevOpsRepositories _ _ _ := Ok []; http_Get _ := None; Glob _ _ := Ok []; disk := no_disk;
  ctx_Err _ := None
|}.

Definition live_host : HostAPIs := host_apis (Ok (inl [octo 42 "api" false; octo 43 "old" true])).
Definition dead_host : HostAPIs := host_apis (Err (EText "timeout")).

(** ** The tables *)

Definition acme_config : string :=
  "{" +:+ quoted "orgs" +:+ ":[" +:+ quoted "acme" +:+ "]," +:+ quoted "exclude" +:+ ":{" +:+ quoted "archived" +:+ ":true}}".

Definition indexed_metadata : json := JObj [("indexedRevisions", JArr [JStr "refs/heads/main"])].

Definition stored_repo (org : Z) (name : string) : SubjobTypes.Repo :=
  {| repo_orgId := org; repo_name := name; repo_latestIndexingJobStatus := None; repo_cloneUrl := Some "old";
     repo_codeHostType := Some "github"; repo_defaultBranch := Some "main"; repo_metadata := Some indexed_metadata;
     repo_indexedAt := Some 5; repo_indexedCommitHash := Some "c"; repo_updatedAt := 5 |}.

Definition stored_host : HostColumns :=
  {| hc_external_id := "42"; hc_codeHostUrl := "https://github.com"; hc_displayName := "acme/api"; hc_isFork := false;
     hc_isArchived := false; hc_isPublic := false; hc_isAutoCleanupDisabled := true; hc_webUrl := ""; hc_imageUrl := "" |}.

(** Repository 10 of organisation 3 and repository 11 of organisation 4 have the same
    external key; connection 7 is one of organisation 3, connection 8 one of 4. *)
Definition sync_world : SyncWorld := {|
  sn_world := {|
    w_db := {| db_subjobs := ∅; db_jobs := ∅;
               db_repos := {[10 := stored_repo 3 "github.com/acme/api"; 11 := stored_repo 4 "github.com/acme/api"]};
               db_manifests := []; db_indexes := []; db_lock := None |};
    w_connections := {[7 := {| conn_orgId := 3; conn_name := "acme" |}; 8 := {| conn_orgId := 4; conn_name := "acme" |}]};
    w_repoToConnection := [(11, 8)];
    w_syncJobs := {["j1" := {| sync_connectionId := 7; sync_status := "PENDING"; sync_errorMessage := None;
                               sync_warningMessages := []; sync_createdAt := 1; sync_completedAt := None;
                               sync_updatedAt := 1 |}]};
    w_queue := [] |};
  sn_hosts := {[10 := stored_host; 11 := stored_host]};
  sn_columns := {[7 := {| cc_connectionType := "github"; cc_config := acme_config; cc_syncedAt := None |};
                  8 := {| cc_connectionType := "github"; cc_config := acme_config; cc_syncedAt := None |}]}
|}.

Definition quiet (n : nat) : SyncEnv :=
  {| se_fault := None; se_now := 100 + Z.of_nat n; se_id := 20 + Z.of_nat n; se_others w := w |}.

Definition sync_task (org : Z) : SyncPayload :=
  {| sp_JobID := "j1"; sp_ConnectionID := 7; sp_ConnectionName := "acme"; sp_OrgID := org |}.
Definition sync_text (org : Z) : string := struct_text (sync_fields (sync_task org)).

Definition sync_run (api : HostAPIs) (org : Z) : SyncState * result gerror unit :=
  Handle api (production_slots api) quiet true (sync_text org) (0%nat, sync_world).

Lemma quiet_alone : alone quiet.
Proof. done. Qed.

Definition live_records : list RepoData :=
  match compile_host live_host (production_slots live_host) "github" acme_config 7 with
  | Some (Compiled (Ok (records, _))) => records
  | _ => []
  end.

(** The archived repository is excluded. *)
Lemma live_compiles :
  exists records, compiles_to live_host (production_slots live_host) sync_world 7 records [] /\
    map rd_ExternalID records = ["42"] /\ map rd_Name records = ["github.com/acme/api"] /\
    map rd_IsPublic records = [false].
Proof.
  exists live_records. split; [|by vm_compute]. eexists. split; [reflexivity|]. vm_compute. reflexivity.
Qed.

Lemma sync_isolated_witness :
  (sync_run live_host 3).2 = Ok tt /\
  repos_of (sync_run live_host 3).1.2 !! 11 = Some (stored_repo 4 "github.com/acme/api") /\
  (sync_run live_host 4).1.2 = sync_world.
Proof.
  split; [vm_compute; done|].
  destruct (sync_run live_host 3) as [[n w] r] eqn:E. destruct (sync_run live_host 4) as [[n' w'] r'] eqn:E'. split.
  - destruct (sync_isolated live_host (production_slots live_host) quiet true (sync_text 3) (sync_task 3) 0 sync_world n w r)
      as [[Hr _ _ _] _]; [by vm_compute|intros k v; cbn; reflexivity|exact E|].
    apply Hr; [reflexivity|done].
  - destruct (sync_isolated live_host (production_slots live_host) quiet true (sync_text 4) (sync_task 4) 0 sync_world n' w' r')
      as [_ H]; [by vm_compute|intros k v; cbn; reflexivity|exact E'|].
    by destruct (H {| conn_orgId := 3; conn_name := "acme" |} eq_refl eq_refl) as [-> _].
Defined.


Lemma failed_sync_not_resumed_witness :
  exists n w e, sync_run dead_host 3 = ((n, w), Err e) /\
    exists e', Handle live_host (production_slots dead_host) quiet true (sync_text 3) (n, w) = ((S n, w), Err e').
Proof.
  assert (H2 : exists e, (sync_run dead_host 3).2 = Err e) by (eexists; vm_compute; done).
  destruct (sync_run dead_host 3) as [[n w] r] eqn:E. destruct H2 as [e He]. cbn in He. subst r.
  exists n, w, e. split; [done|]. eexists.
  apply (failed_sync_not_resumed dead_host live_host (production_slots dead_host) quiet (sync_text 3) (sync_task 3) 0 sync_world n w e
           quiet_alone); [by vm_compute|by vm_compute|exact E].
Defined.

(** Repository 10 had the revision "refs/heads/main". *)
Lemma sync_forgets_indexed_revisions_witness :
  repo_metadata <$> repos_of sync_world !! 10 = Some (Some indexed_metadata) /\
  exists d id r, rd_ExternalID d = "42" /\ repos_of (sync_run live_host 3).1.2 !! id = Some r /\ repo_orgId r = 3 /\
    forall text, json_parse text = repo_metadata r ->
      RepoIndexStatus.md_IndexedRevisions (RepoIndexStatus.ParseMetadata text) = [].
Proof.
  split; [done|].
  assert (H1 : (sync_run live_host 3).2 = Ok tt) by (vm_compute; done).
  destruct (sync_run live_host 3) as [[n w] r] eqn:E. cbn in H1. subst r.
  destruct live_compiles as (records & Hc & Hids & _).
  destruct records as [|d records]; [done|]. cbn in Hids. injection Hids as Hid _.
  destruct (sync_forgets_indexed_revisions live_host (production_slots live_host) quiet (sync_text 3) (sync_task 3) 0 sync_world
              n w (d :: records) [] quiet_alone ltac:(by vm_compute) E Hc d) as (id & r & h & Hr & _ & Ho & _ & _ & Hm).
  { constructor. }
  by exists d, id, r.
Defined.
