(* ===== verification/Encryption.v ===== *)
(** Encryption of secrets and hashing of API keys, src/internal/auth/encrypt.go and
    src/internal/auth/hash.go, with what they use of Go's standard library: AES-256
    (crypto/aes), CBC (crypto/cipher), HMAC (crypto/hmac) over [Sha256], and
    encoding/hex.  Bytes are [Z]. *)
From Stdlib Require Import Ascii.
From S2P Require Import Prelude GoStd GoStdFacts GoJSON Sha256.
(** ** Bytes *)

Definition to_bytes (s : string) : list Z := map code (String.list_ascii_of_string s).

Definition of_bytes (l : list Z) : string := String.string_of_list_ascii (map chr l).

Definition is_byte (z : Z) : Prop := 0 <= z < 256.

Definition all_bytes : list Z := map Z.of_nat (seq 0 256).

Definition xor_bytes : list Z -> list Z -> list Z := zip_with Z.lxor.

(** ** AES-256: the tables and the steps of FIPS 197 *)

Definition sbox0 : list Z :=
  [99; 124; 119; 123; 242; 107; 111; 197; 48; 1; 103; 43; 254; 215; 171; 118;
   202; 130; 201; 125; 250; 89; 71; 240; 173; 212; 162; 175; 156; 164; 114; 192;
   183; 253; 147; 38; 54; 63; 247; 204; 52; 165; 229; 241; 113; 216; 49; 21;
   4; 199; 35; 195; 24; 150; 5; 154; 7; 18; 128; 226; 235; 39; 178; 117;
   9; 131; 44; 26; 27; 110; 90; 160; 82; 59; 214; 179; 41; 227; 47; 132;
   83; 209; 0; 237; 32; 252; 177; 91; 106; 203; 190; 57; 74; 76; 88; 207;
   208; 239; 170; 251; 67; 77; 51; 133; 69; 249; 2; 127; 80; 60; 159; 168;
   81; 163; 64; 143; 146; 157; 56; 245; 188; 182; 218; 33; 16; 255; 243; 210;
   205; 12; 19; 236; 95; 151; 68; 23; 196; 167; 126; 61; 100; 93; 25; 115;
   96; 129; 79; 220; 34; 42; 144; 136; 70; 238; 184; 20; 222; 94; 11; 219;
   224; 50; 58; 10; 73; 6; 36; 92; 194; 211; 172; 98; 145; 149; 228; 121;
   231; 200; 55; 109; 141; 213; 78; 169; 108; 86; 244; 234; 101; 122; 174; 8;
   186; 120; 37; 46; 28; 166; 180; 198; 232; 221; 116; 31; 75; 189; 139; 138;
   112; 62; 181; 102; 72; 3; 246; 14; 97; 53; 87; 185; 134; 193; 29; 158;
   225; 248; 152; 17; 105; 217; 142; 148; 155; 30; 135; 233; 206; 85; 40; 223;
   140; 161; 137; 13; 191; 230; 66; 104; 65; 153; 45; 15; 176; 84; 187; 22].

Definition sbox1 : list Z :=
  [82; 9; 106; 213; 48; 54; 165; 56; 191; 64; 163; 158; 129; 243; 215; 251;
   124; 227; 57; 130; 155; 47; 255; 135; 52; 142; 67; 68; 196; 222; 233; 203;
   84; 123; 148; 50; 166; 194; 35; 61; 238; 76; 149; 11; 66; 250; 195; 78;
   8; 46; 161; 102; 40; 217; 36; 178; 118; 91; 162; 73; 109; 139; 209; 37;
   114; 248; 246; 100; 134; 104; 152; 22; 212; 164; 92; 204; 93; 101; 182; 146;
   108; 112; 72; 80; 253; 237; 185; 218; 94; 21; 70; 87; 167; 141; 157; 132;
   144; 216; 171; 0; 140; 188; 211; 10; 247; 228; 88; 5; 184; 179; 69; 6;
   208; 44; 30; 143; 202; 63; 15; 2; 193; 175; 189; 3; 1; 19; 138; 107;
   58; 145; 17; 65; 79; 103; 220; 234; 151; 242; 207; 206; 240; 180; 230; 115;
   150; 172; 116; 34; 231; 173; 53; 133; 226; 249; 55; 232; 28; 117; 223; 110;
   71; 241; 26; 113; 29; 41; 197; 137; 111; 183; 98; 14; 170; 24; 190; 27;
   252; 86; 62; 75; 198; 210; 121; 32; 154; 219; 192; 254; 120; 205; 90; 244;
   31; 221; 168; 51; 136; 7; 199; 49; 177; 18; 16; 89; 39; 128; 236; 95;
   96; 81; 127; 169; 25; 181; 74; 13; 45; 229; 122; 159; 147; 201; 156; 239;
   160; 224; 59; 77; 174; 42; 245; 176; 200; 235; 187; 60; 131; 83; 153; 97;
   23; 43; 4; 126; 186; 119; 214; 38; 225; 105; 20; 99; 85; 33; 12; 125].

Definition subst (table : list Z) (b : Z) : Z := nth (Z.to_nat b) table 0.

(** Multiplication by 2 in the field of 256 elements. *)
Definition xtime (b : Z) : Z := if 2 * b <? 256 then 2 * b else Z.lxor (2 * b) 283.

Definition mul3 (b : Z) : Z := Z.lxor (xtime b) b.
Definition mul9 (b : Z) : Z := Z.lxor (xtime (xtime (xtime b))) b.
Definition mul11 (b : Z) : Z := Z.lxor (xtime (xtime (xtime b))) (Z.lxor (xtime b) b).
Definition mul13 (b : Z) : Z := Z.lxor (xtime (xtime (xtime b))) (Z.lxor (xtime (xtime b)) b).
Definition mul14 (b : Z) : Z := Z.lxor (xtime (xtime (xtime b))) (Z.lxor (xtime (xtime b)) (xtime b)).

(** The state is the list of its sixteen bytes, column after column. *)
Definition shift_rows (s : list Z) : list Z :=
  match s with
  | [a0; a1; a2; a3; b0; b1; b2; b3; c0; c1; c2; c3; d0; d1; d2; d3] =>
      [a0; b1; c2; d3; b0; c1; d2; a3; c0; d1; a2; b3; d0; a1; b2; c3]
  | _ => s
  end.

Definition inv_shift_rows (s : list Z) : list Z :=
  match s with
  | [a0; b1; c2; d3; b0; c1; d2; a3; c0; d1; a2; b3; d0; a1; b2; c3] =>
      [a0; a1; a2; a3; b0; b1; b2; b3; c0; c1; c2; c3; d0; d1; d2; d3]
  | _ => s
  end.

Definition xor4 (a b c d : Z) : Z := Z.lxor (Z.lxor a b) (Z.lxor c d).

Fixpoint mix_columns (s : list Z) : list Z :=
  match s with
  | a :: b :: c :: d :: rest =>
      xor4 (xtime a) (mul3 b) c d :: xor4 a (xtime b) (mul3 c) d
      :: xor4 a b (xtime c) (mul3 d) :: xor4 (mul3 a) b c (xtime d) :: mix_columns rest
  | _ => []
  end.

Fixpoint inv_mix_columns (s : list Z) : list Z :=
  match s with
  | a :: b :: c :: d :: rest =>
      xor4 (mul14 a) (mul11 b) (mul13 c) (mul9 d) :: xor4 (mul9 a) (mul14 b) (mul11 c) (mul13 d)
      :: xor4 (mul13 a) (mul9 b) (mul14 c) (mul11 d) :: xor4 (mul11 a) (mul13 b) (mul9 c) (mul14 d)
      :: inv_mix_columns rest
  | _ => []
  end.

(** ** The key schedule *)

Definition sub_word (w : list Z) : list Z := map (subst sbox0) w.

Definition rot_word (w : list Z) : list Z := match w with a :: rest => rest ++ [a] | [] => [] end.

(** Words are kept newest first; [i] is the number of the next one. *)
Definition next_word (i : Z) (rcon : Z) (ws : list (list Z)) : list Z :=
  let t := nth 0 ws [] in
  let t' := if i mod 8 =? 0 then xor_bytes (sub_word (rot_word t)) [rcon; 0; 0; 0]
            else if i mod 8 =? 4 then sub_word t else t in
  xor_bytes (nth 7 ws []) t'.

Fixpoint expand (n : nat) (i rcon : Z) (ws : list (list Z)) : list (list Z) :=
  match n with
  | O => ws
  | S n' => expand n' (i + 1) (if i mod 8 =? 0 then xtime rcon else rcon) (next_word i rcon ws :: ws)
  end.

Fixpoint groups (fuel size : nat) (l : list Z) : list (list Z) :=
  match fuel, l with
  | S n, _ :: _ => take size l :: groups n size (drop size l)
  | _, _ => []
  end.

(** The fifteen round keys of a key of 32 bytes. *)
Definition round_keys (key : list Z) : list (list Z) :=
  let ws := rev (expand 52 8 1 (rev (groups 32 4 key))) in
  groups 240 16 (concat ws).

(** ** The cipher *)

Definition enc_round (s rk : list Z) : list Z :=
  xor_bytes (mix_columns (shift_rows (map (subst sbox0) s))) rk.

Definition dec_round (s rk : list Z) : list Z :=
  map (subst sbox1) (inv_shift_rows (inv_mix_columns (xor_bytes s rk))).

Definition enc_last (s rk : list Z) : list Z := xor_bytes (shift_rows (map (subst sbox0) s)) rk.

Definition dec_last (s rk : list Z) : list Z := map (subst sbox1) (inv_shift_rows (xor_bytes s rk)).

(** [cipher.Block.Encrypt] and [Decrypt] with a key of 32 bytes. *)
Definition aes_encrypt (key block : list Z) : list Z :=
  match round_keys key with
  | k0 :: rest => enc_last (foldl enc_round (xor_bytes block k0) (take 13 rest)) (nth 13 rest [])
  | [] => block
  end.

Definition aes_decrypt (key block : list Z) : list Z :=
  match round_keys key with
  | k0 :: rest => xor_bytes (foldl dec_round (dec_last block (nth 13 rest [])) (rev (take 13 rest))) k0
  | [] => block
  end.

(** [cipher.NewCBCEncrypter(block, iv).CryptBlocks] on a list of blocks, and its
    counterpart, for a block cipher. *)
Fixpoint cbc_encrypt (enc : list Z -> list Z) (prev : list Z) (bs : list (list Z)) {struct bs} : list (list Z) :=
  match bs with
  | [] => []
  | b :: rest => enc (xor_bytes b prev) :: cbc_encrypt enc (enc (xor_bytes b prev)) rest
  end.

Fixpoint cbc_decrypt (dec : list Z -> list Z) (prev : list Z) (bs : list (list Z)) {struct bs} : list (list Z) :=
  match bs with
  | [] => []
  | c :: rest => xor_bytes (dec c) prev :: cbc_decrypt dec c rest
  end.

(** ** encoding/hex *)

Definition hex_encode (l : list Z) : string :=
  String.string_of_list_ascii (l ≫= (fun b => [hex_digit (Z.shiftr b 4); hex_digit (Z.land b 15)])).

Definition ErrLength : gerror := ESentinel "encoding/hex: odd length hex string".

(** The byte is named in the message, in the form of the verb %#U. *)
Definition InvalidByteError (c : ascii) : gerror := EText "encoding/hex: invalid byte".

Fixpoint hex_decode (s : string) : result gerror (list Z) :=
  match s with
  | EmptyString => Ok []
  | String p EmptyString =>
      match hex_value p with None => Err (InvalidByteError p) | Some _ => Err ErrLength end
  | String p (String q rest) =>
      match hex_value p with
      | None => Err (InvalidByteError p)
      | Some a =>
          match hex_value q with
          | None => Err (InvalidByteError q)
          | Some b => let? l := hex_decode rest in Ok (Z.lor (Z.shiftl a 4) b :: l)
          end
      end
  end.

(** ** encrypt.go *)

Definition aesBlockSize : Z := 16.

Definition ErrInvalidEncryptionKey : gerror :=
  ESentinel "auth: encryption key must be exactly 32 ASCII bytes (AES-256)".

Definition blen {A} (l : list A) : Z := Z.of_nat (length l).

Definition pkcs7Pad (l : list Z) (blockSize : Z) : list Z :=
  let padLen := blockSize - blen l mod blockSize in
  l ++ repeat (padLen mod 256) (Z.to_nat padLen).

Definition pkcs7Unpad (l : list Z) (blockSize : Z) : result gerror (list Z) :=
  if (blen l =? 0) || negb (blen l mod blockSize =? 0) then Err (EText "auth: invalid padded length")
  else
    let padLen := nth (length l - 1) l 0 in
    if (padLen =? 0) || (blockSize <? padLen) then Err (EText "auth: invalid pkcs7 pad length")
    else if forallb (fun b => b =? padLen) (drop (Z.to_nat (blen l - padLen)) l)
    then Ok (take (Z.to_nat (blen l - padLen)) l)
    else Err (EText "auth: pkcs7 padding bytes do not match length").

Definition crypt_groups (l : list Z) : list (list Z) := groups (length l) 16 l.

(** [rand] is what [rand.Read] gives for the initialisation vector: sixteen bytes, or
    an error.  [aes.NewCipher] fails only on keys of another length. *)
Definition Encrypt (rand : result gerror (list Z)) (key plaintext : string) : result gerror (string * string) :=
  if negb (blen (to_bytes key) =? 32) then Err ErrInvalidEncryptionKey
  else match rand with
       | Err e => Err (EWrap "auth: rand.Read: " e "")
       | Ok iv =>
           let padded := pkcs7Pad (to_bytes plaintext) aesBlockSize in
           let encrypted := concat (cbc_encrypt (aes_encrypt (to_bytes key)) iv (crypt_groups padded)) in
           Ok (hex_encode iv, hex_encode encrypted)
       end.

Definition Decrypt (key ivHex ciphertextHex : string) : result gerror string :=
  if negb (blen (to_bytes key) =? 32) then Err ErrInvalidEncryptionKey
  else match hex_decode ivHex with
  | Err e => Err (EWrap "auth: decode iv: " e "")
  | Ok iv =>
      if negb (blen iv =? aesBlockSize)
      then Err (EText ("auth: iv must be " +:+ Itoa aesBlockSize +:+ " bytes, got " +:+ Itoa (blen iv)))
      else match hex_decode ciphertextHex with
      | Err e => Err (EWrap "auth: decode ciphertext: " e "")
      | Ok ciphertext =>
          if (blen ciphertext =? 0) || negb (blen ciphertext mod aesBlockSize =? 0)
          then Err (EText ("auth: ciphertext length " +:+ Itoa (blen ciphertext)
                           +:+ " is not a positive multiple of the block size"))
          else
            let decrypted := concat (cbc_decrypt (aes_decrypt (to_bytes key)) iv (crypt_groups ciphertext)) in
            match pkcs7Unpad decrypted aesBlockSize with
            | Err e => Err e
            | Ok unpadded => Ok (of_bytes unpadded)
            end
      end
  end.

(** ** hash.go *)

Definition word_bytes (w : Z) : list Z := map (fun i => Z.land (Z.shiftr w (8 * (3 - Z.of_nat i))) 255) (seq 0 4).

Definition sha256_bytes (l : list Z) : list Z := sha256_words l ≫= word_bytes.

(** [hmac.New(sha256.New, key)], written with [message] and summed. *)
Definition hmac_sha256 (key message : list Z) : list Z :=
  let k0 := if 64 <? blen key then sha256_bytes key else key in
  let k := k0 ++ repeat 0 (64 - length k0) in
  sha256_bytes (map (Z.lxor 92) k ++ sha256_bytes (map (Z.lxor 54) k ++ message)).

Definition HashSecret (key message : string) : string :=
  hex_encode (hmac_sha256 (to_bytes key) (to_bytes message)).

(** ** Test vectors *)

(** FIPS 197, appendix C.3. *)
Example aes256_vector :
  hex_encode (aes_encrypt (map Z.of_nat (seq 0 32)) (map (fun i => Z.of_nat i * 17) (seq 0 16)))
  = "8ea2b7ca516745bfeafc49904b496089".
Proof. vm_compute. reflexivity. Qed.

(** The vectors of src/internal/auth/encrypt_test.go and hash_test.go. *)
Example decrypt_vector :
  Decrypt "0123456789abcdef0123456789abcdef" "00112233445566778899aabbccddeeff" "bec9eaa408e659897944a7c82d7d8875"
  = Ok "hello".
Proof. vm_compute. reflexivity. Qed.

Example hash_vector :
  HashSecret "test-encryption-key-32-bytes-long" "c0ffee"
  = "0996712ac834605a74e9c331ab48784572ec5afe364d19df08e4d48031e8521b".
Proof. vm_compute. reflexivity. Qed.

(** ** Checks over all bytes *)

Lemma all_bytes_spec (f : Z -> bool) b : forallb f all_bytes = true -> is_byte b -> f b = true.
Proof.
  intros Hf [Hb Hb']. rewrite forallb_forall in Hf. apply Hf. unfold all_bytes. apply in_map_iff.
  exists (Z.to_nat b). split; [lia|]. apply in_seq. lia.
Qed.

Lemma byte_fact (f g : Z -> Z) b :
  forallb (fun x => f x =? g x) all_bytes = true -> is_byte b -> f b = g b.
Proof. intros Hf Hb. apply Z.eqb_eq. by apply (all_bytes_spec (fun x => f x =? g x)). Qed.

Lemma byte_pairs (f : Z -> Z -> bool) a b :
  forallb (fun x => forallb (f x) all_bytes) all_bytes = true -> is_byte a -> is_byte b -> f a b = true.
Proof.
  intros Hf Ha Hb. apply (all_bytes_spec (f a)); [|done].
  by apply (all_bytes_spec (fun x => forallb (f x) all_bytes)).
Qed.

Definition in_range (b : Z) : bool := (0 <=? b) && (b <? 256).

Lemma in_range_spec b : in_range b = true <-> is_byte b.
Proof. unfold in_range, is_byte. rewrite andb_true_iff, Z.leb_le, Z.ltb_lt. done. Qed.

Lemma byte_xor a b : is_byte a -> is_byte b -> is_byte (Z.lxor a b).
Proof.
  intros Ha Hb. apply in_range_spec.
  apply (byte_pairs (fun x y => in_range (Z.lxor x y))); [vm_compute; reflexivity|done..].
Qed.

(** A linear map of bytes. *)
Record linear (f : Z -> Z) : Prop := {
  lin_xor : forall a b, is_byte a -> is_byte b -> f (Z.lxor a b) = Z.lxor (f a) (f b);
  lin_byte : forall a, is_byte a -> is_byte (f a)
}.

Lemma linear_check f :
  forallb (fun x => in_range (f x)) all_bytes
  && forallb (fun x => forallb (fun y => f (Z.lxor x y) =? Z.lxor (f x) (f y)) all_bytes) all_bytes = true -> linear f.
Proof.
  intros [H1 H2]%andb_true_iff. split.
  - intros a b Ha Hb. apply Z.eqb_eq. by apply (byte_pairs (fun x y => f (Z.lxor x y) =? Z.lxor (f x) (f y))).
  - intros a Ha. apply in_range_spec. by apply (all_bytes_spec (fun x => in_range (f x))).
Qed.

Create HintDb aes.
#[export] Hint Resolve byte_xor : aes.

Lemma linear_xtime : linear xtime.
Proof. apply linear_check. vm_compute. reflexivity. Qed.

Lemma linear_mul3 : linear mul3.
Proof. apply linear_check. vm_compute. reflexivity. Qed.

Lemma linear_mul9 : linear mul9.
Proof. apply linear_check. vm_compute. reflexivity. Qed.

Lemma linear_mul11 : linear mul11.
Proof. apply linear_check. vm_compute. reflexivity. Qed.

Lemma linear_mul13 : linear mul13.
Proof. apply linear_check. vm_compute. reflexivity. Qed.

Lemma linear_mul14 : linear mul14.
Proof. apply linear_check. vm_compute. reflexivity. Qed.

#[export] Hint Resolve linear_xtime linear_mul3 linear_mul9 linear_mul11 linear_mul13 linear_mul14 : aes.

Lemma byte_linear f a : linear f -> is_byte a -> is_byte (f a).
Proof. intros [_ H]. apply H. Qed.

#[export] Hint Extern 1 (is_byte (xtime _)) => apply byte_linear : aes.
#[export] Hint Extern 1 (is_byte (mul3 _)) => apply byte_linear : aes.
#[export] Hint Extern 1 (is_byte (mul9 _)) => apply byte_linear : aes.
#[export] Hint Extern 1 (is_byte (mul11 _)) => apply byte_linear : aes.
#[export] Hint Extern 1 (is_byte (mul13 _)) => apply byte_linear : aes.
#[export] Hint Extern 1 (is_byte (mul14 _)) => apply byte_linear : aes.

Lemma byte_xor4 a b c d : is_byte a -> is_byte b -> is_byte c -> is_byte d -> is_byte (xor4 a b c d).
Proof. unfold xor4. auto with aes. Qed.

#[export] Hint Resolve byte_xor4 : aes.

Lemma linear_xor4 f a b c d : linear f -> is_byte a -> is_byte b -> is_byte c -> is_byte d ->
  f (xor4 a b c d) = xor4 (f a) (f b) (f c) (f d).
Proof. intros Hf Ha Hb Hc Hd. unfold xor4. by rewrite !(lin_xor f Hf) by auto with aes. Qed.

Lemma xor_swap a b c d : Z.lxor (Z.lxor a b) (Z.lxor c d) = Z.lxor (Z.lxor a c) (Z.lxor b d).
Proof.
  rewrite <- !Z.lxor_assoc. f_equal. rewrite !Z.lxor_assoc. f_equal. apply Z.lxor_comm.
Qed.

(** Rows of sums are sums of columns. *)
Lemma xor4_transpose a1 b1 c1 d1 a2 b2 c2 d2 a3 b3 c3 d3 a4 b4 c4 d4 :
  xor4 (xor4 a1 b1 c1 d1) (xor4 a2 b2 c2 d2) (xor4 a3 b3 c3 d3) (xor4 a4 b4 c4 d4)
  = xor4 (xor4 a1 a2 a3 a4) (xor4 b1 b2 b3 b4) (xor4 c1 c2 c3 c4) (xor4 d1 d2 d3 d4).
Proof. apply Z.bits_inj'. intros n _. unfold xor4. rewrite !Z.lxor_spec. Btauto.btauto. Qed.

Lemma xor4_first a : xor4 a 0 0 0 = a.
Proof. unfold xor4. by rewrite !Z.lxor_0_r. Qed.

Lemma xor4_second a : xor4 0 a 0 0 = a.
Proof. unfold xor4. by rewrite ?Z.lxor_0_l, ?Z.lxor_0_r, ?Z.lxor_0_l. Qed.

Lemma xor4_third a : xor4 0 0 a 0 = a.
Proof. unfold xor4. by rewrite ?Z.lxor_0_l, ?Z.lxor_0_r, ?Z.lxor_0_l. Qed.

Lemma xor4_fourth a : xor4 0 0 0 a = a.
Proof. unfold xor4. by rewrite ?Z.lxor_0_l, ?Z.lxor_0_r, ?Z.lxor_0_l. Qed.

(** One entry of the product of the two matrices applied to a column: the sum of what
    each byte of the column contributes. *)
Definition contributes (f1 f2 f3 f4 ca cb cc cd : Z -> Z) (x : Z) : bool :=
  (xor4 (f1 (xtime x)) (f2 x) (f3 x) (f4 (mul3 x)) =? ca x)
  && (xor4 (f1 (mul3 x)) (f2 (xtime x)) (f3 x) (f4 x) =? cb x)
  && (xor4 (f1 x) (f2 (mul3 x)) (f3 (xtime x)) (f4 x) =? cc x)
  && (xor4 (f1 x) (f2 x) (f3 (mul3 x)) (f4 (xtime x)) =? cd x).

Lemma mix_entry f1 f2 f3 f4 ca cb cc cd a b c d :
  linear f1 -> linear f2 -> linear f3 -> linear f4 ->
  forallb (contributes f1 f2 f3 f4 ca cb cc cd) all_bytes = true ->
  is_byte a -> is_byte b -> is_byte c -> is_byte d ->
  xor4 (f1 (xor4 (xtime a) (mul3 b) c d)) (f2 (xor4 a (xtime b) (mul3 c) d))
       (f3 (xor4 a b (xtime c) (mul3 d))) (f4 (xor4 (mul3 a) b c (xtime d)))
  = xor4 (ca a) (cb b) (cc c) (cd d).
Proof.
  intros L1 L2 L3 L4 Hall Ha Hb Hc Hd.
  rewrite !linear_xor4 by auto with aes. rewrite xor4_transpose.
  pose proof (all_bytes_spec _ a Hall Ha) as Fa. pose proof (all_bytes_spec _ b Hall Hb) as Fb.
  pose proof (all_bytes_spec _ c Hall Hc) as Fc. pose proof (all_bytes_spec _ d Hall Hd) as Fd.
  unfold contributes in *. rewrite !andb_true_iff, !Z.eqb_eq in *.
  f_equal; tauto.
Qed.

Definition zero (_ : Z) : Z := 0.

Lemma inv_mix_column a b c d rest : is_byte a -> is_byte b -> is_byte c -> is_byte d ->
  inv_mix_columns (mix_columns (a :: b :: c :: d :: rest)) = a :: b :: c :: d :: inv_mix_columns (mix_columns rest).
Proof.
  intros Ha Hb Hc Hd. cbn [mix_columns inv_mix_columns].
  rewrite (mix_entry mul14 mul11 mul13 mul9 id zero zero zero) by (auto with aes; vm_compute; reflexivity).
  rewrite (mix_entry mul9 mul14 mul11 mul13 zero id zero zero) by (auto with aes; vm_compute; reflexivity).
  rewrite (mix_entry mul13 mul9 mul14 mul11 zero zero id zero) by (auto with aes; vm_compute; reflexivity).
  rewrite (mix_entry mul11 mul13 mul9 mul14 zero zero zero id) by (auto with aes; vm_compute; reflexivity).
  by rewrite xor4_first, xor4_second, xor4_third, xor4_fourth.
Qed.

(** ** States *)

Definition state (s : list Z) : Prop := length s = 16%nat /\ Forall is_byte s.

(** A state is a list of sixteen bytes. *)
Ltac forall_bytes tac := repeat (apply Forall_cons; split; [tac|]); apply Forall_nil.

Ltac state_cases s H :=
  let L := fresh "L" in
  destruct H as [L H];
  do 16 (destruct s as [|? s]; [discriminate L|]);
  destruct s; [clear L|discriminate L];
  rewrite !Forall_cons in H; destruct_and! H.

Lemma xor_bytes_inv s k : (length s <= length k)%nat -> xor_bytes (xor_bytes s k) k = s.
Proof.
  unfold xor_bytes. revert k. induction s as [|a s IH]; intros [|b k] H; simpl in *; try done; [lia|].
  rewrite IH by lia. by rewrite Z.lxor_assoc, Z.lxor_nilpotent, Z.lxor_0_r.
Qed.

Lemma xor_bytes_bytes s k : Forall is_byte s -> Forall is_byte k -> Forall is_byte (xor_bytes s k).
Proof.
  unfold xor_bytes. intros Hs. revert k. induction Hs as [|a s Ha Hs IH]; intros k Hk; [constructor|].
  destruct Hk as [|b k Hb Hk]; constructor; auto with aes.
Qed.

Lemma state_xor s k : state s -> state k -> state (xor_bytes s k).
Proof.
  intros [Ls Hs] [Lk Hk]. split; [|by apply xor_bytes_bytes]. unfold xor_bytes. rewrite length_zip_with. lia.
Qed.

Lemma sbox_inv b : is_byte b -> subst sbox1 (subst sbox0 b) = b.
Proof. apply (byte_fact (fun x => subst sbox1 (subst sbox0 x)) id). vm_compute. reflexivity. Qed.

Lemma sbox_byte b : is_byte b -> is_byte (subst sbox0 b).
Proof.
  intros H. apply in_range_spec. apply (all_bytes_spec (fun x => in_range (subst sbox0 x))); [|done].
  vm_compute. reflexivity.
Qed.

#[export] Hint Resolve sbox_byte : aes.

Lemma sub_bytes_inv s : Forall is_byte s -> map (subst sbox1) (map (subst sbox0) s) = s.
Proof. induction 1 as [|b s Hb Hs IH]; [done|]. cbn [map]. by rewrite IH, sbox_inv. Qed.

Lemma state_sub s : state s -> state (map (subst sbox0) s).
Proof.
  intros [Ls Hs]. split; [by rewrite length_map|]. rewrite Forall_map. eapply Forall_impl; [done|]. intros. by apply sbox_byte.
Qed.

Lemma shift_rows_inv s : inv_shift_rows (shift_rows s) = s.
Proof. by do 17 (destruct s as [|? s]; [reflexivity|]). Qed.

Lemma state_shift s : state s -> state (shift_rows s).
Proof. intros H. state_cases s H. split; [done|]. cbn [shift_rows]. by forall_bytes assumption. Qed.

Lemma mix_columns_inv s : state s -> inv_mix_columns (mix_columns s) = s.
Proof. intros H. state_cases s H. by rewrite !inv_mix_column. Qed.

Lemma state_mix s : state s -> state (mix_columns s).
Proof. intros H. state_cases s H. split; [done|]. cbn [mix_columns]. by forall_bytes ltac:(apply byte_xor4; auto with aes). Qed.

#[export] Hint Resolve state_xor state_sub state_shift state_mix : aes.

(** ** Rounds *)

Lemma state_enc_round s k : state s -> state k -> state (enc_round s k).
Proof. unfold enc_round. auto with aes. Qed.

Lemma enc_round_inv s k : state s -> state k -> dec_round (enc_round s k) k = s.
Proof.
  intros Hs Hk. unfold dec_round, enc_round.
  rewrite xor_bytes_inv by (destruct Hk as [-> _]; destruct (state_mix _ (state_shift _ (state_sub _ Hs))) as [-> _]; lia).
  rewrite mix_columns_inv by auto with aes. rewrite shift_rows_inv. apply sub_bytes_inv. apply Hs.
Qed.

Lemma enc_last_inv s k : state s -> state k -> dec_last (enc_last s k) k = s.
Proof.
  intros Hs Hk. unfold dec_last, enc_last.
  rewrite xor_bytes_inv by (destruct Hk as [-> _]; destruct (state_shift _ (state_sub _ Hs)) as [-> _]; lia).
  rewrite shift_rows_inv. apply sub_bytes_inv. apply Hs.
Qed.

Lemma enc_rounds_inv ks s : Forall state ks -> state s ->
  state (foldl enc_round s ks) /\ foldl dec_round (foldl enc_round s ks) (rev ks) = s.
Proof.
  intros Hks. revert s. induction Hks as [|k ks Hk Hks IH]; intros s Hs; [done|].
  cbn [foldl rev]. destruct (IH (enc_round s k)) as [H1 H2]; [by apply state_enc_round|].
  split; [done|]. rewrite foldl_app, H2. cbn [foldl]. by apply enc_round_inv.
Qed.

(** ** Groups *)

Lemma groups_spec size m : forall fuel l, (0 < size)%nat -> length l = (m * size)%nat -> (length l <= fuel)%nat ->
  length (groups fuel size l) = m /\ Forall (fun g => length g = size) (groups fuel size l)
  /\ concat (groups fuel size l) = l.
Proof.
  induction m as [|m IH]; intros fuel l Hs Hl Hf.
  - destruct l; [|done]. by destruct fuel.
  - destruct l as [|x l]; [cbn in Hl; lia|]. destruct fuel as [|fuel]; [cbn in Hf; lia|]. cbn [groups].
    destruct (IH fuel (drop size (x :: l)) Hs) as (H1 & H2 & H3).
    { rewrite length_drop, Hl. lia. }
    { rewrite length_drop. lia. }
    split; [cbn; by rewrite H1|]. split.
    + constructor; [rewrite length_take; lia|done].
    + cbn [concat]. rewrite H3. apply take_drop.
Qed.

Lemma groups_concat size bs : forall fuel, (0 < size)%nat -> Forall (fun g => length g = size) bs ->
  (length (concat bs) <= fuel)%nat -> groups fuel size (concat bs) = bs.
Proof.
  induction bs as [|b bs IH]; intros fuel Hs Hb Hf; [by destruct fuel|].
  apply Forall_cons in Hb as [Hb Hbs]. cbn [concat] in *. rewrite length_app in Hf.
  destruct b as [|x b]; [cbn in Hb; lia|]. destruct fuel as [|fuel]; [cbn in Hf; lia|].
  cbn [groups app]. change (x :: b ++ concat bs) with ((x :: b) ++ concat bs).
  rewrite take_app_length' by done. rewrite drop_app_length' by done. f_equal. apply IH; [done..|].
  cbn in Hf. lia.
Qed.

Lemma groups_bytes fuel size l : Forall is_byte l -> Forall (Forall is_byte) (groups fuel size l).
Proof.
  revert l. induction fuel as [|fuel IH]; intros l Hl; [constructor|]. destruct l as [|x l]; [constructor|].
  cbn [groups]. constructor; [by apply Forall_take|]. apply IH. by apply Forall_drop.
Qed.

(** ** Round keys *)

Definition word (w : list Z) : Prop := length w = 4%nat /\ Forall is_byte w.

Lemma word_xor v w : word v -> word w -> word (xor_bytes v w).
Proof. intros [Lv Hv] [Lw Hw]. split; [|by apply xor_bytes_bytes]. unfold xor_bytes. rewrite length_zip_with. lia. Qed.

Lemma word_sub w : word w -> word (sub_word w).
Proof.
  intros [Lw Hw]. unfold sub_word. split; [by rewrite length_map|]. rewrite Forall_map.
  eapply Forall_impl; [done|]. intros. by apply sbox_byte.
Qed.

Lemma word_rot w : word w -> word (rot_word w).
Proof.
  intros [Lw Hw]. destruct w as [|a w]; [done|]. cbn [rot_word]. apply Forall_cons in Hw as [Ha Hw].
  split; [rewrite length_app; cbn in *; lia|]. apply Forall_app. split; [done|]. by apply Forall_singleton.
Qed.

Lemma word_nth n ws : (n < length ws)%nat -> Forall word ws -> word (nth n ws []).
Proof.
  intros Hn Hws. rewrite Forall_forall in Hws. apply Hws. apply list_elem_of_In. by apply nth_In.
Qed.

Lemma word_next i rcon ws : is_byte rcon -> (8 <= length ws)%nat -> Forall word ws -> word (next_word i rcon ws).
Proof.
  intros Hr Hl Hws. unfold next_word. apply word_xor; [apply word_nth; [lia|done]|].
  assert (word (nth 0 ws [])) as H0 by (apply word_nth; [lia|done]).
  assert (is_byte 0) as Hz by (unfold is_byte; lia).
  destruct (_ =? 0); [|destruct (_ =? 4); [by apply word_sub|done]].
  apply word_xor; [by apply word_sub, word_rot|]. split; [done|]. by forall_bytes assumption.
Qed.

Lemma expand_spec n : forall i rcon ws, is_byte rcon -> (8 <= length ws)%nat -> Forall word ws ->
  Forall word (expand n i rcon ws) /\ length (expand n i rcon ws) = (n + length ws)%nat.
Proof.
  induction n as [|n IH]; intros i rcon ws Hr Hl Hws; [done|]. cbn [expand].
  destruct (IH (i + 1) (if i mod 8 =? 0 then xtime rcon else rcon) (next_word i rcon ws :: ws)) as [H1 H2].
  - destruct (_ =? 0); auto with aes.
  - cbn. lia.
  - constructor; [by apply word_next|done].
  - split; [done|]. rewrite H2. cbn. lia.
Qed.

Lemma length_concat_words ws : Forall word ws -> length (concat ws) = (4 * length ws)%nat.
Proof. induction 1 as [|w ws [Hw _] _ IH]; [done|]. cbn [concat length]. rewrite length_app, IH. lia. Qed.

Lemma bytes_concat (ls : list (list Z)) : Forall (Forall is_byte) ls -> Forall is_byte (concat ls).
Proof. induction 1; [constructor|]. by apply Forall_app. Qed.

Lemma states_of bs : Forall (fun g => length g = 16%nat) bs -> Forall (Forall is_byte) bs -> Forall state bs.
Proof. intros H1 H2. apply Forall_and. by split. Qed.

Lemma round_keys_spec key : length key = 32%nat -> Forall is_byte key ->
  length (round_keys key) = 15%nat /\ Forall state (round_keys key).
Proof.
  intros Lk Hk. unfold round_keys.
  destruct (groups_spec 4 8 32 key) as (G1 & G2 & _); [lia..|].
  assert (Forall word (rev (groups 32 4 key))) as Hw.
  { apply Forall_rev, Forall_and. split; [done|]. by apply groups_bytes. }
  destruct (expand_spec 52 8 1 (rev (groups 32 4 key))) as [E1 E2]; [unfold is_byte; lia|rewrite length_rev; lia|done|].
  set (ws := rev (expand 52 8 1 (rev (groups 32 4 key)))) in *.
  assert (Forall word ws) as Hws by (by apply Forall_rev).
  assert (length (concat ws) = (15 * 16)%nat) as Lw.
  { rewrite length_concat_words by done. unfold ws. rewrite length_rev, E2, length_rev. lia. }
  destruct (groups_spec 16 15 240 (concat ws)) as (K1 & K2 & _); [lia..|]. split; [done|].
  apply states_of; [done|]. apply groups_bytes, bytes_concat. eapply Forall_impl; [done|]. by intros w [_ ?].
Qed.

(** ** The cipher is a permutation of the blocks *)

Lemma aes_inv key b : length key = 32%nat -> Forall is_byte key -> state b ->
  state (aes_encrypt key b) /\ aes_decrypt key (aes_encrypt key b) = b.
Proof.
  intros Lk Hk Hb. unfold aes_encrypt, aes_decrypt. destruct (round_keys_spec key Lk Hk) as [L R].
  destruct (round_keys key) as [|k0 rest]; [done|]. apply Forall_cons in R as [R0 R]. cbn in L.
  assert (state (nth 13 rest [])) as Hlast.
  { rewrite Forall_forall in R. apply R, list_elem_of_In, nth_In. lia. }
  destruct (enc_rounds_inv (take 13 rest) (xor_bytes b k0)) as [E1 E2]; [by apply Forall_take|by apply state_xor|].
  split; [unfold enc_last; auto with aes|].
  rewrite enc_last_inv by done. rewrite E2. apply xor_bytes_inv. destruct Hb as [-> _], R0 as [-> _]. lia.
Qed.

Lemma cbc_inv key bs : length key = 32%nat -> Forall is_byte key -> Forall state bs -> forall prev, state prev ->
  Forall state (cbc_encrypt (aes_encrypt key) prev bs)
  /\ cbc_decrypt (aes_decrypt key) prev (cbc_encrypt (aes_encrypt key) prev bs) = bs.
Proof.
  intros Lk Hk. induction 1 as [|b bs Hb Hbs IH]; intros prev Hp; [done|]. cbn [cbc_encrypt cbc_decrypt].
  destruct (aes_inv key (xor_bytes b prev) Lk Hk (state_xor _ _ Hb Hp)) as [A1 A2].
  destruct (IH _ A1) as [I1 I2]. split; [by constructor|]. rewrite A2, I2. f_equal.
  apply xor_bytes_inv. destruct Hb as [-> _], Hp as [-> _]. lia.
Qed.

(** ** Texts *)

Lemma chr_code c : chr (code c) = c.
Proof. unfold chr, code. rewrite N2Z.id. apply ascii_N_embedding. Qed.

Lemma code_byte c : is_byte (code c).
Proof. unfold is_byte, code. pose proof (N_ascii_bounded c). lia. Qed.

Lemma of_to_bytes s : of_bytes (to_bytes s) = s.
Proof.
  unfold of_bytes, to_bytes. rewrite map_map, (map_ext _ (fun c => c)) by apply chr_code. rewrite map_id.
  apply String.string_of_list_ascii_of_string.
Qed.

Lemma to_bytes_bytes s : Forall is_byte (to_bytes s).
Proof. unfold to_bytes. rewrite Forall_map. apply Forall_true. apply code_byte. Qed.

Lemma length_to_bytes s : length (to_bytes s) = String.length s.
Proof. unfold to_bytes. rewrite length_map. induction s; cbn; [done|]. by f_equal. Qed.

(** Both digits of a byte are read back. *)
Definition hex_pair_ok (b : Z) : bool :=
  match hex_value (hex_digit (Z.shiftr b 4)), hex_value (hex_digit (Z.land b 15)) with
  | Some h, Some l => Z.lor (Z.shiftl h 4) l =? b
  | _, _ => false
  end.

Lemma hex_roundtrip l : Forall is_byte l -> hex_decode (hex_encode l) = Ok l.
Proof.
  induction 1 as [|b l Hb Hl IH]; [done|]. unfold hex_encode in *. cbn [mbind list_bind app String.string_of_list_ascii] in *.
  cbn [hex_decode].
  assert (hex_pair_ok b = true) as E by (apply (all_bytes_spec hex_pair_ok); [vm_compute; reflexivity|done]).
  unfold hex_pair_ok in E.
  destruct (hex_value (hex_digit (Z.shiftr b 4))) as [h|]; [|done].
  destruct (hex_value (hex_digit (Z.land b 15))) as [g|]; [|done]. rewrite IH. cbn [rbind].
  apply Z.eqb_eq in E. by rewrite E.
Qed.

Lemma length_hex l : String.length (hex_encode l) = (2 * length l)%nat.
Proof.
  unfold hex_encode. induction l as [|b l IH]; [done|].
  cbn [mbind list_bind app String.string_of_list_ascii String.length length]. rewrite IH. lia.
Qed.

(** ** Padding *)

Lemma pad_length l : exists p, 1 <= p <= 16 /\ pkcs7Pad l 16 = l ++ repeat p (Z.to_nat p)
  /\ blen l + p = 16 * (blen l / 16 + 1).
Proof.
  exists (16 - blen l mod 16). pose proof (Z.mod_pos_bound (blen l) 16).
  pose proof (Z.div_mod (blen l) 16). split; [lia|]. split; [|lia].
  unfold pkcs7Pad. by rewrite Z.mod_small by lia.
Qed.

Lemma unpad_pad l : pkcs7Unpad (pkcs7Pad l 16) 16 = Ok l.
Proof.
  destruct (pad_length l) as (p & Hp & -> & Hl). unfold pkcs7Unpad.
  assert (blen (l ++ repeat p (Z.to_nat p)) = blen l + p) as Hb.
  { unfold blen. rewrite length_app, repeat_length. lia. }
  rewrite Hb, Hl. assert (0 <= blen l) as Hnn by (unfold blen; lia). pose proof (Z.div_pos (blen l) 16 Hnn ltac:(lia)) as Hq.
  replace (16 * (blen l / 16 + 1) =? 0) with false by lia.
  rewrite Z.mul_comm, Z_mod_mult. cbn [orb negb Z.eqb].
  assert (nth (length (l ++ repeat p (Z.to_nat p)) - 1) (l ++ repeat p (Z.to_nat p)) 0 = p) as ->.
  { rewrite length_app, repeat_length, app_nth2 by lia. apply nth_repeat_lt. lia. }
  replace (p =? 0) with false by lia. replace (16 <? p) with false by lia. cbn [orb].
  replace (Z.to_nat ((blen l / 16 + 1) * 16 - p)) with (length l) by (rewrite Z.mul_comm, <- Hl; unfold blen; lia).
  rewrite drop_app_length, take_app_length.
  replace (forallb (fun b => b =? p) (repeat p (Z.to_nat p))) with true; [done|].
  symmetry. apply forallb_forall. intros x Hx%repeat_spec. lia.
Qed.

Lemma pad_states l : Forall is_byte l ->
  Forall state (crypt_groups (pkcs7Pad l 16)) /\ concat (crypt_groups (pkcs7Pad l 16)) = pkcs7Pad l 16
  /\ blen (pkcs7Pad l 16) = 16 * (blen l / 16 + 1).
Proof.
  intros Hb. destruct (pad_length l) as (p & Hp & E & Hl). rewrite E.
  assert (length (l ++ repeat p (Z.to_nat p)) = (Z.to_nat (blen l / 16 + 1) * 16)%nat) as L.
  { rewrite length_app, repeat_length. unfold blen in *. lia. }
  destruct (groups_spec 16 _ (length (l ++ repeat p (Z.to_nat p))) _ ltac:(lia) L ltac:(lia)) as (_ & G1 & G2).
  assert (0 <= blen l / 16) as Hq by (apply Z.div_pos; unfold blen; lia).
  split; [|split; [done|unfold blen at 1; rewrite L; lia]].
  apply states_of; [done|]. apply groups_bytes, Forall_app. split; [done|].
  apply Forall_forall. intros x Hx%list_elem_of_In%repeat_spec. unfold is_byte. lia.
Qed.

Lemma length_concat_states bs : Forall state bs -> length (concat bs) = (16 * length bs)%nat.
Proof. induction 1 as [|b bs [Hb _] _ IH]; [done|]. cbn [concat length]. rewrite length_app, IH. lia. Qed.

Lemma length_cbc enc bs : forall prev, length (cbc_encrypt enc prev bs) = length bs.
Proof. induction bs as [|b bs IH]; intros prev; [done|]. cbn [cbc_encrypt length]. by rewrite IH. Qed.

(** ** Round trip *)

Lemma secret_crypt key plaintext iv (Hiv : state iv) :
  if Z.of_nat (String.length key) =? 32 then
    exists c, Encrypt (Ok iv) key plaintext = Ok (hex_encode iv, c)
    /\ Decrypt key (hex_encode iv) c = Ok plaintext
    /\ Z.of_nat (String.length c) = 32 * (Z.of_nat (String.length plaintext) / 16 + 1)
  else Encrypt (Ok iv) key plaintext = Err ErrInvalidEncryptionKey
       /\ forall ivHex c, Decrypt key ivHex c = Err ErrInvalidEncryptionKey.
Proof.
  destruct (Z.of_nat (String.length key) =? 32) eqn:Ek.
  2:{ unfold Encrypt, Decrypt, blen. rewrite length_to_bytes, Ek. done. }
  set (k := to_bytes key). assert (length k = 32%nat) as Lk by (unfold k; rewrite length_to_bytes; lia).
  assert (Forall is_byte k) as Hk by apply to_bytes_bytes.
  destruct (pad_states (to_bytes plaintext)) as (Ps & Pc & Pl); [apply to_bytes_bytes|].
  set (padded := pkcs7Pad (to_bytes plaintext) 16) in *.
  destruct (cbc_inv k (crypt_groups padded) Lk Hk Ps iv Hiv) as [Cs Ci].
  set (cs := cbc_encrypt (aes_encrypt k) iv (crypt_groups padded)) in *.
  assert (blen (concat cs) = blen padded) as Lc.
  { rewrite <- Pc. unfold blen. rewrite !length_concat_states by done. unfold cs. by rewrite length_cbc. }
  exists (hex_encode (concat cs)). unfold Encrypt, Decrypt, blen at 1 2. fold k. rewrite Lk. cbn [negb Z.eqb Z.of_nat].
  split; [done|]. split.
  - rewrite hex_roundtrip by apply Hiv. unfold blen at 1. destruct Hiv as [-> _]. cbn [negb].
    rewrite hex_roundtrip by (apply bytes_concat; eapply Forall_impl; [done|]; by intros b [_ ?]).
    rewrite Lc, Pl. unfold aesBlockSize.
    replace (16 * (blen (to_bytes plaintext) / 16 + 1) =? 0) with false
      by (pose proof (Z.div_pos (blen (to_bytes plaintext)) 16); unfold blen in *; lia).
    rewrite Z.mul_comm, Z_mod_mult. cbn [orb negb Z.eqb].
    assert (crypt_groups (concat cs) = cs) as ->.
    { unfold crypt_groups. apply groups_concat; [lia| |lia]. eapply Forall_impl; [done|]. by intros b [? _]. }
    rewrite Ci, Pc. unfold padded. rewrite unpad_pad. by rewrite of_to_bytes.
  - rewrite length_hex. unfold blen in Lc, Pl. rewrite length_to_bytes in Pl. lia.
Qed.

(** C38: a secret is read back as it was stored.  With a key of 32 bytes and any
    initialisation vector, [Encrypt] succeeds on every text, its two hexadecimal
    columns decrypt to that text, and the ciphertext shows no more of the length than
    its number of blocks; with a key of another length both functions report the
    error of the key. *)
Theorem secret_roundtrip key plaintext iv (Hiv : state iv) :
  if Z.of_nat (String.length key) =? 32 then
    exists c, Encrypt (Ok iv) key plaintext = Ok (hex_encode iv, c)
    /\ Decrypt key (hex_encode iv) c = Ok plaintext
    /\ Z.of_nat (String.length c) = 32 * (Z.of_nat (String.length plaintext) / 16 + 1)
  else Encrypt (Ok iv) key plaintext = Err ErrInvalidEncryptionKey
       /\ forall ivHex c, Decrypt key ivHex c = Err ErrInvalidEncryptionKey.
Proof. by apply secret_crypt. Qed.
