(* ===== verification/SecretRefs.v ===== *)
(** References to secrets in the configurations of connections and language models,
    src/internal/secretrefs/secretrefs.go.

    A decoded JSON value is a [json]; a Go map is the list of its members in the
    order of the iteration, which is any, with distinct keys; a float64 is the text of
    a number. *)
From Stdlib Require Import Ascii.
From S2P Require Import Prelude GoStd GoStdFacts GoJSON GoText.
(** ** Values *)

(** [v[k]] *)
Definition member (k : string) (m : list (string * json)) : option json :=
  snd <$> List.find (fun kv => kv.1 =s k) m.

(** [v[k].(string)] *)
Definition str_member (k : string) (m : list (string * json)) : option string :=
  match member k m with Some (JStr s) => Some s | _ => None end.

(** Induction on values through the lists of their parts. *)
Section JsonInd.
Context (P : json -> Prop) (Hnull : P JNull) (Hbool : forall b, P (JBool b)) (Hnum : forall t, P (JNum t))
  (Hstr : forall s, P (JStr s)) (Harr : forall l, Forall P l -> P (JArr l))
  (Hobj : forall m, Forall (fun kv => P kv.2) m -> P (JObj m)).

Fixpoint json_parts (v : json) : P v :=
  match v with
  | JNull => Hnull
  | JBool b => Hbool b
  | JNum t => Hnum t
  | JStr s => Hstr s
  | JArr l => Harr l ((fix go l := match l return Forall P l with
                                   | [] => Forall_nil_2 P
                                   | x :: l' => Forall_cons_2 P x l' (json_parts x) (go l')
                                   end) l)
  | JObj m => Hobj m ((fix go m := match m return Forall (fun kv => P kv.2) m with
                                   | [] => Forall_nil_2 _
                                   | kv :: m' => Forall_cons_2 _ kv m' (json_parts kv.2) (go m')
                                   end) m)
  end.
End JsonInd.

(** ** Kinds of reference *)

Record Kind : Type := {
  Discriminator : string;
  kind_Redact : list (string * json) -> list (string * json)
}.

Definition keep_only (k : string) : Kind :=
  {| Discriminator := k; kind_Redact := fun record => [(k, JStr (coalesce "" (str_member k record)))] |}.

Definition SecretRefKind : Kind := keep_only "secretRef".
Definition EnvKind : Kind := keep_only "env".
Definition GoogleCloudSecretKind : Kind := keep_only "googleCloudSecret".

(** The registry after [init]; [Register] appends. *)
Definition defaultRegistry : list Kind := [SecretRefKind; EnvKind; GoogleCloudSecretKind].

Definition Register (k : Kind) (kinds : list Kind) : list Kind := kinds ++ [k].

(** ** Collecting *)

Fixpoint Collect (value : json) : list string :=
  match value with
  | JArr l => dedup_first [] (concat (map Collect l))
  | JObj m => match str_member "secretRef" m with Some s => [s] | None => [] end
              ++ concat (map (fun kv => Collect kv.2) m)
  | _ => []
  end.

Definition Contains (value : json) (key : string) : bool := existsb (fun ref => ref =s key) (Collect value).

Definition CollectUnique (value : json) : list string := dedup_first [] (Collect value).

(** ** Binding *)

Definition MaxWalkDepth : Z := 64.

Definition bound_ref (s : string) (orgID : Z) : json := JObj [("secretRef", JStr s); ("orgId", JNum (Itoa orgID))].

Fixpoint bindToOrgAt (value : json) (orgID depth : Z) : json :=
  if MaxWalkDepth <=? depth then value
  else match value with
       | JArr l => JArr (map (fun item => bindToOrgAt item orgID (depth + 1)) l)
       | JObj m =>
           match str_member "secretRef" m with
           | Some s => bound_ref s orgID
           | None => JObj (map (fun kv => (kv.1, bindToOrgAt kv.2 orgID (depth + 1))) m)
           end
       | _ => value
       end.

Definition BindToOrg (value : json) (orgID : Z) : json := bindToOrgAt value orgID 0.

(** ** Redaction *)

(** [strings.ReplaceAll(s, c, "")] for a text of one byte. *)
Definition strip_byte (c : ascii) (s : string) : string :=
  String.string_of_list_ascii (List.filter (fun x => negb (Ascii.eqb x c)) (String.list_ascii_of_string s)).

Definition sensitive_keys : list string :=
  ["token"; "accesstoken"; "refreshtoken"; "password"; "apikey"; "clientsecret"; "privatekey"; "secret"; "hardcodedsecret"].

Definition isSensitiveConfigKey (key : string) : bool :=
  let normalised := ToLower (strip_byte "_" (strip_byte "-" key)) in
  existsb (fun k => normalised =s k) sensitive_keys.

#[global] Arguments isSensitiveConfigKey : simpl never.

Definition has_kind (m : list (string * json)) (k : Kind) : bool :=
  match str_member (Discriminator k) m with Some _ => true | None => false end.

Definition isRecognisedSecretKind (value : json) (kinds : list Kind) : bool :=
  match value with JObj record => existsb (has_kind record) kinds | _ => false end.

Definition redacted : json := JStr "[REDACTED]".

Fixpoint redactWithAt (value : json) (kinds : list Kind) (depth : Z) : json :=
  if MaxWalkDepth <=? depth then value
  else match value with
       | JArr l => JArr (map (fun item => redactWithAt item kinds (depth + 1)) l)
       | JObj m =>
           match List.find (has_kind m) kinds with
           | Some k => JObj (kind_Redact k m)
           | None =>
               JObj (map (fun kv => (kv.1,
                       let redactedChild := redactWithAt kv.2 kinds (depth + 1) in
                       if isSensitiveConfigKey kv.1 && negb (isRecognisedSecretKind redactedChild kinds)
                       then redacted else redactedChild)) m)
           end
       | _ => value
       end.

Definition redactWith (value : json) (kinds : list Kind) : json := redactWithAt value kinds 0.

Definition Redact (value : json) : json := redactWith value defaultRegistry.

#[global] Arguments isRecognisedSecretKind : simpl never.

(** ** Members *)

Lemma str_member_Some k m s : str_member k m = Some s <-> member k m = Some (JStr s).
Proof. unfold str_member. destruct (member k m) as [[]|]; naive_solver. Qed.

Lemma member_In k m v : member k m = Some v -> (k, v) ∈ m.
Proof.
  unfold member. destruct (List.find _ m) as [[k' v']|] eqn:E; [|done]. intros [= <-].
  apply find_some in E as [E1 E2]. cbn in *. apply str_eqb_spec in E2 as ->. by apply list_elem_of_In.
Qed.

Lemma member_map (f : string * json -> json) k m :
  member k (map (fun kv => (kv.1, f kv)) m) = f <$> List.find (fun kv => kv.1 =s k) m.
Proof.
  unfold member. induction m as [|[k' v] m IH]; [done|]. cbn. destruct (k' =s k); [done|]. apply IH.
Qed.

(** ** What is collected *)

(** [v] contains an object with the member "secretRef" of value [key]. *)
Inductive mentions (key : string) : json -> Prop :=
| mentions_here m : member "secretRef" m = Some (JStr key) -> mentions key (JObj m)
| mentions_member m k v : (k, v) ∈ m -> mentions key v -> mentions key (JObj m)
| mentions_item l v : v ∈ l -> mentions key v -> mentions key (JArr l).

Lemma Collect_spec key v : key ∈ Collect v <-> mentions key v.
Proof.
  induction v as [| | | |l IH|m IH] using json_parts; cbn [Collect]; try (split; [by intros ?%elem_of_nil|by inversion 1]).
  - rewrite elem_of_dedup_first, list_elem_of_In, in_concat.
    rewrite Forall_forall in IH. split.
    + intros [(x & Hx & Hk) _]. apply in_map_iff in Hx as (u & <- & Hu). apply list_elem_of_In in Hu, Hk.
      econstructor; [done|]. by apply IH.
    + inversion 1; subst. split; [|by apply not_elem_of_nil]. eexists. split; [by apply in_map, list_elem_of_In|].
      apply list_elem_of_In. by apply IH.
  - rewrite elem_of_app, (list_elem_of_In (concat _) key), in_concat. rewrite Forall_forall in IH. split.
    + intros [Hk|(x & Hx & Hk)].
      * destruct (str_member "secretRef" m) as [s|] eqn:E; [|by apply elem_of_nil in Hk].
        apply list_elem_of_singleton in Hk as ->. constructor. by apply str_member_Some.
      * apply in_map_iff in Hx as ([k u] & <- & Hu). apply list_elem_of_In in Hu, Hk.
        econstructor 2; [done|]. by apply (IH _ Hu).
    + inversion 1 as [? Hm| ? k v Hv Hm|]; subst.
      * left. apply str_member_Some in Hm as ->. by apply list_elem_of_singleton.
      * right. eexists. split; [apply in_map_iff; exists (k, v); split; [done|by apply list_elem_of_In]|].
        apply list_elem_of_In. by apply (IH _ Hv).
Qed.

Lemma refs_Contains_spec key v : Contains v key = true <-> mentions key v.
Proof.
  unfold Contains. rewrite existsb_exists, <- Collect_spec. split.
  - intros (x & Hx & E). apply str_eqb_spec in E as ->. by apply list_elem_of_In.
  - intros H. exists key. split; [by apply list_elem_of_In|apply str_eqb_refl].
Qed.

Lemma CollectUnique_spec key v : key ∈ CollectUnique v <-> mentions key v.
Proof. unfold CollectUnique. rewrite elem_of_dedup_first, Collect_spec, elem_of_nil. tauto. Qed.

(** ** Depth *)

(** The number of containers around the deepest value. *)
Fixpoint nesting (v : json) : Z :=
  match v with
  | JArr l => 1 + foldr Z.max 0 (map nesting l)
  | JObj m => 1 + foldr Z.max 0 (map (fun kv => nesting kv.2) m)
  | _ => 0
  end.

Lemma foldr_max_le (x : Z) l : x ∈ l -> x <= foldr Z.max 0 l.
Proof. induction l as [|y l IH]; [by intros ?%elem_of_nil|]. cbn. intros [->|H]%elem_of_cons; [lia|]. specialize (IH H). lia. Qed.

Lemma nesting_item l v : v ∈ l -> nesting v + 1 <= nesting (JArr l).
Proof.
  intros H. cbn [nesting]. pose proof (foldr_max_le (nesting v) (map nesting l)) as F.
  rewrite Z.add_comm. apply Z.add_le_mono; [done|]. apply F. apply list_elem_of_In, in_map. by apply list_elem_of_In.
Qed.

Lemma nesting_member m k v : (k, v) ∈ m -> nesting v + 1 <= nesting (JObj m).
Proof.
  intros H. cbn [nesting]. pose proof (foldr_max_le (nesting v) (map (fun kv => nesting kv.2) m)) as F.
  rewrite Z.add_comm. apply Z.add_le_mono; [done|]. apply F. apply list_elem_of_In, in_map_iff. exists (k, v).
  split; [done|]. by apply list_elem_of_In.
Qed.

Lemma nesting_nonneg_max l : 0 <= foldr Z.max 0 l.
Proof. induction l; cbn; lia. Qed.

Lemma container_depth v d : (exists l, v = JArr l) \/ (exists m, v = JObj m) -> d + nesting v <= MaxWalkDepth ->
  (MaxWalkDepth <=? d) = false.
Proof.
  intros [[l ->]|[m ->]] H; cbn [nesting] in H;
    [pose proof (nesting_nonneg_max (map nesting l))|pose proof (nesting_nonneg_max (map (fun kv => nesting kv.2) m))];
    apply Z.leb_gt; lia.
Qed.

Definition scalar (v : json) : bool := match v with JArr _ | JObj _ => false | _ => true end.

(** ** Redacted values *)

Definition reference_keys : list string := map Discriminator defaultRegistry.

(** [v] is one recognised reference and nothing else. *)
Definition is_reference (v : json) : Prop := exists d s, d ∈ reference_keys /\ v = JObj [(d, JStr s)].

(** Every object with a reference is that reference alone, and what stands under a
    sensitive key is a reference or the mark. *)
Inductive clean : json -> Prop :=
| clean_scalar v : scalar v = true -> clean v
| clean_arr l : (forall v, v ∈ l -> clean v) -> clean (JArr l)
| clean_ref v : is_reference v -> clean v
| clean_obj m : existsb (has_kind m) defaultRegistry = false ->
    (forall k v, (k, v) ∈ m -> clean v) ->
    (forall k v, (k, v) ∈ m -> isSensitiveConfigKey k = true -> v = redacted \/ is_reference v) ->
    clean (JObj m).

Lemma clean_recognised v : clean v -> isRecognisedSecretKind v defaultRegistry = true -> is_reference v.
Proof. intros [u H|l H|u H|m H1 H2 H3] E; [by destruct u|done|done|].
  unfold isRecognisedSecretKind in E. by rewrite H1 in E. Qed.

Lemma redact_scalar v kinds d : scalar v = true -> redactWithAt v kinds d = v.
Proof. by destruct v; cbn; destruct (_ <=? _). Qed.

Lemma redact_str v kinds d s : redactWithAt v kinds d = JStr s -> v = JStr s.
Proof. destruct v; cbn; destruct (_ <=? _); try done. by destruct (List.find _ kinds). Qed.

Lemma reference_not_sensitive d : d ∈ reference_keys -> isSensitiveConfigKey d = false.
Proof. cbn. rewrite !elem_of_cons, elem_of_nil. intros [->|[->|[->|[]]]]; vm_compute; reflexivity. Qed.

Lemma find_none_existsb {A} (f : A -> bool) l : List.find f l = None <-> existsb f l = false.
Proof. induction l as [|x l IH]; [done|]. cbn. destruct (f x); [done|]. apply IH. Qed.

(** Redaction of the members turns none of them into a reference of the object. *)
Lemma redact_members_kind m d :
  List.find (has_kind m) defaultRegistry = None ->
  existsb (has_kind (map (fun kv => (kv.1,
     if isSensitiveConfigKey kv.1 && negb (isRecognisedSecretKind (redactWithAt kv.2 defaultRegistry d) defaultRegistry)
     then redacted else redactWithAt kv.2 defaultRegistry d)) m)) defaultRegistry = false.
Proof.
  rewrite find_none_existsb. intros Hm. apply not_true_iff_false. intros (k & Hk & E)%existsb_exists.
  assert (has_kind m k = false) as Hf.
  { apply not_true_iff_false. intros Ht. apply not_true_iff_false in Hm. apply Hm. apply existsb_exists. by exists k. }
  unfold has_kind, str_member in E, Hf. rewrite member_map in E. unfold member in Hf.
  destruct (List.find _ m) as [[k' v]|] eqn:F; [|done]. cbn in E, Hf.
  apply find_some in F as [_ F]. cbn in F. apply str_eqb_spec in F as ->.
  rewrite reference_not_sensitive in E by (apply list_elem_of_In; by apply in_map). cbn [andb] in E.
  destruct (redactWithAt v defaultRegistry d) eqn:R; try done. apply redact_str in R as ->. done.
Qed.

Lemma kind_reference m k : List.find (has_kind m) defaultRegistry = Some k -> is_reference (JObj (kind_Redact k m)).
Proof.
  intros [Hk _]%find_some. assert (kind_Redact k m = [(Discriminator k, JStr (coalesce "" (str_member (Discriminator k) m)))]) as ->.
  { cbn in Hk. by destruct Hk as [<-|[<-|[<-|[]]]]. }
  eexists _, _. split; [|done]. apply list_elem_of_In. by apply in_map.
Qed.

Lemma redact_clean v : forall d, d + nesting v <= MaxWalkDepth -> clean (redactWithAt v defaultRegistry d).
Proof.
  induction v as [| | | |l IH|m IH] using json_parts; intros d Hd;
    try (rewrite redact_scalar by done; by apply clean_scalar).
  - cbn [redactWithAt]. rewrite (container_depth (JArr l) d) by (eauto || done). apply clean_arr.
    intros v (u & -> & Hu)%list_elem_of_fmap. rewrite Forall_forall in IH. apply IH; [done|].
    pose proof (nesting_item l u Hu). lia.
  - cbn [redactWithAt]. rewrite (container_depth (JObj m) d) by (eauto || done).
    destruct (List.find _ _) as [k|] eqn:F; [by apply clean_ref, kind_reference|].
    rewrite Forall_forall in IH.
    assert (forall k v, (k, v) ∈ m -> clean (redactWithAt v defaultRegistry (d + 1))) as Hc.
    { intros k v Hv. apply (IH (k, v) Hv). cbn. pose proof (nesting_member m k v Hv). lia. }
    apply clean_obj; [by apply redact_members_kind|..].
    + intros k u ([k' v] & [= -> ->] & Hv)%list_elem_of_fmap. cbn [fst snd].
      destruct (_ && _); [by apply clean_scalar|]. by eapply Hc.
    + intros k u ([k' v] & [= -> ->] & Hv)%list_elem_of_fmap Hs. cbn [fst snd] in *. rewrite Hs. cbn [andb].
      destruct (isRecognisedSecretKind _ _) eqn:R; cbn [negb]; [right|by left].
      apply clean_recognised; [by eapply Hc|done].
Qed.

Lemma clean_fixed v : clean v -> forall d, redactWithAt v defaultRegistry d = v.
Proof.
  induction 1 as [v Hv|l Hl IH|v (k & s & Hk & ->)|m Hm Hc IH Hs]; intros d.
  - by apply redact_scalar.
  - cbn [redactWithAt]. destruct (_ <=? _); [done|]. f_equal. rewrite <- (map_id l) at 2. apply map_ext_in.
    intros v Hv. by apply IH, list_elem_of_In.
  - cbn [redactWithAt]. destruct (_ <=? _); [done|]. revert Hk. cbn. rewrite !elem_of_cons, elem_of_nil.
    by intros [->|[->|[->|[]]]].
  - cbn [redactWithAt]. destruct (_ <=? _); [done|]. apply find_none_existsb in Hm as ->. f_equal.
    rewrite <- (map_id m) at 2. apply map_ext_in. intros [k v] Hv%list_elem_of_In. cbn [fst snd].
    rewrite (IH k v Hv). destruct (isSensitiveConfigKey k) eqn:E; [|done]. cbn [andb].
    destruct (Hs k v Hv E) as [->|(d' & s & Hd & ->)]; [done|].
    revert Hd. cbn. rewrite !elem_of_cons, elem_of_nil. by intros [->|[->|[->|[]]]].
Qed.

(** C37: redaction hides the secrets of a configuration.  In the redacted form of a
    value that is nested at most 64 deep, every object that holds a recognised
    reference is that reference alone, and under every key that names a credential
    stands a reference or the mark "[REDACTED]"; and redacting again changes nothing. *)
Theorem redaction_clean v (Hv : nesting v <= MaxWalkDepth) :
  clean (Redact v) /\ Redact (Redact v) = Redact v.
Proof.
  assert (clean (Redact v)) as Hc by (apply redact_clean; done). split; [done|]. by apply clean_fixed.
Qed.

(** ** Bound values *)

(** Every reference to a secret of the organisation carries its id, and nothing else
    stands beside it. *)
Inductive bound_to (orgID : Z) : json -> Prop :=
| bound_scalar v : scalar v = true -> bound_to orgID v
| bound_arr l : (forall v, v ∈ l -> bound_to orgID v) -> bound_to orgID (JArr l)
| bound_here s : bound_to orgID (bound_ref s orgID)
| bound_obj m : str_member "secretRef" m = None -> (forall k v, (k, v) ∈ m -> bound_to orgID v) -> bound_to orgID (JObj m).

Lemma bind_scalar v org d : scalar v = true -> bindToOrgAt v org d = v.
Proof. by destruct v; cbn; destruct (_ <=? _). Qed.

Lemma bind_str v org d s : bindToOrgAt v org d = JStr s -> v = JStr s.
Proof. destruct v; cbn; destruct (_ <=? _); try done. by destruct (str_member _ _). Qed.

Lemma bind_no_ref m org d : str_member "secretRef" m = None ->
  str_member "secretRef" (map (fun kv => (kv.1, bindToOrgAt kv.2 org d)) m) = None.
Proof.
  unfold str_member at 2. rewrite (member_map (fun kv => bindToOrgAt kv.2 org d)).
  unfold str_member, member. destruct (List.find _ m) as [[k v]|]; [|done]. cbn.
  destruct (bindToOrgAt v org d) eqn:E; try done. by apply bind_str in E as ->.
Qed.

Lemma bind_bound v org : forall d, d + nesting v <= MaxWalkDepth -> bound_to org (bindToOrgAt v org d).
Proof.
  induction v as [| | | |l IH|m IH] using json_parts; intros d Hd;
    try (rewrite bind_scalar by done; by apply bound_scalar).
  - cbn [bindToOrgAt]. rewrite (container_depth (JArr l) d) by (eauto || done). apply bound_arr.
    intros v (u & -> & Hu)%list_elem_of_fmap. rewrite Forall_forall in IH. apply IH; [done|].
    pose proof (nesting_item l u Hu). lia.
  - cbn [bindToOrgAt]. rewrite (container_depth (JObj m) d) by (eauto || done).
    destruct (str_member "secretRef" m) as [s|] eqn:E; [apply bound_here|]. rewrite Forall_forall in IH.
    apply bound_obj; [by apply bind_no_ref|]. intros k u ([k' v] & [= -> ->] & Hv)%list_elem_of_fmap.
    apply (IH (k', v) Hv). cbn. pose proof (nesting_member m k' v Hv). lia.
Qed.

(** Binding adds no reference. *)
Lemma bind_mentions key v org : forall d, mentions key (bindToOrgAt v org d) -> mentions key v.
Proof.
  induction v as [| | | |l IH|m IH] using json_parts; intros d;
    try (rewrite bind_scalar by done; done); cbn [bindToOrgAt]; destruct (_ <=? _); try done.
  - inversion 1 as [| |? u Hu Hm]; subst. apply list_elem_of_fmap in Hu as (w & -> & Hw). rewrite Forall_forall in IH.
    econstructor; [done|]. by eapply IH.
  - rewrite Forall_forall in IH. destruct (str_member "secretRef" m) as [s|] eqn:E.
    + inversion 1 as [? Hm|? k u Hu Hm|]; subst.
      * apply str_member_Some in E. cbn in Hm. injection Hm as <-. by constructor.
      * apply elem_of_cons in Hu as [[= -> ->]|[[= -> ->]|[]%elem_of_nil]%elem_of_cons]; inversion Hm.
    + inversion 1 as [? Hm|? k u Hu Hm|]; subst.
      * apply str_member_Some in Hm. by rewrite bind_no_ref in Hm.
      * apply list_elem_of_fmap in Hu as ([k' w] & [= -> ->] & Hw). econstructor 2; [done|]. by apply (IH (k', w) Hw (d + 1)).
Qed.

(** ** Beyond the depth limit *)

Fixpoint wrap (n : nat) (v : json) : json := match n with O => v | S n' => JArr [wrap n' v] end.

Lemma redact_wrap n v kinds : forall d, MaxWalkDepth <= d + Z.of_nat n -> redactWithAt (wrap n v) kinds d = wrap n v.
Proof.
  induction n as [|n IH]; intros d Hd.
  - destruct v; cbn [wrap redactWithAt]; replace (MaxWalkDepth <=? d) with true by lia; done.
  - cbn [wrap redactWithAt map]. destruct (_ <=? _); [done|]. by rewrite IH by lia.
Qed.

Lemma bind_wrap n v org : forall d, MaxWalkDepth <= d + Z.of_nat n -> bindToOrgAt (wrap n v) org d = wrap n v.
Proof.
  induction n as [|n IH]; intros d Hd.
  - destruct v; cbn [wrap bindToOrgAt]; replace (MaxWalkDepth <=? d) with true by lia; done.
  - cbn [wrap bindToOrgAt map]. destruct (_ <=? _); [done|]. by rewrite IH by lia.
Qed.

(** A value below 64 containers is neither redacted nor bound, whatever it holds. *)
Theorem deep_config_untouched v org : Redact (wrap 64 v) = wrap 64 v /\ BindToOrg (wrap 64 v) org = wrap 64 v.
Proof. split; [by apply redact_wrap|by apply bind_wrap]. Qed.
