(* ===== verification/OrgAPI.v ===== *)
(** The part of the HTTP interface that keeps credentials: authentication by API key
    (src/internal/auth), the secrets, connections and language models of an
    organisation (src/internal/api, with the statements of src/internal/db), and the
    reading of a secret by the language-model client (src/internal/mcp/ask_codebase.go).

    A handler takes what the server has read of its request: the headers, the path
    segment and what decoding the body gave.  Between two statements of a handler the
    other sessions may act. *)
From Stdlib Require Import Ascii.
From S2P Require Import Prelude GoStd GoStdFacts GoJSON GoText SubjobCodec RepoTask CoreDB Encryption SecretRefs.
(** ** The tables *)

(** A NULL metadata column is the empty text. *)
Record OrgRow : Type := { og_name : string; og_domain : string; og_atomWorkspaceId : option string; og_metadata : string }.

Record User : Type := { user_email : option string; user_name : option string }.

Record ApiKey : Type := { ak_orgId : Z; ak_createdById : string; ak_lastUsedAt : option Z }.

Record SecretRow : Type := { sr_encryptedValue : string; sr_iv : string; sr_createdAt : Z; sr_updatedAt : Z }.

(** A jsonb column is its value. *)
Record ConnectionRow : Type := {
  cr_orgId : Z; cr_name : string; cr_connectionType : string; cr_config : json; cr_isDeclarative : bool;
  cr_syncedAt : option Z; cr_enforcePermissions : bool; cr_enforcePermissionsForPublicRepos : bool; cr_updatedAt : Z
}.

Record ModelRow : Type := { mr_orgId : Z; mr_name : string; mr_config : json; mr_order : Z; mr_enabled : bool }.

Record AuditEvent : Type := {
  ev_Action : string; ev_ActorID : string; ev_ActorType : string; ev_TargetID : string; ev_OrgID : Z
}.

(** Language models are kept in the order of their ids.  [ow_audit] is what the audit
    emitter was handed. *)
Record OrgWorld : Type := {
  ow_orgs : gmap Z OrgRow;
  ow_users : gmap string User;
  ow_members : gmap (Z * string) string;
  ow_keys : gmap string ApiKey;
  ow_secrets : gmap (Z * string) SecretRow;
  ow_connections : gmap Z ConnectionRow;
  ow_models : list ModelRow;
  ow_audit : list AuditEvent
}.

Definition set_keys (f : gmap string ApiKey -> gmap string ApiKey) (w : OrgWorld) : OrgWorld :=
  {| ow_orgs := ow_orgs w; ow_users := ow_users w; ow_members := ow_members w; ow_keys := f (ow_keys w);
     ow_secrets := ow_secrets w; ow_connections := ow_connections w; ow_models := ow_models w; ow_audit := ow_audit w |}.

Definition set_secrets (f : gmap (Z * string) SecretRow -> gmap (Z * string) SecretRow) (w : OrgWorld) : OrgWorld :=
  {| ow_orgs := ow_orgs w; ow_users := ow_users w; ow_members := ow_members w; ow_keys := ow_keys w;
     ow_secrets := f (ow_secrets w); ow_connections := ow_connections w; ow_models := ow_models w; ow_audit := ow_audit w |}.

Definition set_connections (f : gmap Z ConnectionRow -> gmap Z ConnectionRow) (w : OrgWorld) : OrgWorld :=
  {| ow_orgs := ow_orgs w; ow_users := ow_users w; ow_members := ow_members w; ow_keys := ow_keys w;
     ow_secrets := ow_secrets w; ow_connections := f (ow_connections w); ow_models := ow_models w; ow_audit := ow_audit w |}.

Definition set_models (f : list ModelRow -> list ModelRow) (w : OrgWorld) : OrgWorld :=
  {| ow_orgs := ow_orgs w; ow_users := ow_users w; ow_members := ow_members w; ow_keys := ow_keys w;
     ow_secrets := ow_secrets w; ow_connections := ow_connections w; ow_models := f (ow_models w); ow_audit := ow_audit w |}.

Definition add_audit (e : AuditEvent) (w : OrgWorld) : OrgWorld :=
  {| ow_orgs := ow_orgs w; ow_users := ow_users w; ow_members := ow_members w; ow_keys := ow_keys w;
     ow_secrets := ow_secrets w; ow_connections := ow_connections w; ow_models := ow_models w;
     ow_audit := ow_audit w ++ [e] |}.

(** ** Errors *)

Definition ErrOrgNotFound : gerror := ESentinel "db: org not found".
Definition ErrApiKeyNotFound : gerror := ESentinel "db: api key not found".
Definition ErrEmptyHash : gerror := ESentinel "db: api key hash argument is required".
Definition ErrInvalidOrgID : gerror := ESentinel "db: org id must be positive".
Definition ErrEmptySecretKey : gerror := ESentinel "db: org-secret key argument is required".
Definition ErrEmptySecretValue : gerror := ESentinel "db: org-secret encrypted-value argument is required".
Definition ErrEmptySecretIV : gerror := ESentinel "db: org-secret iv argument is required".
Definition ErrOrgSecretNotFound : gerror := ESentinel "db: org-secret not found".
Definition ErrEmptyConnectionName : gerror := ESentinel "db: connection name argument is required".
Definition ErrEmptyConnectionType : gerror := ESentinel "db: connection type argument is required".
Definition ErrConnectionNotFound : gerror := ESentinel "db: connection not found in org".
Definition ErrConnectionNameConflict : gerror := ESentinel "db: connection name already in use".
Definition ErrNotApplicable : gerror := ESentinel "auth: strategy not applicable to this request".
Definition ErrNoCredentials : gerror := ESentinel "auth: no api-key credentials in request".
Definition ErrMalformedKey : gerror := ESentinel "auth: api-key value is malformed".
Definition ErrUnknownKey : gerror := ESentinel "auth: api-key hash did not resolve".
Definition ErrGuestRole : gerror := ESentinel "auth: resolved user has GUEST role in target org".
Definition ErrInvalidApiKey : gerror := ESentinel "auth: api key is malformed".

(** [errors.Is(err, e)] *)
Definition is_err (e err : gerror) : bool := err_is (err_text e) err.

(** ** Statements *)

(** What one call meets: a failure of the driver, the clock, a fresh id, what the other
    sessions did before, and for a transaction the failure of its [i]th statement. *)
Record ApiEnv : Type := {
  ae_fault : option gerror; ae_now : Z; ae_id : Z; ae_others : OrgWorld -> OrgWorld; ae_step_fault : nat -> option gerror
}.

Definition ApiState : Type := nat * OrgWorld.

(** A computation of a handler. *)
Definition AM (A : Type) : Type := ApiState -> ApiState * result gerror A.

Section API.
Context (env : nat -> ApiEnv).

Definition api_call {A} (stmt : ApiEnv -> OrgWorld -> result gerror (OrgWorld * A)) : AM A := fun s =>
  let '(n, w0) := s in
  let w := ae_others (env n) w0 in
  match ae_fault (env n) with
  | Some e => ((S n, w), Err e)
  | None => match stmt (env n) w with Ok (w', a) => ((S n, w'), Ok a) | Err e => ((S n, w), Err e) end
  end.

(** A read. *)
Definition api_read {A} (q : OrgWorld -> result gerror A) : AM A :=
  api_call (fun _ w => match q w with Ok a => Ok (w, a) | Err e => Err e end).

(** The errors of a computation, changed. *)
Definition on_err {A} (f : gerror -> gerror) (m : AM A) : AM A := fun s =>
  match m s with (s', Err e) => (s', Err (f e)) | (s', Ok a) => (s', Ok a) end.

Definition db_err (opName : string) (e : gerror) : gerror := EWrap ("db: " +:+ opName +:+ ": ") e "".

(** [pgx.ErrNoRows] becomes [missing]. *)
Definition no_rows (missing : gerror) (opName : string) (e : gerror) : gerror :=
  if is_err ErrNoRows e then missing else db_err opName e.

Definition refuse {A} (e : gerror) : AM A := fun s => (s, Err e).

(** *** Organisations and API keys *)

Record Org : Type := {
  org_ID : Z; org_Name : string; org_Domain : string; org_AtomWorkspaceID : option string; org_Metadata : string
}.

Definition org_view (id : Z) (metadata : string) (o : OrgRow) : Org :=
  {| org_ID := id; org_Name := og_name o; org_Domain := og_domain o; org_AtomWorkspaceID := og_atomWorkspaceId o;
     org_Metadata := metadata |}.

Record AuthLookup : Type := {
  lk_UserID : string; lk_UserEmail : option string; lk_UserName : option string; lk_Org : Org; lk_Role : string;
  lk_ApiKeyHash : string
}.

(** The join does not select the metadata. *)
Definition auth_rows (hash : string) (w : OrgWorld) : result gerror AuthLookup :=
  match ow_keys w !! hash with
  | None => Err ErrNoRows
  | Some ak =>
      match ow_orgs w !! ak_orgId ak, ow_users w !! ak_createdById ak with
      | Some o, Some u =>
          Ok {| lk_UserID := ak_createdById ak; lk_UserEmail := user_email u; lk_UserName := user_name u;
                lk_Org := org_view (ak_orgId ak) "" o; lk_Role := coalesce "GUEST" (ow_members w !! (ak_orgId ak, ak_createdById ak));
                lk_ApiKeyHash := hash |}
      | _, _ => Err ErrNoRows
      end
  end.

Definition GetApiKeyAuth (hash : string) : AM AuthLookup :=
  if hash =s "" then refuse ErrEmptyHash
  else on_err (no_rows ErrApiKeyNotFound "GetApiKeyAuth") (api_read (auth_rows hash)).

Definition touch_key (now : Z) (ak : ApiKey) : ApiKey :=
  {| ak_orgId := ak_orgId ak; ak_createdById := ak_createdById ak; ak_lastUsedAt := Some now |}.

Definition UpdateApiKeyLastUsedAt (hash : string) : AM unit :=
  if hash =s "" then refuse ErrEmptyHash
  else on_err (db_err "UpdateApiKeyLastUsedAt")
         (api_call (fun ev w => Ok (set_keys (alter (touch_key (ae_now ev)) hash) w, tt))).

Definition GetOrgWithMetadata (id : Z) : AM Org :=
  if id <=? 0 then refuse ErrInvalidOrgID
  else on_err (no_rows ErrOrgNotFound "GetOrgWithMetadata")
         (api_read (fun w => match ow_orgs w !! id with Some o => Ok (org_view id (og_metadata o) o) | None => Err ErrNoRows end)).

(** *** Secrets *)

Record OrgSecret : Type := { os_Key : string; os_CreatedAt : Z; os_UpdatedAt : Z }.

Definition secret_view (key : string) (r : SecretRow) : OrgSecret :=
  {| os_Key := key; os_CreatedAt := sr_createdAt r; os_UpdatedAt := sr_updatedAt r |}.

(** [ORDER BY key ASC] *)
Definition org_secrets (orgID : Z) (w : OrgWorld) : list OrgSecret :=
  sort_stable (fun a b => str_ltb (os_Key a) (os_Key b))
    (map (fun kv => secret_view kv.1.2 kv.2)
       (List.filter (fun kv => kv.1.1 =? orgID) (map_to_list (ow_secrets w)))).

Definition ListOrgSecrets (orgID : Z) : AM (list OrgSecret) :=
  if orgID <=? 0 then refuse ErrInvalidOrgID
  else on_err (db_err "ListOrgSecrets") (api_read (fun w => Ok (org_secrets orgID w))).

Definition GetOrgSecretCiphertext (orgID : Z) (key : string) : AM SecretRow :=
  if orgID <=? 0 then refuse ErrInvalidOrgID
  else if key =s "" then refuse ErrEmptySecretKey
  else on_err (no_rows ErrOrgSecretNotFound "GetOrgSecretCiphertext")
         (api_read (fun w => match ow_secrets w !! (orgID, key) with Some r => Ok r | None => Err ErrNoRows end)).

Definition missing_keys (orgID : Z) (keys : list string) (w : OrgWorld) : list string :=
  List.filter (fun k => match ow_secrets w !! (orgID, k) with Some _ => false | None => true end) keys.

Definition SelectMissingOrgSecretKeys (orgID : Z) (candidateKeys : list string) : AM (list string) :=
  if orgID <=? 0 then refuse ErrInvalidOrgID
  else match candidateKeys with
       | [] => fun s => (s, Ok [])
       | _ => on_err (db_err "SelectMissingOrgSecretKeys") (api_read (fun w => Ok (missing_keys orgID candidateKeys w)))
       end.

Definition upserted_secret (now : Z) (value iv : string) (old : option SecretRow) : SecretRow :=
  {| sr_encryptedValue := value; sr_iv := iv; sr_createdAt := coalesce now (sr_createdAt <$> old); sr_updatedAt := now |}.

Definition UpsertOrgSecret (orgID : Z) (key value iv : string) : AM OrgSecret :=
  if orgID <=? 0 then refuse ErrInvalidOrgID
  else if key =s "" then refuse ErrEmptySecretKey
  else if value =s "" then refuse ErrEmptySecretValue
  else if iv =s "" then refuse ErrEmptySecretIV
  else on_err (db_err "UpsertOrgSecret")
         (api_call (fun ev w =>
            let r := upserted_secret (ae_now ev) value iv (ow_secrets w !! (orgID, key)) in
            Ok (set_secrets (<[(orgID, key) := r]>) w, secret_view key r))).

Definition DeleteOrgSecret (orgID : Z) (key : string) : AM unit :=
  if orgID <=? 0 then refuse ErrInvalidOrgID
  else if key =s "" then refuse ErrEmptySecretKey
  else on_err (db_err "DeleteOrgSecret") (api_call (fun _ w => Ok (set_secrets (delete (orgID, key)) w, tt))).

(** *** Connections *)

(** Name and configuration. *)
Definition ConfigOwner : Type := string * json.

Definition org_connections (orgID : Z) (w : OrgWorld) : list (Z * ConnectionRow) :=
  List.filter (fun kv => cr_orgId kv.2 =? orgID) (map_to_list (ow_connections w)).

Definition ListOrgConnectionsForRefcheck (orgID : Z) : AM (list ConfigOwner) :=
  if orgID <=? 0 then refuse ErrInvalidOrgID
  else on_err (db_err "ListOrgConnectionsForRefcheck")
         (api_read (fun w => Ok (map (fun kv => (cr_name kv.2, cr_config kv.2)) (org_connections orgID w)))).

Definition ListOrgLanguageModelsForRefcheck (orgID : Z) : AM (list ConfigOwner) :=
  if orgID <=? 0 then refuse ErrInvalidOrgID
  else on_err (db_err "ListOrgLanguageModelsForRefcheck")
         (api_read (fun w => Ok (map (fun r => (mr_name r, mr_config r))
                                   (List.filter (fun r => mr_orgId r =? orgID) (ow_models w))))).

(** [ORDER BY "updatedAt" DESC] *)
Definition ListOrgConnectionsForRead (orgID : Z) : AM (list (Z * ConnectionRow)) :=
  if orgID <=? 0 then refuse ErrInvalidOrgID
  else on_err (db_err "ListOrgConnectionsForRead")
         (api_read (fun w => Ok (sort_stable (fun a b => cr_updatedAt b.2 <? cr_updatedAt a.2) (org_connections orgID w)))).

Record UpsertOrgConnectionParams : Type := {
  up_OrgID : Z; up_Name : string; up_ConnectionType : string; up_Config : json; up_EnforcePermissions : bool;
  up_EnforcePermissionsForPublicRepos : bool; up_ResetSync : bool
}.

(** The row with the key (name, "orgId"). *)
Definition named_connection (orgID : Z) (name : string) (w : OrgWorld) : option (Z * ConnectionRow) :=
  List.find (fun kv => cr_name kv.2 =s name) (org_connections orgID w).

Definition upserted_connection (now : Z) (p : UpsertOrgConnectionParams) (old : option ConnectionRow) : ConnectionRow :=
  {| cr_orgId := up_OrgID p; cr_name := up_Name p; cr_connectionType := up_ConnectionType p; cr_config := up_Config p;
     cr_isDeclarative := false;
     cr_syncedAt := match old with Some c => if up_ResetSync p then None else cr_syncedAt c | None => None end;
     cr_enforcePermissions := up_EnforcePermissions p;
     cr_enforcePermissionsForPublicRepos := up_EnforcePermissionsForPublicRepos p; cr_updatedAt := now |}.

(** SQLSTATE 23505. *)
Definition unique_violation : gerror := ESentinel "23505".

Definition upsert_connection (p : UpsertOrgConnectionParams) (ev : ApiEnv) (w : OrgWorld)
  : result gerror (OrgWorld * (Z * ConnectionRow)) :=
  match named_connection (up_OrgID p) (up_Name p) w with
  | Some (id, old) =>
      let r := upserted_connection (ae_now ev) p (Some old) in Ok (set_connections (<[id := r]>) w, (id, r))
  | None =>
      match ow_connections w !! ae_id ev with
      | Some _ => Err unique_violation
      | None => let r := upserted_connection (ae_now ev) p None in Ok (set_connections (<[ae_id ev := r]>) w, (ae_id ev, r))
      end
  end.

(** The marshalling of a decoded value cannot fail. *)
Definition UpsertOrgConnection (p : UpsertOrgConnectionParams) : AM (Z * ConnectionRow) :=
  if up_OrgID p <=? 0 then refuse ErrInvalidOrgID
  else if up_Name p =s "" then refuse ErrEmptyConnectionName
  else if up_ConnectionType p =s "" then refuse ErrEmptyConnectionType
  else on_err (db_err "UpsertOrgConnection") (api_call (upsert_connection p)).

Definition GetOrgConnectionForUpdate (orgID connectionID : Z) : AM ConnectionRow :=
  if orgID <=? 0 then refuse ErrInvalidOrgID
  else if connectionID <=? 0 then refuse ErrConnectionNotFound
  else on_err (no_rows ErrConnectionNotFound "GetOrgConnectionForUpdate")
         (api_read (fun w => match ow_connections w !! connectionID with
                             | Some c => if cr_orgId c =? orgID then Ok c else Err ErrNoRows
                             | None => Err ErrNoRows
                             end)).

(** The existing row is an error. *)
Definition CheckOrgConnectionNameAvailable (orgID : Z) (name : string) (excludeID : Z) : AM unit := fun s =>
  if orgID <=? 0 then (s, Err ErrInvalidOrgID)
  else if name =s "" then (s, Err ErrEmptyConnectionName)
  else match api_read (fun w =>
               if existsb (fun kv => (cr_name kv.2 =s name) && negb (kv.1 =? excludeID)) (org_connections orgID w)
               then Ok tt else Err ErrNoRows) s with
       | (s', Ok _) => (s', Err ErrConnectionNameConflict)
       | (s', Err e) => if is_err ErrNoRows e then (s', Ok tt)
                        else (s', Err (db_err "CheckOrgConnectionNameAvailable" e))
       end.

Definition DeleteOrgConnection (orgID connectionID : Z) : AM unit := fun s =>
  if orgID <=? 0 then (s, Err ErrInvalidOrgID)
  else if connectionID <=? 0 then (s, Err ErrConnectionNotFound)
  else match api_call (fun _ w =>
               match ow_connections w !! connectionID with
               | Some c => if cr_orgId c =? orgID then Ok (set_connections (delete connectionID) w, true) else Ok (w, false)
               | None => Ok (w, false)
               end) s with
       | (s', Err e) => (s', Err (db_err "DeleteOrgConnection" e))
       | (s', Ok false) => (s', Err ErrConnectionNotFound)
       | (s', Ok true) => (s', Ok tt)
       end.

(** *** Language models *)

Record OrgLanguageModelInsert : Type := { mi_Name : string; mi_Config : json; mi_Order : Z }.

Definition inserted_model (orgID : Z) (i : OrgLanguageModelInsert) : ModelRow :=
  {| mr_orgId := orgID; mr_name := mi_Name i; mr_config := mi_Config i; mr_order := mi_Order i; mr_enabled := true |}.

Definition model_exists (orgID : Z) (name : string) (l : list ModelRow) : bool :=
  existsb (fun r => (mr_orgId r =? orgID) && (mr_name r =s name)) l.

Fixpoint insert_models (ev : ApiEnv) (orgID i : Z) (models : list OrgLanguageModelInsert) (l : list ModelRow)
  : result gerror (list ModelRow) :=
  match models with
  | [] => Ok l
  | m :: rest =>
      let label e := EWrap ("db: ReplaceOrgLanguageModels: insert[" +:+ Itoa i +:+ "]: ") e "" in
      match ae_step_fault ev (Z.to_nat (i + 1)) with
      | Some e => Err (label e)
      | None => if model_exists orgID (mi_Name m) l then Err (label unique_violation)
                else insert_models ev orgID (i + 1) rest (l ++ [inserted_model orgID m])
      end
  end.

(** One transaction: the deletion is its statement 0, the [i]th insert its statement
    [i + 1], the commit its last. *)
Definition ReplaceOrgLanguageModels (orgID : Z) (models : list OrgLanguageModelInsert) : AM unit :=
  if orgID <=? 0 then refuse ErrInvalidOrgID
  else fun s =>
    let '(n, w0) := s in
    let ev := env n in
    let w := ae_others ev w0 in
    match ae_fault ev with
    | Some e => ((S n, w), Err (EWrap "db: ReplaceOrgLanguageModels: begin: " e ""))
    | None =>
        match ae_step_fault ev 0 with
        | Some e => ((S n, w), Err (EWrap "db: ReplaceOrgLanguageModels: delete: " e ""))
        | None =>
            match insert_models ev orgID 0 models (List.filter (fun r => negb (mr_orgId r =? orgID)) (ow_models w)) with
            | Err e => ((S n, w), Err e)
            | Ok l =>
                match ae_step_fault ev (S (length models)) with
                | Some e => ((S n, w), Err (EWrap "db: ReplaceOrgLanguageModels: commit: " e ""))
                | None => ((S n, set_models (fun _ => l) w), Ok tt)
                end
            end
        end
    end.

(** [ORDER BY "order" ASC, id ASC] *)
Definition ListEnabledOrgLanguageModels (orgID : Z) : AM (list json) :=
  if orgID <=? 0 then refuse ErrInvalidOrgID
  else on_err (db_err "ListEnabledOrgLanguageModels")
         (api_read (fun w => Ok (map mr_config (sort_stable (fun a b => mr_order a <? mr_order b)
                                   (List.filter (fun r => (mr_orgId r =? orgID) && mr_enabled r) (ow_models w)))))).
End API.

(** ** Authentication *)

Definition ApiKeyPrefix : string := "cik_".

(** [strings.CutPrefix] *)
Definition CutPrefix (s prefix : string) : option string :=
  if HasPrefix s prefix then Some (TrimPrefix s prefix) else None.

Definition ParseApiKey (raw : string) : result gerror string :=
  if raw =s "" then Err ErrInvalidApiKey
  else match CutPrefix raw ApiKeyPrefix with
       | Some secret => if secret =s "" then Err ErrInvalidApiKey else Ok secret
       | None => Err ErrInvalidApiKey
       end.

(** The first values of the two headers that are read. *)
Record Header : Type := { hd_ApiKey : string; hd_Authorization : string }.

Definition hasApiKeyPrefix (s : string) : bool := HasPrefix s ApiKeyPrefix.

Definition extractApiKey (h : Header) : string :=
  if negb (hd_ApiKey h =s "") then hd_ApiKey h
  else match CutPrefix (hd_Authorization h) "Bearer " with
       | Some bearer => if hasApiKeyPrefix bearer then bearer else ""
       | None => ""
       end.

Definition OrgRoleOwner : string := "OWNER".
Definition OrgRoleMember : string := "MEMBER".
Definition OrgRoleGuest : string := "GUEST".

Record AuthContext : Type := {
  ac_UserID : string; ac_UserEmail : option string; ac_UserName : option string; ac_Org : Org; ac_Role : string;
  ac_AuthSource : string; ac_ApiKeyHash : string
}.

Record OrgMetadata : Type := { AnonymousAccessEnabled : bool }.

Definition set_org_metadata (m : OrgMetadata) (key : string) (j : json) : option OrgMetadata :=
  if key_matches "anonymousAccessEnabled" key
  then match j with JBool b => Some {| AnonymousAccessEnabled := b |} | JNull => Some m | _ => None end
  else Some m.

Definition ParseOrgMetadata (raw : string) : result gerror OrgMetadata :=
  let zero := {| AnonymousAccessEnabled := false |} in
  if raw =s "" then Ok zero else decode_struct set_org_metadata zero raw.

(** The server's configuration. *)
Record ServerConfig : Type := { cfg_EncryptionKey : string; cfg_SingleTenantOrgID : Z }.

Section Handlers.
Context (env : nat -> ApiEnv) (cfg : ServerConfig).

Definition api_key_context (lookup : AuthLookup) : AuthContext :=
  {| ac_UserID := lk_UserID lookup; ac_UserEmail := lk_UserEmail lookup; ac_UserName := lk_UserName lookup;
     ac_Org := lk_Org lookup; ac_Role := lk_Role lookup; ac_AuthSource := "api_key"; ac_ApiKeyHash := lk_ApiKeyHash lookup |}.

(** [ApiKeyStrategy.Resolve] *)
Definition Resolve (h : Header) : AM AuthContext := fun s =>
  let raw := extractApiKey h in
  if raw =s "" then (s, Err ErrNotApplicable)
  else match ParseApiKey raw with
  | Err _ => (s, Err ErrMalformedKey)
  | Ok secret =>
      let hash := HashSecret (cfg_EncryptionKey cfg) secret in
      match GetApiKeyAuth env hash s with
      | (s1, Err e) => (s1, Err (if is_err ErrApiKeyNotFound e then ErrUnknownKey else e))
      | (s1, Ok lookup) =>
          if lk_Role lookup =s OrgRoleGuest then (s1, Err ErrGuestRole)
          else match UpdateApiKeyLastUsedAt env hash s1 with
               | (s2, Err e) => (s2, Err e)
               | (s2, Ok _) => (s2, Ok (api_key_context lookup))
               end
      end
  end.

Definition ResolveFromHeaders (h : Header) : AM AuthContext := fun s =>
  match Resolve h s with
  | (s', Err e) => (s', Err (if is_err ErrNotApplicable e then ErrNoCredentials else e))
  | (s', Ok a) => (s', Ok a)
  end.

Definition anonymous_context (org : Org) : AuthContext :=
  {| ac_UserID := ""; ac_UserEmail := None; ac_UserName := None; ac_Org := org; ac_Role := OrgRoleGuest;
     ac_AuthSource := "anonymous"; ac_ApiKeyHash := "" |}.

Definition ResolveOptionalFromHeaders (h : Header) : AM AuthContext := fun s =>
  if negb (extractApiKey h =s "") then ResolveFromHeaders h s
  else if cfg_SingleTenantOrgID cfg <=? 0 then (s, Err ErrNoCredentials)
  else match GetOrgWithMetadata env (cfg_SingleTenantOrgID cfg) s with
  | (s1, Err e) => (s1, Err (if is_err ErrOrgNotFound e then ErrNoCredentials else e))
  | (s1, Ok org) =>
      match ParseOrgMetadata (org_Metadata org) with
      | Err _ => (s1, Err ErrNoCredentials)
      | Ok meta => if AnonymousAccessEnabled meta then (s1, Ok (anonymous_context org)) else (s1, Err ErrNoCredentials)
      end
  end.

(** ** Replies *)

Record ServiceError : Type := { se_StatusCode : Z; se_ErrorCode : string; se_Message : string }.

Definition notAuthenticatedBody : ServiceError :=
  {| se_StatusCode := 401; se_ErrorCode := "NOT_AUTHENTICATED"; se_Message := "Not authenticated" |}.

Definition unexpectedErrorBody : ServiceError :=
  {| se_StatusCode := 500; se_ErrorCode := "UNEXPECTED_ERROR"; se_Message := "An unexpected error occurred" |}.

(** An error with its HTTP status, or status 200 and a body. *)
Inductive Reply (A : Type) : Type :=
| Failed (status : Z) (body : ServiceError)
| Done (a : A).

Definition writeServiceError {A} (statusCode : Z) (errorCode message : string) : Reply A :=
  Failed A statusCode {| se_StatusCode := statusCode; se_ErrorCode := errorCode; se_Message := message |}.

Definition unexpected {A} : Reply A := Failed A 500 unexpectedErrorBody.

Definition invalid_body {A} (message : string) : Reply A := writeServiceError 400 "INVALID_REQUEST_BODY" message.

Definition isAuthFailure (err : gerror) : bool :=
  is_err ErrNoCredentials err || is_err ErrMalformedKey err || is_err ErrUnknownKey err || is_err ErrGuestRole err.

Definition Handler (A : Type) : Type := ApiState -> ApiState * Reply A.

Definition auth_reply {A} (e : gerror) : Reply A :=
  if isAuthFailure e then Failed A 401 notAuthenticatedBody else unexpected.

(** How every handler for owners begins. *)
Definition for_owner {A} (h : Header) (forbidden : string) (k : AuthContext -> Handler A) : Handler A := fun s =>
  match ResolveFromHeaders h s with
  | (s', Err e) => (s', auth_reply e)
  | (s', Ok authCtx) =>
      if negb (ac_Role authCtx =s OrgRoleOwner) then (s', writeServiceError 403 "INSUFFICIENT_PERMISSIONS" forbidden)
      else k authCtx s'
  end.

(** What [Decode] gave for a body behind [http.MaxBytesReader]. *)
Inductive Decoded (B : Type) : Type :=
| TooLarge
| EmptyBody
| NotJSON
| Body (b : B).

Definition with_body {A B} (d : Decoded B) (k : B -> Handler A) : Handler A :=
  match d with
  | TooLarge _ => fun s => (s, writeServiceError 413 "INVALID_REQUEST_BODY" "Request body exceeds the maximum allowed size.")
  | EmptyBody _ => fun s => (s, invalid_body "Request body is empty.")
  | NotJSON _ => fun s => (s, invalid_body "Request body is not valid JSON.")
  | Body _ b => k b
  end.

(** A statement whose failure is answered with 500. *)
Definition or_500 {A B} (m : AM B) (k : B -> Handler A) : Handler A := fun s =>
  match m s with (s', Err _) => (s', unexpected) | (s', Ok b) => k b s' end.

Definition reply {A} (r : Reply A) : Handler A := fun s => (s, r).

(** ** Secrets *)

Definition secret_key_byte (c : ascii) : bool :=
  byte_in 65 90 c || byte_in 97 122 c || byte_in 48 57 c || (code c =? 95) || (code c =? 46) || (code c =? 58) || (code c =? 45).

(** [^[A-Za-z0-9_.:\-]+$] *)
Definition secretKeyRegex (s : string) : bool :=
  negb (s =s "") && forallb secret_key_byte (String.list_ascii_of_string s).

Definition isValidSecretKey (key : string) : bool :=
  if (key =s "") || (128 <? Z.of_nat (String.length key)) then false else secretKeyRegex key.

Record putOrgSecretBody : Type := { pb_Key : string; pb_Value : string }.

(** The message of the first failure. *)
Definition validate_secret_body (b : putOrgSecretBody) : option string :=
  if pb_Key b =s "" then Some "Secret key is required."
  else if 128 <? Z.of_nat (String.length (pb_Key b)) then Some "Secret key must be at most 128 characters."
  else if negb (secretKeyRegex (pb_Key b)) then Some "Secret key contains disallowed characters."
  else if pb_Value b =s "" then Some "Secret value is required."
  else None.

(** The reply to a row of secrets; the reference repeats the key. *)
Record orgSecretResponse : Type := { or_Key : string; or_CreatedAt : Z; or_UpdatedAt : Z; or_Ref : string }.

Definition secret_response (r : OrgSecret) : orgSecretResponse :=
  {| or_Key := os_Key r; or_CreatedAt := os_CreatedAt r; or_UpdatedAt := os_UpdatedAt r; or_Ref := os_Key r |}.

Definition handleListOrgSecrets (h : Header) : Handler (list orgSecretResponse) :=
  for_owner h "Only organization owners can list secrets." (fun authCtx =>
    or_500 (ListOrgSecrets env (org_ID (ac_Org authCtx))) (fun rows => reply (Done _ (map secret_response rows)))).

(** [rand] is the result of [rand.Read] for the initialisation vector. *)
Definition handlePutOrgSecret (rand : result gerror (list Z)) (h : Header) (body : Decoded putOrgSecretBody)
  : Handler orgSecretResponse :=
  for_owner h "Only organization owners can create or update secrets." (fun authCtx =>
    with_body body (fun b =>
      match validate_secret_body b with
      | Some msg => reply (invalid_body msg)
      | None =>
          match Encrypt rand (cfg_EncryptionKey cfg) (pb_Value b) with
          | Err _ => reply unexpected
          | Ok (iv, ciphertext) =>
              or_500 (UpsertOrgSecret env (org_ID (ac_Org authCtx)) (pb_Key b) ciphertext iv) (fun row =>
                reply (Done _ (secret_response row)))
          end
      end)).

(** [url.PathUnescape] *)
Fixpoint PathUnescape (s : string) : option string :=
  match s with
  | EmptyString => Some ""
  | String c rest =>
      if code c =? 37 then
        match rest with
        | String a (String b rest') =>
            match hex_value a, hex_value b with
            | Some x, Some y => String (chr (16 * x + y)) <$> PathUnescape rest'
            | _, _ => None
            end
        | _ => None
        end
      else String c <$> PathUnescape rest
  end.

(** The owners, with the name of their table, whose configuration contains the key. *)
Definition uses_of (key label : string) (owners : list ConfigOwner) : list string :=
  map (fun o => label +:+ o.1) (List.filter (fun o => Contains o.2 key) owners).

(** The two queries run side by side and change nothing. *)
Definition handleDeleteOrgSecret (h : Header) (rawKey : string) : Handler string :=
  for_owner h "Only organization owners can delete secrets." (fun authCtx =>
    match PathUnescape rawKey with
    | None => reply (writeServiceError 400 "INVALID_QUERY_PARAMS" "Secret key is invalid.")
    | Some decodedKey =>
        if negb (isValidSecretKey decodedKey)
        then reply (writeServiceError 400 "INVALID_QUERY_PARAMS" "Secret key is invalid.")
        else
          let orgID := org_ID (ac_Org authCtx) in
          or_500 (ListOrgConnectionsForRefcheck env orgID) (fun conns =>
          or_500 (ListOrgLanguageModelsForRefcheck env orgID) (fun models =>
          match uses_of decodedKey "connection:" conns ++ uses_of decodedKey "model:" models with
          | [] => or_500 (DeleteOrgSecret env orgID decodedKey) (fun _ => reply (Done _ decodedKey))
          | uses => reply (invalid_body ("Secret '" +:+ decodedKey +:+ "' is still referenced by "
                                         +:+ Join uses ", " +:+ "."))
          end))
    end).

(** ** Connections *)

Record connectionListItem : Type := {
  ci_ID : Z; ci_Name : string; ci_ConnectionType : string; ci_Config : json; ci_IsDeclarative : bool;
  ci_SyncedAt : option Z; ci_EnforcePermissions : bool; ci_EnforcePermissionsForPublicRepos : bool
}.

Definition connection_item (row : Z * ConnectionRow) : connectionListItem :=
  {| ci_ID := row.1; ci_Name := cr_name row.2; ci_ConnectionType := cr_connectionType row.2;
     ci_Config := Redact (cr_config row.2); ci_IsDeclarative := cr_isDeclarative row.2; ci_SyncedAt := cr_syncedAt row.2;
     ci_EnforcePermissions := cr_enforcePermissions row.2;
     ci_EnforcePermissionsForPublicRepos := cr_enforcePermissionsForPublicRepos row.2 |}.

Definition handleListOrgConnections (h : Header) : Handler (list connectionListItem) :=
  for_owner h "Only organization owners can list connection configuration." (fun authCtx =>
    or_500 (ListOrgConnectionsForRead env (org_ID (ac_Org authCtx))) (fun rows =>
      reply (Done _ (map connection_item rows)))).

(** The scheduler of syncs: at capacity or not. *)
Context (Schedule : Z -> Z -> result gerror bool).

Definition auditActor (authCtx : AuthContext) : string * string :=
  if ac_AuthSource authCtx =s "api_key" then (ac_UserID authCtx, "api_key")
  else if ac_AuthSource authCtx =s "anonymous" then ("", "system")
  else (ac_UserID authCtx, "user").

(** Failures of the emitter are logged only. *)
Definition emitAudit {A} (authCtx : AuthContext) (action target : string) (r : Reply A) : Handler A := fun s =>
  let '(actorID, actorType) := auditActor authCtx in
  let e := {| ev_Action := action; ev_ActorID := actorID; ev_ActorType := actorType; ev_TargetID := target;
              ev_OrgID := org_ID (ac_Org authCtx) |} in
  ((s.1, add_audit e s.2), r).

(** What follows the upsert in both handlers. *)
Definition after_upsert (authCtx : AuthContext) (action : string) (shouldSync : bool) (row : Z * ConnectionRow)
  : Handler connectionListItem :=
  let finish := emitAudit authCtx action (Itoa row.1) (Done _ (connection_item row)) in
  if shouldSync then
    match Schedule (org_ID (ac_Org authCtx)) row.1 with
    | Err _ => reply (Failed _ 502 unexpectedErrorBody)
    | Ok true => reply (writeServiceError 429 "CONNECTION_SYNC_ALREADY_SCHEDULED" "Connection sync was not scheduled because the tenant is at active sync capacity. Retry after the current sync jobs finish.")
    | Ok false => finish
    end
  else finish.

Definition joinSorted (keys : list string) : string := Join (sort_stable str_ltb keys) ", ".

(** The references of a bound configuration must exist. *)
Definition check_references {A} (orgID : Z) (bound : json) (complaint : string) (k : Handler A) : Handler A :=
  match CollectUnique bound with
  | [] => k
  | candidateKeys =>
      or_500 (SelectMissingOrgSecretKeys env orgID candidateKeys) (fun missing =>
        match missing with
        | [] => k
        | _ => reply (invalid_body (complaint +:+ joinSorted missing))
        end)
  end.

Record postConnectionBody : Type := { po_Name : string; po_Config : json; po_Sync : option bool }.

Definition bool_member (k : string) (m : list (string * json)) : option bool :=
  match member k m with Some (JBool b) => Some b | _ => None end.

Definition not_an_object : string := "Connection config must be a JSON object.".
Definition without_type : string := "Connection config must specify a `type` string.".
Definition missing_refs : string := "Connection config references missing secrets: ".

(** A nil configuration is the value null. *)
Definition handleUpsertOrgConnection (h : Header) (body : Decoded postConnectionBody) : Handler connectionListItem :=
  for_owner h "Only organization owners can configure code host connections." (fun authCtx =>
    with_body body (fun b =>
      if po_Name b =s "" then reply (invalid_body "Connection name is required.")
      else match po_Config b with
      | JNull => reply (invalid_body "Connection config is required.")
      | config =>
          let orgID := org_ID (ac_Org authCtx) in
          let bound := BindToOrg config orgID in
          match bound with
          | JObj cfgMap =>
              let connectionType := coalesce "" (str_member "type" cfgMap) in
              if connectionType =s "" then reply (invalid_body without_type)
              else check_references orgID bound missing_refs
                (let shouldSync := coalesce true (po_Sync b) in
                 or_500 (UpsertOrgConnection env
                   {| up_OrgID := orgID; up_Name := po_Name b; up_ConnectionType := connectionType; up_Config := bound;
                      up_EnforcePermissions := coalesce false (bool_member "enforcePermissions" cfgMap);
                      up_EnforcePermissionsForPublicRepos :=
                        coalesce false (bool_member "enforcePermissionsForPublicRepos" cfgMap);
                      up_ResetSync := shouldSync |})
                   (after_upsert authCtx "connection.upserted" shouldSync))
          | _ => reply (invalid_body not_an_object)
          end
      end)).

(** [strconv.ParseInt(s, 10, 32)] *)
Definition ParseInt32 (s : string) : option Z :=
  match ParseInt64 s with
  | Some z => if (- 2 ^ 31 <=? z) && (z <? 2 ^ 31) then Some z else None
  | None => None
  end.

Record patchConnectionBody : Type := { pa_Name : option string; pa_Config : json; pa_Sync : option bool }.

Definition not_found {A} : Reply A := writeServiceError 404 "NOT_FOUND" "Connection not found.".

(** The columns the patch leaves to write. *)
Definition patch_write (authCtx : AuthContext) (p : UpsertOrgConnectionParams) : Handler connectionListItem := fun s =>
  match UpsertOrgConnection env p s with
  | (s', Err e) =>
      (s', if err_is (err_text unique_violation) e
           then writeServiceError 400 "CONNECTION_ALREADY_EXISTS" "Connection name already in use (concurrent update detected)."
           else unexpected)
  | (s', Ok row) => after_upsert authCtx "connection.patched" (up_ResetSync p) row s'
  end.

Definition patch_config (authCtx : AuthContext) (existing : ConnectionRow) (newName : string) (b : patchConnectionBody)
  : Handler connectionListItem :=
  let orgID := org_ID (ac_Org authCtx) in
  let shouldSync := coalesce false (pa_Sync b) in
  match pa_Config b with
  | JNull =>
      patch_write authCtx
        {| up_OrgID := orgID; up_Name := newName; up_ConnectionType := cr_connectionType existing;
           up_Config := cr_config existing; up_EnforcePermissions := cr_enforcePermissions existing;
           up_EnforcePermissionsForPublicRepos := cr_enforcePermissionsForPublicRepos existing; up_ResetSync := shouldSync |}
  | config =>
      let bound := BindToOrg config orgID in
      match bound with
      | JObj cfgMap =>
          let typ := coalesce "" (str_member "type" cfgMap) in
          if typ =s "" then reply (invalid_body without_type)
          else check_references orgID bound missing_refs
            (patch_write authCtx
               {| up_OrgID := orgID; up_Name := newName; up_ConnectionType := typ; up_Config := bound;
                  up_EnforcePermissions :=
                    coalesce (cr_enforcePermissions existing) (bool_member "enforcePermissions" cfgMap);
                  up_EnforcePermissionsForPublicRepos :=
                    coalesce (cr_enforcePermissionsForPublicRepos existing)
                      (bool_member "enforcePermissionsForPublicRepos" cfgMap);
                  up_ResetSync := shouldSync |})
      | _ => reply (invalid_body not_an_object)
      end
  end.

Definition patch_name (authCtx : AuthContext) (connectionID : Z) (existing : ConnectionRow) (b : patchConnectionBody)
  : Handler connectionListItem :=
  match pa_Name b with
  | None => patch_config authCtx existing (cr_name existing) b
  | Some name =>
      if name =s "" then reply (invalid_body "Connection name must not be empty.")
      else if name =s cr_name existing then patch_config authCtx existing (cr_name existing) b
      else fun s =>
        match CheckOrgConnectionNameAvailable env (org_ID (ac_Org authCtx)) name connectionID s with
        | (s', Err e) =>
            (s', if is_err ErrConnectionNameConflict e
                 then writeServiceError 400 "CONNECTION_ALREADY_EXISTS" ("Connection '" +:+ name +:+ "' already exists.")
                 else unexpected)
        | (s', Ok _) => patch_config authCtx existing name b s'
        end
  end.

Definition empty_patch (b : patchConnectionBody) : bool :=
  match pa_Name b, pa_Config b, pa_Sync b with None, JNull, None => true | _, _, _ => false end.

Definition handlePatchOrgConnection (h : Header) (idStr : string) (body : Decoded patchConnectionBody)
  : Handler connectionListItem :=
  for_owner h "Only organization owners can configure code host connections." (fun authCtx =>
    match ParseInt32 idStr with
    | None => reply (writeServiceError 400 "INVALID_QUERY_PARAMS" "Connection id must be an integer.")
    | Some connectionID =>
        with_body body (fun b =>
          if empty_patch b
          then reply (invalid_body "PATCH body must include at least one of `name`, `config`, or `sync`.")
          else fun s =>
            match GetOrgConnectionForUpdate env (org_ID (ac_Org authCtx)) connectionID s with
            | (s', Err e) => (s', if is_err ErrConnectionNotFound e then not_found else unexpected)
            | (s', Ok existing) => patch_name authCtx connectionID existing b s'
            end)
    end).

Definition handleDeleteOrgConnection (h : Header) (idStr : string) : Handler unit :=
  for_owner h "Only organization owners can delete code host connections." (fun authCtx =>
    match ParseInt32 idStr with
    | None => reply (writeServiceError 400 "INVALID_QUERY_PARAMS" "Connection id must be an integer.")
    | Some id => fun s =>
        match DeleteOrgConnection env (org_ID (ac_Org authCtx)) id s with
        | (s', Err e) => (s', if is_err ErrConnectionNotFound e then not_found else unexpected)
        | (s', Ok _) => emitAudit authCtx "connection.deleted" (Itoa id) (Done _ tt) s'
        end
    end).

(** ** Language models *)

Record languageModelInfo : Type := { lm_Provider : string; lm_Model : string; lm_DisplayName : string }.

Definition set_model_field (c : languageModelInfo) (key : string) (j : json) : option languageModelInfo :=
  let '(Build_languageModelInfo pr mo di) := c in
  if key_matches "provider" key then (fun v => Build_languageModelInfo v mo di) <$> as_string pr j
  else if key_matches "model" key then (fun v => Build_languageModelInfo pr v di) <$> as_string mo j
  else if key_matches "displayName" key then (fun v => Build_languageModelInfo pr mo v) <$> as_string di j
  else Some c.

(** [json.Unmarshal(row.Config, &cfg)] *)
Definition model_info (config : json) : option languageModelInfo :=
  let zero := {| lm_Provider := ""; lm_Model := ""; lm_DisplayName := "" |} in
  match config with
  | JObj m => set_members set_model_field zero m
  | JNull => Some zero
  | _ => None
  end.

(** The infos of the rows, or none when one cannot be read. *)
Definition model_infos (rows : list json) : Reply (list languageModelInfo) :=
  match mapM model_info rows with Some l => Done _ l | None => unexpected end.

Definition handleListOrgLanguageModels (h : Header) : Handler (list languageModelInfo) := fun s =>
  match ResolveOptionalFromHeaders h s with
  | (s', Err e) => (s', auth_reply e)
  | (s', Ok authCtx) =>
      or_500 (ListEnabledOrgLanguageModels env (org_ID (ac_Org authCtx))) (fun rows => reply (model_infos rows)) s'
  end.

(** Name and bound configuration, or the first complaint. *)
Fixpoint parse_models (orgID i : Z) (seen : list string) (models : list json) : result string (list (string * json)) :=
  match models with
  | [] => Ok []
  | JObj obj :: rest =>
      let provider := coalesce "" (str_member "provider" obj) in
      let model := coalesce "" (str_member "model" obj) in
      if (provider =s "") || (model =s "")
      then Err ("Language model at index " +:+ Itoa i +:+ " is missing required `provider` / `model` fields.")
      else
        let name := provider +:+ ":" +:+ model in
        if bool_decide (name ∈ seen) then Err ("Duplicate language model config: " +:+ name)
        else let? l := parse_models orgID (i + 1) (name :: seen) rest in Ok ((name, BindToOrg (JObj obj) orgID) :: l)
  | _ :: _ => Err ("Language model at index " +:+ Itoa i +:+ " is not an object.")
  end.

Definition parseAndBindModels (models : list json) (orgID : Z) : result string (list (string * json)) :=
  parse_models orgID 0 [] models.

Definition model_inserts (parsed : list (string * json)) : list OrgLanguageModelInsert :=
  imap (fun i p => {| mi_Name := p.1; mi_Config := p.2; mi_Order := Z.of_nat i |}) parsed.

(** An absent or null list of models is [None]. *)
Definition handlePutOrgLanguageModels (h : Header) (body : Decoded (option (list json))) : Handler (list languageModelInfo) :=
  for_owner h "Only organization owners can configure language models." (fun authCtx =>
    with_body body (fun b =>
      match b with
      | None => reply (invalid_body "Request body is missing the required `models` field.")
      | Some models =>
          let orgID := org_ID (ac_Org authCtx) in
          match parseAndBindModels models orgID with
          | Err msg => reply (invalid_body msg)
          | Ok parsed =>
              check_references orgID (JArr (map snd parsed)) "Language model config references missing secrets: "
                (or_500 (ReplaceOrgLanguageModels env orgID (model_inserts parsed)) (fun _ =>
                 or_500 (ListEnabledOrgLanguageModels env orgID) (fun rows => reply (model_infos rows))))
          end
      end)).

(** ** The reading of a secret *)

Definition present (v : option json) : bool := match v with Some _ => true | None => false end.

(** [int32(v)] of a float64, by the text of the number. *)
Context (float_int32 : string -> Z).

Definition numericOrgID (value : option json) : option Z :=
  match value with Some (JNum t) => Some (float_int32 t) | _ => None end.

Definition decryptOrgSecret (orgID : Z) (key : string) : AM string := fun s =>
  if cfg_EncryptionKey cfg =s "" then (s, Err (EText "encryption key is not configured"))
  else match GetOrgSecretCiphertext env orgID key s with
  | (s', Err e) => (s', Err (if is_err ErrOrgSecretNotFound e then EText ("secret " +:+ quoted key +:+ " not found") else e))
  | (s', Ok row) =>
      match Decrypt (cfg_EncryptionKey cfg) (sr_iv row) (sr_encryptedValue row) with
      | Err e => (s', Err (EWrap ("decrypt secret " +:+ quoted key +:+ ": ") e ""))
      | Ok value => (s', Ok value)
      end
  end.

Definition legacySecretKey : string := "sourcebotSecret".

(** A reference, unless it names another organisation. *)
Definition follow_reference (orgID : Z) (record : list (string * json)) (ref : string) : AM string :=
  match numericOrgID (member "orgId" record) with
  | Some refOrgID => if refOrgID =? orgID then decryptOrgSecret orgID ref
                     else refuse (EText "secret reference belongs to a different org")
  | None => decryptOrgSecret orgID ref
  end.

Definition resolveCredentialValue (orgID : Z) (value : json) : AM string :=
  match value with
  | JNull => fun s => (s, Ok "")
  | JStr t => if TrimSpace t =s "" then fun s => (s, Ok "")
              else refuse (EText "language model credentials must use an org-scoped secretRef")
  | JObj record =>
      let ref := coalesce "" (str_member "secretRef" record) in
      if negb (ref =s "") then follow_reference orgID record ref
      else
        let legacy := coalesce "" (str_member legacySecretKey record) in
        if negb (legacy =s "") then follow_reference orgID record legacy
        else refuse (EText (
          if has_kind record EnvKind
          then "environment secret references are not allowed for tenant language-model credentials"
          else if present (member "atomVcsConnection" record)
          then "Atom VCS token references are not valid for language-model credentials"
          else if present (member "googleCloudSecret" record)
          then "googleCloudSecret model credentials are not supported by the Go MCP runtime yet"
          else "unsupported secret reference"))
  | _ => refuse (EText "secret value must be an org-scoped secret reference")
  end.

Definition resolveConfigStringValue (orgID : Z) (value : json) : AM string :=
  match value with
  | JNull => fun s => (s, Ok "")
  | JStr t => fun s => (s, Ok t)
  | JObj _ => resolveCredentialValue orgID value
  | _ => refuse (EText "secret value must be a string or secret reference")
  end.

(** In the order of the iteration. *)
Fixpoint resolveStringMap (orgID : Z) (entries : list (string * json)) : AM (list (string * string)) := fun s =>
  match entries with
  | [] => (s, Ok [])
  | (key, value) :: rest =>
      match resolveConfigStringValue orgID value s with
      | (s', Err e) => (s', Err (EWrap ("resolve " +:+ key +:+ ": ") e ""))
      | (s', Ok resolved) =>
          match resolveStringMap orgID rest s' with
          | (s'', Err e) => (s'', Err e)
          | (s'', Ok out) => (s'', Ok ((key, resolved) :: out))
          end
      end
  end.

(** ** Requests *)

Inductive Request : Type :=
| ListSecrets
| PutSecret (rand : result gerror (list Z)) (body : Decoded putOrgSecretBody)
| DeleteSecret (rawKey : string)
| ListConnections
| PostConnection (body : Decoded postConnectionBody)
| PatchConnection (id : string) (body : Decoded patchConnectionBody)
| DeleteConnection (id : string)
| ListModels
| PutModels (body : Decoded (option (list json))).

Definition status_of {A} (r : Reply A) : Z := match r with Failed _ status _ => status | Done _ _ => 200 end.

Definition with_status {A} (m : Handler A) : ApiState -> ApiState * Z := fun s => let '(s', r) := m s in (s', status_of r).

(** The handler of a request, and the status of its reply. *)
Definition serve (h : Header) (req : Request) : ApiState -> ApiState * Z :=
  match req with
  | ListSecrets => with_status (handleListOrgSecrets h)
  | PutSecret rand body => with_status (handlePutOrgSecret rand h body)
  | DeleteSecret rawKey => with_status (handleDeleteOrgSecret h rawKey)
  | ListConnections => with_status (handleListOrgConnections h)
  | PostConnection body => with_status (handleUpsertOrgConnection h body)
  | PatchConnection id body => with_status (handlePatchOrgConnection h id body)
  | DeleteConnection id => with_status (handleDeleteOrgConnection h id)
  | ListModels => with_status (handleListOrgLanguageModels h)
  | PutModels body => with_status (handlePutOrgLanguageModels h body)
  end.

(** One request after the other. *)
Definition serve_all (reqs : list (Header * Request)) (s : ApiState) : ApiState :=
  foldl (fun s hr => (serve hr.1 hr.2 s).1) s reqs.
End Handlers.

Arguments Failed {A} status body.
Arguments Done {A} a.
Arguments TooLarge {B}.
Arguments EmptyBody {B}.
Arguments NotJSON {B}.
Arguments Body {B} b.
