(* ===== verification/OrgAPIFacts.v ===== *)
(** What the handlers of secrets, connections and language models promise: they change
    rows of the caller's organisation only, and only for its owners; no configuration
    refers to a secret that does not exist, as long as requests do not overlap; a
    stored secret is read back.  With the concrete organisation on which the theorems
    of Encryption, SecretRefs and OrgAPI are applied. *)
From Stdlib Require Import Ascii.
From S2P Require Import Prelude GoStd GoStdFacts GoJSON GoJSONFacts GoText SubjobCodec RepoTask CoreDB Encryption SecretRefs OrgAPI.
(** ** Relations every run keeps *)

Definition keeps {X} (R : OrgWorld -> OrgWorld -> Prop) (m : ApiState -> ApiState * X) : Prop :=
  forall s s' x, m s = (s', x) -> R s.2 s'.2.

Create HintDb api_keeps.

Section Keeps.
Context (env : nat -> ApiEnv) (R : OrgWorld -> OrgWorld -> Prop) `{!PreOrder R}.
Context (others : forall n w, R w (ae_others (env n) w)).

Lemma keeps_same {X} (f : ApiState -> X) : keeps R (fun s => (s, f s)).
Proof. intros s s' x [= <- <-]. reflexivity. Qed.

Lemma keeps_reply {A} (r : Reply A) : keeps R (reply r).
Proof. apply (keeps_same (fun _ => r)). Qed.

Lemma keeps_refuse {A} e : keeps R (refuse (A := A) e).
Proof. apply (keeps_same (fun _ => Err e)). Qed.

Lemma keeps_api_call {A} (stmt : ApiEnv -> OrgWorld -> result gerror (OrgWorld * A)) :
  (forall ev w w' a, stmt ev w = Ok (w', a) -> R w w') -> keeps R (api_call env stmt).
Proof.
  intros Hs [n w] s' x. unfold api_call. specialize (others n w). destruct (ae_fault _); [by intros [= <- <-]|].
  destruct (stmt _ _) as [[w' a]|e] eqn:E; intros [= <- <-]; cbn; [|done]. etrans; [done|]. by eapply Hs.
Qed.

Lemma keeps_api_read {A} (q : OrgWorld -> result gerror A) : keeps R (api_read env q).
Proof. apply keeps_api_call. intros ev w w' a. destruct (q w); [|done]. by intros [= <- <-]. Qed.

Lemma keeps_on_err {A} f (m : AM A) : keeps R m -> keeps R (on_err f m).
Proof. intros Hm s s' x. unfold on_err. destruct (m s) as [s1 [a|e]] eqn:E; intros [= <- <-]; by eapply Hm. Qed.

Lemma keeps_or_500 {A B} (m : AM B) (k : B -> Handler A) : keeps R m -> (forall b, keeps R (k b)) -> keeps R (or_500 m k).
Proof.
  intros Hm Hk s s' x. unfold or_500. destruct (m s) as [s1 [b|e]] eqn:E.
  - intros H. etrans; [by eapply Hm|]. by eapply Hk.
  - intros [= <- <-]. by eapply Hm.
Qed.

Lemma keeps_then {A X} (m : AM A) (f : result gerror A -> ApiState -> ApiState * X) :
  keeps R m -> (forall r, keeps R (f r)) -> keeps R (fun s => let '(s', r) := m s in f r s').
Proof.
  intros Hm Hf s s' x. destruct (m s) as [s1 r] eqn:E. intros H. etrans; [by eapply Hm|]. by eapply Hf.
Qed.

Lemma keeps_with_body {A B} (d : Decoded B) (k : B -> Handler A) : (forall b, keeps R (k b)) -> keeps R (with_body d k).
Proof. intros Hk. destruct d; [apply keeps_reply..|]. apply Hk. Qed.

Lemma keeps_check_references {A} orgID bound complaint (k : Handler A) :
  keeps R k -> keeps R (check_references env orgID bound complaint k).
Proof.
  intros Hk. unfold check_references. destruct (CollectUnique bound) as [|c cs]; [done|].
  apply keeps_or_500.
  - unfold SelectMissingOrgSecretKeys. destruct (_ <=? _); [apply keeps_refuse|]. apply keeps_on_err, keeps_api_read.
  - intros [|m ms]; [done|apply keeps_reply].
Qed.
End Keeps.

#[export] Hint Resolve keeps_reply keeps_refuse keeps_api_read keeps_on_err keeps_check_references : api_keeps.

(** ** Sequences of statements, alone *)

Definition alone (env : nat -> ApiEnv) : Prop := forall n w, ae_others (env n) w = w.

Section Alone.
Context (env : nat -> ApiEnv) (Halone : alone env).

Lemma api_read_alone {A} (q : OrgWorld -> result gerror A) s s' x :
  api_read env q s = (s', x) -> s'.2 = s.2 /\ forall a, x = Ok a -> q s.2 = Ok a.
Proof.
  destruct s as [n w]. unfold api_read, api_call. rewrite Halone.
  destruct (ae_fault _); [by intros [= <- <-]|]. destruct (q w) eqn:E; intros [= <- <-]; cbn; naive_solver.
Qed.

Lemma api_call_alone {A} (stmt : ApiEnv -> OrgWorld -> result gerror (OrgWorld * A)) s s' x :
  api_call env stmt s = (s', x) ->
  match x with Ok a => exists ev, stmt ev s.2 = Ok (s'.2, a) | Err _ => s'.2 = s.2 end.
Proof.
  destruct s as [n w]. unfold api_call. rewrite Halone. destruct (ae_fault _); [by intros [= <- <-]|].
  destruct (stmt _ _) as [[w' a]|e] eqn:E; intros [= <- <-]; cbn; eauto.
Qed.

Lemma on_err_Ok {A} f (m : AM A) s s' a : on_err f m s = (s', Ok a) -> m s = (s', Ok a).
Proof. unfold on_err. destruct (m s) as [s1 [b|e]]; [done|]. done. Qed.

Lemma on_err_state {A} f (m : AM A) s s' x : on_err f m s = (s', x) -> exists y, m s = (s', y).
Proof. unfold on_err. destruct (m s) as [s1 [b|e]]; intros [= <- <-]; eauto. Qed.

(** A read behind its argument checks. *)
Lemma on_err_read_alone {A} f (q : OrgWorld -> result gerror A) s s' x :
  on_err f (api_read env q) s = (s', x) -> s'.2 = s.2 /\ forall a, x = Ok a -> q s.2 = Ok a.
Proof.
  intros H. destruct (on_err_state _ _ _ _ _ H) as [y Hy]. apply api_read_alone in Hy as Hr. split; [apply Hr|].
  intros a ->. apply on_err_Ok in H. rewrite Hy in H. simplify_eq. by apply Hr.
Qed.
End Alone.

(** ** Who calls *)

(** Nothing but the time of the last use of a key. *)
Definition touched (w w' : OrgWorld) : Prop :=
  w' = w \/ exists hash now, w' = set_keys (alter (touch_key now) hash) w.

(** The key in the headers is a key of the organisation, made by a member of it. *)
Definition authenticated (cfg : ServerConfig) (h : Header) (w : OrgWorld) (a : AuthContext) : Prop :=
  exists secret ak, ParseApiKey (extractApiKey h) = Ok secret
  /\ ow_keys w !! HashSecret (cfg_EncryptionKey cfg) secret = Some ak
  /\ org_ID (ac_Org a) = ak_orgId ak /\ ac_UserID a = ak_createdById ak
  /\ ac_Role a = coalesce "GUEST" (ow_members w !! (ak_orgId ak, ak_createdById ak)) /\ ac_Role a <> OrgRoleGuest.

Section Auth.
Context (env : nat -> ApiEnv) (cfg : ServerConfig) (Halone : alone env).

Lemma lookup_alone hash s s' x : GetApiKeyAuth env hash s = (s', x) ->
  s'.2 = s.2 /\ forall lk, x = Ok lk -> auth_rows hash s.2 = Ok lk.
Proof.
  unfold GetApiKeyAuth. destruct (hash =s ""); [by intros [= <- <-]|]. apply on_err_read_alone, Halone.
Qed.

Lemma touch_alone hash s s' x : UpdateApiKeyLastUsedAt env hash s = (s', x) -> touched s.2 s'.2.
Proof.
  unfold UpdateApiKeyLastUsedAt. destruct (hash =s ""); [intros [= <- <-]; by left|].
  intros [y H]%on_err_state. apply api_call_alone in H; [|done].
  destruct y as [[]|e]; [|by left]. destruct H as [ev [= <-]]. right. eauto.
Qed.

Lemma auth_rows_spec hash w lk : auth_rows hash w = Ok lk ->
  exists ak, ow_keys w !! hash = Some ak /\ org_ID (lk_Org lk) = ak_orgId ak /\ lk_UserID lk = ak_createdById ak
  /\ lk_Role lk = coalesce "GUEST" (ow_members w !! (ak_orgId ak, ak_createdById ak)).
Proof.
  unfold auth_rows. destruct (ow_keys w !! hash) as [ak|]; [|done].
  destruct (ow_orgs w !! ak_orgId ak) as [o|], (ow_users w !! ak_createdById ak) as [u|]; try done. intros [= <-]. exists ak. done.
Qed.

Lemma resolve_alone h s s' x : ResolveFromHeaders env cfg h s = (s', x) ->
  touched s.2 s'.2 /\ forall a, x = Ok a -> authenticated cfg h s.2 a.
Proof.
  unfold ResolveFromHeaders, Resolve.
  destruct (extractApiKey h =s ""); [intros [= <- <-]; split; [by left|done]|].
  destruct (ParseApiKey (extractApiKey h)) as [secret|] eqn:Ep; [|intros [= <- <-]; split; [by left|done]].
  destruct (GetApiKeyAuth _ _ s) as [s1 [lk|e]] eqn:Eg; apply lookup_alone in Eg as [E1 Hlk];
    [|intros [= <- <-]; rewrite E1; split; [by left|done]].
  destruct (lk_Role lk =s OrgRoleGuest) eqn:Er; [intros [= <- <-]; rewrite E1; split; [by left|done]|].
  destruct (UpdateApiKeyLastUsedAt _ _ s1) as [s2 [[]|e]] eqn:Eu; apply touch_alone in Eu; rewrite E1 in Eu;
    intros [= <- <-]; split; try done. intros a [= <-].
  destruct (auth_rows_spec _ _ _ (Hlk lk eq_refl)) as (ak & K1 & K2 & K3 & K4). exists secret, ak.
  apply str_eqb_false in Er. done.
Qed.

(** A handler for owners refuses, or runs for an owner. *)
Lemma for_owner_alone {A} h msg (k : AuthContext -> Handler A) s s' r : for_owner env cfg h msg k s = (s', r) ->
  (touched s.2 s'.2 /\ status_of r <> 200)
  \/ exists a s1, touched s.2 s1.2 /\ authenticated cfg h s.2 a /\ ac_Role a = OrgRoleOwner /\ k a s1 = (s', r).
Proof.
  unfold for_owner. destruct (ResolveFromHeaders _ _ h s) as [s1 [a|e]] eqn:E; apply resolve_alone in E as [Ht Ha].
  - destruct (ac_Role a =s OrgRoleOwner) eqn:Er; cbn [negb].
    + intros H. right. exists a, s1. apply str_eqb_spec in Er. eauto.
    + intros [= <- <-]. left. split; [done|]. cbn. lia.
  - intros [= <- <-]. left. split; [done|]. unfold auth_reply. destruct (isAuthFailure e); cbn; lia.
Qed.

Lemma optional_alone h s s' x : ResolveOptionalFromHeaders env cfg h s = (s', x) -> touched s.2 s'.2.
Proof.
  unfold ResolveOptionalFromHeaders. destruct (negb _); [by intros [? _]%resolve_alone|].
  destruct (_ <=? 0) eqn:Ez; [intros [= <- <-]; by left|].
  unfold GetOrgWithMetadata. rewrite Ez.
  destruct (on_err _ _ s) as [s1 [o|e]] eqn:E; apply on_err_read_alone in E as [E _]; try done.
  - destruct (ParseOrgMetadata _) as [m|]; [destruct (AnonymousAccessEnabled m)|]; intros [= <- <-]; by left.
  - intros [= <- <-]. by left.
Qed.
End Auth.

(** ** Changes within one organisation *)

Definition other_models (O : Z) (w : OrgWorld) : list ModelRow := List.filter (fun r => negb (mr_orgId r =? O)) (ow_models w).

Record scoped (O : Z) (w w' : OrgWorld) : Prop := {
  sc_orgs : ow_orgs w' = ow_orgs w;
  sc_users : ow_users w' = ow_users w;
  sc_members : ow_members w' = ow_members w;
  sc_keys : forall hash, (fun k => (ak_orgId k, ak_createdById k)) <$> ow_keys w' !! hash
                         = (fun k => (ak_orgId k, ak_createdById k)) <$> ow_keys w !! hash;
  sc_secrets : forall o key, o <> O -> ow_secrets w' !! (o, key) = ow_secrets w !! (o, key);
  sc_connections : forall id c, cr_orgId c <> O -> ow_connections w' !! id = Some c <-> ow_connections w !! id = Some c;
  sc_models : other_models O w' = other_models O w;
  sc_audit : exists evs, ow_audit w' = ow_audit w ++ evs /\ Forall (fun e => ev_OrgID e = O) evs
}.

#[global] Instance scoped_preorder O : PreOrder (scoped O).
Proof.
  split.
  - intros w. split; try done. exists []. split; [by rewrite app_nil_r|constructor].
  - intros w1 w2 w3 [A1 A2 A3 A4 A5 A6 A7 (e1 & A8 & A9)] [B1 B2 B3 B4 B5 B6 B7 (e2 & B8 & B9)].
    split; [congruence..| | | |congruence|].
    + intros hash. by rewrite B4, A4.
    + intros o key Ho. by rewrite B5, A5.
    + intros id c Hc. by rewrite B6, A6.
    + exists (e1 ++ e2). rewrite B8, A8, app_assoc. split; [done|]. by apply Forall_app.
Qed.

Lemma touched_scoped O w w' : touched w w' -> scoped O w w'.
Proof.
  intros [->|(hash & now & ->)]; [reflexivity|]. split; try done.
  - intros hash'. cbn. destruct (decide (hash' = hash)) as [->|Hn].
    + rewrite lookup_alter_eq. by destruct (ow_keys w !! hash).
    + by rewrite lookup_alter_ne.
  - exists []. split; [by rewrite app_nil_r|constructor].
Qed.

Lemma scoped_secrets O f w : (forall o key, o <> O -> f (ow_secrets w) !! (o, key) = ow_secrets w !! (o, key)) ->
  scoped O w (set_secrets f w).
Proof. intros H. split; try done. exists []. split; [by rewrite app_nil_r|constructor]. Qed.

Lemma scoped_connections O f w :
  (forall id c, cr_orgId c <> O -> f (ow_connections w) !! id = Some c <-> ow_connections w !! id = Some c) ->
  scoped O w (set_connections f w).
Proof. intros H. split; try done. exists []. split; [by rewrite app_nil_r|constructor]. Qed.

Lemma scoped_models O f w : List.filter (fun r => negb (mr_orgId r =? O)) (f (ow_models w)) = other_models O w ->
  scoped O w (set_models f w).
Proof. intros H. split; try done. exists []. split; [by rewrite app_nil_r|constructor]. Qed.

(** A row of the organisation in the place of another of it, or in a free place. *)
Lemma insert_scoped O id c (m : gmap Z ConnectionRow) :
  cr_orgId c = O -> (forall c0, m !! id = Some c0 -> cr_orgId c0 = O) ->
  forall id' c', cr_orgId c' <> O -> <[id := c]> m !! id' = Some c' <-> m !! id' = Some c'.
Proof.
  intros Hc Hm id' c' Hn. rewrite lookup_insert. case_decide as E; [subst id'|done]. split.
  - by intros [= <-].
  - intros E. by specialize (Hm _ E).
Qed.

Lemma named_connection_spec O name w id c : named_connection O name w = Some (id, c) ->
  ow_connections w !! id = Some c /\ cr_orgId c = O /\ cr_name c = name.
Proof.
  intros [H1 H2]%find_some. cbn in H2. apply str_eqb_spec in H2. unfold org_connections in H1.
  apply filter_In in H1 as [H1 H3]. cbn in H3. apply list_elem_of_In, elem_of_map_to_list in H1. split_and!; [done|lia|done].
Qed.

Section Scoped.
Context (env : nat -> ApiEnv) (cfg : ServerConfig) (Schedule : Z -> Z -> result gerror bool) (O : Z).
Context (others : forall n w, scoped O w (ae_others (env n) w)).

Lemma upsert_secret_scoped key value iv : keeps (scoped O) (UpsertOrgSecret env O key value iv).
Proof using others.
  unfold UpsertOrgSecret. repeat case_match; try apply keeps_refuse, _. apply keeps_on_err, keeps_api_call; [apply _|done|].
  intros ev w w' a [= <- <-]. apply scoped_secrets. intros o k Ho. apply lookup_insert_ne. congruence.
Qed.

Lemma delete_secret_scoped key : keeps (scoped O) (DeleteOrgSecret env O key).
Proof using others.
  unfold DeleteOrgSecret. repeat case_match; try apply keeps_refuse, _. apply keeps_on_err, keeps_api_call; [apply _|done|].
  intros ev w w' a [= <- <-]. apply scoped_secrets. intros o k Ho. apply lookup_delete_ne. congruence.
Qed.

Lemma upsert_connection_scoped p : up_OrgID p = O -> keeps (scoped O) (UpsertOrgConnection env p).
Proof using others.
  intros Hp. unfold UpsertOrgConnection. repeat case_match; try apply keeps_refuse, _.
  apply keeps_on_err, keeps_api_call; [apply _|done|]. intros ev w w' a. unfold upsert_connection.
  destruct (named_connection _ _ w) as [[id old]|] eqn:E.
  - intros [= <- <-]. apply named_connection_spec in E as (E1 & E2 & _). apply scoped_connections, insert_scoped; [done|].
    intros c0 Hc0. rewrite E1 in Hc0. by simplify_eq.
  - destruct (ow_connections w !! ae_id ev) eqn:F; [done|]. intros [= <- <-].
    apply scoped_connections, insert_scoped; [done|]. intros c0 Hc0. congruence.
Qed.

Lemma delete_connection_scoped id : keeps (scoped O) (DeleteOrgConnection env O id).
Proof using others.
  intros s s' x. unfold DeleteOrgConnection. repeat (case_match; [intros [= <- <-]; reflexivity|]).
  match goal with |- context [api_call env ?st s] => set (stmt := st) end.
  assert (keeps (scoped O) (api_call env stmt)) as Hk.
  { apply keeps_api_call; [apply _|done|]. intros ev w w' a. unfold stmt.
    destruct (ow_connections w !! id) as [c|] eqn:E; [|by intros [= <- <-]].
    destruct (cr_orgId c =? O) eqn:Eo; intros [= <- <-]; [|reflexivity].
    apply scoped_connections. intros id' c' Hc'. rewrite lookup_delete. case_decide as Ed; [subst id'|done].
    split; [done|]. rewrite E. intros [= ->]. lia. }
  destruct (api_call env stmt s) as [s1 y] eqn:E. apply Hk in E. destruct y as [[]|e]; by intros [= <- <-].
Qed.

Lemma insert_models_scoped ev models : forall i l l', insert_models ev O i models l = Ok l' ->
  List.filter (fun r => negb (mr_orgId r =? O)) l' = List.filter (fun r => negb (mr_orgId r =? O)) l.
Proof.
  induction models as [|m models IH]; intros i l l'; cbn [insert_models]; [by intros [= <-]|].
  destruct (ae_step_fault _ _); [done|]. destruct (model_exists _ _ _); [done|]. intros H%IH. rewrite H.
  rewrite List.filter_app. cbn. rewrite Z.eqb_refl. cbn. apply app_nil_r.
Qed.

Lemma filter_filter_same {A} (f : A -> bool) l : List.filter f (List.filter f l) = List.filter f l.
Proof. induction l as [|x l IH]; [done|]. cbn. destruct (f x) eqn:E; cbn; rewrite ?E; by rewrite ?IH. Qed.

Lemma replace_models_scoped models : keeps (scoped O) (ReplaceOrgLanguageModels env O models).
Proof using others.
  unfold ReplaceOrgLanguageModels. destruct (O <=? 0); [apply keeps_refuse, _|]. intros [n w] s' x.
  specialize (others n w). cbn [snd].
  destruct (ae_fault _); [by intros [= <- <-]|]. destruct (ae_step_fault _ 0); [by intros [= <- <-]|].
  destruct (insert_models _ _ _ _ _) as [l|e] eqn:E; [|by intros [= <- <-]].
  destruct (ae_step_fault _ _); intros [= <- <-]; [done|]. cbn. etrans; [done|].
  apply insert_models_scoped in E. apply scoped_models. rewrite E. apply filter_filter_same.
Qed.

Lemma audit_scoped {A} a action target (r : Reply A) : org_ID (ac_Org a) = O ->
  keeps (scoped O) (emitAudit a action target r).
Proof.
  intros Ha s s' x. unfold emitAudit. destruct (auditActor a) as [i t]. intros [= <- <-]. split; try done.
  eexists. split; [done|]. by constructor.
Qed.

Lemma after_upsert_scoped a action sync row : org_ID (ac_Org a) = O ->
  keeps (scoped O) (after_upsert Schedule a action sync row).
Proof.
  intros Ha. unfold after_upsert. repeat case_match; try apply keeps_reply, _; by apply audit_scoped.
Qed.

Lemma patch_write_scoped a p : org_ID (ac_Org a) = O -> up_OrgID p = O -> keeps (scoped O) (patch_write env Schedule a p).
Proof using others.
  intros Ha Hp s s' x. unfold patch_write. destruct (UpsertOrgConnection env p s) as [s1 y] eqn:E.
  apply (upsert_connection_scoped p Hp) in E. destruct y as [row|e]; [|by intros [= <- <-]].
  intros H. etrans; [done|]. by eapply after_upsert_scoped.
Qed.

Lemma patch_config_scoped a existing name b : org_ID (ac_Org a) = O ->
  keeps (scoped O) (patch_config env Schedule a existing name b).
Proof using others.
  intros Ha. unfold patch_config.
  destruct (pa_Config b) as [| | | | |m]; try (by apply patch_write_scoped);
    (destruct (BindToOrg _ _) as [| | | | |cfgMap]; try apply keeps_reply, _);
    (case_match; [apply keeps_reply, _|]);
    (apply keeps_check_references; [apply _|done|]; by apply patch_write_scoped).
Qed.

Lemma name_check_scoped name id : keeps (scoped O) (CheckOrgConnectionNameAvailable env O name id).
Proof using others.
  intros s s' x. unfold CheckOrgConnectionNameAvailable. repeat (case_match; [intros [= <- <-]; reflexivity|]).
  destruct (api_read env _ s) as [s1 y] eqn:E. apply (keeps_api_read env (scoped O) others) in E.
  destruct y as [[]|e]; [by intros [= <- <-]|]. by destruct (is_err _ _); intros [= <- <-].
Qed.

Lemma patch_name_scoped a id existing b : org_ID (ac_Org a) = O ->
  keeps (scoped O) (patch_name env Schedule a id existing b).
Proof using others.
  intros Ha. unfold patch_name. destruct (pa_Name b) as [name|]; [|by apply patch_config_scoped].
  destruct (name =s ""); [apply keeps_reply, _|]. destruct (name =s cr_name existing); [by apply patch_config_scoped|].
  intros s s' x. destruct (CheckOrgConnectionNameAvailable _ _ _ _ s) as [s1 y] eqn:E. rewrite Ha in E.
  apply name_check_scoped in E. destruct y as [[]|e]; [|by intros [= <- <-]].
  intros H. etrans; [done|]. by eapply patch_config_scoped.
Qed.

Lemma list_read_scoped {A} (b : bool) e f (q : OrgWorld -> result gerror A) :
  keeps (scoped O) (if b then refuse e else on_err f (api_read env q)).
Proof using others. destruct b; [apply keeps_refuse, _|]. apply keeps_on_err, keeps_api_read; [apply _|done]. Qed.
End Scoped.

(** Either nothing happened but the use of a key, and the request was not served, or the
    caller is an owner of an organisation and the change is within it. *)
Definition confined (cfg : ServerConfig) (h : Header) (served : Prop) (w w' : OrgWorld) : Prop :=
  (touched w w' /\ ~ served)
  \/ exists a, authenticated cfg h w a /\ ac_Role a = OrgRoleOwner /\ scoped (org_ID (ac_Org a)) w w'.

Section ServeScoped.
Context (env : nat -> ApiEnv) (cfg : ServerConfig) (Schedule : Z -> Z -> result gerror bool) (Halone : alone env).

Lemma alone_scoped O : forall n w, scoped O w (ae_others (env n) w).
Proof using Halone. intros n w. by rewrite Halone. Qed.

(** A handler for owners whose work stays within the organisation. *)
Lemma for_owner_scoped {A} h msg (k : AuthContext -> Handler A) s s' r :
  (forall a, keeps (scoped (org_ID (ac_Org a))) (k a)) -> for_owner env cfg h msg k s = (s', r) ->
  confined cfg h (status_of r = 200) s.2 s'.2.
Proof using Halone.
  intros Hk H. apply (for_owner_alone env cfg Halone) in H as [H|(a & s1 & H1 & H2 & H3 & H4)]; [by left|].
  right. exists a. split_and!; [done..|]. etrans; [by apply touched_scoped|]. by eapply Hk.
Qed.

Ltac work_scoped :=
  repeat first
    [ apply keeps_reply, _
    | apply keeps_with_body; [apply _|intros ?]
    | apply keeps_check_references; [apply _|apply alone_scoped|]
    | apply keeps_or_500; [apply _| |intros ?]
    | apply list_read_scoped, alone_scoped
    | apply upsert_secret_scoped, alone_scoped
    | apply delete_secret_scoped, alone_scoped
    | apply replace_models_scoped, alone_scoped
    | apply upsert_connection_scoped; [apply alone_scoped|done]
    | apply after_upsert_scoped; done
    | progress cbn zeta
    | case_match ].

Lemma patch_scoped a id b : keeps (scoped (org_ID (ac_Org a))) (fun s =>
    match GetOrgConnectionForUpdate env (org_ID (ac_Org a)) id s with
    | (s', Err e) => (s', if is_err ErrConnectionNotFound e then not_found else unexpected)
    | (s', Ok existing) => patch_name env Schedule a id existing b s'
    end).
Proof using Halone.
  intros s s' x. destruct (GetOrgConnectionForUpdate _ _ _ s) as [s1 y] eqn:E.
  assert (keeps (scoped (org_ID (ac_Org a))) (GetOrgConnectionForUpdate env (org_ID (ac_Org a)) id)) as Hk.
  { unfold GetOrgConnectionForUpdate. destruct (_ <=? 0); [apply keeps_refuse, _|]. apply list_read_scoped, alone_scoped. }
  apply Hk in E. destruct y as [existing|e]; [|by intros [= <- <-]]. intros H. etrans; [done|].
  eapply patch_name_scoped; [apply alone_scoped|done|done].
Qed.

Lemma delete_scoped a id : keeps (scoped (org_ID (ac_Org a))) (fun s =>
    match DeleteOrgConnection env (org_ID (ac_Org a)) id s with
    | (s', Err e) => (s', if is_err ErrConnectionNotFound e then not_found else unexpected)
    | (s', Ok _) => emitAudit a "connection.deleted" (Itoa id) (Done tt) s'
    end).
Proof using Halone.
  intros s s' x. destruct (DeleteOrgConnection _ _ _ s) as [s1 y] eqn:E.
  apply (delete_connection_scoped _ _ (alone_scoped _)) in E. destruct y as [[]|e]; [|by intros [= <- <-]].
  intros H. etrans; [done|]. by eapply audit_scoped.
Qed.

(** C35: a request changes rows of the caller's organisation only, and only an owner's
    request changes any.  Run alone, with any faults: unless the headers carry a key
    whose hash is in the table, made by a user who is an owner of the key's
    organisation, the tables stay as they are, but for the last use of a key, and the
    request is not served, the listing of models excepted, which others may see.
    Otherwise no secret, connection, language model or audit record of another
    organisation is added, changed or removed. *)
Theorem requests_confined h req s s' status : serve env cfg Schedule h req s = (s', status) ->
  req = ListModels /\ touched s.2 s'.2 \/ confined cfg h (status = 200) s.2 s'.2.
Proof using Halone.
  destruct req as [|rand body|rawKey| |body|id body|id| |body]; cbn [serve]; unfold with_status;
    match goal with |- context [let '(_, _) := ?m in _] => destruct m as [s1 r] eqn:E end; intros [= <- <-].
  8:{ left. split; [done|]. unfold handleListOrgLanguageModels in E.
      destruct (ResolveOptionalFromHeaders _ _ h s) as [s2 x] eqn:E2. apply optional_alone in E2 as Ht; [|done].
      destruct x as [a|e]; [|by simplify_eq]. unfold or_500, ListEnabledOrgLanguageModels in E.
      destruct (_ <=? 0); [by simplify_eq/=|].
      destruct (on_err _ _ s2) as [s3 y] eqn:E3. apply on_err_read_alone in E3 as [E3 _]; [|done].
      rewrite <- E3 in Ht. destruct y; [unfold reply in E|]; injection E as <- <-; done. }
  all: right; eapply for_owner_scoped; [|exact E]; intros a; work_scoped.
  - apply patch_scoped.
  - apply delete_scoped.
Qed.
End ServeScoped.

(** ** References to secrets *)

(** The secrets that [v] refers to exist in the organisation. *)
Definition resolves (w : OrgWorld) (org : Z) (v : json) : Prop :=
  forall key, mentions key v -> is_Some (ow_secrets w !! (org, key)).

Record refs_resolve (w : OrgWorld) : Prop := {
  rr_connections : forall id c, ow_connections w !! id = Some c -> resolves w (cr_orgId c) (cr_config c);
  rr_models : forall r, r ∈ ow_models w -> resolves w (mr_orgId r) (mr_config r)
}.

Definition keeps_refs (w w' : OrgWorld) : Prop := refs_resolve w -> refs_resolve w'.

#[global] Instance keeps_refs_preorder : PreOrder keeps_refs.
Proof. split; [by intros w H|]. intros w1 w2 w3 H1 H2 H. auto. Qed.

(** A step that adds no configuration and takes no secret away. *)
Lemma refs_same w w' : (forall o k, is_Some (ow_secrets w !! (o, k)) -> is_Some (ow_secrets w' !! (o, k))) ->
  (forall id c, ow_connections w' !! id = Some c -> ow_connections w !! id = Some c) -> ow_models w' = ow_models w ->
  keeps_refs w w'.
Proof.
  intros Hs Hc Hm [H1 H2]. split.
  - intros id c E key Hk. apply Hs. eapply H1; eauto.
  - intros r. rewrite Hm. intros E key Hk. apply Hs. eapply H2; eauto.
Qed.

Lemma touched_refs w w' : touched w w' -> keeps_refs w w'.
Proof. intros [->|(hash & now & ->)]; [reflexivity|]. by apply refs_same. Qed.

Section Refs.
Context (env : nat -> ApiEnv) (cfg : ServerConfig) (Schedule : Z -> Z -> result gerror bool) (Halone : alone env).

Lemma alone_refs : forall n w, keeps_refs w (ae_others (env n) w).
Proof using Halone. intros n w. by rewrite Halone. Qed.

Lemma audit_refs {A} a action target (r : Reply A) : keeps keeps_refs (emitAudit a action target r).
Proof. intros s s' x. unfold emitAudit. destruct (auditActor a). intros [= <- <-]. by apply refs_same. Qed.

Lemma after_upsert_refs a action sync row : keeps keeps_refs (after_upsert Schedule a action sync row).
Proof. unfold after_upsert. repeat case_match; try apply keeps_reply, _; apply audit_refs. Qed.

Lemma upsert_secret_refs org key value iv : keeps keeps_refs (UpsertOrgSecret env org key value iv).
Proof using Halone.
  unfold UpsertOrgSecret. repeat case_match; try apply keeps_refuse, _.
  apply keeps_on_err, keeps_api_call; [apply _|apply alone_refs|].
  intros ev w w' a [= <- <-]. apply refs_same; [|done..]. intros o k Hk. cbn. rewrite lookup_insert. by case_decide.
Qed.

(** The check of the references lets a configuration through that resolves. *)
Lemma check_alone {A} org bound complaint (k : Handler A) s s' r :
  check_references env org bound complaint k s = (s', r) ->
  s'.2 = s.2 \/ exists s1, s1.2 = s.2 /\ resolves s.2 org bound /\ k s1 = (s', r).
Proof using Halone.
  unfold check_references. destruct (CollectUnique bound) as [|c cs] eqn:Ec.
  { intros H. right. exists s. split_and!; [done| |done]. intros key Hk%CollectUnique_spec. rewrite Ec in Hk.
    by apply elem_of_nil in Hk. }
  unfold or_500, SelectMissingOrgSecretKeys. destruct (org <=? 0); [intros [= <- <-]; by left|].
  destruct (on_err _ _ s) as [s1 x] eqn:E. apply on_err_read_alone in E as [E1 E2]; [|done].
  destruct x as [missing|e]; [|intros [= <- <-]; by left]. specialize (E2 _ eq_refl). injection E2 as E2.
  destruct missing as [|m ms]; [|intros [= <- <-]; by left]. intros H. right. exists s1. split_and!; [done| |done].
  intros key Hk%CollectUnique_spec. rewrite Ec in Hk. destruct (ow_secrets s.2 !! (org, key)) eqn:F; [done|].
  exfalso. assert (key ∈ missing_keys org (c :: cs) s.2) as Hin.
  { unfold missing_keys. apply elem_of_List_filter. by rewrite F. }
  change (missing_keys org (c :: cs) s.2 = []) in E2. rewrite E2 in Hin. by apply elem_of_nil in Hin.
Qed.

Lemma upsert_connection_refs p s s' x : UpsertOrgConnection env p s = (s', x) ->
  resolves s.2 (up_OrgID p) (up_Config p) -> keeps_refs s.2 s'.2.
Proof using Halone.
  unfold UpsertOrgConnection. repeat (case_match; [intros [= <- <-] _; reflexivity|]).
  intros [y Hy]%on_err_state Hr [R1 R2]. apply api_call_alone in Hy; [|done].
  destruct y as [row|e]; [|by rewrite Hy]. destruct Hy as [ev Hy]. unfold upsert_connection in Hy.
  destruct (named_connection _ _ _) as [[id old]|] eqn:E.
  - injection Hy as Hy _. rewrite <- Hy. split; [|done]. intros id' c. cbn. rewrite lookup_insert. case_decide; [|apply R1].
    intros [= <-]. exact Hr.
  - destruct (ow_connections _ !! ae_id ev) eqn:F; [done|]. injection Hy as Hy _. rewrite <- Hy. split; [|done].
    intros id' c. cbn. rewrite lookup_insert. case_decide; [|apply R1]. intros [= <-]. exact Hr.
Qed.

Lemma patch_write_refs a p s s' r : patch_write env Schedule a p s = (s', r) ->
  resolves s.2 (up_OrgID p) (up_Config p) -> keeps_refs s.2 s'.2.
Proof using Halone.
  unfold patch_write. destruct (UpsertOrgConnection env p s) as [s1 x] eqn:E. intros H Hr.
  pose proof (upsert_connection_refs _ _ _ _ E Hr) as Hk. destruct x as [row|e]; [|by injection H as <- <-].
  etrans; [done|]. by eapply after_upsert_refs.
Qed.

Lemma patch_config_refs a existing name b s s' r : patch_config env Schedule a existing name b s = (s', r) ->
  resolves s.2 (org_ID (ac_Org a)) (cr_config existing) -> keeps_refs s.2 s'.2.
Proof using Halone.
  intros H He. unfold patch_config in H.
  destruct (pa_Config b) as [| | | | |m]; [by eapply patch_write_refs|..];
    (destruct (BindToOrg _ _) as [| | | | |cfgMap] eqn:Eb; try (injection H as <- <-; reflexivity));
    (destruct (coalesce "" _ =s ""); [injection H as <- <-; reflexivity|]);
    apply check_alone in H as [->|(s1 & E1 & Hr & H)]; try reflexivity;
    rewrite <- E1; (eapply patch_write_refs; [exact H|]); rewrite E1; exact Hr.
Qed.

Lemma name_check_alone org name id s s' x : CheckOrgConnectionNameAvailable env org name id s = (s', x) -> s'.2 = s.2.
Proof using Halone.
  unfold CheckOrgConnectionNameAvailable. repeat (case_match; [by intros [= <- <-]|]).
  destruct (api_read env _ s) as [s1 y] eqn:E. apply api_read_alone in E as [E _]; [|done].
  destruct y as [[]|e]; [by intros [= <- <-]|]. by destruct (is_err _ _); intros [= <- <-].
Qed.

Lemma patch_name_refs a id existing b s s' r : patch_name env Schedule a id existing b s = (s', r) ->
  resolves s.2 (org_ID (ac_Org a)) (cr_config existing) -> keeps_refs s.2 s'.2.
Proof using Halone.
  intros H He. unfold patch_name in H. destruct (pa_Name b) as [name|]; [|by eapply patch_config_refs].
  destruct (name =s ""); [injection H as <- <-; reflexivity|].
  destruct (name =s cr_name existing); [by eapply patch_config_refs|].
  destruct (CheckOrgConnectionNameAvailable _ _ _ _ s) as [s1 y] eqn:E. apply name_check_alone in E.
  destruct y as [[]|e]; [|injection H as <- <-; rewrite E; reflexivity].
  rewrite <- E. eapply patch_config_refs; [exact H|]. by rewrite E.
Qed.

Lemma get_connection_alone org id s s' x : GetOrgConnectionForUpdate env org id s = (s', x) ->
  s'.2 = s.2 /\ forall c, x = Ok c -> ow_connections s.2 !! id = Some c /\ cr_orgId c = org.
Proof using Halone.
  unfold GetOrgConnectionForUpdate. repeat (case_match; [by intros [= <- <-]|]).
  intros E. apply on_err_read_alone in E as [E1 E2]; [|done]. split; [done|]. intros c ->. specialize (E2 _ eq_refl). cbn in E2.
  destruct (ow_connections s.2 !! id) as [c'|]; [|done]. destruct (cr_orgId c' =? org) eqn:Eo; [|done].
  injection E2 as ->. split; [done|lia].
Qed.

(** A row of connections the deletion's refcheck did not see mention the key does not. *)
Lemma uses_none key label owners : uses_of key label owners = [] ->
  forall name v, (name, v) ∈ owners -> ~ mentions key v.
Proof.
  unfold uses_of. intros H name v Hin Hm. apply map_eq_nil in H.
  assert ((name, v) ∈ List.filter (fun o : string * json => Contains o.2 key) owners) as Hf.
  { apply elem_of_List_filter. split; [done|]. by apply refs_Contains_spec. }
  unfold ConfigOwner in *. rewrite H in Hf. by apply elem_of_nil in Hf.
Qed.

Lemma delete_secret_refs org key s s' x : DeleteOrgSecret env org key s = (s', x) ->
  (forall id c, ow_connections s.2 !! id = Some c -> cr_orgId c = org -> ~ mentions key (cr_config c)) ->
  (forall r, r ∈ ow_models s.2 -> mr_orgId r = org -> ~ mentions key (mr_config r)) -> keeps_refs s.2 s'.2.
Proof using Halone.
  unfold DeleteOrgSecret. repeat (case_match; [intros [= <- <-] _ _; reflexivity|]).
  intros [y Hy]%on_err_state Hc Hm [R1 R2]. apply api_call_alone in Hy; [|done].
  destruct y as [row|e]; [|by rewrite Hy]. destruct Hy as [ev [= Hy]]. rewrite <- Hy. split.
  - intros id c Hid k Hk. cbn in *. rewrite lookup_delete. case_decide as E; [|by eapply R1].
    injection E as -> ->. by edestruct Hc.
  - intros r Hr k Hk. cbn in *. rewrite lookup_delete. case_decide as E; [|by eapply R2].
    injection E as -> ->. by edestruct Hm.
Qed.

Lemma delete_handler_refs a key s s' r :
  or_500 (ListOrgConnectionsForRefcheck env (org_ID (ac_Org a))) (fun conns =>
  or_500 (ListOrgLanguageModelsForRefcheck env (org_ID (ac_Org a))) (fun models =>
    match uses_of key "connection:" conns ++ uses_of key "model:" models with
    | [] => or_500 (DeleteOrgSecret env (org_ID (ac_Org a)) key) (fun _ => reply (Done key))
    | uses => reply (invalid_body ("Secret '" +:+ key +:+ "' is still referenced by " +:+ Join uses ", " +:+ "."))
    end)) s = (s', r) -> keeps_refs s.2 s'.2.
Proof using Halone.
  unfold or_500, ListOrgConnectionsForRefcheck, ListOrgLanguageModelsForRefcheck.
  destruct (_ <=? 0); [by intros [= <- <-]|].
  destruct (on_err _ _ s) as [s1 x1] eqn:E1. apply on_err_read_alone in E1 as [W1 Q1]; [|done].
  destruct x1 as [conns|]; [|intros [= <- <-]; by rewrite W1]. specialize (Q1 _ eq_refl). injection Q1 as Q1.
  destruct (on_err _ _ s1) as [s2 x2] eqn:E2. apply on_err_read_alone in E2 as [W2 Q2]; [|done].
  destruct x2 as [models|]; [|intros [= <- <-]; by rewrite W2, W1]. specialize (Q2 _ eq_refl). injection Q2 as Q2.
  destruct (uses_of _ _ _ ++ _) eqn:Eu; [|intros [= <- <-]; by rewrite W2, W1].
  apply app_eq_nil in Eu as [U1 U2].
  destruct (DeleteOrgSecret _ _ _ s2) as [s3 x3] eqn:E3. intros H. assert (s3 = s') as -> by (by destruct x3; injection H).
  rewrite <- W1, <- W2. eapply delete_secret_refs; [exact E3|..].
  - intros id c Hid Ho. eapply (uses_none _ _ _ U1 (cr_name c)). rewrite <- Q1. apply list_elem_of_fmap. exists (id, c).
    split; [done|]. unfold org_connections. apply elem_of_List_filter. rewrite elem_of_map_to_list. cbn.
    rewrite <- W1, <- W2. split; [done|lia].
  - intros m Hm Ho. eapply (uses_none _ _ _ U2 (mr_name m)). rewrite <- Q2. apply list_elem_of_fmap. exists m.
    split; [done|]. apply elem_of_List_filter. rewrite <- W2. split; [done|lia].
Qed.

Lemma delete_connection_refs org id : keeps keeps_refs (DeleteOrgConnection env org id).
Proof using Halone.
  intros s s' x. unfold DeleteOrgConnection. repeat (case_match; [intros [= <- <-]; reflexivity|]).
  destruct (api_call env _ s) as [s1 y] eqn:E. apply api_call_alone in E; [|done].
  intros Hx. assert (s1 = s') as <- by (by destruct y as [[]|]; injection Hx).
  destruct y as [b|e]; [|by rewrite E]. destruct E as [ev E].
  destruct (ow_connections s.2 !! id) as [c|]; [destruct (cr_orgId c =? org)|]; injection E as E _; rewrite <- E; try reflexivity.
  apply refs_same; [done| |done]. intros id' c' Hl. cbn in Hl. rewrite lookup_delete in Hl. by case_decide.
Qed.

Lemma insert_models_elem ev org models : forall i l l' r, insert_models ev org i models l = Ok l' -> r ∈ l' ->
  r ∈ l \/ exists m, m ∈ models /\ r = inserted_model org m.
Proof.
  induction models as [|m models IH]; intros i l l' r; cbn [insert_models]; [intros [= <-]; by left|].
  destruct (ae_step_fault _ _); [done|]. destruct (model_exists _ _ _); [done|]. intros H Hr.
  destruct (IH _ _ _ _ H Hr) as [Hl|(m' & Hm & ->)].
  - apply elem_of_app in Hl as [Hl|Hl]; [by left|]. apply list_elem_of_singleton in Hl as ->. right. exists m. split; [left|done].
  - right. exists m'. split; [by right|done].
Qed.

Lemma replace_models_refs org parsed s s' x :
  ReplaceOrgLanguageModels env org (model_inserts parsed) s = (s', x) ->
  resolves s.2 org (JArr (map snd parsed)) -> keeps_refs s.2 s'.2.
Proof using Halone.
  unfold ReplaceOrgLanguageModels. destruct (org <=? 0); [intros [= <- <-] _; reflexivity|]. destruct s as [n w].
  rewrite Halone. intros H Hr [R1 R2]. cbn in Hr, R1, R2.
  destruct (ae_fault _); [by injection H as <- <-|]. destruct (ae_step_fault _ 0); [by injection H as <- <-|].
  destruct (insert_models _ _ _ _ _) as [l|e] eqn:E; [|by injection H as <- <-].
  destruct (ae_step_fault _ _); injection H as <- <-; [done|]. split; [done|]. cbn. intros r Hl.
  destruct (insert_models_elem _ _ _ _ _ _ _ E Hl) as [Hf|(m & Hm & ->)]; [apply elem_of_List_filter in Hf as [Hf _]; by apply R2|].
  unfold model_inserts in Hm. apply elem_of_lookup_imap in Hm as (i & p & -> & Hp). cbn. intros key Hk. apply Hr.
  econstructor; [|exact Hk]. apply list_elem_of_fmap. exists p. split; [done|]. by eapply list_elem_of_lookup_2.
Qed.
End Refs.

Section ServeRefs.
Context (env : nat -> ApiEnv) (cfg : ServerConfig) (Schedule : Z -> Z -> result gerror bool) (Halone : alone env).

Lemma for_owner_refs {A} h msg (k : AuthContext -> Handler A) :
  (forall a, keeps keeps_refs (k a)) -> keeps keeps_refs (for_owner env cfg h msg k).
Proof using Halone.
  intros Hk s s' r H. apply (for_owner_alone env cfg Halone) in H as [[H _]|(a & s1 & H1 & _ & _ & H4)];
    [by apply touched_refs|]. etrans; [by apply touched_refs|]. by eapply Hk.
Qed.

Lemma read_refs {A} (b : bool) e f (q : OrgWorld -> result gerror A) :
  keeps keeps_refs (if b then refuse e else on_err f (api_read env q)).
Proof using Halone.
  destruct b; [apply keeps_refuse, _|]. apply keeps_on_err, keeps_api_read; [apply _|by apply alone_refs].
Qed.

Lemma put_connection_refs a orgID p bound sync action complaint : up_OrgID p = orgID -> up_Config p = bound ->
  keeps keeps_refs (check_references env orgID bound complaint
                      (or_500 (UpsertOrgConnection env p) (after_upsert Schedule a action sync))).
Proof using Halone.
  intros <- <- s s' r H. apply check_alone in H as [->|(s1 & E1 & Hr & H)]; [reflexivity| |done].
  unfold or_500 in H. destruct (UpsertOrgConnection env p s1) as [s2 x] eqn:E.
  rewrite <- E1. rewrite <- E1 in Hr. pose proof (upsert_connection_refs env Halone _ _ _ _ E Hr) as Hk.
  destruct x as [row|e]; [|by injection H as <- <-]. etrans; [exact Hk|]. by eapply after_upsert_refs.
Qed.

Lemma put_models_refs orgID parsed complaint :
  keeps keeps_refs (check_references env orgID (JArr (map snd parsed)) complaint
    (or_500 (ReplaceOrgLanguageModels env orgID (model_inserts parsed)) (fun _ =>
     or_500 (ListEnabledOrgLanguageModels env orgID) (fun rows => reply (model_infos rows))))).
Proof using Halone.
  intros s s' r H. apply check_alone in H as [->|(s1 & E1 & Hr & H)]; [reflexivity| |done].
  unfold or_500 at 1 in H. destruct (ReplaceOrgLanguageModels _ _ _ s1) as [s2 x] eqn:E.
  rewrite <- E1. rewrite <- E1 in Hr. pose proof (replace_models_refs env Halone _ _ _ _ _ E Hr) as Hk.
  destruct x as [[]|e]; [|by injection H as <- <-]. etrans; [exact Hk|]. revert H.
  apply (keeps_or_500 keeps_refs); [apply read_refs|]. intros rows. apply keeps_reply, _.
Qed.

Lemma patch_work_refs a id b : keeps keeps_refs (fun s =>
    match GetOrgConnectionForUpdate env (org_ID (ac_Org a)) id s with
    | (s', Err e) => (s', if is_err ErrConnectionNotFound e then not_found else unexpected)
    | (s', Ok existing) => patch_name env Schedule a id existing b s'
    end).
Proof using Halone.
  intros s s' x H. destruct (GetOrgConnectionForUpdate _ _ _ s) as [s1 y] eqn:E.
  apply get_connection_alone in E as [E1 E2]; [|done]. rewrite <- E1.
  destruct y as [c|e]; [|by injection H as <- <-]. intros Hrr. destruct (E2 _ eq_refl) as [Hc Ho].
  eapply patch_name_refs; [done|exact H| |done]. rewrite <- Ho. apply (rr_connections _ Hrr id). by rewrite E1.
Qed.

Ltac refs_step :=
  repeat first
    [ apply keeps_reply, _
    | apply keeps_with_body; [apply _|intros ?]
    | by apply put_connection_refs
    | apply put_models_refs
    | apply patch_work_refs
    | (let Hd := fresh "Hd" in intros ? ? ? Hd; by eapply delete_handler_refs; [|exact Hd])
    | apply keeps_or_500; [apply _| |intros ?]
    | apply read_refs
    | by apply upsert_secret_refs
    | progress cbn zeta
    | case_match ].

End ServeRefs.

(** ** A stored secret *)

Section Stored.
Context (env env2 : nat -> ApiEnv) (cfg : ServerConfig) (Halone : alone env) (Halone2 : alone env2).

Lemma put_secret_row iv h b s s' resp : handlePutOrgSecret env cfg (Ok iv) h (Body b) s = (s', Done resp) ->
  exists a ivHex c row, authenticated cfg h s.2 a /\ ac_Role a = OrgRoleOwner /\ 0 < org_ID (ac_Org a)
  /\ pb_Key b <> "" /\ or_Key resp = pb_Key b /\ Encrypt (Ok iv) (cfg_EncryptionKey cfg) (pb_Value b) = Ok (ivHex, c)
  /\ ow_secrets s'.2 !! (org_ID (ac_Org a), pb_Key b) = Some row /\ sr_encryptedValue row = c /\ sr_iv row = ivHex.
Proof using Halone.
  intros H. apply (for_owner_alone env cfg Halone) in H as [[_ H]|(a & s1 & _ & Ha & Hr & H)]; [done|].
  cbn [with_body] in H. destruct (validate_secret_body b) as [msg|] eqn:Ev; [done|].
  destruct (Encrypt _ _ _) as [[ivHex c]|] eqn:Ee; [|done]. unfold or_500, UpsertOrgSecret in H.
  destruct (org_ID (ac_Org a) <=? 0) eqn:Eo; [done|]. destruct (pb_Key b =s "") eqn:Ek; [done|].
  destruct (c =s ""); [done|]. destruct (ivHex =s ""); [done|].
  destruct (on_err _ _ s1) as [s2 [row|e]] eqn:E; [|done]. apply on_err_Ok in E. apply api_call_alone in E; [|done].
  destruct E as [ev [= E <-]]. injection H as <- <-. apply str_eqb_false in Ek.
  eexists a, ivHex, c, _. split_and!; try done; [lia|..].
  - rewrite <- E. cbn. apply lookup_insert_eq.
  - done.
  - done.
Qed.

Lemma read_secret_row n w org key row : ae_fault (env2 n) = None -> 0 < org -> key <> "" ->
  ow_secrets w !! (org, key) = Some row -> GetOrgSecretCiphertext env2 org key (n, w) = ((S n, w), Ok row).
Proof using Halone2.
  intros Hf Ho Hk Hrow. unfold GetOrgSecretCiphertext. replace (org <=? 0) with false by lia.
  apply str_eqb_false in Hk as ->. unfold on_err, api_read, api_call. rewrite Hf, Halone2, Hrow. done.
Qed.

(** C39: a secret that was stored can be used, by its organisation alone.  After the
    request of an owner that stores a value under a key succeeded, a reference to the
    key, bound to the organisation as configurations are when they are stored,
    resolves to the value, and for any other organisation is refused. *)
Theorem stored_secret_resolves float_int32 iv h b s s' resp n (Hiv : state iv)
    (Hfloat : forall z, 0 < z < 2 ^ 31 -> float_int32 (Itoa z) = z) (Hf : ae_fault (env2 n) = None) :
  handlePutOrgSecret env cfg (Ok iv) h (Body b) s = (s', Done resp) ->
  exists a, authenticated cfg h s.2 a /\ or_Key resp = pb_Key b
  /\ (org_ID (ac_Org a) < 2 ^ 31 -> forall org,
        (resolveCredentialValue env2 cfg float_int32 org (bound_ref (pb_Key b) (org_ID (ac_Org a))) (n, s'.2)).2
        = if org =? org_ID (ac_Org a) then Ok (pb_Value b) else Err (EText "secret reference belongs to a different org")).
Proof using Halone Halone2.
  intros H. apply put_secret_row in H as (a & ivHex & c & row & Ha & Hr & Ho & Hk & Hresp & He & Hrow & <- & <-).
  exists a. split_and!; [done..|]. intros Hrange org. cbn [resolveCredentialValue bound_ref].
  change (coalesce "" (str_member "secretRef" _)) with (pb_Key b). pose proof Hk as Hk'. apply str_eqb_false in Hk' as ->.
  cbn [negb]. unfold follow_reference. change (member "orgId" _) with (Some (JNum (Itoa (org_ID (ac_Org a))))).
  cbn [numericOrgID]. rewrite Hfloat by lia. rewrite (Z.eqb_sym org). destruct (org_ID (ac_Org a) =? org) eqn:E; [|done].
  apply Z.eqb_eq in E as <-. unfold decryptOrgSecret. rewrite (read_secret_row _ _ _ _ row) by done.
  pose proof (secret_crypt (cfg_EncryptionKey cfg) (pb_Value b) iv Hiv) as Hrt.
  destruct (Z.of_nat (String.length (cfg_EncryptionKey cfg)) =? 32) eqn:El.
  - destruct Hrt as (c' & He' & Hd & _). rewrite He in He'. injection He' as Ei Ec.
    destruct (cfg_EncryptionKey cfg =s "") eqn:Ez; [apply str_eqb_spec in Ez; rewrite Ez in El; done|]. by rewrite Ei, Ec, Hd.
  - destruct Hrt as [He' _]. by rewrite He in He'.
Qed.
End Stored.

(** ** Renaming *)

Section Rename.
Context (env : nat -> ApiEnv) (cfg : ServerConfig) (Schedule : Z -> Z -> result gerror bool) (Halone : alone env).

Lemma patch_config_write a existing name b s s' item : patch_config env Schedule a existing name b s = (s', Done item) ->
  exists s1 p, s1.2 = s.2 /\ up_OrgID p = org_ID (ac_Org a) /\ up_Name p = name
  /\ patch_write env Schedule a p s1 = (s', Done item).
Proof using Halone.
  intros H. unfold patch_config in H.
  destruct (pa_Config b) as [| | | | |m]; [exists s; eexists; split_and!; [done| | |exact H]; done|..];
    (destruct (BindToOrg _ _) as [| | | | |cfgMap] eqn:Eb; try done);
    (destruct (coalesce "" _ =s ""); [done|]);
    unfold check_references in H; (destruct (CollectUnique _) as [|c cs]; [exists s; eexists; split_and!; [done| | |exact H]; done|]);
    unfold or_500, SelectMissingOrgSecretKeys in H; (destruct (_ <=? 0); [done|]);
    (destruct (on_err _ _ s) as [s1 [missing|e]] eqn:E; [|done]); apply on_err_read_alone in E as [E _]; try done;
    (destruct missing; [|done]); exists s1; eexists; split_and!; [done| | |exact H]; done.
Qed.

Lemma after_upsert_Done a action sync row s s' item : after_upsert Schedule a action sync row s = (s', Done item) ->
  item = connection_item row /\ ow_connections s'.2 = ow_connections s.2.
Proof.
  unfold after_upsert, emitAudit. destruct (auditActor a). repeat case_match; by intros [= <- <-] || done.
Qed.

(** A failure of the driver is not the absence of rows. *)
Context (Hfault : forall n e, ae_fault (env n) = Some e -> is_err ErrNoRows e = false).

Lemma name_available_alone org name id s s' : CheckOrgConnectionNameAvailable env org name id s = (s', Ok tt) ->
  forall id' c, ow_connections s.2 !! id' = Some c -> cr_orgId c = org -> cr_name c = name -> id' <> id -> False.
Proof using Halone Hfault.
  unfold CheckOrgConnectionNameAvailable. destruct (org <=? 0); [done|]. destruct (name =s ""); [done|].
  destruct s as [n w]. unfold api_read, api_call. rewrite Halone. cbn [snd].
  destruct (ae_fault (env n)) as [e|] eqn:Ef; [by rewrite (Hfault n e Ef)|].
  destruct (existsb _ _) eqn:Ex; [done|]. intros _ id' c Hc Ho Hn Hne. apply not_true_iff_false in Ex. apply Ex.
  apply existsb_exists. exists (id', c). split.
  - apply list_elem_of_In. unfold org_connections. apply elem_of_List_filter. rewrite elem_of_map_to_list. cbn. split; [done|lia].
  - cbn. rewrite Hn, str_eqb_refl. cbn. lia.
Qed.

(** C40: a connection that is renamed is copied.  When the request that gives a
    connection another name succeeds, the row of the connection is still there,
    unchanged, and the reply is about a second row, with an id that was free, that
    carries the new name. *)
Theorem renamed_connection_copied h idStr id name b s s' item (Hb : pa_Name b = Some name) (Hid : ParseInt32 idStr = Some id) :
  handlePatchOrgConnection env cfg Schedule h idStr (Body b) s = (s', Done item) ->
  exists c, ow_connections s.2 !! id = Some c
  /\ (cr_name c <> name ->
      ow_connections s'.2 !! id = Some c /\ ow_connections s.2 !! ci_ID item = None
      /\ exists c', ow_connections s'.2 !! ci_ID item = Some c' /\ cr_name c' = name /\ cr_orgId c' = cr_orgId c).
Proof using Halone Hfault.
  intros H. apply (for_owner_alone env cfg Halone) in H as [[_ H]|(a & s1 & Ht & _ & _ & H)]; [done|].
  rewrite Hid in H. cbn [with_body] in H. destruct (empty_patch b); [done|].
  assert (ow_connections s1.2 = ow_connections s.2) as Ec by (by destruct Ht as [->|(? & ? & ->)]).
  destruct (GetOrgConnectionForUpdate _ _ _ s1) as [s2 [c|e]] eqn:E; [|by destruct (is_err _ _)].
  apply get_connection_alone in E as [E1 E2]; [|done]. destruct (E2 _ eq_refl) as [Hc Ho].
  exists c. rewrite <- Ec. split; [done|]. intros Hn. unfold patch_name in H. rewrite Hb in H.
  destruct (name =s ""); [done|]. destruct (name =s cr_name c) eqn:En; [apply str_eqb_spec in En; congruence|].
  destruct (CheckOrgConnectionNameAvailable _ _ _ _ s2) as [s3 [[]|e]] eqn:Ek; [|by destruct (is_err _ _)].
  apply name_check_alone in Ek as Ek'; [|done].
  apply patch_config_write in H as (s4 & p & E4 & Hp & Hpn & H).
  unfold patch_write in H. destruct (UpsertOrgConnection env p s4) as [s5 [row|e]] eqn:Eu; [|by destruct (err_is _ _)].
  apply after_upsert_Done in H as [-> Hs']. rewrite Hs'.
  assert (s4.2 = s1.2) as E41 by congruence.
  pose proof (name_available_alone _ _ _ _ _ Ek) as Ka. rewrite E1, <- E41 in Ka. rewrite <- E41 in Hc.
  assert (named_connection (org_ID (ac_Org a)) name s4.2 = None) as Hnone.
  { destruct (named_connection _ _ _) as [[id' c']|] eqn:En'; [|done]. exfalso.
    apply named_connection_spec in En' as (F1 & F2 & F3).
    assert (id' <> id) as Hne by (intros ->; rewrite F1 in Hc; simplify_eq). by apply (Ka id' c'). }
  unfold UpsertOrgConnection in Eu. repeat (case_match; [done|]). apply on_err_Ok in Eu.
  apply api_call_alone in Eu; [|done]. destruct Eu as [ev Eu]. unfold upsert_connection in Eu. rewrite Hp, Hpn, Hnone in Eu.
  destruct (ow_connections s4.2 !! ae_id ev) eqn:Ef; [done|]. injection Eu as Eu <-. rewrite <- Eu, <- E41. cbn [ow_connections set_connections].
  split_and!.
  - rewrite lookup_insert_ne; [done|]. intros <-. congruence.
  - done.
  - eexists. split; [apply lookup_insert_eq|]. cbn. split; [done|]. congruence.
Qed.
End Rename.

(** ** A concrete organisation *)

Module Sample.

Definition server : ServerConfig :=
  {| cfg_EncryptionKey := "0123456789abcdef0123456789abcdef"; cfg_SingleTenantOrgID := 0 |}.

Definition headers : Header := {| hd_ApiKey := "cik_k1"; hd_Authorization := "" |}.

Definition key_hash : string := HashSecret (cfg_EncryptionKey server) "k1".

Definition github_config : json :=
  JObj [("type", JStr "github"); ("url", JStr "https://host"); ("password", JStr "pw"); ("token", bound_ref "gh" 1)].

Definition github : ConnectionRow :=
  {| cr_orgId := 1; cr_name := "github"; cr_connectionType := "github"; cr_config := github_config; cr_isDeclarative := false;
     cr_syncedAt := None; cr_enforcePermissions := false; cr_enforcePermissionsForPublicRepos := false; cr_updatedAt := 0 |}.

Definition secret_row : SecretRow := {| sr_encryptedValue := "00"; sr_iv := "00"; sr_createdAt := 0; sr_updatedAt := 0 |}.

Definition world : OrgWorld :=
  {| ow_orgs := {[1 := {| og_name := "one"; og_domain := "one"; og_atomWorkspaceId := None; og_metadata := "" |}]};
     ow_users := {["u1" := {| user_email := None; user_name := None |}]};
     ow_members := {[(1, "u1") := "OWNER"]};
     ow_keys := {[key_hash := {| ak_orgId := 1; ak_createdById := "u1"; ak_lastUsedAt := None |}]};
     ow_secrets := {[(1, "gh") := secret_row; (1, "old") := secret_row; (2, "gh") := secret_row]};
     ow_connections := {[5 := github]};
     ow_models := []; ow_audit := [] |}.

Definition quiet (n : nat) : ApiEnv :=
  {| ae_fault := None; ae_now := 10; ae_id := 100; ae_others := fun w => w; ae_step_fault := fun _ => None |}.

Definition no_capacity (_ _ : Z) : result gerror bool := Ok false.

Definition iv : list Z := map Z.of_nat (seq 0 16).

Lemma sample_alone : alone quiet.
Proof. done. Qed.

Lemma iv_state : state iv.
Proof. split; [done|]. unfold iv. rewrite Forall_map. apply Forall_seq. intros j Hj. unfold is_byte. lia. Qed.

(** A configuration of a new connection that refers to the secret "old". *)
Definition post_old : Request :=
  PostConnection (Body {| po_Name := "gitlab";
    po_Config := JObj [("type", JStr "gitlab"); ("token", JObj [("secretRef", JStr "old")])]; po_Sync := Some false |}).

Lemma world_resolves : refs_resolve world.
Proof.
  split.
  - intros id c Hc. cbn in Hc. apply lookup_singleton_Some in Hc as [<- <-].
    intros key Hk%Collect_spec. vm_compute in Hk. apply list_elem_of_singleton in Hk as ->. vm_compute. by eexists.
  - intros r Hr. by apply elem_of_nil in Hr.
Qed.

Lemma secret_roundtrip_witness : exists c,
  Encrypt (Ok iv) (cfg_EncryptionKey server) "hunter2" = Ok (hex_encode iv, c)
  /\ Decrypt (cfg_EncryptionKey server) (hex_encode iv) c = Ok "hunter2"
  /\ Z.of_nat (String.length c) = 32 * (Z.of_nat (String.length "hunter2") / 16 + 1).
Proof. exact (secret_roundtrip (cfg_EncryptionKey server) "hunter2" iv iv_state). Defined.

Lemma redaction_clean_witness : nesting github_config <= MaxWalkDepth
  /\ clean (Redact github_config) /\ Redact (Redact github_config) = Redact github_config.
Proof. split; [vm_compute; discriminate|]. apply redaction_clean. vm_compute. discriminate. Defined.

(** The secret is in use: the request is refused. *)
Lemma requests_confined_witness : exists s',
  serve quiet server no_capacity headers (DeleteSecret "gh") (0%nat, world) = (s', 400)
  /\ (DeleteSecret "gh" = ListModels /\ touched world s'.2 \/ confined server headers (400 = 200) world s'.2).
Proof.
  eexists. split; [vm_compute; reflexivity|].
  eapply (requests_confined quiet server no_capacity sample_alone headers (DeleteSecret "gh") (0%nat, world)).
  vm_compute. reflexivity.
Defined.


(** Requests that overlap: after the deletion of a secret has looked for references to
    it, another session stores one; then the secret is deleted. *)
Definition overlapping (n : nat) : ApiEnv :=
  {| ae_fault := None; ae_now := 10; ae_id := 100; ae_step_fault := fun _ => None;
     ae_others := fun w => if (n =? 4)%nat then (serve quiet server no_capacity headers post_old (0%nat, w)).1.2 else w |}.

Theorem overlapping_requests_dangle :
  refs_resolve world
  /\ exists w', serve overlapping server no_capacity headers (DeleteSecret "old") (0%nat, world) = ((5%nat, w'), 200)
     /\ ~ refs_resolve w'.
Proof.
  split; [exact world_resolves|]. eexists. split; [vm_compute; reflexivity|]. intros [H _].
  specialize (H 100 _ eq_refl "old").
  assert (is_Some (@None SecretRow)) as [? [=]]. apply H.
  econstructor 2; [right; left|]. by constructor.
Qed.

Definition new_secret : putOrgSecretBody := {| pb_Key := "api"; pb_Value := "hunter2" |}.

Definition number_int32 (t : string) : Z := coalesce 0 (json_int32 t).

Lemma number_int32_Itoa z : 0 < z < 2 ^ 31 -> number_int32 (Itoa z) = z.
Proof. intros Hz. unfold number_int32. by rewrite json_int32_Itoa by lia. Qed.

Lemma stored_secret_resolves_witness : exists s' resp,
  handlePutOrgSecret quiet server (Ok iv) headers (Body new_secret) (0%nat, world) = (s', Done resp)
  /\ exists a, authenticated server headers world a /\ or_Key resp = "api"
     /\ (org_ID (ac_Org a) < 2 ^ 31 -> forall org,
           (resolveCredentialValue quiet server number_int32 org (bound_ref "api" (org_ID (ac_Org a))) (0%nat, s'.2)).2
           = if org =? org_ID (ac_Org a) then Ok "hunter2" else Err (EText "secret reference belongs to a different org")).
Proof.
  eexists _, _. split; [vm_compute; reflexivity|].
  eapply (stored_secret_resolves quiet quiet server sample_alone sample_alone number_int32 iv headers new_secret (0%nat, world)).
  - exact iv_state.
  - exact number_int32_Itoa.
  - reflexivity.
  - vm_compute. reflexivity.
Defined.

Definition rename : patchConnectionBody := {| pa_Name := Some "gitlab"; pa_Config := JNull; pa_Sync := None |}.

Lemma renamed_connection_copied_witness : exists s' item,
  handlePatchOrgConnection quiet server no_capacity headers "5" (Body rename) (0%nat, world) = (s', Done item)
  /\ ci_ID item = 100
  /\ exists c, ow_connections world !! 5 = Some c
     /\ (cr_name c <> "gitlab" ->
         ow_connections s'.2 !! 5 = Some c /\ ow_connections world !! ci_ID item = None
         /\ exists c', ow_connections s'.2 !! ci_ID item = Some c' /\ cr_name c' = "gitlab" /\ cr_orgId c' = cr_orgId c).
Proof.
  eexists _, _. split; [vm_compute; reflexivity|]. split; [reflexivity|].
  eapply (renamed_connection_copied quiet server no_capacity sample_alone ltac:(done) headers "5" 5 "gitlab" rename (0%nat, world)).
  - reflexivity.
  - reflexivity.
  - vm_compute. reflexivity.
Defined.
End Sample.
